(* ===== verification/_CoqProject ===== *)
-Q . S2P
Prelude.v
PyStr.v
Json.v
Sanitization.v
Models.v
Effects.v
Transport.v
Middleware.v
RateLimit.v
BoundedDict.v
UrlPolicy.v
Cache.v
ProxyHealth.v
ProxyPool.v
RoutedTransport.v
ArtifactStore.v
Commerce.v
Connector.v
ShopifyProduct.v
Shopify.v
ShopifyResume.v
Datasets.v
CatalogueConnector.v
Regex.v
RegexFacts.v
PyNumber.v
HtmlPage.v
Manifest.v
ManifestHistory.v
ManifestProperties.v
Lineages.v
Pipeline.v
PipelineResume.v
Publication.v
WorkBudget.v
BespokePages.v
BespokeResume.v
JobTables.v
Notifications.v
Outbox.v
Runs.v
JobQueue.v
JobControl.v
JobInvariant.v
HostSlots.v
Schedule.v
Monitor.v
Health.v
AlertProperties.v
Diagnostics.v
DumpFiles.v
Dispatcher.v
JobProperties.v
Worker.v
Canary.v
WorkerProperties.v
LoadProperties.v
Loading.v
LoadingProperties.v
ProxyLedger.v
LedgerProperties.v
ReservedPool.v
PoolRefinement.v
HostPacing.v
LegacyFetch.v
LegacyFetchProperties.v
Domain.v
LegacyCrawl.v
LegacyCrawlProperties.v
CrawlRunner.v
Discovery.v
