(* ===== verification/Prelude.v ===== *)
(** Verification of the commerce collector.

    The repository has three Python programs. The library [commerce-scraper]
    fetches a shop politely (transports, proxies, budgets) and yields pages of
    neutral product snapshots (connectors, models). The collector
    [catalogue-dump] runs it: a job queue over PostgreSQL with an outbox, runs,
    schedules and host slots ([ops/]), a pipeline that projects every page into
    datasets and stages the records ([pipeline/], [datasets/]), and a manifest
    that commits pages, seals their lineage and publishes ([ops/outputs.py]).
    The operator's service [catalogue-control] pauses, resumes, cancels and
    retries jobs. This development models those parts by shallow embedding:
    functions of the source are Rocq functions, a raise is [Err], a coroutine
    with state is a function in a state-and-exception monad, concurrency is a
    step relation, and a database is a record of finite maps whose operations
    are atomic transactions.

    * How the parts fit

    A run creates a job per source ([Runs]); the dispatcher publishes the
    outbox row of a job's generation to a broker ([Outbox], [Dispatcher]); a
    worker reserves what a delivery names, under an execution token that guards
    what it does to the job later ([JobQueue]), takes a host slot ([HostSlots]), resolves
    the lineage to work on ([Lineages]) and runs the pipeline ([Pipeline]) over
    the pages a connector yields ([Connector], [Shopify], [BespokePages]). Every
    request of the connector goes through the middleware ([Middleware]) with its
    budget ([Transport], [WorkBudget]), address policy ([UrlPolicy]), cache
    ([Cache]), limiter ([RateLimit]) and routed proxy ([RoutedTransport],
    [ProxyPool], [ProxyHealth]). A projected page is staged in the artifact
    store ([ArtifactStore]) and committed with its cursor ([Manifest]); a sealed
    lineage is published ([Publication]). [Worker] and [Canary] put these together:
    one pass of a worker's loop, from the delivery it takes to the products it
    loads; meanwhile the leader raises and closes alerts ([Monitor], [Health],
    [Notifications]). What a paid proxy may carry is reserved and settled in a ledger
    ([ProxyLedger]) through an adapter of the library's proxy protocol ([ReservedPool]).
    Interfaces between parts are classes:
    [ArtifactStore]/[ArtifactStoreLaws] is what the pipeline and the publication
    are proved against and [LocalArtifactStoreLaws] discharges it for the file
    store; [PageCommitter] is the pipeline's view of the manifest; the pages of a
    connector are what a generator of [Connector] produces and, for resumption, what
    [PipelineResume.enumeration] demands.

    * Files

    Shared:
    - [Prelude], [PyStr], [Json], [Effects], [BoundedDict]: results and
      exceptions, record update, reachability, text and [urllib.parse], JSON
      values, the state-and-exception monad with [try]/[finally] and its
      weakest-precondition rules, bounded insertion-ordered dictionaries.
    - [Regex], [RegexFacts], [PyNumber]: the [re] module (pattern syntax, backtracking
      matcher, search, iteration, splitting), the relation for which its matcher is
      proved sound and complete, and decimals and binary64 floats, so that what the
      code reads off markup is computed and not assumed.

    The library, [commerce-scraper/src/mb_commerce_scraper/]:
    - [Sanitization], [Models], [Commerce]: [models/sanitization.py],
      [policies.py], [diagnostics.py], [collection.py], [commerce.py]. A validated
      pydantic constructor is a function to [result].
    - [Transport], [Middleware], [RateLimit], [UrlPolicy], [Cache]:
      [transports/base.py], [middleware.py], [rate_limit.py], [url_policy.py] with
      [robots.py], [cache.py].
    - [ProxyHealth], [ProxyPool], [RoutedTransport]: [proxy/health.py],
      [static.py], [transport.py].
    - [Connector], [ShopifyProduct], [Shopify], [ShopifyResume]:
      [connectors/base.py], [models/checkpoints.py], [connectors/shopify.py].
      [Discovery]: [discovery/sitemap.py].

    The collector, [catalogue-dump/src/mb_ceramics_catalogue/]:
    - [JobTables], [Outbox], [Runs], [JobQueue], [HostSlots], [Schedule],
      [Dispatcher]: the operational tables of [storage/schema] and
      [ops/outbox.py], [delivery.py], [runs.py], [queue.py], [leases.py],
      [schedule.py], [dispatcher.py]. [JobControl]: the controls of
      [catalogue-control] ([queries.py], [app.py]). [JobInvariant] and
      [JobProperties] hold what is proved of them together.
    - [WorkBudget]: [connectors/budget.py], [pipeline/budget.py].
    - [Datasets], [CatalogueConnector], [ArtifactStore], [Pipeline]: [datasets/],
      [connectors/base.py], [pipeline/outputs.py], [pipeline/runner.py].
    - [HtmlPage], [BespokePages], [BespokeResume]: [connectors/page.py] and the
      three storefronts of [connectors/bespoke_pages.py], with the proof that the
      Axner connector is an enumeration.
    - [Manifest], [ManifestHistory], [ManifestProperties]: [ops/outputs.py] and
      the tables it writes. [Lineages]: [ops/library_lineages.py].
    - [PipelineResume], [Publication]: the composition of connector, pipeline,
      store and manifest.
    - [Notifications], [Monitor], [Health], [AlertProperties]: [ops/events.py],
      [ops/monitor.py], [ops/health.py].
    - [Diagnostics], [DumpFiles], [Worker], [Canary]: diagnostic texts,
      [crawl/artifacts.py] and [ops/worker.py]: its loop body, heartbeat and
      shutdown, the legacy crawl and the connector collection. [WorkerProperties]
      and [LoadProperties]: what a worker guarantees, and what stands behind the
      loads it asks for.

    - [Loading], [LoadingProperties]: [storage/postgres.py] and the function
      [catalogue.load_record] of [storage/schema]: the plan of a load, the product
      tables, the loading of a source and the retirement of what it did not list.
    - [ProxyLedger], [LedgerProperties]: [proxy.py], the ledger of paid traffic, with
      the clean-up and the kill switch of [catalogue-control] ([proxy_control.py],
      [proxy_api.py]). [ReservedPool], [PoolRefinement]:
      [ops/commerce_scraper_proxy.py] and the proof that it keeps the ledger's
      discipline.

    - [HostPacing], [LegacyFetch], [LegacyFetchProperties]: the limiter of hosts, the
      fetcher of the legacy scrapers and its cache ([scrapers/base.py], [cache.py]).
      [Domain]: the reading of product texts and the judgement of records
      ([scrapers/domain.py], [record.py]). [LegacyCrawl], [LegacyCrawlProperties],
      [CrawlRunner]: what the legacy scrapers share ([scrapers/base.py]) and their runs
      ([crawl/runner.py]).

    * What the theorems show

    - Jobs: in every history of operations the tables stay consistent, a lost
      execution token never regains authority over its job's row (what an execution
      writes to the manifest is not guarded by the token), a reservation is granted only
      when nothing forbids it and a delivery is acknowledged without running
      only for a listed reason, terminal jobs are settled, the last job of a run
      closes it, and every eligible job is offered again.
    - Workers: whatever fails, a delivery is settled at most once; a worker that
      reaches its database ends every execution it begins and holds nothing of it;
      a load that may retire products holds the records of an uncapped crawl's dump, or
      of the artifact published of a lineage sealed as a completed enumeration.
    - Products: a load keeps what its dump lists and retires exactly what a whole dump
      does not, loading a record again changes nothing, one statement for all the records
      does what one at a time does, and only a file known to be whole may retire.
    - Alerts: a condition is never open twice, the staleness alert follows its
      source, and a disabled source returns exactly when its site held up.
    - Collection: every page of the Shopify connector is valid and its products are
      well-typed snapshots whatever the shop answers, a collection ends, and over an
      unchanged shop interrupted sessions show the products of one pass. The sitemap
      walk reads no sitemap twice and no more than its limit, and one that ends has
      yielded every wanted page they list, once. Attempts of the pipeline cut anywhere record
      each page once and in order, with the projections of that page; the file
      published of a sealed lineage decodes to exactly those projections.
    - Manifest: pages, batches, outcomes and lineages agree in every history;
      committing a page is idempotent, a sealed lineage never changes, and
      resolution keeps at most one active lineage of a runtime.
    - Requests: budgets are never oversubscribed and reserves cannot be starved,
      every attempt settles its permit and authorisation once, only public
      addresses of allowed origins are fetched, robots fails closed, per-origin
      rates and concurrency are bounded, a sticky proxy lease is not replaced in
      use and no lease outlives the close, credentials do not survive
      sanitisation.
    - Paid traffic: the reservations and settlements of a billing cycle stay within its
      ceiling as long as attempts are reconciled before their reservation is settled
      and a late settlement brings no new bytes, which every interleaving of the adapter's
      coroutines does while the other clients do so too and leave its live reservations
      alone; without it a cycle can hold more than its ceiling
      ([late_attempt_overspends], [late_settlement_overspends]). A killed cycle carries
      no new traffic.
    - Legacy scrapers: every request leaves inside the gate of its host directly after its
      turn was taken, a fetch makes a bounded number of them and gives its places back; any
      two requests that asked since a floor was set keep it; a sick origin is not paid for;
      what the asked host itself answered can be replayed. The sitemaps are walked to their end
      or the result says so, every row is accounted for by rules stated apart from the code, a listing that broke off retires
      nothing, and a run answers for every source it was given. The keyword tables decide
      the rule they are written for, whatever regular expression they compile to.
    - Where the code breaks what it means to do, a lemma proves the behaviour it
      has, next to the definitions ([restarted_sequence_is_refused],
      [silent_failure_ends_the_run], [terminal_cursor_is_stuck], ...).

    * Fuel and bounds

    Recursion is structural wherever the source iterates over data. Loops that
    wait for the world to stop them carry a bound of the source: [occurrences]
    takes the 500 steps after which [schedule.py] gives up; the retries of the
    middleware run over [retries + 1] attempts; inventory enrichment runs over
    the number of pending products, each round of which answers at least one
    ([ShopifyProduct]); a walk over listing pages runs over the page limit that
    remains, nested microdata over the length of the fragment
    ([microdata_read_fuel]), a repetition of [Regex] over the text that is left.
    The walk of the legacy sitemaps ([LegacyCrawl.walk]) has no bound of its own in the
    source and raises [WalksOn] here when its fuel ends; [sitemap_walk_ends] gives a fuel
    that is enough for a shop whose sitemaps are finitely many.
    [Connector.drain] takes fuel to run a generator; [drain_ends] shows
    that the measure of its work is enough, and the termination theorem of
    [Shopify] instantiates it.

    * Conventions and assumptions

    - Integers are [Z]; Python's do not overflow, and the columns that PostgreSQL
      bounds carry the checks of their tables.
    - Text is ASCII ([PyStr]); the database orders text by code points.
    - A transaction runs alone: it reads the state it begins with and either
      commits what it leaves or restores it. Row locks and [skip locked] are
      this sequencing. Fresh UUIDs are a counter.
    - Times are integers: ticks of an injected clock in the library, microseconds
      in the operational database, where [seconds n] is [n * 1000000].
    - Gaps and times of the legacy fetcher are rationals of one clock, and a draw of
      [random] is a number that is given. What other tasks do to a limiter while one waits
      is any history of its operations ([OutsideLaws]). A fetch logs what it does with the
      clock and the limiter at that moment ([LegacyFetch.Event]), so that its theorems speak
      of the limiter's own state; waiting for a turn is also a step relation of many tasks
      with the lock of each key ([HostPacing.pacing_step]). A scraper's own [scrape] is any
      program over the crawl.
    - A sleep of [RateLimit] ends when it is due; an event loop may be later, never earlier.
      The cursor of a replayed page is compared with its key order ([Manifest.verify_replay]),
      and numbers of PostgreSQL by one equality ([Loading.Postgres]); the code's own
      comparisons tell neither key orders nor the scales of equal numbers apart.
    - A dictionary whose order is observable is an association list, one that is
      only looked up a [gmap].
    - The broker delivers what it has for the routes asked for and accepts every
      settlement. An outage of the database strikes when a connection is asked for
      ([ww_outages] says at which); a connection that was given serves until it is
      given back. What other processes do while a source answers is a function of
      the database ([en_meanwhile]), arbitrary in the theorems. A connection of the proxy adapter
      fails before anything is done ([ReservedPool.round_trip]); one lost while it
      commits is not modelled.
    - Third-party code and the parts of the standard library that are not text,
      numbers or collections are parameters with the laws the code relies on: the decoder of
      JSON responses, datetime parsing, SHA-256 and gzip ([Codec] with
      [CodecLaws], shown satisfiable by a concrete codec), DNS, the robots
      parser, the cron calendar, the broker, [html.unescape], [json.loads] and the
      [repr] of containers.

    * Not modelled

    Of the worker, the proxy lease of a legacy job and the pilot evidence its end
    records (the result of the first is a parameter), the advisory lock of the
    leader, sessions, record building and the wiring of the loader ([Loading] is proved of
    by itself; a worker's load is the call [Worker.LoadCall]). Backends that only perform I/O (httpx, browser, NATS, SQL drivers, file
    locks, fsync, temporary names), telemetry, logging and metrics, the command
    line and user interfaces, the promotion of products and the read models over them. The other
    shop connectors, the legacy scrapers' HTML extraction with the firing ranges, sizes and
    colours it reads, the evaluation of scripts in their browser and the metering of its
    subrequests, and the ceramics projector (which depends on their domain records), the proxy providers' clients,
    secrets and administration (the rest of the proxy API) and the
    collection client of the library are not modelled. Of the operational tables, foreign keys to the product tables
    and the non-emptiness checks of dataset names are left out. *)
From stdpp Require Export base tactics option list strings gmap.
From Stdlib Require Export ZArith Lia.
#[global] Open Scope Z_scope.

(** * Python-style results

    A Python function that can raise is modelled by a [result]: [Ok v] is a
    normal return and [Err e] carries the exception. *)

Inductive result (E A : Type) : Type :=
| Ok (a : A)
| Err (e : E).
Arguments Ok {E A} _.
Arguments Err {E A} _.

#[export] Instance result_ret {E} : MRet (result E) := fun A a => Ok a.
#[export] Instance result_bind {E} : MBind (result E) :=
  fun A B k m => match m with Ok a => k a | Err e => Err e end.

#[export] Instance result_eq_dec {E A} `{EqDecision E, EqDecision A} :
  EqDecision (result E A).
Proof. solve_decision. Defined.

Definition is_ok {E A} (r : result E A) : bool :=
  match r with Ok _ => true | Err _ => false end.

(** [ensure b e] is the statement [if not b: raise e]. *)
Definition ensure {E} (b : bool) (e : E) : result E () :=
  if b then Ok () else Err e.

Lemma bind_Ok {E A B} (m : result E A) (k : A -> result E B) b :
  (m ≫= k) = Ok b -> exists a, m = Ok a /\ k a = Ok b.
Proof. destruct m as [a|e]; [exists a; auto|discriminate]. Qed.

Lemma ensure_Ok {E} b (e : E) u : ensure b e = Ok u -> b = true.
Proof. by destruct b. Qed.

(** [[f(x) for x in l]]: the first exception ends it. *)
Fixpoint map_result {E A B} (f : A -> result E B) (l : list A) : result E (list B) :=
  match l with
  | [] => Ok []
  | x :: r => y ← f x; ys ← map_result f r; Ok (y :: ys)
  end.

Lemma map_result_map {E A B} (f : A -> result E B) (g : A -> B) l :
  Forall (fun x => f x = Ok (g x)) l -> map_result f l = Ok (map g l).
Proof. induction 1 as [|x l Hx _ IH]; simpl; [done|]. by rewrite Hx, IH. Qed.

Lemma map_result_Forall {E A B} (f : A -> result E B) l ys :
  map_result f l = Ok ys -> Forall2 (fun x y => f x = Ok y) l ys.
Proof.
  revert ys. induction l as [|x l IH]; intros ys H; cbn [map_result] in H; [by simplify_eq|].
  apply bind_Ok in H as (y & Hy & (zs & Hz & [= <-])%bind_Ok). constructor; auto.
Qed.

(** The exceptions the modelled code raises, by Python class. *)
Inductive pyexn : Type :=
| ValueError (message : string)
| TypeError (message : string)
| RuntimeError (message : string)
| KeyError (message : string)
| AssertionError (message : string).

#[export] Instance pyexn_eq_dec : EqDecision pyexn.
Proof. solve_decision. Defined.

(** * Booleans of decisions *)

(** [dec_bool P] is the boolean a Python comparison evaluates to. *)
Notation "⌊ P ⌋" := (bool_decide P) (at level 0, P at level 200) : stdpp_scope.

(** * Tactics *)

(** Turn every boolean hypothesis about [bool_decide], [&&], [||], [negb]
    into the proposition it decides. *)
Ltac bool_facts :=
  repeat match goal with
  | H : bool_decide _ = true |- _ => apply bool_decide_eq_true in H
  | H : bool_decide _ = false |- _ => apply bool_decide_eq_false in H
  | H : context [_ && _ = true] |- _ => rewrite andb_true_iff in H
  | H : context [_ || _ = true] |- _ => rewrite orb_true_iff in H
  | H : context [_ && _ = false] |- _ => rewrite andb_false_iff in H
  | H : context [_ || _ = false] |- _ => rewrite orb_false_iff in H
  | H : negb _ = true |- _ => apply negb_true_iff in H
  | H : negb _ = false |- _ => apply negb_false_iff in H
  | H : (_ <=? _) = true |- _ => apply Z.leb_le in H
  | H : (_ <=? _) = false |- _ => apply Z.leb_gt in H
  | H : (_ <? _) = true |- _ => apply Z.ltb_lt in H
  | H : (_ <? _) = false |- _ => apply Z.ltb_ge in H
  | H : (_ =? _) = true |- _ => apply Z.eqb_eq in H
  | H : (_ =? _) = false |- _ => apply Z.eqb_neq in H
  | H : (_ <=? _)%nat = true |- _ => apply Nat.leb_le in H
  | H : (_ <=? _)%nat = false |- _ => apply Nat.leb_gt in H
  | H : (_ <? _)%nat = true |- _ => apply Nat.ltb_lt in H
  | H : (_ <? _)%nat = false |- _ => apply Nat.ltb_ge in H
  | H : _ /\ _ |- _ => destruct H
  end.

(** Step through the branches of a monadic or conditional program in
    hypothesis [H], discarding the branches that contradict it. *)
Ltac step_in H :=
  repeat (match type of H with
          | (_ ≫= _) = Ok _ =>
              let u := fresh "u" in let E := fresh "E" in
              apply bind_Ok in H as (u & E & H);
              first [apply ensure_Ok in E | idtac]
          | ensure _ _ = Ok _ => apply ensure_Ok in H
          | context [match ?x with _ => _ end] =>
              let E := fresh "E" in destruct x eqn:E; simplify_eq/=
          end).

Ltac split_all := repeat (split || split_and).

(** Case analysis on every [match] scrutinee of the goal. *)
Ltac case_all := repeat (case_match; simplify_eq/=).

(** * Options *)

(** [x is not None] and [x is None]. *)
Definition is_some {A} (o : option A) : bool := match o with Some _ => true | None => false end.
Definition is_none {A} (o : option A) : bool := negb (is_some o).

(** [coalesce a b] is SQL's [coalesce(a, b)] and Python's [a or b] on options. *)
Definition coalesce {A} (a b : option A) : option A :=
  match a with Some _ => a | None => b end.

Lemma coalesce_none_r {A} (a : option A) : coalesce a None = a.
Proof. by destruct a. Qed.

(** [within limit v] holds when [limit] is absent or [v] does not exceed it. *)
Definition within (limit : option Z) (v : Z) : bool :=
  match limit with None => true | Some m => v <=? m end.

(** [below limit v] holds when [limit] is absent or [v] is strictly below it. *)
Definition below (limit : option Z) (v : Z) : bool :=
  match limit with None => true | Some m => v <? m end.

Lemma within_mono limit v w : v <= w -> within limit w = true -> within limit v = true.
Proof. destruct limit; simpl; [|done]. rewrite !Z.leb_le. lia. Qed.

(** * Sums over lists and finite maps *)

Definition sum_Z (l : list Z) : Z := foldr Z.add 0 l.

Lemma sum_Z_app l k : sum_Z (l ++ k) = sum_Z l + sum_Z k.
Proof. induction l; simpl; lia. Qed.

Lemma sum_Z_nonneg l : Forall (fun z => 0 <= z) l -> 0 <= sum_Z l.
Proof. induction 1; simpl; lia. Qed.

(** The sum of the values of a finite map of integers. *)
Definition map_sum {K} `{Countable K} (m : gmap K Z) : Z :=
  map_fold (fun _ v acc => v + acc) 0 m.

Section map_sum.
Context {K : Type} `{Countable K}.
Implicit Types m : gmap K Z.

Lemma map_sum_empty : map_sum (∅ : gmap K Z) = 0.
Proof. apply map_fold_empty. Qed.

Lemma map_sum_insert m k v : m !! k = None -> map_sum (<[k:=v]> m) = v + map_sum m.
Proof.
intros Hk. unfold map_sum. apply map_fold_insert_L; [|done].
intros; lia.
Qed.

Lemma map_sum_delete m k v : m !! k = Some v -> map_sum (delete k m) = map_sum m - v.
Proof.
intros Hk. rewrite <- (insert_delete_id m k v Hk) at 2.
rewrite map_sum_insert by apply lookup_delete_eq. lia.
Qed.

Lemma map_sum_nonneg m : map_Forall (fun _ v => 0 <= v) m -> 0 <= map_sum m.
Proof.
induction m as [|k v m Hk IH] using map_ind; intros Hall.
- by rewrite map_sum_empty.
- rewrite map_sum_insert by done.
apply map_Forall_insert in Hall as [? ?]; [|done]. specialize (IH ltac:(done)). lia.
Qed.

Lemma map_sum_lookup_le m k v :
map_Forall (fun _ v => 0 <= v) m -> m !! k = Some v -> v <= map_sum m.
Proof.
intros Hall Hk. pose proof (map_sum_delete m k v Hk).
pose proof (map_sum_nonneg (delete k m) ltac:(by apply map_Forall_delete)). lia.
Qed.
End map_sum.

(** * Lists *)

Lemma filter_all {A} (P : A -> Prop) `{!forall x, Decision (P x)} (l : list A) :
  Forall P l -> filter P l = l.
Proof. induction 1 as [|x l Hx _ IH]; [done|]. by rewrite filter_cons_True, IH. Qed.

Lemma filter_none {A} (P : A -> Prop) `{!forall x, Decision (P x)} (l : list A) :
  Forall (fun x => ~ P x) l -> filter P l = [].
Proof. induction 1 as [|x l Hx _ IH]; [done|]. by rewrite filter_cons_False. Qed.

(** * Reflexive-transitive closure of a labelled step relation *)

Section star.
Context {S : Type} (step : S -> S -> Prop).

(** States reachable from [s0]. *)
Inductive reachable (s0 : S) : S -> Prop :=
| reach_refl : reachable s0 s0
| reach_step s s' : reachable s0 s -> step s s' -> reachable s0 s'.

(** Rule induction packaged: an invariant of the initial state preserved by
every step holds in every reachable state. *)
Lemma reachable_invariant (I : S -> Prop) s0 :
I s0 -> (forall s s', I s -> step s s' -> I s') ->
forall s, reachable s0 s -> I s.
Proof. intros H0 Hs s. induction 1; eauto. Qed.

Lemma reachable_trans s0 s1 s2 : reachable s0 s1 -> reachable s1 s2 -> reachable s0 s2.
Proof. intros H1 H2. induction H2; [done|by eapply reach_step]. Qed.
End star.

(** * Record update

    [r <| f := v |>] is the record [r] with its field [f] set to [v]. A record
    supports it once its [Eta] instance lists its fields. *)

Class Eta (R : Type) := eta : R -> R.
Class Setter {R T : Type} (get : R -> T) := setter : T -> R -> R.

Ltac make_setter get :=
  let v := fresh "v" in let r := fresh "r" in intros v r;
  let e := eval hnf in (eta r) in
  let p := eval pattern (get r) in e in
  match p with ?h _ => let t := eval cbv beta in (h v) in exact t end.
#[export] Hint Extern 1 (Setter ?get) => make_setter get : typeclass_instances.

Notation "r <| get := v |>" := (@setter _ _ get _ v r)
  (at level 1, left associativity, get at level 11, v at level 200) : stdpp_scope.

(** * Hints shared by the components *)

Create HintDb collector.
#[export] Hint Resolve map_sum_nonneg : collector.
#[export] Hint Extern 5 (_ <= _) => lia : collector.
#[export] Hint Extern 5 (_ < _) => lia : collector.
