(* ===== verification/PyStr.v ===== *)
(** Text operations of the Python standard library used by the collector:
    case mapping, partitioning, percent-encoding and [urllib.parse].

    A Python [str] is modelled by a Rocq [string] of ASCII characters. Case
    mapping leaves the characters above 127 alone and percent-encoding works
    on the stored bytes, so a statement that involves case or length speaks of
    ASCII text. *)
From stdpp Require Export pretty.
From S2P Require Export Prelude.
From Stdlib Require Import Ascii.
Open Scope stdpp_scope.

(** * Characters *)

Definition ord (c : ascii) : Z := Z.of_N (N_of_ascii c).
Definition chr (n : Z) : ascii := ascii_of_N (Z.to_N n).

Definition char_in (lo hi : Z) (c : ascii) : bool := (lo <=? ord c) && (ord c <=? hi).
Definition is_upper (c : ascii) : bool := char_in 65 90 c.
Definition is_lower (c : ascii) : bool := char_in 97 122 c.
Definition is_alpha (c : ascii) : bool := is_upper c || is_lower c.
Definition is_digit (c : ascii) : bool := char_in 48 57 c.
Definition is_alnum (c : ascii) : bool := is_alpha c || is_digit c.

(** Characters [str.strip] removes: the ASCII white space of [str.isspace]. *)
Definition is_space (c : ascii) : bool :=
  char_in 9 13 c || char_in 28 32 c.

Definition lower_char (c : ascii) : ascii := if is_upper c then chr (ord c + 32) else c.
Definition upper_char (c : ascii) : ascii := if is_lower c then chr (ord c - 32) else c.

(** * Whole strings *)

Fixpoint str_map (f : ascii -> ascii) (s : string) : string :=
  match s with
  | EmptyString => EmptyString
  | String c r => String (f c) (str_map f r)
  end.

Definition str_lower : string -> string := str_map lower_char.
Definition str_upper : string -> string := str_map upper_char.

(** [str.casefold] agrees with [str.lower] on ASCII. *)
Definition str_casefold : string -> string := str_lower.

Fixpoint str_filter (f : ascii -> bool) (s : string) : string :=
  match s with
  | EmptyString => EmptyString
  | String c r => if f c then String c (str_filter f r) else str_filter f r
  end.

Fixpoint str_forall (f : ascii -> bool) (s : string) : bool :=
  match s with
  | EmptyString => true
  | String c r => f c && str_forall f r
  end.

Definition str_len (s : string) : Z := Z.of_nat (String.length s).

(** [s[:n]] and [s[n:]] for a non-negative [n]. *)
Fixpoint str_take (n : nat) (s : string) : string :=
  match n, s with
  | S n, String c r => String c (str_take n r)
  | _, _ => EmptyString
  end.
Fixpoint str_drop (n : nat) (s : string) : string :=
  match n, s with
  | S n, String _ r => str_drop n r
  | _, s => s
  end.

Definition str_isempty (s : string) : bool :=
  match s with EmptyString => true | _ => false end.

Definition str_startswith (p s : string) : bool := String.prefix p s.
Definition str_endswith (p s : string) : bool :=
  bool_decide (str_drop (String.length s - String.length p) s = p)
  && (String.length p <=? String.length s)%nat.

(** [needle in s]. *)
Definition str_contains (needle s : string) : bool :=
  match String.index 0 needle s with Some _ => true | None => false end.

Fixpoint str_has (c : ascii) (s : string) : bool :=
  match s with
  | EmptyString => false
  | String d r => bool_decide (d = c) || str_has c r
  end.

Fixpoint str_lstrip (f : ascii -> bool) (s : string) : string :=
  match s with
  | String c r => if f c then str_lstrip f r else s
  | EmptyString => EmptyString
  end.
Fixpoint str_rev_app (s acc : string) : string :=
  match s with
  | EmptyString => acc
  | String c r => str_rev_app r (String c acc)
  end.
Definition str_rev (s : string) : string := str_rev_app s EmptyString.
Definition str_rstrip (f : ascii -> bool) (s : string) : string :=
  str_rev (str_lstrip f (str_rev s)).

(** [s.strip()] *)
Definition str_strip (s : string) : string := str_rstrip is_space (str_lstrip is_space s).

(** [s.partition(c)]: before, whether the separator occurs, after. *)
Fixpoint str_partition (c : ascii) (s : string) : string * bool * string :=
  match s with
  | EmptyString => (EmptyString, false, EmptyString)
  | String d r =>
      if bool_decide (d = c) then (EmptyString, true, r)
      else let '(b, f, a) := str_partition c r in (String d b, f, a)
  end.

(** [s.rpartition(c)]: splits at the last separator; without one the whole
    string is the third component. *)
Fixpoint str_rpartition (c : ascii) (s : string) : string * bool * string :=
  match s with
  | EmptyString => (EmptyString, false, EmptyString)
  | String d r =>
      let '(b, f, a) := str_rpartition c r in
      if f then (String d b, true, a)
      else if bool_decide (d = c) then (EmptyString, true, r)
      else (EmptyString, false, s)
  end.

(** [s.split(c)] for a non-empty separator: never the empty list. *)
Fixpoint str_split (c : ascii) (s : string) : list string :=
  match s with
  | EmptyString => [EmptyString]
  | String d r =>
      if bool_decide (d = c) then EmptyString :: str_split c r
      else match str_split c r with
           | w :: ws => String d w :: ws
           | [] => [String d EmptyString]
           end
  end.

Fixpoint str_join (sep : string) (l : list string) : string :=
  match l with
  | [] => EmptyString
  | [w] => w
  | w :: ws => w +:+ sep +:+ str_join sep ws
  end.

(** [s.replace(c, d)] for single characters. *)
Definition str_replace_char (c d : ascii) : string -> string :=
  str_map (fun x => if bool_decide (x = c) then d else x).

(** [int(s)] on a string of ASCII digits. *)
Fixpoint digits_value (acc : Z) (s : string) : Z :=
  match s with
  | EmptyString => acc
  | String c r => digits_value (acc * 10 + (ord c - 48)) r
  end.

(** * Facts *)

Lemma str_len_nonneg s : 0 <= str_len s.
Proof. unfold str_len. lia. Qed.

Lemma length_str_take n s : String.length (str_take n s) = Nat.min n (String.length s).
Proof. revert s; induction n; intros [|c s]; simpl; auto. Qed.

Lemma length_str_app s t : String.length (s +:+ t) = (String.length s + String.length t)%nat.
Proof. induction s; simpl; auto. Qed.

Lemma str_app_cons c s t : String c s +:+ t = String c (s +:+ t).
Proof. reflexivity. Qed.

Lemma str_take_app_drop n s : str_take n s +:+ str_drop n s = s.
Proof. revert s; induction n as [|n IH]; intros [|c s]; simpl; [done..|].
  by rewrite str_app_cons, IH. Qed.

Lemma str_take_ge n s : (String.length s <= n)%nat -> str_take n s = s.
Proof. revert s; induction n; intros [|c s]; simpl; intros; f_equal; auto with lia. Qed.

Lemma lower_char_idem c : lower_char (lower_char c) = lower_char c.
Proof. by destruct c as [[] [] [] [] [] [] [] []]. Qed.

Lemma str_lower_idem s : str_lower (str_lower s) = str_lower s.
Proof.
  unfold str_lower. induction s as [|c s IH]; simpl; [done|].
  by rewrite lower_char_idem, IH.
Qed.

Lemma str_has_rpartition_after c s : str_has c (str_rpartition c s).2 = false.
Proof.
  induction s as [|d s IH]; simpl; [done|].
  destruct (str_rpartition c s) as [[b f] a] eqn:E; simpl in *.
  destruct f; simpl; [done|].
  assert (s = a) as ->.
  { clear IH. revert b a E. induction s as [|e s IHs]; simpl; intros b a E; [by simplify_eq|].
    destruct (str_rpartition c s) as [[b' f'] a'] eqn:E'. destruct f'; [done|].
    case_match; by simplify_eq. }
  case_bool_decide; simpl; [done|]. rewrite bool_decide_eq_false_2 by done. done.
Qed.

Lemma str_rpartition_none c s :
  str_has c s = false -> str_rpartition c s = (EmptyString, false, s).
Proof.
  induction s as [|d s IH]; simpl; [done|]. intros [Hd Hs]%orb_false_iff.
  rewrite IH, Hd by done. done.
Qed.

Lemma str_rpartition_after_sep c s :
  str_has c s = false -> str_rpartition c (String c s) = (EmptyString, true, s).
Proof.
  intros Hs. simpl. rewrite str_rpartition_none by done. by rewrite bool_decide_eq_true_2.
Qed.

Lemma str_rpartition_prefix rest :
  str_has "@" rest = false ->
  str_rpartition "@" ("redacted@" +:+ rest) = ("redacted", true, rest).
Proof.
  intros Hr. change ("redacted@" +:+ rest) with
    (String "r" (String "e" (String "d" (String "a" (String "c" (String "t" (String "e"
      (String "d" (String "@" rest))))))))).
  do 8 (cbn [str_rpartition]; idtac).
  cbn [str_rpartition]. rewrite str_rpartition_none by done. reflexivity.
Qed.

(** * [urllib.parse] *)

Definition is_hex (c : ascii) : bool := is_digit c || char_in 65 70 c || char_in 97 102 c.
Definition hex_value (c : ascii) : Z :=
  if is_digit c then ord c - 48
  else if char_in 65 70 c then ord c - 55 else ord c - 87.
Definition hex_digit (n : Z) : ascii := if n <? 10 then chr (n + 48) else chr (n + 55).

(** Characters [quote] never escapes: letters, digits and [_.-~]. *)
Definition always_safe (c : ascii) : bool :=
  is_alnum c || bool_decide (ord c ∈ [95; 46; 45; 126]).

(** [quote_plus(s)]. *)
Fixpoint quote_plus (s : string) : string :=
  match s with
  | EmptyString => EmptyString
  | String c r =>
      if always_safe c then String c (quote_plus r)
      else if bool_decide (c = " "%char) then String "+" (quote_plus r)
      else String "%" (String (hex_digit (ord c / 16))
             (String (hex_digit (ord c mod 16)) (quote_plus r)))
  end.

(** [unquote(s)], byte by byte. *)
Fixpoint unquote (s : string) : string :=
  match s with
  | EmptyString => EmptyString
  | String c r =>
      match r with
      | String h (String l r') =>
          if bool_decide (c = "%"%char) && is_hex h && is_hex l
          then String (chr (hex_value h * 16 + hex_value l)) (unquote r')
          else String c (unquote r)
      | _ => String c (unquote r)
      end
  end.

Definition unquote_plus (s : string) : string := unquote (str_replace_char "+" " " s).

Lemma quote_char_roundtrip c r :
  always_safe c = false -> c <> " "%char ->
  unquote_plus (String "%" (String (hex_digit (ord c / 16)) (String (hex_digit (ord c mod 16)) r)))
  = String c (unquote_plus r).
Proof. by destruct c as [[] [] [] [] [] [] [] []]. Qed.

Lemma unquote_cons_plain c r :
  c <> "%"%char -> unquote (String c r) = String c (unquote r).
Proof.
  intros Hc. simpl. destruct r as [|h [|l r]]; [done..|].
  by rewrite bool_decide_eq_false_2.
Qed.

(** Percent-encoding loses nothing. *)
Lemma unquote_quote_plus s : unquote_plus (quote_plus s) = s.
Proof.
  induction s as [|c s IH]; [done|]. cbn [quote_plus].
  destruct (always_safe c) eqn:Hs.
  - unfold unquote_plus, str_replace_char. cbn [str_map].
    assert (c <> "+"%char /\ c <> "%"%char) as [H1 H2].
    { split; intros ->; vm_compute in Hs; done. }
    rewrite bool_decide_eq_false_2 by done.
    rewrite unquote_cons_plain by done. f_equal. exact IH.
  - case_bool_decide as Hsp.
    + subst. unfold unquote_plus, str_replace_char. cbn [str_map].
      rewrite bool_decide_eq_true_2 by done.
      rewrite unquote_cons_plain by done. f_equal. exact IH.
    + rewrite quote_char_roundtrip by done. by rewrite IH.
Qed.

(** [urlencode(pairs, doseq=True)] on string values. *)
Definition urlencode (pairs : list (string * string)) : string :=
  str_join "&" (map (fun '(k, v) => quote_plus k +:+ "=" +:+ quote_plus v) pairs).

(** [parse_qsl(s, keep_blank_values=True)]. *)
Definition parse_qsl (s : string) : list (string * string) :=
  map (fun part => let '(k, _, v) := str_partition "=" part in (unquote_plus k, unquote_plus v))
      (filter (fun part => str_isempty part = false) (str_split "&" s)).

(** ** [parse_qsl] inverts [urlencode] *)

Lemma str_has_app c s t : str_has c (s +:+ t) = str_has c s || str_has c t.
Proof.
  induction s as [|d s IH]; [done|]. rewrite str_app_cons. simpl. by rewrite IH, orb_assoc.
Qed.

Lemma str_split_none c w : str_has c w = false -> str_split c w = [w].
Proof.
  induction w as [|d w IH]; simpl; [done|].
  intros [Hd Hw]%orb_false_iff. rewrite Hd, IH by done. done.
Qed.

Lemma str_split_app c w r :
  str_has c w = false -> str_split c (w +:+ String c r) = w :: str_split c r.
Proof.
  induction w as [|d w IH]; [simpl; by rewrite bool_decide_eq_true_2|].
  rewrite str_app_cons. simpl. intros [Hd Hw]%orb_false_iff. by rewrite Hd, IH.
Qed.

Lemma str_split_join c l :
  l <> [] -> Forall (fun w => str_has c w = false) l ->
  str_split c (str_join (String c EmptyString) l) = l.
Proof.
  intros Hne. induction 1 as [|w l Hw Hl IH]; [done|].
  destruct l as [|w' l].
  - simpl. by apply str_split_none.
  - change (str_split c (w +:+ String c (str_join (String c EmptyString) (w' :: l))) = w :: w' :: l).
    rewrite str_split_app by done. f_equal. by apply IH.
Qed.

Lemma str_partition_app c w r :
  str_has c w = false -> str_partition c (w +:+ String c r) = (w, true, r).
Proof.
  induction w as [|d w IH]; [simpl; by rewrite bool_decide_eq_true_2|].
  rewrite str_app_cons. simpl. intros [Hd Hw]%orb_false_iff. by rewrite Hd, IH.
Qed.

Lemma quote_char_plain d c :
  d = "&"%char \/ d = "="%char -> always_safe c = false ->
  bool_decide (hex_digit (ord c / 16) = d) || bool_decide (hex_digit (ord c mod 16) = d) = false.
Proof. intros [-> | ->] _; by destruct c as [[] [] [] [] [] [] [] []]. Qed.

Lemma quote_plus_plain d s :
  d = "&"%char \/ d = "="%char -> str_has d (quote_plus s) = false.
Proof.
  intros Hd. induction s as [|c s IH]; [done|]. cbn [quote_plus].
  destruct (always_safe c) eqn:Hs; [|case_bool_decide]; cbn [str_has]; rewrite IH, ?orb_false_r.
  - apply bool_decide_eq_false_2. intros ->. destruct Hd; subst; vm_compute in Hs; done.
  - apply bool_decide_eq_false_2. intros <-. by destruct Hd.
  - rewrite (bool_decide_eq_false_2 ("%"%char = d)); [by apply quote_char_plain|].
    intros <-. by destruct Hd.
Qed.

(** Encoding a list of fields and parsing the result gives the fields back. *)
Lemma parse_qsl_urlencode pairs : parse_qsl (urlencode pairs) = pairs.
Proof.
  unfold parse_qsl, urlencode. destruct pairs as [|kv pairs]; [done|].
  set (enc := fun '(k, v) => quote_plus k +:+ "=" +:+ quote_plus v).
  set (ps := kv :: pairs).
  rewrite (str_split_join "&" (map enc ps)).
  - rewrite filter_all by (apply Forall_forall; intros w [[k v] [-> _]]%list_elem_of_fmap;
      simpl; by destruct (quote_plus k)).
    rewrite map_map. rewrite <- (map_id ps) at 2. apply map_ext. intros [k v].
    change (enc (k, v)) with (quote_plus k +:+ String "=" (quote_plus v)).
    rewrite str_partition_app by (apply quote_plus_plain; auto).
    by rewrite !unquote_quote_plus.
  - done.
  - apply Forall_forall. intros w [[k v] [-> _]]%list_elem_of_fmap. simpl.
    rewrite !str_has_app, !quote_plus_plain by auto. done.
Qed.

Record SplitResult := {
  sr_scheme : string;
  sr_netloc : string;
  sr_path : string;
  sr_query : string;
  sr_fragment : string;
}.

(** Position-free [_splitnetloc]: the longest prefix without [/], [?] or [#]. *)
Fixpoint split_netloc (s : string) : string * string :=
  match s with
  | EmptyString => (EmptyString, EmptyString)
  | String c r =>
      if bool_decide (c ∈ ["/"; "?"; "#"]%char) then (EmptyString, s)
      else let '(n, rest) := split_netloc r in (String c n, rest)
  end.

Definition scheme_char (c : ascii) : bool :=
  is_alnum c || bool_decide (c ∈ ["+"; "-"; "."]%char).

(** The scheme prefix [urlsplit] recognises, lower-cased, and the rest. *)
Definition split_scheme (s : string) : string * string :=
  let '(before, found, after) := str_partition ":" s in
  match before with
  | String c _ =>
      if found && is_alpha c && str_forall scheme_char before
      then (str_lower before, after) else (EmptyString, s)
  | EmptyString => (EmptyString, s)
  end.

(** One decimal octet of a dotted quad, as [ipaddress] accepts it. *)
Definition ipv4_octet_ok (s : string) : bool :=
  negb (str_isempty s) && str_forall is_digit s && (str_len s <=? 3)
  && (negb (str_startswith "0" s) || (str_len s =? 1)) && (digits_value 0 s <=? 255).
Definition ipv4_ok (s : string) : bool :=
  let parts := str_split "." s in
  (length parts =? 4)%nat && forallb ipv4_octet_ok parts.
Definition hextet_ok (s : string) : bool :=
  negb (str_isempty s) && str_forall is_hex s && (str_len s <=? 4).

(** Whether [ipaddress.ip_address] reads the text as an IPv6 address. *)
Definition ipv6_ok (host : string) : bool :=
  let '(addr, sep, scope) := str_partition "%" host in
  let scope_ok := negb sep || (negb (str_isempty scope) && negb (str_has "%" scope)) in
  let parts0 := str_split ":" addr in
  let last_is_v4 := str_has "." (default EmptyString (last parts0)) in
  let v4_ok := negb last_is_v4 || ipv4_ok (default EmptyString (last parts0)) in
  let parts := if last_is_v4
               then take (length parts0 - 1) parts0 ++ ["0"; "0"]
               else parts0 in
  let inner_gaps := length (filter (fun p => str_isempty p = true)
                              (take (length parts - 2) (drop 1 parts))) in
  let first_empty := str_isempty (default EmptyString (head parts)) in
  let last_empty := str_isempty (default EmptyString (last parts)) in
  let gap_at_start := str_isempty (default "x" (parts !! 1%nat)) in
  let gap_at_end := str_isempty (default "x" (parts !! (length parts - 2)%nat)) in
  scope_ok && v4_ok && (3 <=? length parts0)%nat && (length parts <=? 9)%nat
  && (inner_gaps <=? 1)%nat
  && (if (inner_gaps =? 1)%nat
      then (negb first_empty || gap_at_start) && (negb last_empty || gap_at_end)
           && (length (filter (fun p => str_isempty p = false) parts) <=? 7)%nat
      else (length parts =? 8)%nat)
  && forallb (fun p => str_isempty p || hextet_ok p) parts
  && ((inner_gaps =? 1)%nat || forallb (fun p => negb (str_isempty p)) parts).

(** [_check_bracketed_netloc]. *)
Definition bracketed_netloc_ok (netloc : string) : bool :=
  let '(_, _, hostport) := str_rpartition "@" netloc in
  let '(before, open, bracketed) := str_partition "[" hostport in
  if open then
    let '(hostname, _, port) := str_partition "]" bracketed in
    str_isempty before && (str_isempty port || str_startswith ":" port)
    && (if str_startswith "v" hostname
        then let '(ver, dot, rest) := str_partition "." (str_drop 1 hostname) in
             negb (str_isempty ver) && str_forall is_hex ver && dot && negb (str_isempty rest)
        else ipv6_ok hostname)
  else false.

Definition c0_or_space (c : ascii) : bool := char_in 0 32 c.
Definition unsafe_url_char (c : ascii) : bool := bool_decide (ord c ∈ [9; 10; 13]).

(** [urlsplit(url)]; [Err] is the [ValueError] of a malformed authority. *)
Definition urlsplit (url : string) : result pyexn SplitResult :=
  let cleaned := str_filter (fun c => negb (unsafe_url_char c)) (str_lstrip c0_or_space url) in
  let '(scheme, rest) := split_scheme cleaned in
  let '(netloc, rest) :=
    if str_startswith "//" rest then split_netloc (str_drop 2 rest) else (EmptyString, rest) in
  _ ← ensure (bool_decide (str_has "[" netloc = str_has "]" netloc)) (ValueError "Invalid IPv6 URL");
  _ ← ensure (negb (str_has "[" netloc) || bracketed_netloc_ok netloc)
        (ValueError "Invalid IPv6 URL");
  let '(rest, _, fragment) := str_partition "#" rest in
  let '(path, _, query) := str_partition "?" rest in
  Ok {| sr_scheme := scheme; sr_netloc := netloc; sr_path := path;
        sr_query := query; sr_fragment := fragment |}.

(** [urlunsplit] for the schemes whose URLs carry an authority. *)
Definition uses_netloc (scheme : string) : bool :=
  bool_decide (scheme ∈ [""; "ftp"; "http"; "gopher"; "nntp"; "telnet"; "imap"; "wais";
     "file"; "mms"; "https"; "shttp"; "snews"; "prospero"; "rtsp"; "rtsps"; "rtspu"; "rsync";
     "svn"; "svn+ssh"; "sftp"; "nfs"; "git"; "git+ssh"; "ws"; "wss"; "itms-services"]).

Definition urlunsplit (sr : SplitResult) : string :=
  let url := sr_path sr in
  let url :=
    if negb (str_isempty (sr_netloc sr))
       || (negb (str_isempty (sr_scheme sr)) && uses_netloc (sr_scheme sr)
           && negb (str_startswith "//" url))
    then "//" +:+ sr_netloc sr
         +:+ (if negb (str_isempty url) && negb (str_startswith "/" url) then "/" +:+ url else url)
    else url in
  let url := if str_isempty (sr_scheme sr) then url else sr_scheme sr +:+ ":" +:+ url in
  let url := if str_isempty (sr_query sr) then url else url +:+ "?" +:+ sr_query sr in
  if str_isempty (sr_fragment sr) then url else url +:+ "#" +:+ sr_fragment sr.

(** [parts.username is not None] and [parts.password is not None]. *)
Definition sr_username (sr : SplitResult) : option string :=
  let '(userinfo, found, _) := str_rpartition "@" (sr_netloc sr) in
  if found then Some ((str_partition ":" userinfo).1.1) else None.
Definition sr_password (sr : SplitResult) : option string :=
  let '(userinfo, found, _) := str_rpartition "@" (sr_netloc sr) in
  if found then let '(_, have, password) := str_partition ":" userinfo in
                if have then Some password else None
  else None.

(** [_hostinfo]: the raw host and port texts. *)
Definition sr_hostinfo (sr : SplitResult) : string * string :=
  let '(_, _, hostinfo) := str_rpartition "@" (sr_netloc sr) in
  let '(_, open, bracketed) := str_partition "[" hostinfo in
  if open then
    let '(host, _, rest) := str_partition "]" bracketed in
    let '(_, _, port) := str_partition ":" rest in (host, port)
  else let '(host, _, port) := str_partition ":" hostinfo in (host, port).

Definition sr_hostname (sr : SplitResult) : option string :=
  let host := (sr_hostinfo sr).1 in
  if str_isempty host then None
  else let '(name, percent, zone) := str_partition "%" host in
       Some (str_lower name +:+ (if percent then "%" +:+ zone else EmptyString)).

Definition sr_port (sr : SplitResult) : result pyexn (option Z) :=
  let port := (sr_hostinfo sr).2 in
  if str_isempty port then Ok None
  else if str_forall is_digit port
       then let n := digits_value 0 port in
            if n <=? 65535 then Ok (Some n) else Err (ValueError "Port out of range 0-65535")
       else Err (ValueError "Port could not be cast to integer value").

Example urlsplit_example :
  urlsplit "HTTPS://user:pw@Shop.Example:8443/a/b?x=1&y=2#frag"
  = Ok {| sr_scheme := "https"; sr_netloc := "user:pw@Shop.Example:8443"; sr_path := "/a/b";
          sr_query := "x=1&y=2"; sr_fragment := "frag" |}.
Proof. reflexivity. Qed.

Example urlsplit_bad_bracket : is_ok (urlsplit "http://[oops/") = false.
Proof. reflexivity. Qed.

Example urlsplit_ipv6 : is_ok (urlsplit "http://[2001:db8::1]:80/") = true.
Proof. reflexivity. Qed.

(** [s.encode("idna")] on ASCII text, Python's fast path: every label but the
    last is non-empty and shorter than 64 characters, the last shorter than 64. *)
Fixpoint idna_labels_ok (labels : list string) : bool :=
  match labels with
  | [] => true
  | [l] => str_len l <? 64
  | l :: rest => (0 <? str_len l) && (str_len l <? 64) && idna_labels_ok rest
  end.
Definition idna_encode (s : string) : result pyexn string :=
  if idna_labels_ok (str_split "." s) then Ok s else Err (ValueError "label empty or too long").

(** * Ordered text *)

(** Code-point order, Python's order on [str]. *)
Fixpoint str_le (s t : string) : bool :=
  match s, t with
  | EmptyString, _ => true
  | String _ _, EmptyString => false
  | String c s, String d t =>
      if ascii_dec c d then str_le s t else (ord c <? ord d)
  end.

Lemma ord_inj c d : ord c = ord d -> c = d.
Proof.
  unfold ord. intros H. apply N2Z.inj in H.
  rewrite <- (ascii_N_embedding c), <- (ascii_N_embedding d). by rewrite H.
Qed.

Lemma str_le_total s t : str_le s t = true \/ str_le t s = true.
Proof.
  revert t. induction s as [|c s IH]; intros [|d t]; simpl; auto.
  destruct (ascii_dec c d) as [->|Hne]; [destruct (ascii_dec d d); [apply IH|done]|].
  destruct (ascii_dec d c) as [->|_]; [done|].
  assert (ord c <> ord d) by (intros ?%ord_inj; done).
  rewrite !Z.ltb_lt. lia.
Qed.
Lemma str_le_antisym s t : str_le s t = true -> str_le t s = true -> s = t.
Proof.
  revert t. induction s as [|c s IH]; intros [|d t]; simpl; try done.
  destruct (ascii_dec c d) as [->|Hne].
  - destruct (ascii_dec d d); [|done]. intros. f_equal. auto.
  - destruct (ascii_dec d c) as [->|_]; [done|]. rewrite !Z.ltb_lt. lia.
Qed.
Lemma str_le_trans s t u : str_le s t = true -> str_le t u = true -> str_le s u = true.
Proof.
  revert t u. induction s as [|c s IH]; intros [|d t] [|e u]; simpl; try done.
  destruct (ascii_dec c d) as [->|H1], (ascii_dec d e) as [->|H2]; rewrite ?Z.ltb_lt; intros Hst Htu.
  - eauto.
  - done.
  - destruct (ascii_dec c e); [done|]. by apply Z.ltb_lt.
  - destruct (ascii_dec c e) as [->|]; [lia|]. apply Z.ltb_lt. lia.
Qed.

Fixpoint insert_str (s : string) (l : list string) : list string :=
  match l with
  | [] => [s]
  | t :: r => if str_le s t then s :: l else t :: insert_str s r
  end.
(** [sorted(strings)] *)
Definition sort_strs (l : list string) : list string := foldr insert_str [] l.

Lemma insert_str_perm s l : Permutation (insert_str s l) (s :: l).
Proof.
induction l as [|t l IH]; simpl; [done|]. destruct (str_le s t); [done|].
rewrite IH. constructor.
Qed.
Lemma sort_strs_perm l : Permutation (sort_strs l) l.
Proof. induction l as [|s l IH]; simpl; [done|]. by rewrite insert_str_perm, IH. Qed.

(** [value.removeprefix(p)] and [value.removesuffix(p)] *)
Definition removeprefix (p s : string) : string :=
  if str_startswith p s then str_drop (String.length p) s else s.
Definition removesuffix (p s : string) : string :=
  if str_endswith p s then str_take (String.length s - String.length p) s else s.
