(* ===== verification/Json.v ===== *)
(** JSON-compatible values ([pydantic.JsonValue]) and Python dictionaries as
    insertion-ordered association lists. *)
From S2P Require Export PyStr.
From Stdlib Require Import Ascii.

(** Python floats as far as the code tells them apart: finite values carry an
    exact mantissa and binary exponent. *)
Inductive pyfloat :=
| FFinite (mantissa exponent : Z)
| FInf (negative : bool)
| FNan.

#[export] Instance pyfloat_eq_dec : EqDecision pyfloat.
Proof. solve_decision. Defined.

Inductive json :=
| JNull
| JBool (b : bool)
| JInt (n : Z)
| JFloat (f : pyfloat)
| JStr (s : string)
| JList (items : list json)
| JDict (items : list (string * json)).

(** Induction that reaches the values nested in lists and dictionaries. *)
Section json_ind.
Context (P : json -> Prop).
Hypothesis HNull : P JNull.
Hypothesis HBool : forall b, P (JBool b).
Hypothesis HInt : forall n, P (JInt n).
Hypothesis HFloat : forall f, P (JFloat f).
Hypothesis HStr : forall s, P (JStr s).
Hypothesis HList : forall l, Forall P l -> P (JList l).
Hypothesis HDict : forall d, Forall (fun kv => P kv.2) d -> P (JDict d).

Fixpoint json_nested_ind (v : json) : P v :=
match v with
| JNull => HNull
| JBool b => HBool b
| JInt n => HInt n
| JFloat f => HFloat f
| JStr s => HStr s
| JList l =>
  HList l ((fix go l : Forall P l :=
    match l with
    | [] => Forall_nil_2 _
    | x :: r => Forall_cons_2 _ x r (json_nested_ind x) (go r)
    end) l)
| JDict d =>
  HDict d ((fix go d : Forall (fun kv => P kv.2) d :=
    match d with
    | [] => Forall_nil_2 _
    | (k, x) :: r => Forall_cons_2 (fun kv => P kv.2) (k, x) r (json_nested_ind x) (go r)
    end) d)
end.
End json_ind.

#[export] Instance json_eq_dec : EqDecision json.
Proof.
  refine (fix go (x y : json) : Decision (x = y) :=
    match x, y with
    | JNull, JNull => left eq_refl
    | JBool a, JBool b => cast_if (decide (a = b))
    | JInt a, JInt b => cast_if (decide (a = b))
    | JFloat a, JFloat b => cast_if (decide (a = b))
    | JStr a, JStr b => cast_if (decide (a = b))
    | JList a, JList b =>
        cast_if (@list_eq_dec json go a b)
    | JDict a, JDict b =>
        cast_if (@list_eq_dec (string * json) (@prod_eq_dec string _ json go) a b)
    | _, _ => right _
    end); clear go; abstract congruence.
Defined.

(** * Python dictionaries *)

Section dict.
Context {V : Type}.
Implicit Types d : list (string * V).

Fixpoint dict_get (k : string) d : option V :=
match d with
| [] => None
| (k', v) :: r => if bool_decide (k' = k) then Some v else dict_get k r
end.

(** [d[k] = v]: an existing key keeps its position. *)
Fixpoint dict_set (k : string) (v : V) d : list (string * V) :=
match d with
| [] => [(k, v)]
| (k', v') :: r => if bool_decide (k' = k) then (k', v) :: r else (k', v') :: dict_set k v r
end.

Definition dict_mem (k : string) d : bool :=
match dict_get k d with Some _ => true | None => false end.

Definition dict_keys d : list string := map fst d.

(** [d.update(e)] *)
Definition dict_update d (e : list (string * V)) : list (string * V) :=
foldl (fun acc kv => dict_set kv.1 kv.2 acc) d e.

Lemma dict_get_elem k v d : dict_get k d = Some v -> (k, v) ∈ d.
Proof.
  induction d as [|[k' v'] d IH]; simpl; [done|].
  case_bool_decide; [intros [= ->]; subst; apply list_elem_of_here|intros H'; by apply list_elem_of_further, IH].
Qed.

Lemma dict_get_set_eq k v d : dict_get k (dict_set k v d) = Some v.
Proof.
induction d as [|[k' v'] d IH]; simpl.
- by rewrite bool_decide_eq_true_2.
- case_bool_decide; simpl.
+ by rewrite bool_decide_eq_true_2.
+ by rewrite bool_decide_eq_false_2.
Qed.

Lemma dict_get_set_ne k k' v d : k <> k' -> dict_get k' (dict_set k v d) = dict_get k' d.
Proof.
intros Hne. induction d as [|[a b] d IH]; simpl.
- by rewrite bool_decide_eq_false_2.
- case_bool_decide; simpl; case_bool_decide; try done; congruence.
Qed.

Lemma dict_set_length k v d :
(length (dict_set k v d) <= S (length d))%nat.
Proof. induction d as [|[a b] d IH]; simpl; [lia|]. case_bool_decide; simpl; lia. Qed.

Lemma Forall_dict_set (P : string * V -> Prop) k v d :
P (k, v) -> Forall P d -> Forall P (dict_set k v d).
Proof.
intros Hk. induction 1 as [|[a b] d Hab Hd IH]; simpl; [by constructor|].
case_bool_decide; subst; by constructor.
Qed.
End dict.

(** Nesting depth of containers: scalars have depth 0. *)
Fixpoint json_depth (v : json) : nat :=
  match v with
  | JList l => S (foldr (fun x acc => Nat.max (json_depth x) acc) 0%nat l)
  | JDict d => S (foldr (fun kv acc => Nat.max (json_depth (kv.2)) acc) 0%nat d)
  | _ => 0%nat
  end.

(** Every container and every string of a value satisfies the given bounds. *)
Fixpoint json_bounded (entries : nat) (chars : Z) (v : json) : Prop :=
  match v with
  | JStr s => str_len s <= chars
  | JList l => (length l <= entries)%nat /\ foldr (fun x acc => json_bounded entries chars x /\ acc) True l
  | JDict d => (length d <= entries)%nat
      /\ foldr (fun kv acc => (str_len kv.1 <= chars /\ json_bounded entries chars kv.2) /\ acc) True d
  | _ => True
  end.

Lemma foldr_and_Forall {A} (P : A -> Prop) (l : list A) :
  foldr (fun x acc => P x /\ acc) True l <-> Forall P l.
Proof. induction l; simpl; [split; constructor|]. rewrite Forall_cons. tauto. Qed.

Lemma foldr_max_le {A} (f : A -> nat) (l : list A) n :
  Forall (fun x => (f x <= n)%nat) l -> (foldr (fun x acc => Nat.max (f x) acc) 0 l <= n)%nat.
Proof. induction 1; simpl; lia. Qed.

(** Number of values in a tree, containers included. *)
Fixpoint json_nodes (v : json) : Z :=
  match v with
  | JList l => 1 + foldr (fun x acc => json_nodes x + acc) 0 l
  | JDict d => 1 + foldr (fun kv acc => json_nodes kv.2 + acc) 0 d
  | _ => 1
  end.

Definition nodes_of (d : list (string * json)) : Z := foldr (fun kv acc => json_nodes kv.2 + acc) 0 d.

Lemma json_nodes_pos v : 1 <= json_nodes v.
Proof.
  induction v as [| | | | |l IH|d IH] using json_nested_ind; simpl; try lia.
  - assert (0 <= foldr (fun x acc => json_nodes x + acc) 0 l); [|lia].
    induction IH; simpl; lia.
  - assert (0 <= foldr (fun kv acc => json_nodes kv.2 + acc) 0 d); [|lia].
    induction IH; simpl; lia.
Qed.

Lemma nodes_of_set k v d : nodes_of (dict_set k v d) <= nodes_of d + json_nodes v.
Proof.
  induction d as [|[a b] d IH]; [unfold nodes_of; simpl; lia|].
  cbn [dict_set]. case_bool_decide; cbn [nodes_of foldr snd] in *; [|unfold nodes_of in *; simpl in *; lia].
  pose proof (json_nodes_pos b). lia.
Qed.

(** * [json.dumps] with compact separators *)

Fixpoint insert_by_key {V} (kv : string * V) (l : list (string * V)) : list (string * V) :=
  match l with
  | [] => [kv]
  | kv' :: r => if String.leb kv.1 kv'.1 then kv :: l else kv' :: insert_by_key kv r
  end.

(** Items in the order [sort_keys=True] writes them. *)
Definition sort_items {V} (d : list (string * V)) : list (string * V) := foldr insert_by_key [] d.

Definition json_escape (c : Ascii.ascii) : string :=
  let n := ord c in
  if n =? 34 then String "\" (String (chr 34) EmptyString)
  else if n =? 92 then "\\"
  else if n =? 10 then "\n"
  else if n =? 13 then "\r"
  else if n =? 9 then "\t"
  else if n =? 8 then "\b"
  else if n =? 12 then "\f"
  else if n <? 32
       then "\u00" +:+ String (lower_char (hex_digit (n / 16))) (String (lower_char (hex_digit (n mod 16))) EmptyString)
       else String c EmptyString.

Fixpoint json_escapes (s : string) : string :=
  match s with
  | EmptyString => EmptyString
  | String c r => json_escape c +:+ json_escapes r
  end.

Definition json_quote (s : string) : string :=
  String (chr 34) (json_escapes s +:+ String (chr 34) EmptyString).

Section dumps.
(** [float_repr] is Python's [repr] of a float. *)
Context (float_repr : pyfloat -> string) (sort_keys : bool).

Fixpoint json_dumps (v : json) : string :=
match v with
| JNull => "null"
| JBool true => "true"
| JBool false => "false"
| JInt n => pretty n
| JFloat f => float_repr f
| JStr s => json_quote s
| JList l => "[" +:+ str_join "," (map json_dumps l) +:+ "]"
| JDict d =>
  let items := map (fun kv => (kv.1, json_dumps kv.2)) d in
  let items := if sort_keys then sort_items items else items in
  "{" +:+ str_join "," (map (fun kv => json_quote kv.1 +:+ ":" +:+ kv.2) items) +:+ "}"
end.
End dumps.

Example json_dumps_example :
  json_dumps (fun _ => "") true (JDict [("b", JList [JInt 1; JNull]); ("a", JBool true)])
  = String "{" (json_quote "a" +:+ ":true," +:+ json_quote "b" +:+ ":[1,null]}").
Proof. reflexivity. Qed.
