(* ===== verification/Sanitization.v ===== *)
(** Secret-safe, bounded normalisation of JSON data
    ([commerce-scraper/.../models/sanitization.py]). *)
From S2P Require Export Json.
From Stdlib Require Import Ascii.

(** Source: models/sanitization.py:12-12, REDACTED. *)
Definition REDACTED : string := "[redacted]".
(** Source: models/sanitization.py:13-13, TRUNCATED. *)
Definition TRUNCATED : string := "[truncated]".

(** Source: models/sanitization.py:29-44, _CREDENTIAL_MARKERS. *)
Definition CREDENTIAL_MARKERS : list string :=
  ["authorization"; "cookie"; "password"; "passwd"; "passphrase"; "secret"; "apikey";
   "accesskey"; "privatekey"; "clientkey"; "credential"; "signature"; "proxycredentials";
   "proxyuser"].
Definition TRUNCATION_KEY : string := "_truncated".

(** The validator of [__post_init__] is [limits_valid].
    Source: models/sanitization.py, JsonSanitizationLimits. *)
Record JsonSanitizationLimits := {
  max_depth : Z;
  max_container_entries : nat;
  max_string_length : Z;
  max_total_nodes : Z;
}.

(** Source: models/sanitization.py, JsonSanitizationLimits.__post_init__. *)
Definition limits_valid (l : JsonSanitizationLimits) : result pyexn () :=
  _ ← ensure (0 <=? max_depth l) (ValueError "max_depth must be non-negative");
  _ ← ensure (1 <=? max_container_entries l)%nat (ValueError "max_container_entries must be positive");
  _ ← ensure (1 <=? max_string_length l) (ValueError "max_string_length must be positive");
  ensure (1 <=? max_total_nodes l) (ValueError "max_total_nodes must be positive").

Definition DEFAULT_JSON_SANITIZATION_LIMITS : JsonSanitizationLimits :=
  {| max_depth := 16; max_container_entries := 100; max_string_length := 2048;
     max_total_nodes := 500 |}.

(** Source: models/sanitization.py, _bounded_string. *)
Definition bounded_string (value : string) (limit : Z) : string :=
  if str_len value <=? limit then value
  else if limit <=? str_len TRUNCATED then str_take (Z.to_nat limit) TRUNCATED
  else str_take (Z.to_nat (limit - str_len TRUNCATED)) value +:+ TRUNCATED.

(** Source: models/sanitization.py, _normalize_key. *)
Definition normalize_key (key : string) : string :=
  str_filter (fun c => is_lower c || is_digit c) (str_casefold key).

(** Source: models/sanitization.py, _is_credential_key. *)
Definition is_credential_key (key : string) (proxy_context : bool) : bool :=
  (proxy_context && bool_decide (key ∈ ["user"; "username"]))
  || existsb (fun marker => str_contains marker key) CREDENTIAL_MARKERS
  || bool_decide (key = "token")
  || str_endswith "token" key
  || str_startswith "tokenheader" key || str_startswith "tokenvalue" key
  || bool_decide (key ∈ ["auth"; "key"; "sig"]).

(** Source: models/sanitization.py, _sanitize_query. *)
Definition sanitize_query (value : string) : string :=
  if str_isempty value then value
  else urlencode (map (fun '(k, item) =>
         (k, if is_credential_key (normalize_key k) false then REDACTED else item))
         (parse_qsl value)).

(** The component-wise part of [sanitize_url].
    Source: models/sanitization.py:218-225, sanitize_url. *)
Definition sanitize_parts (parts : SplitResult) : SplitResult :=
  let netloc :=
    if str_has "@" (sr_netloc parts)
    then "redacted@" +:+ (str_rpartition "@" (sr_netloc parts)).2
    else sr_netloc parts in
  {| sr_scheme := sr_scheme parts;
     sr_netloc := netloc;
     sr_path := sr_path parts;
     sr_query := sanitize_query (sr_query parts);
     sr_fragment := if str_has "=" (sr_fragment parts)
                    then sanitize_query (sr_fragment parts) else sr_fragment parts |}.

(** Source: models/sanitization.py, sanitize_url. *)
Definition sanitize_url (value : string) : string :=
  if negb (str_contains "://" value) then value
  else match urlsplit value with
       | Err _ => "[invalid-url]"
       | Ok parts =>
           if str_isempty (sr_scheme parts) || str_isempty (sr_netloc parts) then value
           else urlunsplit (sanitize_parts parts)
       end.

(** The entry loops of [_sanitize], with the recursive call as a parameter.
    They run over [items[:max_container_entries]], so [take] counts the entries
    still to visit; [index] is Python's [enumerate] index and the last component
    of every result is [state.remaining_nodes]. *)
Section loops.
Context (limits : JsonSanitizationLimits).

Definition text (s : string) : json := JStr (bounded_string s (max_string_length limits)).

(** Source: models/sanitization.py:138-153, _sanitize. *)
Fixpoint dict_loop (recur : json -> Z -> bool -> json * Z) (proxy_context : bool) (total : Z)
(rest : list (string * json)) (take : nat) (index : Z)
(out : list (string * json)) (remaining : Z) {struct rest} : list (string * json) * Z :=
match rest, take with
| (key, item) :: rest, S take =>
  if remaining <=? 0
  then (dict_set TRUNCATION_KEY (JInt (total - index)) out, remaining)
  else
    let normalized := normalize_key key in
    let bounded := bounded_string key (max_string_length limits) in
    if is_credential_key normalized proxy_context
    then dict_loop recur proxy_context total rest take (index + 1)
           (dict_set bounded (text REDACTED) out) remaining
    else
      let '(item', remaining) :=
        recur item remaining (proxy_context || str_contains "proxy" normalized) in
      dict_loop recur proxy_context total rest take (index + 1)
        (dict_set bounded item' out) remaining
| _, _ => (out, remaining)
end.

(** Source: models/sanitization.py:163-175, _sanitize. *)
Fixpoint list_loop (recur : json -> Z -> json * Z)
(rest : list json) (take : nat) (out : list json) (remaining : Z) {struct rest}
: list json * Z :=
match rest, take with
| item :: rest, S take =>
  if remaining <=? 0 then (out ++ [JStr TRUNCATED], remaining)
  else
    let '(item', remaining) := recur item remaining in
    list_loop recur rest take (out ++ [item']) remaining
| _, _ => (out, remaining)
end.

(** The overflow marker added after the loop over a dictionary.
Source: models/sanitization.py:154-158, _sanitize. *)
Definition mark_dict (items out : list (string * json)) : list (string * json) :=
if (max_container_entries limits <? length items)%nat && negb (dict_mem TRUNCATION_KEY out)
then dict_set TRUNCATION_KEY
     (JInt (Z.of_nat (length items)
            - Z.of_nat (length (take (max_container_entries limits) items)))) out
else out.

(** Source: models/sanitization.py:176-180, _sanitize. *)
Definition mark_list (items out : list json) : list json :=
if (max_container_entries limits <? length items)%nat
 && negb (bool_decide (last out = Some (JStr TRUNCATED)))
then out ++ [JStr TRUNCATED] else out.

(** Source: models/sanitization.py, _sanitize. *)
Fixpoint sanitize (value : json) (remaining depth : Z) (proxy_context : bool)
{struct value} : json * Z :=
if remaining <=? 0 then (text TRUNCATED, remaining)
else
let remaining := remaining - 1 in
match value with
| JDict items =>
    if max_depth limits <=? depth then (text TRUNCATED, remaining)
    else
      let '(out, remaining) :=
        dict_loop (fun item r proxy => sanitize item r (depth + 1) proxy) proxy_context
          (Z.of_nat (length items)) items (max_container_entries limits) 0 [] remaining in
      (JDict (mark_dict items out), remaining)
| JList items =>
    if max_depth limits <=? depth then (text TRUNCATED, remaining)
    else
      let '(out, remaining) :=
        list_loop (fun item r => sanitize item r (depth + 1) proxy_context)
          items (max_container_entries limits) [] remaining in
      (JList (mark_list items out), remaining)
| JStr s => (text (sanitize_url s), remaining)
| JFloat (FInf _) | JFloat FNan => (JNull, remaining)
| v => (v, remaining)
end.

(** Source: models/sanitization.py, sanitize_json_value. *)
Definition sanitize_json_value (value : json) : json :=
(sanitize value (max_total_nodes limits) 0 false).1.
End loops.

(** * Secrets never influence the output *)

(** [low_equal proxy v w]: [v] and [w] agree except for the values stored under
    credential-bearing keys, which are unconstrained. [proxy] says whether an
    enclosing key mentioned a proxy. *)
Inductive low_equal : bool -> json -> json -> Prop :=
| low_refl proxy v : low_equal proxy v v
| low_list proxy l k : Forall2 (low_equal proxy) l k -> low_equal proxy (JList l) (JList k)
| low_dict proxy d e :
    Forall2 (fun kv kw => kv.1 = kw.1 /\
       (is_credential_key (normalize_key kv.1) proxy = true
        \/ low_equal (proxy || str_contains "proxy" (normalize_key kv.1)) kv.2 kw.2)) d e ->
    low_equal proxy (JDict d) (JDict e).

Section noninterference.
Context (limits : JsonSanitizationLimits).

Lemma dict_loop_low (recur : json -> Z -> bool -> json * Z) proxy total d e :
Forall2 (fun kv kw => kv.1 = kw.1 /\
 (is_credential_key (normalize_key kv.1) proxy = true
  \/ (forall r, recur kv.2 r (proxy || str_contains "proxy" (normalize_key kv.1))
              = recur kw.2 r (proxy || str_contains "proxy" (normalize_key kv.1))))) d e ->
forall take index out remaining,
dict_loop limits recur proxy total d take index out remaining
= dict_loop limits recur proxy total e take index out remaining.
Proof.
induction 1 as [|[k v] [k' w] d e [Hk Hv] _ IH]; intros [|take] index out remaining;
simpl in *; subst; try done.
destruct (remaining <=? 0); [done|].
destruct (is_credential_key (normalize_key k') proxy) eqn:Hc; [apply IH|].
destruct Hv as [?|Hv]; [congruence|]. rewrite Hv.
destruct (recur w remaining _). apply IH.
Qed.

Lemma list_loop_low (recur : json -> Z -> json * Z) l k :
Forall2 (fun v w => forall r, recur v r = recur w r) l k ->
forall take out remaining,
list_loop recur l take out remaining = list_loop recur k take out remaining.
Proof.
induction 1 as [|v w l k Hv _ IH]; intros [|take] out remaining; simpl; try done.
destruct (remaining <=? 0); [done|]. rewrite Hv. destruct (recur w remaining). apply IH.
Qed.

Lemma mark_dict_length d e out : length d = length e -> mark_dict limits d out = mark_dict limits e out.
Proof. intros Hl. unfold mark_dict. by rewrite !length_take, Hl. Qed.

Lemma mark_list_length l k out : length l = length k -> mark_list limits l out = mark_list limits k out.
Proof. intros Hl. unfold mark_list. by rewrite Hl. Qed.

Lemma sanitize_low v : forall w proxy remaining depth,
low_equal proxy v w -> sanitize limits v remaining depth proxy = sanitize limits w remaining depth proxy.
Proof.
induction v as [|b|n|f|s|l IH|d IH] using json_nested_ind; intros w proxy remaining depth Hlow;
inversion Hlow as [|? ? k Hk|? ? e He]; subst; clear Hlow; try done; simpl;
destruct (remaining <=? 0); try done; case_match; try done.
- rewrite (list_loop_low _ l k); [case_match; do 2 f_equal; apply mark_list_length; by eapply Forall2_length|].
revert IH. induction Hk as [|v w l k Hv _ IHk]; intros IH; constructor;
  inversion IH; subst; auto.
- rewrite (Forall2_length _ _ _ He).
rewrite (dict_loop_low _ _ _ d e); [case_match; do 2 f_equal; apply mark_dict_length; by eapply Forall2_length|].
revert IH. induction He as [|[a v] [a' w] d e [Ha Hv] _ IHe]; intros IH; constructor;
  inversion IH; subst; simpl in *; auto.
split; [done|]. destruct Hv as [Hv|Hv]; [by left|right]. intros r. auto.
Qed.
End noninterference.

(** * Bounds *)

Section bounds.
Context (limits : JsonSanitizationLimits).
Context (Hlimits : limits_valid limits = Ok ()).

Let chars : Z := Z.max (max_string_length limits) (str_len TRUNCATED).
Let entries : nat := S (max_container_entries limits).

Lemma limits_facts :
0 <= max_depth limits /\ (1 <= max_container_entries limits)%nat
/\ 1 <= max_string_length limits /\ 1 <= max_total_nodes limits.
Proof.
revert Hlimits. unfold limits_valid, ensure. simpl. intros H. step_in H. bool_facts.
destruct (max_container_entries limits); [done|lia].
Qed.

Lemma bounded_string_length s limit : 0 <= limit -> str_len (bounded_string s limit) <= limit.
Proof.
intros Hl. unfold bounded_string.
destruct (str_len s <=? limit) eqn:E1; [by apply Z.leb_le|].
destruct (limit <=? str_len TRUNCATED) eqn:E2; apply Z.leb_gt in E1;
[apply Z.leb_le in E2 | apply Z.leb_gt in E2]; unfold str_len in *.
- rewrite length_str_take. lia.
- rewrite length_str_app, length_str_take. change (String.length TRUNCATED) with 11%nat in *. lia.
Qed.

Lemma key_bounded s : str_len (bounded_string s (max_string_length limits)) <= chars.
Proof.
pose proof (bounded_string_length s (max_string_length limits)). pose proof limits_facts. lia.
Qed.

Lemma text_bounded s : json_bounded entries chars (text limits s).
Proof. apply key_bounded. Qed.

Lemma dict_loop_Forall (P : string * json -> Prop) recur proxy total rest :
(forall n, P (TRUNCATION_KEY, JInt n)) ->
(forall k, P (bounded_string k (max_string_length limits), text limits REDACTED)) ->
Forall (fun kv => forall r p, P (bounded_string kv.1 (max_string_length limits), (recur kv.2 r p).1)) rest ->
forall take index out remaining, Forall P out ->
Forall P (dict_loop limits recur proxy total rest take index out remaining).1.
Proof.
intros Ht Hr. induction 1 as [|[k v] rest Hv _ IH]; intros [|take] index out remaining Hout; simpl; try done.
destruct (remaining <=? 0); [by apply Forall_dict_set|].
destruct (is_credential_key _ _); [by apply IH, Forall_dict_set|].
destruct (recur v remaining _) eqn:E. apply IH, Forall_dict_set; [|done].
specialize (Hv remaining (proxy || str_contains "proxy" (normalize_key k))).
simpl in Hv. by rewrite E in Hv.
Qed.

Lemma dict_loop_length recur proxy total rest : forall take index out remaining,
(length (dict_loop limits recur proxy total rest take index out remaining).1 <= length out + take)%nat.
Proof.
induction rest as [|[k v] rest IH]; intros [|take] index out remaining; simpl; try lia.
destruct (remaining <=? 0); simpl; [|destruct (is_credential_key _ _)].
- pose proof (dict_set_length TRUNCATION_KEY (JInt (total - index)) out). lia.
- etrans; [apply IH|].
pose proof (dict_set_length (bounded_string k (max_string_length limits)) (text limits REDACTED) out). lia.
- destruct (recur v remaining _). etrans; [apply IH|].
pose proof (dict_set_length (bounded_string k (max_string_length limits)) j out). lia.
Qed.

Lemma list_loop_Forall (P : json -> Prop) recur rest :
P (JStr TRUNCATED) -> Forall (fun v => forall r, P (recur v r).1) rest ->
forall take out remaining, Forall P out -> Forall P (list_loop recur rest take out remaining).1.
Proof.
intros Ht. induction 1 as [|v rest Hv _ IH]; intros [|take] out remaining Hout; simpl; try done.
destruct (remaining <=? 0); simpl; [by apply Forall_app_2; auto|].
specialize (Hv remaining). destruct (recur v remaining). apply IH. by apply Forall_app_2; auto.
Qed.

Lemma list_loop_length recur rest : forall take out remaining,
(length (list_loop recur rest take out remaining).1 <= length out + take)%nat.
Proof.
induction rest as [|v rest IH]; intros [|take] out remaining; simpl; try lia.
destruct (remaining <=? 0); simpl; [rewrite length_app; simpl; lia|].
destruct (recur v remaining). etrans; [apply IH|]. rewrite length_app. simpl. lia.
Qed.

Lemma mark_dict_Forall (P : string * json -> Prop) items out :
(forall n, P (TRUNCATION_KEY, JInt n)) -> Forall P out -> Forall P (mark_dict limits items out).
Proof. intros Ht Ho. unfold mark_dict. case_match; [by apply Forall_dict_set|done]. Qed.

Lemma mark_list_Forall (P : json -> Prop) items out :
P (JStr TRUNCATED) -> Forall P out -> Forall P (mark_list limits items out).
Proof. intros Ht Ho. unfold mark_list. case_match; [by apply Forall_app_2; auto|done]. Qed.

Lemma mark_dict_size items out : (length (mark_dict limits items out) <= S (length out))%nat.
Proof. unfold mark_dict. case_match; [apply dict_set_length|lia]. Qed.

Lemma mark_list_size items out : (length (mark_list limits items out) <= S (length out))%nat.
Proof. unfold mark_list. case_match; [rewrite length_app; simpl; lia|lia]. Qed.

Lemma truncated_bounded : json_bounded entries chars (JStr TRUNCATED).
Proof. simpl. lia. Qed.

(** Strings, containers and nesting of the output respect the limits. *)
Lemma sanitize_shape v : forall remaining depth proxy,
json_bounded entries chars (sanitize limits v remaining depth proxy).1
/\ Z.of_nat (json_depth (sanitize limits v remaining depth proxy).1) <= Z.max 0 (max_depth limits - depth).
Proof.
induction v as [|b|n|f|s|l IH|d IH] using json_nested_ind; intros remaining depth proxy; simpl;
(destruct (remaining <=? 0); [simpl; split; [apply text_bounded|lia]|]);
try (simpl; split; [done || apply text_bounded|lia]).
- destruct f; simpl; split; done || lia.
- destruct (max_depth limits <=? depth) eqn:Hd; [simpl; split; [apply text_bounded|lia]|].
apply Z.leb_gt in Hd.
set (recur := fun (item : json) r => sanitize limits item r (depth + 1) proxy).
set (P := fun v => json_bounded entries chars v /\ Z.of_nat (json_depth v) <= max_depth limits - depth - 1).
assert (HP : P (JStr TRUNCATED)) by (split; [apply truncated_bounded|simpl; lia]).
pose proof (list_loop_Forall P recur l HP) as Hall.
pose proof (list_loop_length recur l (max_container_entries limits) [] (remaining - 1)) as Hlen.
specialize (Hall ltac:(eapply Forall_impl; [exact IH|]; intros x Hx r; destruct (Hx r (depth+1) proxy); split; [done|unfold recur; lia])
              (max_container_entries limits) [] (remaining - 1) ltac:(constructor)).
destruct (list_loop _ _ _ _ _) as [out r']. simpl in *.
apply (mark_list_Forall P l) in Hall; [|done]. pose proof (mark_list_size l out).
split; [split; [unfold entries; lia|]|].
+ apply foldr_and_Forall. eapply Forall_impl; [exact Hall|]. by intros ? [? _].
+ assert (foldr (fun x acc => Nat.max (json_depth x) acc) 0 (mark_list limits l out)
          <= Z.to_nat (max_depth limits - depth - 1))%nat; [|lia].
  apply foldr_max_le. eapply Forall_impl; [exact Hall|]. intros ? [_ ?]. lia.
- destruct (max_depth limits <=? depth) eqn:Hd; [simpl; split; [apply text_bounded|lia]|].
apply Z.leb_gt in Hd.
set (recur := fun (item : json) r p => sanitize limits item r (depth + 1) p).
set (P := fun kv : string * json => (str_len kv.1 <= chars /\ json_bounded entries chars kv.2)
           /\ Z.of_nat (json_depth kv.2) <= max_depth limits - depth - 1).
assert (HP : forall n, P (TRUNCATION_KEY, JInt n)).
{ intros n. split; [split; [|done]|]; simpl; [|lia].
  change (str_len TRUNCATION_KEY) with 10. change (str_len TRUNCATED) with 11 in *. lia. }
pose proof (dict_loop_Forall P recur proxy (Z.of_nat (length d)) d HP) as Hall.
pose proof (dict_loop_length recur proxy (Z.of_nat (length d)) d (max_container_entries limits) 0 [] (remaining - 1)) as Hlen.
specialize (Hall ltac:(intros k; split; [split; [apply key_bounded|apply text_bounded]|simpl; lia])
              ltac:(eapply Forall_impl; [exact IH|]; intros x Hx r p; destruct (Hx r (depth+1) p);
                    split; [split; [apply key_bounded|done]|unfold recur; simpl in *; lia])
              (max_container_entries limits) 0 [] (remaining - 1) ltac:(constructor)).
destruct (dict_loop _ _ _ _ _ _ _ _) as [out r']. simpl in *.
apply (mark_dict_Forall P d) in Hall; [|done]. pose proof (mark_dict_size d out).
split; [split; [unfold entries; lia|]|].
+ apply foldr_and_Forall. eapply Forall_impl; [exact Hall|]. by intros ? [? _].
+ assert (foldr (fun kv acc => Nat.max (json_depth kv.2) acc) 0 (mark_dict limits d out)
          <= Z.to_nat (max_depth limits - depth - 1))%nat; [|lia].
  apply foldr_max_le. eapply Forall_impl; [exact Hall|]. intros ? [_ ?]. lia.
Qed.
End bounds.

(** * The node budget *)

Section nodes.
Context (limits : JsonSanitizationLimits).
Let E : Z := Z.of_nat (max_container_entries limits).

Lemma dict_loop_nodes (recur : json -> Z -> bool -> json * Z) proxy total rest :
Forall (fun kv => forall r p, 0 < r ->
json_nodes (recur kv.2 r p).1 <= (E + 2) * (r - (recur kv.2 r p).2) /\ 0 <= (recur kv.2 r p).2) rest ->
forall take index out remaining, 0 <= remaining ->
let res := dict_loop limits recur proxy total rest take index out remaining in
nodes_of res.1 <= nodes_of out + Z.of_nat take + (E + 2) * (remaining - res.2) /\ 0 <= res.2.
Proof.
induction 1 as [|[k v] rest Hv _ IH]; intros [|take] index out remaining Hrem; simpl; try (split; lia).
destruct (remaining <=? 0) eqn:Hr; bool_facts; simpl.
- pose proof (nodes_of_set TRUNCATION_KEY (JInt (total - index)) out). simpl in *. lia.
- destruct (is_credential_key _ _).
+ destruct (IH take (index + 1) (dict_set (bounded_string k (max_string_length limits))
            (text limits REDACTED) out) remaining Hrem) as [IH1 IH2].
  pose proof (nodes_of_set (bounded_string k (max_string_length limits)) (text limits REDACTED) out).
  simpl in *. lia.
+ destruct (Hv remaining (proxy || str_contains "proxy" (normalize_key k)) ltac:(lia)) as [Hv1 Hv2].
  simpl in *. destruct (recur v remaining _) as [x r]. simpl in *.
  destruct (IH take (index + 1) (dict_set (bounded_string k (max_string_length limits)) x out) r Hv2)
    as [IH1 IH2].
  pose proof (nodes_of_set (bounded_string k (max_string_length limits)) x out). lia.
Qed.

Definition nodes_of_list (l : list json) : Z := foldr (fun x acc => json_nodes x + acc) 0 l.

Lemma nodes_of_list_app l k : nodes_of_list (l ++ k) = nodes_of_list l + nodes_of_list k.
Proof. unfold nodes_of_list. induction l; simpl; lia. Qed.

Lemma list_loop_nodes (recur : json -> Z -> json * Z) rest :
Forall (fun v => forall r, 0 < r ->
json_nodes (recur v r).1 <= (E + 2) * (r - (recur v r).2) /\ 0 <= (recur v r).2) rest ->
forall take out remaining, 0 <= remaining ->
let res := list_loop recur rest take out remaining in
nodes_of_list res.1 <= nodes_of_list out + Z.of_nat take + (E + 2) * (remaining - res.2) /\ 0 <= res.2.
Proof.
induction 1 as [|v rest Hv _ IH]; intros [|take] out remaining Hrem; simpl; try (split; lia).
destruct (remaining <=? 0) eqn:Hr; bool_facts; simpl.
- rewrite nodes_of_list_app. simpl. lia.
- destruct (Hv remaining ltac:(lia)) as [Hv1 Hv2]. destruct (recur v remaining) as [x r]. simpl in *.
destruct (IH take (out ++ [x]) r Hv2) as [IH1 IH2]. rewrite nodes_of_list_app in IH1. simpl in IH1. lia.
Qed.

Lemma mark_dict_nodes items out : nodes_of (mark_dict limits items out) <= nodes_of out + 1.
Proof. unfold mark_dict. case_match; [apply nodes_of_set|lia]. Qed.

Lemma mark_list_nodes items out : nodes_of_list (mark_list limits items out) <= nodes_of_list out + 1.
Proof. unfold mark_list. case_match; [rewrite nodes_of_list_app; simpl; lia|lia]. Qed.

Lemma sanitize_nodes v : forall remaining depth proxy, 0 < remaining ->
let res := sanitize limits v remaining depth proxy in
json_nodes res.1 <= (E + 2) * (remaining - res.2) /\ 0 <= res.2.
Proof.
induction v as [|b|n|f|s|l IH|d IH] using json_nested_ind; intros remaining depth proxy Hr; simpl;
rewrite (proj2 (Z.leb_gt remaining 0)) by lia; try (simpl; lia).
- destruct f; simpl; lia.
- case_match; [simpl; lia|].
destruct (list_loop_nodes (fun item r => sanitize limits item r (depth + 1) proxy) l
  ltac:(eapply Forall_impl; [exact IH|]; intros x Hx r Hr'; by apply Hx)
  (max_container_entries limits) [] (remaining - 1) ltac:(lia)) as [H1 H2].
destruct (list_loop _ _ _ _ _) as [out r']. simpl in *.
pose proof (mark_list_nodes l out). unfold nodes_of_list in *. simpl in *. lia.
- case_match; [simpl; lia|].
destruct (dict_loop_nodes (fun item r p => sanitize limits item r (depth + 1) p) proxy
  (Z.of_nat (length d)) d
  ltac:(eapply Forall_impl; [exact IH|]; intros x Hx r p Hr'; by apply Hx)
  (max_container_entries limits) 0 [] (remaining - 1) ltac:(lia)) as [H1 H2].
destruct (dict_loop _ _ _ _ _ _ _ _) as [out r']. simpl in *.
pose proof (mark_dict_nodes d out). unfold nodes_of in *. simpl in *. lia.
Qed.
End nodes.

(** * Properties *)

(** C22. Values stored under credential-bearing keys never influence the
    sanitised document: two documents that differ only there are sanitised to
    the same result, whatever the limits. *)
Theorem sanitize_hides_credentials limits v w :
  low_equal false v w -> sanitize_json_value limits v = sanitize_json_value limits w.
Proof. intros H. unfold sanitize_json_value. by rewrite (sanitize_low limits v w). Qed.

Definition secret_document (password username : string) : json :=
  JDict [("sku", JInt 7); ("Proxy-Route", JDict [("user_name", JStr username); ("port", JInt 1)]);
         ("api key", JStr password)].

Lemma sanitize_hides_credentials_witness :
  sanitize_json_value DEFAULT_JSON_SANITIZATION_LIMITS (secret_document "hunter2" "alice")
  = sanitize_json_value DEFAULT_JSON_SANITIZATION_LIMITS (secret_document "" "").
Proof.
  apply sanitize_hides_credentials. unfold secret_document. constructor.
  repeat (constructor; [split; [reflexivity|]|]); [right|right|left|].
  - constructor.
  - constructor. repeat (constructor; [split; [reflexivity|]|]); [left; reflexivity|right; constructor|constructor].
  - reflexivity.
  - constructor.
Defined.

(** A sanitised document respects the configured limits: every container has
    at most one entry more than [max_container_entries] (the truncation
    marker), every key and string is at most [max_string_length] characters
    (or the length of the marker), nesting is at most [max_depth], and the whole
    tree has at most [max_total_nodes * (max_container_entries + 2)] nodes. *)
Theorem sanitize_respects_limits limits v :
  limits_valid limits = Ok () ->
  json_bounded (S (max_container_entries limits))
    (Z.max (max_string_length limits) (str_len TRUNCATED)) (sanitize_json_value limits v)
  /\ Z.of_nat (json_depth (sanitize_json_value limits v)) <= max_depth limits
  /\ json_nodes (sanitize_json_value limits v)
     <= max_total_nodes limits * (Z.of_nat (max_container_entries limits) + 2).
Proof.
  intros Hl. pose proof (limits_facts limits Hl) as (? & ? & ? & ?).
  destruct (sanitize_shape limits Hl v (max_total_nodes limits) 0 false) as [Hb Hd].
  destruct (sanitize_nodes limits v (max_total_nodes limits) 0 false ltac:(lia)) as [Hn Hr].
  unfold sanitize_json_value. repeat split; [done|lia|nia].
Qed.

Lemma sanitize_respects_limits_witness :
  Z.of_nat (json_depth (sanitize_json_value DEFAULT_JSON_SANITIZATION_LIMITS (JList [JDict []]))) <= 16.
Proof. apply (sanitize_respects_limits DEFAULT_JSON_SANITIZATION_LIMITS). reflexivity. Defined.

(** An absolute URL that parses is re-assembled from parts whose authority
    carries no user information but the literal [redacted], and in whose query
    every field with a credential-bearing name has the value [REDACTED] while
    the other fields are unchanged. *)
Theorem sanitize_url_redacts value parts :
  str_contains "://" value = true -> urlsplit value = Ok parts ->
  sr_scheme parts <> EmptyString -> sr_netloc parts <> EmptyString ->
  sanitize_url value = urlunsplit (sanitize_parts parts)
  /\ sr_username (sanitize_parts parts) ∈ [None; Some "redacted"]
  /\ sr_password (sanitize_parts parts) = None
  /\ sr_hostinfo (sanitize_parts parts) = sr_hostinfo parts
  /\ parse_qsl (sr_query (sanitize_parts parts))
     = map (fun '(k, v) => (k, if is_credential_key (normalize_key k) false then REDACTED else v))
         (parse_qsl (sr_query parts)).
Proof.
  intros Hc Hp Hs Hn. split; [|split; [|split; [|split]]].
  - unfold sanitize_url. rewrite Hc, Hp. simpl.
    destruct (sr_scheme parts); [done|]. destruct (sr_netloc parts); [done|]. done.
  - unfold sr_username, sanitize_parts. simpl.
    destruct (str_has "@" (sr_netloc parts)) eqn:Ha.
    + rewrite str_rpartition_prefix by apply str_has_rpartition_after. set_solver.
    + rewrite str_rpartition_none by done. set_solver.
  - unfold sr_password, sanitize_parts. simpl.
    destruct (str_has "@" (sr_netloc parts)) eqn:Ha.
    + by rewrite str_rpartition_prefix by apply str_has_rpartition_after.
    + by rewrite str_rpartition_none.
  - unfold sr_hostinfo, sanitize_parts. simpl.
    destruct (str_has "@" (sr_netloc parts)) eqn:Ha; [|done].
    rewrite str_rpartition_prefix by apply str_has_rpartition_after.
    by destruct (str_rpartition "@" (sr_netloc parts)) as [[b f] a].
  - simpl. unfold sanitize_query. destruct (sr_query parts) as [|c q]; [done|]. simpl str_isempty.
    cbn match. apply parse_qsl_urlencode.
Qed.

Definition proxied_url : string := "https://user:pw@shop.example/p?token=abc&page=2".

Lemma sanitize_url_redacts_witness :
  sanitize_url proxied_url = "https://redacted@shop.example/p?token=%5Bredacted%5D&page=2".
Proof.
  destruct (urlsplit proxied_url) as [parts|] eqn:Hp; [|vm_compute in Hp; discriminate].
  destruct (sanitize_url_redacts proxied_url parts) as [-> _];
    [reflexivity|exact Hp|vm_compute in Hp; injection Hp as <-; discriminate..|].
  vm_compute in Hp. injection Hp as <-. reflexivity.
Defined.

Definition wide_extension : json :=
  JDict (map (fun n => (pretty (Z.of_nat n), JNull)) (seq 0 102)).

(** Sanitising twice is not the same as sanitising once: a dictionary over
    [max_container_entries] keys gains a [_truncated] counter, which the second
    pass counts as an entry of its own and overwrites with a smaller number. *)
Theorem sanitize_not_idempotent :
  exists v, sanitize_json_value DEFAULT_JSON_SANITIZATION_LIMITS
              (sanitize_json_value DEFAULT_JSON_SANITIZATION_LIMITS v)
            <> sanitize_json_value DEFAULT_JSON_SANITIZATION_LIMITS v.
Proof.
  exists wide_extension. apply (bool_decide_eq_false_1 (_ = _)). vm_compute. reflexivity.
Qed.
