(* ===== verification/Models.v ===== *)
(** Contract models of the scraper library: collection pages, commerce facts,
    diagnostics and policies, with the validators pydantic runs on them
    ([commerce-scraper/.../models/]). A validated constructor is a function to
    [result]: [Ok] the model or [Err] the first violated rule. *)
From S2P Require Export Json.
From Stdlib Require Import Ascii.

(** * Enumerations *)

(** Source: models/collection.py, SnapshotField. *)
Inductive SnapshotField :=
| F_IDENTITY | F_DESCRIPTION | F_CATEGORIES | F_IMAGES | F_VARIANTS | F_OFFERS | F_STOCK
| F_DOCUMENTS | F_PUBLISHED_ATTRIBUTES | F_PLATFORM_EXTENSIONS.
#[export] Instance SnapshotField_eq_dec : EqDecision SnapshotField.
Proof. solve_decision. Defined.

(** Source: models/collection.py, RefreshMode. *)
Inductive RefreshMode := FULL | INCREMENTAL.
#[export] Instance RefreshMode_eq_dec : EqDecision RefreshMode.
Proof. solve_decision. Defined.

(** Source: models/diagnostics.py, DiagnosticCode. *)
Inductive DiagnosticCode :=
| RESULT_LIMIT_REACHED | REQUEST_BUDGET_EXHAUSTED | ENUMERATION_INCOMPLETE | ENTITY_FETCH_FAILED
| PARSER_UNSUPPORTED | BROWSER_REQUIRED | RATE_LIMITED_DIAGNOSTIC | PROXY_BUDGET_EXHAUSTED
| OPTIONAL_ENRICHMENT_SKIPPED | SCHEMA_CHANGED | CHECKPOINT_INVALID.
#[export] Instance DiagnosticCode_eq_dec : EqDecision DiagnosticCode.
Proof. solve_decision. Defined.

(** Source: models/diagnostics.py, DiagnosticSeverity. *)
Inductive DiagnosticSeverity := INFO | WARNING | ERROR.
#[export] Instance DiagnosticSeverity_eq_dec : EqDecision DiagnosticSeverity.
Proof. solve_decision. Defined.

(** Source: models/policies.py, RobotsPolicy. *)
Inductive RobotsPolicy := OBEY | IGNORE.
#[export] Instance RobotsPolicy_eq_dec : EqDecision RobotsPolicy.
Proof. solve_decision. Defined.

(** Source: models/policies.py, BrowserPolicy. *)
Inductive BrowserPolicy := BROWSER_NEVER | BROWSER_ALLOW | BROWSER_REQUIRE.
#[export] Instance BrowserPolicy_eq_dec : EqDecision BrowserPolicy.
Proof. solve_decision. Defined.

(** Source: models/policies.py, ProxyMode. *)
Inductive ProxyMode := MODE_NEVER | MODE_ALWAYS | MODE_FALLBACK | MODE_FAILOVER | MODE_ROUND_ROBIN.
#[export] Instance ProxyMode_eq_dec : EqDecision ProxyMode.
Proof. solve_decision. Defined.

(** Source: models/commerce.py, Availability. *)
Inductive Availability :=
| IN_STOCK | LIMITED | OUT_OF_STOCK | BACKORDER | PREORDER | DISCONTINUED | AVAILABILITY_UNKNOWN.
#[export] Instance Availability_eq_dec : EqDecision Availability.
Proof. solve_decision. Defined.

(** Source: models/commerce.py, StockQuantityKind. *)
Inductive StockQuantityKind := EXACT | LOWER_BOUND | UPPER_BOUND | ORDER_LIMIT | QUANTITY_UNKNOWN.
#[export] Instance StockQuantityKind_eq_dec : EqDecision StockQuantityKind.
Proof. solve_decision. Defined.

(** * Diagnostics *)

(** Source: models/diagnostics.py, Diagnostic. *)
Record Diagnostic := {
  d_code : DiagnosticCode;
  d_severity : DiagnosticSeverity;
  d_message : string;
  d_retryable : bool;
  d_affects_completeness : bool;
  d_url : option string;
}.

(** Source: models/diagnostics.py, result_limit_diagnostic. *)
Definition result_limit_diagnostic (limit : Z) (url : string) : Diagnostic :=
  {| d_code := RESULT_LIMIT_REACHED; d_severity := INFO;
     d_message := "caller result limit " +:+ pretty limit +:+ " reached";
     d_retryable := true; d_affects_completeness := true; d_url := Some url |}.

(** * Pages *)

Section pages.
Context {T : Type}.

(** Source: models/collection.py, EntityPage. *)
Record EntityPage := {
p_page_id : string;
p_partition_key : string;
p_sequence : Z;
p_items : list T;
p_resume_after : option json;
p_terminal : bool;
p_partition_terminal : bool;
p_enumeration_intact : bool;
p_discovered : Z;
p_diagnostics : list Diagnostic;
}.

(** The field constraints ([min_length], [ge]) followed by the model validator.
Source: models/collection.py:55-78, EntityPage.valid_state. *)
Definition valid_page (p : EntityPage) : result pyexn EntityPage :=
_ ← ensure (negb (str_isempty (p_page_id p))) (ValueError "page_id is empty");
_ ← ensure (negb (str_isempty (p_partition_key p))) (ValueError "partition_key is empty");
_ ← ensure (0 <=? p_sequence p) (ValueError "sequence is negative");
_ ← ensure (0 <=? p_discovered p) (ValueError "discovered is negative");
_ ← ensure (negb (p_terminal p && p_enumeration_intact p && is_some (p_resume_after p)))
    (ValueError "a successful terminal page cannot have a resume cursor");
_ ← ensure (negb (p_partition_terminal p && negb (p_terminal p)
                && is_none (p_resume_after p)))
    (ValueError "an intermediate partition terminal requires a resume cursor");
_ ← ensure (p_enumeration_intact p || p_terminal p)
    (ValueError "an incomplete enumeration must be terminal");
_ ← ensure (p_enumeration_intact p || existsb d_affects_completeness (p_diagnostics p))
    (ValueError "an incomplete enumeration requires a completeness diagnostic");
_ ← ensure (Z.of_nat (length (p_items p)) <=? p_discovered p)
    (ValueError "discovered cannot be smaller than emitted items");
Ok p.
End pages.
Arguments EntityPage : clear implicits.

(** Source: models/collection.py, CollectionRequest. *)
Record CollectionRequest := {
  c_source_id : string;
  c_base_url : string;
  c_refresh_mode : RefreshMode;
  c_requested_fields : list SnapshotField;
  c_result_limit : option Z;
  c_partitions : list string;
}.

(** Source: models/collection.py:41-47, CollectionRequest. *)
Definition valid_collection_request (r : CollectionRequest) : result pyexn CollectionRequest :=
  _ ← ensure (negb (str_isempty (c_source_id r))) (ValueError "source_id is empty");
  _ ← ensure (str_startswith "http://" (c_base_url r) || str_startswith "https://" (c_base_url r))
        (ValueError "base_url is not http(s)");
  _ ← ensure (match c_result_limit r with None => true | Some n => 1 <=? n end)
        (ValueError "result_limit is not positive");
  Ok r.

(** * Commerce facts *)

(** A [Decimal]: finite values are [mantissa * 10 ^ exponent]. *)
Inductive decimal := Finite (mantissa exponent : Z) | NonFinite.
#[export] Instance decimal_eq_dec : EqDecision decimal.
Proof. solve_decision. Defined.

Definition decimal_sign_nonneg (d : decimal) : bool :=
  match d with Finite m _ => 0 <=? m | NonFinite => false end.

(** Source: models/commerce.py, Money. *)
Record Money := { m_amount : decimal; m_currency : string }.

(** Source: models/commerce.py, Money.finite_amount. *)
Definition valid_money (m : Money) : result pyexn Money :=
  _ ← ensure (match m_amount m with Finite _ _ => true | NonFinite => false end)
        (ValueError "money amount must be finite");
  _ ← ensure (decimal_sign_nonneg (m_amount m)) (ValueError "money amount is negative");
  _ ← ensure ((str_len (m_currency m) =? 3) && str_forall is_upper (m_currency m))
        (ValueError "currency is not three capitals");
  Ok m.

(** * Policies *)

(** Durations are whole milliseconds. Source: models/policies.py, FetchPolicy. *)
Record FetchPolicy := {
  f_delay : Z;
  f_concurrency : Z;
  f_robots : RobotsPolicy;
  f_browser : BrowserPolicy;
}.

(** Source: models/policies.py, ProxyPolicyConfig. *)
Record ProxyPolicyConfig := {
  pp_mode : ProxyMode;
  pp_country : option string;
  pp_provider_preferences : list string;
  pp_maximum_requests : option Z;
  pp_maximum_bytes : option Z;
}.

(** Source: models/policies.py:40-64, ProxyPolicyConfig.validate_country. *)
Definition valid_proxy_policy (p : ProxyPolicyConfig) : result pyexn ProxyPolicyConfig :=
  _ ← ensure (match pp_country p with
              | None => true
              | Some c => (str_len c =? 2) && str_forall is_upper c end)
        (ValueError "country must be an uppercase ASCII alpha-2 code");
  _ ← ensure (forallb (fun n => negb (str_isempty n) && bool_decide (n = str_strip n))
                (pp_provider_preferences p))
        (ValueError "provider preferences must be non-empty trimmed names");
  _ ← ensure (bool_decide (NoDup (pp_provider_preferences p)))
        (ValueError "provider preferences must be unique");
  _ ← ensure (match pp_maximum_requests p with None => true | Some n => 1 <=? n end)
        (ValueError "maximum_requests is not positive");
  _ ← ensure (match pp_maximum_bytes p with None => true | Some n => 1 <=? n end)
        (ValueError "maximum_bytes is not positive");
  Ok p.

(** * Facts *)

(** What a page that passed validation satisfies. *)
Record page_wf {T} (p : EntityPage T) : Prop := {
  wf_done : p_terminal p = true -> p_enumeration_intact p = true -> p_resume_after p = None;
  wf_partition : p_partition_terminal p = true -> p_terminal p = false -> is_Some (p_resume_after p);
  wf_incomplete : p_enumeration_intact p = false ->
     p_terminal p = true /\ existsb d_affects_completeness (p_diagnostics p) = true;
  wf_discovered : Z.of_nat (length (p_items p)) <= p_discovered p;
}.

Lemma valid_page_wf {T} (p q : EntityPage T) : valid_page p = Ok q -> q = p /\ page_wf q.
Proof.
  destruct p as [pid pk sq its c t pt i dc dg]. unfold valid_page, ensure, is_none. simpl. intros H.
  repeat (case_match; try discriminate H). injection H as <-.
  split; [done|]. destruct c, t, pt, i; simpl in *; try discriminate; bool_facts; constructor;
    simpl; intros; done || eauto.
Qed.
