(* ===== verification/Effects.v ===== *)
(** A state-and-exception monad for the stateful operations of the collector,
    with [try]/[finally] as Python has them, and the weakest-precondition rules
    the components' proofs use. *)
From S2P Require Export Prelude.

(** A computation over a state [S] that returns an [A] or raises an [X]. *)
Definition eff (S X A : Type) : Type := S -> result X A * S.

Section eff.
Context {S X : Type}.

#[export] Instance eff_ret : MRet (eff S X) := fun A a s => (Ok a, s).
#[export] Instance eff_bind : MBind (eff S X) := fun A B k m s =>
match m s with
| (Ok a, s') => k a s'
| (Err e, s') => (Err e, s')
end.

Definition throw {A} (e : X) : eff S X A := fun s => (Err e, s).
Definition gets {A} (f : S -> A) : eff S X A := fun s => (Ok (f s), s).
Definition modify (f : S -> S) : eff S X () := fun s => (Ok (), f s).
Definition lift {A} (r : result X A) : eff S X A := fun s => (r, s).

(** [try: m except ...: h] *)
Definition catch {A} (m : eff S X A) (h : X -> eff S X A) : eff S X A := fun s =>
match m s with
| (Ok a, s') => (Ok a, s')
| (Err e, s') => h e s'
end.

(** [try: m finally: fin]; an exception of [fin] replaces the outcome of [m]. *)
Definition finally {A} (m : eff S X A) (fin : eff S X ()) : eff S X A := fun s =>
match m s with
| (r, s') => match fin s' with
           | (Ok _, s'') => (r, s'')
           | (Err e, s'') => (Err e, s'')
           end
  end.

(** [async with connection.transaction(): m]: an exception restores the state. *)
Definition atomically {A} (m : eff S X A) : eff S X A := fun s =>
  match m s with
  | (Ok a, s') => (Ok a, s')
  | (Err e, _) => (Err e, s)
end.

(** [if b: m] *)
Definition when (b : bool) (m : eff S X ()) : eff S X () := if b then m else mret ().

(** ** Weakest preconditions *)

Definition wp {A} (m : eff S X A) (Q : result X A -> S -> Prop) (s : S) : Prop :=
Q (m s).1 (m s).2.

Lemma wp_ret {A} (a : A) (Q : result X A -> S -> Prop) s : Q (Ok a) s -> wp (mret a) Q s.
Proof. done. Qed.
Lemma wp_throw {A} e (Q : result X A -> S -> Prop) s : Q (Err e) s -> wp (throw e) Q s.
Proof. done. Qed.
Lemma wp_gets {A} (f : S -> A) (Q : result X A -> S -> Prop) s : Q (Ok (f s)) s -> wp (gets f) Q s.
Proof. done. Qed.
Lemma wp_modify f (Q : result X () -> S -> Prop) s : Q (Ok ()) (f s) -> wp (modify f) Q s.
Proof. done. Qed.
Lemma wp_lift {A} (r : result X A) (Q : result X A -> S -> Prop) s : Q r s -> wp (lift r) Q s.
Proof. done. Qed.

Lemma wp_bind {A B} (m : eff S X A) (k : A -> eff S X B) Q s :
wp m (fun r s' => match r with Ok a => wp (k a) Q s' | Err e => Q (Err e) s' end) s ->
wp (m ≫= k) Q s.
Proof. unfold wp, mbind, eff_bind. by destruct (m s) as [[a|e] s']. Qed.

Lemma wp_catch {A} (m : eff S X A) h Q s :
wp m (fun r s' => match r with Ok a => Q (Ok a) s' | Err e => wp (h e) Q s' end) s ->
wp (catch m h) Q s.
Proof. unfold wp, catch. by destruct (m s) as [[a|e] s']. Qed.

Lemma wp_finally {A} (m : eff S X A) fin Q s :
wp m (fun r s' => wp fin (fun r' s'' =>
      match r' with Ok _ => Q r s'' | Err e => Q (Err e) s'' end) s') s ->
wp (finally m fin) Q s.
Proof.
unfold wp, finally. destruct (m s) as [r s']. simpl. by destruct (fin s') as [[[]|e] s''].
Qed.

Lemma wp_atomically {A} (m : eff S X A) (Q : result X A -> S -> Prop) s :
wp m (fun r s' => match r with Ok a => Q (Ok a) s' | Err e => Q (Err e) s end) s -> wp (atomically m) Q s.
Proof. unfold wp, atomically. by destruct (m s) as [[a|e] s']. Qed.

Lemma wp_when b m (Q : result X () -> S -> Prop) s :
(b = true -> wp m Q s) -> (b = false -> Q (Ok ()) s) -> wp (when b m) Q s.
Proof. destruct b; intros H1 H2; [by apply H1|by apply H2]. Qed.

Lemma wp_conseq {A} (m : eff S X A) (P Q : result X A -> S -> Prop) s :
wp m P s -> (forall r s', P r s' -> Q r s') -> wp m Q s.
Proof. unfold wp. auto. Qed.

Lemma wp_and {A} (m : eff S X A) (P Q : result X A -> S -> Prop) s :
wp m P s -> wp m Q s -> wp m (fun r s' => P r s' /\ Q r s') s.
Proof. unfold wp. auto. Qed.

Lemma wp_run {A} (m : eff S X A) Q s r s' : wp m Q s -> m s = (r, s') -> Q r s'.
Proof. unfold wp. intros H E. by rewrite E in H. Qed.

(** [keeps I m]: [m] preserves [I], however it ends. *)
Definition keeps {A} (I : S -> Prop) (m : eff S X A) : Prop :=
forall s, I s -> wp m (fun _ s' => I s') s.

Lemma keeps_bind {A B} I (m : eff S X A) (k : A -> eff S X B) :
keeps I m -> (forall a, keeps I (k a)) -> keeps I (m ≫= k).
Proof.
intros Hm Hk s Hs. apply wp_bind. eapply wp_conseq; [by apply Hm|].
intros [a|e] s' Hs'; [by apply Hk|done].
Qed.
Lemma keeps_ret {A} I (a : A) : keeps I (mret a).
Proof. by intros s Hs. Qed.
Lemma keeps_throw {A} I e : keeps I (@throw A e).
Proof. by intros s Hs. Qed.
Lemma keeps_lift {A} I (r : result X A) : keeps I (lift r).
Proof. by intros s Hs. Qed.
Lemma keeps_gets {A} I (f : S -> A) : keeps I (gets f).
Proof. by intros s Hs. Qed.
Lemma keeps_when I b m : keeps I m -> keeps I (when b m).
Proof. destruct b; [done|intros _; apply keeps_ret]. Qed.
Lemma keeps_catch {A} I (m : eff S X A) h :
keeps I m -> (forall e, keeps I (h e)) -> keeps I (catch m h).
Proof.
intros Hm Hh s Hs. apply wp_catch. eapply wp_conseq; [by apply Hm|].
intros [a|e] s' Hs'; [done|by apply Hh].
Qed.
Lemma keeps_finally {A} I (m : eff S X A) fin :
keeps I m -> keeps I fin -> keeps I (finally m fin).
Proof.
intros Hm Hf s Hs. apply wp_finally. eapply wp_conseq; [by apply Hm|].
intros r s' Hs'. eapply wp_conseq; [by apply Hf|]. by intros [[]|e] s''.
Qed.
Lemma keeps_if {A} I (b : bool) (m n : eff S X A) :
keeps I m -> keeps I n -> keeps I (if b then m else n).
Proof. by destruct b. Qed.

(** [returns P m]: every value [m] returns satisfies [P]. *)
Definition returns {A} (P : A -> Prop) (m : eff S X A) : Prop :=
forall s, match (m s).1 with Ok a => P a | Err _ => True end.

Lemma returns_bind {A B} (R : A -> Prop) (P : B -> Prop) m (k : A -> eff S X B) :
returns R m -> (forall a, R a -> returns P (k a)) -> returns P (m ≫= k).
Proof.
intros Hm Hk s. specialize (Hm s). unfold mbind, eff_bind.
destruct (m s) as [[a|e] s']; simpl in *; [by apply Hk|done].
Qed.
Lemma returns_any {A} (m : eff S X A) : returns (fun _ => True) m.
Proof. intros s. by destruct (m s).1. Qed.
Lemma returns_then {A B} (P : B -> Prop) (m : eff S X A) (k : A -> eff S X B) :
(forall a, returns P (k a)) -> returns P (m ≫= k).
Proof. intros H. eapply returns_bind; [apply returns_any|auto]. Qed.
Lemma returns_ret {A} (P : A -> Prop) a : P a -> returns P (mret a).
Proof. by intros H s. Qed.
Lemma returns_throw {A} (P : A -> Prop) e : returns P (throw e).
Proof. by intros s. Qed.
Lemma returns_catch {A} (P : A -> Prop) m h :
returns P m -> (forall e, returns P (h e)) -> returns P (catch m h).
Proof.
intros Hm Hh s. specialize (Hm s). unfold catch.
destruct (m s) as [[a|e] s']; simpl in *; [done|apply Hh].
Qed.
Lemma returns_finally {A} (P : A -> Prop) m fin : returns P m -> returns P (finally m fin).
Proof.
intros Hm s. specialize (Hm s). unfold finally. destruct (m s) as [r s']. simpl in *.
by destruct (fin s') as [[[]|e] s''].
Qed.
End eff.
Create HintDb keeps.
#[export] Hint Resolve keeps_bind keeps_ret keeps_throw keeps_lift keeps_gets keeps_when
  keeps_catch keeps_finally keeps_if : keeps.


(** * Inversion of successful computations *)

Lemma atomically_Ok {S X A} (m : eff S X A) s a s' : atomically m s = (Ok a, s') -> m s = (Ok a, s').
Proof. unfold atomically. by destruct (m s) as [[?|?] ?]; intros; simplify_eq. Qed.

Lemma atomically_Err {S X A} (m : eff S X A) s e s' : atomically m s = (Err e, s') -> s' = s.
Proof. unfold atomically. by destruct (m s) as [[?|?] ?]; intros; simplify_eq. Qed.

Lemma bind_inv {S X A B} (m : eff S X A) (k : A -> eff S X B) s b s' :
  (m ≫= k) s = (Ok b, s') -> exists a s1, m s = (Ok a, s1) /\ k a s1 = (Ok b, s').
Proof. unfold mbind, eff_bind. destruct (m s) as [[a|e] s1]; [eauto|done]. Qed.

Lemma lift_ensure_inv {S X A} (b : bool) (e : X) (k : () -> eff S X A) s r s' :
  (lift (ensure b e) ≫= k) s = (Ok r, s') -> b = true /\ k () s = (Ok r, s').
Proof. unfold mbind, eff_bind, lift, ensure. by destruct b. Qed.

(** Invert the monadic binds of a successful computation in [H]. *)
Ltac eff_inv H :=
  repeat first
    [ apply lift_ensure_inv in H as [? H]
    | let a := fresh "a" in let s1 := fresh "s" in let E := fresh "E" in
      apply bind_inv in H as (a & s1 & E & H);
      first [ unfold gets in E; injection E as <- <- | unfold modify in E; injection E as <- <-
            | unfold mret, eff_ret in E; injection E as <- <- | idtac ] ].

(** Symbolic execution of one computation step in a [wp] goal. *)
Ltac wp_step :=
  lazymatch goal with
  | |- wp (_ ≫= _) _ _ => apply wp_bind
  | |- wp (mret _) _ _ => apply wp_ret
  | |- wp (throw _) _ _ => apply wp_throw
  | |- wp (gets _) _ _ => apply wp_gets
  | |- wp (modify _) _ _ => apply wp_modify
  | |- wp (lift _) _ _ => apply wp_lift
  | |- wp (catch _ _) _ _ => apply wp_catch
  | |- wp (finally _ _) _ _ => apply wp_finally
  end; cbn beta iota.
Ltac wp_steps := repeat wp_step.
