(* ===== verification/Transport.v ===== *)
(** Transport contracts ([commerce-scraper/.../transports/base.py]): requests,
    responses, accounting, the response size limit and the in-memory request
    budget. *)
From S2P Require Export Json.
From Stdlib Require Import Ascii.

(** * Requests and responses *)

(** Source: transports/base.py, RequestPurpose. *)
Inductive RequestPurpose := P_ROBOTS | P_DISCOVERY | P_ENTITY | P_ENRICHMENT.
#[export] Instance RequestPurpose_eq_dec : EqDecision RequestPurpose.
Proof. solve_decision. Defined.

(** Source: transports/base.py, RequestPriority. *)
Inductive RequestPriority := R_DISCOVERY | R_IDENTITY | R_DATASET_REQUIRED | R_DETAIL | R_OPTIONAL.
#[export] Instance RequestPriority_eq_dec : EqDecision RequestPriority.
Proof. solve_decision. Defined.

(** The integer value of the [IntEnum] member. *)
Definition priority_value (p : RequestPriority) : Z :=
  match p with
  | R_DISCOVERY => 1 | R_IDENTITY => 2 | R_DATASET_REQUIRED => 3 | R_DETAIL => 4 | R_OPTIONAL => 5
  end.

(** Source: transports/base.py, CachePolicy. *)
Inductive CachePolicy := CACHE_DEFAULT | CACHE_BYPASS | CACHE_REFRESH.
#[export] Instance CachePolicy_eq_dec : EqDecision CachePolicy.
Proof. solve_decision. Defined.

(** Source: transports/base.py, BrowserHint. *)
Inductive BrowserHint := HINT_NEVER | HINT_OPTIONAL | HINT_REQUIRED.
#[export] Instance BrowserHint_eq_dec : EqDecision BrowserHint.
Proof. solve_decision. Defined.

(** Source: transports/base.py, RotationReason. *)
Inductive RotationReason :=
| EXPLICIT | BLOCKED | RATE_LIMITED | CAPTCHA | TRANSPORT_FAILURE | SESSION_EXPIRED | BUDGET_EXHAUSTED.
#[export] Instance RotationReason_eq_dec : EqDecision RotationReason.
Proof. solve_decision. Defined.

(** Source: transports/base.py, BrowserEvaluation. *)
Record BrowserEvaluation := {
  e_action_id : string; e_script : string; e_wait_for : option string; e_wait_milliseconds : Z;
}.

(** Values of [TransportRequest.query]; a float carries its [str] text. *)
Inductive query_value := QStr (s : string) | QInt (n : Z) | QFloat (repr : string) | QBool (b : bool).

(** Source: transports/base.py:116-134, TransportRequest. *)
Record TransportRequest := {
  r_method : string;
  r_url : string;
  r_query : list (string * query_value);
  r_headers : list (string * string);
  r_json_body : option json;
  r_body : option string;
  r_purpose : RequestPurpose;
  r_priority : RequestPriority;
  r_required : bool;
  r_estimated_bytes : Z;
  r_cache : CachePolicy;
  r_browser : BrowserHint;
  r_evaluation : option BrowserEvaluation;
  r_trace_request_id : option string;
  r_trace_attempt : option Z;
}.

(** Source: transports/base.py, TransportRequest.evaluation_is_an_explicit_browser_action. *)
Definition evaluation_is_an_explicit_browser_action (r : TransportRequest)
  : result pyexn TransportRequest :=
  match r_evaluation r with
  | None => Ok r
  | Some _ =>
      _ ← ensure (bool_decide (r_browser r = HINT_REQUIRED))
            (ValueError "browser evaluation requires browser=required");
      _ ← ensure (bool_decide (str_upper (r_method r) = "GET")
                  && match r_query r with [] => true | _ => false end
                  && match r_headers r with [] => true | _ => false end
                  && is_none (r_json_body r) && is_none (r_body r))
            (ValueError "browser evaluation cannot be combined with HTTP request payload fields");
      _ ← ensure (negb (bool_decide (r_purpose r ∈ [P_ROBOTS; P_DISCOVERY])))
            (ValueError "browser evaluation is only valid for entity/detail work");
      Ok r
  end.

(** [request.model_copy(update={"trace_request_id": ..., "trace_attempt": ...})] *)
Definition with_trace (r : TransportRequest) (id : string) (attempt : Z) : TransportRequest :=
  {| r_method := r_method r; r_url := r_url r; r_query := r_query r; r_headers := r_headers r;
     r_json_body := r_json_body r; r_body := r_body r; r_purpose := r_purpose r;
     r_priority := r_priority r; r_required := r_required r;
     r_estimated_bytes := r_estimated_bytes r; r_cache := r_cache r; r_browser := r_browser r;
     r_evaluation := r_evaluation r; r_trace_request_id := Some id;
     r_trace_attempt := Some attempt |}.

(** [request.model_copy(update={"headers": ...})] *)
Definition with_headers (r : TransportRequest) (h : list (string * string)) : TransportRequest :=
  {| r_method := r_method r; r_url := r_url r; r_query := r_query r; r_headers := h;
     r_json_body := r_json_body r; r_body := r_body r; r_purpose := r_purpose r;
     r_priority := r_priority r; r_required := r_required r;
     r_estimated_bytes := r_estimated_bytes r; r_cache := r_cache r; r_browser := r_browser r;
     r_evaluation := r_evaluation r; r_trace_request_id := r_trace_request_id r;
     r_trace_attempt := r_trace_attempt r |}.

(** Source: transports/base.py, transport_trace_fields. *)
Definition transport_trace_fields (r : TransportRequest) : list (string * json) :=
  let fields := match r_trace_request_id r with Some id => [("request_id", JStr id)] | None => [] end in
  match r_trace_attempt r with Some n => dict_set "attempt" (JInt n) fields | None => fields end.

(** Source: transports/base.py, TransportAccounting. *)
Record TransportAccounting := {
  a_physical_requests : Z; a_transmitted_bytes : Z; a_received_bytes : Z;
}.
#[export] Instance TransportAccounting_eq_dec : EqDecision TransportAccounting.
Proof. solve_decision. Defined.

Inductive RouteKind := ROUTE_DIRECT | ROUTE_PROXY | ROUTE_CACHE | ROUTE_BROWSER.
#[export] Instance RouteKind_eq_dec : EqDecision RouteKind.
Proof. solve_decision. Defined.

(** Source: transports/base.py, RouteMetadata. *)
Record RouteMetadata := {
  rt_kind : RouteKind; rt_provider : option string; rt_endpoint_id : option string;
  rt_lease_id : option string;
}.
Definition route_of (k : RouteKind) : RouteMetadata :=
  {| rt_kind := k; rt_provider := None; rt_endpoint_id := None; rt_lease_id := None |}.

(** Source: transports/base.py:279-288, TransportResponse. *)
Record TransportResponse := {
  t_status : Z;
  t_headers : list (string * string);
  t_content : string;
  t_final_url : string;
  t_route : RouteMetadata;
  t_from_cache : bool;
  t_elapsed : Z;
  t_accounting : option TransportAccounting;
}.

(** [response.model_copy(update={"route": ..., "from_cache": ...})] *)
Definition with_route (t : TransportResponse) (route : RouteMetadata) (cached : bool) : TransportResponse :=
  {| t_status := t_status t; t_headers := t_headers t; t_content := t_content t;
     t_final_url := t_final_url t; t_route := route; t_from_cache := cached;
     t_elapsed := t_elapsed t; t_accounting := t_accounting t |}.

Definition content_length (t : TransportResponse) : Z := str_len (t_content t).

(** What [ResponseBodyTooLarge] carries. *)
Record too_large := {
  tl_maximum_bytes : Z; tl_received_bytes : Z; tl_accounting : option TransportAccounting;
}.

(** Source: transports/base.py, enforce_response_body_limit. *)
Definition enforce_response_body_limit (t : TransportResponse) (maximum_bytes : Z)
  : result too_large TransportResponse :=
  if maximum_bytes <? content_length t
  then Err {| tl_maximum_bytes := maximum_bytes; tl_received_bytes := content_length t;
              tl_accounting := t_accounting t |}
  else Ok t.

(** Source: transports/base.py, RequestObservation.outcome. *)
Definition observation_outcome (status : option Z) : string :=
  match status with
  | Some s => if bool_decide (s ∈ [403; 429]) then pretty s else pretty (s / 100) +:+ "xx"
  | None => "transport_error"
  end.

(** * Application-layer bytes of one request *)

(** Source: transports/base.py, _query_accounting_value. *)
Definition query_text (v : query_value) : string :=
  match v with
  | QStr s => s
  | QInt n => pretty n
  | QFloat repr => repr
  | QBool true => "true"
  | QBool false => "false"
  end.

Section estimated.
Context (float_repr : pyfloat -> string).

(** The bytes sent as the request body. *)
Definition request_body (r : TransportRequest) : string :=
match r_json_body r with
| Some v => json_dumps float_repr false v
| None => default EmptyString (r_body r)
end.

Definition has_header (name : string) (headers : list (string * string)) : bool :=
existsb (fun kv => bool_decide (str_casefold kv.1 = name)) headers.

(** The headers the estimate counts: the caller's, then the ones the HTTP
client adds. *)
Definition counted_headers (r : TransportRequest) (parts : SplitResult) (port : option Z)
: list (string * string) :=
let headers := r_headers r in
let host := default EmptyString (sr_hostname parts) in
let host := if str_has ":" host then "[" +:+ host +:+ "]" else host in
let default_port :=
(bool_decide (sr_scheme parts = "https") && bool_decide (port ∈ [None; Some 443]))
|| (bool_decide (sr_scheme parts = "http") && bool_decide (port ∈ [None; Some 80])) in
let host_value := if default_port then host
                else host +:+ ":" +:+ from_option pretty "None" port in
let body := request_body r in
headers
++ (if has_header "host" headers then [] else [("Host", host_value)])
++ (if negb (str_isempty body) && negb (has_header "content-length" headers)
  then [("Content-Length", pretty (str_len body))] else [])
++ (if is_some (r_json_body r) && negb (has_header "content-type" headers)
  then [("Content-Type", "application/json")] else []).

Definition request_target (r : TransportRequest) (parts : SplitResult) : string :=
let supplied := urlencode (map (fun '(k, v) => (k, query_text v)) (r_query r)) in
let query := str_join "&" (filter (fun q => str_isempty q = false) [sr_query parts; supplied]) in
let path := if str_isempty (sr_path parts) then "/" else sr_path parts in
if str_isempty query then path else path +:+ "?" +:+ query.

(** The port is only read when the host header has to be written.
Source: transports/base.py, estimated_transmitted_bytes. *)
Definition estimated_transmitted_bytes (r : TransportRequest) : result pyexn Z :=
parts ← urlsplit (r_url r);
port ← (if has_header "host" (r_headers r) then Ok None else sr_port parts);
let start_line := str_upper (r_method r) +:+ " " +:+ request_target r parts +:+ " HTTP/1.1" in
let header_bytes :=
sum_Z (map (fun kv => str_len kv.1 + str_len kv.2 + 4) (counted_headers r parts port)) in
Ok (str_len start_line + 2 + header_bytes + 2 + str_len (request_body r)).
End estimated.

(** * The in-memory request budget *)

(** Source: transports/base.py, MemoryRequestBudget.__init__. *)
Record MemoryRequestBudget := {
  b_maximum_requests : option Z;
  b_maximum_bytes : option Z;
  b_requests : Z;
  b_bytes : Z;
  b_reserved_bytes : Z;
  b_next_authorization_id : Z;
  b_authorizations : gmap Z Z;
}.

Definition new_budget (maximum_requests maximum_bytes : option Z) : MemoryRequestBudget :=
  {| b_maximum_requests := maximum_requests; b_maximum_bytes := maximum_bytes; b_requests := 0;
     b_bytes := 0; b_reserved_bytes := 0; b_next_authorization_id := 0; b_authorizations := ∅ |}.

(** Source: transports/base.py, MemoryRequestBudget.affordable. *)
Definition affordable (b : MemoryRequestBudget) (estimated_bytes : Z) : bool :=
  below (b_maximum_requests b) (b_requests b)
  && within (b_maximum_bytes b) (b_bytes b + b_reserved_bytes b + estimated_bytes).

(** [None] is the refusal; [Some (id, b)] the authorization and the new state.
    Source: transports/base.py, MemoryRequestBudget.authorize. *)
Definition authorize (b : MemoryRequestBudget) (estimated_bytes : Z)
  : option (Z * MemoryRequestBudget) :=
  if affordable b estimated_bytes then
    let id := b_next_authorization_id b in
    Some (id,
      {| b_maximum_requests := b_maximum_requests b; b_maximum_bytes := b_maximum_bytes b;
         b_requests := b_requests b + 1; b_bytes := b_bytes b;
         b_reserved_bytes := b_reserved_bytes b + estimated_bytes;
         b_next_authorization_id := id + 1;
         b_authorizations := <[id := estimated_bytes]> (b_authorizations b) |})
  else None.

(** Source: transports/base.py, MemoryRequestBudget._reconcile. *)
Definition reconcile (b : MemoryRequestBudget) (id response_bytes : Z)
  : result pyexn MemoryRequestBudget :=
  _ ← ensure (0 <=? response_bytes) (ValueError "response_bytes must be non-negative");
  match b_authorizations b !! id with
  | None => Err (RuntimeError "budget authorization already reconciled")
  | Some estimated =>
      Ok {| b_maximum_requests := b_maximum_requests b; b_maximum_bytes := b_maximum_bytes b;
            b_requests := b_requests b; b_bytes := b_bytes b + response_bytes;
            b_reserved_bytes := b_reserved_bytes b - estimated;
            b_next_authorization_id := b_next_authorization_id b;
            b_authorizations := delete id (b_authorizations b) |}
  end.

(** Source: transports/base.py, MemoryRequestBudget._release. *)
Definition release (b : MemoryRequestBudget) (id : Z) : result pyexn MemoryRequestBudget :=
  match b_authorizations b !! id with
  | None => Err (RuntimeError "budget authorization already resolved")
  | Some estimated =>
      Ok {| b_maximum_requests := b_maximum_requests b; b_maximum_bytes := b_maximum_bytes b;
            b_requests := b_requests b - 1; b_bytes := b_bytes b;
            b_reserved_bytes := b_reserved_bytes b - estimated;
            b_next_authorization_id := b_next_authorization_id b;
            b_authorizations := delete id (b_authorizations b) |}
  end.

(** Any interleaving of attempts against one budget. The ghost counters
    [settled] and [overrun] record how many attempts were reconciled and by how
    much their responses exceeded their estimates. *)
Inductive budget_step :
  MemoryRequestBudget * (Z * Z) -> MemoryRequestBudget * (Z * Z) -> Prop :=
| step_authorize b b' id est settled overrun :
    0 <= est -> authorize b est = Some (id, b') ->
    budget_step (b, (settled, overrun)) (b', (settled, overrun))
| step_reconcile b b' id est bytes settled overrun :
    b_authorizations b !! id = Some est -> reconcile b id bytes = Ok b' ->
    budget_step (b, (settled, overrun)) (b', (settled + 1, overrun + Z.max 0 (bytes - est)))
| step_release b b' id settled overrun :
    release b id = Ok b' -> budget_step (b, (settled, overrun)) (b', (settled, overrun)).

Record budget_inv (mr mb : option Z) (s : MemoryRequestBudget * (Z * Z)) : Prop := {
  bi_mr : b_maximum_requests s.1 = mr;
  bi_mb : b_maximum_bytes s.1 = mb;
  bi_reserved : b_reserved_bytes s.1 = map_sum (b_authorizations s.1);
  bi_nonneg : map_Forall (fun _ v => 0 <= v) (b_authorizations s.1);
  bi_fresh : map_Forall (fun k _ => k < b_next_authorization_id s.1) (b_authorizations s.1);
  bi_requests : b_requests s.1 = s.2.1 + Z.of_nat (size (b_authorizations s.1));
  bi_cap_requests : within mr (b_requests s.1) = true;
  bi_bytes : 0 <= b_bytes s.1;
  bi_overrun : 0 <= s.2.2;
  bi_cap_bytes : within mb (b_bytes s.1 + b_reserved_bytes s.1 - s.2.2) = true;
}.

Lemma budget_inv_init mr mb :
  within mr 0 = true -> within mb 0 = true -> budget_inv mr mb (new_budget mr mb, (0, 0)).
Proof.
  intros H1 H2. constructor; simpl; try done; rewrite ?map_sum_empty; done.
Qed.

Lemma fresh_lookup {V} (m : gmap Z V) n : map_Forall (fun k _ => k < n) m -> m !! n = None.
Proof.
  intros Hf. destruct (m !! n) eqn:E; [|done]. specialize (Hf n v E). simpl in Hf. lia.
Qed.

Lemma map_size_delete_Z {V} (m : gmap Z V) k v :
  m !! k = Some v -> Z.of_nat (size (delete k m)) = Z.of_nat (size m) - 1.
Proof.
  intros Hk. rewrite map_size_delete, Hk. simpl.
  assert (size m <> 0)%nat; [|lia]. intros Hz%map_size_empty_inv. by subst.
Qed.

Lemma budget_inv_step mr mb s s' : budget_inv mr mb s -> budget_step s s' -> budget_inv mr mb s'.
Proof.
  intros [Hmr Hmb Hres Hnn Hfr Hreq Hcr Hb Ho Hcb] Hstep.
  destruct Hstep as [b b' id est settled overrun Hest Hauth
                    |b b' id est bytes settled overrun Hid Hrec
                    |b b' id settled overrun Hrel]; simpl in *.
  - unfold authorize, affordable in Hauth. case_match; [|done]. bool_facts. simplify_eq/=.
    pose proof (fresh_lookup _ _ Hfr) as Hnone.
    constructor; simpl; try done.
    + rewrite map_sum_insert by done. lia.
    + by apply map_Forall_insert_2.
    + apply map_Forall_insert_2; [lia|]. eapply map_Forall_impl; [exact Hfr|]. simpl. lia.
    + rewrite map_size_insert_None by done. lia.
    + destruct (b_maximum_requests b); simpl in *; [apply Z.leb_le; bool_facts; lia|done].
    + destruct (b_maximum_bytes b); simpl in *; [apply Z.leb_le; bool_facts; lia|done].
  - unfold reconcile, ensure in Hrec. rewrite Hid in Hrec. simpl in Hrec.
    destruct (0 <=? bytes) eqn:Hbytes; [|discriminate]. bool_facts. simplify_eq/=.
    pose proof (map_sum_delete _ _ _ Hid). pose proof (map_size_delete_Z _ _ _ Hid).
    constructor; simpl; try done; try lia; try by apply map_Forall_delete.
    destruct (b_maximum_bytes b); simpl in *; [apply Z.leb_le; bool_facts; lia|done].
  - unfold release in Hrel. case_match eqn:Hid; [|done]. simplify_eq/=.
    pose proof (map_sum_delete _ _ _ Hid). pose proof (map_size_delete_Z _ _ _ Hid).
    pose proof (map_sum_lookup_le _ _ _ Hnn Hid). specialize (Hnn _ _ Hid) as Hz. simpl in Hz.
    constructor; simpl; try done; try lia; try by apply map_Forall_delete.
    + eapply within_mono; [|exact Hcr]. lia.
    + eapply within_mono; [|exact Hcb]. lia.
Qed.

(** An identifier that has been issued and settled. *)
Definition spent (id : Z) (s : MemoryRequestBudget * (Z * Z)) : Prop :=
  id < b_next_authorization_id s.1 /\ b_authorizations s.1 !! id = None.

Lemma spent_step id s s' : spent id s -> budget_step s s' -> spent id s'.
Proof.
  unfold spent. intros [Hlt Hnone] Hstep.
  destruct Hstep as [b b' id' est settled overrun Hest Hauth
                    |b b' id' est bytes settled overrun Hid Hrec
                    |b b' id' settled overrun Hrel]; simpl in *.
  - unfold authorize in Hauth. case_match; simplify_eq/=. split; [lia|]. by rewrite lookup_insert_ne by lia.
  - unfold reconcile in Hrec. simpl in Hrec. step_in Hrec. split; [done|]. apply lookup_delete_None. auto.
  - unfold release in Hrel. step_in Hrel. split; [done|]. apply lookup_delete_None. auto.
Qed.

Lemma spent_refuses id s : spent id s ->
  (forall n, is_ok (reconcile s.1 id n) = false) /\ is_ok (release s.1 id) = false.
Proof.
  intros [_ Hnone]. unfold reconcile, release, ensure. rewrite Hnone.
  split; [|done]. intros n. by destruct (0 <=? n).
Qed.

(** * The text whose size is estimated *)

Definition crlf : string := String (chr 13) (String (chr 10) EmptyString).

Fixpoint header_lines (headers : list (string * string)) : string :=
  match headers with
  | [] => EmptyString
  | kv :: r => kv.1 +:+ ": " +:+ kv.2 +:+ crlf +:+ header_lines r
  end.

(** The HTTP/1.1 message a plain client writes for a request. *)
Definition http_message (float_repr : pyfloat -> string) (r : TransportRequest)
  (parts : SplitResult) (port : option Z) : string :=
  str_upper (r_method r) +:+ " " +:+ request_target r parts +:+ " HTTP/1.1" +:+ crlf
  +:+ header_lines (counted_headers float_repr r parts port) +:+ crlf
  +:+ request_body float_repr r.

Lemma str_len_app s t : str_len (s +:+ t) = str_len s + str_len t.
Proof. unfold str_len. rewrite length_str_app. lia. Qed.

Lemma header_lines_length h :
  str_len (header_lines h) = sum_Z (map (fun kv => str_len kv.1 + str_len kv.2 + 4) h).
Proof.
  induction h as [|kv h IH]; [done|].
  cbn [header_lines map sum_Z foldr]. rewrite !str_len_app, IH.
  change (str_len ": ") with 2. change (str_len crlf) with 2. unfold sum_Z. lia.
Qed.

(** * Properties *)

(** C26. Whatever the interleaving of authorisations, reconciliations and
    releases, the budget never counts more attempts than [maximum_requests], its
    reservation is exactly the sum of the outstanding estimates, and the bytes
    counted plus reserved stay within [maximum_bytes] but for the amount by
    which finished responses exceeded their own estimates. *)
Theorem budget_never_oversubscribed mr mb s :
  within mr 0 = true -> within mb 0 = true ->
  reachable budget_step (new_budget mr mb, (0, 0)) s ->
  within mr (b_requests s.1) = true
  /\ within mb (b_bytes s.1 + b_reserved_bytes s.1 - s.2.2) = true
  /\ b_reserved_bytes s.1 = map_sum (b_authorizations s.1)
  /\ b_requests s.1 = s.2.1 + Z.of_nat (size (b_authorizations s.1)).
Proof.
  intros H1 H2 Hr.
  destruct (reachable_invariant budget_step (budget_inv mr mb) _ (budget_inv_init mr mb H1 H2)
              (budget_inv_step mr mb) s Hr); auto.
Qed.

Lemma budget_never_oversubscribed_witness :
  exists b, reachable budget_step (new_budget (Some 1) (Some 100), (0, 0)) (b, (0, 0))
            /\ within (Some 1) (b_requests b) = true /\ b_requests b = 1.
Proof.
  eexists. assert (Hr : reachable budget_step (new_budget (Some 1) (Some 100), (0, 0))
     (default (new_budget None None) (snd <$> authorize (new_budget (Some 1) (Some 100)) 60), (0, 0))).
  { eapply reach_step; [apply reach_refl|]. eapply (step_authorize _ _ 0 60); [lia|reflexivity]. }
  split; [exact Hr|].
  destruct (budget_never_oversubscribed (Some 1) (Some 100) _ eq_refl eq_refl Hr) as [H _].
  split; [exact H|reflexivity].
Defined.

(** An authorisation settles exactly once: after a reconciliation or a
    release of it, every later reconciliation or release of the same
    authorisation fails in every state the budget can reach, because
    identifiers are never reused. *)
Theorem budget_authorization_single_use mr mb b g id b' s :
  within mr 0 = true -> within mb 0 = true ->
  reachable budget_step (new_budget mr mb, (0, 0)) (b, g) ->
  (exists n, reconcile b id n = Ok b') \/ release b id = Ok b' ->
  reachable budget_step (b', g) s ->
  (forall n, is_ok (reconcile s.1 id n) = false) /\ is_ok (release s.1 id) = false.
Proof.
  intros H1 H2 Hb Hsettle Hs. apply spent_refuses.
  refine (reachable_invariant budget_step (spent id) _ _ (spent_step id) s Hs).
  pose proof (reachable_invariant budget_step (budget_inv mr mb) _ (budget_inv_init mr mb H1 H2)
                (budget_inv_step mr mb) _ Hb) as [_ _ _ _ Hfr _ _ _ _ _].
  unfold spent. simpl in *.
  destruct Hsettle as [[n Hrec]|Hrel].
  - unfold reconcile in Hrec. simpl in Hrec. step_in Hrec.
    specialize (Hfr id _ E0). simpl in Hfr. by rewrite lookup_delete_eq.
  - unfold release in Hrel. step_in Hrel. specialize (Hfr id _ E). simpl in Hfr.
    by rewrite lookup_delete_eq.
Qed.

Definition one_authorized : MemoryRequestBudget :=
  default (new_budget None None) (snd <$> authorize (new_budget None (Some 100)) 60).

Lemma budget_authorization_single_use_witness :
  exists b', reconcile one_authorized 0 70 = Ok b' /\ is_ok (release b' 0) = false.
Proof.
  destruct (reconcile one_authorized 0 70) as [b'|] eqn:Hrec; [|vm_compute in Hrec; discriminate].
  exists b'. split; [reflexivity|].
  refine (proj2 (budget_authorization_single_use None (Some 100) one_authorized (0, 0) 0 b' (b', (0, 0))
                   eq_refl eq_refl _ _ _)).
  - eapply reach_step; [apply reach_refl|]. eapply (step_authorize _ _ 0 60); [lia|reflexivity].
  - left. exists 70. exact Hrec.
  - apply reach_refl.
Defined.

(** The deterministic byte estimate of a request is the exact length of the
    HTTP/1.1 message a plain client writes for it: start line, the caller's
    headers completed with Host, Content-Length and Content-Type, the blank
    line and the body. *)
Theorem estimated_bytes_is_message_length float_repr r n :
  estimated_transmitted_bytes float_repr r = Ok n ->
  exists parts port, urlsplit (r_url r) = Ok parts
    /\ (port = None \/ sr_port parts = Ok port)
    /\ n = str_len (http_message float_repr r parts port).
Proof.
  unfold estimated_transmitted_bytes. destruct (urlsplit (r_url r)) as [parts|]; [|discriminate].
  simpl. intros H.
  destruct (if has_header "host" (r_headers r) then Ok None else sr_port parts) as [port|] eqn:Hp;
    [|discriminate].
  simpl in H. injection H as <-. exists parts, port. split; [done|]. split.
  - destruct (has_header "host" (r_headers r)); [left; congruence|by right].
  - unfold http_message. rewrite !str_len_app, header_lines_length.
    change (str_len crlf) with 2. lia.
Qed.

Definition plain_get (url : string) : TransportRequest :=
  {| r_method := "get"; r_url := url; r_query := [("page", QInt 2)]; r_headers := []; r_json_body := None;
     r_body := None; r_purpose := P_DISCOVERY; r_priority := R_DISCOVERY; r_required := true;
     r_estimated_bytes := 0; r_cache := CACHE_DEFAULT; r_browser := HINT_NEVER; r_evaluation := None;
     r_trace_request_id := None; r_trace_attempt := None |}.

Lemma estimated_bytes_is_message_length_witness :
  exists parts port, urlsplit "https://shop.example/p" = Ok parts
    /\ 46 = str_len (http_message (fun _ => "") (plain_get "https://shop.example/p") parts port).
Proof.
  destruct (estimated_bytes_is_message_length (fun _ => "") (plain_get "https://shop.example/p") 46
              ltac:(vm_compute; reflexivity)) as (parts & port & H1 & _ & H2).
  exists parts, port. split; assumption.
Defined.
