(* ===== verification/Middleware.v ===== *)
(** The cache and retry controller ([commerce-scraper/.../transports/middleware.py]):
    one logical request becomes a bounded sequence of authorised, rate-limited
    attempts against a backend, with cache, robots and stale fallback around it. *)
From S2P Require Export Effects Transport.
From Stdlib Require Import Ascii.

(** * Exceptions, actions and state *)

(** The exceptions that cross this layer. [X_Exception] is any other subclass
    of [Exception] (named by its class, with the [accounting] attribute it may
    carry), [X_BaseException] any other [BaseException]. *)
Inductive mw_exn :=
| X_RobotsDenied
| X_BudgetExhausted
| X_BodyTooLarge (e : too_large)
| X_TransportFailure (accounting : option TransportAccounting)
| X_Cancelled (accounting : option TransportAccounting)
| X_Exception (name : string) (accounting : option TransportAccounting)
| X_BaseException (name : string).

(** [isinstance(error, Exception)] *)
Definition is_exception (e : mw_exn) : bool :=
  match e with X_Cancelled _ | X_BaseException _ => false | _ => true end.

(** [getattr(error, "accounting", None)] *)
Definition exn_accounting (e : mw_exn) : option TransportAccounting :=
  match e with
  | X_BodyTooLarge t => tl_accounting t
  | X_TransportFailure a | X_Cancelled a | X_Exception _ a => a
  | _ => None
  end.

(** [type(error).__name__] *)
Definition exn_name (e : mw_exn) : string :=
  match e with
  | X_RobotsDenied => "RobotsDenied" | X_BudgetExhausted => "BudgetExhausted"
  | X_BodyTooLarge _ => "ResponseBodyTooLarge" | X_TransportFailure _ => "TransportFailure"
  | X_Cancelled _ => "CancelledError" | X_Exception n _ => n | X_BaseException n => n
  end.

(** A telemetry value: JSON, or a duration rounded to microseconds. *)
Inductive tvalue := TJ (v : json) | TMillis (microseconds : Z).
Definition fields : Type := list (string * tvalue).

(** Source: transports/base.py, RequestObservationPhase. *)
Inductive RequestObservationPhase := STARTED | COMPLETED | FAILED | RETRY.

(** Source: transports/base.py:228-245, RequestObservation. *)
Record RequestObservation := {
  o_phase : RequestObservationPhase;
  o_request_id : option string;
  o_attempt : Z;
  o_source_id : option string;
  o_target_host : string;
  o_method : string;
  o_purpose : RequestPurpose;
  o_status : option Z;
  o_elapsed : option Z;
  o_route : option RouteMetadata;
  o_accounting : TransportAccounting;
  o_classification : option string;
}.

Definition no_accounting : TransportAccounting :=
  {| a_physical_requests := 0; a_transmitted_bytes := 0; a_received_bytes := 0 |}.
(** [TransportAccounting(transmitted_bytes=..., received_bytes=...)]: one physical request. *)
Definition one_request (transmitted received : Z) : TransportAccounting :=
  {| a_physical_requests := 1; a_transmitted_bytes := transmitted; a_received_bytes := received |}.

(** What the controller does to its collaborators, in order. [A_attempt] marks
    the start of one iteration of the retry loop. *)
Inductive action :=
| A_robots (allowed : bool)
| A_cache_get
| A_attempt
| A_authorize (id : option Z)
| A_wait (acquired : bool)
| A_dispatch (r : TransportRequest)
| A_limiter_release
| A_reconcile (id bytes : Z)
| A_release (id : Z)
| A_cache_put (t : TransportResponse)
| A_rotate (reason : RotationReason)
| A_sleep (milliseconds : Z)
| A_emit (event : string) (f : fields)
| A_observe (o : RequestObservation).

(** The local variables one attempt shares with its handlers. *)
Record locals := {
  l_rate_limit_acquired : bool;
  l_dispatched : bool;
  l_response_bytes : Z;
  l_accounting : TransportAccounting;
  l_started : Z;
  l_transport_failure : option (option TransportAccounting);
}.
Definition fresh_locals (started : Z) : locals :=
  {| l_rate_limit_acquired := false; l_dispatched := false; l_response_bytes := 0;
     l_accounting := no_accounting; l_started := started; l_transport_failure := None |}.

Record st (W : Type) := { st_world : W; st_trace : list action; st_loc : locals }.
Arguments st_world {W} _.
Arguments st_trace {W} _.
Arguments st_loc {W} _.
Arguments Build_st {W} _ _ _.

(** A cache read: the fresh response, or the stale one with the write handle. *)
Record cache_lookup := { k_fresh : option TransportResponse; k_stale : option TransportResponse; k_handle : Z }.

(** Source: transports/middleware.py, MiddlewareTransport.__init__. *)
Record Config := {
  c_budget : bool;
  c_cache : option bool;            (* [Some true]: the cache is a [StaleResponseCache] *)
  c_stale_on_error : bool;
  c_robots : bool;
  c_rate_limiter : bool;
  c_retries : nat;
  c_backoff : Z -> Z;               (* milliseconds before the attempt after this one *)
  c_telemetry : bool;
  c_telemetry_context : fields;
  c_maximum_response_bytes : Z;
}.

(** The guards of the constructor.
    Source: transports/middleware.py, MiddlewareTransport.__init__. *)
Definition middleware_init (retries maximum_response_bytes : Z) (cfg : nat -> Z -> Config)
  : result pyexn Config :=
  _ ← ensure (0 <=? retries) (ValueError "retries must be non-negative");
  _ ← ensure (1 <=? maximum_response_bytes) (ValueError "maximum_response_bytes must be positive");
  Ok (cfg (Z.to_nat retries) maximum_response_bytes).

(** The collaborators: each call may change the world and may raise. *)
Record Env (W : Type) := {
  x_float_repr : pyfloat -> string;
  x_uuid : W -> string * W;
  x_clock : W -> Z;
  x_allowed : string -> eff W mw_exn bool;
  x_cache_get : TransportRequest -> eff W mw_exn (option TransportResponse);
  x_cache_get_with_stale : TransportRequest -> eff W mw_exn cache_lookup;
  x_cache_put : TransportRequest -> TransportResponse -> eff W mw_exn ();
  x_lookup_put : Z -> TransportResponse -> eff W mw_exn ();
  x_authorize : TransportRequest -> eff W mw_exn (option Z);
  x_reconcile : Z -> Z -> eff W mw_exn ();
  x_auth_release : Z -> eff W mw_exn ();
  x_wait : TransportRequest -> eff W mw_exn ();
  x_limiter_release : TransportRequest -> eff W mw_exn ();
  x_backend : TransportRequest -> eff W mw_exn TransportResponse;
  x_rotate : RotationReason -> TransportRequest -> eff W mw_exn ();
  x_sleep : Z -> eff W mw_exn ();
}.
Arguments x_float_repr {W} _.
Arguments x_uuid {W} _.
Arguments x_clock {W} _.
Arguments x_allowed {W} _.
Arguments x_cache_get {W} _.
Arguments x_cache_get_with_stale {W} _.
Arguments x_cache_put {W} _.
Arguments x_lookup_put {W} _.
Arguments x_authorize {W} _.
Arguments x_reconcile {W} _.
Arguments x_auth_release {W} _.
Arguments x_wait {W} _.
Arguments x_limiter_release {W} _.
Arguments x_backend {W} _.
Arguments x_rotate {W} _.
Arguments x_sleep {W} _.

(** * The controller *)

Definition purpose_value (p : RequestPurpose) : string :=
  match p with
  | P_ROBOTS => "robots" | P_DISCOVERY => "discovery" | P_ENTITY => "entity"
  | P_ENRICHMENT => "enrichment"
  end.
Definition priority_name (p : RequestPriority) : string :=
  match p with
  | R_DISCOVERY => "discovery" | R_IDENTITY => "identity"
  | R_DATASET_REQUIRED => "dataset_required" | R_DETAIL => "detail" | R_OPTIONAL => "optional"
  end.
Definition browser_value (b : BrowserHint) : string :=
  match b with HINT_NEVER => "never" | HINT_OPTIONAL => "optional" | HINT_REQUIRED => "required" end.
Definition route_kind (k : RouteKind) : string :=
  match k with
  | ROUTE_DIRECT => "direct" | ROUTE_PROXY => "proxy" | ROUTE_CACHE => "cache"
  | ROUTE_BROWSER => "browser"
  end.

Definition tstr (s : string) : tvalue := TJ (JStr s).
Definition tint (n : Z) : tvalue := TJ (JInt n).
Definition tbool (b : bool) : tvalue := TJ (JBool b).
Definition topt (o : option string) : tvalue := TJ (from_option JStr JNull o).

(** The statuses an attempt may retry. *)
Definition retry_status (s : Z) : bool := bool_decide (s ∈ [403; 429; 500; 502; 503; 504]).

(** Source: transports/middleware.py, MiddlewareTransport._can_use_stale. *)
Definition can_use_stale (cfg : Config) (r : TransportRequest) (stale : option TransportResponse)
  (status : option Z) : bool :=
  c_stale_on_error cfg && is_some stale && bool_decide (str_upper (r_method r) = "GET")
  && bool_decide (r_browser r = HINT_NEVER)
  && match status with
     | None => true
     | Some s => bool_decide (s ∈ [408; 425; 429]) || (500 <=? s)
     end.

(** The first value of a header, by case-folded name. *)
Definition header_value (name : string) (h : list (string * string)) : option string :=
  snd <$> head (filter (fun kv => str_casefold kv.1 = name) h).

(** Source: transports/middleware.py, MiddlewareTransport._conditional_request. *)
Definition conditional_request (r : TransportRequest) (stale : TransportResponse) : TransportRequest :=
  if negb (bool_decide (str_upper (r_method r) ∈ ["GET"; "HEAD"]))
     || negb (bool_decide (r_browser r = HINT_NEVER))
  then r
  else
    let existing := map (fun kv => str_casefold kv.1) (r_headers r) in
    let add (headers : list (string * string)) (names : string * string) :=
      match header_value names.1 (t_headers stale) with
      | Some value => if bool_decide (names.2 ∈ existing) then headers
                      else dict_set names.2 value headers
      | None => headers
      end in
    with_headers r (foldl add (r_headers r)
      [("etag", "if-none-match"); ("last-modified", "if-modified-since")]).

(** Source: transports/middleware.py, MiddlewareTransport._revalidated_response. *)
Definition revalidated_response (stale response : TransportResponse) : TransportResponse :=
  {| t_status := t_status stale;
     t_headers := dict_update (t_headers stale)
       (filter (fun kv => str_casefold kv.1 ∈ ["content-type"; "content-language"; "last-modified"; "etag"])
          (t_headers response));
     t_content := t_content stale;
     t_final_url := t_final_url stale;
     t_route := t_route response;
     t_from_cache := true;
     t_elapsed := 0;
     t_accounting := t_accounting response |}.

Section controller.
Context {W : Type} (cfg : Config) (env : Env W).
#[local] Abbreviation M := (eff (st W) mw_exn).

(** ** Access to the state *)

Definition log (a : action) : M () :=
modify (fun s => Build_st (st_world s) (st_trace s ++ [a]) (st_loc s)).
Definition call {A} (m : eff W mw_exn A) : M A := fun s =>
match m (st_world s) with (r, w) => (r, Build_st w (st_trace s) (st_loc s)) end.
Definition loc {A} (f : locals -> A) : M A := gets (fun s => f (st_loc s)).
Definition set_loc (f : locals -> locals) : M () :=
modify (fun s => Build_st (st_world s) (st_trace s) (f (st_loc s))).
Definition monotonic : M Z := gets (fun s => x_clock env (st_world s)).

Definition set_acquired : M () := set_loc (fun l =>
{| l_rate_limit_acquired := true; l_dispatched := l_dispatched l;
 l_response_bytes := l_response_bytes l; l_accounting := l_accounting l;
 l_started := l_started l; l_transport_failure := l_transport_failure l |}).
Definition set_dispatched : M () := set_loc (fun l =>
{| l_rate_limit_acquired := l_rate_limit_acquired l; l_dispatched := true;
 l_response_bytes := l_response_bytes l; l_accounting := l_accounting l;
 l_started := l_started l; l_transport_failure := l_transport_failure l |}).
Definition set_response_bytes (n : Z) : M () := set_loc (fun l =>
{| l_rate_limit_acquired := l_rate_limit_acquired l; l_dispatched := l_dispatched l;
 l_response_bytes := n; l_accounting := l_accounting l;
 l_started := l_started l; l_transport_failure := l_transport_failure l |}).
Definition set_accounting (a : TransportAccounting) : M () := set_loc (fun l =>
{| l_rate_limit_acquired := l_rate_limit_acquired l; l_dispatched := l_dispatched l;
 l_response_bytes := l_response_bytes l; l_accounting := a;
 l_started := l_started l; l_transport_failure := l_transport_failure l |}).
Definition set_started (t : Z) : M () := set_loc (fun l =>
{| l_rate_limit_acquired := l_rate_limit_acquired l; l_dispatched := l_dispatched l;
 l_response_bytes := l_response_bytes l; l_accounting := l_accounting l;
 l_started := t; l_transport_failure := l_transport_failure l |}).
Definition set_failure (a : option TransportAccounting) : M () := set_loc (fun l =>
{| l_rate_limit_acquired := l_rate_limit_acquired l; l_dispatched := l_dispatched l;
 l_response_bytes := l_response_bytes l; l_accounting := l_accounting l;
 l_started := l_started l; l_transport_failure := Some a |}).

(** ** Telemetry *)

(** The sink never raises.
Source: transports/middleware.py, MiddlewareTransport._emit. *)
Definition emit (event : string) (f : fields) : M () :=
when (c_telemetry cfg) (log (A_emit event f)).

Definition valid_length (lo hi : nat) (s : string) : bool :=
(lo <=? String.length s)%nat && (String.length s <=? hi)%nat.

(** The field constraints of the observation. *)
Definition valid_observation (o : RequestObservation) : bool :=
match o_request_id o with None => true | Some i => valid_length 1 128 i end
&& (1 <=? o_attempt o)
&& match o_source_id o with None => true | Some i => valid_length 1 256 i end
&& valid_length 0 253 (o_target_host o) && valid_length 1 16 (o_method o)
&& match o_status o with None => true | Some s => (100 <=? s) && (s <=? 599) end
&& match o_elapsed o with None => true | Some e => 0 <=? e end
&& match o_classification o with None => true | Some c => valid_length 0 64 c end.

(** Source: transports/middleware.py, MiddlewareTransport._observe_request. *)
Definition observe_request (phase : RequestObservationPhase) (r : TransportRequest) (attempt : Z)
(accounting : option TransportAccounting) (response : option TransportResponse)
(elapsed : option Z) (classification : option string) : M () :=
if negb (c_telemetry cfg) then mret () else
let source := match dict_get "source_id" (c_telemetry_context cfg) with
            | Some (TJ (JStr s)) => if str_isempty s then None else Some s
            | _ => None
            end in
match urlsplit (r_url r) with
| Err _ => throw (X_Exception "ValueError" None)
| Ok parts =>
  let o := {| o_phase := phase; o_request_id := r_trace_request_id r; o_attempt := attempt;
              o_source_id := source;
              o_target_host := str_casefold (default EmptyString (sr_hostname parts));
              o_method := str_upper (r_method r); o_purpose := r_purpose r;
              o_status := t_status <$> response; o_elapsed := elapsed;
              o_route := t_route <$> response;
              o_accounting := default no_accounting accounting;
              o_classification := classification |} in
  if valid_observation o then log (A_observe o)
  else throw (X_Exception "ValidationError" None)
end.

(** [{**common, ...}] *)
Definition with_fields (common f : fields) : fields := dict_update common f.

(** Source: transports/middleware.py, MiddlewareTransport._emit_attempt_failure. *)
Definition emit_attempt_failure (common : fields) (r : TransportRequest) (error : mw_exn)
(accounting : TransportAccounting) (attempt started : Z) (stage : string)
(retryable : option bool) (cancelled : bool) (extra : fields) : M () :=
now ← monotonic;
let elapsed := now - started in
let f := with_fields common
([("level", tstr "warning"); ("attempt", tint attempt); ("elapsed_ms", TMillis elapsed);
  ("error_type", tstr (exn_name error)); ("failure_stage", tstr stage);
  ("transmitted_bytes", tint (a_transmitted_bytes accounting));
  ("received_bytes", tint (a_received_bytes accounting));
  ("physical_requests", tint (a_physical_requests accounting))] ++ extra) in
let f := match retryable with Some b => dict_set "retryable" (tbool b) f | None => f end in
let f := if cancelled then dict_set "cancelled" (tbool true) f else f in
_ ← emit "request.failed" f;
observe_request FAILED r attempt (Some accounting) None (Some elapsed) (Some stage).

(** Source: transports/middleware.py, MiddlewareTransport._emit_completed. *)
Definition emit_completed (common : fields) (r : TransportRequest) (response : TransportResponse)
(accounting : TransportAccounting) (attempt started : Z) : M () :=
now ← monotonic;
_ ← emit "request.completed" (with_fields common
[("level", tstr (if t_status response <? 400 then "debug" else "warning"));
 ("status", tint (t_status response)); ("attempt", tint attempt);
 ("elapsed_ms", TMillis (now - started));
 ("route", tstr (route_kind (rt_kind (t_route response))));
 ("provider", topt (rt_provider (t_route response)));
 ("transmitted_bytes", tint (a_transmitted_bytes accounting));
 ("received_bytes", tint (a_received_bytes accounting));
 ("physical_requests", tint (a_physical_requests accounting))]);
now ← monotonic;
observe_request COMPLETED r attempt (Some accounting) (Some response) (Some (now - started)) None.

(** ** Cache and stale responses *)

(** Source: transports/middleware.py, MiddlewareTransport._enforce_cached_body. *)
Definition enforce_cached_body (response : TransportResponse) (common : fields) (reason : string)
: M TransportResponse :=
match enforce_response_body_limit response (c_maximum_response_bytes cfg) with
| Ok r => mret r
| Err tl =>
  _ ← emit "cache.rejected" (with_fields common
    [("level", tstr "warning"); ("reason", tstr reason);
     ("received_bytes", tint (tl_received_bytes tl));
     ("maximum_bytes", tint (tl_maximum_bytes tl))]);
  throw (X_BodyTooLarge tl)
end.

(** Source: transports/middleware.py, MiddlewareTransport._stale_fallback. *)
Definition stale_fallback (common : fields) (stale : TransportResponse) (reason : string)
(status : option Z) : M TransportResponse :=
let f := with_fields common [("level", tstr "warning"); ("reason", tstr reason)] in
let f := match status with Some s => dict_set "status" (tint s) f | None => f end in
_ ← emit "cache.stale_used" f;
mret (with_route stale (route_of ROUTE_CACHE) true).

(** Source: transports/middleware.py, MiddlewareTransport._cache_put. *)
Definition cache_put (r : TransportRequest) (response : TransportResponse)
(lookup : option cache_lookup) (common : fields) (accounting : TransportAccounting)
(attempt started : Z) : M () :=
catch
(_ ← log (A_cache_put response);
 call (match lookup with
       | None => x_cache_put env r response
       | Some k => x_lookup_put env (k_handle k) response
       end))
(fun error =>
   _ ← emit_attempt_failure common r error accounting attempt started "cache_write"
         (Some false) false [];
   throw error).

(** Source: transports/middleware.py, MiddlewareTransport._rotate_identity. *)
Definition rotate (reason : RotationReason) (r : TransportRequest) : M () :=
_ ← log (A_rotate reason);
call (x_rotate env reason r).

(** ** One attempt *)

Definition estimated (r : TransportRequest) : M Z :=
lift (match estimated_transmitted_bytes (x_float_repr env) r with
    | Ok n => Ok n
    | Err _ => Err (X_Exception "ValueError" None)
    end).

(** [given or TransportAccounting(transmitted_bytes=estimated(...), received_bytes=...)] *)
Definition accounting_or (given : option TransportAccounting) (r : TransportRequest) (received : Z)
: M TransportAccounting :=
match given with
| Some a => mret a
| None => tx ← estimated r; mret (one_request tx received)
end.

(** The [try] block of an attempt.
Source: transports/middleware.py:152-182, MiddlewareTransport.request. *)
Definition attempt_body (common : fields) (r : TransportRequest) (number : Z) : M TransportResponse :=
_ ← when (c_rate_limiter cfg)
    (rate_limit_started ← monotonic;
     _ ← catch (call (x_wait env r)) (fun e => _ ← log (A_wait false); throw e);
     _ ← log (A_wait true);
     _ ← set_acquired;
     now ← monotonic;
     emit "rate_limit.wait" (with_fields common
       [("level", tstr "debug"); ("elapsed_ms", TMillis (now - rate_limit_started))]));
started ← monotonic;
_ ← set_started started;
_ ← emit "request.started" (with_fields common
    [("level", tstr "debug"); ("attempt", tint number)]);
_ ← observe_request STARTED r number None None None None;
_ ← set_dispatched;
_ ← log (A_dispatch r);
response ← call (x_backend env r);
_ ← set_response_bytes (content_length response);
accounting ← accounting_or (t_accounting response) r (content_length response);
_ ← set_accounting accounting;
match enforce_response_body_limit response (c_maximum_response_bytes cfg) with
| Ok response => mret response
| Err tl => throw (X_BodyTooLarge tl)
end.

(** The [except] clauses; [None] is the transport failure they swallow.
Source: transports/middleware.py:183-254, MiddlewareTransport.request. *)
Definition attempt_handler (common : fields) (r : TransportRequest) (number : Z) (error : mw_exn)
: M (option TransportResponse) :=
dispatched ← loc l_dispatched;
started ← loc l_started;
match error with
| X_BodyTooLarge tl =>
  if negb dispatched then throw error else
  _ ← set_response_bytes (tl_received_bytes tl);
  accounting ← accounting_or (tl_accounting tl) r (tl_received_bytes tl);
  _ ← set_accounting accounting;
  _ ← emit_attempt_failure common r error accounting number started "response_body_too_large"
        (Some false) false
        [("received_bytes", tint (tl_received_bytes tl));
         ("maximum_bytes", tint (tl_maximum_bytes tl))];
  throw error
| X_TransportFailure given =>
  if negb dispatched then throw error else
  _ ← set_failure given;
  accounting ← accounting_or given r 0;
  _ ← set_accounting accounting;
  _ ← emit_attempt_failure common r error accounting number started "transport_failure"
        (Some true) false [];
  mret None
| X_Cancelled given =>
  _ ← when dispatched
        (accounting ← accounting_or given r 0;
         _ ← set_accounting accounting;
         emit_attempt_failure common r error accounting number started "cancelled"
           (Some false) true []);
  throw error
| X_BaseException _ => throw error
| _ =>
  _ ← when dispatched
        (accounting ← accounting_or (exn_accounting error) r 0;
         _ ← set_accounting accounting;
         emit_attempt_failure common r error accounting number started "backend_failure"
           None false []);
  throw error
end.

(** [try: m except Exception as error: ...] *)
Definition catch_exception {A} (m : M A) (h : mw_exn -> M A) : M A :=
catch m (fun e => if is_exception e then h e else throw e).

(** The [finally] clause: the permit, then the authorisation.
Source: transports/middleware.py:255-285, MiddlewareTransport.request. *)
Definition attempt_cleanup (common : fields) (r : TransportRequest) (number : Z)
(authorization : option Z) : M () :=
acquired ← loc l_rate_limit_acquired;
cleanup_error ←
(if c_rate_limiter cfg && acquired
 then catch_exception
        (_ ← log A_limiter_release; _ ← call (x_limiter_release env r); mret None)
        (fun e => mret (Some (e, "rate_limit_release")))
 else mret None);
dispatched ← loc l_dispatched;
response_bytes ← loc l_response_bytes;
cleanup_error ←
match authorization with
| None => mret cleanup_error
| Some id =>
    catch_exception
      (if dispatched
       then _ ← log (A_reconcile id response_bytes);
            _ ← call (x_reconcile env id response_bytes); mret cleanup_error
       else _ ← log (A_release id);
            _ ← call (x_auth_release env id); mret cleanup_error)
      (fun e => mret (Some (e, if dispatched then "budget_reconcile" else "budget_release")))
end;
match cleanup_error with
| None => mret ()
| Some (error, stage) =>
  accounting ← loc l_accounting;
  started ← loc l_started;
  _ ← when dispatched
        (emit_attempt_failure common r error accounting number started stage (Some false) false []);
  throw error
end.

(** [None]: the attempt failed in the transport and may be retried. *)
Definition attempt (common : fields) (r : TransportRequest) (number : Z) (authorization : option Z)
: M (option TransportResponse) :=
finally
(catch (response ← attempt_body common r number; mret (Some response))
       (attempt_handler common r number))
(attempt_cleanup common r number authorization).

(** ** The retry loop *)

(** [request.model_copy(update={"trace_request_id": ..., "trace_attempt": ...})] *)
Definition attempt_request_of (r : TransportRequest) (request_id : option string) (number : Z)
: TransportRequest :=
match request_id with None => r | Some id => with_trace r id number end.

(** What follows a transport failure.
Source: transports/middleware.py:286-319, MiddlewareTransport.request. *)
Definition after_failure (common : fields) (request areq : TransportRequest)
(stale : option TransportResponse) (last : bool) (i : Z) (failure : option TransportAccounting)
: M (option TransportResponse) :=
if last then
match stale with
| Some s =>
    if can_use_stale cfg request stale None
    then resp ← stale_fallback common s "transport_failure" None; mret (Some resp)
    else throw (X_TransportFailure failure)
| None => throw (X_TransportFailure failure)
end
else
let backoff := c_backoff cfg i in
_ ← emit "request.retry" (with_fields common
      [("level", tstr "debug"); ("attempt", tint (i + 1)); ("next_attempt", tint (i + 2));
       ("classification", tstr "transport_failure"); ("backoff_ms", TMillis (1000 * backoff))]);
_ ← observe_request RETRY areq (i + 1) None None None (Some "transport_failure");
_ ← when (negb (can_use_stale cfg request stale None)) (rotate TRANSPORT_FAILURE areq);
_ ← log (A_sleep backoff);
_ ← call (x_sleep env backoff);
mret None.

(** What follows a response.
Source: transports/middleware.py:320-413, MiddlewareTransport.request. *)
Definition after_response (common : fields) (cache_request request areq : TransportRequest)
(lookup : option cache_lookup) (stale : option TransportResponse) (last : bool) (i : Z)
(response : TransportResponse) : M (option TransportResponse) :=
accounting ← loc l_accounting;
started ← loc l_started;
let number := i + 1 in
let ordinary :=
if negb (retry_status (t_status response)) || last then
  _ ← when (is_some (c_cache cfg) && (t_status response <? 400))
        (_ ← cache_put cache_request response lookup common accounting number started;
         emit "cache.write" (with_fields common
           [("level", tstr "debug"); ("status", tint (t_status response))]));
  _ ← emit_completed common areq response accounting number started;
  match stale with
  | Some s =>
      if can_use_stale cfg request stale (Some (t_status response))
      then resp ← stale_fallback common s "transient_status" (Some (t_status response));
           mret (Some resp)
      else mret (Some response)
  | None => mret (Some response)
  end
else
  let backoff := c_backoff cfg i in
  now ← monotonic;
  _ ← emit "request.retry" (with_fields common
        [("level", tstr "debug"); ("status", tint (t_status response)); ("attempt", tint number);
         ("next_attempt", tint (number + 1)); ("elapsed_ms", TMillis (now - started));
         ("route", tstr (route_kind (rt_kind (t_route response))));
         ("provider", topt (rt_provider (t_route response)));
         ("transmitted_bytes", tint (a_transmitted_bytes accounting));
         ("received_bytes", tint (a_received_bytes accounting));
         ("physical_requests", tint (a_physical_requests accounting));
         ("backoff_ms", TMillis (1000 * backoff))]);
  now ← monotonic;
  _ ← observe_request RETRY areq number (Some accounting) (Some response) (Some (now - started))
        (Some "transient_status");
  _ ← when (bool_decide (t_status response ∈ [403; 429])
            && negb (can_use_stale cfg request stale (Some (t_status response))))
        (rotate (if t_status response =? 403 then BLOCKED else RATE_LIMITED) areq);
  _ ← log (A_sleep backoff);
  _ ← call (x_sleep env backoff);
  mret None in
match stale with
| Some s =>
  if t_status response =? 304 then
    let revalidated := revalidated_response s response in
    _ ← when (is_some (c_cache cfg))
          (cache_put cache_request revalidated lookup common accounting number started);
    _ ← emit "cache.revalidated" (with_fields common
          [("level", tstr "debug"); ("status", tint 304); ("saved_bytes", tint (content_length s))]);
    _ ← emit_completed common areq response accounting number started;
    mret (Some revalidated)
  else ordinary
| None => ordinary
end.

(** One iteration of the loop; [None] continues it.
Source: transports/middleware.py:125-152, MiddlewareTransport.request. *)
Definition iteration (common : fields) (cache_request request : TransportRequest)
(request_id : option string) (lookup : option cache_lookup) (stale : option TransportResponse)
(last : bool) (i : Z) : M (option TransportResponse) :=
let number := i + 1 in
let areq := attempt_request_of request request_id number in
_ ← log A_attempt;
authorization ←
(if c_budget cfg
 then id ← call (x_authorize env areq); _ ← log (A_authorize id); mret id
 else mret None);
_ ← when (c_budget cfg && is_none authorization)
    (_ ← emit "budget.denied" (with_fields common [("level", tstr "warning"); ("attempt", tint number)]);
     throw X_BudgetExhausted);
started ← monotonic;
_ ← set_loc (fun _ => fresh_locals started);
outcome ← attempt common areq number authorization;
failure ← loc l_transport_failure;
match outcome, failure with
| Some response, None => after_response common cache_request request areq lookup stale last i response
| _, Some failure => after_failure common request areq stale last i failure
| None, None => throw (X_Exception "UnboundLocalError" None)
end.

(** [for attempt in range(self._retries + 1)], from index [i] with [remaining] iterations. *)
Fixpoint attempts (common : fields) (cache_request request : TransportRequest)
(request_id : option string) (lookup : option cache_lookup) (stale : option TransportResponse)
(remaining : nat) (i : Z) : M TransportResponse :=
match remaining with
| O => throw (X_Exception "AssertionError" None)
| S remaining =>
  outcome ← iteration common cache_request request request_id lookup stale
              (bool_decide (remaining = 0%nat)) i;
  match outcome with
  | Some response => mret response
  | None => attempts common cache_request request request_id lookup stale remaining (i + 1)
  end
end.

(** Source: transports/middleware.py:81-93, MiddlewareTransport.request. *)
Definition common_fields (r : TransportRequest) (request_id : option string) : fields :=
let f := with_fields (c_telemetry_context cfg)
[("method", tstr (str_upper (r_method r))); ("url", tstr (r_url r));
 ("purpose", tstr (purpose_value (r_purpose r))); ("priority", tstr (priority_name (r_priority r)));
 ("required", tbool (r_required r)); ("browser", tstr (browser_value (r_browser r)));
 ("estimated_bytes", tint (r_estimated_bytes r));
 ("browser_action", topt (e_action_id <$> r_evaluation r))] in
match request_id with Some id => dict_set "request_id" (tstr id) f | None => f end.

(** [request.trace_request_id or (uuid4().hex if self._telemetry is not None else None)] *)
Definition choose_request_id (r : TransportRequest) : M (option string) :=
match r_trace_request_id r with
| Some id => mret (Some id)
| None => if c_telemetry cfg
        then fun s => let (id, w) := x_uuid env (st_world s) in
                      (Ok (Some id), Build_st w (st_trace s) (st_loc s))
        else mret None
end.

(** The robots gate. Source: transports/middleware.py:95-101, MiddlewareTransport.request. *)
Definition robots_gate (common : fields) (r : TransportRequest) : M () :=
when (c_robots cfg && negb (bool_decide (r_purpose r = P_ROBOTS)))
(allowed ← call (x_allowed env (r_url r));
 _ ← log (A_robots allowed);
 when (negb allowed)
   (_ ← emit "robots.denied" (with_fields common [("level", tstr "warning")]);
    throw X_RobotsDenied)).

(** The cache read: the hit to return, or the lookup and the stale response.
Source: transports/middleware.py:102-124, MiddlewareTransport.request. *)
Definition cache_read (common : fields) (r : TransportRequest)
: M (option TransportResponse * option cache_lookup * option TransportResponse) :=
match c_cache cfg with
| Some with_stale =>
  if bool_decide (r_cache r = CACHE_DEFAULT) then
    _ ← log A_cache_get;
    found ←
      (if with_stale
       then k ← call (x_cache_get_with_stale env r); mret (k_fresh k, Some k, k_stale k)
       else cached ← call (x_cache_get env r); mret (cached, None, None));
    match found with
    | (Some cached, lookup, stale) =>
        cached ← enforce_cached_body cached common "response_body_too_large";
        _ ← emit "cache.hit" (with_fields common [("level", tstr "debug"); ("route", tstr "cache")]);
        mret (Some (with_route cached (t_route cached) true), lookup, stale)
    | (None, lookup, stale) =>
        _ ← emit "cache.miss" (with_fields common [("level", tstr "debug")]);
        stale ← match stale with
                | Some s => s ← enforce_cached_body s common "stale_response_body_too_large";
                            mret (Some s)
                | None => mret None
                end;
        mret (None, lookup, stale)
    end
  else mret (None, None, None)
| None => mret (None, None, None)
end.

(** Source: transports/middleware.py:76-125, MiddlewareTransport.request. *)
Definition request (r : TransportRequest) : M TransportResponse :=
request_id ← choose_request_id r;
let common := common_fields r request_id in
_ ← emit "request.accepted" (with_fields common [("level", tstr "debug")]);
_ ← robots_gate common r;
read ← cache_read common r;
match read with
| (Some hit, _, _) => mret hit
| (None, lookup, stale) =>
  let conditional := match stale with Some s => conditional_request r s | None => r end in
  attempts common r conditional request_id lookup stale (S (c_retries cfg)) 0
end.
End controller.

(** * The attempt protocol

    The discipline the controller promises its collaborators, as an automaton
    over the trace: an authorisation is taken at most once per attempt and only
    with nothing else held; a dispatch needs the authorisation and the permit
    that are configured, and happens at most once per attempt; a permit is
    released only while held; an authorisation is reconciled only after the
    dispatch and released only without one; cache writes, identity rotations
    and sleeps happen with nothing held. *)

Record pstate := {
  p_attempts : nat; p_held : option Z; p_permit : bool; p_dispatched : bool;
}.

Section protocol.
Context (cfg : Config).

Definition idle (p : pstate) : bool := is_none (p_held p) && negb (p_permit p).

Definition p_step (p : pstate) (a : action) : option pstate :=
match a with
| A_attempt =>
  if idle p
  then Some {| p_attempts := S (p_attempts p); p_held := None; p_permit := false; p_dispatched := false |}
  else None
| A_authorize (Some id) =>
  if idle p && negb (p_dispatched p) && (0 <? p_attempts p)%nat
  then Some {| p_attempts := p_attempts p; p_held := Some id; p_permit := false; p_dispatched := false |}
  else None
| A_wait true =>
  if negb (p_permit p) && negb (p_dispatched p)
  then Some {| p_attempts := p_attempts p; p_held := p_held p; p_permit := true; p_dispatched := false |}
  else None
| A_dispatch _ =>
  if negb (p_dispatched p) && (0 <? p_attempts p)%nat
     && (negb (c_budget cfg) || is_some (p_held p)) && (negb (c_rate_limiter cfg) || p_permit p)
  then Some {| p_attempts := p_attempts p; p_held := p_held p; p_permit := p_permit p;
               p_dispatched := true |}
  else None
| A_limiter_release =>
  if p_permit p
  then Some {| p_attempts := p_attempts p; p_held := p_held p; p_permit := false;
               p_dispatched := p_dispatched p |}
  else None
| A_reconcile id _ =>
  if bool_decide (p_held p = Some id) && p_dispatched p
  then Some {| p_attempts := p_attempts p; p_held := None; p_permit := p_permit p; p_dispatched := true |}
  else None
| A_release id =>
  if bool_decide (p_held p = Some id) && negb (p_dispatched p)
  then Some {| p_attempts := p_attempts p; p_held := None; p_permit := p_permit p; p_dispatched := false |}
  else None
| A_cache_put _ | A_rotate _ | A_sleep _ => if idle p then Some p else None
| A_authorize None | A_wait false | A_robots _ | A_cache_get | A_emit _ _ | A_observe _ => Some p
end.

Definition p_start : pstate :=
{| p_attempts := 0; p_held := None; p_permit := false; p_dispatched := false |}.

Definition p_run (tr : list action) : option pstate :=
foldl (fun o a => p ← o; p_step p a) (Some p_start) tr.

Lemma p_run_snoc tr a : p_run (tr ++ [a]) = (p ← p_run tr; p_step p a).
Proof. unfold p_run. by rewrite foldl_app. Qed.
End protocol.

Section protocol_proofs.
Context {W : Type} (cfg : Config) (env : Env W).
#[local] Abbreviation M := (eff (st W) mw_exn).

(** The trace has reached automaton state [p]. *)
Definition at_p (p : pstate) (s : st W) : Prop := p_run cfg (st_trace s) = Some p.

(** The locals agree with the automaton. *)
Definition coherent (k : nat) (auth : option Z) (acq disp : bool) (s : st W) : Prop :=
at_p {| p_attempts := k; p_held := auth; p_permit := acq; p_dispatched := disp |} s
/\ l_rate_limit_acquired (st_loc s) = acq /\ l_dispatched (st_loc s) = disp.

Lemma wp_log (Q : result mw_exn () -> st W -> Prop) a s :
Q (Ok ()) (Build_st (st_world s) (st_trace s ++ [a]) (st_loc s)) -> wp (log a) Q s.
Proof. done. Qed.

Lemma wp_call {A} (m : eff W mw_exn A) (Q : result mw_exn A -> st W -> Prop) s :
(forall r w, Q r (Build_st w (st_trace s) (st_loc s))) -> wp (call m) Q s.
Proof. unfold wp, call. intros H. destruct (m (st_world s)). apply H. Qed.

Lemma at_p_log p q a s :
at_p p s -> p_step cfg p a = Some q ->
at_p q (Build_st (st_world s) (st_trace s ++ [a]) (st_loc s)).
Proof. unfold at_p. simpl. intros H E. by rewrite p_run_snoc, H. Qed.

(** The properties of a state that observation cannot change. *)
Class Neutral (I : st W -> Prop) : Prop := {
neutral_log s a : (forall p, p_step cfg p a = Some p) -> I s ->
I (Build_st (st_world s) (st_trace s ++ [a]) (st_loc s));
neutral_world s w : I s -> I (Build_st w (st_trace s) (st_loc s));
neutral_loc s l :
l_rate_limit_acquired l = l_rate_limit_acquired (st_loc s) ->
l_dispatched l = l_dispatched (st_loc s) -> I s -> I (Build_st (st_world s) (st_trace s) l);
}.

(** Nothing is held after [k] attempts. *)
Definition idle_at (k : nat) (s : st W) : Prop :=
exists disp, at_p {| p_attempts := k; p_held := None; p_permit := false; p_dispatched := disp |} s.

#[export] Instance coherent_neutral k auth acq disp : Neutral (coherent k auth acq disp).
Proof.
unfold coherent. split.
- intros s a Ha (Hp & H1 & H2). split; [|done]. by eapply at_p_log.
- intros s w H. exact H.
- intros s l E1 E2 (Hp & H1 & H2). simpl. rewrite E1, E2. done.
Qed.
#[export] Instance idle_at_neutral k : Neutral (idle_at k).
Proof.
unfold idle_at. split.
- intros s a Ha [d Hp]. exists d. by eapply at_p_log.
- intros s w H. exact H.
- intros s l _ _ H. exact H.
Qed.

Section neutral.
Context (I : st W -> Prop) `{!Neutral I}.

Lemma keeps_call {A} (m : eff W mw_exn A) : keeps I (call m).
Proof. intros s H. apply wp_call. intros _ w. by apply neutral_world. Qed.
Lemma keeps_log_neutral a : (forall p, p_step cfg p a = Some p) -> keeps I (log a).
Proof. intros Ha s H. apply wp_log. by apply neutral_log. Qed.
Lemma keeps_monotonic : keeps I (monotonic env).
Proof. apply keeps_gets. Qed.
Lemma keeps_loc {A} (f : locals -> A) : keeps I (loc f).
Proof. apply keeps_gets. Qed.
Lemma keeps_set_loc f :
(forall l, l_rate_limit_acquired (f l) = l_rate_limit_acquired l
     /\ l_dispatched (f l) = l_dispatched l) ->
keeps I (set_loc f).
Proof.
intros Hf s H. apply wp_modify. destruct (Hf (st_loc s)). by apply neutral_loc.
Qed.
Lemma keeps_set_response_bytes n : keeps I (set_response_bytes n).
Proof. by apply keeps_set_loc. Qed.
Lemma keeps_set_accounting a : keeps I (set_accounting a).
Proof. by apply keeps_set_loc. Qed.
Lemma keeps_set_started t : keeps I (set_started t).
Proof. by apply keeps_set_loc. Qed.
Lemma keeps_set_failure a : keeps I (set_failure a).
Proof. by apply keeps_set_loc. Qed.
Lemma keeps_emit ev f : keeps I (emit cfg ev f).
Proof. apply keeps_when, keeps_log_neutral. done. Qed.
Lemma keeps_observe ph r n a resp el c : keeps I (observe_request cfg ph r n a resp el c).
Proof.
unfold observe_request. destruct (negb _); [apply keeps_ret|].
destruct (urlsplit _); [|apply keeps_throw].
apply keeps_if; [by apply keeps_log_neutral|apply keeps_throw].
Qed.
Lemma keeps_estimated r : keeps I (estimated env r).
Proof. apply keeps_lift. Qed.
End neutral.
End protocol_proofs.
#[export] Hint Resolve keeps_emit keeps_observe keeps_monotonic keeps_call keeps_loc
  keeps_estimated keeps_set_response_bytes keeps_set_accounting keeps_set_started
  keeps_set_failure : keeps.
(** Prove that a program keeps an invariant by its structure. *)
Ltac keeps_tac :=
  repeat first
    [ progress intros
    | apply keeps_ret | apply keeps_throw
    | solve [eauto 3 with keeps typeclass_instances]
    | apply keeps_bind | apply keeps_when | apply keeps_catch | apply keeps_finally
    | match goal with |- keeps _ (match ?x with _ => _ end) => destruct x end ].

Section attempt_proofs.
Context {W : Type} (cfg : Config) (env : Env W).

Section neutral.
Context (I : st W -> Prop) `{!Neutral cfg I}.

Lemma keeps_accounting_or given r n : keeps I (accounting_or env given r n).
Proof. unfold accounting_or. keeps_tac. Qed.
Lemma keeps_emit_attempt_failure c r e a n t stage b1 b2 x :
keeps I (emit_attempt_failure cfg env c r e a n t stage b1 b2 x).
Proof. unfold emit_attempt_failure. keeps_tac. Qed.
Lemma keeps_emit_completed c r resp a n t : keeps I (emit_completed cfg env c r resp a n t).
Proof. unfold emit_completed. keeps_tac. Qed.
Lemma keeps_stale_fallback c s reason status : keeps I (stale_fallback cfg c s reason status).
Proof. unfold stale_fallback. keeps_tac. Qed.
Lemma keeps_enforce_cached_body resp c reason : keeps I (enforce_cached_body cfg resp c reason).
Proof. unfold enforce_cached_body. keeps_tac. Qed.
End neutral.
End attempt_proofs.
#[export] Hint Resolve keeps_accounting_or keeps_emit_attempt_failure keeps_emit_completed
  keeps_stale_fallback keeps_enforce_cached_body : keeps.

Section discipline.
Context {W : Type} (cfg : Config) (env : Env W).

(** An invariant threaded through a step whose result is not inspected. *)
Lemma wp_keeps {A B} (I : st W -> Prop) (m : eff (st W) mw_exn A) (k : A -> eff (st W) mw_exn B)
(Q : result mw_exn B -> st W -> Prop) s :
keeps I m -> I s -> (forall e s', I s' -> Q (Err e) s') ->
(forall a s', I s' -> wp (k a) Q s') -> wp (m ≫= k) Q s.
Proof.
intros Hm Hs He Hk. apply wp_bind. eapply wp_conseq; [by apply Hm|].
intros [a|e] s' Hs'; auto.
Qed.

Definition after_body (k : nat) (auth : option Z) (s : st W) : Prop :=
exists acq disp, coherent cfg k auth acq disp s /\ (c_rate_limiter cfg = false -> acq = false).

Lemma coherent_after_body k auth acq disp s :
(c_rate_limiter cfg = false -> acq = false) ->
coherent cfg k auth acq disp s -> after_body k auth s.
Proof. intros H1 H2. exists acq, disp. auto. Qed.

Lemma wait_block_spec common k auth s r :
coherent cfg k auth false false s ->
wp (when (c_rate_limiter cfg)
    (rate_limit_started ← monotonic env;
     _ ← catch (call (x_wait env r)) (fun e => _ ← log (A_wait false); throw e);
     _ ← log (A_wait true);
     _ ← set_acquired;
     now ← monotonic env;
     emit cfg "rate_limit.wait" (with_fields common
       [("level", tstr "debug"); ("elapsed_ms", TMillis (now - rate_limit_started))])))
 (fun res s' => match res with
                | Ok _ => coherent cfg k auth (c_rate_limiter cfg) false s'
                | Err _ => after_body k auth s'
                end) s.
Proof.
intros Hs. apply wp_when; intros Hrl; rewrite ?Hrl; [|exact Hs].
assert (Hab : forall acq s, coherent cfg k auth acq false s -> after_body k auth s).
{ intros acq s0 H0. apply (coherent_after_body k auth acq false); [congruence|done]. }
unfold monotonic, set_acquired, set_loc. wp_steps. apply wp_call. intros [u|e] w; wp_steps.
- apply wp_log. wp_steps. eapply wp_conseq.
{ apply (keeps_emit cfg (coherent cfg k auth true false)).
  destruct Hs as (Hp & H1 & H2). split; [|done]. by eapply at_p_log. }
intros [?|?] s' Hs'; [done|by eapply Hab].
- apply wp_log. wp_steps. apply (Hab false).
apply (neutral_log cfg); [done|].
by apply (neutral_world cfg).
Qed.

Lemma attempt_body_spec common r n k auth s :
(0 < k)%nat -> (c_budget cfg = true -> is_some auth = true) ->
coherent cfg k auth false false s ->
wp (attempt_body cfg env common r n) (fun _ s' => after_body k auth s') s.
Proof.
intros Hk Hauth Hs. unfold attempt_body. apply wp_bind.
eapply wp_conseq; [by apply wait_block_spec|]. intros [[]|e] s1 H1; [|done].
set (lim := c_rate_limiter cfg) in *.
assert (Hab : forall d s, coherent cfg k auth lim d s -> after_body k auth s).
{ intros d s0 H0. by apply (coherent_after_body k auth lim d). }
apply (wp_keeps (coherent cfg k auth lim false)); [keeps_tac|done|by eauto|]. intros t s2 H2.
apply (wp_keeps (coherent cfg k auth lim false)); [keeps_tac|done|by eauto|]. intros _ s3 H3.
apply (wp_keeps (coherent cfg k auth lim false)); [keeps_tac|done|by eauto|]. intros _ s4 H4.
apply (wp_keeps (coherent cfg k auth lim false)); [keeps_tac|done|by eauto|]. intros _ s5 H5.
unfold set_dispatched, set_loc. wp_steps. apply wp_log. cbn beta iota.
eapply wp_conseq with (P := fun _ s' => coherent cfg k auth lim true s'); [|by eauto].
match goal with |- wp ?m _ _ => assert (Hrest : keeps (coherent cfg k auth lim true) m) end.
{ keeps_tac. }
apply Hrest. destruct H5 as (Hp & E1 & E2). split; [|done].
eapply at_p_log; [exact Hp|]. simpl. rewrite (proj2 (Nat.ltb_lt 0 k)) by done.
destruct (c_budget cfg); [rewrite Hauth by done|]; unfold lim; by destruct (c_rate_limiter cfg).
Qed.

Lemma attempt_handler_spec common r n e k auth :
keeps (after_body k auth) (attempt_handler cfg env common r n e).
Proof.
intros s (acq & disp & Hs & Hlim).
eapply wp_conseq with (P := fun _ s' => coherent cfg k auth acq disp s').
- assert (keeps (coherent cfg k auth acq disp) (attempt_handler cfg env common r n e)) as H;
  [|by apply H].
unfold attempt_handler. keeps_tac.
- intros res s' H. by exists acq, disp.
Qed.

(** A limiter whose [release] never ends in a [BaseException]. *)
Definition ordinary_release : Prop :=
forall r w, match (x_limiter_release env r w).1 with
          | Ok _ => True | Err e => is_exception e = true
          end.

Definition settled (k : nat) (s : st W) : Prop := idle_at cfg k s.

Lemma release_permit_spec r k auth acq disp s :
ordinary_release -> (c_rate_limiter cfg = false -> acq = false) ->
coherent cfg k auth acq disp s ->
wp (if c_rate_limiter cfg && acq
  then catch_exception
         (_ ← log A_limiter_release; _ ← call (x_limiter_release env r); mret None)
         (fun e => mret (Some (e, "rate_limit_release")))
  else mret None)
 (fun res s' => exists o, res = Ok o /\ l_dispatched (st_loc s') = disp
    /\ at_p cfg {| p_attempts := k; p_held := auth; p_permit := false; p_dispatched := disp |} s') s.
Proof.
intros Hord Hlim (Hp & E1 & E2). destruct (c_rate_limiter cfg) eqn:Hrl; cbn [andb].
2:{ rewrite (Hlim eq_refl) in Hp. apply wp_ret. eauto. }
destruct acq; [|apply wp_ret; by eauto].
unfold catch_exception. wp_steps. apply wp_log. wp_steps. unfold wp, call. simpl.
specialize (Hord r (st_world s)). destruct (x_limiter_release env r (st_world s)) as [[[]|e] w].
- eexists. split; [done|]. split; [done|]. by eapply at_p_log.
- simpl in *. rewrite Hord. eexists. split; [done|]. split; [done|]. by eapply at_p_log.
Qed.

Lemma attempt_cleanup_spec common r n k auth s :
ordinary_release -> after_body k auth s ->
wp (attempt_cleanup cfg env common r n auth) (fun _ s' => settled k s') s.
Proof.
intros Hord (acq & disp & Hs & Hlim). unfold attempt_cleanup.
apply wp_bind, wp_gets. cbn beta iota.
pose proof Hs as (_ & -> & _).
apply wp_bind. eapply wp_conseq; [by apply (release_permit_spec r k auth acq disp)|].
intros res s1 (o & -> & Hd & Hp). cbn beta iota.
apply wp_bind, wp_gets. cbn beta iota. apply wp_bind, wp_gets. cbn beta iota. rewrite Hd.
apply (wp_bind _ _ (fun _ s' => settled k s')).
eapply wp_conseq with (P := fun _ s' => settled k s').
- destruct auth as [id|]; [|apply wp_ret; by exists disp].
unfold catch_exception. wp_step. destruct disp; wp_steps; apply wp_log; wp_steps;
  apply wp_call; intros [[]|e] w; wp_steps;
  try (destruct (is_exception e); wp_steps);
  (eexists; eapply at_p_log; [exact Hp|]; simpl; by rewrite bool_decide_eq_true_2).
- intros [[[e stage]|]|e] s2 H2; [|by apply wp_ret|done].
eapply (keeps_bind (settled k)); [unfold settled; keeps_tac| |done]. intros a.
unfold settled. keeps_tac.
Qed.

Lemma attempt_spec common r n k auth s :
ordinary_release -> (0 < k)%nat -> (c_budget cfg = true -> is_some auth = true) ->
coherent cfg k auth false false s ->
wp (attempt cfg env common r n auth) (fun _ s' => settled k s') s.
Proof.
intros Hord Hk Hauth Hs. unfold attempt. apply wp_finally.
eapply wp_conseq with (P := fun _ s' => after_body k auth s').
- apply wp_catch, wp_bind. eapply wp_conseq; [by apply attempt_body_spec|].
intros [resp|e] s' H; [apply wp_ret; done|]. by apply attempt_handler_spec.
- intros res s' H. eapply wp_conseq; [by apply attempt_cleanup_spec|].
by intros [[]|e] s''.
Qed.
End discipline.

(** * The whole request *)

Definition is_dispatch (a : action) : bool := match a with A_dispatch _ => true | _ => false end.
Definition is_grant (a : action) : bool := match a with A_authorize (Some _) => true | _ => false end.
Definition is_settlement (a : action) : bool :=
  match a with A_reconcile _ _ | A_release _ => true | _ => false end.
Definition count (f : action -> bool) (tr : list action) : nat :=
  length (filter (fun a => f a = true) tr).

Lemma count_snoc f tr a : count f (tr ++ [a]) = (count f tr + if f a then 1 else 0)%nat.
Proof.
  unfold count. rewrite filter_app, length_app. f_equal. rewrite filter_cons, filter_nil.
  destruct (f a); by case_decide.
Qed.

(** What acceptance by the protocol means in numbers. *)
Lemma p_run_counts cfg tr p :
  p_run cfg tr = Some p ->
  (count is_dispatch tr <= p_attempts p)%nat
  /\ (p_attempts p <> 0%nat -> p_dispatched p = false -> count is_dispatch tr < p_attempts p)%nat
  /\ count is_grant tr = (count is_settlement tr + if is_some (p_held p) then 1 else 0)%nat.
Proof.
  revert p. induction tr as [|a tr IH] using rev_ind; intros p Hrun.
  { injection Hrun as <-. done. }
  rewrite p_run_snoc in Hrun. destruct (p_run cfg tr) as [q|] eqn:Hq; [|discriminate].
  destruct (IH q eq_refl) as (H1 & H2 & H3). clear IH Hq. simpl in Hrun.
  rewrite !count_snoc. destruct q as [k held permit disp].
  unfold p_step, idle, is_none in Hrun. simpl in *.
  destruct a as [| | |[?|]|[]| | | | | | | | |]; simpl in *;
    repeat (case_match; simplify_eq/=); bool_facts; simplify_eq/=;
    repeat match goal with
      | b : bool |- _ => destruct b; simpl in *; try discriminate
      | o : option Z |- _ => destruct o; simpl in *; try discriminate
      end;
    split_and!; intros; try discriminate; try lia.
Qed.

Section request_discipline.
Context {W : Type} (cfg : Config) (env : Env W).

Lemma keeps_log_idle k a :
match a with A_cache_put _ | A_rotate _ | A_sleep _ => true | _ => false end = true ->
keeps (idle_at cfg k) (@log W a).
Proof.
intros Ha s [d Hp]. apply wp_log. exists d. eapply at_p_log; [exact Hp|]. by destruct a.
Qed.

Lemma keeps_rotate k reason r : keeps (idle_at cfg k) (rotate env reason r).
Proof. unfold rotate. apply keeps_bind; [by apply keeps_log_idle|keeps_tac]. Qed.

Lemma keeps_cache_put k r resp l c a n t : keeps (idle_at cfg k) (cache_put cfg env r resp l c a n t).
Proof.
unfold cache_put. apply keeps_catch; [|keeps_tac].
apply keeps_bind; [by apply keeps_log_idle|keeps_tac].
Qed.

#[local] Hint Resolve keeps_rotate keeps_cache_put : keeps.
#[local] Hint Extern 1 (keeps _ (log (A_sleep _))) => by apply keeps_log_idle : keeps.

Lemma keeps_after_failure k c r areq stale last i f :
keeps (idle_at cfg k) (after_failure cfg env c r areq stale last i f).
Proof. unfold after_failure. keeps_tac. Qed.

Lemma keeps_after_response k c cr r areq l stale last i resp :
keeps (idle_at cfg k) (after_response cfg env c cr r areq l stale last i resp).
Proof. unfold after_response. keeps_tac. Qed.

Lemma iteration_spec k c cr r rid l stale last i s :
ordinary_release env -> idle_at cfg k s ->
wp (iteration cfg env c cr r rid l stale last i)
 (fun _ s' => exists k', (k' <= S k)%nat /\ idle_at cfg k' s') s.
Proof.
intros Hord [d Hp]. unfold iteration. set (areq := attempt_request_of r rid (i + 1)).
apply wp_bind, wp_log. cbn beta iota.
set (s1 := Build_st (st_world s) (st_trace s ++ [A_attempt]) (st_loc s)).
assert (Hp1 : at_p cfg {| p_attempts := S k; p_held := None; p_permit := false;
                        p_dispatched := false |} s1).
{ by eapply at_p_log. }
eapply wp_conseq with (P := fun _ s' => idle_at cfg (S k) s'); [|eauto].
apply (wp_bind _ _ (fun _ s' => idle_at cfg (S k) s')).
eapply wp_conseq with (P := fun res s' => match res with
| Ok auth => at_p cfg {| p_attempts := S k; p_held := auth; p_permit := false;
                         p_dispatched := false |} s'
             /\ (c_budget cfg = false -> auth = None)
| Err _ => idle_at cfg (S k) s' end).
- destruct (c_budget cfg); [|by apply wp_ret].
wp_steps. apply wp_call. intros [id|e] w; [|by exists false].
wp_steps. apply wp_log. wp_steps. split; [|done]. eapply at_p_log; [exact Hp1|].
by destruct id.
- intros [auth|e] s2; [|done]. intros [Hp2 Hnone].
apply wp_bind, wp_when; intros Hb.
+ bool_facts. destruct auth; [done|].
  eapply (wp_keeps (idle_at cfg (S k))); [keeps_tac|by exists false|done|].
  intros _ s3 H3. by wp_steps.
+ unfold monotonic, set_loc. wp_steps.
  eapply wp_conseq.
  { apply (attempt_spec cfg env c areq (i + 1) (S k) auth); [done|lia| |done].
    intros Hbud. rewrite Hbud in Hb. simpl in Hb. by destruct auth. }
  unfold settled. intros [outcome|e] s3 H3; [|done].
  unfold loc. apply wp_bind, wp_gets. cbn beta iota.
  destruct outcome, (l_transport_failure (st_loc s3));
    [ by apply keeps_after_failure | by apply keeps_after_response
    | by apply keeps_after_failure | by apply wp_throw ].
Qed.

Lemma attempts_spec c cr r rid l stale remaining : forall i k s,
ordinary_release env -> idle_at cfg k s ->
wp (attempts cfg env c cr r rid l stale remaining i)
 (fun _ s' => exists k', (k' <= k + remaining)%nat /\ idle_at cfg k' s') s.
Proof.
induction remaining as [|n IH]; intros i k s Hord Hs; cbn [attempts].
- apply wp_throw. exists k. split; [lia|done].
- apply wp_bind. eapply wp_conseq; [by apply iteration_spec|].
intros [[resp|]|e] s' (k' & Hk' & Hs'); [apply wp_ret| |]; try (exists k'; split; [lia|done]).
eapply wp_conseq; [by apply IH|]. intros res s'' (k'' & Hk'' & ?). exists k''. split; [lia|done].
Qed.

Lemma keeps_choose_request_id I r : Neutral cfg I -> keeps I (choose_request_id cfg env r).
Proof.
intros HI. unfold choose_request_id. destruct (r_trace_request_id r); [apply keeps_ret|].
destruct (c_telemetry cfg); [|apply keeps_ret]. intros s Hs. unfold wp.
destruct (x_uuid env (st_world s)). simpl. by apply (neutral_world cfg).
Qed.

Lemma request_spec r s : ordinary_release env -> idle_at cfg 0 s ->
wp (request cfg env r)
 (fun _ s' => exists k', (k' <= S (c_retries cfg))%nat /\ idle_at cfg k' s') s.
Proof.
intros Hord Hs. unfold request.
assert (Herr : forall s' : st W, idle_at cfg 0 s' ->
exists k', (k' <= S (c_retries cfg))%nat /\ idle_at cfg k' s').
{ intros s' ?. exists 0%nat. split; [lia|done]. }
eapply (wp_keeps (idle_at cfg 0)); [apply keeps_choose_request_id, _|done|by auto|]. intros rid s1 H1.
eapply (wp_keeps (idle_at cfg 0)); [keeps_tac|done|by auto|]. intros _ s2 H2.
eapply (wp_keeps (idle_at cfg 0)); [|done|by auto|].
{ unfold robots_gate. apply keeps_when, keeps_bind; [keeps_tac|]. intros ok.
apply keeps_bind; [by apply (keeps_log_neutral cfg (idle_at cfg 0))|keeps_tac]. }
intros _ s3 H3.
eapply (wp_keeps (idle_at cfg 0)); [|done|by auto|].
{ unfold cache_read. destruct (c_cache cfg); [|apply keeps_ret].
apply keeps_if; [|apply keeps_ret].
apply keeps_bind; [by apply (keeps_log_neutral cfg (idle_at cfg 0))|keeps_tac]. }
intros [[[hit|] l] stale] s4 H4; [apply wp_ret; by auto|].
by apply (attempts_spec _ _ _ _ _ _ (S (c_retries cfg)) 0 0).
Qed.
End request_discipline.

Section body_limit.
Context {W : Type} (cfg : Config) (env : Env W).

Definition fits (t : TransportResponse) : Prop := content_length t <= c_maximum_response_bytes cfg.
Definition fits_opt (o : option TransportResponse) : Prop :=
match o with Some t => fits t | None => True end.

Lemma enforce_fits t t' :
enforce_response_body_limit t (c_maximum_response_bytes cfg) = Ok t' -> t' = t /\ fits t.
Proof. unfold enforce_response_body_limit, fits. case_match; intros; bool_facts; by simplify_eq. Qed.

Lemma returns_enforce_cached t c reason :
returns fits (enforce_cached_body (W:=W) cfg t c reason).
Proof.
unfold enforce_cached_body. destruct (enforce_response_body_limit t _) as [t'|tl] eqn:E.
- apply enforce_fits in E as [-> ?]. by apply returns_ret.
- apply returns_then. intros _. apply returns_throw.
Qed.

Lemma returns_attempt c r n auth : returns fits_opt (attempt cfg env c r n auth).
Proof.
unfold attempt. apply returns_finally, returns_catch.
- apply (returns_bind fits); [|intros a Ha; by apply returns_ret].
unfold attempt_body. repeat (apply returns_then; intros ?).
destruct (enforce_response_body_limit _ _) as [t'|tl] eqn:E; [|apply returns_throw].
apply enforce_fits in E as [-> ?]. by apply returns_ret.
- intros e. unfold attempt_handler. repeat (apply returns_then; intros ?).
destruct e; try destruct (negb _); repeat (apply returns_then; intros ?);
  try apply returns_throw. by apply returns_ret.
Qed.

Lemma returns_stale_fallback c s reason status :
fits s -> returns fits (stale_fallback (W:=W) cfg c s reason status).
Proof. intros Hs. unfold stale_fallback. apply returns_then. intros _. by apply returns_ret. Qed.

Lemma returns_iteration c cr r rid l stale last i :
fits_opt stale -> returns fits_opt (iteration cfg env c cr r rid l stale last i).
Proof.
intros Hstale. unfold iteration. do 5 (apply returns_then; intros ?).
apply (returns_bind fits_opt); [apply returns_attempt|]. intros outcome Ho.
apply returns_then. intros failure.
assert (Hsf : forall areq f, returns fits_opt
(after_failure cfg env c r areq stale last i f)).
{ intros areq f. unfold after_failure. destruct last.
- destruct stale as [s|]; [|apply returns_throw]. destruct (can_use_stale _ _ _ _);
    [|apply returns_throw]. apply (returns_bind fits); [by apply returns_stale_fallback|].
  intros t Ht. by apply returns_ret.
- repeat (apply returns_then; intros ?). by apply returns_ret. }
destruct outcome as [resp|], failure as [f|]; try apply Hsf; [|apply returns_throw].
unfold after_response. do 2 (apply returns_then; intros ?).
match goal with |- returns _ (match _ with Some _ => if _ then _ else ?o | None => _ end) =>
assert (Hord : returns fits_opt o) end.
{ destruct (negb _ || _); [|repeat (apply returns_then; intros ?); by apply returns_ret].
do 2 (apply returns_then; intros ?). destruct stale as [s|]; [|by apply returns_ret].
destruct (can_use_stale _ _ _ _); [|by apply returns_ret].
apply (returns_bind fits); [by apply returns_stale_fallback|].
intros t' Ht'. by apply returns_ret. }
destruct stale as [s|]; [|done]. destruct (_ =? 304); [|done].
repeat (apply returns_then; intros ?). by apply returns_ret.
Qed.

Lemma returns_attempts c cr r rid l stale remaining : forall i,
fits_opt stale -> returns fits (attempts cfg env c cr r rid l stale remaining i).
Proof.
induction remaining as [|n IH]; intros i Hs; cbn [attempts]; [apply returns_throw|].
apply (returns_bind fits_opt); [by apply returns_iteration|].
intros [t|] Ht; [by apply returns_ret|by apply IH].
Qed.

Lemma returns_request r : returns fits (request cfg env r).
Proof.
unfold request. do 3 (apply returns_then; intros ?).
apply (returns_bind (fun x => match x.1.1 with Some t => fits t | None => fits_opt x.2 end)).
- unfold cache_read. destruct (c_cache cfg); [|by apply returns_ret].
destruct (bool_decide _); [|by apply returns_ret].
apply returns_then; intros _. apply returns_then. intros [[[cached|] lookup] stale].
+ apply (returns_bind fits); [apply returns_enforce_cached|]. intros t Ht.
  apply returns_then. intros _. by apply returns_ret.
+ apply returns_then. intros _. apply (returns_bind fits_opt).
  * destruct stale; [|by apply returns_ret].
    apply (returns_bind fits); [apply returns_enforce_cached|]. intros t' Ht. by apply returns_ret.
  * intros stale' H. by apply returns_ret.
- intros [[[hit|] l] stale] H; [by apply returns_ret|by apply returns_attempts].
Qed.
End body_limit.

(** * Properties *)

Definition initial {W} (w : W) : st W := Build_st w [] (fresh_locals 0).

(** C20. Attempt discipline. For every configuration, every behaviour of the
    collaborators (the limiter's [release] not ending in a [BaseException]) and
    every outcome, errors and cancellation included: the calls the controller
    makes follow the attempt protocol, nothing is held when it returns, there
    are at most [retries + 1] dispatches, and every authorisation granted is
    reconciled or released exactly once. *)
Theorem middleware_attempt_discipline {W} cfg (env : Env W) r w res s :
  ordinary_release env -> request cfg env r (initial w) = (res, s) ->
  (exists p, p_run cfg (st_trace s) = Some p /\ p_held p = None /\ p_permit p = false)
  /\ (count is_dispatch (st_trace s) <= S (c_retries cfg))%nat
  /\ count is_grant (st_trace s) = count is_settlement (st_trace s).
Proof.
  intros Hord Hrun.
  assert (Hinit : idle_at cfg 0 (initial w)) by by exists false.
  destruct (wp_run _ _ _ _ _ (request_spec cfg env r _ Hord Hinit) Hrun) as (k & Hk & d & Hp).
  destruct (p_run_counts _ _ _ Hp) as (H1 & _ & H3). simpl in *.
  split_and!; [eauto|lia|lia].
Qed.

(** Retention limit: no response larger than [maximum_response_bytes] is
    ever returned, whether it comes from the backend, the fresh cache, a
    revalidation or the stale fallback. *)
Theorem middleware_response_fits {W} cfg (env : Env W) r w t s :
  request cfg env r (initial w) = (Ok t, s) -> content_length t <= c_maximum_response_bytes cfg.
Proof. intros H. pose proof (returns_request cfg env r (initial w)) as Hr. by rewrite H in Hr. Qed.

(** ** A concrete environment for the witnesses: a counter world, a backend that
    answers from a list of outcomes, and collaborators that always succeed. *)
Section scripted.
Definition script_world : Type := list (result mw_exn TransportResponse) * Z.

Definition ok_call {A} (a : A) : eff script_world mw_exn A := fun w => (Ok a, w).

Definition scripted_backend (r : TransportRequest) : eff script_world mw_exn TransportResponse :=
fun w => match w.1 with
       | [] => (Err (X_TransportFailure (Some (one_request 10 0))), w)
       | o :: rest => (o, (rest, w.2))
       end.

Definition scripted_with (backend : TransportRequest -> eff script_world mw_exn TransportResponse)
(robots : bool) (lookup : cache_lookup) : Env script_world := {|
x_float_repr := fun _ => EmptyString;
x_uuid := fun w => ("request-1", w);
x_clock := fun w => w.2;
x_allowed := fun _ => ok_call robots;
x_cache_get := fun _ => ok_call (k_fresh lookup);
x_cache_get_with_stale := fun _ => ok_call lookup;
x_cache_put := fun _ _ => ok_call ();
x_lookup_put := fun _ _ => ok_call ();
x_authorize := fun _ w => (Ok (Some w.2), (w.1, w.2 + 1));
x_reconcile := fun _ _ => ok_call ();
x_auth_release := fun _ => ok_call ();
x_wait := fun _ => ok_call ();
x_limiter_release := fun _ => ok_call ();
x_backend := backend;
x_rotate := fun _ _ => ok_call ();
x_sleep := fun _ => ok_call ();
|}.

Definition scripted := scripted_with scripted_backend.
Definition failing :=
scripted_with (fun _ w => (Err (X_TransportFailure (Some (one_request 10 0))), w)).

Definition plain_config (retries : nat) (limit : Z) : Config := {|
c_budget := true; c_cache := Some true; c_stale_on_error := true; c_robots := true;
c_rate_limiter := true; c_retries := retries; c_backoff := fun n => 100 * 2 ^ n;
c_telemetry := true; c_telemetry_context := []; c_maximum_response_bytes := limit;
|}.

Definition response_of (status : Z) (content : string) : TransportResponse := {|
t_status := status; t_headers := []; t_content := content; t_final_url := "https://shop.example/p";
t_route := route_of ROUTE_DIRECT; t_from_cache := false; t_elapsed := 0; t_accounting := None;
|}.

Definition no_lookup : cache_lookup := {| k_fresh := None; k_stale := None; k_handle := 0 |}.
Definition one_get : TransportRequest := plain_get "https://shop.example/p".
End scripted.

Lemma middleware_attempt_discipline_witness :
  exists s, request (plain_config 2 100) (scripted true no_lookup) one_get
              (initial ([Ok (response_of 503 "busy"); Ok (response_of 200 "ok")], 7))
            = (Ok (response_of 200 "ok"), s)
    /\ count is_dispatch (st_trace s) = 2%nat
    /\ count is_grant (st_trace s) = count is_settlement (st_trace s).
Proof.
  eexists. split; [vm_compute; reflexivity|]. split; [vm_compute; reflexivity|].
  refine (proj2 (proj2 (middleware_attempt_discipline (plain_config 2 100) (scripted true no_lookup)
    one_get ([Ok (response_of 503 "busy"); Ok (response_of 200 "ok")], 7) _ _ _ _))).
  - intros r w. exact I.
  - vm_compute. reflexivity.
Defined.

Lemma middleware_response_fits_witness :
  exists s, request (plain_config 2 2) (scripted true no_lookup) one_get
              (initial ([Ok (response_of 200 "ok")], 7)) = (Ok (response_of 200 "ok"), s)
    /\ content_length (response_of 200 "ok") <= 2.
Proof.
  eexists. split; [vm_compute; reflexivity|].
  refine (middleware_response_fits (plain_config 2 2) (scripted true no_lookup) one_get
    ([Ok (response_of 200 "ok")], 7) _ _ _). vm_compute. reflexivity.
Defined.

(** ** Fixed collaborators *)

Definition always {W A} (m : eff W mw_exn A) (r : result mw_exn A) : Prop := forall w, (m w).1 = r.

Section fixed.
Context {W : Type} (cfg : Config) (env : Env W).

Lemma wp_call_always {A} (m : eff W mw_exn A) res (Q : result mw_exn A -> st W -> Prop) s :
always m res -> (forall w, Q res (Build_st w (st_trace s) (st_loc s))) -> wp (call m) Q s.
Proof.
unfold wp, call. intros Hm H. specialize (Hm (st_world s)).
destruct (m (st_world s)) as [r w]. simpl in *. by rewrite Hm.
Qed.

Lemma wp_silent ev f (Q : result mw_exn () -> st W -> Prop) s :
c_telemetry cfg = false -> Q (Ok ()) s -> wp (emit cfg ev f) Q s.
Proof. intros H HQ. unfold emit. by rewrite H. Qed.

Lemma wp_unobserved ph r n a resp el c (Q : result mw_exn () -> st W -> Prop) s :
c_telemetry cfg = false -> Q (Ok ()) s -> wp (observe_request cfg ph r n a resp el c) Q s.
Proof. intros H HQ. unfold observe_request. by rewrite H. Qed.

Context (a : TransportAccounting).
Context (Hbudget : c_budget cfg = false) (Hlimiter : c_rate_limiter cfg = false)
(Htel : c_telemetry cfg = false)
(Hbackend : forall r, always (x_backend env r) (Err (X_TransportFailure (Some a))))
(Hrotate : forall reason r, always (x_rotate env reason r) (Ok ()))
(Hsleep : forall n, always (x_sleep env n) (Ok ())).

(** The state after one failed attempt. *)
Definition failed_attempt (s s' : st W) : Prop :=
count is_dispatch (st_trace s') = S (count is_dispatch (st_trace s))
/\ l_transport_failure (st_loc s') = Some (Some a).

Lemma failing_attempt c r n s :
wp (attempt cfg env c r n None) (fun res s' => res = Ok None /\ failed_attempt s s') s.
Proof.
unfold attempt, attempt_body. rewrite Hlimiter. wp_steps.
unfold monotonic, set_started, set_dispatched, set_loc, when. wp_steps.
apply wp_silent; [done|]. wp_steps. apply wp_unobserved; [done|]. wp_steps.
apply wp_log. wp_steps. apply wp_call_always with (1 := Hbackend r). intros w. cbn beta iota.
unfold attempt_handler, loc. wp_steps. cbn [negb st_loc l_dispatched].
unfold set_failure, accounting_or, set_accounting, set_loc, emit_attempt_failure, monotonic.
wp_steps. apply wp_silent; [done|]. wp_steps. apply wp_unobserved; [done|]. wp_steps.
unfold attempt_cleanup, loc. rewrite Hlimiter. cbn [andb]. wp_steps. split; [done|].
split; [|done]. simpl. rewrite count_snoc. simpl. lia.
Qed.

Lemma failing_iteration c cr r rid l stale last i s :
wp (iteration cfg env c cr r rid l stale last i)
 (fun res s' =>
    count is_dispatch (st_trace s') = S (count is_dispatch (st_trace s))
    /\ res = if last
             then match stale with
                  | Some t => if can_use_stale cfg r stale None
                              then Ok (Some (with_route t (route_of ROUTE_CACHE) true))
                              else Err (X_TransportFailure (Some a))
                  | None => Err (X_TransportFailure (Some a))
                  end
             else Ok None) s.
Proof.
unfold iteration. rewrite Hbudget. cbn [andb when]. wp_steps. apply wp_log. wp_steps.
unfold monotonic, set_loc. wp_steps. eapply wp_conseq; [apply failing_attempt|].
intros res s1 [-> [Hc Hf]]. cbn beta iota. unfold loc. apply wp_bind, wp_gets. cbn beta iota.
rewrite Hf. unfold after_failure.
assert (Hd : count is_dispatch (st_trace s1) = S (count is_dispatch (st_trace s))).
{ rewrite Hc. simpl. rewrite count_snoc. simpl. lia. }
clear Hc Hf.
destruct last.
- destruct stale as [t|]; [|apply wp_throw; split; [lia|done]].
destruct (can_use_stale _ _ _ _); [|apply wp_throw; split; [lia|done]].
unfold stale_fallback. wp_steps. apply wp_silent; [done|]. wp_steps. split; [lia|done].
- wp_steps. apply wp_silent; [done|]. wp_steps. apply wp_unobserved; [done|]. wp_steps.
unfold when. destruct (negb _).
+ unfold rotate. wp_steps. apply wp_log. wp_steps.
  apply wp_call_always with (1 := Hrotate _ _). intros w. wp_steps. apply wp_log. wp_steps.
  apply wp_call_always with (1 := Hsleep _). intros w'. wp_steps. split; [|done].
  simpl. rewrite !count_snoc, Hd. simpl. lia.
+ wp_steps. apply wp_log. wp_steps.
  apply wp_call_always with (1 := Hsleep _). intros w'. wp_steps. split; [|done].
  simpl. rewrite !count_snoc, Hd. simpl. lia.
Qed.

Lemma failing_attempts c cr r rid l stale remaining : forall i s,
wp (attempts cfg env c cr r rid l stale (S remaining) i)
 (fun res s' =>
    count is_dispatch (st_trace s') = (count is_dispatch (st_trace s) + S remaining)%nat
    /\ res = match stale with
             | Some t => if can_use_stale cfg r stale None
                         then Ok (with_route t (route_of ROUTE_CACHE) true)
                         else Err (X_TransportFailure (Some a))
             | None => Err (X_TransportFailure (Some a))
             end) s.
Proof.
induction remaining as [|n IH]; intros i s; cbn [attempts];
apply wp_bind; (eapply wp_conseq; [apply failing_iteration|]); intros res s1 [Hc ->].
- rewrite bool_decide_eq_true_2 by done.
destruct stale as [t|]; [destruct (can_use_stale _ _ _ _)|]; cbn beta iota;
  try apply wp_ret; (split; [lia|done]).
- rewrite bool_decide_eq_false_2 by done. cbn beta iota.
eapply wp_conseq; [apply IH|]. intros res s2 [Hc2 ->]. split; [lia|done].
Qed.
End fixed.

(** Persistent failure. When every attempt fails in the transport, the
    controller makes exactly [retries + 1] dispatches and then returns the stale
    cached response if, and only if, the stale policy allows it for this
    request, and raises the last [TransportFailure] otherwise. *)
Theorem middleware_persistent_failure {W} cfg (env : Env W) r w a stale h res s :
  c_budget cfg = false -> c_rate_limiter cfg = false -> c_robots cfg = false ->
  c_telemetry cfg = false -> c_cache cfg = Some true -> r_cache r = CACHE_DEFAULT ->
  always (x_cache_get_with_stale env r) (Ok {| k_fresh := None; k_stale := Some stale; k_handle := h |}) ->
  content_length stale <= c_maximum_response_bytes cfg ->
  (forall r, always (x_backend env r) (Err (X_TransportFailure (Some a)))) ->
  (forall reason r, always (x_rotate env reason r) (Ok ())) ->
  (forall n, always (x_sleep env n) (Ok ())) ->
  request cfg env r (initial w) = (res, s) ->
  count is_dispatch (st_trace s) = S (c_retries cfg)
  /\ res = (if can_use_stale cfg (conditional_request r stale) (Some stale) None
            then Ok (with_route stale (route_of ROUTE_CACHE) true)
            else Err (X_TransportFailure (Some a))).
Proof.
  intros Hb Hl Hr Ht Hc Hpol Hlook Hfit Hback Hrot Hsleep Hrun.
  refine (wp_run (request cfg env r)
            (fun res s => count is_dispatch (st_trace s) = S (c_retries cfg) /\ res = _)
            (initial w) res s _ Hrun).
  unfold request, choose_request_id, robots_gate, cache_read. rewrite Ht, Hr, Hc. cbn [andb when].
  apply wp_bind. destruct (r_trace_request_id r); apply wp_ret;
    wp_steps; (apply wp_silent; [done|]); wp_steps; rewrite bool_decide_eq_true_2 by done;
    wp_steps; apply wp_log; wp_steps; apply wp_call_always with (1 := Hlook); intros w';
    wp_steps; cbn [k_fresh k_stale]; wp_steps; (apply wp_silent; [done|]); wp_steps;
    unfold enforce_cached_body, enforce_response_body_limit;
    rewrite (proj2 (Z.ltb_ge _ _)) by done; wp_steps;
    (eapply wp_conseq; [by eapply (failing_attempts cfg env a)|]); by intros res' s' [? ->].
Qed.

Lemma middleware_persistent_failure_witness :
  exists s, request {| c_budget := false; c_cache := Some true; c_stale_on_error := true; c_robots := false;
                       c_rate_limiter := false; c_retries := 2; c_backoff := fun n => 100;
                       c_telemetry := false; c_telemetry_context := []; c_maximum_response_bytes := 100 |}
              (failing true {| k_fresh := None; k_stale := Some (response_of 200 "old"); k_handle := 0 |})
              one_get (initial ([], 0))
            = (Ok (with_route (response_of 200 "old") (route_of ROUTE_CACHE) true), s)
    /\ count is_dispatch (st_trace s) = 3%nat.
Proof.
  eexists. split; [vm_compute; reflexivity|].
  refine (proj1 (middleware_persistent_failure
    {| c_budget := false; c_cache := Some true; c_stale_on_error := true; c_robots := false;
       c_rate_limiter := false; c_retries := 2; c_backoff := fun n => 100;
       c_telemetry := false; c_telemetry_context := []; c_maximum_response_bytes := 100 |}
    (failing true {| k_fresh := None; k_stale := Some (response_of 200 "old"); k_handle := 0 |})
    one_get ([], 0) (one_request 10 0) (response_of 200 "old") 0
    (Ok (with_route (response_of 200 "old") (route_of ROUTE_CACHE) true)) _
    _ _ _ _ _ _ _ _ _ _ _ _)); try reflexivity; try (intros; intros ?; reflexivity).
  vm_compute. discriminate.
Defined.

(** What the controller may do before the robots gate. *)
Definition observes_only (a : action) : bool :=
  match a with A_robots _ | A_emit _ _ => true | _ => false end.

(** Robots. A request the robots policy denies raises [RobotsDenied] before
    any cache read, authorisation, permit or dispatch; robots.txt requests
    themselves are exempt. *)
Theorem middleware_robots_denied {W} cfg (env : Env W) r w res s :
  c_robots cfg = true -> r_purpose r <> P_ROBOTS -> always (x_allowed env (r_url r)) (Ok false) ->
  request cfg env r (initial w) = (res, s) ->
  res = Err X_RobotsDenied /\ forallb observes_only (st_trace s) = true.
Proof.
  intros Hr Hp Ha Hrun.
  refine (wp_run (request cfg env r)
    (fun res s => res = Err X_RobotsDenied /\ forallb observes_only (st_trace s) = true)
    (initial w) res s _ Hrun).
  unfold request, choose_request_id, robots_gate, emit. rewrite Hr, (bool_decide_eq_false_2 _ Hp). cbn [andb negb].
  apply wp_bind.
  refine (wp_conseq _ (fun res s => st_trace s = [] /\ exists id, res = Ok id) _ _ _ _).
  { destruct (r_trace_request_id r); [by apply wp_ret; eauto|].
    destruct (c_telemetry cfg); [|by apply wp_ret; eauto].
    unfold wp. simpl. destruct (x_uuid env w). simpl. eauto. }
  intros ? s1 [Hs1 [id ->]]. cbn beta iota. destruct (c_telemetry cfg); unfold when; wp_steps.
  - apply wp_log. wp_steps. apply wp_call_always with (1 := Ha). intros w'. wp_steps.
    apply wp_log. wp_steps. cbn [negb]. wp_steps. apply wp_log. wp_steps. simpl. by rewrite Hs1.
  - apply wp_call_always with (1 := Ha). intros w'. wp_steps.
    apply wp_log. wp_steps. cbn [negb]. wp_steps. simpl. by rewrite Hs1.
Qed.

Lemma middleware_robots_denied_witness :
  exists s, request (plain_config 2 100) (scripted false no_lookup) one_get (initial ([], 7))
            = (Err X_RobotsDenied, s) /\ forallb observes_only (st_trace s) = true.
Proof.
  eexists. split; [vm_compute; reflexivity|].
  refine (proj2 (middleware_robots_denied (plain_config 2 100) (scripted false no_lookup) one_get
    ([], 7) (Err X_RobotsDenied) _ _ _ _ _)).
  - reflexivity.
  - discriminate.
  - intros w. reflexivity.
  - vm_compute. reflexivity.
Defined.
