(* ===== verification/RateLimit.v ===== *)
(** Per-origin pacing and concurrency
    ([commerce-scraper/.../transports/rate_limit.py]): the origin of a request,
    the limiter as operations and as a step relation over waiting tasks, and the
    transport wrapper that pairs every wait with a release. Times are integer
    ticks of the injected clock. *)
From S2P Require Export Effects Transport.
From Stdlib Require Import Ascii.

(** * Origins *)

(** Scheme, host and port of a target. *)
Definition origin : Type := string * string * Z.

(** Source: transports/rate_limit.py, _origin. *)
Definition origin_of (url : string) : result pyexn origin :=
  match (parsed ← urlsplit url; port ← sr_port parsed; Ok (parsed, port)) with
  | Err _ => Err (ValueError "request URL has an invalid origin")
  | Ok (parsed, port) =>
      let scheme := str_casefold (sr_scheme parsed) in
      match sr_hostname parsed with
      | None => Err (ValueError "request URL must have an HTTP(S) origin")
      | Some hostname =>
          if negb (bool_decide (scheme ∈ ["http"; "https"]))
          then Err (ValueError "request URL must have an HTTP(S) origin")
          else match idna_encode hostname with
               | Err _ => Err (ValueError "request URL has an invalid hostname")
               | Ok host =>
                   let default_port := if bool_decide (scheme = "https") then 443 else 80 in
                   Ok (scheme, str_casefold host,
                       match port with Some p => if p =? 0 then default_port else p
                                     | None => default_port end)
               end
      end
  end.

Example origin_default_port : origin_of "https://Shop.Example/p?x=1" = Ok ("https", "shop.example", 443).
Proof. reflexivity. Qed.
Example origin_rejects_ftp : is_ok (origin_of "ftp://shop.example/") = false.
Proof. reflexivity. Qed.

(** * The limiter *)

(** The bounded semaphore is its counter of free permits.
    Source: transports/rate_limit.py, _OriginState. *)
Record OriginState := { os_permits : Z; os_next_start : Z }.

(** Source: transports/rate_limit.py, PerOriginRateLimiter. *)
Record PerOriginRateLimiter := {
  rl_delay : Z;
  rl_concurrency : Z;
  rl_states : gmap origin OriginState;
}.

(** Source: transports/rate_limit.py, PerOriginRateLimiter.__init__. *)
Definition new_limiter (delay concurrency : Z) : result pyexn PerOriginRateLimiter :=
  _ ← ensure (0 <=? delay) (ValueError "delay must be a finite non-negative number");
  _ ← ensure (1 <=? concurrency) (ValueError "concurrency must be a positive integer");
  Ok {| rl_delay := delay; rl_concurrency := concurrency; rl_states := ∅ |}.

Definition set_state (l : PerOriginRateLimiter) (o : origin) (s : OriginState) : PerOriginRateLimiter :=
  {| rl_delay := rl_delay l; rl_concurrency := rl_concurrency l;
     rl_states := <[o := s]> (rl_states l) |}.

(** Source: transports/rate_limit.py, PerOriginRateLimiter._state_for. *)
Definition state_for (l : PerOriginRateLimiter) (o : origin) : OriginState :=
  default {| os_permits := rl_concurrency l; os_next_start := 0 |} (rl_states l !! o).

(** [await state.concurrency.acquire()]: [None] while no permit is free.
    Source: transports/rate_limit.py:66-68, PerOriginRateLimiter.wait. *)
Definition acquire (l : PerOriginRateLimiter) (o : origin) : option PerOriginRateLimiter :=
  let s := state_for l o in
  if 0 <? os_permits s
  then Some (set_state l o {| os_permits := os_permits s - 1; os_next_start := os_next_start s |})
  else None.

(** The critical section under the pacing lock, with its two readings of the
    clock; the result is the time still to sleep.
    Source: transports/rate_limit.py:69-74, PerOriginRateLimiter.wait. *)
Definition pace (l : PerOriginRateLimiter) (o : origin) (clock1 clock2 : Z)
  : Z * PerOriginRateLimiter :=
  let s := state_for l o in
  let remaining := os_next_start s - clock1 in
  let next_start := Z.max (os_next_start s) clock2 + rl_delay l in
  (remaining, set_state l o {| os_permits := os_permits s; os_next_start := next_start |}).

(** The start a wait is granted: now, or when its sleep is due to end. The sleep is taken
    to be exact; an event loop may wake a task later than that, never earlier. *)
Definition granted_start (clock1 remaining : Z) : Z := clock1 + Z.max 0 remaining.

(** Source: transports/rate_limit.py, PerOriginRateLimiter.release. *)
Definition rl_release (l : PerOriginRateLimiter) (o : origin) : result pyexn PerOriginRateLimiter :=
  let s := state_for l o in
  if os_permits s <? rl_concurrency l
  then Ok (set_state l o {| os_permits := os_permits s + 1; os_next_start := os_next_start s |})
  else Err (RuntimeError "rate limiter permit released without a matching wait").

(** ** Tasks

    A task that has acquired a permit is [Pacing] until its wait returns and
    [Holding] until it releases. [wait] gives the permit back when it is
    interrupted ([except BaseException]). *)
Inductive phase := Pacing | Holding.

Record limiter_world := {
  lw_limiter : PerOriginRateLimiter;
  lw_tasks : gmap Z (origin * phase);
  lw_starts : list (origin * Z);          (* granted starts, latest first *)
  lw_now : Z;                             (* the latest reading of the clock *)
}.

Inductive limiter_step : limiter_world -> limiter_world -> Prop :=
| ls_acquire l l' tasks starts now t o :
    tasks !! t = None -> acquire l o = Some l' ->
    limiter_step {| lw_limiter := l; lw_tasks := tasks; lw_starts := starts; lw_now := now |}
                 {| lw_limiter := l'; lw_tasks := <[t := (o, Pacing)]> tasks; lw_starts := starts;
                    lw_now := now |}
| ls_pace l l' tasks starts now t o c1 c2 remaining :
    tasks !! t = Some (o, Pacing) -> now <= c1 -> c1 <= c2 -> pace l o c1 c2 = (remaining, l') ->
    limiter_step {| lw_limiter := l; lw_tasks := tasks; lw_starts := starts; lw_now := now |}
                 {| lw_limiter := l'; lw_tasks := <[t := (o, Holding)]> tasks;
                    lw_starts := (o, granted_start c1 remaining) :: starts; lw_now := c2 |}
| ls_interrupted l l' tasks starts now t o ph :
    tasks !! t = Some (o, ph) -> rl_release l o = Ok l' ->
    limiter_step {| lw_limiter := l; lw_tasks := tasks; lw_starts := starts; lw_now := now |}
                 {| lw_limiter := l'; lw_tasks := delete t tasks; lw_starts := starts; lw_now := now |}
| ls_tick l tasks starts now now' :
    now <= now' ->
    limiter_step {| lw_limiter := l; lw_tasks := tasks; lw_starts := starts; lw_now := now |}
                 {| lw_limiter := l; lw_tasks := tasks; lw_starts := starts; lw_now := now' |}.

Definition limiter_start (delay concurrency : Z) : limiter_world :=
  {| lw_limiter := {| rl_delay := delay; rl_concurrency := concurrency; rl_states := ∅ |};
     lw_tasks := ∅; lw_starts := []; lw_now := 0 |}.

(** Tasks in flight at an origin. *)
Definition in_flight (o : origin) (tasks : gmap Z (origin * phase)) : Z :=
  map_sum ((fun v => if bool_decide (v.1 = o) then 1 else 0) <$> tasks).

(** The starts granted at an origin, latest first. *)
Definition starts_at (o : origin) (l : list (origin * Z)) : list Z :=
  snd <$> filter (fun p => p.1 = o) l.

(** Consecutive entries, latest first, at least [delay] apart. *)
Fixpoint spaced (delay : Z) (l : list Z) : Prop :=
  match l with
  | a :: r => match r with b :: _ => b + delay <= a | [] => True end /\ spaced delay r
  | [] => True
  end.

(** * Invariant *)

Section limiter_invariant.
Context (delay concurrency : Z).

Record limiter_inv (w : limiter_world) : Prop := {
li_delay : rl_delay (lw_limiter w) = delay;
li_concurrency : rl_concurrency (lw_limiter w) = concurrency;
li_permits o : os_permits (state_for (lw_limiter w) o) + in_flight o (lw_tasks w) = concurrency;
li_free o : 0 <= os_permits (state_for (lw_limiter w) o);
li_spaced o : spaced delay (starts_at o (lw_starts w));
li_next o : match starts_at o (lw_starts w) with
          | a :: _ => a + delay <= os_next_start (state_for (lw_limiter w) o)
          | [] => True
          end;
}.

Lemma state_for_set l o s : state_for (set_state l o s) o = s.
Proof. unfold state_for, set_state. simpl. by rewrite lookup_insert_eq. Qed.
Lemma state_for_set_ne l o o' s : o <> o' -> state_for (set_state l o s) o' = state_for l o'.
Proof. intros H. unfold state_for, set_state. simpl. by rewrite lookup_insert_ne. Qed.

Lemma in_flight_insert o t v tasks :
tasks !! t = None ->
in_flight o (<[t := v]> tasks) = (if bool_decide (v.1 = o) then 1 else 0) + in_flight o tasks.
Proof.
intros Ht. unfold in_flight. rewrite fmap_insert. apply map_sum_insert.
by rewrite lookup_fmap, Ht.
Qed.
Lemma in_flight_delete o t v tasks :
tasks !! t = Some v ->
in_flight o (delete t tasks) = in_flight o tasks - (if bool_decide (v.1 = o) then 1 else 0).
Proof.
intros Ht. unfold in_flight. rewrite fmap_delete. apply map_sum_delete.
by rewrite lookup_fmap, Ht.
Qed.
Lemma in_flight_update o t v v' tasks :
tasks !! t = Some v -> v.1 = v'.1 -> in_flight o (<[t := v']> tasks) = in_flight o tasks.
Proof.
intros Ht Hv. rewrite <- (insert_delete_eq tasks t v').
rewrite in_flight_insert by apply lookup_delete_eq.
rewrite (in_flight_delete o t v) by done. rewrite Hv. lia.
Qed.
Lemma in_flight_nonneg o tasks : 0 <= in_flight o tasks.
Proof.
apply map_sum_nonneg. intros k v H. rewrite lookup_fmap in H.
destruct (tasks !! k); simplify_eq/=. by case_bool_decide.
Qed.

Lemma starts_at_cons o o' a l :
starts_at o ((o', a) :: l) = if bool_decide (o' = o) then a :: starts_at o l else starts_at o l.
Proof. unfold starts_at. rewrite filter_cons. simpl. case_bool_decide; by case_decide. Qed.

Lemma limiter_inv_start : 0 <= delay -> 1 <= concurrency ->
limiter_inv (limiter_start delay concurrency).
Proof.
intros Hd Hc. constructor; intros; simpl; try done;
unfold state_for, in_flight; simpl; rewrite lookup_empty; simpl;
rewrite ?fmap_empty, ?map_sum_empty; lia.
Qed.

Lemma limiter_inv_step w w' : 0 <= delay -> limiter_inv w -> limiter_step w w' -> limiter_inv w'.
Proof.
intros Hdelay [Hd Hc Hp Hf Hs Hn] Hstep.
destruct Hstep as [l l' tasks starts now t o Ht Hacq
                |l l' tasks starts now t o c1 c2 remaining Ht H1 H2 Hpace
                |l l' tasks starts now t o ph Ht Hrel
                |l tasks starts now now' Hle]; simpl in *.
- unfold acquire in Hacq. step_in Hacq. bool_facts.
constructor; simpl; auto; intros o'; specialize (Hp o'); specialize (Hf o'); specialize (Hn o');
  try rewrite in_flight_insert by done; simpl; destruct (decide (o = o')) as [<-|Hne];
  rewrite ?state_for_set, ?state_for_set_ne by done; simpl;
  rewrite ?bool_decide_eq_true_2, ?bool_decide_eq_false_2 by done; auto; lia.
- unfold pace in Hpace. simplify_eq/=.
constructor; simpl; auto; intros o'; destruct (decide (o = o')) as [<-|Hne];
  rewrite ?state_for_set, ?state_for_set_ne by done; simpl; auto;
  rewrite ?(in_flight_update _ _ (o, Pacing)) by done; auto;
  rewrite starts_at_cons; try (rewrite bool_decide_eq_true_2 by done);
  try (rewrite bool_decide_eq_false_2 by done); auto; unfold granted_start.
+ specialize (Hn o). specialize (Hs o). simpl. split; [|done].
  destruct (starts_at o starts); [done|]. lia.
+ lia.
+ apply Hn.
- unfold rl_release in Hrel. step_in Hrel. bool_facts.
constructor; simpl; auto; intros o'; specialize (Hp o'); specialize (Hf o'); specialize (Hn o');
  try rewrite (in_flight_delete _ _ (o, ph)) by done; simpl; destruct (decide (o = o')) as [<-|Hne];
  rewrite ?state_for_set, ?state_for_set_ne by done; simpl;
  rewrite ?bool_decide_eq_true_2, ?bool_decide_eq_false_2 by done; auto; lia.
- constructor; auto.
Qed.

Lemma limiter_inv_reachable w : 0 <= delay -> 1 <= concurrency ->
reachable limiter_step (limiter_start delay concurrency) w -> limiter_inv w.
Proof.
intros Hd Hc. apply reachable_invariant; [by apply limiter_inv_start|].
intros s s'. by apply limiter_inv_step.
Qed.
End limiter_invariant.

(** ** Spaced lists *)

Lemma spaced_head delay a l : 0 <= delay -> spaced delay (a :: l) -> Forall (fun x => x + delay <= a) l.
Proof.
  intros Hd. revert a. induction l as [|b l IH]; intros a [Hab Hs]; constructor; [done|].
  eapply Forall_impl; [by apply IH|]. simpl. lia.
Qed.

Lemma spaced_filter delay (P : Z -> Prop) `{!forall x, Decision (P x)} l :
  0 <= delay -> spaced delay l -> spaced delay (filter P l).
Proof.
  intros Hd. induction l as [|a l IH]; intros Hs; [done|].
  pose proof (spaced_head _ _ _ Hd Hs) as Hh. destruct Hs as [_ Hs]. specialize (IH Hs).
  rewrite filter_cons. case_decide; [|done]. split; [|done].
  destruct (filter P l) as [|b r] eqn:E; [done|].
  assert (b ∈ filter P l) as Hb by (rewrite E; left).
  apply list_elem_of_filter in Hb as [_ Hb]. by eapply Forall_forall in Hh.
Qed.

(** A window that contains [n] spaced starts is at least [(n - 1) * delay] long. *)
Lemma spaced_window delay l lo hi :
  0 <= delay -> lo <= hi -> spaced delay l -> Forall (fun a => lo <= a <= hi) l ->
  (Z.of_nat (length l) - 1) * delay <= hi - lo.
Proof.
  intros Hd. revert hi. induction l as [|a l IH]; intros hi Hlh Hs Hw; [simpl; lia|].
  pose proof (spaced_head _ _ _ Hd Hs) as Hh. destruct Hs as [_ Hs].
  apply Forall_cons in Hw as [Ha Hw]. destruct l as [|b l]; [simpl; lia|].
  assert (Hb : lo <= b /\ b + delay <= a).
  { apply Forall_cons in Hh as [? _]. apply Forall_cons in Hw as [? _]. lia. }
  specialize (IH (a - delay) ltac:(lia) Hs). rewrite length_cons.
  assert (Forall (fun x => lo <= x <= a - delay) (b :: l)) as Hw'.
  { apply Forall_forall. intros x Hx. eapply Forall_forall in Hh, Hw; [|done..]. simpl in *. lia. }
  specialize (IH Hw'). lia.
Qed.

(** * The wrapping transport *)

Inductive rl_action := RL_wait (ok : bool) | RL_emit | RL_dispatch | RL_release.

Section wrapper.
Context {W X R : Type}.
Context (telemetry : bool) (wait release : eff W X ()) (backend : eff W X R).

(** The wrapper's state is the world and the trace of its calls. *)
Definition rl_log (a : rl_action) : eff (W * list rl_action) X () := modify (fun s => (s.1, s.2 ++ [a])).
Definition rl_call {A} (m : eff W X A) : eff (W * list rl_action) X A := fun s =>
let (r, w) := m s.1 in (r, (w, s.2)).

(** Source: transports/rate_limit.py, RateLimitedTransport.request. *)
Definition limited_request : eff (W * list rl_action) X R :=
_ ← catch (rl_call wait) (fun e => _ ← rl_log (RL_wait false); throw e);
_ ← rl_log (RL_wait true);
_ ← when telemetry (rl_log RL_emit);
finally (_ ← rl_log RL_dispatch; rl_call backend)
      (_ ← rl_log RL_release; rl_call release).
End wrapper.

(** * Properties *)

(** C28. The limiter's promise per origin, in every reachable interleaving of
    waiting, interrupted and releasing tasks: at most [concurrency] tasks are
    in flight, and any window of time contains at most one more granted start
    than the number of delays that fit in it. *)
Theorem limiter_bounds delay concurrency w o lo hi :
  0 <= delay -> 1 <= concurrency -> lo <= hi ->
  reachable limiter_step (limiter_start delay concurrency) w ->
  in_flight o (lw_tasks w) <= concurrency
  /\ (Z.of_nat (length (filter (fun a => lo <= a <= hi) (starts_at o (lw_starts w)))) - 1) * delay
     <= hi - lo.
Proof.
  intros Hd Hc Hlh Hr. destruct (limiter_inv_reachable delay concurrency w Hd Hc Hr) as [_ _ Hp Hf Hs _].
  split; [specialize (Hp o); specialize (Hf o); lia|].
  apply spaced_window; [done|done|by apply spaced_filter|].
  apply Forall_forall. intros x Hx. by apply list_elem_of_filter in Hx as [? _].
Qed.

Definition example_origin : origin := ("https", "shop.example", 443).

(** One task through its wait. *)
Definition one_acquired : PerOriginRateLimiter :=
  default (lw_limiter (limiter_start 500 1)) (acquire (lw_limiter (limiter_start 500 1)) example_origin).
Definition one_waited : limiter_world :=
  {| lw_limiter := (pace one_acquired example_origin 7 8).2;
     lw_tasks := <[1 := (example_origin, Holding)]> (<[1 := (example_origin, Pacing)]> ∅);
     lw_starts := [(example_origin, 7)]; lw_now := 8 |}.

Lemma one_wait_reachable : reachable limiter_step (limiter_start 500 1) one_waited.
Proof.
  eapply reach_step.
  - eapply reach_step; [apply reach_refl|].
    apply (ls_acquire _ one_acquired ∅ [] 0 1 example_origin); reflexivity.
  - apply (ls_pace one_acquired _ _ [] 0 1 example_origin 7 8 (-7)); [reflexivity|lia|lia|reflexivity].
Qed.

Lemma limiter_bounds_witness :
  in_flight example_origin (lw_tasks one_waited) = 1
  /\ in_flight example_origin (lw_tasks one_waited) <= 1.
Proof.
  split; [reflexivity|].
  exact (proj1 (limiter_bounds 500 1 one_waited example_origin 0 10
                  ltac:(lia) ltac:(lia) ltac:(lia) one_wait_reachable)).
Defined.

(** Releasing: in every reachable state a release of an origin succeeds
    exactly when some task holds a permit of that origin; without a matching
    wait it raises [RuntimeError]. *)
Theorem limiter_release_matches delay concurrency w o :
  0 <= delay -> 1 <= concurrency ->
  reachable limiter_step (limiter_start delay concurrency) w ->
  is_ok (rl_release (lw_limiter w) o) = (0 <? in_flight o (lw_tasks w)).
Proof.
  intros Hd Hc Hr. destruct (limiter_inv_reachable delay concurrency w Hd Hc Hr) as [_ Hcc Hp _ _ _].
  specialize (Hp o). unfold rl_release. rewrite Hcc.
  pose proof (in_flight_nonneg o (lw_tasks w)).
  destruct (os_permits _ <? concurrency) eqn:E, (0 <? in_flight _ _) eqn:E'; try done; bool_facts; lia.
Qed.

Lemma limiter_release_matches_witness :
  is_ok (rl_release (lw_limiter (limiter_start 500 1)) example_origin) = false.
Proof.
  rewrite (limiter_release_matches 500 1 (limiter_start 500 1) example_origin ltac:(lia) ltac:(lia)
             (reach_refl _ _)). reflexivity.
Defined.

(** The wrapping transport releases the permit exactly once after every
    successful wait, whatever the backend does, and neither dispatches nor
    releases when the wait fails. *)
Theorem limited_request_pairs {W X R} telemetry (wait release : eff W X ()) (backend : eff W X R) w :
  ((limited_request telemetry wait release backend) (w, [])).2.2
  = match (wait w).1 with
    | Ok _ => [RL_wait true] ++ (if telemetry then [RL_emit] else []) ++ [RL_dispatch; RL_release]
    | Err _ => [RL_wait false]
    end.
Proof.
  unfold limited_request, rl_call, rl_log, catch, finally, when, modify, throw, mbind, eff_bind; simpl.
  destruct (wait w) as [[[]|e] w1]; simpl; [|done].
  destruct telemetry; simpl; destruct (backend w1) as [r w2]; simpl;
    destruct (release w2) as [[[]|e] w3]; done.
Qed.
