(* ===== verification/BoundedDict.v ===== *)
(** Insertion-ordered dictionaries with a bound: the Python [dict] and
    [OrderedDict] idioms the caches of the library share. *)
From S2P Require Export Prelude.

Section odict.
Context {K V : Type} `{!EqDecision K}.
Implicit Types d : list (K * V).

Fixpoint od_get (k : K) d : option V :=
match d with
| [] => None
| (k', v) :: r => if bool_decide (k' = k) then Some v else od_get k r
end.

(** [d[k] = v]: an existing key keeps its position. *)
Fixpoint od_set (k : K) (v : V) d : list (K * V) :=
match d with
| [] => [(k, v)]
| (k', v') :: r => if bool_decide (k' = k) then (k', v) :: r else (k', v') :: od_set k v r
end.

(** [d.pop(k, None)] *)
Fixpoint od_pop (k : K) d : list (K * V) :=
match d with
| [] => []
| (k', v') :: r => if bool_decide (k' = k) then r else (k', v') :: od_pop k r
end.

(** [d.move_to_end(k)] *)
Definition od_move_to_end (k : K) d : list (K * V) :=
match od_get k d with Some v => od_pop k d ++ [(k, v)] | None => d end.

(** [while len(d) > maximum: d.popitem(last=False)] *)
Definition od_evict (maximum : nat) d : list (K * V) := drop (length d - maximum) d.

(** Insertion into a cache that drops its oldest entry when full. *)
Definition fifo_put (maximum : nat) (k : K) (v : V) d : list (K * V) :=
let d := if is_none (od_get k d) && (maximum <=? length d)%nat then drop 1 d else d in
od_set k v d.

(** Insertion as the most recent entry, evicting the least recent ones. *)
Definition lru_put (maximum : nat) (k : K) (v : V) d : list (K * V) :=
od_evict maximum (od_move_to_end k (od_set k v d)).

(** ** Lemmas *)

Lemma od_get_set_eq k v d : od_get k (od_set k v d) = Some v.
Proof.
induction d as [|[k' v'] d IH]; simpl; [by rewrite bool_decide_eq_true_2|].
case_bool_decide; simpl; [by rewrite bool_decide_eq_true_2|by rewrite bool_decide_eq_false_2].
Qed.

Lemma od_get_set_ne k k' v d : k <> k' -> od_get k' (od_set k v d) = od_get k' d.
Proof.
intros Hne. induction d as [|[k1 v1] d IH]; simpl; [by rewrite bool_decide_eq_false_2|].
destruct (bool_decide (k1 = k)) eqn:E; simpl; [|by rewrite IH].
apply bool_decide_eq_true in E as ->. by rewrite !bool_decide_eq_false_2.
Qed.

Lemma od_set_length k v d :
length (od_set k v d) = (length d + if is_none (od_get k d) then 1 else 0)%nat.
Proof.
induction d as [|[k' v'] d IH]; simpl; [done|]. case_bool_decide; simpl; [lia|]. rewrite IH. lia.
Qed.

Lemma od_get_app k d e :
od_get k (d ++ e) = match od_get k d with Some v => Some v | None => od_get k e end.
Proof. induction d as [|[k' v'] d IH]; simpl; [done|]. by case_bool_decide. Qed.

Lemma od_get_pop_ne k k' d : k <> k' -> od_get k' (od_pop k d) = od_get k' d.
Proof.
intros Hne. induction d as [|[k1 v1] d IH]; simpl; [done|].
destruct (bool_decide (k1 = k)) eqn:E; simpl; [|by rewrite IH].
apply bool_decide_eq_true in E as ->. by rewrite bool_decide_eq_false_2.
Qed.

Lemma od_pop_length k d : (length (od_pop k d) <= length d)%nat.
Proof. induction d as [|[k' v'] d IH]; simpl; [lia|]. case_bool_decide; simpl; lia. Qed.

Lemma od_pop_length_some k v d : od_get k d = Some v -> S (length (od_pop k d)) = length d.
Proof.
induction d as [|[k' v'] d IH]; simpl; [done|]. case_bool_decide; simpl; [done|].
intros Hget. by rewrite IH.
Qed.

Lemma od_move_length k d : length (od_move_to_end k d) = length d.
Proof.
unfold od_move_to_end. destruct (od_get k d) eqn:E; [|done].
rewrite length_app. simpl. apply od_pop_length_some in E. lia.
Qed.

Lemma od_evict_length n d : (length (od_evict n d) <= n)%nat.
Proof. unfold od_evict. rewrite length_drop. lia. Qed.

Lemma fifo_put_length n k v d :
(0 < n)%nat -> (length d <= n)%nat -> (length (fifo_put n k v d) <= n)%nat.
Proof.
intros Hn Hd. unfold fifo_put. rewrite od_set_length.
destruct (is_none (od_get k d)) eqn:E; cbn [andb]; [|rewrite E; lia].
destruct (n <=? length d)%nat eqn:E2; bool_facts; [|rewrite E; lia].
rewrite length_drop. clear E. destruct (is_none _); lia.
Qed.

Lemma fifo_put_get n k v d : od_get k (fifo_put n k v d) = Some v.
Proof. apply od_get_set_eq. Qed.

Lemma lru_put_length n k v d : (length (lru_put n k v d) <= n)%nat.
Proof. apply od_evict_length. Qed.

(** The entry just put is the last one, so a positive bound keeps it. *)
Lemma lru_put_last n k v d : (0 < n)%nat -> exists e, lru_put n k v d = e ++ [(k, v)].
Proof.
intros Hn. unfold lru_put, od_move_to_end. rewrite od_get_set_eq. unfold od_evict.
set (e := od_pop k (od_set k v d)). rewrite length_app. simpl.
exists (drop (length e + 1 - n) e). rewrite drop_app_le by lia. done.
Qed.

(** ** Properties of all entries *)

Lemma Forall_od_set (P : K * V -> Prop) k v d :
(forall k', k' = k -> P (k', v)) -> Forall P d -> Forall P (od_set k v d).
Proof.
intros Hkv. induction 1 as [|[k' v'] d Hp Hd IH]; simpl; [by constructor; auto|].
case_bool_decide; constructor; auto.
Qed.
Lemma Forall_od_pop (P : K * V -> Prop) k d : Forall P d -> Forall P (od_pop k d).
Proof. induction 1 as [|[k' v'] d Hp Hd IH]; simpl; [done|]. case_bool_decide; auto. Qed.
Lemma od_get_In k v d : od_get k d = Some v -> In (k, v) d.
Proof.
induction d as [|[k' v'] d IH]; simpl; [done|].
case_bool_decide as E; intros H; [simplify_eq; by left|right; auto].
Qed.
Lemma Forall_od_get (P : K * V -> Prop) k v d : Forall P d -> od_get k d = Some v -> P (k, v).
Proof. intros HP H%od_get_In. rewrite List.Forall_forall in HP. auto. Qed.
Lemma Forall_od_move (P : K * V -> Prop) k d : Forall P d -> Forall P (od_move_to_end k d).
Proof.
intros HP. unfold od_move_to_end. destruct (od_get k d) as [v|] eqn:E; [|done].
apply Forall_app. split; [by apply Forall_od_pop|]. constructor; [|done]. by eapply Forall_od_get.
Qed.
Lemma Forall_lru_put (P : K * V -> Prop) n k v d : P (k, v) -> Forall P d -> Forall P (lru_put n k v d).
Proof.
intros Hkv HP. unfold lru_put, od_evict. apply Forall_drop, Forall_od_move, Forall_od_set; [|done].
by intros ? ->.
Qed.
Lemma Forall_fifo_put (P : K * V -> Prop) n k v d : P (k, v) -> Forall P d -> Forall P (fifo_put n k v d).
Proof.
intros Hkv HP. unfold fifo_put. apply Forall_od_set; [by intros ? ->|].
case_match; [by apply Forall_drop|done].
Qed.
End odict.
