(* ===== verification/UrlPolicy.v ===== *)
(** The address policy applied before every connection and redirect
    ([commerce-scraper/.../transports/url_policy.py]) and the robots policy
    cache ([commerce-scraper/.../transports/robots.py]). Both are modelled for
    one caller at a time: the sharing of an in-flight lookup between concurrent
    callers only saves a call. Clock readings are integer ticks. *)
From S2P Require Export BoundedDict Middleware.
From Stdlib Require Import Ascii.

(** * URL policy *)

(** Source: transports/url_policy.py, _ResolutionEntry. *)
Record ResolutionEntry := { re_addresses : list string; re_expires_at : Z }.

(** Source: transports/url_policy.py:53-60, URLPolicy.__init__. *)
Record URLPolicy := {
  u_origins : list string;
  u_ttl : Z;
  u_maximum_hosts : nat;
  u_resolutions : list (string * ResolutionEntry);
}.

(** Source: transports/url_policy.py, URLPolicy._origin. *)
Definition policy_origin (url : string) : result pyexn string :=
  parsed ← urlsplit url;
  port ← sr_port parsed;
  let port_text := match port with
                   | Some p => if p =? 0 then EmptyString else ":" +:+ pretty p
                   | None => EmptyString
                   end in
  Ok (str_lower (sr_scheme parsed) +:+ "://"
      +:+ str_lower (default EmptyString (sr_hostname parsed)) +:+ port_text).

(** Source: transports/url_policy.py:36-53, URLPolicy.__init__. *)
Definition new_policy (origins : list string) (ttl maximum : Z) : result pyexn URLPolicy :=
  _ ← ensure (0 <=? ttl) (ValueError "resolver_ttl_seconds must be finite and non-negative");
  _ ← ensure (1 <=? maximum) (ValueError "maximum_resolved_hosts must be a positive integer");
  allowed ← foldr (fun url acc => o ← policy_origin url; rest ← acc; Ok (o :: rest)) (Ok []) origins;
  Ok {| u_origins := allowed; u_ttl := ttl; u_maximum_hosts := Z.to_nat maximum; u_resolutions := [] |}.

Definition truthy (s : option string) : bool :=
  match s with Some t => negb (str_isempty t) | None => false end.

(** The checks that need no resolution; the result is the host to resolve.
    Source: transports/url_policy.py:73-79, URLPolicy.validate_with_addresses. *)
Definition check_url (p : URLPolicy) (absolute : string) : result pyexn string :=
  parsed ← urlsplit absolute;
  _ ← ensure (bool_decide (sr_scheme parsed ∈ ["http"; "https"]) && truthy (sr_hostname parsed))
        (ValueError "URL policy permits only absolute HTTP(S) URLs");
  _ ← ensure (negb (truthy (sr_username parsed) || truthy (sr_password parsed)))
        (ValueError "URL policy rejects embedded user information");
  o ← policy_origin absolute;
  _ ← ensure (bool_decide (o ∈ u_origins p)) (ValueError "URL origin is not allowed");
  Ok (default EmptyString (sr_hostname parsed)).

Section policy.
(** The standard library's address parser and registry: [None] is not an
address, [Some b] says whether the address is global. *)
Context (ip_is_global : string -> option bool).
(** The resolver the policy is given. *)
Context (resolver : string -> result pyexn (list string)).

(** Source: transports/url_policy.py, URLPolicy._validate_addresses. *)
Definition validate_addresses (addresses : list string) : result pyexn () :=
_ ← ensure (negb (bool_decide (addresses = []))) (ValueError "URL host did not resolve");
foldr (fun a acc =>
       match ip_is_global a with
       | None => Err (ValueError "not an IP address")
       | Some false => Err (ValueError "URL host resolves to a non-public address")
       | Some true => acc
       end) (Ok ()) addresses.

Definition set_resolutions (p : URLPolicy) (r : list (string * ResolutionEntry)) : URLPolicy :=
{| u_origins := u_origins p; u_ttl := u_ttl p; u_maximum_hosts := u_maximum_hosts p;
 u_resolutions := r |}.

(** The cached part of a resolution: a live entry becomes the most recent, an
expired one is dropped.
Source: transports/url_policy.py:83-92, URLPolicy._resolve. *)
Definition resolve_cached (p : URLPolicy) (key : string) (now : Z) : option (list string) * URLPolicy :=
match od_get key (u_resolutions p) with
| Some entry =>
  if now <? re_expires_at entry
  then (Some (re_addresses entry), set_resolutions p (od_move_to_end key (u_resolutions p)))
  else (None, set_resolutions p (od_pop key (u_resolutions p)))
| None => (None, p)
end.

(** Source: transports/url_policy.py:100-117, URLPolicy._resolve_and_cache. *)
Definition resolve_and_cache (p : URLPolicy) (key host : string) (now : Z)
: result pyexn (list string) * URLPolicy :=
match (addresses ← resolver host; _ ← validate_addresses addresses; Ok addresses) with
| Err e => (Err e, p)
| Ok addresses =>
  let entry := {| re_addresses := addresses; re_expires_at := now + u_ttl p |} in
  (Ok addresses, set_resolutions p (lru_put (u_maximum_hosts p) key entry (u_resolutions p)))
end.

(** [now] is the reading before the lookup, [later] the one after the resolver.
Source: transports/url_policy.py, URLPolicy._resolve. *)
Definition resolve (p : URLPolicy) (host : string) (now later : Z)
: result pyexn (list string) * URLPolicy :=
let key := str_casefold host in
match resolve_cached p key now with
| (Some addresses, p) => (Ok addresses, p)
| (None, p) => resolve_and_cache p key host later
end.

(** Source: transports/url_policy.py, URLPolicy.validate_with_addresses. *)
Definition validate_with_addresses (p : URLPolicy) (absolute : string) (now later : Z)
: result pyexn (string * list string) * URLPolicy :=
match check_url p absolute with
| Err e => (Err e, p)
| Ok host => match resolve p host now later with
           | (Ok addresses, p) => (Ok (absolute, addresses), p)
           | (Err e, p) => (Err e, p)
           end
end.

(** ** Invariant: the cache only holds validated addresses, and few hosts *)

Definition public (addresses : list string) : Prop :=
addresses <> [] /\ Forall (fun a => ip_is_global a = Some true) addresses.

Record policy_inv (p : URLPolicy) : Prop := {
pi_public : Forall (fun kv => public (re_addresses kv.2)) (u_resolutions p);
pi_bound : (length (u_resolutions p) <= u_maximum_hosts p)%nat;
}.

Lemma validate_addresses_public l : validate_addresses l = Ok () -> public l.
Proof.
unfold validate_addresses, public. intros Hv. step_in Hv. bool_facts. split; [done|].
revert Hv. clear E u. induction l as [|a l IH]; simpl; [by constructor|].
destruct (ip_is_global a) as [[]|] eqn:Ea; intros H; try discriminate. constructor; auto.
Qed.

Lemma resolve_inv p host now later r p' :
policy_inv p -> resolve p host now later = (r, p') ->
policy_inv p' /\ u_origins p' = u_origins p
/\ match r with Ok l => public l | Err _ => True end.
Proof.
intros [Hpub Hlen]. unfold resolve, resolve_cached. set (key := str_casefold host).
assert (Hcache : forall q r q', policy_inv q -> resolve_and_cache q key host later = (r, q') ->
policy_inv q' /\ u_origins q' = u_origins q /\ match r with Ok l => public l | Err _ => True end).
{ clear. intros q r q' [Hpub Hlen]. unfold resolve_and_cache.
destruct (resolver host) as [l|e] eqn:Hr; simpl; [|intros; simplify_eq; by repeat split].
destruct (validate_addresses l) as [[]|e] eqn:Hv; simpl; intros; simplify_eq; [|by repeat split].
apply validate_addresses_public in Hv. split_and!; [|done|done].
split; simpl; [by apply Forall_lru_put|apply lru_put_length]. }
destruct (od_get key (u_resolutions p)) as [entry|] eqn:He.
2:{ intros H. by apply (Hcache p). }
destruct (now <? re_expires_at entry).
- intros ?; simplify_eq. pose proof (Forall_od_get _ _ _ _ Hpub He) as Hl. repeat split; simpl.
+ by apply Forall_od_move.
+ by rewrite od_move_length.
+ apply Hl.
+ apply Hl.
- intros H. apply (Hcache (set_resolutions p (od_pop key (u_resolutions p)))) in H; [done|].
split; simpl; [by apply Forall_od_pop|]. pose proof (od_pop_length key (u_resolutions p)). lia.
Qed.

(** The policies a sequence of validations can produce. *)
Inductive policy_step : URLPolicy -> URLPolicy -> Prop :=
| ps_validate p absolute now later r p' :
validate_with_addresses p absolute now later = (r, p') -> policy_step p p'.

Lemma policy_inv_step p p' : policy_inv p -> policy_step p p' -> policy_inv p'.
Proof.
intros Hp Hs. destruct Hs as [q absolute now later r q' Hv]. unfold validate_with_addresses in Hv.
destruct (check_url q absolute) as [host|e]; [|by simplify_eq].
destruct (resolve q host now later) as [[l|e] q1] eqn:Hr; simplify_eq;
by destruct (resolve_inv _ _ _ _ _ _ Hp Hr) as [? _].
Qed.

Lemma policy_origins_step p p' : policy_step p p' -> u_origins p' = u_origins p.
Proof.
intros [q absolute now later r q' Hv]. unfold validate_with_addresses, resolve, resolve_cached, resolve_and_cache in Hv.
repeat (case_match; simplify_eq/=); done.
Qed.
End policy.

(** * Robots *)

(** Source: transports/robots.py, _Rules. *)
Inductive Rules := ParsedRules (text : string) | ForcedDecision (allowed : bool).

(** Source: transports/robots.py:62-73, CachedRobotsChecker.__init__. *)
Record RobotsChecker := {
  rc_user_agent : string;
  rc_transport_failure_decision : bool;
  rc_server_failure_decision : bool;
  rc_maximum_origins : nat;
  rc_rules : list (string * Rules);
}.

(** Source: transports/robots.py, CachedRobotsChecker.__init__. *)
Definition new_robots (user_agent : string) (failure_allow : bool)
  (transport_failure server_failure : option bool) (maximum_origins : Z) : result pyexn RobotsChecker :=
  _ ← ensure (negb (str_isempty (str_strip user_agent))) (ValueError "user_agent must not be blank");
  _ ← ensure (1 <=? maximum_origins) (ValueError "maximum_origins must be positive");
  Ok {| rc_user_agent := user_agent;
        rc_transport_failure_decision := default failure_allow transport_failure;
        rc_server_failure_decision := default failure_allow server_failure;
        rc_maximum_origins := Z.to_nat maximum_origins; rc_rules := [] |}.

(** Source: transports/robots.py, _safe_origin. *)
Definition safe_origin (url : string) : option string :=
  match (parsed ← urlsplit url; port ← sr_port parsed; Ok (parsed, port)) with
  | Err _ => None
  | Ok (parsed, port) =>
      let scheme := str_casefold (sr_scheme parsed) in
      match sr_hostname parsed with
      | None => None
      | Some hostname =>
          if negb (bool_decide (scheme ∈ ["http"; "https"])) then None else
          let hostname := str_casefold hostname in
          let hostname := if str_has ":" hostname then "[" +:+ hostname +:+ "]" else hostname in
          let default_port := if bool_decide (scheme = "http") then 80 else 443 in
          let netloc := match port with
                        | Some p => if p =? default_port then hostname else hostname +:+ ":" +:+ pretty p
                        | None => hostname
                        end in
          Some (urlunsplit {| sr_scheme := scheme; sr_netloc := netloc; sr_path := EmptyString;
                              sr_query := EmptyString; sr_fragment := EmptyString |})
      end
  end.

Section robots.
(** The standard library's robots.txt parser: [can_fetch text agent url]. *)
Context (can_fetch : string -> string -> string -> bool).
(** The raw transport below the controller. *)
Context (fetch : TransportRequest -> result mw_exn TransportResponse).

(** Source: transports/robots.py, _Rules.allowed. *)
Definition rules_allowed (r : Rules) (url user_agent : string) : bool :=
match r with ForcedDecision d => d | ParsedRules text => can_fetch text user_agent url end.

Definition robots_request (o : string) : TransportRequest :=
{| r_method := "GET"; r_url := o +:+ "/robots.txt"; r_query := []; r_headers := [];
 r_json_body := None; r_body := None; r_purpose := P_ROBOTS; r_priority := R_DISCOVERY;
 r_required := true; r_estimated_bytes := 0; r_cache := CACHE_BYPASS; r_browser := HINT_NEVER;
 r_evaluation := None; r_trace_request_id := None; r_trace_attempt := None |}.

(** Source: transports/robots.py, CachedRobotsChecker._fetch_rules. *)
Definition fetch_rules (c : RobotsChecker) (o : string) : result mw_exn Rules :=
match fetch (robots_request o) with
| Err (X_TransportFailure _) => Ok (ForcedDecision (rc_transport_failure_decision c))
| Err e => Err e
| Ok response =>
  let status := t_status response in
  Ok (if (200 <=? status) && (status <? 300) then ParsedRules (t_content response)
      else if bool_decide (status ∈ [401; 403]) then ForcedDecision false
      else if (400 <=? status) && (status <? 500) then ForcedDecision true
      else ForcedDecision (rc_server_failure_decision c))
end.

Definition set_rules (c : RobotsChecker) (r : list (string * Rules)) : RobotsChecker :=
{| rc_user_agent := rc_user_agent c;
 rc_transport_failure_decision := rc_transport_failure_decision c;
 rc_server_failure_decision := rc_server_failure_decision c;
 rc_maximum_origins := rc_maximum_origins c; rc_rules := r |}.

(** Source: transports/robots.py, CachedRobotsChecker._rules_for. *)
Definition rules_for (c : RobotsChecker) (o : string) : result mw_exn Rules * RobotsChecker :=
match od_get o (rc_rules c) with
| Some r => (Ok r, c)
| None => match fetch_rules c o with
        | Err e => (Err e, c)
        | Ok r => (Ok r, set_rules c (fifo_put (rc_maximum_origins c) o r (rc_rules c)))
        end
end.

(** Source: transports/robots.py, CachedRobotsChecker.allowed. *)
Definition robots_allowed (c : RobotsChecker) (url : string) : result mw_exn bool * RobotsChecker :=
match safe_origin url with
| None => (Ok (rc_transport_failure_decision c), c)
| Some o => match rules_for c o with
          | (Ok r, c) => (Ok (rules_allowed r url (rc_user_agent c)), c)
          | (Err e, c) => (Err e, c)
          end
end.
End robots.

(** * Properties *)

(** C27. Server-side request forgery. Whatever URLs were validated before, a URL
    the policy accepts is an absolute HTTP(S) URL without user information whose
    origin was allowed at construction, and every address handed to the
    connection is a global one, including addresses served from the resolution
    cache; the cache never holds more hosts than its bound. *)
Theorem url_policy_accepts_only_public ip_is_global resolver origins ttl maximum p0 p absolute now
  later url addresses p' :
  new_policy origins ttl maximum = Ok p0 ->
  reachable (policy_step ip_is_global resolver) p0 p ->
  validate_with_addresses ip_is_global resolver p absolute now later = (Ok (url, addresses), p') ->
  url = absolute
  /\ addresses <> [] /\ Forall (fun a => ip_is_global a = Some true) addresses
  /\ (exists parsed o, urlsplit absolute = Ok parsed /\ sr_scheme parsed ∈ ["http"; "https"]
        /\ truthy (sr_username parsed) = false /\ truthy (sr_password parsed) = false
        /\ policy_origin absolute = Ok o /\ o ∈ u_origins p0)
  /\ (length (u_resolutions p') <= u_maximum_hosts p')%nat.
Proof.
  intros Hnew Hr Hv.
  assert (Hinv0 : policy_inv ip_is_global p0).
  { unfold new_policy in Hnew. step_in Hnew. simplify_eq/=. split; simpl; [constructor|lia]. }
  assert (Hinv : policy_inv ip_is_global p).
  { eapply reachable_invariant; [exact Hinv0|apply policy_inv_step|exact Hr]. }
  assert (Ho : u_origins p = u_origins p0).
  { clear -Hr. induction Hr as [|s s' _ IH Hs]; [done|]. by rewrite (policy_origins_step _ _ _ _ Hs). }
  unfold validate_with_addresses in Hv. destruct (check_url p absolute) as [host|] eqn:Hc; [|done].
  destruct (resolve _ _ p host now later) as [[l|] p1] eqn:Hres; simplify_eq.
  destruct (resolve_inv _ _ _ _ _ _ _ _ Hinv Hres) as ([_ Hb] & _ & Hne & Hall).
  split_and!; auto. unfold check_url in Hc. step_in Hc. bool_facts. rewrite <- Ho. eauto 10.
Qed.

Definition example_policy : URLPolicy :=
  {| u_origins := ["https://shop.example"]; u_ttl := 60; u_maximum_hosts := 2; u_resolutions := [] |}.

Lemma url_policy_accepts_only_public_witness :
  exists p', validate_with_addresses (fun a => Some (bool_decide (a = "93.184.216.34")))
               (fun _ => Ok ["93.184.216.34"]) example_policy "https://shop.example/p?a=1" 5 6
             = (Ok ("https://shop.example/p?a=1", ["93.184.216.34"]), p')
    /\ (length (u_resolutions p') <= u_maximum_hosts p')%nat.
Proof.
  eexists. split; [vm_compute; reflexivity|].
  refine (proj2 (proj2 (proj2 (proj2 (url_policy_accepts_only_public
    (fun a => Some (bool_decide (a = "93.184.216.34"))) (fun _ => Ok ["93.184.216.34"])
    ["https://shop.example"] 60 2 example_policy example_policy "https://shop.example/p?a=1" 5 6
    "https://shop.example/p?a=1" ["93.184.216.34"] _ eq_refl (reach_refl _ _) eq_refl))))).
Defined.

(** Robots fails closed. With the default policies, a URL is allowed only if
    its origin is a valid HTTP(S) one and its robots.txt either parsed and
    permits the URL, or is definitely absent (a client error other than 401 and
    403); transport failures, redirects and server errors deny. *)
Theorem robots_fails_closed can_fetch fetch c url c' :
  rc_rules c = [] -> rc_transport_failure_decision c = false -> rc_server_failure_decision c = false ->
  robots_allowed can_fetch fetch c url = (Ok true, c') ->
  exists o response, safe_origin url = Some o /\ fetch (robots_request o) = Ok response
    /\ ((200 <= t_status response < 300 /\ can_fetch (t_content response) (rc_user_agent c) url = true)
        \/ (400 <= t_status response < 500 /\ t_status response <> 401 /\ t_status response <> 403)).
Proof.
  intros Hempty Ht Hs. unfold robots_allowed, rules_for. rewrite Hempty, Ht. simpl.
  destruct (safe_origin url) as [o|]; [|intros; simplify_eq].
  unfold fetch_rules. destruct (fetch (robots_request o)) as [resp|e] eqn:Hf.
  2:{ destruct e; rewrite ?Ht; simpl; intros; simplify_eq. }
  exists o, resp. split_and!; auto.
  destruct ((200 <=? t_status resp) && (t_status resp <? 300)) eqn:E1; simpl in *.
  { bool_facts. left. injection H as H _. split; [lia|done]. }
  case_bool_decide as E2; simpl in *; [by simplify_eq|].
  destruct ((400 <=? t_status resp) && (t_status resp <? 500)) eqn:E3; simpl in *.
  - bool_facts. right. split; [lia|]. set_solver.
  - rewrite Hs in H. by simplify_eq.
Qed.

Definition example_robots : RobotsChecker :=
  {| rc_user_agent := "*"; rc_transport_failure_decision := false; rc_server_failure_decision := false;
     rc_maximum_origins := 1; rc_rules := [] |}.

Lemma robots_fails_closed_witness :
  exists o response, safe_origin "https://shop.example/p" = Some o
    /\ (fun _ => Ok (response_of 404 "") : result mw_exn TransportResponse) (robots_request o) = Ok response.
Proof.
  destruct (robots_fails_closed (fun _ _ _ => true) (fun _ => Ok (response_of 404 "")) example_robots
    "https://shop.example/p" _ eq_refl eq_refl eq_refl eq_refl) as (o & r & H1 & H2 & _).
  exists o, r. split; assumption.
Defined.

(** One robots policy per origin. Once a decision was made for an origin, a
    later check of any URL of that origin does not fetch: it gives the same
    result whatever the transport would answer, leaves the cache unchanged, and
    the cache never exceeds [maximum_origins]. *)
Theorem robots_rules_cached can_fetch fetch c url b c' url' o fetch1 fetch2 :
  (0 < rc_maximum_origins c)%nat -> (length (rc_rules c) <= rc_maximum_origins c)%nat ->
  robots_allowed can_fetch fetch c url = (Ok b, c') ->
  safe_origin url = Some o -> safe_origin url' = Some o ->
  robots_allowed can_fetch fetch1 c' url' = robots_allowed can_fetch fetch2 c' url'
  /\ (robots_allowed can_fetch fetch1 c' url').2 = c'
  /\ (length (rc_rules c') <= rc_maximum_origins c')%nat.
Proof.
  intros Hpos Hlen Hrun Ho Ho'. unfold robots_allowed, rules_for in *. rewrite Ho in Hrun. rewrite Ho'.
  destruct (od_get o (rc_rules c)) as [r|] eqn:E.
  - simplify_eq/=. by rewrite E.
  - destruct (fetch_rules fetch c o) as [r|e]; simplify_eq/=.
    rewrite !fifo_put_get. split_and!; [done|done|]. by apply fifo_put_length.
Qed.

Lemma robots_rules_cached_witness :
  exists c', robots_allowed (fun _ _ _ => true) (fun _ => Ok (response_of 200 "")) example_robots
               "https://shop.example/p" = (Ok true, c')
    /\ (robots_allowed (fun _ _ _ => true) (fun _ => Err X_BudgetExhausted) c' "https://shop.example/q").2 = c'.
Proof.
  eexists. split; [reflexivity|].
  refine (proj1 (proj2 (robots_rules_cached (fun _ _ _ => true) (fun _ => Ok (response_of 200 ""))
    example_robots "https://shop.example/p" true _ "https://shop.example/q" "https://shop.example"
    (fun _ => Err X_BudgetExhausted) (fun _ => Err X_BudgetExhausted) _ _ _ _ _)));
    solve [reflexivity | simpl; lia].
Defined.
