(* ===== verification/Cache.v ===== *)
(** Response caches ([commerce-scraper/.../transports/cache.py]): the identity
    of a request, the bounded in-memory cache, and the freshness decisions of
    the file cache. SHA-256 is a parameter; file contents are read through a
    function from keys to stored artifacts. *)
From S2P Require Export BoundedDict Transport.
From Stdlib Require Import Ascii Permutation Sorted.

(** * Ordered pairs *)

(** Lexicographic order on tuples. *)
Definition pair_le (p q : string * string) : bool :=
  if bool_decide (p.1 = q.1) then str_le p.2 q.2 else str_le p.1 q.1.

Fixpoint insert_pair (p : string * string) (l : list (string * string)) : list (string * string) :=
  match l with
  | [] => [p]
  | q :: r => if pair_le p q then p :: l else q :: insert_pair p r
  end.
(** [sorted(pairs)] *)
Definition sort_pairs (l : list (string * string)) : list (string * string) := foldr insert_pair [] l.

Lemma pair_le_total p q : pair_le p q = true \/ pair_le q p = true.
Proof.
  unfold pair_le. destruct (bool_decide (p.1 = q.1)) eqn:E; bool_facts.
  - rewrite bool_decide_eq_true_2 by done. apply str_le_total.
  - rewrite bool_decide_eq_false_2 by done. apply str_le_total.
Qed.
Lemma pair_le_antisym p q : pair_le p q = true -> pair_le q p = true -> p = q.
Proof.
  unfold pair_le. destruct p as [a b], q as [c d]; simpl. destruct (bool_decide (a = c)) eqn:E; bool_facts.
  - subst. rewrite bool_decide_eq_true_2 by done. intros. f_equal. by apply str_le_antisym.
  - rewrite bool_decide_eq_false_2 by done. intros H1 H2. by rewrite (str_le_antisym _ _ H1 H2) in E.
Qed.
Lemma pair_le_trans p q r : pair_le p q = true -> pair_le q r = true -> pair_le p r = true.
Proof.
  unfold pair_le. destruct p as [a b], q as [c d], r as [e f]; simpl.
  destruct (bool_decide (a = c)) eqn:E1, (bool_decide (c = e)) eqn:E2; bool_facts; subst.
  - rewrite bool_decide_eq_true_2 by done. apply str_le_trans.
  - by rewrite bool_decide_eq_false_2.
  - by rewrite bool_decide_eq_false_2.
  - intros H1 H2. pose proof (str_le_trans _ _ _ H1 H2). case_bool_decide; [|done]. subst.
    by rewrite (str_le_antisym _ _ H1 H2) in E1.
Qed.

Lemma insert_pair_perm p l : Permutation (insert_pair p l) (p :: l).
Proof.
  induction l as [|q l IH]; simpl; [done|]. destruct (pair_le p q); [done|].
  by rewrite IH, Permutation_swap.
Qed.
Lemma sort_pairs_perm l : Permutation (sort_pairs l) l.
Proof. induction l as [|p l IH]; simpl; [done|]. by rewrite insert_pair_perm, IH. Qed.

Lemma insert_pair_sorted p l :
  StronglySorted (fun a b => pair_le a b = true) l ->
  StronglySorted (fun a b => pair_le a b = true) (insert_pair p l).
Proof.
  induction 1 as [|q l Hs IH Hq]; simpl; [repeat constructor|].
  destruct (pair_le p q) eqn:E.
  - constructor; [by constructor|]. constructor; [done|].
    eapply Forall_impl; [exact Hq|]. intros x. by apply pair_le_trans.
  - constructor; [done|]. rewrite insert_pair_perm. constructor; [|done].
    destruct (pair_le_total p q); congruence.
Qed.
Lemma sort_pairs_sorted l : StronglySorted (fun a b => pair_le a b = true) (sort_pairs l).
Proof. induction l; simpl; [constructor|by apply insert_pair_sorted]. Qed.

Lemma sorted_perm_eq (l k : list (string * string)) :
  StronglySorted (fun a b => pair_le a b = true) l ->
  StronglySorted (fun a b => pair_le a b = true) k -> Permutation l k -> l = k.
Proof.
  intros Hl. revert k. induction Hl as [|p l Hl IH Hp]; intros k Hk Hperm.
  { by apply Permutation_nil in Hperm. }
  destruct Hk as [|q k Hk Hq]; [by apply Permutation_sym, Permutation_nil in Hperm|].
  assert (p = q) as ->.
  { assert (In p (q :: k)) as [->|Hin] by (eapply Permutation_in; [exact Hperm|by left]); [done|].
    assert (In q (p :: l)) as [->|Hin'] by
      (eapply Permutation_in; [symmetry; exact Hperm|by left]); [done|].
    rewrite List.Forall_forall in Hp, Hq. by apply pair_le_antisym; auto. }
  f_equal. apply IH; [done|]. by eapply Permutation_cons_inv.
Qed.

(** Sorting forgets the order of the input. *)
Lemma sort_pairs_canonical l k : Permutation l k -> sort_pairs l = sort_pairs k.
Proof.
  intros H. apply sorted_perm_eq; [apply sort_pairs_sorted..|].
  by rewrite !sort_pairs_perm.
Qed.

(** * Request identity *)

(** Source: transports/cache.py, _CREDENTIAL_MARKERS. *)
Definition CACHE_CREDENTIAL_MARKERS : list string :=
  ["authorization"; "cookie"; "password"; "passwd"; "passphrase"; "secret"; "apikey"; "accesskey";
   "privatekey"; "clientkey"; "credential"; "signature"; "token"; "proxyuser"].

(** Source: transports/cache.py, _KEYED_REQUEST_HEADERS. *)
Definition KEYED_REQUEST_HEADERS : list string := ["accept"; "accept-language"; "content-type"].

(** Source: transports/cache.py, _normalized_name. *)
Definition normalized_name (value : string) : string := str_filter is_alnum (str_casefold value).

(** Source: transports/cache.py, _credential_name. *)
Definition credential_name (value : string) : bool :=
  let normalized := normalized_name value in
  bool_decide (normalized ∈ ["auth"; "key"; "sig"])
  || existsb (fun marker => str_contains marker normalized) CACHE_CREDENTIAL_MARKERS.

(** The query parameters of a request: those of its URL, then its own. *)
Definition all_query (r : TransportRequest) (parsed : SplitResult) : list (string * string) :=
  parse_qsl (sr_query parsed) ++ map (fun kv => (kv.1, query_text kv.2)) (r_query r).

(** Source: transports/cache.py, _normalized_url_and_query. *)
Definition normalized_url_and_query (r : TransportRequest)
  : option (string * list (string * string)) :=
  match (parsed ← urlsplit (r_url r); port ← sr_port parsed; Ok (parsed, port)) with
  | Err _ => None
  | Ok (parsed, port) =>
      let scheme := str_casefold (sr_scheme parsed) in
      match sr_hostname parsed with
      | None => None
      | Some host =>
          if negb (bool_decide (scheme ∈ ["http"; "https"])) || is_some (sr_username parsed)
             || is_some (sr_password parsed) then None
          else match idna_encode host with
               | Err _ => None
               | Ok host =>
                   let host := str_casefold host in
                   let host := if str_has ":" host then "[" +:+ host +:+ "]" else host in
                   let default_port :=
                     (bool_decide (scheme = "http") && bool_decide (port ∈ [None; Some 80]))
                     || (bool_decide (scheme = "https") && bool_decide (port ∈ [None; Some 443])) in
                   let authority := if default_port then host
                                    else host +:+ ":" +:+ from_option pretty "None" port in
                   let query := all_query r parsed in
                   if existsb (fun kv => credential_name kv.1) query then None
                   else
                     let normalized_query := sort_pairs query in
                     Some (urlunsplit {| sr_scheme := scheme; sr_netloc := authority;
                                         sr_path := if str_isempty (sr_path parsed) then "/" else sr_path parsed;
                                         sr_query := urlencode normalized_query;
                                         sr_fragment := EmptyString |}, normalized_query)
               end
      end
  end.

(** Source: transports/cache.py, _RequestCacheIdentity. *)
Record CacheIdentity := { ci_key : string; ci_eligible : bool }.

Section identity.
Context (float_repr : pyfloat -> string) (sha256 : string -> string).

(** The body that is hashed. *)
Definition identity_body (r : TransportRequest) : string :=
match r_json_body r with
| Some v => json_dumps float_repr true v
| None => default EmptyString (r_body r)
end.

(** Source: transports/cache.py:157-188, _request_cache_identity. *)
Definition identity_value (r : TransportRequest) (normalized : string * list (string * string)) : json :=
let pairs l := JList (map (fun kv => JList [JStr kv.1; JStr kv.2]) l) in
let relevant := foldl (fun d kv =>
  let name := str_casefold kv.1 in
  if bool_decide (name ∈ KEYED_REQUEST_HEADERS) then dict_set name (JStr kv.2) d else d)
[] (r_headers r) in
JDict [("schema", JInt 3); ("method", JStr (str_upper (r_method r))); ("url", JStr normalized.1);
     ("query", pairs normalized.2); ("headers", JDict relevant);
     ("body", JStr (sha256 (identity_body r)));
     ("browser", JStr (match r_browser r with
                       | HINT_NEVER => "never" | HINT_OPTIONAL => "optional"
                       | HINT_REQUIRED => "required" end));
     ("evaluation", match r_evaluation r with
                    | None => JNull
                    | Some e => JDict [("action_id", JStr (e_action_id e));
                                       ("script_sha256", JStr (sha256 (e_script e)));
                                       ("wait_for", from_option JStr JNull (e_wait_for e));
                                       ("wait_milliseconds", JInt (e_wait_milliseconds e))]
                    end)].

(** Source: transports/cache.py, _request_cache_identity. *)
Definition request_cache_identity (r : TransportRequest) : CacheIdentity :=
let normalized := normalized_url_and_query r in
let has_credential_header := existsb (fun kv => credential_name kv.1) (r_headers r) in
{| ci_key := sha256 (json_dumps float_repr true
                     (identity_value r (default ("[ineligible]", []) normalized)));
 ci_eligible := is_some normalized && negb has_credential_header |}.

(** * The in-memory cache *)

(** Source: transports/cache.py, MemoryResponseCache.__init__. *)
Record MemoryResponseCache := {
mc_maximum_entries : nat;
mc_maximum_response_bytes : Z;
mc_entries : list (string * TransportResponse);
}.

(** Source: transports/cache.py, _MemoryCacheLookup. *)
Record CacheLookup := {
cl_fresh : option TransportResponse;
cl_stale : option TransportResponse;
cl_identity : CacheIdentity;
cl_writable : bool;
}.

(** The copy of a stored response a hit returns. *)
Definition as_hit (t : TransportResponse) : TransportResponse :=
{| t_status := t_status t; t_headers := t_headers t; t_content := t_content t;
 t_final_url := t_final_url t; t_route := route_of ROUTE_CACHE; t_from_cache := true;
 t_elapsed := 0; t_accounting := None |}.

(** Source: transports/cache.py, MemoryResponseCache.get_with_stale. *)
Definition memory_get_with_stale (c : MemoryResponseCache) (r : TransportRequest) : CacheLookup :=
let identity := request_cache_identity r in
let lookup fresh writable :=
{| cl_fresh := fresh; cl_stale := None; cl_identity := identity; cl_writable := writable |} in
if negb (ci_eligible identity) || negb (bool_decide (r_cache r = CACHE_DEFAULT))
then lookup None (ci_eligible identity && negb (bool_decide (r_cache r = CACHE_BYPASS)))
else match od_get (ci_key identity) (mc_entries c) with
   | None => lookup None true
   | Some response => lookup (Some (as_hit response)) true
   end.

(** Source: transports/cache.py, MemoryResponseCache._put. *)
Definition memory_store (c : MemoryResponseCache) (identity : CacheIdentity) (t : TransportResponse)
: result too_large MemoryResponseCache :=
_ ← enforce_response_body_limit t (mc_maximum_response_bytes c);
Ok {| mc_maximum_entries := mc_maximum_entries c;
    mc_maximum_response_bytes := mc_maximum_response_bytes c;
    mc_entries := fifo_put (mc_maximum_entries c) (ci_key identity) t (mc_entries c) |}.

(** Source: transports/cache.py, MemoryResponseCache.put. *)
Definition memory_put (c : MemoryResponseCache) (r : TransportRequest) (t : TransportResponse)
: result too_large MemoryResponseCache :=
let identity := request_cache_identity r in
if negb (ci_eligible identity) || bool_decide (r_cache r = CACHE_BYPASS) then Ok c
else memory_store c identity t.

(** Source: transports/cache.py, _MemoryCacheLookup.put. *)
Definition lookup_put (l : CacheLookup) (c : MemoryResponseCache) (t : TransportResponse)
: result too_large MemoryResponseCache :=
if cl_writable l then memory_store c (cl_identity l) t else Ok c.

(** * Freshness of the file cache *)

(** Source: transports/cache.py:281-286, FileResponseCache.__init__. *)
Record FileResponseCache := {
fc_maximum_age : option Z;
fc_maximum_response_bytes : Z;
}.

(** The tolerated clock skew, in seconds.
Source: transports/cache.py, _MAXIMUM_CLOCK_SKEW_SECONDS. *)
Definition MAXIMUM_CLOCK_SKEW : Z := 300.

(** Source: transports/cache.py, FileResponseCache._age. *)
Definition file_age (now stored_at : Z) : option Z :=
if now <? 0 then None
else let age := now - stored_at in
   if age <? - MAXIMUM_CLOCK_SKEW then None else Some (Z.max 0 age).

(** [read] is the artifact under a key, when it is readable and valid.
Source: transports/cache.py, FileResponseCache.get_with_stale. *)
Definition file_get_with_stale (c : FileResponseCache)
(read : string -> option (TransportResponse * Z)) (now : Z) (r : TransportRequest) : CacheLookup :=
let identity := request_cache_identity r in
let writable := ci_eligible identity && negb (bool_decide (r_cache r = CACHE_BYPASS)) in
let lookup fresh stale :=
{| cl_fresh := fresh; cl_stale := stale; cl_identity := identity; cl_writable := writable |} in
if negb (ci_eligible identity) || negb (bool_decide (r_cache r = CACHE_DEFAULT)) then lookup None None
else match read (ci_key identity) with
   | None => lookup None None
   | Some (response, stored_at) =>
       match file_age now stored_at with
       | None => lookup None None
       | Some age =>
           if negb (within (fc_maximum_age c) age) then lookup None (Some response)
           else lookup (Some response) None
       end
   end.

(** Source: transports/cache.py, FileResponseCache.stale. *)
Definition file_stale (read : string -> option (TransportResponse * Z)) (now : Z) (r : TransportRequest)
: option TransportResponse :=
let identity := request_cache_identity r in
if negb (ci_eligible identity) || negb (bool_decide (r_cache r = CACHE_DEFAULT)) then None
else match read (ci_key identity) with
   | None => None
   | Some (response, stored_at) =>
       match file_age now stored_at with None => None | Some _ => Some response end
   end.
End identity.

(** * Properties *)

Definition with_query (r : TransportRequest) (q : list (string * query_value)) : TransportRequest :=
  {| r_method := r_method r; r_url := r_url r; r_query := q; r_headers := r_headers r;
     r_json_body := r_json_body r; r_body := r_body r; r_purpose := r_purpose r;
     r_priority := r_priority r; r_required := r_required r; r_estimated_bytes := r_estimated_bytes r;
     r_cache := r_cache r; r_browser := r_browser r; r_evaluation := r_evaluation r;
     r_trace_request_id := r_trace_request_id r; r_trace_attempt := r_trace_attempt r |}.

Lemma existsb_perm {A} (f : A -> bool) l k : Permutation l k -> existsb f l = existsb f k.
Proof.
  induction 1; simpl; try congruence. by destruct (f x), (f y).
Qed.

Lemma normalized_query_perm r q :
  Permutation (r_query r) q -> normalized_url_and_query (with_query r q) = normalized_url_and_query r.
Proof.
  intros H. unfold normalized_url_and_query. simpl.
  destruct (parsed ← urlsplit (r_url r); port ← sr_port parsed; Ok (parsed, port)) as [[parsed port]|];
    [|done].
  assert (Hq : Permutation (all_query (with_query r q) parsed) (all_query r parsed)).
  { unfold all_query. apply Permutation_app_head, Permutation_map. by symmetry. }
  by rewrite (existsb_perm _ _ _ Hq), (sort_pairs_canonical _ _ Hq).
Qed.

(** The identity of a cached request does not depend on the order in which
    its query parameters are listed: reordering them finds the same entry. *)
Theorem cache_identity_ignores_query_order float_repr sha256 r q :
  Permutation (r_query r) q ->
  request_cache_identity float_repr sha256 (with_query r q) = request_cache_identity float_repr sha256 r.
Proof.
  intros H. unfold request_cache_identity. by rewrite (normalized_query_perm r q H).
Qed.

Definition two_params (url : string) : TransportRequest :=
  with_query (plain_get url) [("page", QInt 2); ("limit", QInt 50)].

Lemma cache_identity_ignores_query_order_witness :
  request_cache_identity (fun _ => "") (fun s => s)
    (with_query (two_params "https://shop.example/p") [("limit", QInt 50); ("page", QInt 2)])
  = request_cache_identity (fun _ => "") (fun s => s) (two_params "https://shop.example/p").
Proof. apply cache_identity_ignores_query_order. apply perm_swap. Defined.

(** A request that carries a credential where the cache looks for one. *)
Definition carries_credential (r : TransportRequest) : bool :=
  existsb (fun kv => credential_name kv.1) (r_headers r)
  || match urlsplit (r_url r) with
     | Err _ => true
     | Ok parsed => is_some (sr_username parsed) || is_some (sr_password parsed)
                    || existsb (fun kv => credential_name kv.1) (all_query r parsed)
     end.

Lemma carries_credential_ineligible float_repr sha256 r :
  carries_credential r = true -> ci_eligible (request_cache_identity float_repr sha256 r) = false.
Proof.
  unfold carries_credential, request_cache_identity. simpl.
  destruct (existsb _ (r_headers r)); [by rewrite andb_false_r|]. simpl. rewrite andb_true_r.
  unfold normalized_url_and_query. destruct (urlsplit (r_url r)) as [parsed|]; [|done].
  simpl. destruct (sr_port parsed); [|done]. simpl. destruct (sr_hostname parsed) as [host|]; [|done].
  destruct (negb _), (is_some (sr_username parsed)), (is_some (sr_password parsed)); simpl; try done.
  intros ->. by destruct (idna_encode host).
Qed.

(** Requests that carry a credential in a header, in the query or in the
    user information are invisible to the cache: they never hit, and no put,
    direct or through their own lookup, stores anything. *)
Theorem cache_ignores_credentials float_repr sha256 c r t :
  carries_credential r = true ->
  cl_fresh (memory_get_with_stale float_repr sha256 c r) = None
  /\ memory_put float_repr sha256 c r t = Ok c
  /\ lookup_put (memory_get_with_stale float_repr sha256 c r) c t = Ok c
  /\ (forall f read now, cl_fresh (file_get_with_stale float_repr sha256 f read now r) = None
        /\ cl_stale (file_get_with_stale float_repr sha256 f read now r) = None
        /\ cl_writable (file_get_with_stale float_repr sha256 f read now r) = false).
Proof.
  intros H%(carries_credential_ineligible float_repr sha256).
  unfold memory_get_with_stale, memory_put, lookup_put, file_get_with_stale. by rewrite H.
Qed.

Definition with_token : TransportRequest :=
  with_query (plain_get "https://shop.example/p") [("access_token", QStr "s3cret")].
Definition empty_cache : MemoryResponseCache :=
  {| mc_maximum_entries := 1; mc_maximum_response_bytes := 100; mc_entries := [] |}.
Definition html (content : string) : TransportResponse :=
  {| t_status := 200; t_headers := [("Content-Type", "text/html")]; t_content := content;
     t_final_url := "https://shop.example/p"; t_route := route_of ROUTE_PROXY; t_from_cache := false;
     t_elapsed := 12; t_accounting := None |}.

Lemma cache_ignores_credentials_witness :
  carries_credential with_token = true
  /\ memory_put (fun _ => "") (fun s => s) empty_cache with_token (html "x") = Ok empty_cache.
Proof.
  split; [reflexivity|].
  exact (proj1 (proj2 (cache_ignores_credentials (fun _ => "") (fun s => s) empty_cache with_token
                         (html "x") eq_refl))).
Defined.

(** Round trip of the in-memory cache: what a default request stores is
    what its next lookup returns (status, headers and body unchanged, marked as
    served from the cache), entries never exceed their bound, and a response
    above the retention limit is refused with the cache unchanged. *)
Theorem memory_cache_roundtrip float_repr sha256 c r t :
  ci_eligible (request_cache_identity float_repr sha256 r) = true ->
  r_cache r = CACHE_DEFAULT ->
  (0 < mc_maximum_entries c)%nat -> (length (mc_entries c) <= mc_maximum_entries c)%nat ->
  match memory_put float_repr sha256 c r t with
  | Ok c' => content_length t <= mc_maximum_response_bytes c
             /\ cl_fresh (memory_get_with_stale float_repr sha256 c' r) = Some (as_hit t)
             /\ (length (mc_entries c') <= mc_maximum_entries c')%nat
  | Err e => mc_maximum_response_bytes c < content_length t
             /\ tl_received_bytes e = content_length t
  end.
Proof.
  intros He Hd Hpos Hlen. unfold memory_put, memory_store, memory_get_with_stale.
  rewrite He, Hd. simpl. unfold enforce_response_body_limit.
  destruct (mc_maximum_response_bytes c <? content_length t) eqn:E; simpl; bool_facts; [done|].
  rewrite fifo_put_get. split_and!; [lia|done|by apply fifo_put_length].
Qed.

Lemma memory_cache_roundtrip_witness :
  exists c', memory_put (fun _ => "") (fun s => s) empty_cache (two_params "https://shop.example/p") (html "x")
             = Ok c'
    /\ cl_fresh (memory_get_with_stale (fun _ => "") (fun s => s) c' (two_params "https://shop.example/p"))
       = Some (as_hit (html "x")).
Proof.
  eexists. split; [reflexivity|].
  refine (proj1 (proj2 (memory_cache_roundtrip (fun _ => "") (fun s => s) empty_cache
    (two_params "https://shop.example/p") (html "x") _ _ _ _))); solve [reflexivity | simpl; lia].
Defined.

(** Freshness of the file cache: an artifact is served as fresh only while
    its age is within [maximum_age_seconds], never when the clock is negative or
    reads more than the tolerated skew before the artifact was stored; it is
    fresh or stale, never both, and the stale read agrees with the lookup. *)
Theorem file_cache_freshness float_repr sha256 f read now r :
  let l := file_get_with_stale float_repr sha256 f read now r in
  coalesce (cl_fresh l) (cl_stale l) = file_stale float_repr sha256 read now r
  /\ (is_some (cl_fresh l) && is_some (cl_stale l)) = false
  /\ forall t, cl_fresh l = Some t ->
       exists stored_at, read (ci_key (cl_identity l)) = Some (t, stored_at)
         /\ 0 <= now /\ stored_at - MAXIMUM_CLOCK_SKEW <= now
         /\ within (fc_maximum_age f) (Z.max 0 (now - stored_at)) = true.
Proof.
  unfold file_get_with_stale, file_stale. simpl.
  destruct (negb _ || negb _); [by split_and!|].
  destruct (read _) as [[t s]|] eqn:Hr; [|by split_and!].
  unfold file_age. destruct (now <? 0) eqn:E1; [by split_and!|].
  destruct (now - s <? - MAXIMUM_CLOCK_SKEW) eqn:E2; [by split_and!|]. bool_facts.
  destruct (within _ _) eqn:E3; simpl; split_and!; try done.
  intros t' ?; simplify_eq. exists s. split_and!; auto; lia.
Qed.
