(* ===== verification/ProxyHealth.v ===== *)
(** Proxy route health ([commerce-scraper/.../proxy/health.py]): consecutive
    failures open a cool-down that doubles up to a maximum, per provider,
    endpoint and target host, in a bounded least-recently-used table. Times and
    durations are integer ticks. *)
From S2P Require Export BoundedDict.

(** Source: proxy/health.py, ProxyFailureReason. *)
Inductive ProxyFailureReason := F_BLOCKED | F_RATE_LIMITED | F_CAPTCHA | F_TRANSPORT_FAILURE.
#[export] Instance ProxyFailureReason_eq_dec : EqDecision ProxyFailureReason.
Proof. solve_decision. Defined.

(** Source: proxy/health.py, _MutableHealthState. *)
Record HealthState := {
  h_consecutive_failures : Z;
  h_reason_failures : list (ProxyFailureReason * Z);
  h_last_success : option Z;
  h_last_failure : option Z;
  h_cooldown_until : option Z;
}.
Definition fresh_health : HealthState :=
  {| h_consecutive_failures := 0; h_reason_failures := []; h_last_success := None;
     h_last_failure := None; h_cooldown_until := None |}.

(** Provider, endpoint and target host. Source: proxy/health.py, _HealthKey. *)
Definition health_key : Type := string * string * string.

(** Source: proxy/health.py:73-78, InMemoryProxyHealth.__init__. *)
Record InMemoryProxyHealth := {
  hp_initial_cooldown : Z;
  hp_maximum_cooldown : Z;
  hp_maximum_entries : nat;
  hp_maximum_exponent : Z;
  hp_states : list (health_key * HealthState);
}.

(** [max(0, ceil(log2(maximum / initial)))]: the least exponent that reaches the
    maximum. *)
Definition maximum_exponent (initial maximum : Z) : Z :=
  if initial <? maximum then Z.log2_up ((maximum + initial - 1) / initial) else 0.

(** Source: proxy/health.py, InMemoryProxyHealth.__init__. *)
Definition new_health (initial maximum maximum_entries : Z) : result pyexn InMemoryProxyHealth :=
  _ ← ensure (0 <? initial) (ValueError "initial_cooldown must be positive");
  _ ← ensure (0 <? maximum) (ValueError "maximum_cooldown must be positive");
  _ ← ensure (1 <=? maximum_entries) (ValueError "maximum_entries must be a positive integer");
  Ok {| hp_initial_cooldown := initial; hp_maximum_cooldown := maximum;
        hp_maximum_entries := Z.to_nat maximum_entries;
        hp_maximum_exponent := maximum_exponent initial maximum; hp_states := [] |}.

Definition set_states (h : InMemoryProxyHealth) (s : list (health_key * HealthState)) : InMemoryProxyHealth :=
  {| hp_initial_cooldown := hp_initial_cooldown h; hp_maximum_cooldown := hp_maximum_cooldown h;
     hp_maximum_entries := hp_maximum_entries h; hp_maximum_exponent := hp_maximum_exponent h;
     hp_states := s |}.

(** Source: proxy/health.py, InMemoryProxyHealth.snapshot. *)
Definition health_snapshot (h : InMemoryProxyHealth) (k : health_key) : option HealthState :=
  od_get k (hp_states h).

(** Source: proxy/health.py, InMemoryProxyHealth.available. *)
Definition health_available (h : InMemoryProxyHealth) (k : health_key) (now : Z)
  : bool * InMemoryProxyHealth :=
  match od_get k (hp_states h) with
  | None => (true, h)
  | Some state =>
      (match h_cooldown_until state with None => true | Some t => t <=? now end,
       set_states h (od_move_to_end k (hp_states h)))
  end.

(** The state of a key, created (evicting the oldest) or made most recent.
    Source: proxy/health.py, InMemoryProxyHealth._state. *)
Definition health_state (h : InMemoryProxyHealth) (k : health_key) : HealthState * InMemoryProxyHealth :=
  match od_get k (hp_states h) with
  | Some state => (state, set_states h (od_move_to_end k (hp_states h)))
  | None =>
      let kept := if (hp_maximum_entries h <=? length (hp_states h))%nat
                  then drop 1 (hp_states h) else hp_states h in
      (fresh_health, set_states h (kept ++ [(k, fresh_health)]))
  end.

(** Source: proxy/health.py, InMemoryProxyHealth.success. *)
Definition health_success (h : InMemoryProxyHealth) (k : health_key) (now : Z) : InMemoryProxyHealth :=
  let '(state, h) := health_state h k in
  set_states h (od_set k {| h_consecutive_failures := 0; h_reason_failures := h_reason_failures state;
                            h_last_success := Some now; h_last_failure := h_last_failure state;
                            h_cooldown_until := None |} (hp_states h)).

(** The cool-down after a run of [n] consecutive failures. *)
Definition cooldown (h : InMemoryProxyHealth) (n : Z) : Z :=
  let exponent := Z.min (n - 1) (hp_maximum_exponent h) in
  Z.min (hp_maximum_cooldown h) (hp_initial_cooldown h * 2 ^ exponent).

(** Source: proxy/health.py, InMemoryProxyHealth.failure. *)
Definition health_failure (h : InMemoryProxyHealth) (k : health_key) (reason : ProxyFailureReason) (now : Z)
  : InMemoryProxyHealth :=
  let '(state, h) := health_state h k in
  let failures := h_consecutive_failures state + 1 in
  let count := default 0 (od_get reason (h_reason_failures state)) + 1 in
  set_states h (od_set k {| h_consecutive_failures := failures;
                            h_reason_failures := od_set reason count (h_reason_failures state);
                            h_last_success := h_last_success state; h_last_failure := Some now;
                            h_cooldown_until := Some (now + cooldown h failures) |} (hp_states h)).

(** * Facts *)

Definition same_config (h h' : InMemoryProxyHealth) : Prop :=
  hp_initial_cooldown h' = hp_initial_cooldown h /\ hp_maximum_cooldown h' = hp_maximum_cooldown h
  /\ hp_maximum_entries h' = hp_maximum_entries h /\ hp_maximum_exponent h' = hp_maximum_exponent h.

Lemma od_get_move_eq {K V} `{!EqDecision K} (k : K) (v : V) d :
  NoDup (map fst d) -> od_get k d = Some v -> od_get k (od_move_to_end k d) = Some v.
Proof.
  intros Hnd H. unfold od_move_to_end. rewrite H, od_get_app. simpl.
  rewrite bool_decide_eq_true_2 by done.
  assert (od_get k (od_pop k d) = None) as ->; [|done].
  clear H. induction d as [|[k' v'] d IH]; simpl in *; [done|].
  apply NoDup_cons in Hnd as [Hn Hnd]. case_bool_decide as E; simpl.
  - subst. destruct (od_get k d) eqn:Hd; [|done]. exfalso. apply Hn.
    apply od_get_In in Hd. apply list_elem_of_In, in_map_iff. by exists (k, v0).
  - rewrite bool_decide_eq_false_2 by done. auto.
Qed.

Lemma health_state_config h k s h' : health_state h k = (s, h') -> same_config h h'.
Proof. unfold health_state, same_config. destruct (od_get _ _); intros; simplify_eq/=; done. Qed.

Lemma health_state_bound h k s h' :
  (0 < hp_maximum_entries h)%nat -> (length (hp_states h) <= hp_maximum_entries h)%nat ->
  health_state h k = (s, h') ->
  (length (hp_states h') <= hp_maximum_entries h')%nat /\ is_some (od_get k (hp_states h')) = true.
Proof.
  intros Hpos Hlen. unfold health_state. destruct (od_get k (hp_states h)) as [st|] eqn:E;
    intros; simplify_eq; simpl.
  - rewrite od_move_length. split; [done|]. unfold od_move_to_end. rewrite E, od_get_app. simpl.
    rewrite bool_decide_eq_true_2 by done. by destruct (od_get k (od_pop k (hp_states h))).
  - rewrite length_app, od_get_app. simpl. rewrite bool_decide_eq_true_2 by done. split.
    + destruct (_ <=? _)%nat eqn:E2; bool_facts; [rewrite length_drop|]; lia.
    + by case_match.
Qed.

(** The capped exponent reaches the maximum. *)
Lemma maximum_exponent_reaches initial maximum :
  0 < initial -> maximum <= initial * 2 ^ maximum_exponent initial maximum.
Proof.
  intros Hi. unfold maximum_exponent. destruct (initial <? maximum) eqn:E; bool_facts; [|lia].
  set (q := (maximum + initial - 1) / initial).
  assert (Hq : maximum <= initial * q).
  { pose proof (Z.mul_succ_div_gt (maximum + initial - 1) initial Hi). fold q in H. lia. }
  assert (1 <= q) by nia.
  assert (q <= 2 ^ Z.log2_up q).
  { destruct (Z.eq_dec q 1) as [->|]; [simpl; lia|]. apply Z.log2_up_spec. lia. }
  nia.
Qed.

(** The cap on the exponent does not change the cool-down: it only avoids large
    intermediate powers. *)
Lemma cooldown_uncapped h n :
  0 < hp_initial_cooldown h -> 1 <= n ->
  hp_maximum_exponent h = maximum_exponent (hp_initial_cooldown h) (hp_maximum_cooldown h) ->
  cooldown h n = Z.min (hp_maximum_cooldown h) (hp_initial_cooldown h * 2 ^ (n - 1)).
Proof.
  intros Hi Hn He. unfold cooldown.
  destruct (Z.le_gt_cases (n - 1) (hp_maximum_exponent h)) as [H|H]; [by rewrite (Z.min_l (n - 1))|].
  rewrite (Z.min_r (n - 1)) by lia.
  pose proof (maximum_exponent_reaches (hp_initial_cooldown h) (hp_maximum_cooldown h) Hi) as Hr.
  rewrite <- He in Hr.
  assert (hp_initial_cooldown h * 2 ^ hp_maximum_exponent h <= hp_initial_cooldown h * 2 ^ (n - 1)).
  { apply Z.mul_le_mono_nonneg_l; [lia|]. apply Z.pow_le_mono_r; lia. }
  rewrite !Z.min_l by lia. done.
Qed.

(** Consecutive failures at the given times. *)
Fixpoint fail_at (h : InMemoryProxyHealth) (k : health_key) (l : list (ProxyFailureReason * Z))
  : InMemoryProxyHealth :=
  match l with [] => h | (reason, now) :: r => fail_at (health_failure h k reason now) k r end.

(** The tables a process can reach: any sequence of queries and reports. *)
Inductive health_step : InMemoryProxyHealth -> InMemoryProxyHealth -> Prop :=
| hs_available h k now b h' : health_available h k now = (b, h') -> health_step h h'
| hs_success h k now : health_step h (health_success h k now)
| hs_failure h k reason now : health_step h (health_failure h k reason now).

Record health_inv (h : InMemoryProxyHealth) : Prop := {
  hi_entries : (0 < hp_maximum_entries h)%nat;
  hi_bound : (length (hp_states h) <= hp_maximum_entries h)%nat;
  hi_initial : 0 < hp_initial_cooldown h;
  hi_exponent : hp_maximum_exponent h = maximum_exponent (hp_initial_cooldown h) (hp_maximum_cooldown h);
}.

Lemma health_inv_state h k s h' : health_inv h -> health_state h k = (s, h') ->
  health_inv h' /\ same_config h h' /\ is_some (od_get k (hp_states h')) = true.
Proof.
  intros [H1 H2 H3 H4] Hs. pose proof (health_state_config _ _ _ _ Hs) as Hc.
  destruct (health_state_bound _ _ _ _ H1 H2 Hs) as [Hb Hk].
  destruct Hc as (E1 & E2 & E3 & E4). split_and!; [|done|done].
  constructor; try rewrite E1; try rewrite E2; try rewrite E3; try rewrite E4; auto. by rewrite E3 in Hb.
Qed.

Lemma health_inv_set h k v : health_inv h -> is_some (od_get k (hp_states h)) = true ->
  health_inv (set_states h (od_set k v (hp_states h))).
Proof.
  intros [H1 H2 H3 H4] Hk. constructor; simpl; auto. rewrite od_set_length.
  unfold is_none. rewrite Hk. simpl. lia.
Qed.

Lemma health_inv_failure h k reason now : health_inv h -> health_inv (health_failure h k reason now).
Proof.
  intros Hh. unfold health_failure. destruct (health_state h k) as [s h1] eqn:E.
  destruct (health_inv_state _ _ _ _ Hh E) as (H1 & _ & H2). by apply health_inv_set.
Qed.

Lemma health_inv_step h h' : health_inv h -> health_step h h' -> health_inv h'.
Proof.
  intros Hh Hs. destruct Hs as [h k now b h' Ha|h k now|h k reason now].
  - unfold health_available in Ha. destruct (od_get k (hp_states h)) eqn:E; simplify_eq; [|done].
    destruct Hh. constructor; simpl; auto. by rewrite od_move_length.
  - unfold health_success. destruct (health_state h k) as [s h1] eqn:E.
    destruct (health_inv_state _ _ _ _ Hh E) as (H1 & _ & H2). by apply health_inv_set.
  - by apply health_inv_failure.
Qed.

(** The failure counter of a key after a report. *)
Definition failures_of (h : InMemoryProxyHealth) (k : health_key) : Z :=
  from_option h_consecutive_failures 0 (od_get k (hp_states h)).

Definition nodup_keys (h : InMemoryProxyHealth) : Prop := NoDup (map fst (hp_states h)).

(** A report reads the entry of its key before the table is reordered. *)
Lemma health_failure_entry h k reason now :
  exists state, od_get k (hp_states (health_failure h k reason now)) = Some state
    /\ h_consecutive_failures state = failures_of h k + 1
    /\ h_last_failure state = Some now
    /\ h_cooldown_until state = Some (now + cooldown h (failures_of h k + 1)).
Proof.
  unfold health_failure, health_state, failures_of.
  destruct (od_get k (hp_states h)) as [s|] eqn:E; simpl; rewrite od_get_set_eq; eauto.
Qed.

Lemma fail_at_config h k l : health_inv h ->
  health_inv (fail_at h k l) /\ same_config h (fail_at h k l).
Proof.
  revert h. induction l as [|[reason now] l IH]; intros h Hh; [split; [done|by repeat split]|]. simpl.
  pose proof (health_inv_failure h k reason now Hh) as Hf.
  assert (Hc : same_config h (health_failure h k reason now)).
  { unfold health_failure. destruct (health_state h k) eqn:E.
    by apply health_state_config in E. }
  destruct (IH _ Hf) as [H1 H2]. split; [done|]. destruct Hc as (?&?&?&?), H2 as (?&?&?&?).
  repeat split; congruence.
Qed.

Lemma fail_at_failures h k l : failures_of (fail_at h k l) k = failures_of h k + Z.of_nat (length l).
Proof.
  revert h. induction l as [|[reason now] l IH]; intros h; simpl; [lia|]. rewrite IH.
  destruct (health_failure_entry h k reason now) as (s & E & Hs & _).
  unfold failures_of at 1. rewrite E. simpl. lia.
Qed.

(** * Properties *)

(** Cool-down. After [n + 1] failures in a row of a route never seen before,
    the last at time [now], the route is unavailable exactly until
    [now + min maximum (initial * 2^n)];
    the bound on the exponent is invisible, and a success makes the route
    available at once. *)
Theorem health_cooldown_doubles initial maximum entries h k l reason now query :
  new_health initial maximum entries = Ok h ->
  let h' := health_failure (fail_at h k l) k reason now in
  (health_available h' k query).1
  = (now + Z.min maximum (initial * 2 ^ Z.of_nat (length l)) <=? query)
  /\ (health_available (health_success h' k now) k query).1 = true.
Proof.
  intros Hnew h'. unfold new_health in Hnew. step_in Hnew. bool_facts. simplify_eq.
  set (h := {| hp_states := [] |}) in *.
  assert (Hh : health_inv h) by (constructor; simpl; lia).
  destruct (fail_at_config h k l Hh) as [Hinv (F1 & F2 & _ & F4)].
  destruct (health_failure_entry (fail_at h k l) k reason now) as (s & Es & _ & _ & Hc).
  split.
  - unfold health_available. fold h' in Es. rewrite Es. simpl. rewrite Hc, fail_at_failures.
    rewrite cooldown_uncapped; [|apply Hinv| |by apply Hinv].
    + rewrite F1, F2. unfold failures_of. simpl. do 4 f_equal. f_equal. lia.
    + unfold failures_of. simpl. lia.
  - unfold health_success. destruct (health_state h' k) as [s' h1]. unfold health_available. simpl.
    by rewrite od_get_set_eq.
Qed.

Lemma health_cooldown_doubles_witness :
  exists h, new_health 5 300 10 = Ok h
    /\ (health_available (health_failure (fail_at h ("p", "e", "shop.example") [(F_BLOCKED, 1); (F_BLOCKED, 2)])
                            ("p", "e", "shop.example") F_RATE_LIMITED 3) ("p", "e", "shop.example") 22).1
       = (3 + Z.min 300 (5 * 2 ^ 2) <=? 22).
Proof.
  eexists. split; [reflexivity|].
  refine (proj1 (health_cooldown_doubles 5 300 10 _ ("p", "e", "shop.example")
                   [(F_BLOCKED, 1); (F_BLOCKED, 2)] F_RATE_LIMITED 3 22 eq_refl)).
Defined.

(** The health table never exceeds its bound, whatever queries and reports
    are made, and a route that has just been reported is always remembered. *)
Theorem health_table_bounded initial maximum entries h0 h k reason now :
  new_health initial maximum entries = Ok h0 -> reachable health_step h0 h ->
  (length (hp_states h) <= Z.to_nat entries)%nat
  /\ is_some (health_snapshot (health_failure h k reason now) k) = true.
Proof.
  intros Hnew Hr. unfold new_health in Hnew. step_in Hnew. bool_facts. simplify_eq.
  match type of Hr with reachable _ ?a _ => set (h0 := a) in * end.
  assert (health_inv h0) as H0 by (constructor; simpl; lia).
  assert (He : forall s, reachable health_step h0 s -> hp_maximum_entries s = Z.to_nat entries).
  { intros s. induction 1 as [|s s' _ IH Hs]; [done|]. rewrite <- IH.
    destruct Hs as [h1 k1 n1 b h1' Ha|h1 k1 n1|h1 k1 r1 n1].
    - unfold health_available in Ha. by destruct (od_get _ _); simplify_eq.
    - unfold health_success. destruct (health_state h1 k1) eqn:Es. apply health_state_config in Es. apply Es.
    - unfold health_failure. destruct (health_state h1 k1) eqn:Es. apply health_state_config in Es. apply Es. }
  pose proof (reachable_invariant _ _ _ H0 health_inv_step _ Hr) as [_ Hb _ _].
  rewrite (He h Hr) in Hb. split; [done|].
  destruct (health_failure_entry h k reason now) as (s & Es & _). unfold health_snapshot. by rewrite Es.
Qed.

Lemma health_table_bounded_witness :
  exists h, new_health 5 300 1 = Ok h
    /\ (length (hp_states (health_failure h ("p", "e", "a") F_BLOCKED 1)) <= 1)%nat.
Proof.
  eexists. split; [reflexivity|].
  refine (proj1 (health_table_bounded 5 300 1 _ (health_failure _ ("p", "e", "a") F_BLOCKED 1)
                   ("p", "e", "b") F_CAPTCHA 2 eq_refl _)).
  eapply reach_step; [apply reach_refl|]. apply hs_failure.
Defined.
