(* ===== verification/ProxyPool.v ===== *)
(** The static proxy pool ([commerce-scraper/.../proxy/static.py]): eligibility,
    preferred tiers, smooth weighted round-robin, leases, and the request and
    byte caps of a collection that leases share across rotations. The pool's
    usage objects live in a store, because a lease and its authorisations refer
    to the same one. *)
From S2P Require Export ProxyHealth Transport.

(** * Data *)

(** Source: proxy/base.py, ProxyKind. *)
Inductive ProxyKind := RESIDENTIAL | MOBILE | DATACENTER.
#[export] Instance ProxyKind_eq_dec : EqDecision ProxyKind.
Proof. solve_decision. Defined.

(** Source: proxy/base.py, ProxyRequest. *)
Record ProxyRequest := {
  q_source_id : string;
  q_target_host : string;
  q_kind : ProxyKind;
  q_country : option string;
  q_region : option string;
  q_city : option string;
  q_session_ttl_seconds : option Z;
  q_maximum_requests : option Z;
  q_maximum_bytes : option Z;
  q_preferred_providers : list string;
  q_excluded_providers : list string;
}.

(** Source: proxy/base.py, ProxyEndpoint. *)
Record ProxyEndpoint := {
  n_provider : string; n_endpoint_id : string; n_kind : ProxyKind; n_countries : list string;
}.

(** Source: proxy/static.py, StaticRoute. *)
Record StaticRoute := { sr_endpoint : ProxyEndpoint; sr_weight : Z }.
Definition route_key (r : StaticRoute) : string * string :=
  (n_provider (sr_endpoint r), n_endpoint_id (sr_endpoint r)).

(** Source: proxy/static.py, StaticRoute.__post_init__. *)
Definition valid_route (r : StaticRoute) : result pyexn StaticRoute :=
  _ ← ensure (1 <=? sr_weight r) (ValueError "proxy route weight must be a positive integer"); Ok r.

(** Source: proxy/static.py, _StaticProxyUsage. *)
Record Usage := {
  us_maximum_requests : option Z;
  us_maximum_bytes : option Z;
  us_requests : Z;
  us_used_bytes : Z;
  us_reserved_bytes : Z;
  us_next_id : Z;
  us_authorizations : gmap Z Z;
}.
Definition fresh_usage (maximum_requests maximum_bytes : option Z) : Usage :=
  {| us_maximum_requests := maximum_requests; us_maximum_bytes := maximum_bytes; us_requests := 0;
     us_used_bytes := 0; us_reserved_bytes := 0; us_next_id := 0; us_authorizations := ∅ |}.

(** [l_usage] is the reference to the usage object. The pool's leases never
    expire by time. Source: proxy/static.py, StaticProxyLease. *)
Record StaticProxyLease := {
  l_lease_id : Z;
  l_route : ProxyEndpoint;
  l_request : ProxyRequest;
  l_usage : Z;
  l_maximum_bytes : option Z;
  l_released : bool;
}.

(** Source: proxy/base.py, ProxyOutcome. *)
Record ProxyOutcome := {
  po_target_host : string; po_status : option Z; po_physical_requests : Z;
  po_transmitted_bytes : Z; po_received_bytes : Z; po_classification : string;
}.

(** * The caps of one usage object *)

(** The refusal of [authorize]. *)
Definition usage_exhausted (u : Usage) (estimated_bytes : Z) : bool :=
  negb (below (us_maximum_requests u) (us_requests u))
  || negb (within (us_maximum_bytes u) (us_used_bytes u + us_reserved_bytes u + estimated_bytes)).

(** Source: proxy/static.py:208-224, StaticProxyPool.authorize. *)
Definition usage_authorize (u : Usage) (estimated_bytes : Z) : option (Z * Usage) :=
  if usage_exhausted u estimated_bytes then None
  else
    let id := us_next_id u in
    Some (id, {| us_maximum_requests := us_maximum_requests u; us_maximum_bytes := us_maximum_bytes u;
                 us_requests := us_requests u + 1; us_used_bytes := us_used_bytes u;
                 us_reserved_bytes := us_reserved_bytes u + estimated_bytes; us_next_id := id + 1;
                 us_authorizations := <[id := estimated_bytes]> (us_authorizations u) |}).

Inductive pool_exn := PoolError (e : pyexn) | ProxyBudgetExhausted.

(** The caps a reconciled attempt may have broken. *)
Definition usage_broken (u : Usage) : bool :=
  negb (within (us_maximum_requests u) (us_requests u)) || negb (within (us_maximum_bytes u) (us_used_bytes u)).

(** The usage is updated even when the caps turn out to be broken and the call
    raises. Source: proxy/static.py, _StaticProxyAuthorization.reconcile. *)
Definition usage_reconcile (u : Usage) (id : Z) (o : ProxyOutcome) : result pool_exn () * Usage :=
  match us_authorizations u !! id with
  | None => (Err (PoolError (RuntimeError "proxy attempt authorization already resolved")), u)
  | Some estimated =>
      let u := {| us_maximum_requests := us_maximum_requests u; us_maximum_bytes := us_maximum_bytes u;
                  us_requests := us_requests u + (po_physical_requests o - 1);
                  us_used_bytes := us_used_bytes u + (po_transmitted_bytes o + po_received_bytes o);
                  us_reserved_bytes := us_reserved_bytes u - estimated; us_next_id := us_next_id u;
                  us_authorizations := delete id (us_authorizations u) |} in
      (if usage_broken u then Err ProxyBudgetExhausted else Ok (), u)
  end.

(** Source: proxy/static.py, _StaticProxyAuthorization.release. *)
Definition usage_release (u : Usage) (id : Z) : result pool_exn () * Usage :=
  match us_authorizations u !! id with
  | None => (Err (PoolError (RuntimeError "proxy attempt authorization already resolved")), u)
  | Some estimated =>
      (Ok (), {| us_maximum_requests := us_maximum_requests u; us_maximum_bytes := us_maximum_bytes u;
                 us_requests := us_requests u - 1; us_used_bytes := us_used_bytes u;
                 us_reserved_bytes := us_reserved_bytes u - estimated; us_next_id := us_next_id u;
                 us_authorizations := delete id (us_authorizations u) |})
  end.

(** Source: proxy/static.py, StaticProxyLease.can_start. *)
Definition can_start (l : StaticProxyLease) (u : Usage) (estimated_bytes : Z) : bool :=
  negb (l_released l) && below (us_maximum_requests u) (us_requests u)
  && within (l_maximum_bytes l) (us_used_bytes u + us_reserved_bytes u + estimated_bytes).

(** * The pool *)

Definition signature : Type := list (string * string).
#[export] Instance signature_eq_dec : EqDecision signature := _.

(** Source: proxy/static.py:147-154, StaticProxyPool.__init__. *)
Record StaticProxyPool := {
  sp_routes : list StaticRoute;
  sp_health : InMemoryProxyHealth;
  sp_counter : Z;
  sp_routing_scores : list (signature * list (string * string * Z));
  sp_leases : gmap Z StaticProxyLease;
  sp_usages : gmap Z Usage;      (* the usage objects, by reference *)
  sp_next_usage : Z;
}.

(** Source: proxy/static.py, StaticProxyPool.__init__. *)
Definition new_pool (routes : list StaticRoute) (health : InMemoryProxyHealth) : result pyexn StaticProxyPool :=
  _ ← ensure (bool_decide (NoDup (map route_key routes)))
        (ValueError "proxy routes must have unique provider/endpoint identities");
  Ok {| sp_routes := routes; sp_health := health; sp_counter := 1; sp_routing_scores := [];
        sp_leases := ∅; sp_usages := ∅; sp_next_usage := 0 |}.

(** The health query comes last and touches the table.
    Source: proxy/static.py, StaticProxyPool._eligible. *)
Definition eligible (h : InMemoryProxyHealth) (now : Z) (q : ProxyRequest) (r : StaticRoute)
  : bool * InMemoryProxyHealth :=
  let e := sr_endpoint r in
  if negb (bool_decide (n_provider e ∈ q_excluded_providers q)) && bool_decide (n_kind e = q_kind q)
     && match q_country q with
        | None => true
        | Some c => bool_decide (n_countries e = []) || bool_decide (c ∈ n_countries e)
        end
  then health_available h (n_provider e, n_endpoint_id e, q_target_host q) now
  else (false, h).

(** [[route for route in self._routes if self._eligible(route, request)]] *)
Fixpoint eligible_routes (h : InMemoryProxyHealth) (now : Z) (q : ProxyRequest) (routes : list StaticRoute)
  : list StaticRoute * InMemoryProxyHealth :=
  match routes with
  | [] => ([], h)
  | r :: rest =>
      let '(ok, h) := eligible h now q r in
      let '(kept, h) := eligible_routes h now q rest in
      ((if ok then r :: kept else kept), h)
  end.

(** Source: proxy/static.py, StaticProxyPool._preferred_tier. *)
Fixpoint preferred_tier (candidates : list StaticRoute) (preferred : list string) : list StaticRoute :=
  match preferred with
  | [] => candidates
  | p :: rest =>
      match filter (fun r => n_provider (sr_endpoint r) = p) candidates with
      | [] => preferred_tier candidates rest
      | tier => tier
      end
  end.

(** The loop of the weighted selection: the scores, the total weight and the
    best route so far.
    Source: proxy/static.py:279-289, StaticProxyPool._select_weighted. *)
Fixpoint select_loop (candidates : list StaticRoute) (scores : list (string * string * Z)) (total : Z)
  (best : option (StaticRoute * Z)) : list (string * string * Z) * Z * option (StaticRoute * Z) :=
  match candidates with
  | [] => (scores, total, best)
  | r :: rest =>
      let score := default 0 (od_get (route_key r) scores) + sr_weight r in
      let best := match best with
                  | Some (_, s) => if s <? score then Some (r, score) else best
                  | None => Some (r, score)
                  end in
      select_loop rest (od_set (route_key r) score scores) (total + sr_weight r) best
  end.

(** [None] on an empty candidate list.
    Source: proxy/static.py, StaticProxyPool._select_weighted. *)
Definition select_weighted (all : list (signature * list (string * string * Z)))
  (candidates : list StaticRoute)
  : option (StaticRoute * list (signature * list (string * string * Z))) :=
  let sig := map route_key candidates in
  let scores := default (map (fun k => (k, 0)) sig) (od_get sig all) in
  match select_loop candidates scores 0 None with
  | (scores, total, Some (selected, s)) =>
      Some (selected, od_set sig (od_set (route_key selected) (s - total) scores) all)
  | (_, _, None) => None
  end.

Definition set_health (p : StaticProxyPool) (h : InMemoryProxyHealth) : StaticProxyPool :=
  {| sp_routes := sp_routes p; sp_health := h; sp_counter := sp_counter p;
     sp_routing_scores := sp_routing_scores p; sp_leases := sp_leases p; sp_usages := sp_usages p;
     sp_next_usage := sp_next_usage p |}.
Definition set_leases (p : StaticProxyPool) (l : gmap Z StaticProxyLease) : StaticProxyPool :=
  {| sp_routes := sp_routes p; sp_health := sp_health p; sp_counter := sp_counter p;
     sp_routing_scores := sp_routing_scores p; sp_leases := l; sp_usages := sp_usages p;
     sp_next_usage := sp_next_usage p |}.
Definition set_usages (p : StaticProxyPool) (u : gmap Z Usage) : StaticProxyPool :=
  {| sp_routes := sp_routes p; sp_health := sp_health p; sp_counter := sp_counter p;
     sp_routing_scores := sp_routing_scores p; sp_leases := sp_leases p; sp_usages := u;
     sp_next_usage := sp_next_usage p |}.

(** Source: proxy/static.py, StaticProxyPool.acquire. *)
Definition pool_acquire (p : StaticProxyPool) (q : ProxyRequest) (now : Z)
  : result pyexn StaticProxyLease * StaticProxyPool :=
  if is_some (q_region q) || is_some (q_city q) || is_some (q_session_ttl_seconds q)
  then (Err (ValueError "static proxy routes cannot prove requested constraints"), p)
  else
    let '(candidates, h) := eligible_routes (sp_health p) now q (sp_routes p) in
    let p := set_health p h in
    match select_weighted (sp_routing_scores p) (preferred_tier candidates (q_preferred_providers q)) with
    | None => (Err (RuntimeError "no healthy proxy route satisfies the request"), p)
    | Some (selected, scores) =>
        let lease := {| l_lease_id := sp_counter p; l_route := sr_endpoint selected; l_request := q;
                        l_usage := sp_next_usage p; l_maximum_bytes := q_maximum_bytes q;
                        l_released := false |} in
        (Ok lease,
         {| sp_routes := sp_routes p; sp_health := sp_health p; sp_counter := sp_counter p + 1;
            sp_routing_scores := scores; sp_leases := <[sp_counter p := lease]> (sp_leases p);
            sp_usages := <[sp_next_usage p := fresh_usage (q_maximum_requests q) (q_maximum_bytes q)]>
                           (sp_usages p);
            sp_next_usage := sp_next_usage p + 1 |})
    end.

(** Source: proxy/static.py, StaticProxyPool._owned. *)
Definition owned (p : StaticProxyPool) (id : Z) : result pyexn StaticProxyLease :=
  match sp_leases p !! id with
  | Some l => if l_released l then Err (RuntimeError "proxy lease is not active") else Ok l
  | None => Err (RuntimeError "proxy lease is not active")
  end.

(** Source: proxy/static.py, StaticProxyPool.release. *)
Definition pool_release (p : StaticProxyPool) (id : Z) : StaticProxyPool :=
  match sp_leases p !! id with
  | Some l => if l_released l then p else set_leases p (delete id (sp_leases p))
  | None => p
  end.

Definition with_usage (l : StaticProxyLease) (usage : Z) : StaticProxyLease :=
  {| l_lease_id := l_lease_id l; l_route := l_route l; l_request := l_request l; l_usage := usage;
     l_maximum_bytes := l_maximum_bytes l; l_released := l_released l |}.

(** The lease is released before its replacement is acquired, and the
    replacement takes over its usage object.
    Source: proxy/static.py, StaticProxyPool.rotate. *)
Definition pool_rotate (p : StaticProxyPool) (id : Z) (now : Z)
  : result pyexn StaticProxyLease * StaticProxyPool :=
  match owned p id with
  | Err e => (Err e, p)
  | Ok current =>
      match pool_acquire (pool_release p id) (l_request current) now with
      | (Err e, p) => (Err e, p)
      | (Ok replacement, p) =>
          let replacement := with_usage replacement (l_usage current) in
          (Ok replacement, set_leases p (<[l_lease_id replacement := replacement]> (sp_leases p)))
      end
  end.

(** [Ok None] is the refusal; [Ok (Some (usage, id))] names the authorisation.
    Source: proxy/static.py, StaticProxyPool.authorize. *)
Definition pool_authorize (p : StaticProxyPool) (id estimated_bytes : Z)
  : result pyexn (option (Z * Z)) * StaticProxyPool :=
  if estimated_bytes <? 0 then (Err (ValueError "estimated_bytes must be non-negative"), p)
  else match owned p id with
       | Err e => (Err e, p)
       | Ok l =>
           match sp_usages p !! l_usage l with
           | None => (Ok None, p)
           | Some u => match usage_authorize u estimated_bytes with
                       | None => (Ok None, p)
                       | Some (a, u) => (Ok (Some (l_usage l, a)),
                                         set_usages p (<[l_usage l := u]> (sp_usages p)))
                       end
           end
       end.

(** Reconciling goes through the usage the authorisation refers to, whatever
    became of the lease.
    Source: proxy/static.py, _StaticProxyAuthorization.reconcile. *)
Definition pool_reconcile (p : StaticProxyPool) (usage id : Z) (o : ProxyOutcome)
  : result pool_exn () * StaticProxyPool :=
  match sp_usages p !! usage with
  | None => (Err (PoolError (RuntimeError "proxy attempt authorization already resolved")), p)
  | Some u => let '(r, u) := usage_reconcile u id o in (r, set_usages p (<[usage := u]> (sp_usages p)))
  end.

Definition failure_reason (classification : string) : option ProxyFailureReason :=
  if bool_decide (classification = "blocked") then Some F_BLOCKED
  else if bool_decide (classification = "rate_limited") then Some F_RATE_LIMITED
  else if bool_decide (classification = "captcha") then Some F_CAPTCHA
  else if bool_decide (classification = "transport_failure") then Some F_TRANSPORT_FAILURE
  else None.

(** Source: proxy/static.py, StaticProxyPool.report. *)
Definition pool_report (p : StaticProxyPool) (id : Z) (o : ProxyOutcome) (now : Z)
  : result pyexn () * StaticProxyPool :=
  match owned p id with
  | Err e => (Err e, p)
  | Ok l =>
      let k := (n_provider (l_route l), n_endpoint_id (l_route l), po_target_host o) in
      if bool_decide (po_classification o = "success")
      then (Ok (), set_health p (health_success (sp_health p) k now))
      else match failure_reason (po_classification o) with
           | None => (Ok (), p)
           | Some reason => (Ok (), set_health p (health_failure (sp_health p) k reason now))
           end
  end.

(** * Smooth weighted round-robin *)

Definition score_of (scores : list (string * string * Z)) (k : string * string) : Z :=
  default 0 (od_get k scores).
Definition total_weight (candidates : list StaticRoute) : Z := sum_Z (map sr_weight candidates).

Lemma score_of_set k k' v scores :
  score_of (od_set k v scores) k' = if bool_decide (k = k') then v else score_of scores k'.
Proof.
  unfold score_of. case_bool_decide as E.
  - subst. by rewrite od_get_set_eq.
  - by rewrite od_get_set_ne.
Qed.

(** What the loop computes: every candidate gains its weight, and the best
    route has the greatest score. *)
Lemma select_loop_spec candidates : forall scores total best scores' total' best',
  NoDup (map route_key candidates) ->
  select_loop candidates scores total best = (scores', total', best') ->
  total' = total + total_weight candidates
  /\ (forall r, r ∈ candidates -> score_of scores' (route_key r) = score_of scores (route_key r) + sr_weight r)
  /\ (forall k, k ∉ map route_key candidates -> score_of scores' k = score_of scores k)
  /\ (forall r s, best = Some (r, s) -> exists r' s', best' = Some (r', s') /\ s <= s')
  /\ (forall r, r ∈ candidates -> exists r' s', best' = Some (r', s') /\ score_of scores' (route_key r) <= s')
  /\ (forall r' s', best' = Some (r', s') ->
        best = Some (r', s') \/ (r' ∈ candidates /\ s' = score_of scores' (route_key r'))).
Proof.
  induction candidates as [|r rest IH]; intros scores total best scores' total' best' Hnd Hrun; simpl in *.
  { simplify_eq. unfold total_weight. simpl. split_and!; auto; try lia;
      set_solver by eauto with lia. }
  apply NoDup_cons in Hnd as [Hnot Hnd].
  set (score := score_of scores (route_key r) + sr_weight r) in *.
  set (best1 := match best with Some (_, s) => if s <? score then Some (r, score) else best
                | None => Some (r, score) end) in *.
  destruct (IH _ _ _ _ _ _ Hnd Hrun) as (Ht & Hin & Hout & Hb & Hm & Hw).
  assert (Hr : score_of scores' (route_key r) = score).
  { rewrite Hout by done. rewrite score_of_set. by rewrite bool_decide_eq_true_2. }
  assert (Hbest1 : exists r1 s1, best1 = Some (r1, s1) /\ score <= s1
            /\ (forall r0 s0, best = Some (r0, s0) -> s0 <= s1)).
  { unfold best1. destruct best as [[r0 s0]|]; [destruct (s0 <? score) eqn:E; bool_facts|];
      eexists _, _; (split; [done|]); (split; [lia|]); intros; simplify_eq; lia. }
  destruct Hbest1 as (r1 & s1 & E1 & Hs1 & Hs0). destruct (Hb _ _ E1) as (r2 & s2 & E2 & Hs2).
  split_and!.
  - rewrite Ht. unfold total_weight. simpl. lia.
  - intros x [->|Hx]%elem_of_cons; [by rewrite Hr|]. rewrite Hin by done. rewrite score_of_set.
    rewrite bool_decide_eq_false_2; [done|]. intros E. apply Hnot. rewrite E. by apply list_elem_of_fmap_2.
  - intros k Hk. apply not_elem_of_cons in Hk as [Hk1 Hk2]. rewrite Hout by done. rewrite score_of_set.
    by rewrite bool_decide_eq_false_2.
  - intros r0 s0 E. specialize (Hs0 _ _ E). exists r2, s2. split; [done|lia].
  - intros x [->|Hx]%elem_of_cons; [|by apply Hm]. exists r2, s2. split; [done|]. rewrite Hr. lia.
  - intros r' s' E. destruct (Hw _ _ E) as [Hbest|[Hx ->]]; [|right; split; [by right|done]].
    assert (Hcase : best = Some (r', s') \/ (r' = r /\ s' = score)).
    { unfold best1 in Hbest. destruct best as [[? s0]|]; [destruct (s0 <? _)|];
        first [by left|injection Hbest as <- <-; by right]. }
    destruct Hcase as [|[-> ->]]; [by left|]. right. split; [by left|]. by rewrite Hr.
Qed.

(** The sum of the candidates' scores. *)
Definition score_sum (scores : list (string * string * Z)) (candidates : list StaticRoute) : Z :=
  sum_Z (map (fun r => score_of scores (route_key r)) candidates).

Lemma sum_map_add {A} (f g : A -> Z) l : sum_Z (map (fun x => f x + g x) l) = sum_Z (map f l) + sum_Z (map g l).
Proof. induction l; simpl; lia. Qed.

Lemma sum_map_ext {A} (f g : A -> Z) l : (forall x, x ∈ l -> f x = g x) -> sum_Z (map f l) = sum_Z (map g l).
Proof.
  induction l as [|x l IH]; intros H; [done|]. simpl. rewrite (H x) by left.
  rewrite IH; [done|]. intros y Hy. apply H. by right.
Qed.

Lemma sum_map_ge {A} (f : A -> Z) c l : (forall x, x ∈ l -> c <= f x) -> c * Z.of_nat (length l) <= sum_Z (map f l).
Proof.
  induction l as [|x l IH]; intros H; simpl; [lia|].
  pose proof (H x ltac:(left)). specialize (IH ltac:(intros y Hy; apply H; by right)). lia.
Qed.

(** Lowering one of them by [d] lowers the sum by [d]. *)
Lemma score_sum_set scores candidates r v :
  NoDup (map route_key candidates) -> r ∈ candidates ->
  score_sum (od_set (route_key r) v scores) candidates
  = score_sum scores candidates + (v - score_of scores (route_key r)).
Proof.
  unfold score_sum. induction candidates as [|x l IH]; intros Hnd Hr; [by apply elem_of_nil in Hr|].
  simpl. apply NoDup_cons in Hnd as [Hnot Hnd]. rewrite score_of_set.
  apply elem_of_cons in Hr as [->|Hr].
  - rewrite bool_decide_eq_true_2 by done.
    rewrite (sum_map_ext _ (fun r => score_of scores (route_key r)) l); [unfold sum_Z; simpl; lia|].
    intros y Hy. rewrite score_of_set, bool_decide_eq_false_2; [done|].
    intros E. apply Hnot. rewrite E. by apply list_elem_of_fmap_2.
  - rewrite bool_decide_eq_false_2.
    + unfold sum_Z in *. simpl. rewrite IH by done. lia.
    + intros E. apply Hnot. rewrite <- E. by apply list_elem_of_fmap_2.
Qed.

(** [n] selections in a row from the same candidates. *)
Fixpoint selections (n : nat) (all : list (signature * list (string * string * Z)))
  (candidates : list StaticRoute)
  : option (list StaticRoute * list (signature * list (string * string * Z))) :=
  match n with
  | O => Some ([], all)
  | S n => '(picks, all) ← selections n all candidates;
           '(r, all) ← select_weighted all candidates;
           Some (picks ++ [r], all)
  end.

Definition picks_of (k : string * string) (picks : list StaticRoute) : Z :=
  Z.of_nat (length (filter (fun r => route_key r = k) picks)).

Lemma picks_of_snoc k picks r :
  picks_of k (picks ++ [r]) = picks_of k picks + (if bool_decide (route_key r = k) then 1 else 0).
Proof.
  unfold picks_of. rewrite filter_app, length_app, filter_cons, filter_nil.
  case_bool_decide; case_decide; simpl; try done; lia.
Qed.

Section fairness.
Context (candidates : list StaticRoute).
Context (Hne : candidates <> []) (Hnd : NoDup (map route_key candidates))
(Hw : Forall (fun r => 1 <= sr_weight r) candidates).

Definition scores_now (all : list (signature * list (string * string * Z))) : list (string * string * Z) :=
default (map (fun k => (k, 0)) (map route_key candidates)) (od_get (map route_key candidates) all).

(** The invariant of the scores after [picks]. *)
Record fair (picks : list StaticRoute) (all : list (signature * list (string * string * Z))) : Prop := {
fair_sum : score_sum (scores_now all) candidates = 0;
fair_score r : r ∈ candidates -> score_of (scores_now all) (route_key r)
= Z.of_nat (length picks) * sr_weight r - total_weight candidates * picks_of (route_key r) picks;
fair_low r : r ∈ candidates -> - total_weight candidates < score_of (scores_now all) (route_key r);
}.

Lemma weight_pos : 1 <= total_weight candidates.
Proof.
unfold total_weight. destruct candidates as [|r l]; [done|].
apply Forall_cons in Hw as [H1 H2]. simpl.
assert (0 <= sum_Z (map sr_weight l)); [|lia].
apply sum_Z_nonneg, Forall_map. eapply Forall_impl; [exact H2|]. simpl. lia.
Qed.

Lemma zero_scores l k : score_of (map (fun k => (k, 0)) l) k = 0.
Proof.
unfold score_of. induction l as [|k' l IH]; simpl; [done|]. by case_bool_decide.
Qed.

Lemma fair_start : fair [] [].
Proof.
constructor; unfold scores_now; simpl.
- unfold score_sum. rewrite (sum_map_ext _ (fun _ => 0)); [|intros; apply zero_scores].
clear Hne Hnd Hw. induction candidates; simpl; lia.
- intros r _. rewrite zero_scores. unfold picks_of. simpl. lia.
- intros r _. rewrite zero_scores. pose proof weight_pos. lia.
Qed.

Lemma select_fair picks all : fair picks all ->
exists r all', select_weighted all candidates = Some (r, all') /\ fair (picks ++ [r]) all'.
Proof.
intros [Hsum Hscore Hlow]. unfold select_weighted. fold (scores_now all).
destruct (select_loop candidates (scores_now all) 0 None) as [[scores total] best] eqn:Hrun.
destruct (select_loop_spec _ _ _ _ _ _ _ Hnd Hrun) as (Ht & Hin & _ & _ & Hm & Hbest).
assert (Hsome : exists r s, best = Some (r, s)).
{ destruct candidates as [|x l] eqn:E; [done|]. destruct (Hm x) as (r & s & ? & _); [left|eauto]. }
destruct Hsome as (sel & s & ->). destruct (Hbest _ _ eq_refl) as [|[Hsel ->]]; [done|].
pose proof weight_pos as HW. simpl in Ht. subst total.
eexists _, _. split; [reflexivity|].
assert (Hmax : 1 <= score_of scores (route_key sel)).
{ destruct (Z.le_gt_cases 1 (score_of scores (route_key sel))) as [|Hle]; [done|]. exfalso.
assert (Hs : score_sum scores candidates = total_weight candidates).
{ unfold score_sum. rewrite (sum_map_ext _ (fun r => score_of (scores_now all) (route_key r) + sr_weight r)).
  - rewrite sum_map_add. unfold score_sum in Hsum. unfold total_weight. lia.
  - intros r Hr. by apply Hin. }
assert (sum_Z (map (fun r => - score_of scores (route_key r)) candidates) = - total_weight candidates).
{ rewrite <- Hs. unfold score_sum. clear. induction candidates; simpl; lia. }
assert (0 * Z.of_nat (length candidates)
        <= sum_Z (map (fun r => - score_of scores (route_key r)) candidates)); [|lia].
apply sum_map_ge. intros x Hx. destruct (Hm x Hx) as (? & ? & ? & ?). simplify_eq. lia. }
assert (Hnow : forall v, scores_now (od_set (map route_key candidates) v all) = v).
{ intros v. unfold scores_now. by rewrite od_get_set_eq. }
constructor; rewrite Hnow.
- rewrite score_sum_set by done. unfold score_sum.
rewrite (sum_map_ext _ (fun r => score_of (scores_now all) (route_key r) + sr_weight r)) by (intros; by apply Hin).
rewrite sum_map_add. unfold score_sum in Hsum. rewrite Hsum. unfold total_weight. lia.
- intros r Hr. rewrite score_of_set, length_app, picks_of_snoc. simpl.
specialize (Hscore r Hr). specialize (Hin r Hr).
case_bool_decide as E; [rewrite E|]; lia.
- intros r Hr. rewrite score_of_set. case_bool_decide as E; [lia|].
rewrite Hin by done. specialize (Hlow r Hr). eapply Forall_forall in Hw; [|done]. simpl in Hw. lia.
Qed.

Lemma selections_fair n : exists picks all,
selections n [] candidates = Some (picks, all) /\ length picks = n /\ fair picks all.
Proof.
induction n as [|n (picks & all & Hs & Hl & Hf)]; [exists [], []; split_and!; auto; apply fair_start|].
destruct (select_fair picks all Hf) as (r & all' & Hsel & Hf').
exists (picks ++ [r]), all'. simpl. rewrite Hs. simpl. rewrite Hsel. simpl.
split_and!; [done|rewrite length_app; simpl; lia|done].
Qed.
End fairness.

(** * Caps of a collection *)

(** Attempts against one usage object, in any interleaving. The ghost counters
    are the settled physical requests and the bytes by which finished attempts
    exceeded their estimates, and the physical requests beyond the first of
    each attempt. *)
Inductive usage_step : Usage * (Z * Z) -> Usage * (Z * Z) -> Prop :=
| us_authorize u u' id est extra overrun :
    0 <= est -> usage_authorize u est = Some (id, u') ->
    usage_step (u, (extra, overrun)) (u', (extra, overrun))
| us_reconcile u u' id est o r extra overrun :
    0 <= po_physical_requests o -> 0 <= po_transmitted_bytes o -> 0 <= po_received_bytes o ->
    us_authorizations u !! id = Some est -> usage_reconcile u id o = (r, u') ->
    usage_step (u, (extra, overrun))
      (u', (extra + Z.max 0 (po_physical_requests o - 1),
            overrun + Z.max 0 (po_transmitted_bytes o + po_received_bytes o - est)))
| us_release u u' id extra overrun :
    usage_release u id = (Ok (), u') -> usage_step (u, (extra, overrun)) (u', (extra, overrun)).

Record usage_inv (mr mb : option Z) (s : Usage * (Z * Z)) : Prop := {
  ui_mr : us_maximum_requests s.1 = mr;
  ui_mb : us_maximum_bytes s.1 = mb;
  ui_reserved : us_reserved_bytes s.1 = map_sum (us_authorizations s.1);
  ui_nonneg : map_Forall (fun _ v => 0 <= v) (us_authorizations s.1);
  ui_fresh : map_Forall (fun k _ => k < us_next_id s.1) (us_authorizations s.1);
  ui_extra : 0 <= s.2.1;
  ui_overrun : 0 <= s.2.2;
  ui_cap_requests : within mr (us_requests s.1 - s.2.1) = true;
  ui_cap_bytes : within mb (us_used_bytes s.1 + us_reserved_bytes s.1 - s.2.2) = true;
}.

Lemma usage_inv_start mr mb :
  within mr 0 = true -> within mb 0 = true -> usage_inv mr mb (fresh_usage mr mb, (0, 0)).
Proof. intros H1 H2. constructor; simpl; rewrite ?map_sum_empty; done. Qed.

Lemma usage_inv_step mr mb s s' : usage_inv mr mb s -> usage_step s s' -> usage_inv mr mb s'.
Proof.
  intros [Hmr Hmb Hres Hnn Hfr He Ho Hcr Hcb] Hstep.
  destruct Hstep as [u u' id est extra overrun Hest Ha
                    |u u' id est o r extra overrun Hp Ht Hr Hid Hrec
                    |u u' id extra overrun Hrel]; simpl in *.
  - unfold usage_authorize, usage_exhausted in Ha. case_match; [done|]. bool_facts. simplify_eq/=.
    pose proof (fresh_lookup _ _ Hfr) as Hnone.
    constructor; simpl; try done.
    + rewrite map_sum_insert by done. lia.
    + by apply map_Forall_insert_2.
    + apply map_Forall_insert_2; [lia|]. eapply map_Forall_impl; [exact Hfr|]. simpl. lia.
    + destruct (us_maximum_requests u); simpl in *; [apply Z.leb_le; bool_facts; lia|done].
    + destruct (us_maximum_bytes u); simpl in *; [apply Z.leb_le; bool_facts; lia|done].
  - unfold usage_reconcile in Hrec. rewrite Hid in Hrec. simplify_eq/=.
    pose proof (map_sum_delete _ _ _ Hid).
    constructor; simpl; try done; try lia; try by apply map_Forall_delete.
    + eapply within_mono; [|exact Hcr]. lia.
    + eapply within_mono; [|exact Hcb]. lia.
  - unfold usage_release in Hrel. case_match eqn:Hid; [|done]. simplify_eq/=.
    pose proof (map_sum_delete _ _ _ Hid). pose proof (map_sum_lookup_le _ _ _ Hnn Hid).
    specialize (Hnn _ _ Hid) as Hz. simpl in Hz.
    constructor; simpl; try done; try lia; try by apply map_Forall_delete.
    + eapply within_mono; [|exact Hcr]. lia.
    + eapply within_mono; [|exact Hcb]. lia.
Qed.

(** * Leases *)

(** The pool operations a client can interleave. *)
Inductive pool_step : StaticProxyPool -> StaticProxyPool -> Prop :=
| pst_acquire p q now r p' : pool_acquire p q now = (r, p') -> pool_step p p'
| pst_rotate p id now r p' : pool_rotate p id now = (r, p') -> pool_step p p'
| pst_authorize p id est r p' : pool_authorize p id est = (r, p') -> pool_step p p'
| pst_reconcile p usage id o r p' : pool_reconcile p usage id o = (r, p') -> pool_step p p'
| pst_report p id o now r p' : pool_report p id o now = (r, p') -> pool_step p p'
| pst_release p id : pool_step p (pool_release p id).

(** Identifiers are never reused, leases in the table are not released, and
    each refers to a usage object of its own. *)
Record pool_inv (p : StaticProxyPool) : Prop := {
  pl_ids : map_Forall (fun k l => l_lease_id l = k /\ k < sp_counter p /\ l_released l = false) (sp_leases p);
  pl_usages : map_Forall (fun _ l => is_Some (sp_usages p !! l_usage l)) (sp_leases p);
  pl_fresh : map_Forall (fun k _ => k < sp_next_usage p) (sp_usages p);
  pl_own : forall k1 k2 l1 l2, sp_leases p !! k1 = Some l1 -> sp_leases p !! k2 = Some l2 ->
             l_usage l1 = l_usage l2 -> k1 = k2;
}.

Lemma pool_inv_leases p p' : pool_inv p -> sp_leases p' = sp_leases p -> sp_counter p' = sp_counter p ->
  sp_next_usage p' = sp_next_usage p -> (forall u, is_Some (sp_usages p' !! u) <-> is_Some (sp_usages p !! u)) ->
  pool_inv p'.
Proof.
  intros [H1 H2 H3 H4] E1 E2 E3 E4. constructor; rewrite ?E1, ?E2, ?E3; auto.
  - eapply map_Forall_impl; [exact H2|]. simpl. intros k l. apply E4.
  - intros u v Hu. destruct (proj1 (E4 u) (mk_is_Some _ _ Hu)) as [v' Hv']. by apply (H3 u v').
Qed.

Lemma pool_inv_delete p id : pool_inv p -> pool_inv (set_leases p (delete id (sp_leases p))).
Proof.
  intros [H1 H2 H3 H4]. constructor; simpl; try (by apply map_Forall_delete); auto.
  intros k1 k2 l1 l2 Hk1 Hk2. rewrite lookup_delete_Some in Hk1, Hk2. destruct Hk1, Hk2. by apply H4.
Qed.

Lemma pool_inv_release p id : pool_inv p -> pool_inv (pool_release p id).
Proof.
  intros H. unfold pool_release. destruct (sp_leases p !! id) as [l|]; [|done].
  destruct (l_released l); [done|by apply pool_inv_delete].
Qed.

(** What a successful acquisition does. *)
Lemma pool_acquire_Ok p q now l p' :
  pool_acquire p q now = (Ok l, p') ->
  l_lease_id l = sp_counter p /\ l_usage l = sp_next_usage p /\ l_request l = q /\ l_released l = false
  /\ sp_leases p' = <[sp_counter p := l]> (sp_leases p)
  /\ sp_usages p' = <[sp_next_usage p := fresh_usage (q_maximum_requests q) (q_maximum_bytes q)]> (sp_usages p)
  /\ sp_counter p' = sp_counter p + 1 /\ sp_next_usage p' = sp_next_usage p + 1.
Proof.
  unfold pool_acquire. intros H. step_in H; try simplify_eq; done.
Qed.

Lemma pool_acquire_Err p q now e p' :
  pool_acquire p q now = (Err e, p') ->
  sp_leases p' = sp_leases p /\ sp_usages p' = sp_usages p /\ sp_counter p' = sp_counter p
  /\ sp_next_usage p' = sp_next_usage p.
Proof. unfold pool_acquire. intros H. step_in H; try simplify_eq; done. Qed.

Lemma pool_inv_acquire p q now r p' : pool_inv p -> pool_acquire p q now = (r, p') -> pool_inv p'.
Proof.
  intros Hp Hacq. destruct r as [l|e].
  2:{ destruct (pool_acquire_Err _ _ _ _ _ Hacq) as (E1 & E2 & E3 & E4).
      eapply pool_inv_leases; eauto. intros u. by rewrite E2. }
  destruct (pool_acquire_Ok _ _ _ _ _ Hacq) as (E1 & E2 & _ & E3 & E4 & E5 & E6 & E7).
  destruct Hp as [H1 H2 H3 H4].
  assert (Hfresh : forall k x, sp_leases p !! k = Some x -> k <> sp_counter p).
  { intros k x Hk ->. specialize (H1 _ _ Hk). simpl in H1. lia. }
  assert (Hold : forall k x, sp_leases p !! k = Some x -> l_usage x <> sp_next_usage p).
  { intros k x Hk E. destruct (H2 _ _ Hk) as [v Hv]. rewrite E in Hv. specialize (H3 _ _ Hv). simpl in H3. lia. }
  constructor; rewrite ?E4, ?E5, ?E6, ?E7.
  - apply map_Forall_insert_2; [split_and!; [done|lia|done]|].
    eapply map_Forall_impl; [exact H1|]. simpl. intros k x (? & ? & ?). split_and!; [done|lia|done].
  - apply map_Forall_insert_2; [rewrite E2, lookup_insert_eq; eauto|].
    eapply map_Forall_impl; [exact H2|]. simpl. intros k x [v Hv].
    destruct (decide (l_usage x = sp_next_usage p)) as [->|]; [rewrite lookup_insert_eq; eauto|].
    rewrite lookup_insert_ne by done. eauto.
  - apply map_Forall_insert_2; [lia|]. eapply map_Forall_impl; [exact H3|]. simpl. lia.
  - intros k1 k2 l1 l2 Hk1 Hk2 Hu. rewrite lookup_insert_Some in Hk1, Hk2.
    destruct Hk1 as [[<- <-]|[? Hk1]], Hk2 as [[<- <-]|[? Hk2]]; [done| | |by eapply H4].
    + by destruct (Hold _ _ Hk2); rewrite <- Hu, E2.
    + by destruct (Hold _ _ Hk1); rewrite Hu, E2.
Qed.

Lemma owned_Ok p id l : pool_inv p -> owned p id = Ok l -> sp_leases p !! id = Some l /\ l_released l = false.
Proof. intros _. unfold owned. intros H. step_in H. done. Qed.

(** A rotation swaps the lease and keeps its usage object. *)
Lemma pool_rotate_Ok p id now r p' :
  pool_inv p -> pool_rotate p id now = (Ok r, p') ->
  exists current, sp_leases p !! id = Some current /\ l_usage r = l_usage current
    /\ l_request r = l_request current /\ l_lease_id r = sp_counter p
    /\ sp_leases p' !! id = None
    /\ sp_leases p' !! sp_counter p = Some r
    /\ sp_usages p' !! l_usage current = sp_usages p !! l_usage current.
Proof.
  intros Hp. unfold pool_rotate. destruct (owned p id) as [current|] eqn:Ho; [|done].
  destruct (owned_Ok _ _ _ Hp Ho) as [Hl Hrel].
  unfold pool_release. rewrite Hl, Hrel.
  destruct (pool_acquire _ (l_request current) now) as [[l|] p1] eqn:Hacq; [|done]. intros; simplify_eq.
  destruct (pool_acquire_Ok _ _ _ _ _ Hacq) as (E1 & E2 & E3 & E4 & E5 & E6 & E7 & E8). simpl in *.
  exists current. split_and!; try done.
  - rewrite E5. destruct Hp as [H1 _ _ _]. specialize (H1 _ _ Hl) as (_ & Hlt & _).
    rewrite E1. rewrite !lookup_insert_ne by lia. by rewrite lookup_delete_eq.
  - by rewrite E1, lookup_insert_eq.
  - rewrite E6. destruct Hp as [_ H2 H3 _]. destruct (H2 _ _ Hl) as [v Hv].
    specialize (H3 _ _ Hv). simpl in H3. by rewrite lookup_insert_ne by lia.
Qed.

Lemma pool_inv_rotate p id now r p' : pool_inv p -> pool_rotate p id now = (r, p') -> pool_inv p'.
Proof.
  intros Hp. unfold pool_rotate. destruct (owned p id) as [current|] eqn:Ho; [|intros; by simplify_eq].
  destruct (owned_Ok _ _ _ Hp Ho) as [Hl Hrel]. unfold pool_release. rewrite Hl, Hrel.
  pose proof (pool_inv_delete p id Hp) as Hd.
  destruct (pool_acquire _ (l_request current) now) as [[l|] p1] eqn:Hacq; intros; simplify_eq;
    [|by eapply pool_inv_acquire].
  pose proof (pool_inv_acquire _ _ _ _ _ Hd Hacq) as [H1 H2 H3 H4].
  destruct (pool_acquire_Ok _ _ _ _ _ Hacq) as (E1 & E2 & _ & _ & E5 & E6 & E7 & _). simpl in *.
  rewrite E5, E1 in *. rewrite insert_insert_eq.
  destruct Hp as [G1 G2 G3 G4]. destruct (G2 _ _ Hl) as [v Hv].
  assert (Hu : forall k x, delete id (sp_leases p) !! k = Some x -> l_usage x <> l_usage current).
  { intros k x [? Hk]%lookup_delete_Some E. by destruct (G4 _ _ _ _ Hk Hl E). }
  constructor; simpl; rewrite ?E7 in *; auto.
  - apply map_Forall_insert_2.
    + specialize (H1 (sp_counter p) l ltac:(by rewrite lookup_insert_eq)). simpl in H1. apply H1.
    + apply map_Forall_delete. eapply map_Forall_impl; [exact G1|]. simpl.
      intros k x (? & ? & ?). split_and!; [done|lia|done].
  - apply map_Forall_insert_2.
    + simpl. rewrite E6. destruct (decide (sp_next_usage p = l_usage current)) as [<-|];
        [rewrite lookup_insert_eq; eauto|rewrite lookup_insert_ne by done; eauto].
    + intros k x Hk. rewrite E6. specialize (Hu k x Hk). apply lookup_delete_Some in Hk as [_ Hk].
      destruct (G2 _ _ Hk) as [v' Hv'].
      destruct (decide (sp_next_usage p = l_usage x)) as [<-|];
        [rewrite lookup_insert_eq; eauto|rewrite lookup_insert_ne by done; eauto].
  - intros k1 k2 l1 l2 Hk1 Hk2 E. rewrite lookup_insert_Some in Hk1, Hk2.
    destruct Hk1 as [[<- <-]|[? Hk1]], Hk2 as [[<- <-]|[? Hk2]]; [done| | |].
    + by destruct (Hu _ _ Hk2).
    + by destruct (Hu _ _ Hk1).
    + rewrite lookup_delete_Some in Hk1, Hk2. destruct Hk1, Hk2. by eapply G4.
Qed.

Lemma pool_inv_step p p' : pool_inv p -> pool_step p p' -> pool_inv p'.
Proof.
  intros Hp Hs. destruct Hs as [p q now r p' H|p id now r p' H|p id est r p' H|p usage id o r p' H
                               |p id o now r p' H|p id].
  - by eapply pool_inv_acquire.
  - by eapply pool_inv_rotate.
  - unfold pool_authorize in H. destruct (est <? 0); [by simplify_eq|].
    destruct (owned p id) as [l|]; [|by simplify_eq].
    destruct (sp_usages p !! l_usage l) as [u|] eqn:Eu; [|by simplify_eq].
    destruct (usage_authorize u est) as [[a u']|]; simplify_eq; [|done].
    eapply pool_inv_leases; [done..|]. intros x. simpl.
    destruct (decide (l_usage l = x)) as [<-|]; [|by rewrite lookup_insert_ne].
    rewrite lookup_insert_eq. split; eauto.
  - unfold pool_reconcile in H. destruct (sp_usages p !! usage) eqn:E; [|by simplify_eq].
    destruct (usage_reconcile _ _ _) as [r' u']. simplify_eq.
    eapply pool_inv_leases; [done..|]. intros x. simpl.
    destruct (decide (usage = x)) as [<-|]; [|by rewrite lookup_insert_ne].
    rewrite lookup_insert_eq. split; eauto.
  - unfold pool_report in H. step_in H; try simplify_eq; try done; by eapply pool_inv_leases.
  - by apply pool_inv_release.
Qed.

Lemma pool_inv_start routes h p : new_pool routes h = Ok p -> pool_inv p.
Proof.
  unfold new_pool. intros H. step_in H. simplify_eq.
  constructor; simpl; try apply map_Forall_empty. intros k1 k2 l1 l2 Hk. by rewrite lookup_empty in Hk.
Qed.

(** * Properties *)

(** Smooth weighted round-robin is fair: from fresh scores, any number [n]
    of selections among the same routes succeeds, no route is selected as much
    as one time more than its share [n * weight / total], and none falls behind
    by more than the number of other routes. *)
Theorem weighted_round_robin_fair candidates n :
  candidates <> [] -> NoDup (map route_key candidates) ->
  Forall (fun r => 1 <= sr_weight r) candidates ->
  exists picks all, selections n [] candidates = Some (picks, all) /\ length picks = n
    /\ forall r, r ∈ candidates ->
         total_weight candidates * picks_of (route_key r) picks
           <= Z.of_nat n * sr_weight r + (total_weight candidates - 1)
         /\ Z.of_nat n * sr_weight r - (Z.of_nat (length candidates) - 1) * (total_weight candidates - 1)
           <= total_weight candidates * picks_of (route_key r) picks.
Proof.
  intros Hne Hnd Hw. destruct (selections_fair candidates Hne Hnd Hw n) as (picks & all & Hs & Hl & [Hsum Hsc Hlow]).
  exists picks, all. split_and!; [done|done|]. intros r Hr.
  specialize (Hsc r Hr) as Hr1. rewrite Hl in Hr1. specialize (Hlow r Hr) as Hr2. split; [lia|].
  set (W := total_weight candidates) in *. set (sc := scores_now candidates all) in *.
  assert (Hrest : - (W - 1) * (Z.of_nat (length candidates) - 1)
                  <= score_sum sc candidates - score_of sc (route_key r)); [|lia].
  assert (Hset := score_sum_set sc candidates r (- (W - 1)) Hnd Hr).
  assert (- (W - 1) * Z.of_nat (length candidates)
          <= score_sum (od_set (route_key r) (- (W - 1)) sc) candidates).
  { apply sum_map_ge. intros x Hx. rewrite score_of_set. case_bool_decide; [lia|].
    specialize (Hlow x Hx). lia. }
  lia.
Qed.

Definition route_of_provider (provider : string) (weight : Z) : StaticRoute :=
  {| sr_endpoint := {| n_provider := provider; n_endpoint_id := "1"; n_kind := RESIDENTIAL; n_countries := [] |};
     sr_weight := weight |}.

Lemma weighted_round_robin_fair_witness :
  exists picks all, selections 4 [] [route_of_provider "a" 3; route_of_provider "b" 1] = Some (picks, all)
    /\ length picks = 4%nat.
Proof.
  destruct (weighted_round_robin_fair [route_of_provider "a" 3; route_of_provider "b" 1] 4)
    as (picks & all & H1 & H2 & _); [discriminate| |repeat constructor; simpl; lia|].
  - apply (bool_decide_unpack _). vm_compute. exact I.
  - exists picks, all. split; assumption.
Defined.

(** Caps of a collection, for the lifetime of its usage object: whatever the
    interleaving of authorisations, reconciliations and releases, the requests
    counted exceed the cap only by what attempts performed beyond their first
    physical request, and the bytes used plus reserved exceed it only by what
    finished attempts used beyond their estimates. *)
Theorem collection_caps_hold mr mb u extra overrun :
  within mr 0 = true -> within mb 0 = true ->
  reachable usage_step (fresh_usage mr mb, (0, 0)) (u, (extra, overrun)) ->
  within mr (us_requests u - extra) = true
  /\ within mb (us_used_bytes u + us_reserved_bytes u - overrun) = true
  /\ us_reserved_bytes u = map_sum (us_authorizations u).
Proof.
  intros H1 H2 Hr.
  destruct (reachable_invariant usage_step (usage_inv mr mb) _ (usage_inv_start mr mb H1 H2)
              (usage_inv_step mr mb) _ Hr); auto.
Qed.

Definition one_attempt : Usage :=
  default (fresh_usage None None) (snd <$> usage_authorize (fresh_usage (Some 1) (Some 100)) 60).

Lemma collection_caps_hold_witness :
  us_requests one_attempt = 1 /\ within (Some 1) (us_requests one_attempt - 0) = true.
Proof.
  split; [reflexivity|].
  refine (proj1 (collection_caps_hold (Some 1) (Some 100) one_attempt 0 0 eq_refl eq_refl _)).
  eapply reach_step; [apply reach_refl|]. apply (us_authorize _ _ 0 60); [lia|reflexivity].
Defined.

(** Rotation. In every reachable pool, a successful rotation retires the old
    lease for good, and hands its usage object, with everything already counted
    against the caps, to a lease with a new identifier; a retired lease can no
    longer be authorised, reported or rotated. *)
Theorem pool_rotation_keeps_usage routes h p0 p id now r p' est :
  new_pool routes h = Ok p0 -> reachable pool_step p0 p ->
  pool_rotate p id now = (Ok r, p') ->
  (exists current, sp_leases p !! id = Some current /\ l_usage r = l_usage current
     /\ l_request r = l_request current /\ sp_usages p' !! l_usage r = sp_usages p !! l_usage current)
  /\ l_lease_id r <> id /\ sp_leases p' !! l_lease_id r = Some r
  /\ is_ok (owned p' id) = false /\ is_ok (pool_authorize p' id est).1 = false
  /\ is_ok (pool_rotate p' id now).1 = false.
Proof.
  intros Hnew Hr Hrot.
  pose proof (reachable_invariant pool_step pool_inv _ (pool_inv_start _ _ _ Hnew) pool_inv_step _ Hr) as Hp.
  destruct (pool_rotate_Ok _ _ _ _ _ Hp Hrot) as (cur & H1 & H2 & H3 & H4 & H5 & H6 & H7).
  destruct Hp as [Hids _ _ _]. specialize (Hids _ _ H1) as (_ & Hlt & _).
  assert (Hno : owned p' id = Err (RuntimeError "proxy lease is not active")) by (unfold owned; by rewrite H5).
  split_and!.
  - exists cur. split_and!; [done..|]. by rewrite H2.
  - lia.
  - by rewrite H4.
  - by rewrite Hno.
  - unfold pool_authorize. destruct (est <? 0); [done|]. by rewrite Hno.
  - unfold pool_rotate. by rewrite Hno.
Qed.

Definition example_health : InMemoryProxyHealth :=
  {| hp_initial_cooldown := 5; hp_maximum_cooldown := 300; hp_maximum_entries := 10;
     hp_maximum_exponent := maximum_exponent 5 300; hp_states := [] |}.
Definition example_pool : StaticProxyPool :=
  {| sp_routes := [route_of_provider "a" 1]; sp_health := example_health; sp_counter := 1;
     sp_routing_scores := []; sp_leases := ∅; sp_usages := ∅; sp_next_usage := 0 |}.
Definition example_request : ProxyRequest :=
  {| q_source_id := "s"; q_target_host := "shop.example"; q_kind := RESIDENTIAL; q_country := None;
     q_region := None; q_city := None; q_session_ttl_seconds := None; q_maximum_requests := Some 1;
     q_maximum_bytes := None; q_preferred_providers := []; q_excluded_providers := [] |}.
Definition leased_pool : StaticProxyPool := (pool_acquire example_pool example_request 0).2.

Lemma pool_rotation_keeps_usage_witness :
  exists r p', pool_rotate leased_pool 1 0 = (Ok r, p') /\ is_ok (owned p' 1) = false.
Proof.
  eexists _, _. split; [vm_compute; reflexivity|].
  refine (proj1 (proj2 (proj2 (proj2 (pool_rotation_keeps_usage [route_of_provider "a" 1] example_health
    example_pool leased_pool 1 0 _ _ 0 _ _ _))))).
  - vm_compute. reflexivity.
  - eapply reach_step; [apply reach_refl|]. eapply (pst_acquire _ example_request 0). reflexivity.
  - vm_compute. reflexivity.
Defined.

(** One cap, one attempt used up, then the sequence of a rotation that finds no
    healthy route and a later acquisition for the same collection. *)
Definition spent_pool : StaticProxyPool :=
  let p := (pool_authorize leased_pool 1 10).2 in
  (pool_reconcile p 0 0 {| po_target_host := "shop.example"; po_status := Some 403; po_physical_requests := 1;
     po_transmitted_bytes := 5; po_received_bytes := 5; po_classification := "blocked" |}).2.
Definition blocked_pool : StaticProxyPool :=
  (pool_report spent_pool 1 {| po_target_host := "shop.example"; po_status := Some 403;
     po_physical_requests := 1; po_transmitted_bytes := 5; po_received_bytes := 5;
     po_classification := "blocked" |} 0).2.
Definition orphaned_pool : StaticProxyPool := (pool_rotate blocked_pool 1 1).2.
Definition reacquired_pool : StaticProxyPool := (pool_acquire orphaned_pool example_request 6).2.

(** A rotation that finds no healthy route loses the collection's usage: the
    lease is gone, and the next acquisition for the same request starts its
    caps from zero, so a collection capped at one request is authorised a
    second one. *)
Theorem failed_rotation_resets_caps :
  (pool_authorize spent_pool 1 10).1 = Ok None
  /\ is_ok (pool_rotate blocked_pool 1 1).1 = false
  /\ sp_leases orphaned_pool = ∅
  /\ (pool_authorize reacquired_pool 2 10).1 = Ok (Some (1, 0)).
Proof. by vm_compute. Qed.
