(* ===== verification/RoutedTransport.v ===== *)
(** Direct/proxy routing with one sticky lease
    ([commerce-scraper/.../proxy/transport.py]): one proxied attempt with its
    authorisation and cleanup, and the checkout, replacement, rotation and
    closing of the shared route as a step relation over concurrent tasks. *)
From S2P Require Export Middleware ProxyPool Models.

(** * One proxied attempt *)

Inductive proxy_action :=
| PA_authorize (id : option Z)
| PA_dispatch
| PA_report (o : ProxyOutcome)
| PA_schedule (reason : RotationReason)
| PA_reconcile (id : Z) (o : ProxyOutcome)
| PA_release (id : Z)
| PA_checkin.

Record attempt_locals := {
  al_authorization : option Z; al_dispatched : bool; al_outcome : option ProxyOutcome;
}.
Record attempt_st (W : Type) := { at_world : W; at_trace : list proxy_action; at_loc : attempt_locals }.
Arguments at_world {W} _.
Arguments at_trace {W} _.
Arguments at_loc {W} _.
Arguments Build_attempt_st {W} _ _ _.

(** The checked-out route. Source: proxy/transport.py, _CheckedOutRoute. *)
Record CheckedOutRoute := { co_generation : Z; co_lease : StaticProxyLease }.

(** The pool, the leased transport and the route bookkeeping. *)
Record ProxyEnv (W : Type) := {
  y_float_repr : pyfloat -> string;
  y_authorize : Z -> eff W mw_exn (option Z);
  y_send : TransportRequest -> eff W mw_exn TransportResponse;
  y_report : ProxyOutcome -> eff W mw_exn ();
  y_reconcile : Z -> ProxyOutcome -> eff W mw_exn ();
  y_release : Z -> eff W mw_exn ();
  y_schedule : RotationReason -> eff W mw_exn ();
  y_checkin : eff W mw_exn ();
}.
Arguments y_float_repr {W} _.
Arguments y_authorize {W} _.
Arguments y_send {W} _.
Arguments y_report {W} _.
Arguments y_reconcile {W} _.
Arguments y_release {W} _.
Arguments y_schedule {W} _.
Arguments y_checkin {W} _.

Section attempt.
Context {W : Type} (env : ProxyEnv W).
Context (target_host : string) (failover : bool).
#[local] Abbreviation M := (eff (attempt_st W) mw_exn).

Definition pcall {A} (m : eff W mw_exn A) : M A := fun s =>
match m (at_world s) with (r, w) => (r, Build_attempt_st w (at_trace s) (at_loc s)) end.
Definition plog (a : proxy_action) : M () :=
modify (fun s => Build_attempt_st (at_world s) (at_trace s ++ [a]) (at_loc s)).
Definition pset (f : attempt_locals -> attempt_locals) : M () :=
modify (fun s => Build_attempt_st (at_world s) (at_trace s) (f (at_loc s))).
Definition pget {A} (f : attempt_locals -> A) : M A := gets (fun s => f (at_loc s)).

Definition set_authorization (id : Z) : M () := pset (fun l =>
{| al_authorization := Some id; al_dispatched := al_dispatched l; al_outcome := al_outcome l |}).
Definition set_sent : M () := pset (fun l =>
{| al_authorization := al_authorization l; al_dispatched := true; al_outcome := al_outcome l |}).
Definition set_outcome (o : ProxyOutcome) : M () := pset (fun l =>
{| al_authorization := al_authorization l; al_dispatched := al_dispatched l; al_outcome := Some o |}).

Definition pestimated (r : TransportRequest) : M Z :=
lift (match estimated_transmitted_bytes (y_float_repr env) r with
    | Ok n => Ok n
    | Err _ => Err (X_Exception "ValueError" None)
    end).

(** Source: proxy/transport.py, RoutedTransport._attempt_accounting. *)
Definition attempt_accounting (r : TransportRequest) (given : option TransportAccounting)
(received_bytes : Z) : M TransportAccounting :=
minimum ← pestimated r;
mret (match given with
    | Some a => {| a_physical_requests := Z.max 1 (a_physical_requests a);
                   a_transmitted_bytes := Z.max minimum (a_transmitted_bytes a);
                   a_received_bytes := Z.max received_bytes (a_received_bytes a) |}
    | None => {| a_physical_requests := 1; a_transmitted_bytes := minimum;
                 a_received_bytes := received_bytes |}
    end).

Definition outcome_of (status : option Z) (a : TransportAccounting) (classification : string) : ProxyOutcome :=
{| po_target_host := target_host; po_status := status; po_physical_requests := a_physical_requests a;
 po_transmitted_bytes := a_transmitted_bytes a; po_received_bytes := a_received_bytes a;
 po_classification := classification |}.

(** Source: proxy/transport.py, RoutedTransport._report. *)
Definition report (o : ProxyOutcome) : M () := _ ← plog (PA_report o); pcall (y_report env o).

Definition schedule (reason : RotationReason) : M () :=
_ ← plog (PA_schedule reason); pcall (y_schedule env reason).

(** Source: proxy/transport.py, RoutedTransport._remember_blocked_route. *)
Definition remember_blocked_route (t : TransportResponse) : M () :=
if t_status t =? 403 then schedule BLOCKED
else if t_status t =? 429 then schedule RATE_LIMITED else mret ().

Definition classify (status : Z) : string :=
if status =? 403 then "blocked" else if status =? 429 then "rate_limited"
else if status <? 400 then "success" else "http_error".

(** The [except] clauses around the dispatch.
Source: proxy/transport.py:251-295, RoutedTransport._proxy_request_attempt. *)
Definition send_handler (r : TransportRequest) (error : mw_exn) : M TransportResponse :=
match error with
| X_Cancelled given =>
  a ← attempt_accounting r given 0;
  _ ← set_outcome (outcome_of None a "cancelled");
  throw error
| X_BodyTooLarge tl =>
  a ← attempt_accounting r (tl_accounting tl) (tl_received_bytes tl);
  let o := outcome_of None a "response_body_too_large" in
  _ ← set_outcome o; _ ← report o; throw error
| X_TransportFailure given =>
  a ← attempt_accounting r given 0;
  let o := outcome_of None a "transport_failure" in
  _ ← set_outcome o; _ ← report o;
  _ ← when failover (schedule TRANSPORT_FAILURE);
  throw error
| _ => throw error
end.

(** The [try] block. [owns] says that the leased browser authorises its own
requests. Source: proxy/transport.py:237-330, RoutedTransport._proxy_request_attempt. *)
Definition proxied_body (r : TransportRequest) (route : CheckedOutRoute) (owns : bool) : M TransportResponse :=
_ ← when (negb owns)
    (estimate ← pestimated r;
     id ← pcall (y_authorize env (r_estimated_bytes r + estimate));
     _ ← plog (PA_authorize id);
     match id with
     | None => throw (X_Exception "ProxyBudgetExhausted" None)
     | Some id => set_authorization id
     end);
_ ← set_sent;
_ ← plog PA_dispatch;
response ← catch (pcall (y_send env r)) (send_handler r);
a ← attempt_accounting r (t_accounting response) (content_length response);
let o := outcome_of (Some (t_status response)) a (classify (t_status response)) in
_ ← set_outcome o;
_ ← report o;
_ ← when failover (remember_blocked_route response);
mret (with_route response
      {| rt_kind := match rt_kind (t_route response) with ROUTE_BROWSER => ROUTE_BROWSER | _ => ROUTE_PROXY end;
         rt_provider := Some (n_provider (l_route (co_lease route)));
         rt_endpoint_id := Some (n_endpoint_id (l_route (co_lease route)));
         rt_lease_id := Some ("static-" +:+ pretty (l_lease_id (co_lease route))) |}
      (t_from_cache response)).

(** The outcome to reconcile: the recorded one, or a backend failure. *)
Definition final_outcome (r : TransportRequest) : M ProxyOutcome :=
outcome ← pget al_outcome;
match outcome with
| Some o => mret o
| None =>
  a ← attempt_accounting r None 0;
  let o := outcome_of None a "backend_failure" in
  _ ← set_outcome o; mret o
end.

(** The settlement of the authorisation.
Source: proxy/transport.py:332-346, RoutedTransport._proxy_request_attempt. *)
Definition settle (r : TransportRequest) : M () :=
authorization ← pget al_authorization;
dispatched ← pget al_dispatched;
match authorization with
| None => mret ()
| Some id =>
  if dispatched : bool then
    o ← final_outcome r;
    _ ← plog (PA_reconcile id o);
    pcall (y_reconcile env id o)
  else
    _ ← plog (PA_release id);
    pcall (y_release env id)
end.

(** The [finally] clause: the check-in follows the settlement however it ends.
Source: proxy/transport.py:331-348, RoutedTransport._proxy_request_attempt. *)
Definition proxied_cleanup (r : TransportRequest) : M () :=
finally (settle r) (_ ← plog PA_checkin; pcall (y_checkin env)).

(** Source: proxy/transport.py, RoutedTransport._proxy_request_attempt. *)
Definition proxy_request_attempt (r : TransportRequest) (route : CheckedOutRoute) (owns : bool)
: M TransportResponse :=
finally (proxied_body r route owns) (proxied_cleanup r).

(** ** What the attempt leaves behind *)

(** An outcome is never optimistic: it charges at least one request and the
bytes of the message that was sent. *)
Definition charges (r : TransportRequest) (o : ProxyOutcome) : Prop :=
1 <= po_physical_requests o
/\ exists n, estimated_transmitted_bytes (y_float_repr env) r = Ok n /\ n <= po_transmitted_bytes o.

Definition p_count (f : proxy_action -> bool) (tr : list proxy_action) : nat :=
length (filter (fun a => f a = true) tr).
Definition is_pgrant (a : proxy_action) : bool := match a with PA_authorize (Some _) => true | _ => false end.
Definition is_preconcile (a : proxy_action) : bool := match a with PA_reconcile _ _ => true | _ => false end.
Definition is_prelease (a : proxy_action) : bool := match a with PA_release _ => true | _ => false end.
Definition is_pdispatch (a : proxy_action) : bool := match a with PA_dispatch => true | _ => false end.
Definition is_pcheckin (a : proxy_action) : bool := match a with PA_checkin => true | _ => false end.
Definition charged (r : TransportRequest) (a : proxy_action) : Prop :=
match a with PA_reconcile _ o | PA_report o => charges r o | _ => True end.

Lemma p_count_snoc f tr a : p_count f (tr ++ [a]) = (p_count f tr + if f a then 1 else 0)%nat.
Proof.
unfold p_count. rewrite filter_app, length_app. f_equal. rewrite filter_cons, filter_nil.
destruct (f a); by case_decide.
Qed.

Definition one_if (b : bool) : nat := if b then 1 else 0.

(** Before the cleanup: the trace agrees with the locals. *)
Record open_attempt (r : TransportRequest) (s : attempt_st W) : Prop := {
oa_grant : p_count is_pgrant (at_trace s) = one_if (is_some (al_authorization (at_loc s)));
oa_dispatch : p_count is_pdispatch (at_trace s) = one_if (al_dispatched (at_loc s));
oa_reconcile : p_count is_preconcile (at_trace s) = 0%nat;
oa_release : p_count is_prelease (at_trace s) = 0%nat;
oa_checkin : p_count is_pcheckin (at_trace s) = 0%nat;
oa_outcome : match al_outcome (at_loc s) with Some o => charges r o | None => True end;
oa_charged : Forall (charged r) (at_trace s);
oa_estimated : al_authorization (at_loc s) <> None ->
             is_ok (estimated_transmitted_bytes (y_float_repr env) r) = true;
}.

Lemma wp_pcall {A} (m : eff W mw_exn A) (Q : result mw_exn A -> attempt_st W -> Prop) s :
(forall r w, Q r (Build_attempt_st w (at_trace s) (at_loc s))) -> wp (pcall m) Q s.
Proof. unfold wp, pcall. intros H. destruct (m (at_world s)). apply H. Qed.

Lemma keeps_pcall {A} r (m : eff W mw_exn A) : keeps (open_attempt r) (pcall m).
Proof. intros s H. apply wp_pcall. intros _ w. by destruct H; constructor. Qed.

Lemma keeps_plog r a :
is_pgrant a = false -> is_pdispatch a = false -> is_preconcile a = false -> is_prelease a = false ->
is_pcheckin a = false -> charged r a -> keeps (open_attempt r) (plog a).
Proof.
intros E1 E2 E3 E4 E5 E6 s H. apply wp_modify. destruct H.
constructor; simpl; rewrite ?p_count_snoc, ?E1, ?E2, ?E3, ?E4, ?E5, ?Nat.add_0_r; auto.
apply Forall_app; auto.
Qed.

Lemma keeps_report r o : charges r o -> keeps (open_attempt r) (report o).
Proof. intros H. unfold report. apply keeps_bind; [by apply keeps_plog|]. intros _. apply keeps_pcall. Qed.

Lemma keeps_schedule r reason : keeps (open_attempt r) (schedule reason).
Proof. unfold schedule. apply keeps_bind; [by apply keeps_plog|]. intros _. apply keeps_pcall. Qed.

Lemma keeps_set_outcome r o : charges r o -> keeps (open_attempt r) (set_outcome o).
Proof. intros Ho s H. apply wp_modify. by destruct H; constructor. Qed.

(** The accounting of an attempt always makes a charging outcome. *)
Lemma attempt_accounting_charges r given n status c (Q : result mw_exn TransportAccounting -> attempt_st W -> Prop) s :
(forall a, charges r (outcome_of status a c) -> Q (Ok a) s) ->
(forall e, Q (Err e) s) -> wp (attempt_accounting r given n) Q s.
Proof.
intros HQ He. unfold attempt_accounting, pestimated. apply wp_bind, wp_lift.
destruct (estimated_transmitted_bytes (y_float_repr env) r) as [m|e] eqn:E; [|apply He].
apply wp_ret, HQ. unfold charges, outcome_of. rewrite E.
destruct given; simpl; (split; [lia|]); exists m; (split; [done|lia]).
Qed.

(** The [except] clauses only add a charging outcome and end in an error. *)
Lemma keeps_send_handler r e : keeps (open_attempt r) (send_handler r e).
Proof.
intros s Hs. destruct e; try (by apply wp_throw); cbn [send_handler]; apply wp_bind.
- apply (attempt_accounting_charges r _ _ None "response_body_too_large"); [|done]. intros a Ha.
assert (keeps (open_attempt r) (_ ← set_outcome (outcome_of None a "response_body_too_large");
          _ ← report (outcome_of None a "response_body_too_large"); @throw _ _ TransportResponse (X_BodyTooLarge e)))
  as Hk; [|by apply Hk].
apply keeps_bind; [by apply keeps_set_outcome|intros _].
apply keeps_bind; [by apply keeps_report|intros _; apply keeps_throw].
- apply (attempt_accounting_charges r _ _ None "transport_failure"); [|done]. intros a Ha.
assert (keeps (open_attempt r) (_ ← set_outcome (outcome_of None a "transport_failure");
          _ ← report (outcome_of None a "transport_failure");
          _ ← when failover (schedule TRANSPORT_FAILURE);
          @throw _ _ TransportResponse (X_TransportFailure accounting))) as Hk; [|by apply Hk].
apply keeps_bind; [by apply keeps_set_outcome|intros _].
apply keeps_bind; [by apply keeps_report|intros _].
apply keeps_bind; [apply keeps_when, keeps_schedule|intros _; apply keeps_throw].
- apply (attempt_accounting_charges r _ _ None "cancelled"); [|done]. intros a Ha.
assert (keeps (open_attempt r) (_ ← set_outcome (outcome_of None a "cancelled");
          @throw _ _ TransportResponse (X_Cancelled accounting))) as Hk; [|by apply Hk].
apply keeps_bind; [by apply keeps_set_outcome|intros _; apply keeps_throw].
Qed.

Lemma after_send r route response :
keeps (open_attempt r)
(a ← attempt_accounting r (t_accounting response) (content_length response);
 let o := outcome_of (Some (t_status response)) a (classify (t_status response)) in
 _ ← set_outcome o;
 _ ← report o;
 _ ← when failover (remember_blocked_route response);
 mret (with_route response
         {| rt_kind := match rt_kind (t_route response) with ROUTE_BROWSER => ROUTE_BROWSER | _ => ROUTE_PROXY end;
            rt_provider := Some (n_provider (l_route (co_lease route)));
            rt_endpoint_id := Some (n_endpoint_id (l_route (co_lease route)));
            rt_lease_id := Some ("static-" +:+ pretty (l_lease_id (co_lease route))) |}
         (t_from_cache response))).
Proof.
intros s Hs. apply wp_bind.
apply (attempt_accounting_charges r _ _ (Some (t_status response)) (classify (t_status response))); [|done].
intros a Ha. cbn zeta.
match goal with |- wp ?m _ _ => assert (Hk : keeps (open_attempt r) m); [|by apply Hk] end.
apply keeps_bind; [by apply keeps_set_outcome|intros _].
apply keeps_bind; [by apply keeps_report|intros _].
apply keeps_bind; [|intros _; apply keeps_ret].
apply keeps_when. unfold remember_blocked_route.
apply keeps_if; [apply keeps_schedule|apply keeps_if; [apply keeps_schedule|apply keeps_ret]].
Qed.

Lemma proxied_body_spec r route owns s :
open_attempt r s -> al_authorization (at_loc s) = None -> al_dispatched (at_loc s) = false ->
wp (proxied_body r route owns) (fun _ s' => open_attempt r s') s.
Proof.
intros Hs Ha Hd. unfold proxied_body. apply wp_bind.
eapply wp_conseq with (P := fun _ s' => open_attempt r s' /\ al_dispatched (at_loc s') = false).
- apply wp_when; [intros _|done]. unfold pestimated. apply wp_bind, wp_lift.
destruct (estimated_transmitted_bytes _ r) as [n|] eqn:Hn; [|done].
apply wp_bind, wp_pcall. intros [id|e] w; [|by split; [destruct Hs; constructor|]].
apply wp_bind, wp_modify. cbn beta iota. destruct Hs as [H1 H2 H3 H4 H5 H6 H7 H8].
destruct id as [id|]; [apply wp_modify|apply wp_throw]; (split; [|done]); simpl in *; rewrite Ha in H1;
  (constructor; simpl; rewrite ?p_count_snoc, ?Ha, ?Hd in *; simpl; rewrite ?H1, ?H2, ?H3, ?H4, ?H5, ?Hn; auto;
   apply Forall_app; (split; [done|by apply Forall_singleton])).
- intros [[]|e] s1 [H1 Hd1]; [|done].
unfold set_sent, pset, plog. apply wp_bind, wp_modify. cbn beta iota. apply wp_bind, wp_modify.
cbn beta iota.
match goal with |- wp ?m _ _ => assert (Hk : keeps (open_attempt r) m) end.
{ apply keeps_bind; [|intros response; apply after_send].
  apply keeps_catch; [apply keeps_pcall|intros e; apply keeps_send_handler]. }
apply Hk. destruct H1 as [E1 E2 E3 E4 E5 E6 E7 E8].
constructor; simpl; rewrite ?p_count_snoc; simpl; rewrite ?E1, ?E2, ?E3, ?E4, ?E5, ?Hd1; auto.
apply Forall_app; (split; [done|by apply Forall_singleton]).
Qed.

(** How the attempt ends. *)
Record closed_attempt (r : TransportRequest) (tr : list proxy_action) : Prop := {
ca_checkin : p_count is_pcheckin tr = 1%nat;
ca_settled : p_count is_pgrant tr = (p_count is_preconcile tr + p_count is_prelease tr)%nat;
ca_dispatch : (p_count is_pdispatch tr <= 1)%nat;
ca_reconciled : p_count is_pgrant tr = 1%nat ->
              p_count is_preconcile tr = p_count is_pdispatch tr;
ca_charged : Forall (charged r) tr;
}.

(** After the settlement, only the check-in is missing. *)
Definition settled_attempt (r : TransportRequest) (s : attempt_st W) : Prop :=
p_count is_pcheckin (at_trace s) = 0%nat
/\ p_count is_pgrant (at_trace s) = (p_count is_preconcile (at_trace s) + p_count is_prelease (at_trace s))%nat
/\ (p_count is_pdispatch (at_trace s) <= 1)%nat
/\ (p_count is_pgrant (at_trace s) = 1%nat ->
  p_count is_preconcile (at_trace s) = p_count is_pdispatch (at_trace s))
/\ Forall (charged r) (at_trace s).

Lemma settlement_spec r s :
open_attempt r s -> wp (settle r) (fun _ s' => settled_attempt r s') s.
Proof.
intros [H1 H2 H3 H4 H5 H6 H7 Hest]. unfold settle, pget. apply wp_bind, wp_gets. cbn beta iota.
apply wp_bind, wp_gets. cbn beta iota. unfold settled_attempt.
destruct (al_authorization (at_loc s)) as [id|] eqn:Ha; simpl in H1.
2:{ apply wp_ret. rewrite H1, H2, H3, H4. destruct (al_dispatched _); simpl; split_and!; auto; lia. }
destruct (al_dispatched (at_loc s)) eqn:Hd; simpl in H2.
- apply wp_bind.
eapply wp_conseq with (P := fun res s' => at_trace s' = at_trace s
                              /\ exists o, res = Ok o /\ charges r o).
+ unfold final_outcome, pget. apply wp_bind, wp_gets. cbn beta iota.
  destruct (al_outcome (at_loc s)) as [o|]; [apply wp_ret; by eauto|].
  unfold attempt_accounting, pestimated. apply wp_bind, wp_bind, wp_lift.
  specialize (Hest ltac:(done)). destruct (estimated_transmitted_bytes _ r) as [n|] eqn:E; [|done].
  apply wp_ret. cbn beta iota. apply wp_bind. unfold set_outcome, pset. apply wp_modify, wp_ret.
  split; [done|]. eexists. split; [done|]. unfold charges. simpl. split; [lia|]. exists n. split; [done|lia].
+ intros res s1 [Ht (o & -> & Ho)]. apply wp_bind. unfold plog. apply wp_modify. cbn beta iota.
  apply wp_pcall. intros _ w. simpl. rewrite Ht, !p_count_snoc. simpl. rewrite H1, H2, H3, H4, H5.
  split_and!; auto; try lia. apply Forall_app. split; [done|by apply Forall_singleton].
- apply wp_bind. unfold plog. apply wp_modify. cbn beta iota. apply wp_pcall. intros _ w. simpl.
rewrite !p_count_snoc. simpl. rewrite H1, H2, H3, H4, H5. split_and!; auto; try lia.
apply Forall_app. split; [done|by apply Forall_singleton].
Qed.

Lemma proxy_request_attempt_spec r route owns s :
open_attempt r s -> al_authorization (at_loc s) = None -> al_dispatched (at_loc s) = false ->
wp (proxy_request_attempt r route owns) (fun _ s' => closed_attempt r (at_trace s')) s.
Proof.
intros Hs Ha Hd. unfold proxy_request_attempt. apply wp_finally.
eapply wp_conseq; [by apply proxied_body_spec|]. intros res s1 H1.
assert (Hc : wp (proxied_cleanup r) (fun _ s' => closed_attempt r (at_trace s')) s1);
[|eapply wp_conseq; [exact Hc|]; by intros [[]|e] s''].
unfold proxied_cleanup. apply wp_finally. eapply wp_conseq; [by apply settlement_spec|].
intros res' s2 (G1 & G2 & G3 & G4 & G5).
assert (Hd' : wp (_ ← plog PA_checkin; pcall (y_checkin env)) (fun _ s' => closed_attempt r (at_trace s')) s2);
[|eapply wp_conseq; [exact Hd'|]; by intros [[]|e] s''].
apply wp_bind. unfold plog. apply wp_modify. cbn beta iota. apply wp_pcall. intros _ w. simpl.
constructor; rewrite ?p_count_snoc; simpl; rewrite ?Nat.add_0_r; auto; try lia.
apply Forall_app. split; [done|by apply Forall_singleton].
Qed.
End attempt.

(** * The shared route

    Every atomic region under the condition [_state_changed] is one step; a
    task is in one of the phases below between its steps. [live] is the ghost
    set of leases the pool has handed out and that are not released. *)

(** Source: proxy/transport.py:133-140, RoutedTransport.__init__. *)
Record Routed := {
  ro_mode : ProxyMode;
  ro_lease : option Z;
  ro_pending_rotation : option RotationReason;
  ro_active : Z;
  ro_transitioning : bool;
  ro_generation : Z;
  ro_closed : bool;
}.

Inductive task_phase :=
| Checked (generation lease : Z)                                 (* holds the checked-out route *)
| Replacing (old : option Z) (reason : option RotationReason)    (* is replacing the route *)
| Closing (lease : option Z)                                     (* has taken the route to close it *)
| CloseWaiting.                                                  (* waits for the others *)

Record routed_world := { rw_state : Routed; rw_tasks : gmap Z task_phase; rw_live : gset Z }.

Definition set_routed (s : Routed) (lease : option Z) (pending : option RotationReason) (active : Z)
  (transitioning : bool) (generation : Z) (closed : bool) : Routed :=
  {| ro_mode := ro_mode s; ro_lease := lease; ro_pending_rotation := pending; ro_active := active;
     ro_transitioning := transitioning; ro_generation := generation; ro_closed := closed |}.

(** What a task finds when it enters [_checkout_proxy_route]. *)
Inductive checkout_result :=
| CheckedOut (generation lease : Z) (s : Routed)
| MustWait
| MustReplace (old : option Z) (reason : option RotationReason) (s : Routed)
| RouteClosed.

(** The atomic region of the loop.
    Source: proxy/transport.py:388-407, RoutedTransport._checkout_proxy_route. *)
Definition checkout (s : Routed) : checkout_result :=
  if ro_closed s then RouteClosed
  else if ro_transitioning s then MustWait
  else match ro_lease s, ro_pending_rotation s with
       | Some lease, None =>
           CheckedOut (ro_generation s) lease
             (set_routed s (Some lease) None (ro_active s + 1) false (ro_generation s) false)
       | _, _ =>
           if negb (ro_active s =? 0) then MustWait
           else MustReplace (ro_lease s) (ro_pending_rotation s)
                  (set_routed s None None (ro_active s) true (ro_generation s) false)
       end.

(** Source: proxy/transport.py:422-427, RoutedTransport._checkout_proxy_route. *)
Definition install (s : Routed) (lease : Z) : Routed :=
  set_routed s (Some lease) (ro_pending_rotation s) (ro_active s) false (ro_generation s + 1) (ro_closed s).

(** Source: proxy/transport.py:416-420, RoutedTransport._checkout_proxy_route. *)
Definition replacement_failed (s : Routed) : Routed :=
  set_routed s (ro_lease s) (ro_pending_rotation s) (ro_active s) false (ro_generation s) (ro_closed s).

(** Source: proxy/transport.py, RoutedTransport._checkin_proxy_route. *)
Definition checkin (s : Routed) : result pyexn Routed :=
  let s' := set_routed s (ro_lease s) (ro_pending_rotation s) (ro_active s - 1) (ro_transitioning s)
              (ro_generation s) (ro_closed s) in
  if ro_active s - 1 <? 0 then Err (AssertionError "proxy route checkout count became negative") else Ok s'.

(** Source: proxy/transport.py, RoutedTransport._schedule_rotation. *)
Definition schedule_rotation (s : Routed) (reason : RotationReason) (generation : option Z) : Routed :=
  if ro_closed s || ro_transitioning s
     || match generation with Some g => negb (g =? ro_generation s) | None => false end
  then s
  else set_routed s (ro_lease s) (coalesce (ro_pending_rotation s) (Some reason)) (ro_active s)
         (ro_transitioning s) (ro_generation s) (ro_closed s).

(** The first region of an explicit rotation when no transition is under way.
    Source: proxy/transport.py:173-184, RoutedTransport._rotate_identity. *)
Definition request_rotation (s : Routed) (reason : RotationReason) : Routed :=
  set_routed s (ro_lease s) (coalesce (ro_pending_rotation s) (Some reason)) (ro_active s)
    (ro_transitioning s) (ro_generation s) (ro_closed s).

(** The direct route is taken only while nothing is leased, pending or under way.
    Source: proxy/transport.py, RoutedTransport._direct_route_generation. *)
Definition direct_route_generation (s : Routed) : result pyexn (option Z) :=
  if ro_closed s then Err (RuntimeError "routed transport is closed")
  else if bool_decide (ro_mode s = MODE_FALLBACK) && is_none (ro_lease s)
          && is_none (ro_pending_rotation s) && negb (ro_transitioning s)
  then Ok (Some (ro_generation s)) else Ok None.

(** Source: proxy/transport.py:190-194, RoutedTransport.aclose. *)
Definition close_begin (s : Routed) : Routed :=
  set_routed s (ro_lease s) (ro_pending_rotation s) (ro_active s) (ro_transitioning s)
    (ro_generation s) true.

(** [None] while a transition or an attempt is under way.
    Source: proxy/transport.py:195-201, RoutedTransport.aclose. *)
Definition close_take (s : Routed) : option (option Z * Routed) :=
  if ro_transitioning s || negb (ro_active s =? 0) then None
  else Some (ro_lease s, set_routed s None (ro_pending_rotation s) (ro_active s) true (ro_generation s)
                           (ro_closed s)).

(** Source: proxy/transport.py:221-224, RoutedTransport.aclose. *)
Definition close_end (s : Routed) : Routed := replacement_failed s.

Definition drop_lease (old : option Z) (live : gset Z) : gset Z :=
  match old with Some l => live ∖ {[l]} | None => live end.

(** Replacing acquires a lease or rotates the old one; when any part of it
    fails, every lease it held is released.
    Source: proxy/transport.py, RoutedTransport._replace_route. *)
Definition replace_route (live : gset Z) (old : option Z) (outcome : option Z) : gset Z :=
  match outcome with
  | Some new => {[new]} ∪ drop_lease old live
  | None => drop_lease old live
  end.

Inductive routed_step : routed_world -> routed_world -> Prop :=
| rs_checkout s s' tasks live t g l :
    tasks !! t = None -> checkout s = CheckedOut g l s' ->
    routed_step {| rw_state := s; rw_tasks := tasks; rw_live := live |}
                {| rw_state := s'; rw_tasks := <[t := Checked g l]> tasks; rw_live := live |}
| rs_replace s s' tasks live t old reason :
    tasks !! t = None -> checkout s = MustReplace old reason s' ->
    routed_step {| rw_state := s; rw_tasks := tasks; rw_live := live |}
                {| rw_state := s'; rw_tasks := <[t := Replacing old reason]> tasks; rw_live := live |}
| rs_replaced s tasks live t old reason new :
    tasks !! t = Some (Replacing old reason) -> new ∉ live ->
    routed_step {| rw_state := s; rw_tasks := tasks; rw_live := live |}
                {| rw_state := install s new; rw_tasks := delete t tasks;
                   rw_live := replace_route live old (Some new) |}
| rs_replace_failed s tasks live t old reason :
    tasks !! t = Some (Replacing old reason) ->
    routed_step {| rw_state := s; rw_tasks := tasks; rw_live := live |}
                {| rw_state := replacement_failed s; rw_tasks := delete t tasks;
                   rw_live := replace_route live old None |}
| rs_checkin s s' tasks live t g l :
    tasks !! t = Some (Checked g l) -> checkin s = Ok s' ->
    routed_step {| rw_state := s; rw_tasks := tasks; rw_live := live |}
                {| rw_state := s'; rw_tasks := delete t tasks; rw_live := live |}
| rs_schedule s tasks live reason g :
    routed_step {| rw_state := s; rw_tasks := tasks; rw_live := live |}
                {| rw_state := schedule_rotation s reason g; rw_tasks := tasks; rw_live := live |}
| rs_rotate s tasks live reason :
    ro_closed s = false -> ro_transitioning s = false ->
    routed_step {| rw_state := s; rw_tasks := tasks; rw_live := live |}
                {| rw_state := request_rotation s reason; rw_tasks := tasks; rw_live := live |}
| rs_close s tasks live t :
    tasks !! t = None -> ro_closed s = false ->
    routed_step {| rw_state := s; rw_tasks := tasks; rw_live := live |}
                {| rw_state := close_begin s; rw_tasks := <[t := CloseWaiting]> tasks; rw_live := live |}
| rs_close_take s s' tasks live t lease :
    tasks !! t = Some CloseWaiting -> close_take s = Some (lease, s') ->
    routed_step {| rw_state := s; rw_tasks := tasks; rw_live := live |}
                {| rw_state := s'; rw_tasks := <[t := Closing lease]> tasks; rw_live := live |}
| rs_close_end s tasks live t lease :
    tasks !! t = Some (Closing lease) ->
    routed_step {| rw_state := s; rw_tasks := tasks; rw_live := live |}
                {| rw_state := close_end s; rw_tasks := delete t tasks; rw_live := drop_lease lease live |}.

Definition routed_start (mode : ProxyMode) : routed_world :=
  {| rw_state := {| ro_mode := mode; ro_lease := None; ro_pending_rotation := None; ro_active := 0;
                    ro_transitioning := false; ro_generation := 0; ro_closed := false |};
     rw_tasks := ∅; rw_live := ∅ |}.

(** ** Invariant *)

Definition checked (p : task_phase) : Z := match p with Checked _ _ => 1 | _ => 0 end.
Definition owning (p : task_phase) : Z := match p with Replacing _ _ | Closing _ => 1 | _ => 0 end.
Definition close_pending (p : task_phase) : Z := match p with CloseWaiting | Closing _ => 1 | _ => 0 end.
Definition phase_sum (f : task_phase -> Z) (tasks : gmap Z task_phase) : Z := map_sum (f <$> tasks).

Definition held_by (p : task_phase) : option Z :=
  match p with Replacing old _ => old | Closing l => l | _ => None end.

Record routed_inv (w : routed_world) : Prop := {
  rv_active : ro_active (rw_state w) = phase_sum checked (rw_tasks w);
  rv_owner : phase_sum owning (rw_tasks w) = (if ro_transitioning (rw_state w) then 1 else 0);
  rv_idle : ro_transitioning (rw_state w) = true -> ro_lease (rw_state w) = None /\ ro_active (rw_state w) = 0;
  rv_current : forall t g l, rw_tasks w !! t = Some (Checked g l) ->
    ro_lease (rw_state w) = Some l /\ ro_generation (rw_state w) = g;
  rv_live : forall l, l ∈ rw_live w <->
    (ro_lease (rw_state w) = Some l \/ exists t p, rw_tasks w !! t = Some p /\ held_by p = Some l);
}.

Section phases.
Context (f : task_phase -> Z) (Hf : forall p, 0 <= f p).

Lemma phase_sum_insert t p tasks :
tasks !! t = None -> phase_sum f (<[t := p]> tasks) = f p + phase_sum f tasks.
Proof. intros H. unfold phase_sum. rewrite fmap_insert. apply map_sum_insert. by rewrite lookup_fmap, H. Qed.
Lemma phase_sum_delete t p tasks :
tasks !! t = Some p -> phase_sum f (delete t tasks) = phase_sum f tasks - f p.
Proof. intros H. unfold phase_sum. rewrite fmap_delete. apply map_sum_delete. by rewrite lookup_fmap, H. Qed.
Lemma phase_sum_update t p p' tasks :
tasks !! t = Some p -> phase_sum f (<[t := p']> tasks) = phase_sum f tasks - f p + f p'.
Proof.
intros H. rewrite <- (insert_delete_eq tasks t p'), phase_sum_insert by apply lookup_delete_eq.
rewrite (phase_sum_delete t p) by done. lia.
Qed.
Lemma phase_sum_nonneg tasks : 0 <= phase_sum f tasks.
Proof.
apply map_sum_nonneg. intros k v H. rewrite lookup_fmap in H.
destruct (tasks !! k); simplify_eq/=. apply Hf.
Qed.
Lemma phase_sum_ge t p tasks : tasks !! t = Some p -> f p <= phase_sum f tasks.
Proof. intros H. pose proof (phase_sum_delete t p tasks H). pose proof (phase_sum_nonneg (delete t tasks)). lia. Qed.
End phases.

Lemma checked_nonneg p : 0 <= checked p. Proof. by destruct p. Qed.
Lemma owning_nonneg p : 0 <= owning p. Proof. by destruct p. Qed.

(** With one transition under way, its task is the only one that holds a lease. *)
Lemma sole_owner tasks t p t' p' l :
  phase_sum owning tasks = 1 -> tasks !! t = Some p -> owning p = 1 ->
  tasks !! t' = Some p' -> held_by p' = Some l -> t' = t.
Proof.
  intros Hs Ht Hp Ht' Hl. destruct (decide (t' = t)) as [|Hne]; [done|]. exfalso.
  assert (Hd : delete t tasks !! t' = Some p') by by rewrite lookup_delete_ne.
  pose proof (phase_sum_ge owning owning_nonneg _ _ _ Hd) as Hge.
  rewrite (phase_sum_delete owning _ _ _ Ht) in Hge.
  assert (owning p' = 1) by (destruct p'; done). lia.
Qed.

(** Without a transition, nobody but the state holds a lease. *)
Lemma no_owner tasks t p l :
  phase_sum owning tasks = 0 -> tasks !! t = Some p -> held_by p = Some l -> False.
Proof.
  intros Hs Ht Hl. pose proof (phase_sum_ge owning owning_nonneg _ _ _ Ht).
  assert (owning p = 1) by (destruct p; done). lia.
Qed.

(** Without a checked-out task, the active count is zero, and conversely. *)
Lemma no_checked tasks t g l : phase_sum checked tasks = 0 -> tasks !! t = Some (Checked g l) -> False.
Proof.
  intros Hs Ht. pose proof (phase_sum_ge checked checked_nonneg _ _ _ Ht). simpl in *. lia.
Qed.

Lemma routed_inv_start mode : routed_inv (routed_start mode).
Proof.
  constructor; simpl; try done; unfold phase_sum; rewrite ?fmap_empty, ?map_sum_empty; auto.
  intros l. split; [set_solver|]. by intros [?|(t & p & H & _)].
Qed.

Section steps.
Context (s : Routed) (tasks : gmap Z task_phase) (live : gset Z).
#[local] Abbreviation world := {| rw_state := s; rw_tasks := tasks; rw_live := live |}.
Context (Hinv : routed_inv world).

Lemma inv_facts :
ro_active s = phase_sum checked tasks /\ phase_sum owning tasks = (if ro_transitioning s then 1 else 0)
/\ (ro_transitioning s = true -> ro_lease s = None /\ ro_active s = 0)
/\ (forall t g l, tasks !! t = Some (Checked g l) -> ro_lease s = Some l /\ ro_generation s = g)
/\ (forall l, l ∈ live <->
   (ro_lease s = Some l \/ exists t p, tasks !! t = Some p /\ held_by p = Some l)).
Proof. destruct Hinv; auto. Qed.

(** A change of the pending rotation or of the closed flag only. *)
Lemma inv_flags pending closed :
routed_inv {| rw_state := set_routed s (ro_lease s) pending (ro_active s) (ro_transitioning s)
                          (ro_generation s) closed; rw_tasks := tasks; rw_live := live |}.
Proof. destruct Hinv. by constructor. Qed.

(** A task that starts a phase in which it neither owns nor holds anything. *)
Lemma held_insert t p l :
tasks !! t = None ->
(exists t' p', <[t := p]> tasks !! t' = Some p' /\ held_by p' = Some l)
<-> (held_by p = Some l \/ exists t' p', tasks !! t' = Some p' /\ held_by p' = Some l).
Proof.
intros Ht. split.
- intros (t' & p' & H%lookup_insert_Some & Hl). destruct H as [[<- <-]|[? H]]; eauto.
- intros [Hl|(t' & p' & H & Hl)]; [exists t, p; by rewrite lookup_insert_eq|].
exists t', p'. by rewrite lookup_insert_ne by (intros ->; congruence).
Qed.

(** A task that ends a phase in which it held nothing. *)
Lemma held_delete t p l :
tasks !! t = Some p -> held_by p = None ->
(exists t' p', delete t tasks !! t' = Some p' /\ held_by p' = Some l)
<-> (exists t' p', tasks !! t' = Some p' /\ held_by p' = Some l).
Proof.
intros Ht Hp. split.
- intros (t' & p' & H%lookup_delete_Some & Hl). destruct H. eauto.
- intros (t' & p' & H & Hl). exists t', p'. rewrite lookup_delete_ne; [done|]. intros ->. congruence.
Qed.

Lemma inv_checkout t g l s' :
tasks !! t = None -> checkout s = CheckedOut g l s' ->
routed_inv {| rw_state := s'; rw_tasks := <[t := Checked g l]> tasks; rw_live := live |}.
Proof.
intros Ht Hc. destruct inv_facts as (Ha & Ho & Hi & Hcur & Hl).
unfold checkout in Hc. step_in Hc.
constructor; simpl; rewrite ?phase_sum_insert by done; simpl; try lia; try done.
- intros t' g' l' H. apply lookup_insert_Some in H as [[_ ?]|[_ H]]; [by simplify_eq|].
by destruct (Hcur _ _ _ H).
- intros x. rewrite Hl, held_insert by done. simpl. naive_solver.
Qed.

Lemma inv_replace t old reason s' :
tasks !! t = None -> checkout s = MustReplace old reason s' ->
routed_inv {| rw_state := s'; rw_tasks := <[t := Replacing old reason]> tasks; rw_live := live |}.
Proof.
intros Ht Hc. destruct inv_facts as (Ha & Ho & Hi & Hcur & Hl).
unfold checkout in Hc.
destruct (ro_closed s); [done|]. destruct (ro_transitioning s); [done|].
assert (ro_active s = 0 /\ old = ro_lease s
      /\ s' = set_routed s None None (ro_active s) true (ro_generation s) false) as (Hz & -> & ->).
{ destruct (ro_lease s), (ro_pending_rotation s), (ro_active s =? 0) eqn:E; simpl in Hc;
  bool_facts; simplify_eq; auto. }
constructor; simpl; rewrite ?phase_sum_insert by done; simpl; try lia; auto.
- intros t' g' l' H. apply lookup_insert_Some in H as [[_ ?]|[_ H]]; [done|].
exfalso. eapply no_checked; [|exact H]. lia.
- intros x. rewrite Hl, held_insert by done. simpl. naive_solver.
Qed.

Lemma inv_replaced t old reason new :
tasks !! t = Some (Replacing old reason) -> new ∉ live ->
routed_inv {| rw_state := install s new; rw_tasks := delete t tasks;
            rw_live := replace_route live old (Some new) |}.
Proof.
intros Ht Hnew. destruct inv_facts as (Ha & Ho & Hi & Hcur & Hl).
pose proof (phase_sum_ge owning owning_nonneg _ _ _ Ht) as Hge. simpl in Hge.
destruct (ro_transitioning s) eqn:Htr; [|lia]. destruct (Hi eq_refl) as [Hlease Hz].
constructor; simpl; rewrite ?(phase_sum_delete _ _ _ _ Ht); simpl; try lia; try done.
- intros t' g' l' H. apply lookup_delete_Some in H as [_ H].
exfalso. eapply no_checked; [|exact H]. lia.
- intros x. rewrite elem_of_union, elem_of_singleton.
assert (Hrest : x ∈ drop_lease old live <-> False).
{ split; [|done]. intros Hx.
  assert (x ∈ live) as Hx' by (destruct old; simpl in Hx; set_solver).
  apply Hl in Hx' as [?|(t' & p' & Ht' & Hp')]; [congruence|].
  assert (t' = t) as -> by (eapply sole_owner; [|exact Ht|..]; done).
  rewrite Ht in Ht'. simplify_eq. simpl in Hp'. rewrite Hp' in Hx. simpl in Hx. set_solver. }
rewrite Hrest. split.
+ intros [->|[]]. by left.
+ intros [?|(t' & p' & Ht' & Hp')]; [by left; simplify_eq|]. exfalso.
  apply lookup_delete_Some in Ht' as [Hne Ht'].
  apply Hne. symmetry. eapply sole_owner; [|exact Ht|..]; done.
Qed.

Lemma inv_release_held t p :
tasks !! t = Some p -> owning p = 1 -> checked p = 0 ->
routed_inv {| rw_state := replacement_failed s; rw_tasks := delete t tasks;
            rw_live := drop_lease (held_by p) live |}.
Proof.
intros Ht Hp Hch. destruct inv_facts as (Ha & Ho & Hi & Hcur & Hl).
pose proof (phase_sum_ge owning owning_nonneg _ _ _ Ht) as Hge.
destruct (ro_transitioning s) eqn:Htr; [|lia]. destruct (Hi eq_refl) as [Hlease Hz].
constructor; simpl; rewrite ?(phase_sum_delete _ _ _ _ Ht); simpl; try lia; try done.
- intros t' g' l' H. apply lookup_delete_Some in H as [_ H].
exfalso. eapply no_checked; [|exact H]. lia.
- intros x. split.
+ intros Hx. exfalso.
  assert (x ∈ live) as Hx' by (destruct (held_by p); simpl in Hx; set_solver).
  apply Hl in Hx' as [?|(t' & p' & Ht' & Hp')]; [congruence|].
  assert (t' = t) as -> by (eapply sole_owner; [|exact Ht|..]; done).
  rewrite Ht in Ht'. simplify_eq. rewrite Hp' in Hx. simpl in Hx. set_solver.
+ intros [?|(t' & p' & Ht' & Hp')]; [congruence|]. exfalso.
  apply lookup_delete_Some in Ht' as [Hne Ht'].
  apply Hne. symmetry. eapply sole_owner; [|exact Ht|..]; done.
Qed.

Lemma inv_checkin t g l s' :
tasks !! t = Some (Checked g l) -> checkin s = Ok s' ->
routed_inv {| rw_state := s'; rw_tasks := delete t tasks; rw_live := live |}.
Proof.
intros Ht Hc. destruct inv_facts as (Ha & Ho & Hi & Hcur & Hl).
unfold checkin in Hc. step_in Hc. bool_facts.
constructor; simpl; rewrite ?(phase_sum_delete _ _ _ _ Ht); simpl; try lia; try done.
- intros Htr. destruct (Hi Htr). split; [done|lia].
- intros t' g' l' H. apply lookup_delete_Some in H as [_ H]. by eapply Hcur.
- intros x. by rewrite Hl, (held_delete t (Checked g l)).
Qed.

Lemma inv_close t :
tasks !! t = None ->
routed_inv {| rw_state := close_begin s; rw_tasks := <[t := CloseWaiting]> tasks; rw_live := live |}.
Proof.
intros Ht. destruct inv_facts as (Ha & Ho & Hi & Hcur & Hl).
constructor; simpl; rewrite ?phase_sum_insert by done; simpl; try lia; try done.
- intros t' g' l' H. apply lookup_insert_Some in H as [[_ ?]|[_ H]]; [done|]. by eapply Hcur.
- intros x. rewrite Hl, held_insert by done. simpl. naive_solver.
Qed.

Lemma inv_close_take t lease s' :
tasks !! t = Some CloseWaiting -> close_take s = Some (lease, s') ->
routed_inv {| rw_state := s'; rw_tasks := <[t := Closing lease]> tasks; rw_live := live |}.
Proof.
intros Ht Hc. destruct inv_facts as (Ha & Ho & Hi & Hcur & Hl).
unfold close_take in Hc.
destruct (ro_transitioning s) eqn:Htr; [done|]. destruct (ro_active s =? 0) eqn:E; [|done].
simpl in Hc. bool_facts. simplify_eq.
constructor; simpl; rewrite ?(phase_sum_update _ _ _ _ _ Ht); simpl; try lia; auto.
- intros t' g' l' H. apply lookup_insert_Some in H as [[_ ?]|[_ H]]; [done|].
exfalso. eapply no_checked; [|exact H]. lia.
- intros x. rewrite Hl. split.
+ intros [Hx|(t' & p' & Ht' & Hp')]; right.
  * exists t, (Closing (ro_lease s)). by rewrite lookup_insert_eq.
  * exfalso. eapply no_owner; [exact Ho|exact Ht'|exact Hp'].
+ intros [?|(t' & p' & H & Hp')]; [done|].
  apply lookup_insert_Some in H as [[<- <-]|[? H]]; [by left|right; eauto].
Qed.
End steps.

Lemma routed_inv_step w w' : routed_inv w -> routed_step w w' -> routed_inv w'.
Proof.
  intros Hw Hs. destruct Hs.
  - by eapply inv_checkout.
  - by eapply inv_replace.
  - by eapply inv_replaced.
  - by apply (inv_release_held s tasks live Hw t (Replacing old reason)).
  - by eapply inv_checkin.
  - unfold schedule_rotation. destruct (_ || _ || _); [done|]. by apply inv_flags.
  - by apply inv_flags.
  - by apply inv_close.
  - by eapply inv_close_take.
  - by apply (inv_release_held s tasks live Hw t (Closing lease)).
Qed.

Lemma routed_inv_reachable mode w : reachable routed_step (routed_start mode) w -> routed_inv w.
Proof. apply reachable_invariant; [apply routed_inv_start|apply routed_inv_step]. Qed.

(** ** Closing *)

Lemma close_pending_nonneg p : 0 <= close_pending p. Proof. by destruct p. Qed.

(** Once closed, the route is gone unless a closing task is still at work. *)
Definition closing_inv (w : routed_world) : Prop :=
  ro_closed (rw_state w) = true ->
  1 <= phase_sum close_pending (rw_tasks w)
  \/ (ro_lease (rw_state w) = None /\ ro_transitioning (rw_state w) = false).

Lemma closing_inv_step w w' : routed_inv w -> closing_inv w -> routed_step w w' -> closing_inv w'.
Proof.
  intros Hw Hc Hs. unfold closing_inv in *.
  destruct Hs as [s s' tasks live t g l Ht Hck|s s' tasks live t old reason Ht Hck
                 |s tasks live t old reason new Ht Hnew|s tasks live t old reason Ht
                 |s s' tasks live t g l Ht Hck|s tasks live reason g|s tasks live reason Hcl Htr
                 |s tasks live t Ht Hcl|s s' tasks live t lease Ht Hck|s tasks live t lease Ht];
    simpl in *; intros Hclosed;
    destruct (inv_facts _ _ _ Hw) as (_ & Ho & Hi & _ & _).
  - unfold checkout in Hck. by step_in Hck.
  - unfold checkout in Hck. destruct (ro_closed s); [done|]. destruct (ro_transitioning s); [done|].
    repeat (case_match; simplify_eq/=).
  - left. rewrite (phase_sum_delete _ _ _ _ Ht). simpl.
    pose proof (phase_sum_ge owning owning_nonneg _ _ _ Ht) as Hge. simpl in Hge.
    destruct (Hc Hclosed) as [?|[_ Htr]]; [lia|]. rewrite Htr in Ho. lia.
  - destruct (Hc Hclosed) as [?|[? ?]]; [left|right; auto].
    rewrite (phase_sum_delete _ _ _ _ Ht). simpl. lia.
  - unfold checkin in Hck. step_in Hck. destruct (Hc Hclosed) as [?|[? ?]]; [left|right; auto].
    rewrite (phase_sum_delete _ _ _ _ Ht). simpl. lia.
  - unfold schedule_rotation in *. destruct (_ || _ || _); simpl in *; auto.
  - congruence.
  - left. rewrite phase_sum_insert by done. simpl.
    pose proof (phase_sum_nonneg close_pending close_pending_nonneg tasks). lia.
  - unfold close_take in Hck. case_match; [done|]. simplify_eq/=. left.
    rewrite (phase_sum_update _ _ _ _ _ Ht). simpl.
    pose proof (phase_sum_ge close_pending close_pending_nonneg _ _ _ Ht) as Hge. simpl in Hge. lia.
  - right. pose proof (phase_sum_ge owning owning_nonneg _ _ _ Ht) as Hge. simpl in Hge.
    destruct (ro_transitioning s); [|lia]. by destruct (Hi eq_refl).
Qed.

Lemma closing_inv_reachable mode w : reachable routed_step (routed_start mode) w -> closing_inv w.
Proof.
  intros Hr. induction Hr as [|w w' Hr IH Hs]; [done|].
  eapply closing_inv_step; [by eapply routed_inv_reachable|exact IH|exact Hs].
Qed.

(** The route of one request: [true] is the direct transport.
    Source: proxy/transport.py, RoutedTransport.request. *)
Definition takes_direct_route (s : Routed) : result pyexn bool :=
  if bool_decide (ro_mode s = MODE_NEVER) then
    if ro_closed s then Err (RuntimeError "routed transport is closed") else Ok true
  else g ← direct_route_generation s; Ok (is_some g).

(** * Properties *)

(** One proxied attempt, whatever the pool, the transport and telemetry do,
    errors and cancellation included: the route is checked in exactly once, an
    authorisation is settled exactly once and reconciled exactly when the
    request was dispatched, and every outcome reported or reconciled charges at
    least one request and the bytes of the message that was sent. *)
Theorem proxied_attempt_settles {W} (env : ProxyEnv W) host failover r route owns w res s :
  proxy_request_attempt env host failover r route owns
    (Build_attempt_st w [] {| al_authorization := None; al_dispatched := false; al_outcome := None |})
  = (res, s) ->
  p_count is_pcheckin (at_trace s) = 1%nat
  /\ p_count is_pgrant (at_trace s) = (p_count is_preconcile (at_trace s) + p_count is_prelease (at_trace s))%nat
  /\ (p_count is_pgrant (at_trace s) = 1%nat ->
      p_count is_preconcile (at_trace s) = p_count is_pdispatch (at_trace s))
  /\ (p_count is_pdispatch (at_trace s) <= 1)%nat
  /\ Forall (charged env r) (at_trace s).
Proof.
  intros Hrun.
  destruct (wp_run _ _ _ _ _ (proxy_request_attempt_spec env host failover r route owns
    (Build_attempt_st w [] {| al_authorization := None; al_dispatched := false; al_outcome := None |})
    ltac:(by constructor) eq_refl eq_refl) Hrun). auto.
Qed.

Definition quiet_env (send : TransportRequest -> eff Z mw_exn TransportResponse) : ProxyEnv Z := {|
  y_float_repr := fun _ => EmptyString;
  y_authorize := fun _ n => (Ok (Some n), n + 1);
  y_send := send;
  y_report := fun _ n => (Ok (), n);
  y_reconcile := fun _ _ n => (Ok (), n);
  y_release := fun _ n => (Ok (), n);
  y_schedule := fun _ n => (Ok (), n);
  y_checkin := fun n => (Ok (), n);
|}.
Definition example_lease : StaticProxyLease :=
  {| l_lease_id := 1; l_route := sr_endpoint (route_of_provider "a" 1); l_request := example_request;
     l_usage := 0; l_maximum_bytes := None; l_released := false |}.

Lemma proxied_attempt_settles_witness :
  exists s, proxy_request_attempt (quiet_env (fun _ n => (Err (X_Cancelled None), n))) "shop.example" true
      (plain_get "https://shop.example/p") {| co_generation := 1; co_lease := example_lease |} false
      (Build_attempt_st 7 [] {| al_authorization := None; al_dispatched := false; al_outcome := None |})
    = (Err (X_Cancelled None), s)
    /\ p_count is_pcheckin (at_trace s) = 1%nat.
Proof.
  eexists. split; [vm_compute; reflexivity|].
  refine (proj1 (proxied_attempt_settles (quiet_env (fun _ n => (Err (X_Cancelled None), n))) "shop.example" true
    (plain_get "https://shop.example/p") {| co_generation := 1; co_lease := example_lease |} false 7
    (Err (X_Cancelled None)) _ _)). vm_compute. reflexivity.
Defined.

(** Sticky route, in every interleaving of attempts, rotations, replacements
    and closing: all attempts in flight hold the current lease of the current
    generation, the active count is their number, a lease is never replaced or
    released while an attempt holds it, and at most one lease exists. *)
Theorem routed_lease_not_replaced_in_use mode w t g l :
  reachable routed_step (routed_start mode) w -> rw_tasks w !! t = Some (Checked g l) ->
  ro_lease (rw_state w) = Some l /\ ro_generation (rw_state w) = g /\ l ∈ rw_live w
  /\ ro_active (rw_state w) = phase_sum checked (rw_tasks w)
  /\ ro_transitioning (rw_state w) = false /\ (forall l', l' ∈ rw_live w -> l' = l).
Proof.
  intros Hr Ht. destruct (routed_inv_reachable _ _ Hr) as [Ha Ho Hi Hcur Hl].
  destruct (Hcur _ _ _ Ht) as [Hlease Hg].
  assert (Htr : ro_transitioning (rw_state w) = false).
  { destruct (ro_transitioning (rw_state w)); [|done]. destruct (Hi eq_refl). congruence. }
  split_and!; auto.
  - apply Hl. by left.
  - intros l' [?|(t' & p & Ht' & Hp)]%Hl; [congruence|]. exfalso.
    rewrite Htr in Ho. by eapply no_owner.
Qed.

(** A first request acquires lease 1 and checks it out. *)
Definition acquired_world : routed_world :=
  {| rw_state := {| ro_mode := MODE_ALWAYS; ro_lease := Some 1; ro_pending_rotation := None; ro_active := 1;
                    ro_transitioning := false; ro_generation := 1; ro_closed := false |};
     rw_tasks := <[7 := Checked 1 1]> (delete 7 (<[7 := Replacing None None]> ∅));
     rw_live := replace_route ∅ None (Some 1) |}.

Lemma acquired_reachable : reachable routed_step (routed_start MODE_ALWAYS) acquired_world.
Proof.
  eapply reach_step; [eapply reach_step; [eapply reach_step; [apply reach_refl|]|]|].
  - eapply (rs_replace _ _ ∅ ∅ 7 None None); reflexivity.
  - eapply (rs_replaced _ _ ∅ 7 None None 1); [reflexivity|set_solver].
  - eapply (rs_checkout _ _ _ _ 7 1 1); reflexivity.
Qed.

Lemma routed_lease_not_replaced_in_use_witness :
  rw_tasks acquired_world !! 7 = Some (Checked 1 1) /\ ro_lease (rw_state acquired_world) = Some 1.
Proof.
  split; [reflexivity|].
  refine (proj1 (routed_lease_not_replaced_in_use MODE_ALWAYS acquired_world 7 1 1 acquired_reachable _)).
  reflexivity.
Defined.

(** Closing releases everything: once the transport is closed and no close
    is still at work, no lease is live, the state holds none, and every later
    attempt or direct request is refused. *)
Theorem routed_close_releases_all mode w :
  reachable routed_step (routed_start mode) w -> ro_closed (rw_state w) = true ->
  phase_sum close_pending (rw_tasks w) = 0 ->
  rw_live w = ∅ /\ ro_lease (rw_state w) = None /\ checkout (rw_state w) = RouteClosed
  /\ is_ok (takes_direct_route (rw_state w)) = false.
Proof.
  intros Hr Hc Hp. destruct (routed_inv_reachable _ _ Hr) as [Ha Ho Hi Hcur Hl].
  destruct (closing_inv_reachable _ _ Hr Hc) as [?|[Hlease Htr]]; [lia|].
  split_and!; [|done| |].
  - apply set_eq. intros l. split; [|set_solver]. intros [?|(t & p & Ht & Hp')]%Hl; [congruence|].
    exfalso. rewrite Htr in Ho. by eapply no_owner.
  - unfold checkout. by rewrite Hc.
  - unfold takes_direct_route, direct_route_generation. rewrite Hc. by case_bool_decide.
Qed.

Definition taken_route : Routed :=
  {| ro_mode := MODE_ALWAYS; ro_lease := None; ro_pending_rotation := None; ro_active := 0;
     ro_transitioning := true; ro_generation := 0; ro_closed := true |}.
Definition closed_world : routed_world :=
  {| rw_state := close_end taken_route;
     rw_tasks := delete 3 (<[3 := Closing None]> (<[3 := CloseWaiting]> ∅));
     rw_live := drop_lease None ∅ |}.

Lemma closed_reachable : reachable routed_step (routed_start MODE_ALWAYS) closed_world.
Proof.
  eapply reach_step; [eapply reach_step; [eapply reach_step; [apply reach_refl|]|]|].
  - eapply (rs_close _ ∅ ∅ 3); reflexivity.
  - eapply (rs_close_take _ taken_route _ _ 3 None); reflexivity.
  - eapply (rs_close_end taken_route _ _ 3 None). reflexivity.
Qed.

Lemma routed_close_releases_all_witness :
  ro_closed (rw_state closed_world) = true /\ rw_live closed_world = ∅.
Proof.
  split; [reflexivity|].
  refine (proj1 (routed_close_releases_all MODE_ALWAYS closed_world closed_reachable eq_refl _)).
  reflexivity.
Defined.
