(* ===== verification/ArtifactStore.v ===== *)
(** The artifact store ([catalogue-dump/.../pipeline/outputs.py]): immutable,
    checksummed batches of projected records on a local file system, their
    compaction into a publication, and the interface the page pipeline relies on. *)
From S2P Require Export Effects Json.
From Stdlib Require Import Ascii.
Open Scope Z_scope.

(** * Identities and objects *)

(** Source: catalogue-dump/pipeline/outputs.py, BatchIdentity. *)
Record BatchIdentity := {
  bi_job_id : string; bi_lineage : string; bi_partition : string; bi_page_id : string; bi_sequence : Z;
  bi_dataset : string; bi_contract : string; bi_projector : string;
}.
#[export] Instance BatchIdentity_eq_dec : EqDecision BatchIdentity.
Proof. solve_decision. Defined.

(** Source: catalogue-dump/pipeline/outputs.py, StoredObject. *)
Record StoredObject := { so_location : string; so_sha256 : string; so_size : Z; so_records : Z }.
#[export] Instance StoredObject_eq_dec : EqDecision StoredObject.
Proof. solve_decision. Defined.

(** Source: catalogue-dump/pipeline/outputs.py, StoredBatch. *)
Record StoredBatch := { sb_object :> StoredObject; sb_identity : BatchIdentity }.
#[export] Instance StoredBatch_eq_dec : EqDecision StoredBatch.
Proof. solve_decision. Defined.

(** [~ '^[0-9a-f]{64}$'] *)
Definition is_sha256 (s : string) : bool :=
  (str_len s =? 64) && str_forall (fun c => char_in 48 57 c || char_in 97 102 c) s.

(** A projected record: the dictionary its model dumps to. *)
Definition record : Type := list (string * json).

(** * The interface *)

(** What [ArtifactStore] promises to the pipeline, over the state [FS] the store
    keeps; [records] is the generator, which may raise while it is consumed.
    Source: catalogue-dump/pipeline/outputs.py, ArtifactStore. *)
Class ArtifactStore (FS : Type) := {
  stage_batch : BatchIdentity -> result pyexn (list record) -> eff FS pyexn StoredBatch;
  publish_dataset : string -> string -> string -> list StoredBatch -> eff FS pyexn StoredObject;
}.

(** The laws of a store: [staged fs i records b] says that [fs] holds [b], the
    batch of [records] under the identity [i]; [separate] that two identities do
    not share an object. *)
Class ArtifactStoreLaws (FS : Type) `{ArtifactStore FS} := {
  staged : FS -> BatchIdentity -> list record -> StoredBatch -> Prop;
  separate : BatchIdentity -> BatchIdentity -> Prop;
  stage_Ok fs i records b fs' : stage_batch i records fs = (Ok b, fs') ->
    exists l, records = Ok l /\ staged fs' i l b;
  stage_again fs i records b : staged fs i records b -> stage_batch i (Ok records) fs = (Ok b, fs);
  stage_keeps fs i records b j other r fs' : staged fs i records b ->
    stage_batch j other fs = (r, fs') -> staged fs' i records b;
  staged_object fs i records b : staged fs i records b ->
    sb_identity b = i /\ so_records b = Z.of_nat (length records);
  staged_separate fs fs' i records b j other c : staged fs i records b -> staged fs' j other c ->
    separate i j -> so_location b <> so_location c;
}.

(** * Paths *)

Definition is_separator (c : ascii) : bool := bool_decide (c = "/"%char).

(** Source: catalogue-dump/pipeline/outputs.py:22-22, SAFE_COMPONENT. *)
Definition safe_component (s : string) : bool :=
  match s with
  | EmptyString => false
  | String c r => is_alnum c && (str_len r <=? 199)
                  && str_forall (fun c => is_alnum c || bool_decide (c ∈ ["."%char; "_"%char; "-"%char])) r
  end.

(** Source: catalogue-dump/pipeline/outputs.py, _component. *)
Definition component (value : string) : result pyexn string :=
  if safe_component value && negb (bool_decide (value ∈ ["."; ".."])) then Ok value
  else Err (ValueError ("unsafe artifact component: " +:+ value)).

(** A normalised absolute path. *)
Definition path : Type := list string.
Definition path_str (p : path) : string := String "/" (str_join "/" p).

(** [Path(location).resolve()] without symbolic links: empty and [.] parts vanish,
    [..] removes the part before it. *)
Definition resolve (location : string) : path :=
  rev (foldl (fun acc part =>
    if bool_decide (part ∈ [""; "."]) then acc
    else if bool_decide (part = "..") then tail acc else part :: acc) [] (str_split "/" location)).

(** [path.relative_to(root)] succeeds. *)
Definition path_within (root p : path) : bool := bool_decide (take (length root) p = root).

(** * The local store *)

(** The parts of the standard library that the store calls on the bytes it
    writes. *)
Record Codec := {
  dumps : record -> string;
  loads : string -> result pyexn json;
  gzip : string -> string;
  gunzip : string -> result pyexn string;
  sha256 : string -> string;
}.

(** The lines a text file iterates over; an unterminated last line counts. *)
Definition newline : ascii := ascii_of_N 10.
Definition text_lines (s : string) : list string :=
  match rev (str_split newline s) with
  | EmptyString :: r => rev r
  | r => rev r
  end.

(** [f"{n:012d}"] of a non-negative integer. *)
Definition zero_padded (n : Z) : string :=
  let s := pretty n in Nat.iter (12 - String.length s) (String "0"%char) s.

(** The files of the store by path. *)
Abbreviation files := (gmap path string).

Section local.
Context (codec : Codec) (root : path).

(** Source: catalogue-dump/pipeline/outputs.py, _opaque_component. *)
Definition opaque_component (value : string) : result pyexn string :=
  if negb (str_isempty value) && (str_len value <=? 2048) then Ok (sha256 codec value)
  else Err (ValueError "opaque artifact identity must contain 1..2048 UTF-8 bytes").

(** The components in the order in which they are checked.
    Source: catalogue-dump/pipeline/outputs.py, BatchIdentity.components. *)
Definition components (i : BatchIdentity) : result pyexn (string * string * string * string * string * string * string) :=
  _ ← ensure (0 <=? bi_sequence i) (ValueError "page sequence must be non-negative");
  job ← component (bi_job_id i);
  lineage ← component (bi_lineage i);
  partition ← opaque_component (bi_partition i);
  page ← opaque_component (bi_page_id i);
  dataset ← component (bi_dataset i);
  contract ← component (bi_contract i);
  projector ← component (bi_projector i);
  Ok (job, lineage, partition, page, dataset, contract, projector).

(** Source: catalogue-dump/pipeline/outputs.py:119-122, LocalArtifactStore.stage_batch. *)
Definition staging_path (i : BatchIdentity) : result pyexn path :=
  '(job, lineage, partition, page, dataset, contract, projector) ← components i;
  Ok (root ++ ["staging"; job; lineage; partition; zero_padded (bi_sequence i) +:+ "-" +:+ page;
             dataset +:+ "." +:+ contract +:+ "." +:+ projector +:+ ".ndjson.gz"]).

(** Source: catalogue-dump/pipeline/outputs.py, _json_line. *)
Definition json_line (r : record) : string := dumps codec r +:+ String newline EmptyString.

(** Source: catalogue-dump/pipeline/outputs.py, LocalArtifactStore._write. *)
Definition write (records : list record) : string * Z :=
  (gzip codec (foldr String.append EmptyString (map json_line records)), Z.of_nat (length records)).

(** Source: catalogue-dump/pipeline/outputs.py, _digest. *)
Definition digest (content : string) : string * Z := (sha256 codec content, str_len content).

(** The end of both operations: an existing target must have the same checksum,
    otherwise the temporary file takes its name.
    Source: catalogue-dump/pipeline/outputs.py:128-137, LocalArtifactStore.stage_batch. *)
Definition install (target : path) (content : string) (count : Z) (changed : pyexn) : eff files pyexn StoredObject :=
  existing ← gets (fun fs : files => fs !! target);
  let stored := {| so_location := path_str target; so_sha256 := (digest content).1; so_size := (digest content).2;
                 so_records := count |} in
  match existing with
  | Some old =>
    _ ← lift (ensure (bool_decide ((digest old).1 = (digest content).1)) changed);
    mret {| so_location := path_str target; so_sha256 := (digest old).1; so_size := (digest old).2;
            so_records := count |}
  | None => _ ← modify (fun fs => <[target := content]> fs); mret stored
  end.

(** Source: catalogue-dump/pipeline/outputs.py, LocalArtifactStore.stage_batch. *)
Definition local_stage_batch (i : BatchIdentity) (records : result pyexn (list record)) : eff files pyexn StoredBatch :=
  target ← lift (staging_path i);
  records ← lift records;
  let '(content, count) := write records in
  stored ← install target content count (ValueError "staged batch changed");
  mret {| sb_object := stored; sb_identity := i |}.

(** Source: catalogue-dump/pipeline/outputs.py, LocalArtifactStore._local_path. *)
Definition local_path (location : string) : result pyexn path :=
  let p := resolve location in
  if path_within root p then Ok p else Err (ValueError ("artifact location is outside store root: " +:+ location)).

(** The objects of one file.
    Source: catalogue-dump/pipeline/outputs.py:183-188, LocalArtifactStore._records. *)
Definition decode (content : string) : result pyexn (list record) :=
  text ← gunzip codec content;
  map_result (fun line =>
  value ← loads codec line;
  match value with
  | JDict d => Ok d
  | _ => Err (ValueError "batch line is not an object")
  end) (text_lines text).

(** The records of one batch, with its checks.
    Source: catalogue-dump/pipeline/outputs.py:179-188, LocalArtifactStore._records. *)
Definition batch_records_of (fs : files) (b : StoredBatch) : result pyexn (list record) :=
  p ← local_path (so_location b);
  match fs !! p with
  | None => Err (RuntimeError "no such file")
  | Some content =>
    _ ← ensure (bool_decide (digest content = (so_sha256 b, so_size b)))
          (ValueError ("staged batch checksum mismatch: " +:+ so_location b));
    decode content
  end.

(** Source: catalogue-dump/pipeline/outputs.py, LocalArtifactStore._records. *)
Fixpoint all_records (fs : files) (seen : list BatchIdentity) (batches : list StoredBatch) : result pyexn (list record) :=
  match batches with
  | [] => Ok []
  | b :: rest =>
    _ ← ensure (negb (bool_decide (sb_identity b ∈ seen))) (ValueError "duplicate page batch");
    records ← batch_records_of fs b;
    others ← all_records fs (sb_identity b :: seen) rest;
    Ok (records ++ others)
  end.

(** Source: catalogue-dump/pipeline/outputs.py, LocalArtifactStore.publish_dataset. *)
Definition local_publish_dataset (job dataset contract : string) (batches : list StoredBatch) : eff files pyexn StoredObject :=
  job ← lift (component job);
  dataset ← lift (component dataset);
  contract ← lift (component contract);
  fs ← gets id;
  records ← lift (all_records fs [] batches);
  let '(content, count) := write records in
  let target := root ++ ["published"; job; dataset +:+ "." +:+ contract +:+ "." +:+ (digest content).1 +:+ ".ndjson.gz"] in
  install target content count (ValueError "published artifact checksum mismatch").

#[export] Instance LocalArtifactStore : ArtifactStore files :=
  {| stage_batch := local_stage_batch; publish_dataset := local_publish_dataset |}.
End local.

(** * Paths of staged objects *)

(** A part that stays itself in a path. *)
Definition proper_part (s : string) : Prop := str_has "/"%char s = false /\ s ∉ [""; "."; ".."].

Lemma str_forall_has f c s : str_forall f s = true -> f c = false -> str_has c s = false.
Proof.
  intros H Hc. induction s as [|d s IH]; simpl in *; [done|]. apply andb_true_iff in H as [Hd H].
  rewrite IH by done. case_bool_decide; [congruence|done].
Qed.

Lemma str_forall_impl (f g : ascii -> bool) s :
  (forall c, f c = true -> g c = true) -> str_forall f s = true -> str_forall g s = true.
Proof.
  intros Hfg. induction s as [|c s IH]; simpl; [done|]. intros [H1 H2]%andb_true_iff.
  by rewrite (Hfg _ H1), IH.
Qed.

Lemma safe_component_proper s : safe_component s = true -> proper_part s.
Proof.
  destruct s as [|c s]; [done|]. cbn [safe_component]. rewrite !andb_true_iff. intros [[Hc _] Hs]. split.
  - simpl. rewrite (str_forall_has _ _ _ Hs) by done. case_bool_decide; [by subst|done].
  - rewrite !elem_of_cons. intros [|[E|[E|[]%elem_of_nil]]]; simplify_eq.
Qed.

Lemma pretty_digits n : 0 <= n -> str_forall is_digit (pretty n) = true.
Proof.
  assert (Hgo : forall x s, str_forall is_digit s = true -> str_forall is_digit (pretty_N_go x s) = true).
  { intros x. induction (N.lt_wf_0 x) as [x _ IH]. intros s Hs. destruct (decide (0 < x)%N) as [Hx|Hx].
    - rewrite pretty_N_go_step by done. apply IH; [by apply N.div_lt|]. simpl. rewrite Hs, andb_true_r.
      assert (Hm : (x mod 10 < 10)%N) by (by apply N.mod_lt). revert Hm. generalize (x mod 10)%N as d. intros d Hd.
      assert (d = 0 \/ d = 1 \/ d = 2 \/ d = 3 \/ d = 4 \/ d = 5 \/ d = 6 \/ d = 7 \/ d = 8 \/ d = 9)%N as Hcases by lia.
      by repeat destruct Hcases as [->|Hcases]; [..|subst].
    - assert (x = 0)%N as -> by lia. by rewrite pretty_N_go_0. }
  destruct n as [|p|p]; [done|..]; [intros _|lia]. unfold pretty, pretty_Z, pretty, pretty_N. by apply Hgo.
Qed.

Lemma str_has_forall f c s : str_forall f s = true -> f c = false -> str_has c s = false.
Proof. apply str_forall_has. Qed.

Lemma zero_padded_digits n : 0 <= n -> str_forall is_digit (zero_padded n) = true.
Proof.
  intros Hn. unfold zero_padded. pose proof (pretty_digits n Hn) as H. revert H.
  generalize (12 - String.length (pretty n))%nat as k. induction k as [|k IH]; simpl; auto.
Qed.

(** A name with a dash or an extension after a first part without separators. *)
Lemma proper_suffixed s suffix c :
  str_has "/"%char s = false -> str_has "/"%char suffix = false ->
  str_has c suffix = true -> c <> "."%char -> proper_part (s +:+ suffix).
Proof.
  intros Hs Ht Hc Hdot. split; [by rewrite str_has_app, Hs, Ht|].
  assert (str_has c (s +:+ suffix) = true) as H by (by rewrite str_has_app, Hc, orb_true_r).
  rewrite !elem_of_cons. intros [E|[E|[E|[]%elem_of_nil]]]; rewrite E in H; cbn in H; [done|..];
    rewrite ?(bool_decide_eq_false_2 ("."%char = c)) in H by congruence; done.
Qed.

Lemma resolve_path_str p : Forall proper_part p -> resolve (path_str p) = p.
Proof.
  intros Hp. unfold resolve, path_str.
  destruct p as [|w p]; [done|].
  assert (str_split "/" (String "/" (str_join "/" (w :: p))) = "" :: w :: p) as ->.
  { cbn [str_split]. rewrite bool_decide_true by done. f_equal.
    apply (str_split_join "/"%char); [done|]. eapply Forall_impl; [exact Hp|]. by intros ? []. }
  change (foldl ?f [] ("" :: w :: p)) with (foldl f [] (w :: p)).
  rewrite <- (rev_involutive (w :: p)) at 2. f_equal.
  enough (Hgen : forall acc, foldl (fun acc part => if bool_decide (part ∈ [""; "."]) then acc
     else if bool_decide (part = "..") then tail acc else part :: acc) acc (w :: p) = rev (w :: p) ++ acc).
  { rewrite Hgen. by rewrite app_nil_r. }
  induction Hp as [|x l [_ Hx] _ IH]; intros acc; [done|]. cbn [foldl].
  rewrite !not_elem_of_cons in Hx. destruct Hx as (? & ? & ? & _).
  rewrite bool_decide_false by (rewrite !elem_of_cons, elem_of_nil; tauto).
  rewrite bool_decide_false by done. rewrite IH. simpl. by rewrite <- app_assoc.
Qed.

Lemma path_within_app root p : path_within root (root ++ p) = true.
Proof. unfold path_within. apply bool_decide_eq_true. by rewrite take_app_length. Qed.

Lemma path_str_inj p q : Forall proper_part p -> Forall proper_part q -> path_str p = path_str q -> p = q.
Proof. intros Hp Hq E. rewrite <- (resolve_path_str p), <- (resolve_path_str q), E by done. done. Qed.

(** * The laws of the local store *)

(** What the store relies on of the standard library, for the records it is
    given: [json] reads back what it wrote on one line, [gzip] likewise, and a
    digest is 64 hexadecimal digits. *)
Record CodecLaws (codec : Codec) (encodable : record -> Prop) : Prop := {
  loads_dumps r : encodable r -> loads codec (dumps codec r) = Ok (JDict r);
  dumps_one_line r : encodable r -> str_has newline (dumps codec r) = false;
  gunzip_gzip s : gunzip codec (gzip codec s) = Ok s;
  sha256_hex s : is_sha256 (sha256 codec s) = true;
}.

Section local_laws.
Context (codec : Codec) (encodable : record -> Prop) (root : path).
Hypothesis laws : CodecLaws codec encodable.
Hypothesis proper_root : Forall proper_part root.
#[local] Existing Instance LocalArtifactStore.

Lemma component_Ok s r : component s = Ok r -> r = s /\ proper_part s.
Proof.
  unfold component. destruct (safe_component s) eqn:E; simpl; [|done].
  case_bool_decide; [done|]. intros; simplify_eq/=. split; [done|by apply safe_component_proper].
Qed.

Lemma hex_alnum c : char_in 48 57 c || char_in 97 102 c = true -> is_alnum c = true.
Proof. unfold is_alnum, is_alpha, is_digit, is_upper, is_lower, char_in. rewrite !orb_true_iff, !andb_true_iff, !Z.leb_le. lia. Qed.

Lemma sha256_part s : proper_part (sha256 codec s).
Proof.
  pose proof (sha256_hex _ _ laws s) as H. unfold is_sha256 in H. apply andb_true_iff in H as [Hl Hf].
  split; [by eapply str_has_forall|]. rewrite !elem_of_cons. intros [E|[E|[E|[]%elem_of_nil]]]; by rewrite E in Hl.
Qed.

Lemma opaque_Ok s r : opaque_component codec s = Ok r -> proper_part r.
Proof. unfold opaque_component. case_match; [|done]. intros; simplify_eq. apply sha256_part. Qed.

Lemma components_Ok i job lineage partition page dataset contract projector :
  components codec i = Ok (job, lineage, partition, page, dataset, contract, projector) ->
  0 <= bi_sequence i /\ Forall proper_part [job; lineage; partition; page; dataset; contract; projector].
Proof.
  unfold components. intros H. step_in H.
  repeat match goal with
  | H : component _ = Ok _ |- _ => apply component_Ok in H as [-> H]
  | H : opaque_component _ _ = Ok _ |- _ => apply opaque_Ok in H
  end.
  match goal with H : (0 <=? _) = true |- _ => apply Z.leb_le in H end. simplify_eq.
  split; [done|]. repeat (apply Forall_cons; split; [done|]). done.
Qed.

Lemma staging_path_proper i p : staging_path codec root i = Ok p -> Forall proper_part p.
Proof.
  unfold staging_path. intros H. apply bind_Ok in H as ([[[[[[job lineage] partition] page] dataset] contract] projector] & E & H).
  apply components_Ok in E as [Hs Hparts]. rewrite !Forall_cons in Hparts.
  destruct Hparts as (? & ? & ? & [Hpage _] & [Hd _] & [Hc _] & [Hp _] & _). simplify_eq.
  apply Forall_app. split; [done|]. repeat (apply Forall_cons; split); try done.
  - split; [done|]. by rewrite !elem_of_cons, elem_of_nil; intros [|[|[|]]].
  - apply (proper_suffixed _ _ "-"%char); try done.
    apply (str_has_forall is_digit); [by apply zero_padded_digits|done].
  - apply (proper_suffixed _ _ "n"%char); try done; rewrite !str_has_app, ?Hc, ?Hp; [done|].
    by rewrite !orb_true_r.
Qed.

(** [fs] holds the batch of [records] under [i]. *)
Definition locally_staged (fs : files) (i : BatchIdentity) (records : list record) (b : StoredBatch) : Prop :=
  exists p content, staging_path codec root i = Ok p /\ fs !! p = Some content
  /\ sha256 codec content = sha256 codec (write codec records).1
  /\ b = {| sb_object := {| so_location := path_str p; so_sha256 := (digest codec content).1;
                            so_size := (digest codec content).2; so_records := Z.of_nat (length records) |};
            sb_identity := i |}.

Lemma install_Ok target content count e fs o fs' :
  install codec target content count e fs = (Ok o, fs') ->
  exists stored, fs' = <[target := stored]> fs /\ sha256 codec stored = sha256 codec content
    /\ o = {| so_location := path_str target; so_sha256 := (digest codec stored).1;
              so_size := (digest codec stored).2; so_records := count |}
    /\ (fs !! target = Some stored \/ (fs !! target = None /\ stored = content)).
Proof.
  unfold install, mbind, eff_bind, gets, lift, ensure, mret, eff_ret, modify.
  destruct (fs !! target) as [old|] eqn:E; [case_bool_decide|]; intros; simplify_eq.
  - exists old. split_and!; [symmetry; by apply insert_id|done..|by left].
  - exists content. split_and!; [done..|by right].
Qed.

Lemma install_keeps target content count e fs r fs' p old :
  install codec target content count e fs = (r, fs') -> fs !! p = Some old -> fs' !! p = Some old.
Proof.
  unfold install, mbind, eff_bind, gets, lift, ensure, mret, eff_ret, modify.
  destruct (fs !! target) as [c|] eqn:E; [case_bool_decide|]; intros; simplify_eq; [done..|].
  rewrite lookup_insert_ne; [done|congruence].
Qed.

Lemma stage_files fs i records r fs' :
  local_stage_batch codec root i records fs = (r, fs') ->
  (fs' = fs /\ exists e, r = Err e) \/ exists p l, staging_path codec root i = Ok p /\ records = Ok l
    /\ (r, fs') = match install codec p (write codec l).1 (write codec l).2 (ValueError "staged batch changed") fs with
                  | (Ok o, fs') => (Ok {| sb_object := o; sb_identity := i |}, fs')
                  | (Err e, fs') => (Err e, fs')
                  end.
Proof.
  unfold local_stage_batch, mbind, eff_bind, lift. destruct (staging_path codec root i) as [p|e]; [|intros; simplify_eq; left; eauto].
  destruct records as [l|e]; [|intros; simplify_eq; left; eauto]. intros H. right. exists p, l. split_and!; [done..|].
  rewrite <- H. destruct (write codec l) as [content count]. simpl.
  by destruct (install codec p content count _ fs) as [[o|e] fs1].
Qed.

Lemma stage_Ok_staged fs i records b fs' :
  local_stage_batch codec root i records fs = (Ok b, fs') ->
  exists l, records = Ok l /\ locally_staged fs' i l b.
Proof.
  intros H. destruct (stage_files _ _ _ _ _ H) as [(_ & e & ?)|(p & l & Hp & Hl & E)]; [done|].
  exists l. split; [done|]. destruct (install _ _ _ _ _ fs) as [[o|] fs1] eqn:Hi; simplify_eq.
  apply install_Ok in Hi as (stored & -> & Hs & -> & _). exists p, stored. by rewrite lookup_insert_eq.
Qed.

Lemma staged_again fs i records b :
  locally_staged fs i records b -> local_stage_batch codec root i (Ok records) fs = (Ok b, fs).
Proof.
  intros (p & content & Hp & Hc & Hs & ->). unfold local_stage_batch, mbind, eff_bind, lift. rewrite Hp.
  unfold install, mbind, eff_bind, gets, lift, ensure, mret, eff_ret. cbn [write digest fst snd] in *. rewrite Hc.
  by rewrite bool_decide_true.
Qed.

#[export] Instance LocalArtifactStoreLaws : @ArtifactStoreLaws files (LocalArtifactStore codec root).
Proof.
  refine {| staged := locally_staged; separate := fun i j => staging_path codec root i <> staging_path codec root j |}.
  - exact stage_Ok_staged.
  - exact staged_again.
  - intros fs i records b j other r fs' (p & content & Hp & Hc & H) E.
    destruct (stage_files _ _ _ _ _ E) as [[-> _]|(q & l & Hq & _ & Ei)]; [by exists p, content|].
    exists p, content. split_and!; [done| |apply H..].
    destruct (install _ _ _ _ _ fs) as [[o|] fs1] eqn:Hi; simplify_eq; by eapply install_keeps.
  - intros fs i records b (p & content & _ & _ & _ & ->). done.
  - intros fs fs' i records b j other c (p & content & Hp & _ & _ & ->) (q & content' & Hq & _ & _ & ->) Hsep E.
    simpl in E. apply Hsep. rewrite Hp, Hq. f_equal. apply path_str_inj; [..|done]; by eapply staging_path_proper.
Defined.

(** * What a publication holds *)

(** No file of the store has the checksum of an encoding without being it. *)
Definition no_collision (fs : files) (records : list record) : Prop :=
  map_Forall (fun _ content => sha256 codec content = sha256 codec (write codec records).1 ->
    content = (write codec records).1) fs.

Lemma text_lines_encoded ls : Forall (fun l => str_has newline l = false) ls ->
  text_lines (foldr String.append EmptyString (map (fun l => l +:+ String newline EmptyString) ls)) = ls.
Proof.
  intros H. unfold text_lines.
  assert (str_split newline (foldr String.append EmptyString (map (fun l => l +:+ String newline EmptyString) ls))
    = ls ++ [EmptyString]) as ->; [|rewrite rev_app_distr; cbn [rev app]; by apply rev_involutive].
  induction H as [|l ls Hl H IH]; [done|]. cbn [map foldr app].
  set (rest := foldr _ _ _) in *.
  assert ((l +:+ String newline EmptyString) +:+ rest = l +:+ String newline rest) as ->.
  { clear. induction l as [|c l IH]; [done|]. by rewrite !str_app_cons, IH. }
  by rewrite str_split_app, IH.
Qed.

Lemma decode_write records : Forall encodable records -> decode codec (write codec records).1 = Ok records.
Proof.
  intros He. unfold decode, write. simpl. rewrite (gunzip_gzip _ _ laws). simpl.
  assert (map (json_line codec) records = map (fun l => l +:+ String newline EmptyString) (map (dumps codec) records)) as ->
    by (by rewrite map_map).
  rewrite text_lines_encoded.
  - induction He as [|r l Hr _ IH]; [done|]. simpl. rewrite (loads_dumps _ _ laws) by done. simpl. by rewrite IH.
  - apply Forall_map. eapply Forall_impl; [exact He|]. intros r. apply (dumps_one_line _ _ laws).
Qed.

Lemma staged_records fs i records b :
  locally_staged fs i records b -> Forall encodable records -> no_collision fs records -> batch_records_of codec root fs b = Ok records.
Proof.
  intros (p & content & Hp & Hc & Hs & ->) He Hn. unfold batch_records_of, local_path. cbn [sb_object so_location].
  pose proof (staging_path_proper _ _ Hp) as Hproper. rewrite resolve_path_str by done.
  assert (path_within root p = true) as ->.
  { unfold staging_path in Hp. apply bind_Ok in Hp as ([[[[[[? ?] ?] ?] ?] ?] ?] & _ & Hp). simplify_eq. apply path_within_app. }
  simpl. rewrite Hc. rewrite bool_decide_true by done. simpl.
  rewrite (Hn p content) by done. by apply decode_write.
Qed.

Lemma all_records_staged fs (l : list (BatchIdentity * list record * StoredBatch)) seen :
  Forall (fun '(i, records, b) => locally_staged fs i records b /\ Forall encodable records /\ no_collision fs records /\ i ∉ seen) l ->
  NoDup (map (fun x => x.1.1) l) ->
  all_records codec root fs seen (map snd l) = Ok (concat (map (fun x => x.1.2) l)).
Proof.
  revert seen. induction l as [|[[i records] b] l IH]; intros seen Hl Hd; [done|].
  apply Forall_cons in Hl as [(Hs & He & Hn & Hi) Hl]. apply NoDup_cons in Hd as [Hd1 Hd2]. simpl.
  assert (sb_identity b = i) as -> by (by destruct Hs as (p & content & _ & _ & _ & ->)).
  rewrite bool_decide_false by done. simpl. rewrite (staged_records _ _ _ _ Hs He Hn). simpl.
  rewrite IH; [done| |done]. apply Forall_forall. intros [[j rs] c] Hj.
  pose proof (proj1 (Forall_forall _ _) Hl _ Hj) as (? & ? & ? & ?). split_and!; [done..|].
  rewrite elem_of_cons. intros [->|?]; [|done]. apply Hd1. apply list_elem_of_fmap. by exists (i, rs, c).
Qed.

(** What is staged is what is published: over any store, publishing staged
  batches of distinct identities writes one object whose checksum, size and
  record count are those of the file, and that file decodes to the records of
  the batches, in their order. *)
Lemma published_records fs job dataset contract l o fs' :
  Forall (fun '(i, records, b) => locally_staged fs i records b /\ Forall encodable records /\ no_collision fs records) l ->
  NoDup (map (fun x => x.1.1) l) ->
  let published := concat (map (fun x => x.1.2) l) in
  no_collision fs published ->
  local_publish_dataset codec root job dataset contract (map snd l) fs = (Ok o, fs') ->
  exists p content, so_location o = path_str p /\ fs' !! p = Some content
    /\ digest codec content = (so_sha256 o, so_size o) /\ decode codec content = Ok published
    /\ so_records o = Z.of_nat (length published)
    /\ (forall q old, fs !! q = Some old -> fs' !! q = Some old).
Proof.
  intros Hl Hd published Hn. unfold local_publish_dataset, mbind, eff_bind, lift, gets, id.
  destruct (component job); [|done]. destruct (component dataset); [|done]. destruct (component contract); [|done].
  rewrite all_records_staged; [|eapply Forall_impl; [exact Hl|]; intros [[i rs] b] (? & ? & ?); split_and!; [done..|apply not_elem_of_nil]|done].
  fold published. unfold write at 1. set (target := root ++ _). intros H.
  pose proof H as Hi. apply install_Ok in H as (stored & -> & Hs & -> & Hold).
  assert (stored = (write codec published).1) as ->.
  { destruct Hold as [Ht|[_ ->]]; [by apply (Hn target)|done]. }
  exists target, (write codec published).1. split_and!; [done|by rewrite lookup_insert_eq|done| |done|].
  { apply decode_write, Forall_concat, Forall_map. eapply Forall_impl; [exact Hl|]. by intros [[i rs] b] (? & ? & ?). }
  intros q old. by eapply install_keeps.
Qed.

(** Staging again under the same identity: the same records change nothing, and
  records of another encoding are refused. *)
Lemma stage_other_records fs i records other b :
  locally_staged fs i records b -> sha256 codec (write codec other).1 <> sha256 codec (write codec records).1 ->
  local_stage_batch codec root i (Ok other) fs = (Err (ValueError "staged batch changed"), fs).
Proof.
  intros (p & content & Hp & Hc & Hs & ->) Hne. unfold local_stage_batch, mbind, eff_bind, lift. rewrite Hp.
  unfold install, mbind, eff_bind, gets, lift, ensure. cbn [write digest fst snd] in *. rewrite Hc.
  rewrite bool_decide_false; [done|]. congruence.
Qed.
End local_laws.

(** * A store at work *)

Module StoreDemo.
Definition red : record := [("title", JStr "red")].
Definition blue : record := [("title", JStr "blue")].

(** A digest of 64 equal digits. *)
Definition digit_digest (s : string) : string :=
  Nat.iter 64 (String (chr (48 + str_len s mod 10))) EmptyString.

Definition codec : Codec :=
  {| dumps := fun r => if bool_decide (r = red) then "1" else "22";
   loads := fun s => Ok (JDict (if bool_decide (s = "1") then red else blue));
   gzip := id; gunzip := Ok; sha256 := digit_digest |}.

Lemma codec_laws : CodecLaws codec (fun r => r ∈ [red; blue]).
Proof.
  split.
  - intros r. rewrite !elem_of_cons, elem_of_nil. by intros [->|[->|[]]].
  - intros r. rewrite !elem_of_cons, elem_of_nil. by intros [->|[->|[]]].
  - done.
  - intros s. cbn [sha256 codec]. unfold digit_digest.
  assert (Hd : 0 <= str_len s mod 10 < 10) by (by apply Z.mod_pos_bound). revert Hd. generalize (str_len s mod 10) as d. intros d Hd.
  assert (Hc : d = 0 \/ d = 1 \/ d = 2 \/ d = 3 \/ d = 4 \/ d = 5 \/ d = 6 \/ d = 7 \/ d = 8 \/ d = 9) by lia.
  by repeat destruct Hc as [->|Hc]; [..|subst].
Defined.

Lemma is_ok_Ok {S X A} (p : result X A * S) : is_ok p.1 = true -> exists a s, p = (Ok a, s).
Proof. destruct p as [[a|e] s]; [by exists a, s|done]. Defined.

Lemma proper_data : Forall proper_part ["data"].
Proof. apply Forall_singleton. split; [done|]. by rewrite !elem_of_cons, elem_of_nil; intros [|[|[|]]]. Defined.

Lemma no_collision_dec codec fs records :
  bool_decide (map_Forall (fun _ content => sha256 codec content = sha256 codec (write codec records).1 ->
  content = (write codec records).1) (fs : files)) = true -> no_collision codec fs records.
Proof. intros H. by apply bool_decide_eq_true in H. Qed.
End StoreDemo.

(** The parts of a staged file's name may contain dots, so identities that differ
    in dataset and contract can name the same file. *)
Lemma dotted_names_share_a_file :
  let i := {| bi_job_id := "1"; bi_lineage := "2"; bi_partition := "main"; bi_page_id := "p"; bi_sequence := 0;
              bi_dataset := "items.v1"; bi_contract := "2"; bi_projector := "1" |} in
  let j := {| bi_job_id := "1"; bi_lineage := "2"; bi_partition := "main"; bi_page_id := "p"; bi_sequence := 0;
              bi_dataset := "items"; bi_contract := "v1.2"; bi_projector := "1" |} in
  i <> j /\ staging_path StoreDemo.codec ["data"] i = staging_path StoreDemo.codec ["data"] j.
Proof. split; [done|reflexivity]. Qed.
