(* ===== verification/Commerce.v ===== *)
(** The neutral commerce entities ([commerce-scraper/.../models/commerce.py]) with
    the validators pydantic runs, and the egress sanitisation of a snapshot. *)
From S2P Require Export Models Sanitization.
From Stdlib Require Import Ascii.

(** * Field types *)

(** The ASCII characters pydantic's [strip_whitespace] removes. *)
Definition pydantic_space (c : ascii) : bool := char_in 9 13 c || (ord c =? 32).

(** Source: models/commerce.py:22-22, NonEmpty. *)
Definition non_empty (s : string) : result pyexn string :=
  let stripped := str_rstrip pydantic_space (str_lstrip pydantic_space s) in
  _ ← ensure (negb (str_isempty stripped)) (ValueError "String should have at least 1 character");
  Ok stripped.

(** An optional [NonEmpty] field. *)
Definition non_empty_opt (s : option string) : result pyexn (option string) :=
  match s with None => Ok None | Some s => t ← non_empty s; Ok (Some t) end.

(** [a < b] on decimals; a comparison with a non-finite one is false here. *)
Definition decimal_ltb (a b : decimal) : bool :=
  match a, b with
  | Finite m e, Finite n f => let k := Z.min e f in m * 10 ^ (e - k) <? n * 10 ^ (f - k)
  | _, _ => false
  end.

Lemma decimal_ltb_irrefl a : decimal_ltb a a = false.
Proof. destruct a as [m e|]; simpl; [|done]. rewrite Z.min_id, Z.ltb_irrefl. done. Qed.

(** * Entities *)

(** Source: models/commerce.py, Evidence. *)
Record Evidence := {
  ev_method : string;
  ev_source_url : string;
  ev_source_field : option string;
  ev_observed_at : Z;
  ev_confidence : string;
}.

(** With the default confidence. Source: models/commerce.py, Evidence. *)
Definition new_evidence (method url : string) (field : option string) (observed_at : Z) : result pyexn Evidence :=
  _ ← ensure (bool_decide (method ∈ ["api"; "jsonld"; "microdata"; "opengraph"; "html"; "cart_ceiling"; "browser"]))
        (ValueError "unknown evidence method");
  url ← non_empty url; field ← non_empty_opt field;
  Ok {| ev_method := method; ev_source_url := url; ev_source_field := field; ev_observed_at := observed_at;
        ev_confidence := "published" |}.

(** Source: models/commerce.py, CategoryRef. *)
Record CategoryRef := { cat_name : string; cat_external_id : option string; cat_url : option string }.

(** Source: models/commerce.py, CategoryRef. *)
Definition new_category (name : string) : result pyexn CategoryRef :=
  name ← non_empty name; Ok {| cat_name := name; cat_external_id := None; cat_url := None |}.

(** Source: models/commerce.py, MediaRef. *)
Record MediaRef := {
  media_url : string; media_type : option string; media_alt_text : option string;
  media_external_id : option string;
}.

(** Source: models/commerce.py, MediaRef. *)
Definition new_media (url : string) (alt_text external_id : option string) : result pyexn MediaRef :=
  url ← non_empty url; external_id ← non_empty_opt external_id;
  Ok {| media_url := url; media_type := None; media_alt_text := alt_text; media_external_id := external_id |}.

(** Source: models/commerce.py, DocumentRef. *)
Record DocumentRef := {
  doc_url : string; doc_observed_at : Z; doc_evidence : list Evidence; doc_title : option string;
  doc_media_type : option string; doc_external_id : option string;
}.

(** Source: models/commerce.py, DocumentRef. *)
Definition new_document (url : string) (observed_at : Z) (evidence : list Evidence) (title : option string)
  : result pyexn DocumentRef :=
  url ← non_empty url;
  _ ← ensure (negb (bool_decide (length evidence = 0%nat))) (ValueError "evidence is empty");
  Ok {| doc_url := url; doc_observed_at := observed_at; doc_evidence := evidence; doc_title := title;
        doc_media_type := None; doc_external_id := None |}.

(** Source: models/commerce.py, StockState. *)
Record StockState := {
  s_availability : Availability;
  s_quantity : option Z;
  s_quantity_kind : StockQuantityKind;
  s_observed_at : Z;
  s_evidence : list Evidence;
}.

(** The field constraints followed by the model validator.
    Source: models/commerce.py:90-108, StockState.quantity_and_kind_agree. *)
Definition valid_stock (s : StockState) : result pyexn StockState :=
  _ ← ensure (match s_quantity s with None => true | Some q => 0 <=? q end) (ValueError "quantity is negative");
  _ ← ensure (negb (bool_decide (length (s_evidence s) = 0%nat))) (ValueError "evidence is empty");
  _ ← ensure (Bool.eqb (is_none (s_quantity s)) (bool_decide (s_quantity_kind s = QUANTITY_UNKNOWN)))
        (ValueError "quantity is present exactly when quantity_kind is known");
  Ok s.

(** Source: models/commerce.py, CommerceOffer. *)
Record CommerceOffer := {
  o_price : Money;
  o_observed_at : Z;
  o_evidence : list Evidence;
  o_role : string;
  o_vat_status : string;
  o_vat_rate : option decimal;
  o_minimum_quantity : option decimal;
  o_unit : option string;
  o_pack_size : option decimal;
  o_valid_from : option Z;
  o_valid_until : option Z;
  o_seller_id : option string;
  o_seller_name : option string;
  o_availability : option Availability;
  o_availability_evidence : list Evidence;
}.

(** An offer with the defaults of the fields no caller names. *)
Definition plain_offer (price : Money) (observed_at : Z) (evidence : list Evidence) (role vat_status : string)
    (availability : option Availability) (availability_evidence : list Evidence) : CommerceOffer :=
  {| o_price := price; o_observed_at := observed_at; o_evidence := evidence; o_role := role; o_vat_status := vat_status;
     o_vat_rate := None; o_minimum_quantity := None; o_unit := None; o_pack_size := None; o_valid_from := None;
     o_valid_until := None; o_seller_id := None; o_seller_name := None; o_availability := availability;
     o_availability_evidence := availability_evidence |}.

(** [0 < d], [0 <= d] and [d <= 1] hold of a finite decimal only. *)
Definition decimal_positive (d : decimal) : bool := decimal_ltb (Finite 0 0) d.
Definition decimal_fraction (d : decimal) : bool :=
  decimal_sign_nonneg d && negb (decimal_ltb (Finite 1 0) d).
Definition opt_forall {A} (f : A -> bool) (o : option A) : bool := match o with Some a => f a | None => true end.

(** The field constraints followed by the model validator.
    Source: models/commerce.py:111-134, CommerceOffer.validate_offer. *)
Definition valid_offer (o : CommerceOffer) : result pyexn CommerceOffer :=
  _ ← valid_money (o_price o);
  _ ← ensure (negb (bool_decide (length (o_evidence o) = 0%nat))) (ValueError "evidence is empty");
  _ ← ensure (bool_decide (o_role o ∈ ["regular"; "sale"; "member"; "quantity_tier"])) (ValueError "unknown role");
  _ ← ensure (bool_decide (o_vat_status o ∈ ["inclusive"; "exclusive"; "unknown"])) (ValueError "unknown VAT status");
  _ ← ensure (opt_forall decimal_fraction (o_vat_rate o)) (ValueError "VAT rate out of range");
  _ ← ensure (opt_forall decimal_positive (o_minimum_quantity o)) (ValueError "minimum quantity is not positive");
  unit_ ← non_empty_opt (o_unit o);
  _ ← ensure (opt_forall decimal_positive (o_pack_size o)) (ValueError "pack size is not positive");
  seller_id ← non_empty_opt (o_seller_id o); seller_name ← non_empty_opt (o_seller_name o);
  _ ← ensure (match o_valid_from o, o_valid_until o with Some a, Some b => a <=? b | _, _ => true end)
        (ValueError "offer valid_until cannot precede valid_from");
  _ ← ensure (is_none (o_availability o) || negb (bool_decide (length (o_availability_evidence o) = 0%nat)))
        (ValueError "published offer availability requires evidence");
  Ok {| o_price := o_price o; o_observed_at := o_observed_at o; o_evidence := o_evidence o; o_role := o_role o;
        o_vat_status := o_vat_status o; o_vat_rate := o_vat_rate o; o_minimum_quantity := o_minimum_quantity o;
        o_unit := unit_; o_pack_size := o_pack_size o; o_valid_from := o_valid_from o; o_valid_until := o_valid_until o;
        o_seller_id := seller_id; o_seller_name := seller_name; o_availability := o_availability o;
        o_availability_evidence := o_availability_evidence o |}.

(** Source: models/commerce.py, CommerceVariant. *)
Record CommerceVariant := {
  v_external_id : string;
  v_is_default : bool;
  v_canonical_url : option string;
  v_title : option string;
  v_sku : option string;
  v_gtin : option string;
  v_image : option MediaRef;
  v_options : list (string * string);
  v_offers : list CommerceOffer;
  v_stock : option StockState;
  v_published_attributes : list (string * json);
  v_platform_extensions : json;
}.

(** Source: models/commerce.py, CommerceVariant.sanitize_platform_extensions. *)
Definition new_variant (v : CommerceVariant) : result pyexn CommerceVariant :=
  id ← non_empty (v_external_id v); url ← non_empty_opt (v_canonical_url v);
  Ok {| v_external_id := id; v_is_default := v_is_default v; v_canonical_url := url;
        v_title := v_title v; v_sku := v_sku v; v_gtin := v_gtin v;
        v_image := v_image v; v_options := v_options v; v_offers := v_offers v; v_stock := v_stock v;
        v_published_attributes := v_published_attributes v;
        v_platform_extensions :=
          sanitize_json_value DEFAULT_JSON_SANITIZATION_LIMITS (v_platform_extensions v) |}.

(** Source: models/commerce.py, CommerceProductSnapshot. *)
Record CommerceProductSnapshot := {
  sn_connector : string;
  sn_source_id : string;
  sn_external_id : string;
  sn_canonical_url : string;
  sn_title : string;
  sn_observed_at : Z;
  sn_description : option string;
  sn_vendor : option string;
  sn_categories : list CategoryRef;
  sn_images : list MediaRef;
  sn_documents : list DocumentRef;
  sn_variants : list CommerceVariant;
  sn_source_updated_at : option Z;
  sn_published_attributes : list (string * json);
  sn_platform_extensions : json;
}.

(** Source: models/commerce.py, CommerceProductSnapshot.sanitize_platform_extensions. *)
Definition new_snapshot (s : CommerceProductSnapshot) : result pyexn CommerceProductSnapshot :=
  connector ← non_empty (sn_connector s); source_id ← non_empty (sn_source_id s);
  external_id ← non_empty (sn_external_id s); url ← non_empty (sn_canonical_url s);
  title ← non_empty (sn_title s);
  Ok {| sn_connector := connector; sn_source_id := source_id; sn_external_id := external_id;
        sn_canonical_url := url; sn_title := title; sn_observed_at := sn_observed_at s;
        sn_description := sn_description s; sn_vendor := sn_vendor s; sn_categories := sn_categories s;
        sn_images := sn_images s; sn_documents := sn_documents s; sn_variants := sn_variants s;
        sn_source_updated_at := sn_source_updated_at s; sn_published_attributes := sn_published_attributes s;
        sn_platform_extensions :=
          sanitize_json_value DEFAULT_JSON_SANITIZATION_LIMITS (sn_platform_extensions s) |}.

(** * Egress *)

Definition sanitize_variant (v : CommerceVariant) : CommerceVariant :=
  {| v_external_id := v_external_id v; v_is_default := v_is_default v; v_canonical_url := v_canonical_url v;
     v_title := v_title v; v_sku := v_sku v; v_gtin := v_gtin v;
     v_image := v_image v; v_options := v_options v; v_offers := v_offers v; v_stock := v_stock v;
     v_published_attributes := v_published_attributes v;
     v_platform_extensions := sanitize_json_value DEFAULT_JSON_SANITIZATION_LIMITS (v_platform_extensions v) |}.

(** Source: models/commerce.py, sanitize_commerce_snapshot. *)
Definition sanitize_commerce_snapshot (s : CommerceProductSnapshot) : CommerceProductSnapshot :=
  {| sn_connector := sn_connector s; sn_source_id := sn_source_id s; sn_external_id := sn_external_id s;
     sn_canonical_url := sn_canonical_url s; sn_title := sn_title s; sn_observed_at := sn_observed_at s;
     sn_description := sn_description s; sn_vendor := sn_vendor s; sn_categories := sn_categories s;
     sn_images := sn_images s; sn_documents := sn_documents s;
     sn_variants := map sanitize_variant (sn_variants s);
     sn_source_updated_at := sn_source_updated_at s; sn_published_attributes := sn_published_attributes s;
     sn_platform_extensions :=
       sanitize_json_value DEFAULT_JSON_SANITIZATION_LIMITS (sn_platform_extensions s) |}.

(** * Facts *)

Lemma non_empty_Ok s t : non_empty s = Ok t -> str_isempty t = false.
Proof. unfold non_empty. intros (u & Hu & H)%bind_Ok. simplify_eq. by apply ensure_Ok, negb_true_iff in Hu. Qed.

(** * Well-typed entities *)

(** An amount of money that can be asked for: finite, not negative, in a currency. *)
Definition money_typed (m : Money) : Prop :=
  (exists n e, m_amount m = Finite n e /\ 0 <= n) /\ str_len (m_currency m) = 3.
(** An offer is evidenced, in one of the known roles, and an availability it publishes
    is evidenced too. *)
Definition offer_typed (o : CommerceOffer) : Prop :=
  money_typed (o_price o) /\ o_evidence o <> [] /\ o_role o ∈ ["regular"; "sale"; "member"; "quantity_tier"]
  /\ o_vat_status o ∈ ["inclusive"; "exclusive"; "unknown"] /\ (o_availability o <> None -> o_availability_evidence o <> []).
(** A quantity is given exactly when its kind is known. *)
Definition stock_typed (s : StockState) : Prop :=
  s_evidence s <> [] /\ (forall q, s_quantity s = Some q -> 0 <= q) /\ (s_quantity s = None <-> s_quantity_kind s = QUANTITY_UNKNOWN).
Definition variant_typed (v : CommerceVariant) : Prop :=
  v_external_id v <> EmptyString /\ Forall offer_typed (v_offers v) /\ forall s, v_stock v = Some s -> stock_typed s.
Definition snapshot_typed (s : CommerceProductSnapshot) : Prop :=
  sn_external_id s <> EmptyString /\ sn_canonical_url s <> EmptyString /\ sn_title s <> EmptyString
  /\ Forall variant_typed (sn_variants s) /\ Forall (fun c => cat_name c <> EmptyString) (sn_categories s)
  /\ Forall (fun m => media_url m <> EmptyString) (sn_images s)
  /\ Forall (fun d => doc_url d <> EmptyString /\ doc_evidence d <> []) (sn_documents s).

Lemma isempty_false s : str_isempty s = false -> s <> EmptyString.
Proof. by intros H ->. Qed.
Lemma non_empty_typed s t : non_empty s = Ok t -> t <> EmptyString.
Proof. intros H%non_empty_Ok. by apply isempty_false. Qed.
Lemma evidence_given {A} (l : list A) : negb (bool_decide (length l = 0%nat)) = true -> l <> [].
Proof. by intros H%negb_true_iff%bool_decide_eq_false ->. Qed.
(** Undo the binds of a validator, keeping what each check establishes. *)
Ltac unbind H := repeat (let u := fresh "u" in let E := fresh "E" in apply bind_Ok in H as (u & E & H); first [apply ensure_Ok in E|idtac]).
Lemma valid_money_typed m m' : valid_money m = Ok m' -> m' = m /\ money_typed m.
Proof.
unfold valid_money. intros H. unbind H. injection H as <-. split; [done|]. apply andb_true_iff in E1 as [E1%Z.eqb_eq _].
destruct (m_amount m) as [n e|] eqn:Em; [|done]. split; [|done]. exists n, e. split; [done|]. by apply Z.leb_le.
Qed.
Lemma valid_offer_typed o o' : valid_offer o = Ok o' ->
  offer_typed o' /\ o_price o' = o_price o /\ o_role o' = o_role o /\ o_evidence o' = o_evidence o.
Proof.
unfold valid_offer. intros H. unbind H. apply valid_money_typed in E as [-> Hm]. injection H as <-. split_and!; [|done..].
split_and!; simpl; [done|by apply evidence_given|by eapply bool_decide_eq_true|by eapply bool_decide_eq_true|].
intros Ha. apply evidence_given. by destruct (o_availability o).
Qed.
Lemma valid_stock_typed s s' : valid_stock s = Ok s' -> stock_typed s'.
Proof.
unfold valid_stock. intros H. unbind H. injection H as <-. split; [by apply evidence_given|split; [intros q Hq; rewrite Hq in E; by apply Z.leb_le|]].
apply eqb_prop in E1. destruct (s_quantity s); cbn [is_none is_some negb] in E1; symmetry in E1; bool_facts; by split.
Qed.
Lemma new_snapshot_typed s s' : new_snapshot s = Ok s' -> Forall variant_typed (sn_variants s) ->
  Forall (fun c => cat_name c <> EmptyString) (sn_categories s) -> Forall (fun m => media_url m <> EmptyString) (sn_images s) ->
  Forall (fun d => doc_url d <> EmptyString /\ doc_evidence d <> []) (sn_documents s) ->
  snapshot_typed s' /\ non_empty (sn_connector s) = Ok (sn_connector s') /\ non_empty (sn_source_id s) = Ok (sn_source_id s')
  /\ sn_variants s' = sn_variants s.
Proof.
unfold new_snapshot. intros H Hv Hc Hi Hd. unbind H. injection H as <-. split_and!; try done.
split_and!; simpl; try done; by eapply non_empty_typed.
Qed.
