(* ===== verification/Connector.v ===== *)
(** What the shop connectors of the library share
    ([commerce-scraper/.../connectors/base.py], [models/checkpoints.py]): the
    exceptions they tell apart, access to decoded JSON, capabilities, checkpoints
    and the asynchronous generators their [collect] methods are. *)
From S2P Require Export Effects Models Transport Sanitization.
From Stdlib Require Import Ascii.

(** * Exceptions *)

(** The exceptions a connector meets, by the classes its handlers name; [text]
    is [str(error)]. The first three and [E_Runtime] are [RuntimeError]s,
    [E_Value] a [ValueError], [E_Type] a [TypeError]. *)
Inductive conn_exn :=
| E_BudgetExhausted (text : string)
| E_BodyTooLarge (text : string)
| E_TransportFailure (text : string)
| E_Runtime (text : string)
| E_Value (text : string)
| E_Type (text : string)
| E_Other (text : string).

Definition exn_text (e : conn_exn) : string :=
  match e with
  | E_BudgetExhausted t | E_BodyTooLarge t | E_TransportFailure t | E_Runtime t | E_Value t
  | E_Type t | E_Other t => t
  end.

Definition is_too_large (e : conn_exn) : bool := match e with E_BodyTooLarge _ => true | _ => false end.

(** A pydantic [ValidationError] is a [ValueError]. *)
Definition of_pyexn (e : pyexn) : conn_exn :=
  match e with
  | ValueError m => E_Value m | TypeError m => E_Type m | RuntimeError m => E_Runtime m
  | KeyError m => E_Other m | AssertionError m => E_Other m
  end.
Definition checked {W A} (r : result pyexn A) : eff W conn_exn A := fun w =>
  match r with Ok a => (Ok a, w) | Err e => (Err (of_pyexn e), w) end.

(** * Decoded JSON *)

(** [bool(v)] *)
Definition truthy (v : json) : bool :=
  match v with
  | JNull => false
  | JBool b => b
  | JInt n => negb (n =? 0)
  | JFloat (FFinite m _) => negb (m =? 0)
  | JFloat _ => true
  | JStr s => negb (str_isempty s)
  | JList l => negb (bool_decide (l = []))
  | JDict d => negb (bool_decide (d = []))
  end.

(** [d.get(key)] *)
Definition get (d : list (string * json)) (key : string) : json := default JNull (dict_get key d).

(** [v or other] *)
Definition or_else (v other : json) : json := if truthy v then v else other.

Section text.
(** The [str] of floats and containers. *)
Context (repr : json -> string).

Definition py_str (v : json) : string :=
  match v with
  | JStr s => s
  | JInt n => pretty n
  | JNull => "None"
  | JBool true => "True"
  | JBool false => "False"
  | _ => repr v
  end.

(** [str(d.get(key) or "")] *)
Definition text_of (d : list (string * json)) (key : string) : string := py_str (or_else (get d key) (JStr "")).
End text.

(** The items of [v or []]: a string iterates over its characters, a dictionary
    over its keys, a number does not iterate. *)
Definition items_of (v : json) : result pyexn (list json) :=
  if negb (truthy v) then Ok [] else
  match v with
  | JList l => Ok l
  | JStr s => Ok (map (fun c => JStr (String c EmptyString)) (String.list_ascii_of_string s))
  | JDict d => Ok (map (fun kv => JStr kv.1) d)
  | _ => Err (TypeError "object is not iterable")
  end.

Definition as_dict (v : json) : option (list (string * json)) :=
  match v with JDict d => Some d | _ => None end.

(** [item for item in (v or []) if isinstance(item, dict)] *)
Definition dicts_of (v : json) : result pyexn (list (list (string * json))) :=
  match items_of v with Ok l => Ok (omap as_dict l) | Err e => Err e end.

(** * Capabilities *)

(** Source: connectors/base.py, BrowserRequirement. *)
Inductive BrowserRequirement := NEVER | OPTIONAL | REQUIRED.
#[export] Instance BrowserRequirement_eq_dec : EqDecision BrowserRequirement.
Proof. solve_decision. Defined.

(** Source: connectors/base.py:34-42, ConnectorCapabilities. *)
Record ConnectorCapabilities := {
  cap_snapshot_fields : list SnapshotField;
  cap_refresh_modes : list RefreshMode;
  cap_stock_kinds : list StockQuantityKind;
  cap_incremental_cursor : bool;
  cap_category_filter : bool;
  cap_documents : bool;
  cap_browser : BrowserRequirement;
  cap_shared_edge : option string;
}.

(** Source: connectors/base.py, ConnectorCapabilities.consistent. *)
Definition consistent (c : ConnectorCapabilities) : result pyexn ConnectorCapabilities :=
  _ ← ensure (negb (cap_incremental_cursor c) || bool_decide (INCREMENTAL ∈ cap_refresh_modes c))
        (ValueError "incremental cursor support requires incremental refresh mode");
  _ ← ensure (negb (cap_documents c) || bool_decide (F_DOCUMENTS ∈ cap_snapshot_fields c))
        (ValueError "document support requires the documents field");
  _ ← ensure (bool_decide (cap_stock_kinds c = []) || bool_decide (F_STOCK ∈ cap_snapshot_fields c))
        (ValueError "stock kinds require the stock field");
  _ ← ensure (match cap_shared_edge c with
              | None => true
              | Some e => negb (str_isempty (str_strip e)) && bool_decide (e = str_strip e) end)
        (ValueError "shared edge must be a non-empty normalized name");
  Ok c.

(** Source: connectors/base.py, ConnectorCapabilities.supports. *)
Definition supports (c : ConnectorCapabilities) (fields : list SnapshotField) (mode : RefreshMode) : bool :=
  forallb (fun f => bool_decide (f ∈ cap_snapshot_fields c)) fields
  && bool_decide (mode ∈ cap_refresh_modes c).

Definition stock_kind_value (k : StockQuantityKind) : string :=
  match k with
  | EXACT => "exact" | LOWER_BOUND => "lower_bound" | UPPER_BOUND => "upper_bound"
  | ORDER_LIMIT => "order_limit" | QUANTITY_UNKNOWN => "unknown"
  end.

(** The names of the declared capabilities, as a set.
    Source: connectors/base.py, ConnectorCapabilities.named_capabilities. *)
Definition named_capabilities (c : ConnectorCapabilities) : gset string :=
  list_to_set
    ((if cap_incremental_cursor c then ["incremental_cursor"] else [])
     ++ (if cap_category_filter c then ["category_filter"] else [])
     ++ (if cap_documents c then ["documents"] else [])
     ++ map (fun k => "stock:" +:+ stock_kind_value k) (cap_stock_kinds c)
     ++ match cap_shared_edge c with
        | Some e => if str_isempty e then [] else ["shared_edge:" +:+ e]
        | None => [] end).

(** * Checkpoints *)

(** Source: models/checkpoints.py:32-39, ConnectorCheckpoint. *)
Record ConnectorCheckpoint := {
  k_connector : string;
  k_connector_version : string;
  k_source_id : string;
  k_lineage : string;
  k_fingerprint : string;
  k_resume_after : json;
}.

(** [StrEnum] values. Source: models/collection.py, RefreshMode. *)
Definition refresh_value (m : RefreshMode) : string :=
  match m with FULL => "full" | INCREMENTAL => "incremental" end.
(** Source: models/collection.py:12-22, SnapshotField. *)
Definition field_value (f : SnapshotField) : string :=
  match f with
  | F_IDENTITY => "identity" | F_DESCRIPTION => "description" | F_CATEGORIES => "categories"
  | F_IMAGES => "images" | F_VARIANTS => "variants" | F_OFFERS => "offers" | F_STOCK => "stock"
  | F_DOCUMENTS => "documents" | F_PUBLISHED_ATTRIBUTES => "published_attributes"
  | F_PLATFORM_EXTENSIONS => "platform_extensions"
  end.

Section checkpoints.
(** [hashlib.sha256(...).hexdigest()] and the [repr] of a float. *)
Context (sha256 : string -> string) (float_repr : pyfloat -> string).

(** What the fingerprint is taken of; [options] is the connector's configuration.
  Source: models/checkpoints.py:51-60, collection_fingerprint. *)
Definition fingerprint_value (request : CollectionRequest) (connector : string) (options : json)
  : result pyexn json :=
  parsed ← urlsplit (c_base_url request);
  let normalized_url := urlunsplit
  {| sr_scheme := str_lower (sr_scheme parsed); sr_netloc := str_lower (sr_netloc parsed);
     sr_path := str_rstrip (fun c => bool_decide (c = "/"%char)) (sr_path parsed);
     sr_query := ""; sr_fragment := "" |} in
  Ok (JDict [("base_url", JStr normalized_url); ("connector", JStr connector); ("options", options);
           ("partitions", JList (map JStr (c_partitions request)));
           ("refresh_mode", JStr (refresh_value (c_refresh_mode request)));
           ("requested_fields", JList (map JStr (sort_strs (map field_value (c_requested_fields request)))))]).

(** Source: models/checkpoints.py, collection_fingerprint. *)
Definition collection_fingerprint (request : CollectionRequest) (connector : string) (options : json)
  : result pyexn string :=
  value ← fingerprint_value request connector options;
  Ok (sha256 (json_dumps float_repr true value)).

(** A cursor that sanitising would change is refused before anything else.
  Source: models/checkpoints.py:18-29, _CredentialSafeCheckpoint. *)
Definition credential_safe (cursor : json) : result pyexn () :=
  ensure (bool_decide (sanitize_json_value DEFAULT_JSON_SANITIZATION_LIMITS cursor = cursor))
  (ValueError "checkpoint cursor contains credential-bearing or unsafe data").

(** Source: models/checkpoints.py:32-45, ConnectorCheckpoint. *)
Definition new_checkpoint (c : ConnectorCheckpoint) : result pyexn ConnectorCheckpoint :=
  _ ← credential_safe (k_resume_after c);
  _ ← ensure (forallb (fun s => negb (str_isempty s))
      [k_connector c; k_connector_version c; k_source_id c; k_lineage c])
      (ValueError "a checkpoint identity is empty");
  _ ← ensure ((str_len (k_fingerprint c) =? 64) && str_forall (fun c => char_in 48 57 c || char_in 97 102 c) (k_fingerprint c))
      (ValueError "collection_fingerprint is not a digest");
  _ ← ensure (negb (bool_decide (k_resume_after c = JNull)))
      (ValueError "a checkpoint must contain a resume cursor");
  Ok c.

(** Source: models/checkpoints.py, build_checkpoint. *)
Definition build_checkpoint (connector version : string) (request : CollectionRequest) (lineage : string)
    (resume_after options : json) : result pyexn ConnectorCheckpoint :=
  fingerprint ← collection_fingerprint request connector options;
  new_checkpoint {| k_connector := connector; k_connector_version := version;
  k_source_id := c_source_id request; k_lineage := lineage; k_fingerprint := fingerprint;
  k_resume_after := resume_after |}.

(** Source: models/checkpoints.py, validate_checkpoint. *)
Definition validate_checkpoint (checkpoint : option ConnectorCheckpoint) (connector version : string)
    (request : CollectionRequest) (options : json) : result pyexn () :=
  match checkpoint with
  | None => Ok ()
  | Some c =>
    expected ← collection_fingerprint request connector options;
    ensure (bool_decide (k_connector c = connector) && bool_decide (k_connector_version c = version)
            && bool_decide (k_source_id c = c_source_id request)
            && bool_decide (k_fingerprint c = expected))
      (ValueError "CHECKPOINT_INVALID: checkpoint does not belong to this collection")
  end.

(** Source: connectors/base.py, validate_connector_request. *)
Definition validate_connector_request (capabilities : ConnectorCapabilities) (unsupported connector version : string)
    (request : CollectionRequest) (checkpoint : option ConnectorCheckpoint) (options : json)
    (pre_checkpoint_error : option string) (capabilities_checked : bool) : result pyexn () :=
  _ ← ensure (capabilities_checked || supports capabilities (c_requested_fields request) (c_refresh_mode request))
      (ValueError unsupported);
  _ ← match pre_checkpoint_error with Some m => Err (ValueError m) | None => Ok () end;
  validate_checkpoint checkpoint connector version request options.
End checkpoints.

(** * Asynchronous generators *)

(** [next g] runs a generator suspended in state [g] to its next [yield]: [None]
    is its end, [Some (p, None)] a page after which it returns, [Some (p, Some g')]
    a page after which it is suspended in [g']. *)
Section generator.
Context {W X P G : Type} (next : G -> eff W X (option (P * option G))).

(** At most [fuel] pages; the boolean tells whether the generator ended. *)
Fixpoint drain (fuel : nat) (g : G) : eff W X (list P * bool) :=
  match fuel with
  | O => mret ([], false)
  | S fuel' =>
    r ← next g;
    match r with
    | None => mret ([], true)
    | Some (p, None) => mret ([p], true)
    | Some (p, Some g') => '(ps, ended) ← drain fuel' g'; mret (p :: ps, ended)
    end
  end.

(** What a consumer observes of a generator whose world it, and everybody else,
  may change between two pages. *)
Inductive pages_of : G -> list P -> Prop :=
  | pages_stop g : pages_of g []
  | pages_last g w w' p : next g w = (Ok (Some (p, None)), w') -> pages_of g [p]
  | pages_more g w w' p g' ps : next g w = (Ok (Some (p, Some g')), w') -> pages_of g' ps -> pages_of g (p :: ps).

Lemma drain_pages fuel : forall g w ps ended w', drain fuel g w = (Ok (ps, ended), w') -> pages_of g ps.
Proof.
  induction fuel as [|fuel IH]; intros g w ps ended w' H; cbn [drain] in H.
  { unfold mret, eff_ret in H. simplify_eq. constructor. }
  unfold mbind, eff_bind, mret, eff_ret in H. destruct (next g w) as [[[[p [g'|]]|]|e] w1] eqn:Hn; simplify_eq.
  - destruct (drain fuel g' w1) as [[[qs fin]|e] w2] eqn:Hd; simplify_eq. eapply pages_more; [done|]. by eapply IH.
  - by eapply pages_last.
  - constructor.
Qed.

(** A generator all of whose suspensions keep an invariant and decrease a measure
    ends, whatever happens to the world meanwhile; [faults] collects the exceptions
    it may raise. *)
Section measure.
Context (I : G -> Prop) (work : G -> nat) (faults : X -> Prop).
Hypothesis next_faults : forall g w e w', I g -> next g w = (Err e, w') -> faults e.
Hypothesis next_decreases : forall g w p g' w',
  I g -> next g w = (Ok (Some (p, Some g')), w') -> I g' /\ (work g' < work g)%nat.

Lemma pages_of_bounded g ps : I g -> pages_of g ps -> (length ps <= S (work g))%nat.
Proof.
  intros HI H. induction H as [| |g w w' p g' ps Hn _ IH]; simpl; [lia..|].
  apply next_decreases in Hn as [HI' Hlt]; [|done]. specialize (IH HI'). lia.
Qed.

Lemma drain_ends fuel : forall g w, I g -> (work g < fuel)%nat ->
  match (drain fuel g w).1 with
  | Ok (ps, ended) => ended = true /\ pages_of g ps
  | Err e => faults e
  end.
Proof.
  induction fuel as [|fuel IH]; intros g w HI Hf; [lia|].
  cbn [drain]. unfold mbind, eff_bind, mret, eff_ret. destruct (next g w) as [[[[p [g'|]]|]|e] w1] eqn:Hn.
  - destruct (next_decreases _ _ _ _ _ HI Hn) as [HI' Hlt].
  pose proof (IH g' w1 HI' ltac:(lia)) as Hd. destruct (drain fuel g' w1) as [[[ps ended]|e] w2]; simpl in *; [|done].
  destruct Hd as [-> Hd]. split; [done|]. by eapply pages_more.
  - simpl. split; [done|]. by eapply pages_last.
  - simpl. split; [done|]. constructor.
  - simpl. by eapply next_faults.
Qed.
End measure.
End generator.
