(* ===== verification/ShopifyProduct.v ===== *)
(** The Shopify connector's view of one product
    ([commerce-scraper/.../connectors/shopify.py]): normalising a decoded product
    into a snapshot, and enriching products with their inventory under the
    request budget. *)
From S2P Require Export Connector Commerce.
From Stdlib Require Import Ascii.

(** * Configuration and collaborators *)

(** Source: connectors/shopify.py, ShopifyOptions. *)
Inductive InventoryMethod := NO_INVENTORY | PRODUCT_JSON | PRODUCT_HTML.
#[export] Instance InventoryMethod_eq_dec : EqDecision InventoryMethod.
Proof. solve_decision. Defined.

(** Source: connectors/shopify.py, ShopifyOptions. *)
Record ShopifyOptions := {
  so_currency : option string;
  so_vat_status : option string;
  so_page_size : Z;
  so_page_limit : Z;
  so_inventory_method : InventoryMethod;
  so_inventory_section_id : option string;
  so_inventory_batch_size : nat;
  so_inventory_estimated : Z;
  so_discovery_estimated : Z;
}.

(** The field constraints. Source: connectors/shopify.py, ShopifyOptions. *)
Definition valid_options (o : ShopifyOptions) : bool :=
  (1 <=? so_page_size o) && (so_page_size o <=? 250) && (1 <=? so_page_limit o)
  && (1 <=? so_inventory_batch_size o)%nat && (so_inventory_batch_size o <=? 50)%nat
  && (0 <=? so_inventory_estimated o) && (0 <=? so_discovery_estimated o).

(** What [getattr] finds of an attribute of the budget. *)
Inductive budget_attr := Missing | IsNone | IsInt (n : Z) | IsOther.

(** The collaborators of the connector, over a world [W]: the transport, the
    budget and context it was given, and the parsing helpers it calls. *)
Record ShopEnv (W : Type) := {
  n_send : TransportRequest -> eff W conn_exn TransportResponse;
  n_rotate : RotationReason -> eff W conn_exn ();
  n_budgeted : bool;
  n_affordable : TransportRequest -> W -> bool;
  n_maximum_requests : W -> budget_attr;
  n_used_requests : W -> budget_attr;
  n_clock : W -> Z;
  n_cancelled : W -> bool;
  n_json_loads : string -> result conn_exn json;
  n_decode : string -> string;
  n_repr : json -> string;
  n_decimal : string -> option decimal;
  n_clean : string -> string;
  n_pdf_links : string -> list string;
  n_urljoin : string -> string -> string;
  n_datetime : json -> result pyexn (option Z);
  n_inventory_from_html : string -> list string -> list (string * Z);
}.
Arguments n_send {W} _ _.
Arguments n_rotate {W} _ _.
Arguments n_budgeted {W} _.
Arguments n_affordable {W} _ _ _.
Arguments n_maximum_requests {W} _ _.
Arguments n_used_requests {W} _ _.
Arguments n_clock {W} _ _.
Arguments n_cancelled {W} _ _.
Arguments n_json_loads {W} _ _.
Arguments n_decode {W} _ _.
Arguments n_repr {W} _ _.
Arguments n_decimal {W} _ _.
Arguments n_clean {W} _ _.
Arguments n_pdf_links {W} _ _.
Arguments n_urljoin {W} _ _ _.
Arguments n_datetime {W} _ _.
Arguments n_inventory_from_html {W} _ _ _.

Definition product : Type := list (string * json).

Section products.
Context {W : Type} (env : ShopEnv W) (opts : ShopifyOptions).

Definition str_of (v : json) : string := py_str (n_repr env) v.
Definition field_text (d : product) (key : string) : string := text_of (n_repr env) d key.
(** [str(d.get(key) or "") or None] *)
Definition field_opt (d : product) (key : string) : option string :=
  let t := field_text d key in if str_isempty t then None else Some t.

(** Source: parsing/_structured.py, decimal_amount. *)
Definition decimal_amount (v : json) : option decimal :=
  match v with
  | JNull | JBool _ => None
  | _ => match n_decimal env (str_of v) with
       | Some d => if decimal_sign_nonneg d then Some d else None
       | None => None
       end
  end.

(** * Normalisation *)

(** Source: connectors/shopify.py:763-763, ShopifyConnector._variant. *)
Definition availability_of (raw : product) : Availability :=
  match get raw "available" with
  | JBool true => IN_STOCK
  | JBool false => OUT_OF_STOCK
  | _ => AVAILABILITY_UNKNOWN
  end.

(** Source: connectors/shopify.py:764-778, ShopifyConnector._variant. *)
Definition offers_of (raw : product) (currency : option string) (evidence : Evidence) (observed : Z)
  : result pyexn (list CommerceOffer) :=
  match decimal_amount (get raw "price"), currency with
  | Some amount, Some currency =>
    let compare_at := decimal_amount (get raw "compare_at_price") in
    let on_sale := match compare_at with Some c => decimal_ltb amount c | None => false end in
    current ← valid_offer
      (plain_offer {| m_amount := amount; m_currency := currency |} observed [evidence]
         (if on_sale then "sale" else "regular") (default "unknown" (so_vat_status opts))
         (Some (availability_of raw)) [evidence]);
    match compare_at with
    | Some c =>
        if decimal_ltb amount c then
          regular ← valid_money {| m_amount := c; m_currency := currency |};
          Ok [current; plain_offer regular observed [evidence] "regular" (o_vat_status current)
                         (o_availability current) [evidence]]
        else Ok [current]
    | None => Ok [current]
    end
  | _, _ => Ok []
  end.

(** A quantity is exact when the shop tracks it and refuses to oversell.
    Source: connectors/shopify.py:779-787, ShopifyConnector._variant. *)
Definition stock_of (raw : product) (evidence : Evidence) (observed : Z) : result pyexn StockState :=
  let exact_quantity := match get raw "inventory_quantity" with JInt q => Some q | _ => None end in
  let exact := is_some exact_quantity && truthy (get raw "inventory_management")
             && bool_decide (get raw "inventory_policy" = JStr "deny") in
  valid_stock
  {| s_availability := availability_of raw;
     s_quantity := if exact then Z.max 0 <$> exact_quantity else None;
     s_quantity_kind := if exact then EXACT else QUANTITY_UNKNOWN;
     s_observed_at := observed; s_evidence := [evidence] |}.

(** Source: connectors/shopify.py:788-792, ShopifyConnector._variant. *)
Fixpoint option_names (index : Z) (l : list json) : list string :=
  match l with
  | [] => []
  | JDict o :: r => py_str (n_repr env) (or_else (get o "name") (JStr ("option" +:+ pretty index)))
                  :: option_names (index + 1) r
  | _ :: r => option_names (index + 1) r
  end.

(** Source: connectors/shopify.py:793-797, ShopifyConnector._variant. *)
Fixpoint variant_options (raw : product) (index : Z) (names : list string) (acc : list (string * string))
  : list (string * string) :=
  match names with
  | [] => acc
  | name :: r =>
    let v := get raw ("option" +:+ pretty index) in
    variant_options raw (index + 1) r
      (if bool_decide (v = JNull) || bool_decide (v = JStr "Default Title") then acc
       else dict_set name (str_of v) acc)
  end.

(** Source: connectors/shopify.py:798-799, ShopifyConnector._variant. *)
Definition featured_image (raw : product) : result pyexn (option MediaRef) :=
  match get raw "featured_image" with
  | JDict f => if truthy (get f "src")
             then m ← new_media (str_of (get f "src")) None None; Ok (Some m)
             else Ok None
  | _ => Ok None
  end.

(** Source: connectors/shopify.py:800-805, ShopifyConnector._variant. *)
Definition variant_attributes (raw : product) (options : list (string * string)) (currency : option string)
  : list (string * json) :=
  let attributes := map (fun '(k, v) => (k, JStr v)) options in
  let attributes := match get raw "grams" with
                  | (JInt _ | JFloat _) as g => if truthy g then dict_set "shipping_weight_g" g attributes
                                                else attributes
                  | _ => attributes
                  end in
  match decimal_amount (get raw "price"), currency with
  | Some _, Some c => dict_set "price_text" (JStr (str_of (get raw "price") +:+ " " +:+ c)) attributes
  | _, _ => attributes
  end.

(** Source: connectors/shopify.py, ShopifyConnector._variant. *)
Definition variant (raw prod : product) (currency : option string) (evidence : Evidence) (observed : Z)
  : result pyexn (option CommerceVariant) :=
  let identifier := str_strip (field_text raw "id") in
  if str_isempty identifier then Ok None else
  offers ← offers_of raw currency evidence observed;
  stock ← stock_of raw evidence observed;
  options ← items_of (get prod "options");
  let options := variant_options raw 1 (option_names 1 options) [] in
  image ← featured_image raw;
  let title := str_strip (field_text raw "title") in
  v ← new_variant
  {| v_external_id := identifier; v_is_default := false; v_canonical_url := None;
     v_title := if bool_decide (str_casefold title = "default title") then None else Some title;
     v_sku := field_opt raw "sku"; v_gtin := field_opt raw "barcode"; v_image := image;
     v_options := options; v_offers := offers; v_stock := Some stock;
     v_published_attributes := variant_attributes raw options currency;
     v_platform_extensions := JDict [("legacy_raw_variant", JDict raw)] |};
  Ok (Some v).

(** [tuple(f(x) for x in l if f(x) is not None)]; the first exception ends it. *)
Fixpoint traverse {A B} (f : A -> result pyexn (option B)) (l : list A) : result pyexn (list B) :=
  match l with
  | [] => Ok []
  | x :: r => y ← f x; ys ← traverse f r; Ok (option_list y ++ ys)
  end.

(** Source: connectors/shopify.py:723-728, ShopifyConnector._normalize. *)
Definition image_of (item : product) : result pyexn (option MediaRef) :=
  if truthy (get item "src")
  then m ← new_media (str_of (get item "src")) (field_opt item "alt") (field_opt item "id"); Ok (Some m)
  else Ok None.

(** Source: connectors/shopify.py, ShopifyConnector._normalize. *)
Definition normalize (raw : product) (source_id origin : string) (currency : option string)
    (observed : Z) (partition : string) : result pyexn (option CommerceProductSnapshot) :=
  let handle := str_strip (field_text raw "handle") in
  let title := str_strip (field_text raw "title") in
  let external_id := str_strip (py_str (n_repr env) (or_else (get raw "id") (JStr handle))) in
  if str_isempty handle || str_isempty title || str_isempty external_id then Ok None else
  let url := origin +:+ "/products/" +:+ handle in
  evidence ← new_evidence "api" url (Some "products.json") observed;
  variants ← dicts_of (get raw "variants");
  variants ← traverse (fun item => variant item raw currency evidence observed) variants;
  let body_html := field_text raw "body_html" in
  let description := n_clean env body_html in
  categories ← traverse (fun v => c ← new_category v; Ok (Some c))
  (filter (fun v => str_isempty v = false)
    [if bool_decide (partition = "main") then "" else partition; field_text raw "product_type"]);
  images ← dicts_of (get raw "images");
  images ← traverse image_of images;
  documents ← traverse (fun link => d ← new_document (n_urljoin env url link) observed [evidence] (Some link);
                                  Ok (Some d)) (n_pdf_links env body_html);
  updated ← n_datetime env (get raw "updated_at");
  s ← new_snapshot
  {| sn_connector := "shopify"; sn_source_id := source_id; sn_external_id := external_id;
     sn_canonical_url := url; sn_title := title; sn_observed_at := observed;
     sn_description := if str_isempty description then None else Some description;
     sn_vendor := field_opt raw "vendor"; sn_categories := categories; sn_images := images;
     sn_documents := documents; sn_variants := variants; sn_source_updated_at := updated;
     sn_published_attributes := [];
     sn_platform_extensions :=
       JDict [("handle", JStr handle); ("tags", or_else (get raw "tags") (JList []));
              ("options", or_else (get raw "options") (JList []));
              ("legacy_raw_product", JDict (filter (fun kv => kv.1 <> "variants") raw))] |};
  Ok (Some s).

(** ** What a snapshot of a shop is *)

(** What a variant is offered for: nothing, a regular price, or a sale with the regular
    price it undercuts, in the same currency. *)
Definition offers_priced (l : list CommerceOffer) : Prop :=
  l = [] \/ (exists o, l = [o] /\ o_role o = "regular")
  \/ exists sale regular, l = [sale; regular] /\ o_role sale = "sale" /\ o_role regular = "regular"
      /\ decimal_ltb (m_amount (o_price sale)) (m_amount (o_price regular)) = true
      /\ m_currency (o_price sale) = m_currency (o_price regular).
Definition shop_snapshot (source_id : string) (s : CommerceProductSnapshot) : Prop :=
  snapshot_typed s /\ sn_connector s = "shopify" /\ non_empty source_id = Ok (sn_source_id s) /\ Forall (fun v => offers_priced (v_offers v) /\ is_Some (v_stock v)) (sn_variants s).

Lemma offers_of_typed raw currency evidence observed l :
  offers_of raw currency evidence observed = Ok l -> Forall offer_typed l /\ offers_priced l.
Proof.
unfold offers_of. destruct (decimal_amount _) as [amount|]; [|intros [= <-]; split; [done|by left]].
destruct currency as [c|]; [|intros [= <-]; split; [done|by left]]. intros (o & (Ho & Hp & Hr & He)%valid_offer_typed & H)%bind_Ok.
simpl in Hp, Hr, He. destruct (decimal_amount (get raw "compare_at_price")) as [compare|].
2:{ injection H as <-. split; [by apply Forall_singleton|]. right; left. by exists o. }
destruct (decimal_ltb amount compare) eqn:El.
2:{ injection H as <-. split; [by apply Forall_singleton|]. right; left. by exists o. }
apply bind_Ok in H as (m & [-> Hm]%valid_money_typed & [= <-]). split.
- apply Forall_cons. split; [done|]. apply Forall_singleton. destruct Ho as (_ & _ & _ & Hv & _). split_and!; simpl; [done|done|left|done|done].
- right; right. eexists o, _. split_and!; [done|done|done| |]; by rewrite Hp.
Qed.
Lemma variant_is_typed raw prod currency evidence observed v : variant raw prod currency evidence observed = Ok (Some v) ->
  variant_typed v /\ offers_priced (v_offers v) /\ is_Some (v_stock v).
Proof.
unfold variant. destruct (str_isempty _) eqn:Ei; [done|]. intros H. unbind H. injection H as <-. unfold new_variant in *. unbind E3. injection E3 as <-.
apply offers_of_typed in E as [Ho Hp]. apply valid_stock_typed in E0. simpl. split_and!; [|done|by eexists].
split_and!; simpl; [by eapply non_empty_typed|done|by intros s [= <-]].
Qed.
Lemma traverse_Forall {A B} (P : B -> Prop) (f : A -> result pyexn (option B)) l r :
  (forall x y, f x = Ok (Some y) -> P y) -> traverse f l = Ok r -> Forall P r.
Proof.
intros Hf. revert r. induction l as [|x l IH]; intros r H; cbn [traverse] in H; [by injection H as <-|].
apply bind_Ok in H as (y & Hy & (ys & Hys & [= <-])%bind_Ok). destruct y as [y|]; [constructor; eauto|]. by apply IH.
Qed.

(** Whatever a product of the feed holds, what is made of it is a well-typed snapshot. *)
Lemma normalize_typed raw source_id origin currency observed partition s :
  normalize raw source_id origin currency observed partition = Ok (Some s) -> shop_snapshot source_id s.
Proof.
unfold normalize. destruct (_ || _); [done|]. intros H. unbind H. injection H as <-.
assert (Hv : Forall (fun v => variant_typed v /\ offers_priced (v_offers v) /\ is_Some (v_stock v)) u1)
  by (eapply traverse_Forall; [|exact E1]; intros x y; apply variant_is_typed).
apply new_snapshot_typed in E7 as (Hs & Hn & Hi & Ev); simpl in *.
- split_and!; [done|by injection Hn|done|]. rewrite Ev. eapply Forall_impl; [exact Hv|]. by intros v [_ ?].
- eapply Forall_impl; [exact Hv|]. by intros v [? _].
- eapply traverse_Forall; [|exact E2]. intros x y (c & Hc & [= <-])%bind_Ok. unfold new_category in Hc. unbind Hc.
  injection Hc as <-. by eapply non_empty_typed.
- eapply traverse_Forall; [|exact E4]. intros x y. unfold image_of. destruct (truthy _); [|done]. intros (m & Hm & [= <-])%bind_Ok.
  unfold new_media in Hm. unbind Hm. injection Hm as <-. by eapply non_empty_typed.
- eapply traverse_Forall; [|exact E5]. intros x y (d & Hd & [= <-])%bind_Ok. unfold new_document in Hd. unbind Hd.
  injection Hd as <-. split; [by eapply non_empty_typed|by apply evidence_given].
Qed.
End products.

(** * Inventory *)

(** [TransportRequest(url=..., query=..., ...)] with the defaults of the others. *)
Definition get_request (url : string) (query : list (string * query_value)) (headers : list (string * string))
    (purpose : RequestPurpose) (priority : RequestPriority) (required : bool) (estimated : Z) : TransportRequest :=
  {| r_method := "GET"; r_url := url; r_query := query; r_headers := headers; r_json_body := None;
     r_body := None; r_purpose := purpose; r_priority := priority; r_required := required;
     r_estimated_bytes := estimated; r_cache := CACHE_DEFAULT; r_browser := HINT_NEVER;
     r_evaluation := None; r_trace_request_id := None; r_trace_attempt := None |}.

(** [request.model_copy(update=...)]: the discovery request an optional one must
    leave room for. Source: connectors/shopify.py:437-445, ShopifyConnector._inventory_admission_count. *)
Definition discovery_reserve (r : TransportRequest) (url : string) (estimated : Z) : TransportRequest :=
  {| r_method := r_method r; r_url := url; r_query := r_query r; r_headers := r_headers r;
     r_json_body := r_json_body r; r_body := r_body r; r_purpose := P_DISCOVERY; r_priority := R_DISCOVERY;
     r_required := true; r_estimated_bytes := estimated; r_cache := r_cache r; r_browser := r_browser r;
     r_evaluation := r_evaluation r; r_trace_request_id := r_trace_request_id r;
     r_trace_attempt := r_trace_attempt r |}.

(** Source: connectors/shopify.py, _InventoryResult. *)
Inductive InventoryResult := Detail (detail : product) | Failed | Deferred.

(** The run of one [_enrich_inventory]: the products as merged so far, the
    failures, the deferred ones, and (ghost) how many details were merged. *)
Record Enrichment := { en_products : list product; en_failures : nat; en_deferred : nat; en_merged : nat }.

Section inventory.
Context {W : Type} (env : ShopEnv W) (opts : ShopifyOptions).

(** Source: connectors/shopify.py, ShopifyConnector._affordable. *)
Definition is_affordable (r : TransportRequest) (w : W) : bool :=
  negb (n_budgeted env) || n_affordable env r w.

(** Source: connectors/shopify.py, ShopifyConnector._optional_affordable. *)
Definition optional_affordable (r : TransportRequest) (discovery_url : string) (w : W) : bool :=
  if negb (n_budgeted env) then true
  else if negb (n_affordable env r w) then false
  else if negb (n_affordable env
       (discovery_reserve r discovery_url (r_estimated_bytes r + so_discovery_estimated opts)) w) then false
  else match n_maximum_requests env w, n_used_requests env w with
     | IsInt m, IsInt u => 2 <=? m - u
     | _, _ => true
     end.

(** How many of [n] requests the counters of the budget leave room for.
    Source: connectors/shopify.py:421-431, ShopifyConnector._inventory_admission_count. *)
Definition request_capacity (n : nat) (w : W) : nat :=
  match n_maximum_requests env w, n_used_requests env w with
  | IsNone, _ => n
  | IsInt m, IsInt u => Z.to_nat (Z.max 0 (m - u - 1))
  | _, _ => 1%nat
  end.

(** Source: connectors/shopify.py:433-449, ShopifyConnector._inventory_admission_count. *)
Fixpoint admitted_count (requests : list TransportRequest) (discovery_url : string) (estimated : Z) (w : W) : nat :=
  match requests with
  | [] => 0%nat
  | r :: rest =>
    let estimated := estimated + r_estimated_bytes r in
    if n_affordable env (discovery_reserve r discovery_url estimated) w
    then S (admitted_count rest discovery_url estimated w) else 0%nat
  end.

(** Source: connectors/shopify.py, ShopifyConnector._inventory_admission_count. *)
Definition inventory_admission_count (requests : list TransportRequest) (discovery_url : string) (w : W) : nat :=
  if negb (n_budgeted env) then length requests
  else admitted_count (take (request_capacity (length requests) w) requests) discovery_url
           (so_discovery_estimated opts) w.

(** Source: connectors/shopify.py, ShopifyConnector._inventory_request. *)
Definition inventory_request (p : product) (origin : string) : option TransportRequest :=
  let handle := str_strip (field_text env p "handle") in
  if str_isempty handle then None else
  let product_url := origin +:+ "/products/" +:+ handle in
  let '(url, query) :=
  match so_inventory_method opts with
  | PRODUCT_JSON => (product_url +:+ ".js", [])
  | _ => (product_url, match so_inventory_section_id opts with
                       | Some s => if str_isempty s then [] else [("section_id", QStr s)]
                       | None => [] end)
  end in
  Some (get_request url query [("Cookie", "")] P_ENRICHMENT R_OPTIONAL false (so_inventory_estimated opts)).

(** [{str(item.get("id")) for item in (v or []) if isinstance(item, dict) and item.get("id")}] *)
Definition ids_of (v : json) : result pyexn (list string) :=
  l ← dicts_of v; Ok (map (fun d => str_of env (get d "id")) (filter (fun d => truthy (get d "id") = true) l)).

(** Source: connectors/shopify.py:556-561, ShopifyConnector._inventory_from_html. *)
Definition html_variant (found : string * Z) : json :=
  JDict [("id", JStr found.1); ("inventory_quantity", JInt found.2);
       ("inventory_management", JStr "published_theme"); ("inventory_policy", JStr "deny")].

(** Source: connectors/shopify.py:387-407, ShopifyConnector._inventory_detail. *)
Definition fetch_detail (p : product) (request : TransportRequest) : eff W conn_exn product :=
  response ← n_send env request;
  if 400 <=? t_status response
  then throw (E_Runtime ("inventory request failed with status " +:+ pretty (t_status response)))
  else match so_inventory_method opts with
     | PRODUCT_JSON =>
         value ← lift (n_json_loads env (t_content response));
         mret (default [] (as_dict value))
     | _ =>
         ids ← checked (ids_of (get p "variants"));
         mret [("variants", JList (map html_variant
                 (n_inventory_from_html env (n_decode env (t_content response)) ids)))]
     end.

(** Source: connectors/shopify.py, ShopifyConnector._inventory_detail. *)
Definition inventory_detail (p : product) (request : TransportRequest) : eff W conn_exn InventoryResult :=
  catch (detail ← fetch_detail p request; mret (Detail detail)) (fun e =>
  match e with
  | E_BudgetExhausted _ => mret Deferred
  | E_BodyTooLarge _ | E_TransportFailure _ | E_Runtime _ | E_Value _ => mret Failed
  | E_Type _ | E_Other _ => throw e
  end).

(** The last detail of an id wins.
    Source: connectors/shopify.py:476-480, ShopifyConnector._merge_inventory. *)
Definition by_id (details : list product) : list (string * product) :=
  foldl (fun acc d => if truthy (get d "id") then dict_set (str_of env (get d "id")) d acc else acc) [] details.

(** Source: connectors/shopify.py:487-493, ShopifyConnector._merge_inventory. *)
Definition merge_variant (extra variant : product) : product :=
  foldl (fun v key => match dict_get key extra with Some x => dict_set key x v | None => v end) variant
  ["inventory_quantity"; "inventory_management"; "inventory_policy"].

Definition merge_item (ids : list (string * product)) (item : json) : json :=
  match item with
  | JDict variant =>
    match dict_get (str_of env (get variant "id")) ids with
    | Some extra => JDict (merge_variant extra variant)
    | None => item
    end
  | _ => item
  end.

(** Only a list of variants holds dictionaries to update in place.
    Source: connectors/shopify.py, ShopifyConnector._merge_inventory. *)
Definition merge_inventory (p detail : product) : result pyexn product :=
  details ← dicts_of (get detail "variants");
  _ ← items_of (get p "variants");
  match get p "variants" with
  | JList l => Ok (dict_set "variants" (JList (map (merge_item (by_id details)) l)) p)
  | _ => Ok p
  end.

(** [asyncio.gather] over one wave; the requests are taken in their order.
    Source: connectors/shopify.py:346-351, ShopifyConnector._enrich_inventory. *)
Fixpoint gather (products : list product) (wave : list (nat * TransportRequest))
  : eff W conn_exn (list InventoryResult) :=
  match wave with
  | [] => mret []
  | (i, request) :: rest =>
    r ← inventory_detail (default [] (products !! i)) request;
    rs ← gather products rest; mret (r :: rs)
  end.

(** The results of one wave, applied in order; the boolean is [exhausted].
    Source: connectors/shopify.py:352-360, ShopifyConnector._enrich_inventory. *)
Fixpoint settle_wave (wave : list (nat * TransportRequest)) (results : list InventoryResult)
    (exhausted : bool) (e : Enrichment) : result pyexn (bool * Enrichment) :=
  match wave, results with
  | (i, _) :: wave, r :: results =>
    match r with
    | Deferred => settle_wave wave results true
        {| en_products := en_products e; en_failures := en_failures e;
           en_deferred := S (en_deferred e); en_merged := en_merged e |}
    | Failed => settle_wave wave results exhausted
        {| en_products := en_products e; en_failures := S (en_failures e);
           en_deferred := en_deferred e; en_merged := en_merged e |}
    | Detail detail =>
        p ← merge_inventory (default [] (en_products e !! i)) detail;
        settle_wave wave results exhausted
          {| en_products := <[i := p]> (en_products e); en_failures := en_failures e;
             en_deferred := en_deferred e; en_merged := S (en_merged e) |}
    end
  | _, _ => Ok (exhausted, e)
  end.

Definition defer (n : nat) (e : Enrichment) : Enrichment :=
  {| en_products := en_products e; en_failures := en_failures e; en_deferred := (en_deferred e + n)%nat;
   en_merged := en_merged e |}.

(** [rest] is the number of products after this batch. Every wave takes at least
    one request off [pending], so [fuel = length pending] is enough.
    Source: connectors/shopify.py:337-363, ShopifyConnector._enrich_inventory. *)
Fixpoint waves (fuel : nat) (discovery_url : string) (rest : nat) (pending : list (nat * TransportRequest))
    (e : Enrichment) : eff W conn_exn Enrichment :=
  match pending, fuel with
  | [], _ | _, O => mret e
  | _, S fuel =>
    admitted ← gets (inventory_admission_count (map snd pending) discovery_url);
    if bool_decide (admitted = 0%nat) then mret (defer (length pending + rest) e)
    else
      let wave := take admitted pending in
      let pending := drop admitted pending in
      results ← gather (en_products e) wave;
      '(exhausted, e) ← checked (settle_wave wave results false e);
      if exhausted : bool then mret (defer (length pending + rest) e)
      else waves fuel discovery_url rest pending e
  end.

(** The requests of the products at the given positions; a product without a
    handle counts as a failure. Source: connectors/shopify.py:329-336, ShopifyConnector._enrich_inventory. *)
Fixpoint plan_batch (origin : string) (products : list product) (indices : list nat) (e : Enrichment)
  : list (nat * TransportRequest) * Enrichment :=
  match indices with
  | [] => ([], e)
  | i :: rest =>
    match inventory_request (default [] (products !! i)) origin with
    | Some r => let '(pending, e) := plan_batch origin products rest e in ((i, r) :: pending, e)
    | None => plan_batch origin products rest
        {| en_products := en_products e; en_failures := S (en_failures e);
           en_deferred := en_deferred e; en_merged := en_merged e |}
    end
  end.

(** [for offset in range(0, len(products), batch_size)]; every batch is at least
    one product, so [fuel = len(products)] is enough.
    Source: connectors/shopify.py:326-367, ShopifyConnector._enrich_inventory. *)
Fixpoint batches (fuel : nat) (origin discovery_url : string) (offset : nat) (e : Enrichment)
  : eff W conn_exn Enrichment :=
  match fuel with
  | O => mret e
  | S fuel =>
    let total := length (en_products e) in
    let size := so_inventory_batch_size opts in
    if (total <=? offset)%nat then mret e else
    let count := Nat.min size (total - offset) in
    let '(pending, e) := plan_batch origin (en_products e) (seq offset count) e in
    e ← waves (length pending) discovery_url (total - offset - count) pending e;
    if bool_decide (en_deferred e <> 0%nat) then mret e
    else
      _ ← (if (offset + size <? total)%nat then n_rotate env EXPLICIT else mret ());
      batches fuel origin discovery_url (offset + size) e
  end.

(** Source: connectors/shopify.py:368-381, ShopifyConnector._enrich_inventory. *)
Definition skipped_diagnostics (e : Enrichment) : list Diagnostic :=
  let skipped := (en_failures e + en_deferred e)%nat in
  if bool_decide (skipped = 0%nat) then [] else
  [{| d_code := OPTIONAL_ENRICHMENT_SKIPPED; d_severity := WARNING;
    d_message := "inventory unavailable for " +:+ pretty skipped +:+ " products; quantities remain unknown";
    d_retryable := bool_decide (en_failures e <> 0%nat); d_affects_completeness := false; d_url := None |}].

Definition start_enrichment (products : list product) : Enrichment :=
  {| en_products := products; en_failures := 0; en_deferred := 0; en_merged := 0 |}.

(** The products are updated in place: the result carries them with the
    diagnostics. Source: connectors/shopify.py, ShopifyConnector._enrich_inventory. *)
Definition enrich_inventory (products : list product) (origin discovery_url : string)
  : eff W conn_exn (list product * list Diagnostic) :=
  if bool_decide (so_inventory_method opts = NO_INVENTORY) || bool_decide (products = [])
  then mret (products, [])
  else
  e ← batches (length products) origin discovery_url 0 (start_enrichment products);
  mret (en_products e, skipped_diagnostics e).
End inventory.

(** * Accounting of an enrichment *)

(** Products dealt with so far: merged, failed or deferred. *)
Definition handled (e : Enrichment) : nat := (en_merged e + en_failures e + en_deferred e)%nat.

Section accounting.
Context {W : Type} (env : ShopEnv W) (opts : ShopifyOptions).

Lemma returns_checked {A} (P : A -> Prop) (r : result pyexn A) :
  (forall a, r = Ok a -> P a) -> returns (S := W) P (checked r).
Proof. intros H w. unfold checked. destruct r; simpl; auto. Qed.

Lemma settle_wave_accounts wave : forall results ex e ex' e',
  length wave = length results ->
  settle_wave env wave results ex e = Ok (ex', e') ->
  length (en_products e') = length (en_products e) /\ handled e' = (handled e + length wave)%nat
  /\ (en_deferred e <= en_deferred e')%nat
  /\ (ex' = false -> ex = false /\ en_deferred e' = en_deferred e)
  /\ (ex' = true -> ex = true \/ (en_deferred e < en_deferred e')%nat).
Proof.
  induction wave as [|[i r] wave IH]; intros [|res results] ex e ex' e' Hlen H; simpl in *; try done.
  { simplify_eq. split_and!; auto with lia. }
  destruct res as [detail| |].
  - apply bind_Ok in H as (p & _ & H). apply IH in H as (H1 & H2 & H3 & H4 & H5); [|lia].
  simpl in H1. rewrite length_insert in H1. unfold handled in *. simpl in *. split_and!; auto with lia.
  - apply IH in H as (H1 & H2 & H3 & H4 & H5); [|lia]. unfold handled in *. simpl in *. split_and!; auto with lia.
  - apply IH in H as (H1 & H2 & H3 & H4 & H5); [|lia]. unfold handled in *. simpl in *. split_and!; auto with lia.
  intros E. by destruct (H4 E).
Qed.

Lemma gather_length products wave :
  returns (fun rs => length rs = length wave) (gather env opts products wave).
Proof.
  induction wave as [|[i r] wave IH]; simpl; [by apply returns_ret|].
  apply returns_then. intros res. eapply returns_bind; [exact IH|]. intros rs Hrs. apply returns_ret. simpl in *. lia.
Qed.

(** One batch: either nothing was deferred and its requests are all settled, or
    something was and every later product is counted as deferred. *)
Lemma waves_account url rest fuel : forall pending e,
  (length pending <= fuel)%nat ->
  returns (fun e' => length (en_products e') = length (en_products e)
   /\ (en_deferred e' = en_deferred e /\ handled e' = (handled e + length pending)%nat
       \/ (en_deferred e < en_deferred e')%nat /\ handled e' = (handled e + length pending + rest)%nat))
  (waves env opts fuel url rest pending e).
Proof.
  induction fuel as [|fuel IH]; intros [|x pending] e Hf; cbn [waves length] in *; try lia;
  try (apply returns_ret; split; [done|left; split; lia]).
  apply returns_then. intros admitted. case_bool_decide as Ha.
  { apply returns_ret. split; [done|]. right. unfold handled. simpl. lia. }
  destruct admitted as [|n]; [done|]. cbn [take drop].
  eapply returns_bind; [apply gather_length|]. intros results Hr. simpl in Hr.
  eapply (returns_bind (fun r => settle_wave env (x :: take n pending) results false e = Ok r));
  [by apply returns_checked|]. intros [ex e1] H.
  apply settle_wave_accounts in H as (H1 & H2 & H3 & H4 & H5); [|done].
  assert (length (take n pending) + length (drop n pending) = length pending)%nat as Hsum
  by (rewrite <- length_app; by rewrite take_drop). simpl in H2.
  destruct ex.
  - apply returns_ret. destruct H5 as [?|H5]; [done|done|]. split; [done|]. right. unfold handled, defer in *. simpl. lia.
  - destruct H4 as [_ H4]; [done|]. assert (length (drop n pending) <= fuel)%nat as Hf' by lia.
  intros w. pose proof (IH (drop n pending) e1 Hf' w) as Hw. case_match; [|done].
  rewrite H1, H4 in Hw. intuition lia.
Qed.

Lemma plan_batch_accounts origin products indices : forall e pending e',
  plan_batch env opts origin products indices e = (pending, e') ->
  en_products e' = en_products e /\ en_deferred e' = en_deferred e
  /\ (handled e' + length pending)%nat = (handled e + length indices)%nat.
Proof.
  induction indices as [|i indices IH]; intros e pending e' H; simpl in *; [simplify_eq; simpl; auto with lia|].
  destruct (inventory_request _ _ _ _); [|by apply IH in H as (? & ? & H); unfold handled in *; simpl in *; split_and!; lia || done].
  destruct (plan_batch _ _ _ _ _ _) as [ps e1] eqn:E. simplify_eq. apply IH in E as (? & ? & H). simpl. split_and!; lia || done.
Qed.

Lemma batches_account origin url fuel : forall offset e,
  (1 <= so_inventory_batch_size opts)%nat -> en_deferred e = 0%nat ->
  (length (en_products e) - offset <= fuel)%nat -> (offset <= length (en_products e) -> handled e = offset)%nat ->
  (offset <= length (en_products e) \/ handled e = length (en_products e))%nat ->
  returns (fun e' => length (en_products e') = length (en_products e) /\ handled e' = length (en_products e))
  (batches env opts fuel origin url offset e).
Proof.
  induction fuel as [|fuel IH]; intros offset e Hb Hd Hf Hh Ho; cbn [batches].
  { apply returns_ret. split; [done|]. lia. }
  set (total := length (en_products e)) in *. destruct (total <=? offset)%nat eqn:Ht; bool_facts.
  { apply returns_ret. split; [done|]. lia. }
  set (count := Nat.min _ _). destruct (plan_batch _ _ _ _ _ _) as [pending e1] eqn:Hp.
  apply plan_batch_accounts in Hp as (Hp1 & Hp2 & Hp3). rewrite length_seq in Hp3.
  eapply returns_bind; [by apply waves_account|]. intros e2 [H1 H2]. rewrite Hp1 in H1. fold total in H1.
  case_bool_decide as Hdd.
  - apply returns_ret. split; [done|]. destruct H2 as [[? ?]|[? ?]]; lia.
  - apply returns_then. intros _. destruct H2 as [[H2 H3]|[? ?]]; [|lia].
  rewrite <- H1. apply IH; rewrite ?H1; lia.
Qed.

Lemma enrichment_accounts products origin url :
  (1 <= so_inventory_batch_size opts)%nat ->
  returns (fun r : list product * list Diagnostic => length r.1 = length products
    /\ (so_inventory_method opts <> NO_INVENTORY -> products <> [] ->
        exists e, en_products e = r.1 /\ r.2 = skipped_diagnostics e
          /\ (en_merged e + en_failures e + en_deferred e = length products)%nat))
  (enrich_inventory env opts products origin url).
Proof.
  intros Hb. unfold enrich_inventory. destruct (_ || _) eqn:E.
  { apply returns_ret. split; [done|]. intros Hm Hp. by rewrite !bool_decide_false in E. }
  eapply returns_bind; [apply batches_account; simpl; done || lia|].
  intros e [H1 H2]. apply returns_ret. simpl in *. split; [done|]. intros _ _. by exists e.
Qed.

(** An enrichment loses no product: it returns as many as it was given, each
  of them was merged, failed or deferred exactly once, and the diagnostic
  reports exactly those without inventory. *)
Theorem enrichment_accounts_every_product products origin url w :
  (1 <= so_inventory_batch_size opts)%nat -> so_inventory_method opts <> NO_INVENTORY -> products <> [] ->
  match (enrich_inventory env opts products origin url w).1 with
  | Ok (enriched, diagnostics) =>
      length enriched = length products
      /\ exists e, en_products e = enriched /\ diagnostics = skipped_diagnostics e
         /\ (en_merged e + en_failures e + en_deferred e = length products)%nat
  | Err _ => True
  end.
Proof.
  intros Hb Hm Hp. pose proof (enrichment_accounts products origin url Hb w) as H.
  revert H. case_match; [case_match|done]. simpl. intros [H1 H2]. auto.
Qed.
End accounting.
