(* ===== verification/Shopify.v ===== *)
(** The enumeration of a Shopify shop
    ([commerce-scraper/.../connectors/shopify.py], [ShopifyConnector.collect]): an
    asynchronous generator over partitions and pages with a resumable cursor. *)
From S2P Require Export ShopifyProduct.
From Stdlib Require Import Ascii.

(** * Pages and cursors *)

Definition Page : Type := EntityPage CommerceProductSnapshot.

(** Source: connectors/shopify.py:252-256, ShopifyConnector.collect. *)
Definition cursor (partition : string) (page offset : Z) : json :=
  JDict [("partition", JStr partition); ("page", JInt page); ("offset", JInt offset)].

(** The cursor of a page that failed, ran out of budget or hit the page limit: it
    names no offset. Source: connectors/shopify.py:605-605, ShopifyConnector._failure_page. *)
Definition page_cursor (partition : string) (page : Z) : json :=
  JDict [("partition", JStr partition); ("page", JInt page)].

Definition incomplete_page (id partition : string) (page sequence : Z) (d : Diagnostic) : Page :=
  {| p_page_id := id; p_partition_key := partition; p_sequence := sequence; p_items := [];
     p_resume_after := Some (page_cursor partition page); p_terminal := true;
     p_partition_terminal := false; p_enumeration_intact := false; p_discovered := 0;
     p_diagnostics := [d] |}.

Definition page_id (partition : string) (page : Z) : string := partition +:+ ":" +:+ pretty page.
Definition page_url (endpoint : string) (page : Z) : string := endpoint +:+ "?page=" +:+ pretty page.

(** Source: connectors/shopify.py, ShopifyConnector._failure_page. *)
Definition failure_page (partition : string) (page sequence : Z) (endpoint : string) (error : conn_exn) : Page :=
  incomplete_page (page_id partition page) partition page sequence
    {| d_code := ENUMERATION_INCOMPLETE; d_severity := ERROR;
       d_message := "Shopify feed page " +:+ pretty page +:+ " failed: " +:+ exn_text error;
       d_retryable := negb (is_too_large error); d_affects_completeness := true;
       d_url := Some (page_url endpoint page) |}.

(** Source: connectors/shopify.py, ShopifyConnector._budget_page. *)
Definition budget_page (partition : string) (page sequence : Z) (endpoint : string) : Page :=
  incomplete_page (page_id partition page +:+ ":budget") partition page sequence
    {| d_code := REQUEST_BUDGET_EXHAUSTED; d_severity := ERROR;
       d_message := "request budget cannot fund the next Shopify discovery page";
       d_retryable := false; d_affects_completeness := true;
       d_url := Some (page_url endpoint page) |}.

(** Source: connectors/shopify.py, ShopifyConnector._page_limit_page. *)
Definition page_limit_page (opts : ShopifyOptions) (partition : string) (page sequence : Z) (endpoint : string) : Page :=
  incomplete_page (partition +:+ ":limit") partition page sequence
    {| d_code := ENUMERATION_INCOMPLETE; d_severity := WARNING;
       d_message := "Shopify page limit " +:+ pretty (so_page_limit opts) +:+ " reached";
       d_retryable := false; d_affects_completeness := true; d_url := Some endpoint |}.

(** Source: connectors/shopify.py, ShopifyConnector._resume. *)
Definition resume_of (checkpoint : option ConnectorCheckpoint) : result pyexn (option (string * Z * Z)) :=
  match checkpoint with
  | None => Ok None
  | Some c =>
      match k_resume_after c with
      | JDict d =>
          match get d "partition" with
          | JStr partition =>
              match get d "page", default (JInt 0) (dict_get "offset" d) with
              | JInt page, JInt offset =>
                  _ ← ensure ((1 <=? page) && (0 <=? offset))
                        (ValueError "CHECKPOINT_INVALID: Shopify cursor values are invalid");
                  Ok (Some (partition, page, offset))
              | _, _ => Err (ValueError "CHECKPOINT_INVALID: Shopify cursor values are invalid")
              end
          | _ => Err (ValueError "CHECKPOINT_INVALID: Shopify cursor must be an object")
          end
      | _ => Err (ValueError "CHECKPOINT_INVALID: Shopify cursor must be an object")
      end
  end.

(** [partitions.index(name)] *)
Fixpoint index_of (name : string) (l : list string) : option nat :=
  match l with
  | [] => None
  | x :: r => if bool_decide (x = name) then Some 0%nat else S <$> index_of name r
  end.

(** * The generator *)

(** The local variables of [collect] at a [yield] that does not return. *)
Record Position := { g_index : nat; g_page : Z; g_offset : Z; g_emitted : Z; g_sequence : Z }.

(** What one page of the feed does to the enumeration: the products it emits, and
    the decisions the loop takes on them. *)
Record Decision := {
  dc_limited : bool; dc_exhausted : bool; dc_last : bool; dc_cursor : option json;
}.

Section collect.
Context {W : Type} (env : ShopEnv W) (opts : ShopifyOptions) (request : CollectionRequest).
Context (origin : string) (currency : option string) (partitions : list string).

(** Source: connectors/shopify.py:173-177, ShopifyConnector.collect. *)
Definition endpoint_of (partition : string) : string :=
  if bool_decide (partition = "main") then origin +:+ "/products.json"
  else origin +:+ "/collections/" +:+ partition +:+ "/products.json".

(** Source: connectors/shopify.py:181-187, ShopifyConnector.collect. *)
Definition discovery_request (endpoint : string) (page : Z) : TransportRequest :=
  get_request endpoint [("limit", QInt (so_page_size opts)); ("page", QInt page)] []
  P_DISCOVERY R_DISCOVERY true (so_discovery_estimated opts).

(** The products of a decoded body.
    Source: connectors/shopify.py:213-214, ShopifyConnector.collect. *)
Definition products_of (body : json) : list json :=
  match body with
  | JDict d => match default (JList []) (dict_get "products" d) with JList l => l | _ => [] end
  | _ => []
  end.

(** [available[:max(remaining, 0)]]
    Source: connectors/shopify.py:215-217, ShopifyConnector.collect. *)
Definition select (products : list json) (g : Position) : list json :=
  let available := drop (Z.to_nat (g_offset g)) products in
  match c_result_limit request with
  | None => available
  | Some limit => take (Z.to_nat (Z.max (limit - g_emitted g) 0)) available
  end.

(** Source: connectors/shopify.py:238-268, ShopifyConnector.collect. *)
Definition decide_page (products : list json) (g : Position) (partition : string) : Decision :=
  let available := drop (Z.to_nat (g_offset g)) products in
  let selected := select products g in
  let emitted := g_emitted g + Z.of_nat (length selected) in
  let exhausted := Z.of_nat (length products) <? so_page_size opts in
  let short := (length selected <? length available)%nat in
  let limited := match c_result_limit request with
               | None => false
               | Some limit => (limit <=? emitted) && (short || negb exhausted)
               end in
  let last_partition := bool_decide (Some partition = last partitions) in
  {| dc_limited := limited; dc_exhausted := exhausted; dc_last := last_partition;
   dc_cursor :=
     if limited && short
     then Some (cursor partition (g_page g) (g_offset g + Z.of_nat (length selected)))
     else if exhausted
     then if last_partition then None
          else Some (cursor (default "" (partitions !! S (g_index g))) 1 0)
     else Some (cursor partition (g_page g + 1) 0) |}.

(** The page itself. Source: connectors/shopify.py:269-285, ShopifyConnector.collect. *)
Definition feed_page (products : list json) (items : list CommerceProductSnapshot) (g : Position)
    (partition endpoint : string) (inventory : list Diagnostic) : Page :=
  let d := decide_page products g partition in
  {| p_page_id := page_id partition (g_page g); p_partition_key := partition; p_sequence := g_sequence g;
   p_items := items; p_resume_after := dc_cursor d;
   p_terminal := (dc_limited d || dc_exhausted d) && (dc_limited d || dc_last d);
   p_partition_terminal := dc_limited d || dc_exhausted d;
   p_enumeration_intact := negb (dc_limited d); p_discovered := Z.of_nat (length products);
   p_diagnostics := inventory ++
     match c_result_limit request with
     | Some limit => if dc_limited d then [result_limit_diagnostic limit endpoint] else []
     | None => [] end |}.

(** Where the loop goes on after the page.
    Source: connectors/shopify.py:286-292, ShopifyConnector.collect. *)
Definition after_page (products : list json) (g : Position) (partition : string) : option Position :=
  let d := decide_page products g partition in
  let emitted := g_emitted g + Z.of_nat (length (select products g)) in
  if dc_limited d then None
  else if dc_exhausted d
  then Some {| g_index := S (g_index g); g_page := 1; g_offset := 0; g_emitted := emitted;
             g_sequence := g_sequence g + 1 |}
  else Some {| g_index := g_index g; g_page := g_page g + 1; g_offset := 0; g_emitted := emitted;
             g_sequence := g_sequence g + 1 |}.

(** The request of one page, with the exceptions the loop turns into a page.
    Source: connectors/shopify.py:191-212, ShopifyConnector.collect. *)
Definition fetch_feed (g : Position) (partition endpoint : string) : eff W conn_exn (json + Page) :=
  catch
  (response ← n_send env (discovery_request endpoint (g_page g));
   if 400 <=? t_status response
   then mret (inr (failure_page partition (g_page g) (g_sequence g) endpoint
          (E_Runtime ("Shopify feed failed with status " +:+ pretty (t_status response)))))
   else body ← lift (n_json_loads env (t_content response)); mret (inl body))
  (fun e => match e with
            | E_BudgetExhausted _ => mret (inr (budget_page partition (g_page g) (g_sequence g) endpoint))
            | E_BodyTooLarge _ | E_TransportFailure _ | E_Value _ =>
                mret (inr (failure_page partition (g_page g) (g_sequence g) endpoint e))
            | _ => throw e
            end).

(** [yield EntityPage(...)]: the page is validated when it is built. *)
Definition emit_page (p : Page) (continue : option Position) : eff W conn_exn (option (Page * option Position)) :=
  p ← checked (valid_page p); mret (Some (p, continue)).

(** One run of the generator from a suspended position to its next [yield].
    Source: connectors/shopify.py:168-296, ShopifyConnector.collect. *)
Definition next_page (g : Position) : eff W conn_exn (option (Page * option Position)) :=
  match partitions !! g_index g with
  | None => mret None
  | Some partition =>
    let endpoint := endpoint_of partition in
    if so_page_limit opts <? g_page g
    then emit_page (page_limit_page opts partition (g_page g) (g_sequence g) endpoint) None
    else
      cancelled ← gets (n_cancelled env);
      if cancelled : bool then mret None else
      affordable ← gets (is_affordable env (discovery_request endpoint (g_page g)));
      if negb affordable
      then emit_page (budget_page partition (g_page g) (g_sequence g) endpoint) None
      else
        fetched ← fetch_feed g partition endpoint;
        match fetched with
        | inr page => emit_page page None
        | inl body =>
            let products := products_of body in
            let selected := omap as_dict (select products g) in
            '(enriched, inventory) ← enrich_inventory env opts selected origin endpoint;
            observed ← gets (n_clock env);
            items ← checked (traverse (fun raw =>
                      normalize env opts raw (c_source_id request) origin currency observed partition) enriched);
            emit_page (feed_page products items g partition endpoint inventory)
                      (after_page products g partition)
        end
  end.
End collect.

(** ** Opening a collection *)

Section opening.
Context {W : Type} (env : ShopEnv W) (opts : ShopifyOptions).

(** Source: connectors/shopify.py, ShopifyConnector._currency. *)
Definition currency_of (origin : string) : eff W conn_exn (option string) :=
  let request := get_request (origin +:+ "/meta.json") [] [] P_ENRICHMENT R_OPTIONAL false 10000 in
  affordable ← gets (optional_affordable env opts request (origin +:+ "/products.json"));
  if negb affordable then mret None else
  catch
  (response ← n_send env request;
   if 400 <=? t_status response then mret None else
   payload ← lift (n_json_loads env (t_content response));
   match payload with
   | JDict d =>
       let value := get d "currency" in
       let currency := if truthy value then str_upper (str_strip (str_of env value)) else "" in
       mret (if (str_len currency =? 3) && str_forall is_alpha currency then Some currency else None)
   | _ => mret None
   end)
  (fun e => match e with E_Type _ | E_Other _ => throw e | _ => mret None end).

(** Where a checkpoint puts the generator.
    Source: connectors/shopify.py:157-172, ShopifyConnector.collect. *)
Definition start_position (partitions : list string) (checkpoint : option ConnectorCheckpoint)
  : result pyexn Position :=
  resume ← resume_of checkpoint;
  match resume with
  | None => Ok {| g_index := 0; g_page := 1; g_offset := 0; g_emitted := 0; g_sequence := 0 |}
  | Some (partition, page, offset) =>
    match index_of partition partitions with
    | None => Err (ValueError "CHECKPOINT_INVALID: Shopify partition is not requested")
    | Some i => Ok {| g_index := i; g_page := page; g_offset := offset; g_emitted := 0; g_sequence := 0 |}
    end
  end.

(** [request.partitions or ("main",)] *)
Definition partitions_of (request : CollectionRequest) : list string :=
  match c_partitions request with [] => ["main"] | l => l end.

(** Source: connectors/shopify.py:125-132, ShopifyConnector. *)
Definition shopify_capabilities : ConnectorCapabilities :=
  {| cap_snapshot_fields := [F_IDENTITY; F_DESCRIPTION; F_CATEGORIES; F_IMAGES; F_VARIANTS; F_OFFERS; F_STOCK;
     F_DOCUMENTS; F_PUBLISHED_ATTRIBUTES; F_PLATFORM_EXTENSIONS];
   cap_refresh_modes := [FULL]; cap_stock_kinds := [EXACT; QUANTITY_UNKNOWN];
   cap_incremental_cursor := false; cap_category_filter := false; cap_documents := true;
   cap_browser := NEVER; cap_shared_edge := Some "edge:shopify" |}.

Context (sha256 : string -> string) (float_repr : pyfloat -> string) (options : json).

(** The statements of [collect] before its loop: the generator it goes on as.
    Source: connectors/shopify.py:144-167, ShopifyConnector.collect. *)
Definition open_collection (request : CollectionRequest) (checkpoint : option ConnectorCheckpoint)
  : eff W conn_exn (string * option string * Position) :=
  _ ← checked (validate_connector_request sha256 float_repr shopify_capabilities
      "Shopify does not support the requested contract" "shopify" "1" request checkpoint options None false);
  parts ← checked (urlsplit (c_base_url request));
  let origin := sr_scheme parts +:+ "://" +:+ sr_netloc parts in
  currency ← match so_currency opts with
           | Some c => if str_isempty c then currency_of origin else mret (Some c)
           | None => currency_of origin
           end;
  g ← checked (start_position (partitions_of request) checkpoint);
  mret (origin, currency, g).

(** Source: connectors/shopify.py, ShopifyConnector.checkpoint. *)
Definition checkpoint (request : CollectionRequest) (lineage : string) (resume_after : json)
  : result pyexn ConnectorCheckpoint :=
  build_checkpoint sha256 float_repr "shopify" "1" request lineage resume_after options.
End opening.

(** * Typing of pages, positions and cursors *)

(** The positions [collect] goes through: within the partitions, with the values
    [_resume] accepts. *)
Record typed_position (partitions : list string) (g : Position) : Prop := {
  tp_index : (g_index g <= length partitions)%nat;
  tp_page : 1 <= g_page g;
  tp_offset : 0 <= g_offset g;
  tp_emitted : 0 <= g_emitted g;
  tp_sequence : 0 <= g_sequence g;
}.

(** The checkpoint that carries a cursor, up to its identity. *)
Definition at_cursor (c : json) : option ConnectorCheckpoint :=
  Some {| k_connector := "shopify"; k_connector_version := "1"; k_source_id := ""; k_lineage := "";
          k_fingerprint := ""; k_resume_after := c |}.

(** The position a run resumed from a cursor starts at. *)
Definition resume_at (partitions : list string) (c : json) : result pyexn Position :=
  start_position partitions (at_cursor c).

Definition position_at (i : nat) (page offset : Z) : Position :=
  {| g_index := i; g_page := page; g_offset := offset; g_emitted := 0; g_sequence := 0 |}.

Lemma index_of_lookup name l i : index_of name l = Some i -> l !! i = Some name.
Proof.
  revert i. induction l as [|x l IH]; intros i; simpl; [done|].
  case_bool_decide; [intros [= <-]; simpl; congruence|].
  destruct (index_of name l) as [j|]; simpl; [intros [= <-]|done]. by apply IH.
Qed.

Lemma index_of_elem name l : name ∈ l -> exists i, index_of name l = Some i.
Proof.
  induction 1 as [x l|x y l _ [i Hi]]; simpl; [rewrite bool_decide_true by done; eauto|].
  case_bool_decide; eauto. rewrite Hi. simpl. eauto.
Qed.

Lemma index_of_NoDup name l i : NoDup l -> l !! i = Some name -> index_of name l = Some i.
Proof.
  intros Hnd. revert i. induction Hnd as [|x l Hx Hnd IH]; intros [|i] Hi; simpl in *; simplify_eq/=.
  - by rewrite bool_decide_true.
  - rewrite bool_decide_false by (intros ->; apply Hx; by eapply list_elem_of_lookup_2).
    by rewrite (IH i).
Qed.

Lemma resume_at_cursor partitions partition page offset i :
  index_of partition partitions = Some i -> 1 <= page -> 0 <= offset ->
  resume_at partitions (cursor partition page offset) = Ok (position_at i page offset)
  /\ resume_at partitions (page_cursor partition page) = Ok (position_at i page 0).
Proof.
  intros Hi Hp Ho. unfold resume_at, start_position. simpl. unfold get. simpl.
  rewrite (proj2 (Z.leb_le 1 page)), (proj2 (Z.leb_le 0 offset)) by done. simpl. by rewrite Hi.
Qed.

Lemma page_id_nonempty partition page : str_isempty (page_id partition page) = false.
Proof. unfold page_id. by destruct partition. Qed.

Lemma select_length request products g :
  (length (select request products g) <= length products - Z.to_nat (g_offset g))%nat.
Proof. unfold select. case_match; rewrite ?length_take, length_drop; lia. Qed.

Section typing.
Context (opts : ShopifyOptions) (request : CollectionRequest) (partitions : list string).
Hypothesis named : Forall (fun p => str_isempty p = false) partitions.

Let decision products g partition := decide_page opts request partitions products g partition.

Lemma limited_limit products g partition :
  dc_limited (decision products g partition) = true -> is_Some (c_result_limit request).
Proof. unfold decision, decide_page. simpl. destruct (c_result_limit request); eauto. done. Qed.

Lemma last_index g partition :
  partitions !! g_index g = Some partition -> dc_last (decision [] g partition) = false ->
  is_Some (partitions !! S (g_index g)).
Proof.
  unfold decision, decide_page. simpl. intros Hp Hl%bool_decide_eq_false.
  apply lookup_lt_is_Some. apply lookup_lt_Some in Hp as Hlt. destruct (decide (S (g_index g) = length partitions)); [|lia].
  exfalso. apply Hl. rewrite last_lookup, <- Hp. f_equal. lia.
Qed.

(** The cursor of a page names the first page of the next partition, the next
    page of this one, or the first product not emitted; only the last page of the
    last partition has none. *)
Lemma cursor_cases products g partition :
  partitions !! g_index g = Some partition ->
  let d := decision products g partition in
  match dc_cursor d with
  | None => dc_limited d = false /\ dc_exhausted d = true /\ dc_last d = true
  | Some c => exists i page offset name, partitions !! i = Some name /\ c = cursor name page offset
      /\ (1 <= g_page g -> 1 <= page) /\ (0 <= g_offset g -> 0 <= offset)
      /\ (dc_limited d = false -> dc_exhausted d = true -> dc_last d = false)
  end.
Proof.
  intros Hp. pose proof (last_index g partition Hp) as Hn. unfold decision, decide_page in *.
  cbn [dc_cursor dc_limited dc_exhausted dc_last] in *.
  set (la := bool_decide (Some partition = last partitions)) in *.
  set (short := (_ <? _)%nat). set (ex := Z.of_nat (length products) <? _).
  set (li := match c_result_limit request with Some _ => _ | None => _ end).
  set (n := Z.of_nat (length (select request products g))). assert (0 <= n) as Hnn by lia.
  assert (li = true -> short || negb ex = true) as Hli by (unfold li; case_match; [|done]; by intros [_ ?]%andb_true_iff).
  clearbody la short ex li n. destruct (li && short) eqn:E.
  { exists (g_index g), (g_page g), (g_offset g + n), partition. split_and!; [done|done|lia|lia|].
  intros ->. done. }
  destruct ex; [destruct la|].
  - destruct li, short; try done. by specialize (Hli eq_refl).
  - destruct Hn as [name Hn]; [done|]. rewrite Hn. exists (S (g_index g)), 1, 0, name. split_and!; done || lia.
  - exists (g_index g), (g_page g + 1), 0, partition. split_and!; done || lia.
Qed.

Lemma feed_page_valid products items g partition endpoint inventory :
  partitions !! g_index g = Some partition -> 0 <= g_sequence g -> (length items <= length products)%nat ->
  let p := feed_page opts request partitions products items g partition endpoint inventory in
  valid_page p = Ok p.
Proof.
  intros Hp Hs Hlen. pose proof (cursor_cases products g partition Hp) as Hc.
  pose proof (limited_limit products g partition) as Hl. pose proof (Forall_lookup_1 _ _ _ _ named Hp) as Hne.
  unfold feed_page. fold (decision products g partition). destruct (decision products g partition) as [li ex la cu].
  cbn [dc_limited dc_exhausted dc_last dc_cursor] in *. unfold valid_page. simpl.
  rewrite page_id_nonempty, Hne. simpl. rewrite (proj2 (Z.leb_le 0 (g_sequence g))) by done.
  rewrite (proj2 (Z.leb_le 0 (Z.of_nat (length products)))) by lia.
  rewrite (proj2 (Z.leb_le (Z.of_nat (length items)) _)) by lia. simpl.
  destruct li.
  - destruct (Hl eq_refl) as [limit ->]. destruct ex; simpl; rewrite existsb_app; simpl; by rewrite orb_true_r.
  - destruct ex, la; simpl; try done; destruct cu; simpl; try done.
  + destruct Hc as (?&?&?&?&?&?&?&?&Hc). by specialize (Hc eq_refl eq_refl).
  + by destruct Hc as (?&?&?).
Qed.

Lemma incomplete_page_valid id partition page sequence d :
  str_isempty id = false -> partition ∈ partitions -> 0 <= sequence -> d_affects_completeness d = true ->
  let p := incomplete_page id partition page sequence d in valid_page p = Ok p.
Proof.
  intros Hid Hin Hs Hd. unfold valid_page, incomplete_page. simpl.
  rewrite Hid, (proj1 (Forall_forall _ _) named _ Hin). simpl. rewrite (proj2 (Z.leb_le 0 sequence)) by done. simpl.
  by rewrite Hd.
Qed.

Lemma after_page_typed products g partition g' :
  partitions !! g_index g = Some partition -> typed_position partitions g ->
  after_page opts request partitions products g partition = Some g' -> typed_position partitions g'.
Proof.
  intros Hp [Hi H1 H2 H3 H4]. unfold after_page. apply lookup_lt_Some in Hp.
  repeat case_match; intros [= <-]; constructor; simpl; lia.
Qed.
End typing.

(** * The generator *)

Lemma traverse_length {A B} (f : A -> result pyexn (option B)) l r :
  traverse f l = Ok r -> (length r <= length l)%nat.
Proof.
  revert r. induction l as [|x l IH]; intros r H; cbn [traverse] in H; [by simplify_eq|].
  apply bind_Ok in H as (y & _ & H). apply bind_Ok in H as (ys & Hys & H). simplify_eq.
  apply IH in Hys. rewrite length_app. destruct y; simpl; lia.
Qed.

Lemma omap_length {A B} (f : A -> option B) l : (length (omap f l) <= length l)%nat.
Proof. induction l as [|x l IH]; csimpl; [done|]. destruct (f x); csimpl; lia. Qed.

Lemma valid_options_facts o :
  valid_options o = true -> 1 <= so_page_limit o /\ (1 <= so_inventory_batch_size o)%nat.
Proof. unfold valid_options. rewrite !andb_true_iff, !Z.leb_le, !Nat.leb_le. intuition. Qed.

Section generator.
Context {W : Type} (env : ShopEnv W) (opts : ShopifyOptions) (request : CollectionRequest).
Context (origin : string) (currency : option string) (partitions : list string).
Hypothesis named : Forall (fun p => str_isempty p = false) partitions.
Hypothesis options_ok : valid_options opts = true.

Let next := next_page env opts request origin currency partitions.

(** An exception of a collaborator: the transport, the enrichment or the
    normalisation of a product. *)
Definition raised_outside (e : conn_exn) : Prop :=
  (exists g p url w w', fetch_feed env opts g p url w = (Err e, w'))
  \/ (exists products url w w', enrich_inventory env opts products origin url w = (Err e, w'))
  \/ (exists products observed p x, traverse (fun raw =>
      normalize env opts raw (c_source_id request) origin currency observed p) products = Err x /\ e = of_pyexn x).

(** What one run of the generator to its next page does. *)
Definition typed_outcome (r : result conn_exn (option (Page * option Position))) (work : nat) (measure : Position -> nat) : Prop :=
  match r with
  | Ok None => True
  | Ok (Some (p, k)) =>
    valid_page p = Ok p /\ Forall (shop_snapshot (c_source_id request)) (p_items p)
    /\ (forall c, p_resume_after p = Some c -> exists g', resume_at partitions c = Ok g' /\ typed_position partitions g')
    /\ (forall g', k = Some g' -> typed_position partitions g' /\ (measure g' < work)%nat)
  | Err e => raised_outside e
  end.

(** The pages left: the rest of this partition and the later ones. *)
Definition pages_left (g : Position) : nat :=
  let limit := Z.to_nat (so_page_limit opts) in
  if (g_index g <? length partitions)%nat
  then Z.to_nat (so_page_limit opts + 1 - g_page g) + (length partitions - g_index g - 1) * limit
  else 0%nat.

Lemma emit_valid p k (w : W) : valid_page p = Ok p -> emit_page p k w = (Ok (Some (p, k)), w).
Proof. intros H. unfold emit_page, checked, mbind, eff_bind. by rewrite H. Qed.

Lemma after_page_decreases products g partition g' :
  partitions !! g_index g = Some partition -> g_page g <= so_page_limit opts ->
  after_page opts request partitions products g partition = Some g' -> (pages_left g' < pages_left g)%nat.
Proof.
  intros Hp Hl. apply lookup_lt_Some in Hp. unfold after_page, pages_left.
  destruct (valid_options_facts _ options_ok) as [? _].
  destruct (Nat.ltb_spec (g_index g) (length partitions)); [|lia].
  repeat case_match; intros [= <-]; cbn [g_index g_page] in *; bool_facts; nia.
Qed.

Lemma page_cursor_resumes partition page :
  partition ∈ partitions -> 1 <= page ->
  forall c, Some (page_cursor partition page) = Some c ->
  exists g', resume_at partitions c = Ok g' /\ typed_position partitions g'.
Proof.
  intros (i & Hi)%index_of_elem Hp c [= <-]. exists (position_at i page 0).
  split; [by apply (resume_at_cursor partitions partition page 0)|].
  apply index_of_lookup, lookup_lt_Some in Hi. constructor; simpl; lia.
Qed.

Lemma cursor_resumes products g partition :
  partitions !! g_index g = Some partition -> typed_position partitions g ->
  forall c, dc_cursor (decide_page opts request partitions products g partition) = Some c ->
  exists g', resume_at partitions c = Ok g' /\ typed_position partitions g'.
Proof.
  intros Hp Hg c Hc. pose proof (cursor_cases opts request partitions products g partition Hp) as H.
  cbv beta zeta in H. rewrite Hc in H. destruct H as (i & page & offset & name & Hi & -> & H1 & H2 & _).
  destruct (index_of_elem name partitions) as [j Hj]; [by eapply list_elem_of_lookup_2|].
  pose proof (H1 (tp_page _ _ Hg)). pose proof (H2 (tp_offset _ _ Hg)).
  exists (position_at j page offset). split; [by apply resume_at_cursor|].
  apply index_of_lookup, lookup_lt_Some in Hj. constructor; simpl; lia.
Qed.

Lemma incomplete_page_typed id partition page sequence d work :
  str_isempty id = false -> partition ∈ partitions -> 1 <= page -> 0 <= sequence -> d_affects_completeness d = true ->
  typed_outcome (Ok (Some (incomplete_page id partition page sequence d, None))) work pages_left.
Proof.
  intros Hid Hin Hp Hs Hd. split_and!; [by apply (incomplete_page_valid partitions)|by apply Forall_nil|by apply page_cursor_resumes|done].
Qed.

(** A request that did not deliver a body yields an incomplete page. *)
Lemma fetch_feed_page g partition url w page w' :
  fetch_feed env opts g partition url w = (Ok (inr page), w') ->
  exists id d, page = incomplete_page id partition (g_page g) (g_sequence g) d
  /\ str_isempty id = false /\ d_affects_completeness d = true.
Proof.
  unfold fetch_feed, catch, mbind, eff_bind, mret, eff_ret, lift, throw, failure_page, budget_page, page_id.
  intros H. repeat case_match; simplify_eq; do 2 eexists; (split; [done|]); by destruct partition.
Qed.

Lemma next_page_typed g w :
  typed_position partitions g -> typed_outcome (next g w).1 (pages_left g) pages_left.
Proof.
  intros Hg. pose proof Hg as [Hi Hpage Hoff Hem Hseq]. unfold next, next_page.
  destruct (partitions !! g_index g) as [partition|] eqn:Hp; [|done].
  assert (partition ∈ partitions) as Hin by (by eapply list_elem_of_lookup_2).
  assert (Hinc : forall id d (w : W), str_isempty id = false -> d_affects_completeness d = true ->
  typed_outcome (emit_page (incomplete_page id partition (g_page g) (g_sequence g) d) None w).1 (pages_left g) pages_left).
  { intros id d w' Hid Hd. rewrite emit_valid by (by apply (incomplete_page_valid partitions)).
  by apply incomplete_page_typed. }
  destruct (so_page_limit opts <? g_page g) eqn:Hl; bool_facts.
  { apply Hinc; [by destruct partition|done]. }
  unfold mbind, eff_bind at 1, gets at 1. destruct (n_cancelled env w); [done|].
  unfold mbind, eff_bind at 1, gets at 1. destruct (negb _).
  { apply Hinc; [unfold page_id; by destruct partition|done]. }
  unfold mbind, eff_bind at 1. destruct (fetch_feed _ _ _ _ _ w) as [[[body|page]|e] w1] eqn:Hf.
  - set (products := products_of body).
  pose proof (enrichment_accounts env opts (omap as_dict (select request products g)) origin
    (endpoint_of origin partition) (proj2 (valid_options_facts _ options_ok)) w1) as Hen.
  unfold mbind, eff_bind at 1. destruct (enrich_inventory _ _ _ _ _ w1) as [[[enriched inventory]|e] w2] eqn:He.
  2: { right. left. by eexists _, _, _, _. }
  destruct Hen as [Hen _]; cbn [fst] in Hen. unfold mbind, eff_bind at 1, gets at 1.
  unfold mbind, eff_bind at 1, checked at 1. destruct (traverse _ enriched) as [items|x] eqn:Ht.
  2: { right. right. by eexists _, _, _, _. }
  assert (length items <= length products)%nat.
  { pose proof (traverse_length _ _ _ Ht). pose proof (omap_length as_dict (select request products g)).
    pose proof (select_length request products g). unfold product in *. lia. }
  pose proof (feed_page_valid opts request partitions named products items g partition
    (endpoint_of origin partition) inventory Hp Hseq ltac:(done)) as Hv. cbv zeta in Hv.
  rewrite emit_valid by exact Hv. split_and!; [exact Hv| |by apply cursor_resumes|].
  { eapply traverse_Forall; [|exact Ht]. intros x y. apply normalize_typed. }
  intros g' Hg'. split; [by eapply after_page_typed|by eapply after_page_decreases].
  - destruct (fetch_feed_page _ _ _ _ _ _ Hf) as (id & d & -> & Hid & Hd). by apply Hinc.
  - left. by eexists _, _, _, _, _.
Qed.

(** C25. Pages, products and cursors are well typed, whatever the shop answers: from a
  position within the partitions every page the generator yields satisfies its
  validator; every product on it is a snapshot of the request's source that is named,
  whose variants have an identifier and a stock, whose quantities are given exactly
  when their kind is known, and whose offers ask for a finite amount of a currency, are
  evidenced, and are none, a regular one, or a sale with the dearer regular one; every
  cursor the page publishes is one that [_resume] accepts for this collection, and the
  generator is suspended again in such a position; the page it builds never fails its
  own validator, so that only the request, the enrichment and the normalisation of a
  product can raise. *)
Theorem shopify_pages_typed g w :
  typed_position partitions g ->
  match (next_page env opts request origin currency partitions g w).1 with
  | Ok None => True
  | Ok (Some (p, k)) =>
      valid_page p = Ok p /\ Forall (shop_snapshot (c_source_id request)) (p_items p)
      /\ (forall c, p_resume_after p = Some c ->
            exists g', resume_at partitions c = Ok g' /\ typed_position partitions g')
      /\ (forall g', k = Some g' -> typed_position partitions g')
  | Err e => raised_outside e
  end.
Proof.
  intros Hg. pose proof (next_page_typed g w Hg) as H. unfold next, typed_outcome in H.
  destruct (next_page _ _ _ _ _ _ g w).1 as [[[p k]|]|e]; try done.
  destruct H as (H1 & H2 & H3 & H4). split_and!; [done..|]. intros g' Hk. by apply H4.
Qed.

(** C24. A collection ends: whatever the shop answers, however the budget, the
  cancellation flag and the clock change between pages, no consumer sees more
  than one page per page number up to the limit and partition still to visit,
  plus one, and a loop with that many turns runs the generator to its end or to
  an exception of a collaborator. *)
Theorem shopify_collect_terminates g :
  typed_position partitions g ->
  let limit := Z.to_nat (so_page_limit opts) in
  (pages_left g <= (length partitions - g_index g) * limit)%nat
  /\ (forall ps, pages_of (next_page env opts request origin currency partitions) g ps ->
       (length ps <= S (pages_left g))%nat)
  /\ (forall w, match (drain (next_page env opts request origin currency partitions) (S (pages_left g)) g w).1 with
       | Ok (ps, ended) => ended = true
       | Err e => raised_outside e
       end).
Proof.
  intros Hg limit. pose proof Hg as [Hi Hp _ _ _]. split_and!.
  - unfold pages_left. destruct (Nat.ltb_spec (g_index g) (length partitions)); [|lia]. subst limit. nia.
  - intros ps. apply (pages_of_bounded _ (typed_position partitions)); [|done].
  intros g0 w p g' w' H0 H1. pose proof (next_page_typed g0 w H0) as Ht. unfold next, typed_outcome in Ht.
  rewrite H1 in Ht. destruct Ht as (_ & _ & _ & Ht). by apply Ht.
  - intros w. pose proof (drain_ends next (typed_position partitions) pages_left raised_outside) as Hd.
  unfold next in Hd. specialize (Hd ltac:(intros g0 w0 e w' H0 H1; pose proof (next_page_typed g0 w0 H0) as Ht;
    unfold next in Ht; by rewrite H1 in Ht)).
  specialize (Hd ltac:(intros g0 w0 p g' w' H0 H1; pose proof (next_page_typed g0 w0 H0) as Ht;
    unfold next, typed_outcome in Ht; rewrite H1 in Ht; destruct Ht as (_ & _ & _ & Ht); by apply Ht)).
  specialize (Hd (S (pages_left g)) g w Hg ltac:(lia)).
  revert Hd. case_match; [case_match; by intros [? _]|done].
Qed.
End generator.
