(* ===== verification/ShopifyResume.v ===== *)
(** Resuming a Shopify collection: against a shop that answers each page the same
    way every time, the resumable generator of [Shopify.v] refines one pass over
    the catalogue, whatever the interruptions and result limits. *)
From S2P Require Export Shopify.
From Stdlib Require Import Ascii.

(** [request] with another result limit; a checkpoint does not depend on it. *)
Definition limited_to (request : CollectionRequest) (limit : option Z) : CollectionRequest :=
  {| c_source_id := c_source_id request; c_base_url := c_base_url request;
     c_refresh_mode := c_refresh_mode request; c_requested_fields := c_requested_fields request;
     c_result_limit := limit; c_partitions := c_partitions request |}.

(** Where a collection stands between two runs. *)
Inductive Progress := Fresh | At (c : json) | Complete.

Definition after_run (st : Progress) (ps : list Page) : Progress :=
  match last ps with
  | None => st
  | Some p => match p_resume_after p with Some c => At c | None => Complete end
  end.

Section resume.
Context {W V : Type} (env : ShopEnv W) (opts : ShopifyOptions) (request : CollectionRequest).
Context (origin : string) (currency : option string) (partitions : list string).
Context (view : CommerceProductSnapshot -> V).
(** The pages of the shop, and what is observed of a normalised product. *)
Context (feed : string -> Z -> list json) (norm : string -> product -> option V).

(** The shop answers every page of the feed with the same products, every time;
    the run has no budget, is not cancelled and does not enrich inventory; its
    products normalise, to snapshots that look the same every time. *)
Record stable_shop : Prop := {
  st_budget : n_budgeted env = false;
  st_cancelled : forall w, n_cancelled env w = false;
  st_inventory : so_inventory_method opts = NO_INVENTORY;
  st_feed : forall w p page, p ∈ partitions -> exists t,
  n_send env (discovery_request opts (endpoint_of origin p) page) w = (Ok t, w) /\ t_status t < 400
  /\ n_json_loads env (t_content t) = Ok (JDict [("products", JList (feed p page))]);
  st_norm : forall w p page d, p ∈ partitions -> JDict d ∈ feed p page -> exists o,
  normalize env opts d (c_source_id request) origin currency (n_clock env w) p = Ok o
  /\ view <$> o = norm p d;
}.

Let run limit := next_page env opts (limited_to request limit) origin currency partitions.

(** * The specification: one pass over the catalogue *)

Definition short (products : list json) : bool := Z.of_nat (length products) <? so_page_size opts.

(** The products of a partition from one page on, for [fuel] pages. *)
Fixpoint walk (fuel : nat) (p : string) (page : Z) : list (string * json) :=
  match fuel with
  | O => []
  | S fuel => map (pair p) (feed p page) ++ if short (feed p page) then [] else walk fuel p (page + 1)
  end.

Definition from_partition (i : nat) : list (string * json) :=
  concat (map (fun p => walk (Z.to_nat (so_page_limit opts)) p 1) (drop i partitions)).

(** Everything the shop offers, up to the page limit. *)
Definition catalogue : list (string * json) := from_partition 0.

(** What is left from a position on. *)
Definition remaining (i : nat) (page offset : Z) : list (string * json) :=
  match partitions !! i with
  | None => []
  | Some p =>
    if so_page_limit opts <? page then from_partition (S i)
    else map (pair p) (drop (Z.to_nat offset) (feed p page))
         ++ (if short (feed p page) then [] else walk (Z.to_nat (so_page_limit opts - page)) p (page + 1))
         ++ from_partition (S i)
  end.
Definition left_at (g : Position) : list (string * json) := remaining (g_index g) (g_page g) (g_offset g).

(** What a consumer observes of products. *)
Definition observed (l : list (string * json)) : list V :=
  omap (fun '(p, j) => match j with JDict d => norm p d | _ => None end) l.

Definition seen (ps : list Page) : list V := map view (concat (map p_items ps)).

(** * Runs and sessions *)

Definition open_at (st : Progress) : result pyexn Position :=
  match st with
  | Fresh => start_position partitions None
  | At c => resume_at partitions c
  | Complete => Err (RuntimeError "complete")
  end.

(** A session: runs of the generator, each with its own result limit, each cut
    anywhere between two pages and resumed from the cursor of its last page. *)
Inductive session : Progress -> list (list Page) -> Progress -> Prop :=
  | session_done st : session st [] st
  | session_run st limit g ps pss st' :
  open_at st = Ok g -> pages_of (run limit) g ps -> session (after_run st ps) pss st' ->
  session st (ps :: pss) st'.

(** * The equations of the specification *)

Hypothesis options_ok : valid_options opts = true.

Lemma limit_positive : 1 <= so_page_limit opts.
Proof. by apply valid_options_facts. Qed.

Lemma from_partition_step i p :
  partitions !! i = Some p ->
  from_partition i = walk (Z.to_nat (so_page_limit opts)) p 1 ++ from_partition (S i).
Proof. intros Hp. unfold from_partition. by rewrite (drop_S _ _ _ Hp). Qed.

Lemma from_partition_end i : partitions !! i = None -> from_partition i = [].
Proof. intros Hp. unfold from_partition. rewrite drop_ge; [done|]. by apply lookup_ge_None. Qed.

Lemma remaining_start i : remaining i 1 0 = from_partition i.
Proof.
  unfold remaining. destruct (partitions !! i) as [p|] eqn:Hp; [|by rewrite from_partition_end].
  pose proof limit_positive. destruct (Z.ltb_spec (so_page_limit opts) 1); [lia|].
  rewrite (from_partition_step _ _ Hp). change (Z.to_nat 0) with 0%nat. rewrite drop_0.
  replace (Z.to_nat (so_page_limit opts)) with (S (Z.to_nat (so_page_limit opts - 1))) by lia.
  cbn [walk]. by rewrite <- app_assoc.
Qed.

(** What is left of a page, then the next page or the next partition. *)
Lemma remaining_step i p page offset :
  partitions !! i = Some p -> page <= so_page_limit opts ->
  remaining i page offset = map (pair p) (drop (Z.to_nat offset) (feed p page))
  ++ if short (feed p page) then remaining (S i) 1 0 else remaining i (page + 1) 0.
Proof.
  intros Hp Hl. rewrite remaining_start. unfold remaining. rewrite Hp.
  destruct (Z.ltb_spec (so_page_limit opts) page); [lia|]. f_equal.
  destruct (short (feed p page)); [done|]. destruct (Z.ltb_spec (so_page_limit opts) (page + 1)).
  - by replace (Z.to_nat (so_page_limit opts - page)) with 0%nat by lia.
  - replace (Z.to_nat (so_page_limit opts - page)) with (S (Z.to_nat (so_page_limit opts - (page + 1)))) by lia.
  cbn [walk]. change (Z.to_nat 0) with 0%nat. by rewrite drop_0, <- app_assoc.
Qed.

Lemma remaining_beyond i p page offset offset' :
  partitions !! i = Some p -> so_page_limit opts < page -> remaining i page offset = remaining i page offset'.
Proof. intros Hp Hl. unfold remaining. rewrite Hp. by destruct (Z.ltb_spec (so_page_limit opts) page); [|lia]. Qed.

Lemma remaining_split i p page offset n :
  partitions !! i = Some p -> page <= so_page_limit opts -> 0 <= offset ->
  remaining i page offset = map (pair p) (take n (drop (Z.to_nat offset) (feed p page)))
  ++ remaining i page (offset + Z.of_nat n).
Proof.
  intros Hp Hl Ho. rewrite (remaining_step i p page offset), (remaining_step i p page (offset + _)) by done. rewrite app_assoc. f_equal.
  rewrite <- map_app. f_equal. rewrite Z2Nat.inj_add, Nat2Z.id by lia. rewrite <- drop_drop. by rewrite take_drop.
Qed.

(** * One page *)

Hypothesis stable : stable_shop.
Hypothesis named : Forall (fun p => str_isempty p = false) partitions.
Hypothesis distinct : NoDup partitions.

Lemma traverse_norm p page l w :
  p ∈ partitions -> l ⊆ feed p page ->
  exists items, traverse (fun raw => normalize env opts raw (c_source_id request) origin currency (n_clock env w) p)
    (omap as_dict l) = Ok items /\ map view items = observed (map (pair p) l).
Proof.
  intros Hp. induction l as [|j l IH]; intros Hl; [by exists []|].
  destruct IH as (items & Hi & Hv); [set_solver|].
  destruct (as_dict j) as [d|] eqn:Hj.
  - destruct j; simplify_eq/=. destruct (st_norm stable w p page d) as (o & Ho & Hn); [done|set_solver|].
  csimpl. cbn [traverse]. rewrite Ho. simpl. rewrite Hi. simpl. eexists. split; [done|].
  unfold observed in *. csimpl. rewrite <- Hn. destruct o; simpl; [by f_equal|done].
  - exists items. csimpl. rewrite Hj. split; [done|]. unfold observed in *. csimpl. destruct j; done.
Qed.

Lemma run_page limit g p w :
  partitions !! g_index g = Some p -> g_page g <= so_page_limit opts -> 0 <= g_sequence g ->
  exists items, map view items = observed (map (pair p) (select (limited_to request limit) (feed p (g_page g)) g))
  /\ run limit g w = (Ok (Some (
       feed_page opts (limited_to request limit) partitions (feed p (g_page g)) items g p (endpoint_of origin p) [],
       after_page opts (limited_to request limit) partitions (feed p (g_page g)) g p)), w).
Proof.
  intros Hp Hl Hs. assert (p ∈ partitions) as Hin by (by eapply list_elem_of_lookup_2).
  destruct (traverse_norm p (g_page g) (select (limited_to request limit) (feed p (g_page g)) g) w) as (items & Hi & Hv);
  [done| |].
  { unfold select. case_match; [|apply subseteq_drop]. etransitivity; [apply subseteq_take|apply subseteq_drop]. }
  exists items. split; [done|]. unfold run, next_page. rewrite Hp.
  destruct (Z.ltb_spec (so_page_limit opts) (g_page g)); [lia|].
  unfold mbind, eff_bind at 1, gets at 1. rewrite (st_cancelled stable).
  unfold eff_bind at 1, gets at 1, is_affordable. rewrite (st_budget stable). cbn [negb orb].
  unfold eff_bind at 1, fetch_feed, catch, mbind, eff_bind, lift, mret, eff_ret.
  destruct (st_feed stable w p (g_page g) Hin) as (t & -> & Ht & ->).
  destruct (Z.leb_spec 400 (t_status t)); [lia|]. unfold products_of. cbn [dict_get]. rewrite bool_decide_true by done.
  cbn [default from_option id]. unfold enrich_inventory. rewrite (st_inventory stable), bool_decide_true by done. cbn [orb].
  unfold mret, eff_ret, gets, checked at 1. cbn [limited_to c_source_id]. rewrite Hi.
  apply emit_valid, feed_page_valid; [done..|]. pose proof (traverse_length _ _ _ Hi).
  pose proof (omap_length as_dict (select (limited_to request limit) (feed p (g_page g)) g)).
  pose proof (select_length (limited_to request limit) (feed p (g_page g)) g). unfold product in *. lia.
Qed.

Lemma select_prefix req products g :
  select req products g = take (length (select req products g)) (drop (Z.to_nat (g_offset g)) products).
Proof.
  unfold select. case_match; [|by rewrite firstn_all].
  rewrite length_take. destruct (Nat.le_ge_cases (Z.to_nat (Z.max (z - g_emitted g) 0))
  (length (drop (Z.to_nat (g_offset g)) products))).
  - by rewrite Nat.min_l.
  - rewrite Nat.min_r by done. by rewrite firstn_all, take_ge.
Qed.

(** A page that leaves products behind has reached the result limit. *)
Lemma short_is_limited req products g p :
  (length (select req products g) < length (drop (Z.to_nat (g_offset g)) products))%nat ->
  dc_limited (decide_page opts req partitions products g p) = true.
Proof.
  intros H. apply Nat.ltb_lt in H as Hs. unfold decide_page. cbn [dc_limited].
  destruct (c_result_limit req) as [limit|] eqn:E; [|unfold select in H; rewrite E in H; lia].
  rewrite Hs, orb_true_l, andb_true_r. apply Z.leb_le.
  unfold select in H |- *. rewrite E in H |- *. rewrite length_take in H |- *. lia.
Qed.

(** What is left after a page: the rest of the page, or the page or partition that
    follows. *)
Lemma remaining_after req i p page g :
  partitions !! i = Some p -> g_index g = i -> g_page g = page -> page <= so_page_limit opts -> 0 <= g_offset g ->
  let n := length (select req (feed p page) g) in
  left_at g = map (pair p) (select req (feed p page) g) ++ remaining i page (g_offset g + Z.of_nat n)
  /\ ((length (drop (Z.to_nat (g_offset g)) (feed p page)) <= n)%nat ->
    remaining i page (g_offset g + Z.of_nat n)
    = if short (feed p page) then remaining (S i) 1 0 else remaining i (page + 1) 0).
Proof.
  intros Hp <- <- Hl Ho n. split.
  - rewrite select_prefix. fold n. by apply remaining_split.
  - rewrite length_drop. intros Hn. rewrite (remaining_step _ p) by done. rewrite drop_ge; [done|]. lia.
Qed.

Lemma resume_in_partition i p page offset :
  partitions !! i = Some p -> 1 <= page -> 0 <= offset ->
  resume_at partitions (cursor p page offset) = Ok (position_at i page offset)
  /\ resume_at partitions (page_cursor p page) = Ok (position_at i page 0)
  /\ typed_position partitions (position_at i page offset).
Proof.
  intros Hp H1 H2. destruct (resume_at_cursor partitions p page offset i) as [? ?]; [by apply index_of_NoDup|done..|].
  apply lookup_lt_Some in Hp. split_and!; [done..|]. constructor; simpl; lia.
Qed.

(** One step of the simulation: a page shows a prefix of what was left, the
    generator goes on with the rest, and so does whoever resumes from its cursor. *)
Definition refines_step (g : Position) (pg : Page) (k : option Position) : Prop :=
  exists consumed rest,
  left_at g = consumed ++ rest /\ map view (p_items pg) = observed consumed
  /\ (forall g', k = Some g' -> left_at g' = rest /\ typed_position partitions g')
  /\ match p_resume_after pg with
     | Some c => exists g', resume_at partitions c = Ok g' /\ typed_position partitions g' /\ left_at g' = rest
     | None => rest = []
     end.

Lemma feed_page_refines limit g p items w :
  partitions !! g_index g = Some p -> typed_position partitions g -> g_page g <= so_page_limit opts ->
  map view items = observed (map (pair p) (select (limited_to request limit) (feed p (g_page g)) g)) ->
  refines_step g
  (feed_page opts (limited_to request limit) partitions (feed p (g_page g)) items g p w [])
  (after_page opts (limited_to request limit) partitions (feed p (g_page g)) g p).
Proof.
  intros Hp [Hi H1 H2 H3 H4] Hl Hv. set (req := limited_to request limit) in *. set (products := feed p (g_page g)) in *.
  destruct (remaining_after req (g_index g) p (g_page g) g Hp eq_refl eq_refl Hl H2) as [Hs Hr]. fold products in Hs, Hr.
  exists (map (pair p) (select req products g)), (remaining (g_index g) (g_page g)
  (g_offset g + Z.of_nat (length (select req products g)))).
  split; [done|]. split; [done|]. pose proof (short_is_limited req products g p) as Hsl.
  pose proof (last_index opts req partitions g p Hp) as Hli.
  unfold feed_page, after_page, decide_page in *. cbn [dc_limited dc_exhausted dc_cursor dc_last p_resume_after] in *.
  set (available := drop (Z.to_nat (g_offset g)) products) in *. set (n := length (select req products g)) in *.
  fold (short products) in *. set (li := match c_result_limit req with Some _ => _ | None => _ end) in *.
  clearbody li available n. destruct (Nat.ltb_spec n (length available)) as [Hn|Hn].
  { rewrite Hsl by done. simpl. split; [done|].
  destruct (resume_in_partition (g_index g) p (g_page g) (g_offset g + Z.of_nat n) Hp H1 ltac:(lia)) as (? & _ & ?).
  by eexists. }
  rewrite andb_false_r. rewrite (Hr Hn). apply lookup_lt_Some in Hp as Hlt. destruct (short products).
  - split; [intros g' Hg'; destruct li; simplify_eq; split; [done|constructor; simpl; lia]|].
  destruct (bool_decide _) eqn:Hlast.
  + apply bool_decide_eq_true in Hlast. unfold remaining.
    destruct (partitions !! S (g_index g)) as [q|] eqn:Hq; [|done]. exfalso.
    rewrite last_lookup in Hlast. symmetry in Hlast. pose proof (NoDup_lookup _ _ _ _ distinct Hp Hlast).
    apply lookup_lt_Some in Hq. lia.
  + destruct (Hli eq_refl) as [q Hq]. rewrite Hq. simpl.
    destruct (resume_in_partition (S (g_index g)) q 1 0 Hq) as (? & _ & ?); [done..|]. by eexists.
  - split; [intros g' Hg'; destruct li; simplify_eq; split; [done|constructor; simpl; lia]|].
  destruct (resume_in_partition (g_index g) p (g_page g + 1) 0 Hp) as (? & _ & ?); [lia|done|]. by eexists.
Qed.

Lemma run_refines limit g w pg k w' :
  typed_position partitions g -> run limit g w = (Ok (Some (pg, k)), w') -> refines_step g pg k.
Proof.
  intros Hg Hr. pose proof Hg as [Hi H1 H2 H3 H4]. destruct (partitions !! g_index g) as [p|] eqn:Hp.
  2: { unfold run, next_page in Hr. by rewrite Hp in Hr. }
  destruct (Z.le_gt_cases (g_page g) (so_page_limit opts)) as [Hl|Hl].
  - destruct (run_page limit g p w Hp Hl H4) as (items & Hv & E). rewrite E in Hr. simplify_eq.
  by apply feed_page_refines.
  - unfold run, next_page in Hr. rewrite Hp in Hr. destruct (Z.ltb_spec (so_page_limit opts) (g_page g)); [|lia].
  unfold page_limit_page in Hr. rewrite emit_valid in Hr; [simplify_eq|].
  + exists [], (left_at g). split_and!; [done..|]. cbn [p_resume_after incomplete_page].
    destruct (resume_in_partition (g_index g) p (g_page g) 0 Hp H1) as (_ & ? & ?); [done|].
    eexists. split_and!; [done..|]. by apply (remaining_beyond _ p).
  + apply (incomplete_page_valid partitions); [done|by destruct p|by eapply list_elem_of_lookup_2|done|done].
Qed.

(** * Sessions *)

Definition stands (st : Progress) (rest : list (string * json)) : Prop :=
  match st with
  | Complete => rest = []
  | _ => exists g, open_at st = Ok g /\ typed_position partitions g /\ left_at g = rest
  end.

Lemma seen_cons pg ps : seen (pg :: ps) = map view (p_items pg) ++ seen ps.
Proof. unfold seen. simpl. by rewrite map_app. Qed.

Lemma seen_app ps ps' : seen (ps ++ ps') = seen ps ++ seen ps'.
Proof. unfold seen. by rewrite map_app, concat_app, map_app. Qed.

Lemma observed_app l l' : observed (l ++ l') = observed l ++ observed l'.
Proof. unfold observed. by rewrite omap_app. Qed.

Lemma after_run_cons st pg ps :
  after_run st (pg :: ps) =
  after_run (match p_resume_after pg with Some c => At c | None => Complete end) ps.
Proof. unfold after_run. rewrite last_cons. by destruct (last ps). Qed.

(** The prefix of one run a consumer has seen. *)
Lemma run_prefix limit g ps :
  pages_of (run limit) g ps -> typed_position partitions g -> forall st, stands st (left_at g) ->
  exists consumed rest, left_at g = consumed ++ rest /\ seen ps = observed consumed
  /\ stands (after_run st ps) rest.
Proof.
  assert (forall pg k g, refines_step g pg k -> exists consumed rest, left_at g = consumed ++ rest
  /\ map view (p_items pg) = observed consumed
  /\ stands (match p_resume_after pg with Some c => At c | None => Complete end) rest
  /\ forall g', k = Some g' -> left_at g' = rest /\ typed_position partitions g') as Hstep.
  { intros pg k g0 (consumed & rest & H1 & H2 & H3 & H4). exists consumed, rest. split_and!; [done..| |done].
  by destruct (p_resume_after pg). }
  intros H. induction H as [g|g w w' pg Hn|g w w' pg g' ps Hn _ IH]; intros Hg st Hst.
  - exists [], (left_at g). by split_and!.
  - destruct (Hstep pg None g) as (consumed & rest & H1 & H2 & H3 & _); [by eapply run_refines|].
  exists consumed, rest. rewrite seen_cons, app_nil_r, after_run_cons. by split_and!.
  - destruct (Hstep pg (Some g') g) as (consumed & rest & H1 & H2 & H3 & H4); [by eapply run_refines|].
  destruct (H4 g' eq_refl) as [<- Hg']. destruct (IH Hg' _ H3) as (consumed' & rest' & H5 & H6 & H7).
  exists (consumed ++ consumed'), rest'. rewrite seen_cons, after_run_cons, H2, H6, observed_app, H1, H5, app_assoc.
  by split_and!.
Qed.

Lemma session_refines st pss st' :
  session st pss st' -> forall left, stands st left ->
  exists consumed rest, left = consumed ++ rest /\ seen (concat pss) = observed consumed /\ stands st' rest.
Proof.
  induction 1 as [st|st limit g ps pss st' Ho Hr _ IH]; intros left Hl.
  - exists [], left. by split_and!.
  - assert (exists g', open_at st = Ok g' /\ typed_position partitions g' /\ left_at g' = left) as (g' & Hg & Ht & <-)
    by (destruct st; done).
  assert (g' = g) as -> by congruence. destruct (run_prefix limit g ps Hr Ht st Hl) as (consumed & rest & H1 & H2 & H3).
  destruct (IH rest H3) as (consumed' & rest' & H4 & H5 & H6). exists (consumed ++ consumed'), rest'.
  split_and!; [by rewrite H1, H4, app_assoc| |done].
  cbn [concat]. by rewrite seen_app, H2, H5, observed_app.
Qed.

End resume.

(** * A shop of two collections *)

Definition demo_options : ShopifyOptions :=
  {| so_currency := Some "EUR"; so_vat_status := None; so_page_size := 2; so_page_limit := 3;
     so_inventory_method := NO_INVENTORY; so_inventory_section_id := None; so_inventory_batch_size := 10;
     so_inventory_estimated := 250000; so_discovery_estimated := 1000000 |}.
Definition demo_partitions : list string := ["main"; "glazes"].
Definition demo_product (id : string) : json :=
  JDict [("id", JStr id); ("handle", JStr ("h-" +:+ id)); ("title", JStr ("Title " +:+ id))].
Definition demo_bodies : list (string * list json) :=
  [("https://shop.example/products.json#1", [demo_product "a"; demo_product "b"]);
   ("https://shop.example/products.json#2", [demo_product "c"]);
   ("https://shop.example/collections/glazes/products.json#1", [demo_product "d"; JNull])].
Definition demo_body (content : string) : list json := default [] (dict_get content demo_bodies).
Definition demo_key (url : string) (page : Z) : string := url +:+ "#" +:+ pretty page.
Definition demo_feed (p : string) (page : Z) : list json :=
  demo_body (demo_key (endpoint_of "https://shop.example" p) page).

Definition demo_page_of (r : TransportRequest) : Z :=
  match dict_get "page" (r_query r) with Some (QInt n) => n | _ => 0 end.
Definition demo_env : ShopEnv () :=
  {| n_send := fun r w => (Ok {| t_status := 200; t_headers := []; t_content := demo_key (r_url r) (demo_page_of r);
       t_final_url := r_url r; t_route := route_of ROUTE_DIRECT; t_from_cache := false; t_elapsed := 0;
       t_accounting := None |}, w);
     n_rotate := fun _ => mret (); n_budgeted := false; n_affordable := fun _ _ => true;
     n_maximum_requests := fun _ => Missing; n_used_requests := fun _ => Missing;
     n_clock := fun _ => 1000; n_cancelled := fun _ => false;
     n_json_loads := fun content => Ok (JDict [("products", JList (demo_body content))]);
     n_decode := fun s => s; n_repr := fun _ => ""; n_decimal := fun _ => None; n_clean := fun s => s;
     n_pdf_links := fun _ => []; n_urljoin := fun _ link => link; n_datetime := fun _ => Ok None;
     n_inventory_from_html := fun _ _ => [] |}.

Definition demo_request : CollectionRequest :=
  {| c_source_id := "shop"; c_base_url := "https://shop.example"; c_refresh_mode := FULL;
     c_requested_fields := [F_IDENTITY]; c_result_limit := None; c_partitions := demo_partitions |}.
Definition demo_norm (p : string) (d : product) : option string :=
  match normalize demo_env demo_options d "shop" "https://shop.example" (Some "EUR") 1000 p with
  | Ok o => sn_external_id <$> o
  | Err _ => None
  end.

Definition demo_next (limit : option Z) : Position -> eff () conn_exn (option (Page * option Position)) :=
  next_page demo_env demo_options (limited_to demo_request limit) "https://shop.example" (Some "EUR") demo_partitions.
(** The first [fuel] pages of a run that starts at [g]. *)
Definition demo_run (limit : option Z) (fuel : nat) (g : Position) : list Page :=
  match (drain (demo_next limit) fuel g ()).1 with Ok (ps, _) => ps | Err _ => [] end.

(** Three runs: a limit of one product, a cut after two pages, and the end. *)
Definition demo_first : list Page := demo_run (Some 1) 5 (position_at 0 1 0).
Definition demo_second : list Page := demo_run None 2 (position_at 0 1 1).
Definition demo_third : list Page := demo_run None 5 (position_at 1 1 0).

Definition demo_normalizes (p : string) (j : json) : bool :=
  match j with
  | JDict d => is_ok (normalize demo_env demo_options d "shop" "https://shop.example" (Some "EUR") 1000 p)
  | _ => true
  end.
Lemma demo_products_normalize :
  forallb (fun p => forallb (fun body => forallb (demo_normalizes p) body.2) demo_bodies) demo_partitions = true.
Proof. vm_compute. reflexivity. Qed.

Lemma demo_body_elem j content : j ∈ demo_body content -> exists k, (k, demo_body content) ∈ demo_bodies.
Proof.
  unfold demo_body. destruct (dict_get content demo_bodies) as [l|] eqn:E; simpl; [|by intros ?%elem_of_nil].
  intros _. exists content. by apply dict_get_elem.
Qed.

Lemma demo_stable :
  stable_shop demo_env demo_options demo_request "https://shop.example" (Some "EUR") demo_partitions
    sn_external_id demo_feed demo_norm.
Proof.
  constructor; try done.
  - intros w p page _. eexists. split; [done|]. by split.
  - intros w p page d Hp Hd. destruct (demo_body_elem _ _ Hd) as [k Hk].
    pose proof demo_products_normalize as H. rewrite forallb_forall in H.
    specialize (H p (proj1 (list_elem_of_In _ _) Hp)). rewrite forallb_forall in H.
    specialize (H _ (proj1 (list_elem_of_In _ _) Hk)). rewrite forallb_forall in H.
    specialize (H _ (proj1 (list_elem_of_In _ _) Hd)). unfold demo_normalizes in H. unfold demo_norm.
    change (n_clock demo_env w) with 1000. change (c_source_id demo_request) with "shop".
    destruct (normalize _ _ _ _ _ _ _ p) as [o|]; [|done]. by exists o.
Qed.

Lemma demo_pages limit fuel g : pages_of (demo_next limit) g (demo_run limit fuel g).
Proof.
  unfold demo_run. destruct (drain (demo_next limit) fuel g ()) as [[[ps e]|] w] eqn:E; simpl; [|constructor].
  by eapply drain_pages.
Qed.


Lemma shopify_pages_typed_witness :
  match (demo_next None (position_at 0 1 1) ()).1 with
  | Ok None => True
  | Ok (Some (p, k)) =>
      valid_page p = Ok p /\ Forall (shop_snapshot (c_source_id demo_request)) (p_items p)
      /\ (forall c, p_resume_after p = Some c ->
            exists g', resume_at demo_partitions c = Ok g' /\ typed_position demo_partitions g')
      /\ (forall g', k = Some g' -> typed_position demo_partitions g')
  | Err e => raised_outside demo_env demo_options (limited_to demo_request None) "https://shop.example" (Some "EUR") e
  end.
Proof.
  apply (shopify_pages_typed demo_env demo_options (limited_to demo_request None) "https://shop.example" (Some "EUR")
    demo_partitions).
  - by repeat constructor.
  - reflexivity.
  - constructor; simpl; lia.
Defined.

Lemma shopify_collect_terminates_witness :
  (pages_left demo_options demo_partitions (position_at 0 1 0) <= 6)%nat
  /\ (forall ps, pages_of (demo_next None) (position_at 0 1 0) ps ->
       (length ps <= S (pages_left demo_options demo_partitions (position_at 0 1 0)))%nat)
  /\ (forall w, match (drain (demo_next None) (S (pages_left demo_options demo_partitions (position_at 0 1 0)))
                        (position_at 0 1 0) w).1 with
       | Ok (ps, ended) => ended = true
       | Err e => raised_outside demo_env demo_options (limited_to demo_request None) "https://shop.example" (Some "EUR") e
       end).
Proof.
  apply (shopify_collect_terminates demo_env demo_options (limited_to demo_request None) "https://shop.example"
    (Some "EUR") demo_partitions); [by repeat constructor|reflexivity|constructor; simpl; lia].
Defined.

Definition inventory_options : ShopifyOptions :=
  {| so_currency := Some "EUR"; so_vat_status := None; so_page_size := 2; so_page_limit := 3;
     so_inventory_method := PRODUCT_JSON; so_inventory_section_id := None; so_inventory_batch_size := 1;
     so_inventory_estimated := 250000; so_discovery_estimated := 1000000 |}.

Lemma enrichment_accounts_every_product_witness :
  match (enrich_inventory demo_env inventory_options [[("handle", JStr "x")]; []] "https://shop.example" "feed" ()).1 with
  | Ok (enriched, diagnostics) =>
      length enriched = 2%nat
      /\ exists e, en_products e = enriched /\ diagnostics = skipped_diagnostics e
         /\ (en_merged e + en_failures e + en_deferred e = 2)%nat
  | Err _ => True
  end.
Proof.
  apply (enrichment_accounts_every_product demo_env inventory_options [[("handle", JStr "x")]; []]);
    [simpl; lia|done|done].
Defined.

(** * Divergences *)

(** The last partition is recognised by its name: with a name requested twice the
    first occurrence already yields a terminal page without a cursor, and the
    generator goes on. *)
Lemma repeated_partition_ends_early :
  match next_page demo_env demo_options (limited_to demo_request None) "https://shop.example" (Some "EUR")
          ["main"; "glazes"; "main"] (position_at 0 2 0) () with
  | (Ok (Some (p, k)), _) =>
      p_terminal p = true /\ p_enumeration_intact p = true /\ p_resume_after p = None
      /\ k = Some {| g_index := 1; g_page := 1; g_offset := 0; g_emitted := 1; g_sequence := 1 |}
  | _ => False
  end.
Proof. vm_compute. done. Qed.

(** The cursor of a failed page drops the offset the run resumed with: the next
    run shows the products before it again. *)
Lemma failed_page_drops_offset :
  let p := failure_page "main" 1 0 "https://shop.example/products.json" (E_TransportFailure "reset") in
  option_map (resume_at demo_partitions) (p_resume_after p) = Some (Ok (position_at 0 1 0))
  /\ d_retryable <$> p_diagnostics p = [true].
Proof. vm_compute. done. Qed.

(** A blank product type is a category without a name: the validation error is not
    handled and ends the collection. *)
Lemma blank_product_type_ends_collection :
  normalize demo_env demo_options
    [("id", JStr "a"); ("handle", JStr "a"); ("title", JStr "A"); ("product_type", JStr " ")]
    "shop" "https://shop.example" (Some "EUR") 1000 "main"
  = Err (ValueError "String should have at least 1 character").
Proof. vm_compute. done. Qed.

Example demo_session_shows_everything :
  seen sn_external_id (concat [demo_first; demo_second; demo_third]) = ["a"; "b"; "c"; "d"].
Proof. vm_compute. done. Qed.
