(* ===== verification/Datasets.v ===== *)
(** The dataset registry and the commerce projectors of the catalogue
    ([catalogue-dump/.../datasets/]): versioned definitions, the requirements they
    put on a collection, and the records they derive from a neutral snapshot. *)
From S2P Require Export ArtifactStore Commerce Connector.
From Stdlib Require Import Ascii.
Open Scope Z_scope.

(** * The registry *)

(** Source: catalogue-dump/datasets/base.py, ProjectionContext. *)
Record ProjectionContext := {
  x_collection_id : string; x_source_id : string; x_dataset : string; x_dataset_version : string;
  x_projector_version : string; x_configuration : record;
}.

(** The validated context: every identity is non-empty.
    Source: catalogue-dump/datasets/base.py, ProjectionContext. *)
Definition new_context (x : ProjectionContext) : result pyexn ProjectionContext :=
  _ ← ensure (forallb (fun s => negb (str_isempty s))
        [x_collection_id x; x_source_id x; x_dataset x; x_dataset_version x; x_projector_version x])
        (ValueError "a projection context field is empty");
  Ok x.

(** [project] yields records as its model dumps them; [validate] is the model of
    the definition. Source: catalogue-dump/datasets/base.py, DatasetDefinition. *)
Record DatasetDefinition := {
  dd_name : string; dd_version : string; dd_projector_version : string;
  dd_required_fields : list SnapshotField; dd_required_capabilities : list string;
  dd_project : CommerceProductSnapshot -> ProjectionContext -> result pyexn (list record);
  dd_validate : record -> result pyexn record;
}.

(** Definitions by name, in the order of their registration. *)
Definition DatasetRegistry : Type := list (string * DatasetDefinition).

(** Source: catalogue-dump/datasets/registry.py, DatasetRegistry.register. *)
Definition register (d : DatasetDefinition) (r : DatasetRegistry) : result pyexn DatasetRegistry :=
  _ ← ensure (is_none (dict_get (dd_name d) r)) (ValueError ("dataset " +:+ dd_name d +:+ " is already registered"));
  _ ← ensure (negb (str_isempty (dd_name d) || str_isempty (dd_version d) || str_isempty (dd_projector_version d)))
        (ValueError "dataset name, contract version, and projector version must be non-empty");
  Ok (dict_set (dd_name d) d r).

(** Source: catalogue-dump/datasets/registry.py, DatasetRegistry.__init__. *)
Fixpoint register_all (ds : list DatasetDefinition) (r : DatasetRegistry) : result pyexn DatasetRegistry :=
  match ds with [] => Ok r | d :: ds => r ← register d r; register_all ds r end.

(** Source: catalogue-dump/datasets/registry.py, DatasetRegistry.get. *)
Definition definition_of (r : DatasetRegistry) (name : string) : result pyexn DatasetDefinition :=
  match dict_get name r with Some d => Ok d | None => Err (KeyError ("unknown dataset " +:+ name)) end.

(** Source: catalogue-dump/datasets/registry.py, DatasetRegistry.names. *)
Definition names (r : DatasetRegistry) : list string := sort_strs (map fst r).

(** The sets as lists. Source: catalogue-dump/datasets/registry.py, DatasetRegistry.collection_requirements. *)
Definition collection_requirements (r : DatasetRegistry) (selected : list string)
  : result pyexn (list SnapshotField * list string) :=
  ds ← map_result (definition_of r) selected;
  Ok (concat (map dd_required_fields ds), concat (map dd_required_capabilities ds)).

(** Source: catalogue-dump/datasets/registry.py, DatasetRegistry.project_validated. *)
Definition project_validated (r : DatasetRegistry) (name : string) (entity : CommerceProductSnapshot)
    (x : ProjectionContext) : result pyexn (list record) :=
  d ← definition_of r name;
  _ ← ensure (bool_decide (x_source_id x = sn_source_id entity))
        (ValueError "projection context source does not match the entity source");
  _ ← ensure (bool_decide (x_dataset x = dd_name d) && bool_decide (x_dataset_version x = dd_version d))
        (ValueError "projection context does not match the registered dataset contract");
  _ ← ensure (bool_decide (x_projector_version x = dd_projector_version d))
        (ValueError "projection context does not match the registered projector version");
  records ← dd_project d entity x;
  map_result (dd_validate d) records.

(** * The commerce projectors *)

Definition nul : ascii := ascii_of_N 0.

Section projectors.
(** [hashlib.sha256(...).hexdigest()], [datetime.isoformat], [str] of a decimal and
  the JSON form of an evidence. *)
Context (sha256 : string -> string) (isoformat : Z -> string) (decimal_str : decimal -> string) (dump_evidence : Evidence -> json).

(** Source: catalogue-dump/datasets/commerce/_common.py, observation_id. *)
Definition observation_id (components : list string) : string :=
  sha256 (str_join (String nul EmptyString) components).

(** Source: catalogue-dump/datasets/commerce/_common.py, evidence_key. *)
Definition evidence_key (evidence : list Evidence) : string :=
  str_join (String nul EmptyString) (map (fun e =>
  ev_method e +:+ ":" +:+ ev_source_url e +:+ ":" +:+ default "" (ev_source_field e) +:+ ":" +:+ isoformat (ev_observed_at e))
  evidence).

(** [a or b] on strings. *)
Definition or_str (a : option string) (b : string) : string :=
  match a with Some s => if str_isempty s then b else s | None => b end.

Definition opt_json {A} (f : A -> json) (o : option A) : json := match o with Some a => f a | None => JNull end.
Definition evidence_json (l : list Evidence) : json := JList (map dump_evidence l).
Definition date_json (t : Z) : json := JStr (isoformat t).
Definition decimal_json (d : decimal) : json := JStr (decimal_str d).

(** [StrEnum] values. Source: models/commerce.py, Availability. *)
Definition availability_value (a : Availability) : string :=
  match a with
  | IN_STOCK => "in_stock" | LIMITED => "limited" | OUT_OF_STOCK => "out_of_stock" | BACKORDER => "backorder"
  | PREORDER => "preorder" | DISCONTINUED => "discontinued" | AVAILABILITY_UNKNOWN => "unknown"
  end.
(** Source: models/commerce.py, StockQuantityKind. *)
Definition quantity_kind_value (k : StockQuantityKind) : string :=
  match k with
  | EXACT => "exact" | LOWER_BOUND => "lower_bound" | UPPER_BOUND => "upper_bound" | ORDER_LIMIT => "order_limit"
  | QUANTITY_UNKNOWN => "unknown"
  end.

(** [variant.canonical_url or entity.canonical_url] *)
Definition variant_url (s : CommerceProductSnapshot) (v : CommerceVariant) : string :=
  or_str (v_canonical_url v) (sn_canonical_url s).

(** Source: catalogue-dump/datasets/commerce/price_observation.py:58-68, PriceObservationProjector.project. *)
Definition price_identity (s : CommerceProductSnapshot) (v : CommerceVariant) (o : CommerceOffer) : string :=
  observation_id [sn_connector s; sn_source_id s; sn_external_id s; v_external_id v; o_role o;
  default "" (o_seller_id o);
  match o_minimum_quantity o with
  | Some (Finite 0 _) | None => ""
  | Some d => decimal_str d
  end; isoformat (o_observed_at o); evidence_key (o_evidence o)].

(** Source: catalogue-dump/datasets/commerce/price_observation.py:69-91, PriceObservationProjector.project. *)
Definition price_record (s : CommerceProductSnapshot) (v : CommerceVariant) (o : CommerceOffer) : record :=
  [("format", JStr "commerce.price_observation.v1"); ("observation_id", JStr (price_identity s v o));
  ("connector", JStr (sn_connector s)); ("source_id", JStr (sn_source_id s));
  ("product_external_id", JStr (sn_external_id s)); ("variant_external_id", JStr (v_external_id v));
  ("product_url", JStr (variant_url s v)); ("role", JStr (o_role o));
  ("amount", decimal_json (m_amount (o_price o))); ("currency", JStr (m_currency (o_price o)));
  ("vat_status", JStr (o_vat_status o)); ("vat_rate", opt_json decimal_json (o_vat_rate o));
  ("minimum_quantity", opt_json decimal_json (o_minimum_quantity o)); ("unit", opt_json JStr (o_unit o));
  ("pack_size", opt_json decimal_json (o_pack_size o)); ("seller_id", opt_json JStr (o_seller_id o));
  ("seller_name", opt_json JStr (o_seller_name o));
  ("availability", opt_json (fun a => JStr (availability_value a)) (o_availability o));
  ("valid_from", opt_json date_json (o_valid_from o)); ("valid_until", opt_json date_json (o_valid_until o));
  ("observed_at", date_json (o_observed_at o)); ("evidence", evidence_json (o_evidence o))].

(** Source: catalogue-dump/datasets/commerce/price_observation.py, PriceObservationProjector.project. *)
Definition project_prices (s : CommerceProductSnapshot) (x : ProjectionContext) : result pyexn (list record) :=
  Ok (concat (map (fun v => map (price_record s v) (v_offers v)) (sn_variants s))).

(** Source: catalogue-dump/datasets/commerce/stock_observation.py:53-73, StockObservationProjector.project. *)
Definition stock_record (s : CommerceProductSnapshot) (v : CommerceVariant) (k : StockState) : record :=
  [("format", JStr "commerce.stock_observation.v1");
  ("observation_id", JStr (observation_id [sn_connector s; sn_source_id s; sn_external_id s; v_external_id v;
    isoformat (s_observed_at k); evidence_key (s_evidence k)]));
  ("connector", JStr (sn_connector s)); ("source_id", JStr (sn_source_id s));
  ("product_external_id", JStr (sn_external_id s)); ("variant_external_id", JStr (v_external_id v));
  ("product_url", JStr (variant_url s v)); ("availability", JStr (availability_value (s_availability k)));
  ("quantity", opt_json JInt (s_quantity k)); ("quantity_kind", JStr (quantity_kind_value (s_quantity_kind k)));
  ("observed_at", date_json (s_observed_at k)); ("evidence", evidence_json (s_evidence k))].

(** Source: catalogue-dump/datasets/commerce/stock_observation.py, StockObservationProjector.project. *)
Definition project_stock (s : CommerceProductSnapshot) (x : ProjectionContext) : result pyexn (list record) :=
  Ok (omap (fun v => stock_record s v <$> v_stock v) (sn_variants s)).

(** Source: catalogue-dump/datasets/commerce/document.py:46-66, CommerceDocumentProjector.project. *)
Definition document_record (s : CommerceProductSnapshot) (d : DocumentRef) : record :=
  [("format", JStr "commerce.document.v1");
  ("observation_id", JStr (observation_id [sn_connector s; sn_source_id s; sn_external_id s;
    or_str (doc_external_id d) (doc_url d); isoformat (doc_observed_at d); evidence_key (doc_evidence d)]));
  ("connector", JStr (sn_connector s)); ("source_id", JStr (sn_source_id s));
  ("product_external_id", JStr (sn_external_id s)); ("product_url", JStr (sn_canonical_url s));
  ("document_url", JStr (doc_url d)); ("title", opt_json JStr (doc_title d));
  ("media_type", opt_json JStr (doc_media_type d)); ("external_id", opt_json JStr (doc_external_id d));
  ("observed_at", date_json (doc_observed_at d)); ("evidence", evidence_json (doc_evidence d))].

(** Source: catalogue-dump/datasets/commerce/document.py, CommerceDocumentProjector.project. *)
Definition project_documents (s : CommerceProductSnapshot) (x : ProjectionContext) : result pyexn (list record) :=
  Ok (map (document_record s) (sn_documents s)).

(** A record a projector built is an instance of its model already.
    Source: catalogue-dump/datasets/commerce/price_observation.py:44-50, PriceObservationProjector. *)
Definition price_observation : DatasetDefinition :=
  {| dd_name := "commerce.price_observation.v1"; dd_version := "1"; dd_projector_version := "1";
   dd_required_fields := [F_IDENTITY; F_OFFERS]; dd_required_capabilities := [];
   dd_project := project_prices; dd_validate := Ok |}.
(** Source: catalogue-dump/datasets/commerce/stock_observation.py:38-44, StockObservationProjector. *)
Definition stock_observation : DatasetDefinition :=
  {| dd_name := "commerce.stock_observation.v1"; dd_version := "1"; dd_projector_version := "1";
   dd_required_fields := [F_IDENTITY; F_STOCK]; dd_required_capabilities := [];
   dd_project := project_stock; dd_validate := Ok |}.
(** Source: catalogue-dump/datasets/commerce/document.py:33-39, CommerceDocumentProjector. *)
Definition commerce_document : DatasetDefinition :=
  {| dd_name := "commerce.document.v1"; dd_version := "1"; dd_projector_version := "1";
   dd_required_fields := [F_IDENTITY; F_DOCUMENTS]; dd_required_capabilities := ["documents"];
   dd_project := project_documents; dd_validate := Ok |}.
End projectors.

(** * Facts *)

(** Registration keeps what is registered and adds the definition under its name. *)
Lemma register_get d r r' name :
  register d r = Ok r' -> definition_of r' name = if bool_decide (name = dd_name d) then Ok d else definition_of r name.
Proof.
  unfold register, definition_of. intros H. step_in H. simplify_eq. case_bool_decide as Hn; [subst name|].
  - by rewrite dict_get_set_eq.
  - by rewrite dict_get_set_ne by congruence.
Qed.

(** An observation's identity determines the components it is built from, unless
    two of them collide under the digest. *)
Lemma observation_id_inj sha256 l l' :
  l <> [] -> l' <> [] -> Forall (fun s => str_has nul s = false) l -> Forall (fun s => str_has nul s = false) l' ->
  (forall s t, sha256 s = sha256 t -> s = str_join (String nul EmptyString) l -> t = str_join (String nul EmptyString) l' -> s = t) ->
  observation_id sha256 l = observation_id sha256 l' -> l = l'.
Proof.
  intros Hl Hl' Hf Hf' Hinj E. unfold observation_id in E. apply Hinj in E; [|done..].
  rewrite <- (str_split_join nul l), <- (str_split_join nul l') by done. by rewrite E.
Qed.
