(* ===== verification/CatalogueConnector.v ===== *)
(** The connector contract of the catalogue ([catalogue-dump/.../connectors/base.py]
    and the URL helper of [page.py]): the models its own connectors and the page
    pipeline exchange, with the validators pydantic runs on them. *)
From S2P Require Export Connector Commerce.
From Stdlib Require Import Ascii.
Open Scope Z_scope.

(** * Capabilities *)

(** Source: catalogue-dump/connectors/base.py, BrowserBackendName. *)
Inductive BrowserBackendName := CAMOUFOX | CDP_EXTENSION_PROXY.
#[export] Instance BrowserBackendName_eq_dec : EqDecision BrowserBackendName.
Proof. solve_decision. Defined.
(** Source: catalogue-dump/connectors/base.py:41-43, BrowserBackendName. *)
Definition backend_value (b : BrowserBackendName) : string :=
  match b with CAMOUFOX => "camoufox" | CDP_EXTENSION_PROXY => "cdp_extension_proxy" end.

(** The fields it shares with the capabilities of the library, and the backends.
    Source: catalogue-dump/connectors/base.py:46-55, ConnectorCapabilities. *)
Record CatalogueCapabilities := {
  cc_common :> ConnectorCapabilities;
  cc_browser_backends : list BrowserBackendName;
}.

(** Source: catalogue-dump/connectors/base.py, ConnectorCapabilities._browser_declaration_is_consistent. *)
Definition browser_declaration_is_consistent (c : CatalogueCapabilities) : result pyexn CatalogueCapabilities :=
  let never := bool_decide (cap_browser c = NEVER) in
  let none := bool_decide (cc_browser_backends c = []) in
  _ ← ensure (negb never || none) (ValueError "a connector that never uses a browser cannot declare browser backends");
  _ ← ensure (never || negb none) (ValueError "a browser-capable connector must declare at least one browser backend");
  _ ← ensure (negb (cap_incremental_cursor c) || bool_decide (INCREMENTAL ∈ cap_refresh_modes c))
        (ValueError "incremental cursor support requires incremental refresh mode");
  _ ← ensure (negb (cap_documents c) || bool_decide (F_DOCUMENTS ∈ cap_snapshot_fields c))
        (ValueError "document support requires the documents snapshot field");
  _ ← ensure (bool_decide (cap_stock_kinds c = []) || bool_decide (F_STOCK ∈ cap_snapshot_fields c))
        (ValueError "stock kinds require the stock snapshot field");
  Ok c.

(** Source: catalogue-dump/connectors/base.py, ConnectorCapabilities.supports. *)
Definition catalogue_supports (c : CatalogueCapabilities) (fields : list SnapshotField) (mode : RefreshMode) : bool :=
  forallb (fun f => bool_decide (f ∈ cap_snapshot_fields c)) fields && bool_decide (mode ∈ cap_refresh_modes c).

(** Source: catalogue-dump/connectors/base.py, ConnectorCapabilities.named_capabilities. *)
Definition catalogue_named_capabilities (c : CatalogueCapabilities) : gset string :=
  list_to_set
    ((if cap_incremental_cursor c then ["incremental_cursor"] else [])
     ++ (if cap_category_filter c then ["category_filter"] else [])
     ++ (if cap_documents c then ["documents"] else [])
     ++ map (fun k => "stock:" +:+ stock_kind_value k) (cap_stock_kinds c)
     ++ map (fun b => "browser:" +:+ backend_value b) (cc_browser_backends c)
     ++ match cap_shared_edge c with
        | Some e => if str_isempty e then [] else ["shared_edge:" +:+ e]
        | None => []
        end).

(** * Requests, checkpoints and pages *)

(** Without the callbacks. Source: catalogue-dump/connectors/base.py:154-168, CollectionRequest. *)
Record CatalogueRequest := {
  cr_source_id : string; cr_base_url : string; cr_refresh_mode : RefreshMode; cr_requested_fields : list SnapshotField;
  cr_result_limit : option Z; cr_categories : list string; cr_collections : list string; cr_request_budget : option Z;
}.

Definition positive_if_given (n : option Z) : bool := match n with Some n => 1 <=? n | None => true end.

(** The field constraints. Source: catalogue-dump/connectors/base.py:159-166, CollectionRequest. *)
Definition new_catalogue_request (r : CatalogueRequest) : result pyexn CatalogueRequest :=
  _ ← ensure (negb (str_isempty (cr_source_id r))) (ValueError "source_id is empty");
  _ ← ensure (negb (str_isempty (cr_base_url r))) (ValueError "base_url is empty");
  _ ← ensure (positive_if_given (cr_result_limit r)) (ValueError "result_limit is not positive");
  _ ← ensure (positive_if_given (cr_request_budget r)) (ValueError "request_budget is not positive");
  Ok r.

(** A checkpoint of the catalogue has no fingerprint.
    Source: catalogue-dump/connectors/base.py:136-146, ConnectorCheckpoint. *)
Definition new_catalogue_checkpoint (c : ConnectorCheckpoint) : result pyexn ConnectorCheckpoint :=
  _ ← ensure (forallb (fun s => negb (str_isempty s))
        [k_connector c; k_connector_version c; k_source_id c; k_lineage c])
        (ValueError "a checkpoint identity is empty");
  _ ← ensure (negb (bool_decide (k_resume_after c = JNull))) (ValueError "a checkpoint must contain a resume cursor");
  Ok c.

Abbreviation CataloguePage := (EntityPage CommerceProductSnapshot).

(** Source: catalogue-dump/connectors/base.py:177-203, EntityPage. *)
Definition catalogue_page (p : CataloguePage) : result pyexn CataloguePage :=
  _ ← ensure (negb (str_isempty (p_page_id p))) (ValueError "page_id is empty");
  _ ← ensure (negb (str_isempty (p_partition_key p))) (ValueError "partition_key is empty");
  _ ← ensure (0 <=? p_sequence p) (ValueError "sequence is negative");
  _ ← ensure (0 <=? p_discovered p) (ValueError "discovered is negative");
  _ ← ensure (negb (p_terminal p && p_enumeration_intact p && is_some (p_resume_after p)))
        (ValueError "a successful terminal page cannot have a resume cursor");
  _ ← ensure (negb (p_partition_terminal p && negb (p_terminal p) && is_none (p_resume_after p)))
        (ValueError "an intermediate partition terminal requires a resume cursor");
  _ ← ensure (p_enumeration_intact p || p_terminal p) (ValueError "an incomplete enumeration must be terminal");
  _ ← ensure (p_enumeration_intact p || existsb d_affects_completeness (p_diagnostics p))
        (ValueError "an incomplete enumeration requires a completeness diagnostic");
  _ ← ensure (Z.of_nat (length (p_items p)) <=? p_discovered p)
        (ValueError "discovered cannot be smaller than the number of page items");
  Ok p.

(** * Canonical URLs *)

(** What [urlunparse] makes of the parameters [urlparse] splits off the last
    segment: an empty one is dropped with its semicolon. *)
Definition uses_params (scheme : string) : bool :=
  bool_decide (scheme ∈ [""; "ftp"; "hdl"; "prospero"; "http"; "https"; "shttp"; "rtsp"; "rtsps"; "rtspu"; "sip"; "sips";
                         "mms"; "sftp"; "tel"]).
Definition drop_empty_params (path : string) : string :=
  let '(before, slash, segment) := str_rpartition "/" path in
  let '(name, semicolon, params) := str_partition ";" segment in
  if semicolon && str_isempty params then (if slash then before +:+ "/" +:+ name else name) else path.

(** Source: catalogue-dump/connectors/page.py, canonical. *)
Definition canonical (url : string) : result pyexn string :=
  parsed ← urlsplit url;
  let volatile := existsb (fun pair => existsb (fun key => str_startswith (key +:+ "=") pair)
    ["order"; "tag"; "id_currency"; "search_query"; "back"; "q"; "sort"]) (str_split "&" (sr_query parsed)) in
  Ok (urlunsplit {| sr_scheme := sr_scheme parsed; sr_netloc := sr_netloc parsed;
                    sr_path := if uses_params (sr_scheme parsed) then drop_empty_params (sr_path parsed)
                               else sr_path parsed;
                    sr_query := if volatile then "" else sr_query parsed; sr_fragment := "" |}).

Example canonical_drops_the_order :
  canonical "https://shop/a;p?page=2&order=name#top" = Ok "https://shop/a;p"
  /\ canonical "https://shop/a;?page=2&border=1#top" = Ok "https://shop/a?page=2&border=1".
Proof. split; reflexivity. Qed.
