(* ===== verification/Regex.v ===== *)
(** Regular expressions as the [re] module of the Python standard library runs
    them: the pattern syntax the collector uses, the backtracking matcher, and
    [search], [match], [fullmatch], [finditer], [findall], [sub] and [split].
    [RegexFacts] proves the matcher sound and complete for a relation. *)
From S2P Require Export PyStr.
From Stdlib Require Import Ascii.
Open Scope Z_scope.

(** * Syntax *)

Inductive regex :=
| RFail
| REmpty
| RSet (f : ascii -> bool)
| RSeq (r1 r2 : regex)
| RAlt (r1 r2 : regex)
| RRep (greedy : bool) (lo : nat) (hi : option nat) (r : regex)
| RGroup (n : nat) (r : regex)
| RLook (positive : bool) (r : regex)
| RStart (lines : bool)
| REnd (lines : bool)
| RWord.

Definition word_char (c : ascii) : bool := is_alnum c || (ord c =? 95).

(** [re.I], [re.S], [re.M] *)
Record flags := { fl_ignorecase : bool; fl_dotall : bool; fl_multiline : bool }.
Definition no_flags : flags := {| fl_ignorecase := false; fl_dotall := false; fl_multiline := false |}.
Definition re_I : flags := {| fl_ignorecase := true; fl_dotall := false; fl_multiline := false |}.
Definition re_S : flags := {| fl_ignorecase := false; fl_dotall := true; fl_multiline := false |}.
Definition re_IS : flags := {| fl_ignorecase := true; fl_dotall := true; fl_multiline := false |}.
Definition re_IM : flags := {| fl_ignorecase := true; fl_dotall := false; fl_multiline := true |}.

(** A set of characters under [re.I] holds a letter in either case. *)
Definition fold_case (fl : flags) (f : ascii -> bool) (c : ascii) : bool :=
  if fl_ignorecase fl then f (lower_char c) || f (upper_char c) else f c.

(** The classes written with a backslash. *)
Definition class_escape (c : ascii) : option (ascii -> bool) :=
  if (c =? "d")%char then Some is_digit
  else if (c =? "D")%char then Some (fun x => negb (is_digit x))
  else if (c =? "s")%char then Some is_space
  else if (c =? "S")%char then Some (fun x => negb (is_space x))
  else if (c =? "w")%char then Some word_char
  else if (c =? "W")%char then Some (fun x => negb (word_char x))
  else None.

(** A character written with a backslash. *)
Definition char_escape (c : ascii) : ascii :=
  if (c =? "n")%char then chr 10 else if (c =? "t")%char then chr 9 else if (c =? "r")%char then chr 13 else c.

(** The members of a class up to its closing bracket. *)
Fixpoint parse_class (fuel : nat) (acc : ascii -> bool) (s : string) : option ((ascii -> bool) * string) :=
  match fuel with
  | O => None
  | S fuel =>
      match s with
      | EmptyString => None
      | String c s =>
          if (c =? "]")%char then Some (acc, s)
          else
            let '(item, s) :=
              match (c =? "\")%char, s with
              | true, String e s => (match class_escape e with Some f => inl f | None => inr (char_escape e) end, s)
              | _, _ => (inr c, s)
              end in
            match item with
            | inl f => parse_class fuel (fun x => acc x || f x) s
            | inr lo =>
                match s with
                | String "-" (String hi s') =>
                    if (hi =? "]")%char then parse_class fuel (fun x => acc x || (x =? lo)%char) s
                    else parse_class fuel (fun x => acc x || char_in (ord lo) (ord hi) x) s'
                | _ => parse_class fuel (fun x => acc x || (x =? lo)%char) s
                end
            end
      end
  end.

Fixpoint parse_number (acc : nat) (digits : bool) (s : string) : option nat * string :=
  match s with
  | String c r => if is_digit c then parse_number (10 * acc + Z.to_nat (ord c - 48)) true r
                  else (if digits then Some acc else None, s)
  | EmptyString => (if digits then Some acc else None, s)
  end.

(** A quantifier: its bounds and what follows. *)
Definition parse_bounds (s : string) : option (nat * option nat * string) :=
  match s with
  | String "*" s => Some (0%nat, None, s)
  | String "+" s => Some (1%nat, None, s)
  | String "?" s => Some (0%nat, Some 1%nat, s)
  | String "{" s =>
      match parse_number 0 false s with
      | (Some lo, String "}" s) => Some (lo, Some lo, s)
      | (lo, String "," s) =>
          match parse_number 0 false s with
          | (hi, String "}" s) => Some (default 0%nat lo, hi, s)
          | _ => None
          end
      | _ => None
      end
  | _ => None
  end.

Definition quantify (r : regex) (s : string) : regex * string :=
  match parse_bounds s with
  | Some (lo, hi, String "?" s) => (RRep false lo hi r, s)
  | Some (lo, hi, s) => (RRep true lo hi r, s)
  | None => (r, s)
  end.

(** The kind of a group after its parenthesis. *)
Inductive group_kind := Capture | NoCapture | Look (positive : bool).
Definition parse_group_kind (s : string) : group_kind * string :=
  match s with
  | String "?" (String ":" s) => (NoCapture, s)
  | String "?" (String "=" s) => (Look true, s)
  | String "?" (String "!" s) => (Look false, s)
  | String "?" (String "P" (String "<" s)) => (Capture, (str_partition ">" s).2)
  | _ => (Capture, s)
  end.

(** Alternatives, a sequence, and one item with the groups opened before it. *)
Fixpoint parse_alternatives (fuel : nat) (fl : flags) (n : nat) (s : string) : option (regex * nat * string) :=
  match fuel with
  | O => None
  | S fuel =>
      '(r, n, s) ← parse_sequence fuel fl n s;
      match s with
      | String "|" s => '(r', n, s) ← parse_alternatives fuel fl n s; Some (RAlt r r', n, s)
      | _ => Some (r, n, s)
      end
  end
with parse_sequence (fuel : nat) (fl : flags) (n : nat) (s : string) : option (regex * nat * string) :=
  match fuel with
  | O => None
  | S fuel =>
      match s with
      | EmptyString | String "|" _ | String ")" _ => Some (REmpty, n, s)
      | _ =>
          '(r, n, s) ← parse_item fuel fl n s;
          let '(r, s) := quantify r s in
          '(r', n, s) ← parse_sequence fuel fl n s;
          Some (RSeq r r', n, s)
      end
  end
with parse_item (fuel : nat) (fl : flags) (n : nat) (s : string) : option (regex * nat * string) :=
  match fuel with
  | O => None
  | S fuel =>
      match s with
      | EmptyString => None
      | String "." s => Some (RSet (fun c => fl_dotall fl || negb (ord c =? 10)), n, s)
      | String "^" s => Some (RStart (fl_multiline fl), n, s)
      | String "$" s => Some (REnd (fl_multiline fl), n, s)
      | String "[" (String "^" s) =>
          '(f, s) ← parse_class fuel (fun _ => false) s; Some (RSet (fun c => negb (fold_case fl f c)), n, s)
      | String "[" s => '(f, s) ← parse_class fuel (fun _ => false) s; Some (RSet (fold_case fl f), n, s)
      | String "(" s =>
          match parse_group_kind s with
          | (Capture, s) =>
              '(r, m, s) ← parse_alternatives fuel fl (S n) s;
              match s with String ")" s => Some (RGroup n r, m, s) | _ => None end
          | (kind, s) =>
              '(r, n, s) ← parse_alternatives fuel fl n s;
              match s with
              | String ")" s => Some (match kind with Look positive => RLook positive r | _ => r end, n, s)
              | _ => None
              end
          end
      | String "\" (String "b" s) => Some (RWord, n, s)
      | String "\" (String c s) =>
          Some (RSet (match class_escape c with Some f => f | None => fold_case fl (fun x => (x =? char_escape c)%char) end), n, s)
      | String c s => Some (RSet (fold_case fl (fun x => (x =? c)%char)), n, s)
      end
  end.

Definition parse_regex (fl : flags) (pattern : string) : option regex :=
  match parse_alternatives (4 + 4 * String.length pattern) fl 1 pattern with
  | Some (r, _, EmptyString) => Some r
  | _ => None
  end.

(** A literal in which backquotes stand for double quotes. *)
Definition quoted (s : string) : string := str_replace_char "`" (chr 34) s.

(** [re.compile(pattern, flags)], with backquotes for double quotes. *)
Definition rx (fl : flags) (pattern : string) : regex := default RFail (parse_regex fl (quoted pattern)).
Definition compiles (fl : flags) (pattern : string) : bool := is_some (parse_regex fl (quoted pattern)).

(** [re.escape(s)] *)
Fixpoint re_escape (s : string) : string :=
  match s with
  | EmptyString => EmptyString
  | String c s => if word_char c then String c (re_escape s) else String "\" (String c (re_escape s))
  end.

(** A pattern with a literal text between two parts. *)
Definition rx_around (fl : flags) (before text after : string) : regex :=
  default RFail (parse_regex fl (quoted before +:+ re_escape text +:+ quoted after)).

(** * Matching *)

(** A position in a text, with what the groups captured so far. *)
Record mstate := { ms_at : N; ms_prev : option ascii; ms_rest : string; ms_groups : list (nat * string) }.

Definition start_of (s : string) : mstate := {| ms_at := 0; ms_prev := None; ms_rest := s; ms_groups := [] |}.

Definition step_char (c : ascii) (rest : string) (st : mstate) : mstate :=
  {| ms_at := N.succ (ms_at st); ms_prev := Some c; ms_rest := rest; ms_groups := ms_groups st |}.

(** What was read between two positions. *)
Definition between (st st' : mstate) : string := str_take (N.to_nat (ms_at st' - ms_at st)) (ms_rest st).

Definition close_group (n : nat) (st st' : mstate) : mstate :=
  {| ms_at := ms_at st'; ms_prev := ms_prev st'; ms_rest := ms_rest st'; ms_groups := (n, between st st') :: ms_groups st' |}.

Definition with_groups (st st' : mstate) : mstate :=
  {| ms_at := ms_at st; ms_prev := ms_prev st; ms_rest := ms_rest st; ms_groups := ms_groups st' |}.

Definition at_word (c : option ascii) : bool := match c with Some c => word_char c | None => false end.
Definition head_char (s : string) : option ascii := match s with String c _ => Some c | EmptyString => None end.
Definition word_boundary (st : mstate) : bool := xorb (at_word (ms_prev st)) (at_word (head_char (ms_rest st))).
(** [^] matches at the beginning, and under [re.M] after every newline; [$] matches at
    the end and before a newline at the end, and under [re.M] before every newline. *)
Definition newline (c : option ascii) : bool := match c with Some c => ord c =? 10 | None => false end.
Definition at_start (lines : bool) (st : mstate) : bool := (ms_at st =? 0)%N || (lines && newline (ms_prev st)).
Definition at_end (lines : bool) (st : mstate) : bool :=
  match ms_rest st with
  | EmptyString => true
  | String c rest => (lines || str_isempty rest) && (ord c =? 10)
  end.

(** [hi] iterations are not yet made. *)
Definition may_repeat (count : nat) (hi : option nat) : bool := match hi with None => true | Some h => (count <? h)%nat end.
(** An iteration that is not required must read something. *)
Definition counts (lo count : nat) (st st' : mstate) : bool :=
  (count <? lo)%nat || negb (ms_at st' =? ms_at st)%N.

(** The iterations of a repetition, after [count] of them: another one or, the
    other way round when lazy, going on with [k]. *)
Fixpoint repeat_match (body : mstate -> (mstate -> option mstate) -> option mstate) (greedy : bool) (lo : nat) (hi : option nat)
    (k : mstate -> option mstate) (fuel count : nat) (st : mstate) : option mstate :=
  match fuel with
  | O => None
  | S fuel =>
      let more _ :=
        if may_repeat count hi
        then body st (fun st' => if counts lo count st st' then repeat_match body greedy lo hi k fuel (S count) st' else None)
        else None in
      let stop _ := if (lo <=? count)%nat then k st else None in
      match if greedy then more tt else stop tt with
      | Some x => Some x
      | None => if greedy then stop tt else more tt
      end
  end.

(** The first way, in the order of preference, to match [r] at [st] such that what
    follows, [k], succeeds. *)
Fixpoint backtrack (r : regex) (st : mstate) (k : mstate -> option mstate) : option mstate :=
  match r with
  | RFail => None
  | REmpty => k st
  | RSet f => match ms_rest st with String c rest => if f c then k (step_char c rest st) else None | EmptyString => None end
  | RSeq r1 r2 => backtrack r1 st (fun st' => backtrack r2 st' k)
  | RAlt r1 r2 => match backtrack r1 st k with Some x => Some x | None => backtrack r2 st k end
  | RRep greedy lo hi r =>
      repeat_match (backtrack r) greedy lo hi k (S (lo + String.length (ms_rest st))) 0 st
  | RGroup n r => backtrack r st (fun st' => k (close_group n st st'))
  | RLook positive r =>
      match backtrack r st Some, positive with
      | Some st', true => k (with_groups st st')
      | None, false => k st
      | _, _ => None
      end
  | RStart lines => if at_start lines st then k st else None
  | REnd lines => if at_end lines st then k st else None
  | RWord => if word_boundary st then k st else None
  end.

(** * The functions of the module *)

(** A match: where it begins and where it ends. *)
Record match_object := { mo_begin : mstate; mo_end : mstate }.

(** [match.group(0)], [match.group(n)]: [None] is a group that took no part. *)
Definition whole (x : match_object) : string := between (mo_begin x) (mo_end x).
Definition group (n : nat) (x : match_object) : option string :=
  match list_find (fun g => g.1 = n) (ms_groups (mo_end x)) with Some (_, (_, s)) => Some s | None => None end.
(** A group as [findall] gives it. *)
Definition group_text (n : nat) (x : match_object) : string := default "" (group n x).
(** [match.start()], [match.end()] *)
Definition start_at (x : match_object) : Z := Z.of_N (ms_at (mo_begin x)).
Definition end_at (x : match_object) : Z := Z.of_N (ms_at (mo_end x)).

Definition no_groups (st : mstate) : mstate :=
  {| ms_at := ms_at st; ms_prev := ms_prev st; ms_rest := ms_rest st; ms_groups := [] |}.

(** A match at a position; [advance] asks for a non-empty one. *)
Definition match_here (r : regex) (advance : bool) (st : mstate) : option mstate :=
  backtrack r (no_groups st) (fun st' => if advance && (ms_at st' =? ms_at st)%N then None else Some st').

(** The matches from a position on, left to right and without overlap. *)
Fixpoint scan (r : regex) (fuel : nat) (advance : bool) (st : mstate) : list match_object :=
  match fuel with
  | O => []
  | S fuel =>
      match match_here r advance st with
      | Some st' => {| mo_begin := st; mo_end := st' |} :: scan r fuel (ms_at st' =? ms_at st)%N (no_groups st')
      | None => match ms_rest st with EmptyString => [] | String c rest => scan r fuel false (step_char c rest st) end
      end
  end.

(** [re.finditer(r, s)] *)
Definition finditer (r : regex) (s : string) : list match_object :=
  scan r (2 + 2 * String.length s) false (start_of s).
(** [re.findall] of a pattern without groups, with one, with two. *)
Definition findall0 (r : regex) (s : string) : list string := map whole (finditer r s).
Definition findall (r : regex) (s : string) : list string := map (group_text 1) (finditer r s).
Definition findall2 (r : regex) (s : string) : list (string * string) :=
  map (fun x => (group_text 1 x, group_text 2 x)) (finditer r s).

(** The first match from a position on. *)
Fixpoint first_match (r : regex) (prev : option ascii) (at_ : N) (s : string) : option match_object :=
  let st := {| ms_at := at_; ms_prev := prev; ms_rest := s; ms_groups := [] |} in
  match match_here r false st with
  | Some st' => Some {| mo_begin := st; mo_end := st' |}
  | None => match s with EmptyString => None | String c rest => first_match r (Some c) (N.succ at_) rest end
  end.
(** [re.search(r, s)] *)
Definition search (r : regex) (s : string) : option match_object := first_match r None 0 s.
Definition found (r : regex) (s : string) : bool := is_some (search r s).
(** The position [n] of a text, and [re.compile(r).match(s, n)]. *)
Definition position (s : string) (n : Z) : mstate :=
  {| ms_at := Z.to_N n; ms_prev := if n <=? 0 then None else head_char (str_drop (Z.to_nat n - 1) s);
     ms_rest := str_drop (Z.to_nat n) s; ms_groups := [] |}.
Definition match_from (r : regex) (s : string) (n : Z) : option match_object :=
  match match_here r false (position s n) with Some st' => Some {| mo_begin := position s n; mo_end := st' |} | None => None end.
(** [re.match(r, s)] *)
Definition match_start (r : regex) (s : string) : option match_object := match_from r s 0.
(** [re.fullmatch(r, s)] *)
Definition fullmatch (r : regex) (s : string) : option match_object :=
  match backtrack r (start_of s) (fun st' => if str_isempty (ms_rest st') then Some st' else None) with
  | Some st' => Some {| mo_begin := start_of s; mo_end := st' |}
  | None => None
  end.

(** The text between the matches, cut at each of them. *)
Fixpoint pieces (st : mstate) (l : list match_object) : list string :=
  match l with
  | [] => [ms_rest st]
  | x :: l => between st (mo_begin x) :: pieces (mo_end x) l
  end.
(** [re.split(r, s)] for a pattern without groups. *)
Definition re_split (r : regex) (s : string) : list string := pieces (start_of s) (finditer r s).
(** [re.sub(r, replacement, s)] for a replacement without references. *)
Definition re_sub (r : regex) (replacement s : string) : string := str_join replacement (re_split r s).

Example patterns_read :
  findall (rx re_I "href=`([^`]+)`") (quoted "<a HREF=`/a`> <a href=`/b?c`>") = ["/a"; "/b?c"]
  /\ re_sub (rx no_flags "<[^>]+>") " " "a<b>c</b> d" = "a c  d"
  /\ re_split (rx no_flags "<br\s*/?>") "a<br>b<br />c" = ["a"; "b"; "c"]
  /\ findall2 (rx re_IS "<dt>(.*?)</dt>\s*<dd>(.*?)</dd>") "<DT>x</DT> <dd>y</dd><dt>z</dt><dd></dd>" = [("x", "y"); ("z", "")]
  /\ re_sub (rx no_flags "[.,](?=\d{3}(?:\D|$))") "" "1.234,567.89" = "1234567.89"
  /\ (whole <$> search (rx re_I "\bmayco\b|x{2,}") "Mayconnaise MAYCO") = Some "MAYCO"
  /\ is_some (fullmatch (rx no_flags "(?P<tag>[A-Za-z][\w-]*)?(?:#(?P<id>[\w-]+))?") "div#a-b") = true.
Proof. by vm_compute. Qed.

(** * Facts *)

Lemma str_app_assoc s t u : (s +:+ t) +:+ u = s +:+ (t +:+ u).
Proof. induction s as [|c s IH]; [done|]. by rewrite !str_app_cons, IH. Qed.

Lemma str_app_nil s : s +:+ "" = s.
Proof. induction s as [|c s IH]; [done|]. by rewrite str_app_cons, IH. Qed.

Lemma str_take_app s t : str_take (String.length s) (s +:+ t) = s.
Proof. induction s as [|c s IH]; [by destruct t|]. rewrite str_app_cons. simpl. by rewrite IH. Qed.

(** [st'] is [st] after reading some text. *)
Definition reads (st st' : mstate) : Prop :=
  exists t, ms_rest st = t +:+ ms_rest st' /\ ms_at st' = (ms_at st + N.of_nat (String.length t))%N.

#[export] Instance reads_preorder : PreOrder reads.
Proof.
  split; [intros st; exists ""; split; [done|simpl; lia]|]. intros a b c (t & E1 & A1) (u & E2 & A2). exists (t +:+ u).
  rewrite E1, E2, A2, A1, length_str_app. split; [by rewrite str_app_assoc|lia].
Qed.

Lemma reads_char c rest st : ms_rest st = String c rest -> reads st (step_char c rest st).
Proof. intros E. exists (String c ""). simpl. split; [done|lia]. Qed.

Lemma between_reads st st' : reads st st' -> ms_rest st = between st st' +:+ ms_rest st'.
Proof.
  intros (t & E & A). unfold between. rewrite A, E.
  replace (N.to_nat (ms_at st + N.of_nat (String.length t) - ms_at st)) with (String.length t) by lia.
  by rewrite str_take_app.
Qed.

(** A matcher hands to its continuation a place further in the text. *)
Definition forward (body : mstate -> (mstate -> option mstate) -> option mstate) : Prop :=
  forall st k x, body st k = Some x -> exists st', reads st st' /\ k st' = Some x.

Lemma repeat_match_forward body greedy lo hi k fuel : forward body -> forall count st x,
  repeat_match body greedy lo hi k fuel count st = Some x -> exists st', reads st st' /\ k st' = Some x.
Proof.
  intros Hb. induction fuel as [|fuel IH]; intros count st x H; [done|]. cbn [repeat_match] in H. cbv zeta in H.
  assert (forall y, (if may_repeat count hi then body st (fun st' => if counts lo count st st' then
    repeat_match body greedy lo hi k fuel (S count) st' else None) else None) = Some y ->
    exists st', reads st st' /\ k st' = Some y) as Hmore.
  { intros y Hy. destruct (may_repeat count hi); [|done]. apply Hb in Hy as (z & Hz & Hy).
    destruct (counts lo count st z); [|done]. apply IH in Hy as (w & Hw & Hy). exists w. split; [by etrans|done]. }
  assert (forall y, (if (lo <=? count)%nat then k st else None) = Some y -> exists st', reads st st' /\ k st' = Some y) as Hstop.
  { intros y Hy. destruct (lo <=? count)%nat; [by exists st|done]. }
  destruct greedy.
  - destruct (if may_repeat count hi then _ else _) eqn:E; [|by apply Hstop]. simplify_eq. by apply Hmore.
  - destruct (if (lo <=? count)%nat then _ else _) eqn:E; [|by apply Hmore]. simplify_eq. by apply Hstop.
Qed.

Lemma backtrack_forward r : forward (backtrack r).
Proof.
  induction r as [| |f|r1 IH1 r2 IH2|r1 IH1 r2 IH2|g lo hi r IH|n r IH|p r IH|lines|lines|]; intros st k x H; cbn [backtrack] in H.
  - done.
  - by exists st.
  - destruct (ms_rest st) as [|c rest] eqn:E; [done|]. destruct (f c); [|done].
    exists (step_char c rest st). split; [by apply reads_char|done].
  - apply IH1 in H as (y & Hy & H). apply IH2 in H as (z & Hz & H). exists z. split; [by etrans|done].
  - destruct (backtrack r1 st k) eqn:E; [simplify_eq; by apply IH1|by apply IH2].
  - by eapply repeat_match_forward.
  - apply IH in H as (y & Hy & H). eexists. split; [|exact H]. exact Hy.
  - destruct (backtrack r st Some) as [y|] eqn:E, p; try done; [|by exists st]. eexists. split; [|exact H].
    exists "". split; [done|simpl; lia].
  - destruct (at_start lines st); [by exists st|done].
  - destruct (at_end lines st); [by exists st|done].
  - destruct (word_boundary st); [by exists st|done].
Qed.

Lemma match_here_reads r advance st st' : match_here r advance st = Some st' ->
  reads st st' /\ (advance = true -> ms_at st' <> ms_at st).
Proof.
  unfold match_here. intros (x & Hx & H)%backtrack_forward. destruct advance; simpl in H; [|by simplify_eq].
  destruct (ms_at x =? ms_at st)%N eqn:E; simplify_eq. split; [done|]. by apply N.eqb_neq in E.
Qed.

(** Matches that follow one another from a position on. *)
Fixpoint follow (st : mstate) (l : list match_object) : Prop :=
  match l with
  | [] => True
  | x :: l => reads st (mo_begin x) /\ reads (mo_begin x) (mo_end x) /\ follow (mo_end x) l
  end.

Lemma follow_weaken st st' l : reads st st' -> follow st' l -> follow st l.
Proof. intros H. destruct l as [|x l]; [done|]. simpl. intros (? & ? & ?). split; [by etrans|done]. Qed.

Lemma scan_follow r fuel : forall advance st, follow st (scan r fuel advance st).
Proof.
  induction fuel as [|fuel IH]; intros advance st; cbn [scan]; [done|].
  destruct (match_here r advance st) as [st'|] eqn:E.
  - apply match_here_reads in E as [E _]. cbn [follow mo_begin mo_end]. split_and!; [done|done|].
    eapply follow_weaken; [|apply IH]. exists "". split; [done|simpl; lia].
  - destruct (ms_rest st) as [|c rest] eqn:Er; [done|]. eapply follow_weaken; [|apply IH]. by apply reads_char.
Qed.

Fixpoint interleave (l k : list string) : string :=
  match l, k with
  | s :: l, t :: k => s +:+ t +:+ interleave l k
  | l, _ => str_join "" l
  end.

Lemma pieces_interleave l : forall st, follow st l -> interleave (pieces st l) (map whole l) = ms_rest st.
Proof.
  induction l as [|x l IH]; intros st H; [done|]. destruct H as (H1 & H2 & H3).
  cbn [pieces map interleave]. rewrite (IH _ H3). unfold whole. by rewrite <- (between_reads _ _ H2), <- (between_reads _ _ H1).
Qed.

(** Splitting loses nothing: the pieces and the matches between them are the text. *)
Lemma re_split_covers r s : interleave (re_split r s) (findall0 r s) = s.
Proof. unfold re_split, findall0, finditer. by rewrite (pieces_interleave _ _ (scan_follow _ _ _ _)). Qed.
