(* ===== verification/RegexFacts.v ===== *)
(** What the matcher of [Regex] finds: a relation between positions, and the matcher
    sound and complete for it; the regular expression of a quoted text. *)
From S2P Require Export Regex.
From Stdlib Require Import Ascii.
Open Scope Z_scope.

(** * Positions *)

(** A position of a text, without what the groups captured. *)
Definition same_place (st st' : mstate) : Prop := no_groups st = no_groups st'.
#[export] Instance same_place_equiv : Equivalence same_place.
Proof. split; unfold same_place; [by intros ?|by intros ? ? ->|by intros ? ? ? -> ->]. Qed.
Lemma same_place_at st st' : same_place st st' -> ms_at st = ms_at st' /\ ms_prev st = ms_prev st' /\ ms_rest st = ms_rest st'.
Proof. unfold same_place, no_groups. by intros [= -> -> ->]. Qed.
Lemma no_groups_idem st : no_groups (no_groups st) = no_groups st.
Proof. done. Qed.
Lemma same_place_no_groups st : same_place (no_groups st) st.
Proof. done. Qed.

(** Repetitions of a step: [count] are made, and one that is not required reads something. *)
Inductive iterates (step : mstate -> mstate -> Prop) (lo : nat) (hi : option nat) : nat -> mstate -> mstate -> Prop :=
| Iter_stop count st : (lo <= count)%nat -> iterates step lo hi count st st
| Iter_more count st m st' :
    may_repeat count hi = true -> step st m -> counts lo count st m = true -> iterates step lo hi (S count) m st' -> iterates step lo hi count st st'.

(** [r] reads the text from one position to another. The groups of a position are empty. *)
Fixpoint matches (r : regex) (p q : mstate) : Prop :=
  match r with
  | RFail => False
  | REmpty => q = p
  | RSet f => exists c rest, ms_rest p = String c rest /\ f c = true /\ q = step_char c rest p
  | RSeq r1 r2 => exists m, matches r1 p m /\ matches r2 m q
  | RAlt r1 r2 => matches r1 p q \/ matches r2 p q
  | RRep _ lo hi r => iterates (matches r) lo hi 0 p q
  | RGroup _ r => matches r p q
  | RLook positive r => q = p /\ if positive then exists m, matches r p m else ~ exists m, matches r p m
  | RStart lines => q = p /\ at_start lines p = true
  | REnd lines => q = p /\ at_end lines p = true
  | RWord => q = p /\ word_boundary p = true
  end.

(** * The matcher *)

(** What a body hands to its continuation is where its relation leads. *)
Definition sound (body : mstate -> (mstate -> option mstate) -> option mstate) (step : mstate -> mstate -> Prop) : Prop :=
  forall st k x, body st k = Some x -> exists st', step (no_groups st) (no_groups st') /\ k st' = Some x.
Definition complete (body : mstate -> (mstate -> option mstate) -> option mstate) (step : mstate -> mstate -> Prop) : Prop :=
  forall st k q, step (no_groups st) q -> (forall st', no_groups st' = q -> k st' <> None) -> body st k <> None.

Lemma counts_place lo count st m : counts lo count (no_groups st) (no_groups m) = counts lo count st m.
Proof. done. Qed.

Lemma repeat_sound body step greedy lo hi k fuel : sound body step -> forall count st x,
  repeat_match body greedy lo hi k fuel count st = Some x ->
  exists st', iterates step lo hi count (no_groups st) (no_groups st') /\ k st' = Some x.
Proof.
intros Hb. induction fuel as [|fuel IH]; intros count st x H; [done|]. cbn [repeat_match] in H. cbv zeta in H.
assert (Hmore : forall y, (if may_repeat count hi then body st (fun st' => if counts lo count st st' then
    repeat_match body greedy lo hi k fuel (S count) st' else None) else None) = Some y ->
    exists st', iterates step lo hi count (no_groups st) (no_groups st') /\ k st' = Some y).
{ intros y Hy. destruct (may_repeat count hi) eqn:Hm; [|done]. apply Hb in Hy as (z & Hz & Hy). destruct (counts lo count st z) eqn:Hc; [|done].
  apply IH in Hy as (w & Hw & Hy). exists w. split; [|done]. by apply (Iter_more _ _ _ _ _ (no_groups z)). }
assert (Hstop : forall y, (if (lo <=? count)%nat then k st else None) = Some y -> exists st', iterates step lo hi count (no_groups st) (no_groups st') /\ k st' = Some y).
{ intros y Hy. destruct (Nat.leb_spec lo count); [|done]. exists st. split; [by apply Iter_stop|done]. }
destruct greedy.
- destruct (if may_repeat count hi then _ else _) eqn:E; [|by apply Hstop]. simplify_eq. by apply Hmore.
- destruct (if (lo <=? count)%nat then _ else _) eqn:E; [|by apply Hmore]. simplify_eq. by apply Hstop.
Qed.

Lemma reads_place st st' : reads (no_groups st) (no_groups st') <-> reads st st'.
Proof. done. Qed.
Lemma iterates_reads step lo hi count p q : (forall p q, step p q -> reads p q) -> iterates step lo hi count p q -> reads p q.
Proof. intros Hs. induction 1; [done|]. etrans; [by apply Hs|done]. Qed.
Lemma matches_reads r : forall p q, matches r p q -> reads p q.
Proof.
induction r as [| |f|r1 IH1 r2 IH2|r1 IH1 r2 IH2|g lo hi r IH|n r IH|b r IH| | |]; intros p q H; cbn [matches] in H.
- done.
- by subst.
- destruct H as (c & rest & E & _ & ->). by apply reads_char.
- destruct H as (m & H1 & H2). etrans; eauto.
- destruct H; eauto.
- by eapply iterates_reads.
- eauto.
- by destruct H as [-> _].
- by destruct H as [-> _].
- by destruct H as [-> _].
- by destruct H as [-> _].
Qed.
Lemma reads_shorter st st' : reads st st' ->
  (String.length (ms_rest st') <= String.length (ms_rest st))%nat /\ (ms_at st' <> ms_at st -> String.length (ms_rest st') < String.length (ms_rest st))%nat.
Proof. intros (t & E & A). rewrite E, length_str_app, A. lia. Qed.

Lemma either_way {A} (greedy : bool) (a b : option A) :
  a <> None \/ b <> None -> match (if greedy then a else b) with Some x => Some x | None => if greedy then b else a end <> None.
Proof. destruct greedy, a, b; naive_solver. Qed.

Lemma repeat_complete body step greedy lo hi k : complete body step -> (forall p q, step p q -> reads p q) -> forall count p q,
  iterates step lo hi count p q -> forall fuel st, p = no_groups st -> (lo - count + String.length (ms_rest p) < fuel)%nat ->
  (forall st', no_groups st' = q -> k st' <> None) -> repeat_match body greedy lo hi k fuel count st <> None.
Proof.
intros Hb Hr count p q. induction 1 as [count p Hlo|count p m q Hm Hs Hc Hi IH]; intros fuel st Hp Hf Hk; (destruct fuel as [|fuel]; [lia|]);
  cbn [repeat_match]; cbv zeta; apply either_way.
- right. destruct (Nat.leb_spec lo count); [|lia]. by apply Hk.
- left. rewrite Hm. apply Hb with m; [by subst|]. intros st' Hst'. rewrite <- counts_place, <- Hp, Hst', Hc. apply IH; [done| |done].
  destruct (reads_shorter p m (Hr _ _ Hs)) as [L1 L2]. unfold counts in Hc. apply orb_true_iff in Hc as [Hc|Hc].
  + apply Nat.ltb_lt in Hc. lia.
  + apply negb_true_iff, N.eqb_neq in Hc. specialize (L2 Hc). lia.
Qed.

Lemma with_groups_place st m : no_groups (with_groups st m) = no_groups st.
Proof. done. Qed.

(** The matcher succeeds exactly where the expression reads the text to a place from which
    what follows succeeds. *)
Lemma backtrack_correct r : sound (backtrack r) (matches r) /\ complete (backtrack r) (matches r).
Proof.
induction r as [| |f|r1 [IH1 IC1] r2 [IH2 IC2]|r1 [IH1 IC1] r2 [IH2 IC2]|g lo hi r [IH IC]|n r [IH IC]|p r [IH IC]|lines|lines|];
  (split; [intros st k x H|intros st k q H Hk]); cbn [backtrack] in *; cbn [matches] in *.
- done.
- done.
- by exists st.
- subst. by apply Hk.
- destruct (ms_rest st) as [|c rest] eqn:E; [done|]. destruct (f c) eqn:Ef; [|done]. exists (step_char c rest st). split; [by exists c, rest|done].
- destruct H as (c & rest & E & Ef & ->). simpl in E. rewrite E, Ef. by apply Hk.
- apply IH1 in H as (y & Hy & H). apply IH2 in H as (z & Hz & H). exists z. split; [by exists (no_groups y)|done].
- destruct H as (m & H1 & H2). apply (IC1 _ _ m H1). intros st' <-. by apply (IC2 _ _ q).
- destruct (backtrack r1 st k) eqn:E; [simplify_eq; apply IH1 in E as (y & ? & ?)|apply IH2 in H as (y & ? & ?)]; exists y; auto.
- destruct H as [H|H].
  + pose proof (IC1 st k q H Hk). by destruct (backtrack r1 st k).
  + pose proof (IC2 st k q H Hk). by destruct (backtrack r1 st k).
- by eapply repeat_sound.
- eapply repeat_complete; [exact IC|apply matches_reads|exact H|done| |done]. simpl. lia.
- apply IH in H as (y & Hy & H). by exists (close_group n st y).
- apply (IC _ _ q H). intros st' Hst'. by apply Hk.
- destruct (backtrack r st Some) as [y|] eqn:E, p; try done.
  + apply IH in E as (z & Hz & _). exists (with_groups st y). split; [|done]. split; [done|]. by exists (no_groups z).
  + exists st. split; [|done]. split; [done|]. intros [q Hq]. by apply (IC st Some q Hq).
- destruct H as [-> H]. destruct (backtrack r st Some) as [y|] eqn:E, p; try (by apply Hk).
  + apply IH in E as (z & Hz & _). destruct H. by exists (no_groups z).
  + destruct H as [m Hm]. by destruct (IC st Some m Hm).
- destruct (at_start lines st) eqn:E; [|done]. by exists st.
- destruct H as [-> H]. change (at_start lines st = true) in H. rewrite H. by apply Hk.
- destruct (at_end lines st) eqn:E; [|done]. by exists st.
- destruct H as [-> H]. change (at_end lines st = true) in H. rewrite H. by apply Hk.
- destruct (word_boundary st) eqn:E; [|done]. by exists st.
- destruct H as [-> H]. change (word_boundary st = true) in H. rewrite H. by apply Hk.
Qed.

(** * Searching *)

(** The position after [pre], in a text that goes on with [post]. *)
Fixpoint last_of (prev : option ascii) (s : string) : option ascii := match s with EmptyString => prev | String c r => last_of (Some c) r end.
Definition place (pre post : string) : mstate :=
  {| ms_at := N.of_nat (String.length pre); ms_prev := last_of None pre; ms_rest := post; ms_groups := [] |}.
(** A word begins or ends between two texts. *)
Definition edge (pre post : string) : bool := xorb (at_word (last_of None pre)) (at_word (head_char post)).

Lemma last_of_app s t : forall prev, last_of prev (s +:+ t) = last_of (last_of prev s) t.
Proof. induction s as [|c s IH]; intros prev; [done|]. rewrite str_app_cons. simpl. apply IH. Qed.
Lemma str_app_snoc pre c post : pre +:+ String c post = (pre +:+ String c "") +:+ post.
Proof. by rewrite str_app_assoc. Qed.
Lemma place_step pre c post : step_char c post (place pre (String c post)) = place (pre +:+ String c "") post.
Proof. unfold place, step_char. simpl. rewrite length_str_app, last_of_app. simpl. f_equal. lia. Qed.

Lemma match_here_place r pre post : (exists q, matches r (place pre post) q) <-> match_here r false (place pre post) <> None.
Proof.
unfold match_here. simpl. split.
- intros [q Hq]. apply (proj2 (backtrack_correct r) _ _ q); [exact Hq|done].
- intros H. destruct (backtrack _ _ _) as [x|] eqn:E; [|done]. apply (proj1 (backtrack_correct r)) in E as (q & Hq & _). eexists. exact Hq.
Qed.
Lemma first_match_found r post : forall pre,
  is_some (first_match r (last_of None pre) (N.of_nat (String.length pre)) post) = true
  <-> exists mid rest q, post = mid +:+ rest /\ matches r (place (pre +:+ mid) rest) q.
Proof.
induction post as [|c post IH]; intros pre; cbn [first_match].
- change {| ms_at := _ |} with (place pre ""). pose proof (match_here_place r pre "") as Hm. destruct (match_here _ _ _) as [st'|]; simpl.
  + split; [intros _|done]. destruct (proj2 Hm ltac:(discriminate)) as [q Hq]. exists "", "", q. by rewrite (str_app_nil pre).
  + split; [done|]. intros (mid & rest & q & E & H). destruct mid, rest; try done. rewrite (str_app_nil pre) in H. by destruct (proj1 Hm (ex_intro _ q H)).
- change {| ms_at := _ |} with (place pre (String c post)). pose proof (match_here_place r pre (String c post)) as Hm.
  destruct (match_here _ _ _) as [st'|]; simpl.
  + split; [intros _|done]. destruct (proj2 Hm ltac:(discriminate)) as [q Hq]. exists "", (String c post), q. by rewrite (str_app_nil pre).
  + replace (first_match r (Some c) _ post) with (first_match r (last_of None (pre +:+ String c "")) (N.of_nat (String.length (pre +:+ String c ""))) post).
    2: { rewrite last_of_app, length_str_app. simpl. f_equal. lia. }
    rewrite IH. split.
    * intros (mid & rest & q & -> & H). exists (String c mid), rest, q. by rewrite (str_app_snoc pre c mid).
    * intros (mid & rest & q & E & H). destruct mid as [|d mid].
      { simpl in E. rewrite (str_app_nil pre) in H. change ("" +:+ rest) with rest in E. subst rest. by destruct (proj1 Hm (ex_intro _ q H)). }
      rewrite str_app_cons in E. injection E as <- ->. exists mid, rest, q. by rewrite <- (str_app_snoc pre c mid).
Qed.
(** [re.search] finds something exactly when the expression reads the text at one of its
    positions. *)
Lemma found_iff r s : found r s = true <-> exists pre post q, s = pre +:+ post /\ matches r (place pre post) q.
Proof. unfold found, search. apply (first_match_found r s ""). Qed.

(** * Quoted texts *)

(** What [re.escape(k)] compiles to. *)
Fixpoint lit (k : string) : regex :=
  match k with EmptyString => REmpty | String c k => RSeq (RSet (fold_case no_flags (fun x => (x =? c)%char))) (lit k) end.
(** The alternatives joined by a bar. *)
Fixpoint alts (r : regex) (rs : list regex) : regex := match rs with [] => r | r' :: rs => RAlt r (alts r' rs) end.

Lemma matches_lit k : forall pre rest q, matches (lit k) (place pre rest) q <-> exists post, rest = k +:+ post /\ q = place (pre +:+ k) post.
Proof.
induction k as [|c k IH]; intros pre rest q; cbn [lit matches].
- rewrite str_app_nil. split; [intros ->; by exists rest|intros (post & -> & ->); done].
- split.
  + intros (m & (d & tl & E & Hd & ->) & H). simpl in E. subst rest. apply Ascii.eqb_eq in Hd as ->. rewrite place_step in H.
    apply IH in H as (post & -> & ->). exists post. by rewrite <- (str_app_snoc pre c k).
  + intros (post & -> & ->). rewrite str_app_cons. exists (place (pre +:+ String c "") (k +:+ post)). split.
    * exists c, (k +:+ post). split; [done|]. split; [apply Ascii.eqb_refl|by rewrite place_step].
    * apply IH. exists post. by rewrite <- (str_app_snoc pre c k).
Qed.
Lemma matches_alts rs : forall r p q, matches (alts r rs) p q <-> exists r', r' ∈ r :: rs /\ matches r' p q.
Proof.
induction rs as [|r' rs IH]; intros r p q; cbn [alts matches].
- split; [intros H; exists r; split; [constructor|done]|intros (r' & E & H)]. by apply list_elem_of_singleton in E as ->.
- rewrite IH. split.
  + intros [H|(x & Hx & H)]; [exists r|exists x]; split; try done; [constructor|by constructor].
  + intros (x & Hx & H). apply elem_of_cons in Hx as [->|Hx]; [by left|right; by exists x].
Qed.
Lemma matches_then_edge r pre post q : matches (RSeq r (RSeq RWord REmpty)) (place pre post) q <-> matches r (place pre post) q /\ word_boundary q = true.
Proof. cbn [matches]. split; [intros (m & H & n & [-> Hw] & ->); done|intros [H Hw]; exists q; split; [done|by exists q]]. Qed.

(** ** The parser on them *)

(** Where a sequence ends, and where alternatives do. *)
Definition stops (s : string) : bool := match s with EmptyString | String "|" _ | String ")" _ => true | _ => false end.
Definition closes (s : string) : bool := match s with EmptyString | String ")" _ => true | _ => false end.
Definition quantifies (s : string) : bool := match s with String "*" _ | String "+" _ | String "?" _ | String "{" _ => true | _ => false end.

Lemma closes_stops s : closes s = true -> stops s = true.
Proof. by destruct s as [|[[][][][][][][][]] s]. Qed.
Lemma stops_not_quantified s : stops s = true -> quantifies s = false.
Proof. by destruct s as [|[[][][][][][][][]] s]. Qed.
Lemma quantify_none r s : quantifies s = false -> quantify r s = (r, s).
Proof. by destruct s as [|[[][][][][][][][]] s]. Qed.
Lemma parse_sequence_end f n s : stops s = true -> parse_sequence (S f) no_flags n s = Some (REmpty, n, s).
Proof. by destruct s as [|[[][][][][][][][]] s]. Qed.
Lemma parse_sequence_item f n s : stops s = false -> parse_sequence (S f) no_flags n s =
  ('(r, n, s) ← parse_item f no_flags n s; let '(r, s) := quantify r s in '(r', n, s) ← parse_sequence f no_flags n s; Some (RSeq r r', n, s)).
Proof. by destruct s as [|[[][][][][][][][]] s]. Qed.
Lemma parse_item_word f n c s : word_char c = true -> parse_item (S f) no_flags n (String c s) = Some (RSet (fold_case no_flags (fun x => (x =? c)%char)), n, s).
Proof. by destruct c as [[][][][][][][][]]. Qed.
Lemma parse_item_escaped f n c s : word_char c = false ->
  parse_item (S f) no_flags n (String "\" (String c s)) = Some (RSet (fold_case no_flags (fun x => (x =? c)%char)), n, s).
Proof. by destruct c as [[][][][][][][][]]. Qed.
Lemma word_not_special c s : word_char c = true -> stops (String c s) = false /\ quantifies (String c s) = false.
Proof. by destruct c as [[][][][][][][][]]. Qed.

Lemma escaped_not_quantified k tl : stops tl = true -> quantifies (re_escape k +:+ tl) = false.
Proof.
intros Ht. destruct k as [|c k]; simpl; [by apply stops_not_quantified|]. destruct (word_char c) eqn:E; rewrite str_app_cons; [|done].
by apply word_not_special.
Qed.
Lemma parse_lit tl k : stops tl = true -> forall f n, (S (String.length k) < f)%nat ->
  parse_sequence f no_flags n (re_escape k +:+ tl) = Some (lit k, n, tl).
Proof.
intros Ht. induction k as [|c k IH]; intros f n Hf; (destruct f as [|[|f]]; [simpl in Hf; lia..|]).
- by apply parse_sequence_end.
- assert (E : parse_item (S f) no_flags n (re_escape (String c k) +:+ tl) = Some (RSet (fold_case no_flags (fun x => (x =? c)%char)), n, re_escape k +:+ tl)
              /\ stops (re_escape (String c k) +:+ tl) = false).
  { cbn [re_escape]. destruct (word_char c) eqn:E; rewrite !str_app_cons; [split; [by apply parse_item_word|by apply word_not_special]|].
    split; [by apply parse_item_escaped|done]. }
  destruct E as [E1 E2]. rewrite parse_sequence_item by done. rewrite E1. cbv beta iota delta [mbind option_bind]. rewrite quantify_none by by apply escaped_not_quantified.
  rewrite IH by (simpl in Hf; lia). done.
Qed.
Lemma length_re_escape k : (String.length k <= String.length (re_escape k))%nat.
Proof. induction k as [|c k IH]; [done|]. simpl. destruct (word_char c); simpl; lia. Qed.

(** Texts joined by a bar. *)
Definition bars (k : string) (ks : list string) : string := str_join "|" (map re_escape (k :: ks)).
Lemma bars_cons k k' ks : bars k (k' :: ks) = re_escape k +:+ String "|" (bars k' ks).
Proof. unfold bars. cbn [map str_join]. by rewrite str_app_cons. Qed.
Lemma parse_bars tl ks : closes tl = true -> forall k f n, (S (S (String.length (bars k ks))) < f)%nat ->
  parse_alternatives f no_flags n (bars k ks +:+ tl) = Some (alts (lit k) (map lit ks), n, tl).
Proof.
intros Ht. induction ks as [|k' ks IH]; intros k f n Hf; (destruct f as [|f]; [lia|]); cbn [parse_alternatives].
- pose proof (length_re_escape k). change (bars k []) with (re_escape k) in *. rewrite parse_lit; [|by apply closes_stops|lia].
  cbv beta iota delta [mbind option_bind]. by destruct tl as [|[[][][][][][][][]] tl].
- rewrite bars_cons, str_app_assoc, str_app_cons. rewrite bars_cons, length_str_app in Hf. simpl in Hf. pose proof (length_re_escape k).
  rewrite parse_lit by (done || lia). cbv beta iota delta [mbind option_bind]. by rewrite IH by lia.
Qed.
(** A group of them. *)
Definition bar_group (k : string) (ks : list string) : string := "(?:" +:+ bars k ks +:+ ")".
Lemma parse_bar_group f n k ks tl : (S (S (S (String.length (bars k ks)))) < f)%nat ->
  parse_item f no_flags n (bar_group k ks +:+ tl) = Some (alts (lit k) (map lit ks), n, tl).
Proof.
intros Hf. destruct f as [|f]; [lia|]. unfold bar_group. rewrite !str_app_assoc.
change ("(?:" +:+ ?s) with (String "(" (String "?" (String ":" s))). cbn [parse_item parse_group_kind]. rewrite parse_bars by (done || lia). done.
Qed.
Lemma parse_word_item f n s : parse_item (S f) no_flags n ("\b" +:+ s) = Some (RWord, n, s).
Proof. done. Qed.
Lemma parse_item_sequence f n s r s' : stops s = false -> parse_item f no_flags n s = Some (r, n, s') -> quantifies s' = false ->
  parse_sequence (S f) no_flags n s = ('(r', n, t) ← parse_sequence f no_flags n s'; Some (RSeq r r', n, t)).
Proof. intros H1 H2 H3. rewrite parse_sequence_item, H2 by done. cbv beta iota delta [mbind option_bind]. by rewrite quantify_none. Qed.
(** The group at the start of a word, and at its end. *)
Lemma parse_word_group f n k ks tl : (6 + String.length (bars k ks) < f)%nat -> stops tl = true ->
  parse_sequence f no_flags n ("\b" +:+ bar_group k ks +:+ tl) = Some (RSeq RWord (RSeq (alts (lit k) (map lit ks)) REmpty), n, tl).
Proof.
intros Hf Ht. destruct f as [|[|[|f]]]; [lia..|]. erewrite parse_item_sequence; [|done|apply parse_word_item|done].
erewrite parse_item_sequence; [|done|apply parse_bar_group; lia|by apply stops_not_quantified]. by rewrite parse_sequence_end.
Qed.
Lemma parse_group_word f n k ks tl : (6 + String.length (bars k ks) < f)%nat -> stops tl = true ->
  parse_sequence f no_flags n (bar_group k ks +:+ "\b" +:+ tl) = Some (RSeq (alts (lit k) (map lit ks)) (RSeq RWord REmpty), n, tl).
Proof.
intros Hf Ht. destruct f as [|[|[|f]]]; [lia..|]. erewrite parse_item_sequence; [|done|apply parse_bar_group; lia|done].
erewrite parse_item_sequence; [|done|apply parse_word_item|by apply stops_not_quantified]. by rewrite parse_sequence_end.
Qed.
Lemma parse_alternatives_bar f n s r s' : parse_sequence f no_flags n s = Some (r, n, String "|" s') ->
  parse_alternatives (S f) no_flags n s = ('(r', n, t) ← parse_alternatives f no_flags n s'; Some (RAlt r r', n, t)).
Proof. intros H. cbn [parse_alternatives]. by rewrite H. Qed.
Lemma parse_alternatives_last f n s r : parse_sequence f no_flags n s = Some (r, n, "") -> parse_alternatives (S f) no_flags n s = Some (r, n, "").
Proof. intros H. cbn [parse_alternatives]. by rewrite H. Qed.
Lemma length_bar_group k ks : String.length (bar_group k ks) = (4 + String.length (bars k ks))%nat.
Proof. unfold bar_group. rewrite !length_str_app. simpl. lia. Qed.
