(* ===== verification/PyNumber.v ===== *)
(** Numbers as Python reads and computes them: [decimal.Decimal] and [float] of a
    text, and the binary64 arithmetic the collector uses, every operation rounded
    to the nearest float with ties to even. *)
From S2P Require Export Models Json Regex.
From Stdlib Require Import Ascii.
Open Scope Z_scope.

(** * Decimals *)

(** A decimal numeral: digits, fraction and exponent. *)
Definition numeral : regex := rx re_I "([-+])?(?=\d|\.\d)(\d*)(?:\.(\d*))?(?:E([-+]?\d+))?".

Definition signed_value (s : string) : Z :=
  match s with
  | String "-" s => - digits_value 0 s
  | String "+" s => digits_value 0 s
  | s => digits_value 0 s
  end.

(** Sign, mantissa and decimal exponent. *)
Definition read_numeral (s : string) : option (bool * Z * Z) :=
  x ← fullmatch numeral s;
  let frac := group_text 3 x in
  Some (bool_decide (group_text 1 x = "-"), digits_value 0 (group_text 2 x +:+ frac),
        signed_value (group_text 4 x) - str_len frac).

(** [Decimal(s)]; [None] is [InvalidOperation]. *)
Definition decimal_of_text (s : string) : option decimal :=
  let s := str_filter (fun c => negb (c =? "_")%char) (str_strip s) in
  match read_numeral s with
  | Some (negative, m, e) => Some (Finite (if negative then - m else m) e)
  | None => if is_some (fullmatch (rx re_I "[-+]?(?:Inf(?:inity)?|s?NaN\d*)") s) then Some NonFinite else None
  end.

(** * Floats *)

(** The mantissa of a finite float is odd, or both numbers are zero. *)
Fixpoint strip_twos (fuel : nat) (m e : Z) : pyfloat :=
  match fuel with
  | O => FFinite m e
  | S fuel => if Z.even m then strip_twos fuel (m / 2) (e + 1) else FFinite m e
  end.
Definition normal (m e : Z) : pyfloat := if m =? 0 then FFinite 0 0 else strip_twos (S (Z.to_nat (Z.log2 (Z.abs m)))) m e.

(** [n / d] to the nearest integer, ties to even, for a positive [d]. *)
Definition round_div (n d : Z) : Z :=
  let q := n / d in
  let r := n mod d in
  if (2 * r <? d) || ((2 * r =? d) && Z.even q) then q else q + 1.

(** [n / d] in units of [2 ^ k]. *)
Definition scaled (n d k : Z) : Z := if 0 <=? k then round_div n (d * 2 ^ k) else round_div (n * 2 ^ (- k)) d.

(** The float nearest to [n / d], for a positive [d]. *)
Definition round_ratio (n d : Z) : pyfloat :=
  if n =? 0 then FFinite 0 0 else
  let a := Z.abs n in
  let guess := Z.log2 a - Z.log2 d - 53 in
  let exact := if 2 ^ 53 * (d * 2 ^ Z.max guess 0) <=? a * 2 ^ Z.max (- guess) 0 then guess + 1 else guess in
  let k := Z.max exact (-1074) in
  let q := scaled a d k in
  if (971 <? k) || ((k =? 971) && (2 ^ 53 <=? q)) then FInf (n <? 0) else normal (if n <? 0 then - q else q) k.

(** [float(d)] of a finite decimal. *)
Definition float_of_finite (m e : Z) : pyfloat :=
  if 0 <=? e then round_ratio (m * 10 ^ e) 1 else round_ratio m (10 ^ (- e)).

(** [float(s)]; [None] is a [ValueError]. Underscores may stand between digits. *)
Definition float_of_text (s : string) : option pyfloat :=
  let s := str_strip s in
  let plain := str_filter (fun c => negb (c =? "_")%char) s in
  if str_has "_" s && negb (is_some (fullmatch (rx no_flags "[^_]+(?:_[^_]+)*") s)
                            && negb (found (rx no_flags "\D_|_\D") s)) then None else
  match read_numeral plain with
  | Some (negative, m, e) => Some (float_of_finite (if negative then - m else m) e)
  | None =>
      if is_some (fullmatch (rx re_I "[-+]?Inf(?:inity)?") plain) then Some (FInf (str_startswith "-" plain))
      else if is_some (fullmatch (rx re_I "[-+]?NaN") plain) then Some FNan else None
  end.

(** The exact sum and quotient of two finite floats, and their floor quotient, of
    which the second is not zero. *)
Definition common (m e n f : Z) : Z * Z * Z := let k := Z.min e f in (m * 2 ^ (e - k), n * 2 ^ (f - k), k).
Definition ratio_of_dyadic (m e : Z) : Z * Z := if 0 <=? e then (m * 2 ^ e, 1) else (m, 2 ^ (- e)).
Definition round_dyadic (m e : Z) : pyfloat := let '(n, d) := ratio_of_dyadic m e in round_ratio n d.

(** [a + b] *)
Definition float_add (a b : pyfloat) : pyfloat :=
  match a, b with
  | FNan, _ | _, FNan => FNan
  | FInf x, FInf y => if Bool.eqb x y then FInf x else FNan
  | FInf x, _ | _, FInf x => FInf x
  | FFinite m e, FFinite n f => let '(x, y, k) := common m e n f in round_dyadic (x + y) k
  end.

(** [a // b] of non-negative [a] and positive [b], as CPython computes it: the
    remainder is exact, the quotient of the difference is rounded, then floored and
    corrected. *)
Definition float_floordiv (a b : pyfloat) : pyfloat :=
  match a, b with
  | FNan, _ | _, FNan | FInf _, _ => FNan
  | FFinite _ _, FInf _ => FFinite 0 0
  | FFinite m e, FFinite n f =>
      let '(x, y, k) := common m e n f in
      match round_dyadic (x - x mod y) k with
      | FFinite p g =>
          let '(u, v, _) := common p g n f in
          match round_ratio u v with
          | FFinite q h =>
              let '(num, den) := ratio_of_dyadic q h in
              let floor := num / den in
              round_ratio (if den <? 2 * (num - floor * den) then floor + 1 else floor) 1
          | other => other
          end
      | other => other
      end
  end.

(** [int(a)] *)
Definition float_to_int (a : pyfloat) : option Z :=
  match a with FFinite m e => let '(n, d) := ratio_of_dyadic m e in Some (Z.quot n d) | _ => None end.

(** [a <= 0], [a < 0] *)
Definition float_le_zero (a : pyfloat) : bool :=
  match a with FFinite m _ => m <=? 0 | FInf negative => negative | FNan => false end.
Definition float_lt_zero (a : pyfloat) : bool :=
  match a with FFinite m _ => m <? 0 | FInf negative => negative | FNan => false end.

Example numbers :
  decimal_of_text " 1_234.50 " = Some (Finite 123450 (-2)) /\ decimal_of_text "-.5" = Some (Finite (-5) (-1))
  /\ decimal_of_text "1.2.3" = None /\ decimal_of_text "" = None
  /\ float_of_text "0.1" = Some (FFinite 3602879701896397 (-55)) /\ float_of_text "1e400" = Some (FInf false)
  /\ float_of_text "5e-324" = Some (FFinite 1 (-1074)) /\ float_of_text "9007199254740993" = Some (FFinite 1 53)
  /\ float_of_text "1__0" = None /\ float_of_text "1.7976931348623157e308" = Some (FFinite 9007199254740991 971)
  /\ (a ← float_of_text "0.3"; b ← float_of_text "0.1"; Some (float_add a b)) = float_of_text "0.4"
  /\ (a ← float_of_text "0.3"; b ← float_of_text "0.1"; float_to_int (float_floordiv a b)) = Some 2
  /\ (a ← float_of_text "1"; b ← float_of_text "0.1"; float_to_int (float_floordiv a b)) = Some 9.
Proof. vm_compute. by split_and!. Qed.

(** A rounded quotient is within half a unit. *)
Lemma round_div_nearest n d : 0 < d -> 2 * Z.abs (n - round_div n d * d) <= d.
Proof.
  intros Hd. unfold round_div. pose proof (Z.div_mod n d ltac:(lia)) as E. pose proof (Z.mod_pos_bound n d Hd) as B.
  destruct (2 * (n mod d) <? d) eqn:H1; simpl.
  - apply Z.ltb_lt in H1. nia.
  - apply Z.ltb_ge in H1. destruct (2 * (n mod d) =? d) eqn:H2; simpl; [apply Z.eqb_eq in H2|]; [destruct (Z.even _)|]; nia.
Qed.
