(* ===== verification/HtmlPage.v ===== *)
(** Discovery and structured data in HTML ([catalogue-dump/.../connectors/page.py]):
    text, links, sitemaps, JSON-LD, microdata, specification tables and the
    verified selectors, as regular expressions over the markup. Patterns are the
    source's, with backquotes for double quotes. [html.unescape], [json.loads] and
    the [repr] of containers are parameters. *)
From S2P Require Export CatalogueConnector Regex.
From Stdlib Require Import Ascii.
Open Scope Z_scope.

(** * urllib.parse.urljoin *)

(** [urlparse] splits the parameters off the last segment of the path. *)
Record ParseResult := { pr_split : SplitResult; pr_params : string }.
Definition urlparse (url scheme : string) : result pyexn ParseResult :=
  sr ← urlsplit url;
  let scheme := if str_isempty (sr_scheme sr) then scheme else sr_scheme sr in
  if uses_params scheme then
    let '(before, slash, segment) := str_rpartition "/" (sr_path sr) in
    let '(name, _, params) := str_partition ";" segment in
    Ok {| pr_split := {| sr_scheme := scheme; sr_netloc := sr_netloc sr;
                         sr_path := if slash then before +:+ "/" +:+ name else name;
                         sr_query := sr_query sr; sr_fragment := sr_fragment sr |}; pr_params := params |}
  else Ok {| pr_split := {| sr_scheme := scheme; sr_netloc := sr_netloc sr; sr_path := sr_path sr;
                            sr_query := sr_query sr; sr_fragment := sr_fragment sr |}; pr_params := "" |}.

(** [urlunparse], of the parts a joined URL has. *)
Definition urlunparse (scheme netloc path params query fragment : string) : string :=
  urlunsplit {| sr_scheme := scheme; sr_netloc := netloc;
                sr_path := if str_isempty params then path else path +:+ ";" +:+ params;
                sr_query := query; sr_fragment := fragment |}.

Definition uses_relative (scheme : string) : bool :=
  bool_decide (scheme ∈ [""; "ftp"; "http"; "gopher"; "nntp"; "imap"; "wais"; "file"; "https"; "shttp"; "mms"; "prospero";
                         "rtsp"; "rtsps"; "rtspu"; "sftp"; "svn"; "svn+ssh"; "ws"; "wss"]).

(** Dots in the segments of a path. *)
Definition resolve_segments (segments : list string) : list string :=
  let resolved := foldl (fun acc seg => if bool_decide (seg = "..") then take (length acc - 1) acc
                                        else if bool_decide (seg = ".") then acc else acc ++ [seg]) [] segments in
  if bool_decide (default "" (last segments) ∈ ["."; ".."]) then resolved ++ [""] else resolved.

(** [segments[1:-1] = filter(None, segments[1:-1])] *)
Definition drop_empty_inner (segments : list string) : list string :=
  match segments with
  | [] => []
  | s :: rest => s :: filter (fun t => t <> "") (take (length rest - 1) rest) ++ drop (length rest - 1) rest
  end.

Definition urljoin (base url : string) : result pyexn string :=
  if str_isempty base then Ok url else
  if str_isempty url then Ok base else
  b ← urlparse base ""; u ← urlparse url (sr_scheme (pr_split b));
  let '{| pr_split := bs; pr_params := bparams |} := b in
  let '{| pr_split := us; pr_params := params |} := u in
  let scheme := sr_scheme us in
  if negb (bool_decide (scheme = sr_scheme bs)) || negb (uses_relative scheme) then Ok url else
  if uses_netloc scheme && negb (str_isempty (sr_netloc us))
  then Ok (urlunparse scheme (sr_netloc us) (sr_path us) params (sr_query us) (sr_fragment us)) else
  let netloc := if uses_netloc scheme then sr_netloc bs else sr_netloc us in
  if str_isempty (sr_path us) && str_isempty params
  then Ok (urlunparse scheme netloc (sr_path bs) bparams
             (if str_isempty (sr_query us) then sr_query bs else sr_query us) (sr_fragment us)) else
  let base_parts := str_split "/" (sr_path bs) in
  let base_parts := if str_isempty (default "" (last base_parts)) then base_parts else take (length base_parts - 1) base_parts in
  let own := str_split "/" (sr_path us) in
  let segments := if str_startswith "/" (sr_path us) then own else drop_empty_inner (base_parts ++ own) in
  let path := str_join "/" (resolve_segments segments) in
  Ok (urlunparse scheme netloc (if str_isempty path then "/" else path) params (sr_query us) (sr_fragment us)).

Example urljoin_examples :
  map (urljoin "http://a/b/c/d;p?q") ["g"; "../g"; "/g"; "//h/x"; "?y"; "g;x?y#s"; "../../../g"; "./"; "mailto:x"; ""]
  = map Ok ["http://a/b/c/g"; "http://a/b/g"; "http://a/g"; "http://h/x"; "http://a/b/c/d;p?y"; "http://a/b/c/g;x?y#s";
            "http://a/g"; "http://a/b/c/"; "mailto:x"; "http://a/b/c/d;p?q"].
Proof. by vm_compute. Qed.

(** * Text *)

(** The words of a text: [s.split()]. *)
Fixpoint words_from (word : string) (s : string) : list string :=
  let flush := if str_isempty word then [] else [str_rev word] in
  match s with
  | EmptyString => flush
  | String c s => if is_space c then flush ++ words_from "" s else words_from (String c word) s
  end.
Definition words (s : string) : list string := words_from "" s.

(** [dict.fromkeys(l)]: the first of equal items. *)
Definition fromkeys {A} `{EqDecision A} (l : list A) : list A := reverse (remove_dups (reverse l)).

Definition netloc (url : string) : result pyexn string := sr ← urlsplit url; Ok (sr_netloc sr).

Section page.
Context (unescape : string -> string) (loads : string -> option json) (repr : json -> string).

(** [re.sub] of the tags by spaces, [html.unescape] and one space between words. *)
Definition clean_text (s : string) : string :=
  str_join " " (words (unescape (re_sub (rx no_flags "<[^>]+>") " " s))).

(** Source: catalogue-dump/connectors/page.py, clean. *)
Definition clean (value : json) : string :=
  match value with JNull => "" | _ => clean_text (py_str repr value) end.

(** Source: catalogue-dump/connectors/page.py, compatibility_clean. *)
Definition compatibility_clean (value : json) : string := clean_text (py_str repr (or_else value (JStr ""))).

(** The text up to the brace that closes the object.
    Source: catalogue-dump/connectors/page.py:28-55, balanced_object. *)
Fixpoint balanced_prefix (depth : Z) (in_string escaped : bool) (s : string) : option string :=
  match s with
  | EmptyString => None
  | String c s =>
      if in_string then
        String c <$> (if escaped then balanced_prefix depth true false s
                      else if (c =? "\")%char then balanced_prefix depth true true s
                      else balanced_prefix depth (negb (ord c =? 34)) false s)
      else if ord c =? 34 then String c <$> balanced_prefix depth true false s
      else if (c =? "{")%char then String c <$> balanced_prefix (depth + 1) false false s
      else if (c =? "}")%char then
        if depth - 1 =? 0 then Some (String c EmptyString) else String c <$> balanced_prefix (depth - 1) false false s
      else String c <$> balanced_prefix depth false false s
  end.

(** Source: catalogue-dump/connectors/page.py, balanced_object. *)
Definition balanced_object (document : string) (start : Z) : option (list (string * json)) :=
  prefix ← balanced_prefix 0 false false (str_drop (Z.to_nat start) document);
  value ← loads prefix;
  as_dict value.

(** Source: catalogue-dump/connectors/page.py, probable_javascript_shell. *)
Definition probable_javascript_shell (document : string) : bool :=
  let lower := str_casefold document in
  if negb (str_contains "<html" lower) && negb (str_contains "<!doctype" lower) then false else
  let explicit := existsb (fun marker => str_contains (quoted marker) lower)
    ["enable javascript"; "javascript is required"; "requires javascript"; "id=`__next`"; "id='__next'"; "id=`root`";
     "id='root'"; "id=`app`"; "id='app'"; "ng-version="] in
  let scripts := length (finditer (rx no_flags "<script\b") lower) in
  let visible := re_sub (rx no_flags "<script\b[\s\S]*?</script>|<style\b[\s\S]*?</style>|<[^>]+>") " " lower in
  explicit && (0 <? scripts)%nat && (str_len (str_join " " (words (unescape visible))) <? 1000).

(** * Links *)

(** Source: catalogue-dump/connectors/page.py:98-110, links. *)
Definition link_scope (document : string) (cards_only : bool) : string :=
  if cards_only then
    let cards := findall0 (rx re_I ("<(?:article|li|div)[^>]*class=[`'][^`']*" +:+
      "(?:product-miniature|product-item|product-card|productbox)[^`']*[`'][\s\S]*?</(?:article|li|div)>")) document in
    let pagination := findall0 (rx re_I
      "<a[^>]+(?:rel=[`']next[`']|class=[`'][^`']*(?:next|pagination)[^`']*[`'])[^>]*>") document in
    let scope := str_join "" (cards ++ pagination) in
    if str_isempty scope then document else scope
  else document.

(** Source: catalogue-dump/connectors/page.py, links. *)
Definition links (document page_url : string) (cards_only : bool) : result pyexn (list string) :=
  origin ← netloc page_url;
  candidates ← map_result (fun href => url ← urljoin page_url (unescape href); canonical url)
    (findall (rx re_I "href=[`']([^`']+)[`']") (link_scope document cards_only));
  hosts ← map_result netloc candidates;
  Ok (fromkeys (map fst (filter (fun x => x.2 = origin) (zip candidates hosts)))).

(** Source: catalogue-dump/connectors/page.py, sitemap_locations. *)
Definition sitemap_locations (document : string) : bool * list string :=
  let locations := map clean_text (findall (rx re_I "<loc>\s*(?:<!\[CDATA\[)?(.*?)(?:\]\]>)?\s*</loc>") document) in
  (found (rx re_I "<sitemapindex\b") document, filter (fun value => value <> "") locations).

(** Source: catalogue-dump/connectors/page.py, pdf_links. *)
Definition pdf_links (document page_url : string) : result pyexn (list (string * string)) :=
  map_result (fun '(href, label) => url ← urljoin page_url (unescape href); Ok (url, clean_text label))
    (findall2 (rx re_IS "<a[^>]+href=[`']([^`']+\.pdf[^`']*)[`'][^>]*>(.*?)</a>") document).

(** * Structured data *)

(** The objects of a JSON-LD value: lists and graphs are opened.
    Source: catalogue-dump/connectors/page.py:136-144, jsonld_blocks. *)
Fixpoint flatten (value : json) : list (list (string * json)) :=
  match value with
  | JList l => (fix each l := match l with [] => [] | child :: l => flatten child ++ each l end) l
  | JDict d =>
      (fix graph e := match e with
                      | [] => [d]
                      | (k, x) :: e => if bool_decide (k = "@graph") then flatten x else graph e
                      end) d
  | _ => []
  end.

(** Source: catalogue-dump/connectors/page.py, jsonld_blocks. *)
Definition jsonld_blocks (document : string) : list (list (string * json)) :=
  concat (map (fun raw => match loads (unescape (str_strip raw)) with Some value => flatten value | None => [] end)
    (findall (rx re_IS "<script[^>]+type=[`']application/ld\+json[`'][^>]*>(.*?)</script>") document)).

(** Source: catalogue-dump/connectors/page.py, _has_type. *)
Definition has_type (item : list (string * json)) (wanted : string) : bool :=
  let types := default (JList []) (dict_get "@type" item) in
  let types := match types with JList l => l | v => [v] end in
  existsb (fun value => bool_decide (str_casefold (py_str repr value) = wanted)) types.

(** Source: catalogue-dump/connectors/page.py, jsonld_products. *)
Definition jsonld_products (document : string) : list (list (string * json)) :=
  filter (fun item => has_type item "product" = true) (jsonld_blocks document).

(** Source: catalogue-dump/connectors/page.py:167-172, breadcrumbs. *)
Definition crumb_name (element : json) : option string :=
  match element with
  | JDict e =>
      let name := clean (match get e "item" with JDict entry => get entry "name" | _ => get e "name" end) in
      if str_isempty name then None else Some name
  | _ => None
  end.

(** Source: catalogue-dump/connectors/page.py, breadcrumbs. *)
Definition breadcrumbs (document : string) : result pyexn (list string) :=
  (fix first items := match items with
    | [] => Ok []
    | item :: items =>
        if negb (has_type item "breadcrumblist") then first items else
        elements ← items_of (get item "itemListElement");
        let names := omap crumb_name elements in
        if bool_decide (names = []) then first items else Ok names
    end) (jsonld_blocks document).

(** Source: catalogue-dump/connectors/page.py, meta. *)
Definition meta (document key : string) : option string :=
  let first := rx_around re_I "<meta[^>]+(?:property|name)=[`']" key "[`'][^>]+content=[`']([^`']*)" in
  let second := rx_around re_I "<meta[^>]+content=[`']([^`']*)[`'][^>]+(?:property|name)=[`']" key "[`']" in
  match search first document, search second document with
  | Some x, _ | None, Some x => Some (str_strip (unescape (group_text 1 x)))
  | None, None => None
  end.

(** Source: catalogue-dump/connectors/page.py, offer. *)
Definition offer (item : list (string * json)) : list (string * json) :=
  let lowest v := match v with
    | JDict d => if bool_decide (get d "@type" = JStr "AggregateOffer") && negb (bool_decide (get d "lowPrice" = JNull))
                 then dict_set "price" (get d "lowPrice") d else d
    | _ => []
    end in
  match get item "offers" with
  | JList l =>
      match list_find (fun d => get d "price" <> JNull) (omap as_dict l) with
      | Some (_, candidate) => candidate
      | None => lowest (default (JDict []) (head l))
      end
  | v => lowest v
  end.

(** Source: catalogue-dump/connectors/page.py, images. *)
Definition images (item : list (string * json)) (page_url : string) : result pyexn (list string) :=
  let values := match get item "image" with JList l => l | v => [v] end in
  let cleaned := map (fun entry => clean (match entry with
    | JDict d => or_else (get d "url") (get d "contentUrl") | v => v end)) values in
  urls ← map_result (urljoin page_url) (filter (fun s => s <> "") cleaned);
  Ok (fromkeys urls).

(** [clean(...) or None] *)
Definition or_none (s : string) : option string := if str_isempty s then None else Some s.

(** Source: catalogue-dump/connectors/page.py, brand. *)
Definition brand (item : list (string * json)) : option string :=
  let value := match get item "brand" with JDict d => get d "name" | v => v end in
  or_none (clean (match value with
    | JList (JDict d :: _) => get d "name"
    | JList (v :: _) => v
    | v => v
    end)).

(** Source: catalogue-dump/connectors/page.py, gtin. *)
Definition gtin (item : list (string * json)) : option string :=
  head (omap (fun key => or_none (clean (get item key))) ["gtin13"; "gtin14"; "gtin12"; "gtin8"; "gtin"; "ean"]).

(** Source: catalogue-dump/connectors/page.py, DOCUMENT_PATTERNS. *)
Definition DOCUMENT_PATTERNS : list (string * string) :=
  [("safety_data_sheet", "\b(?:msds|sds|safety data|fiche de s[eé]curit[eé]|s[eé]curit[eé]|sicherheitsdatenblatt" +:+
      "|veiligheidsblad|scheda di sicurezza)\b");
   ("technical_sheet", "\b(?:tds|technical data|technical sheet|fiche technique|datenblatt|technisch|scheda tecnica" +:+
      "|ficha t[eé]cnica)\b");
   ("certificate", "\b(?:certificat|certificate|zertifikat|certificaat|certificato)\b");
   ("lab_report", "\b(?:lab(?:oratory)? (?:report|result)|rapport d'analyse|pr[uü]fbericht)\b");
   ("instructions", "\b(?:instruction|mode d'emploi|anleitung|handleiding|istruzioni)\b")].

(** Source: catalogue-dump/connectors/page.py:272-275, documents. *)
Definition document_type (haystack : string) : option string :=
  head (omap (fun '(name, pattern) => if found (rx re_I pattern) haystack then Some name else None) DOCUMENT_PATTERNS).

(** Type, label and URL of the technical documents among links.
    Source: catalogue-dump/connectors/page.py, documents. *)
Fixpoint documents_from (page_url : string) (seen : list string) (links : list (json * json))
    : result pyexn (list (string * option string * string)) :=
  match links with
  | [] => Ok []
  | (raw_url, raw_label) :: links =>
      let cleaned := compatibility_clean raw_url in
      url ← (if str_isempty page_url then Ok cleaned else urljoin page_url cleaned);
      let label := compatibility_clean raw_label in
      if str_isempty url || bool_decide (url ∈ seen) then documents_from page_url seen links else
      parts ← urlparse url "";
      match document_type (label +:+ " " +:+ sr_path (pr_split parts)) with
      | None => documents_from page_url seen links
      | Some type => rest ← documents_from page_url (url :: seen) links; Ok ((type, or_none label, url) :: rest)
      end
  end.
Definition documents (links : list (json * json)) (page_url : string) := documents_from page_url [] links.

(** Source: catalogue-dump/connectors/page.py, NON_SPECIFICATION. *)
Definition NON_SPECIFICATION : string :=
  "cookie|consent|privacy|gdpr|rgpd|datenschutz|expiry|provider purpose" +:+
  "|prestashop-#|_ga\b|session|newsletter|shipping cost|delivery time" +:+
  "|analytic|tracking|tracker|visitor|advertis|google|facebook|hotjar".

(** Source: catalogue-dump/connectors/page.py:300-306, specification_table. *)
Definition specification (name value : string) : bool :=
  negb (str_isempty name) && negb (str_isempty value) && (str_len name <? 60)
  && negb (found (rx re_I NON_SPECIFICATION) name) && negb (found (rx re_I NON_SPECIFICATION) value).

(** Source: catalogue-dump/connectors/page.py, specification_table. *)
Definition specification_table (document : string) : list (string * string) :=
  let rows := findall2 (rx re_IS "<tr[^>]*>\s*<t[hd][^>]*>(.*?)</t[hd]>\s*<t[hd][^>]*>(.*?)</t[hd]>\s*</tr>") document
              ++ findall2 (rx re_IS "<dt[^>]*>(.*?)</dt>\s*<dd[^>]*>(.*?)</dd>") document in
  foldl (fun attributes '(raw_name, raw_value) =>
    let name := str_rstrip (fun c => (c =? ":")%char) (clean_text raw_name) in
    let value := clean_text raw_value in
    if specification name value && negb (dict_mem name attributes) then dict_set name value attributes else attributes) [] rows.

(** * Verified selectors *)

(** Source: catalogue-dump/connectors/page.py, DomFieldSelector. *)
Record DomFieldSelector := { df_selector : string; df_attribute : option string }.

(** Source: catalogue-dump/connectors/page.py, DomFieldSelector._supported_selector. *)
Definition supported_selector (s : DomFieldSelector) : result pyexn DomFieldSelector :=
  _ ← ensure (negb (str_isempty (df_selector s))) (ValueError "selector is empty");
  _ ← ensure (is_some (fullmatch (rx no_flags
        "(?:[A-Za-z][\w-]*)?(?:#[\w-]+|\.[\w-]+|\[[\w:-]+(?:=[\`\']?[\w:./ -]+[\`\']?)?\])?") (df_selector s)))
        (ValueError "DOM rules support one tag/id/class/attribute selector only");
  _ ← ensure (match df_attribute s with Some a => is_some (fullmatch (rx no_flags "[\w:-]+") a) | None => true end)
        (ValueError "DOM rule attribute is invalid");
  Ok s.

(** Source: catalogue-dump/connectors/page.py, VerifiedDomRules. *)
Record VerifiedDomRules := {
  dr_verification : list DomFieldSelector;
  dr_name : DomFieldSelector;
  dr_price : option DomFieldSelector;
  dr_currency : option DomFieldSelector;
  dr_description : option DomFieldSelector;
  dr_sku : option DomFieldSelector;
  dr_image : option DomFieldSelector;
  dr_availability : option DomFieldSelector;
}.

(** Tag, identifier, class, attribute and its value.
    Source: catalogue-dump/connectors/page.py, _selector. *)
Definition selector (value : string) : option (option string * option string * option string * option string * option string) :=
  x ← fullmatch (rx no_flags
    "(?P<tag>[A-Za-z][\w-]*)?(?:#(?P<id>[\w-]+)|\.(?P<class>[\w-]+)|\[(?P<attr>[\w:-]+)(?:=[\`\']?(?P<value>[\w:./ -]+)[\`\']?)?\])?")
    value;
  Some (group 1 x, group 2 x, group 3 x, group 4 x, group 5 x).

(** Source: catalogue-dump/connectors/page.py, _attributes. *)
Definition attributes (raw : string) : list (string * string) :=
  foldl (fun acc x =>
    let text := if str_isempty (group_text 3 x)
                then if str_isempty (group_text 4 x) then group_text 5 x else group_text 4 x else group_text 3 x in
    dict_set (str_casefold (group_text 1 x)) (unescape text) acc) []
    (finditer (rx no_flags "([\w:-]+)\s*=\s*(\`([^\`]*)\`|'([^']*)'|([^\s>]+))") raw).

(** [attrs.get(a) or attrs.get(b) or ...] *)
Definition first_attribute (attrs : list (string * string)) (names : list string) : option string :=
  head (omap (fun name => text ← dict_get name attrs; or_none text) names).

(** Source: catalogue-dump/connectors/page.py:356-363, select. *)
Definition selected (attrs : list (string * string)) (wanted_id wanted_class wanted_attr wanted_value : option string) : bool :=
  match wanted_id with Some i => bool_decide (dict_get "id" attrs = Some i) | None => true end
  && match wanted_class with Some c => bool_decide (c ∈ words (default "" (dict_get "class" attrs))) | None => true end
  && match wanted_attr with Some a => dict_mem a attrs | None => true end
  && match wanted_value with Some v => bool_decide (dict_get (default "" wanted_attr) attrs = Some v) | None => true end.

(** Source: catalogue-dump/connectors/page.py:364-374, select. *)
Definition selected_text (rule : DomFieldSelector) (attrs : list (string * string)) (x : match_object) : option string :=
  let tag := group_text 1 x in
  let after := ms_rest (mo_end x) in
  let inner _ := match search (rx_around re_I "</" tag "\s*>") after with
                 | Some close => str_take (Z.to_nat (start_at close)) after
                 | None => after
                 end in
  or_none (match df_attribute rule with
           | Some a => if str_isempty a then clean_text (inner tt)
                       else default "" (clean_text <$> dict_get a attrs)
           | None =>
               if bool_decide (str_casefold tag ∈ ["meta"; "link"; "img"; "input"; "source"])
               then default "" (clean_text <$> first_attribute attrs ["content"; "src"; "value"])
               else clean_text (inner tt)
           end).

(** Source: catalogue-dump/connectors/page.py, select. *)
Definition select (document : string) (rule : DomFieldSelector) : option string :=
  '(tag, wanted_id, wanted_class, wanted_attr, wanted_value) ← selector (df_selector rule);
  let pattern := "<(?P<tag>" +:+ default "[A-Za-z][\w-]*" tag
                 +:+ ")\b(?P<attrs>(?:[^>\`']|\`[^\`]*\`|'[^']*')*)>" in
  '(_, x) ← list_find (fun x => selected (attributes (group_text 2 x)) wanted_id wanted_class wanted_attr wanted_value = true)
    (finditer (rx re_IS pattern) document);
  selected_text rule (attributes (group_text 2 x)) x.

(** * Microdata *)

(** [s.rfind(c, 0, n)] *)
Definition rfind (c : ascii) (s : string) (n : Z) : option Z :=
  let '(before, present, _) := str_rpartition c (str_take (Z.to_nat n) s) in if present then Some (str_len before) else None.

(** Source: catalogue-dump/connectors/page.py, _VOID_TAGS. *)
Definition VOID_TAGS : list string := ["meta"; "link"; "img"; "br"; "hr"; "input"; "source"; "area"; "base"; "col"].

Definition opening_tag : regex := rx re_S "<\s*([A-Za-z][A-Za-z0-9]*)((?:[^>\`']|\`[^\`]*\`|'[^']*')*)>".

(** Where the tag that opens before a position begins, and the match of it.
    Source: catalogue-dump/connectors/page.py:391-392, microdata_products. *)
Definition opening_before (document : string) (n : Z) : option (Z * match_object) :=
  start ← rfind "<" document n; opening ← match_from opening_tag document start; Some (start, opening).

(** The end of the element whose tags follow.
    Source: catalogue-dump/connectors/page.py:410-419, _microdata_scope. *)
Fixpoint scope_end (depth : Z) (tags : list match_object) : option Z :=
  match tags with
  | [] => None
  | x :: tags =>
      if str_isempty (group_text 1 x) then scope_end (depth + 1) tags
      else if depth - 1 <=? 0 then Some (end_at x) else scope_end (depth - 1) tags
  end.

(** The element that opens at the beginning of a text.
    Source: catalogue-dump/connectors/page.py, _microdata_scope. *)
Definition microdata_scope (text tag : string) : string :=
  if bool_decide (str_casefold tag ∈ VOID_TAGS) then
    let '(before, closed, _) := str_partition ">" text in if closed then before +:+ ">" else text
  else match scope_end 0 (finditer (rx_around re_I "<\s*(/?)\s*" tag "\b[^>]*>") text) with
       | Some n => str_take (Z.to_nat n) text
       | None => text
       end.

(** [opening_text] is the element with its opening tag, [after_open] where that ends.
    Source: catalogue-dump/connectors/page.py, _microdata_value. *)
Definition microdata_value (tag raw_attributes text : string) (after_open : Z) : option string :=
  let attrs := attributes raw_attributes in
  let lowered := str_casefold tag in
  match first_attribute attrs ["content"; "datetime"] with
  | Some value => Some value
  | None =>
      if bool_decide (lowered ∈ ["img"; "source"; "audio"; "video"; "embed"])
      then match first_attribute attrs ["src"] with Some v => Some v | None => dict_get "content" attrs end
      else match first_attribute attrs ["href"], bool_decide (lowered ∈ ["a"; "link"; "area"]) with
           | Some href, true => Some href
           | _, _ => if bool_decide (lowered ∈ VOID_TAGS) then None
                     else or_none (clean_text (str_drop (Z.to_nat after_open) (microdata_scope text tag)))
           end
  end.

(** Source: catalogue-dump/connectors/page.py, _microdata_assign. *)
Definition microdata_assign (item : list (string * json)) (name : string) (value : json) : list (string * json) :=
  let many := bool_decide (name ∈ ["image"; "additionalProperty"]) in
  match dict_get name item with
  | None => dict_set name (if many then JList [value] else value) item
  | Some (JList l) => if bool_decide (value ∈ l) then item else dict_set name (JList (l ++ [value])) item
  | Some old => if many && negb (bool_decide (old = value)) then dict_set name (JList [old; value]) item else item
  end.

(** [value not in (None, "", {})] *)
Definition published (value : json) : bool := negb (bool_decide (value ∈ [JNull; JStr ""; JDict []])).

(** The properties of a fragment; the fragments of nested items are shorter, which
    bounds the recursion. Source: catalogue-dump/connectors/page.py, _microdata_read. *)
Fixpoint microdata_read_within (fuel : nat) (fragment : string) : list (string * json) :=
  match fuel with
  | O => []
  | S fuel =>
      (foldl (fun '(item, skip_to) x =>
        if start_at x <? skip_to then (item, skip_to) else
        match opening_before fragment (start_at x), words (group_text 1 x) with
        | Some (start, opening), name :: _ =>
            let tag := group_text 1 opening in
            let raw := group_text 2 opening in
            let text := str_drop (Z.to_nat start) fragment in
            let after_open := end_at opening - start in
            if str_contains "itemscope" (str_casefold raw) || found (rx re_I "itemtype\s*=") raw then
              let nested := microdata_scope text tag in
              let inner := str_drop (Z.to_nat after_open) nested in
              let read := microdata_read_within fuel inner in
              let value := if bool_decide (read = []) then JStr (clean_text inner) else JDict read in
              (if published value then microdata_assign item name value else item, start + str_len nested)
            else
              let value := match microdata_value tag raw text after_open with Some v => JStr v | None => JNull end in
              (if published value then microdata_assign item name value else item, skip_to)
        | _, _ => (item, skip_to)
        end) ([], 0) (finditer (rx re_I "itemprop\s*=\s*[`']([^`']+)[`']") fragment)).1
  end.
Definition microdata_read (fragment : string) : list (string * json) :=
  microdata_read_within (S (String.length fragment)) fragment.

(** Source: catalogue-dump/connectors/page.py, microdata_products. *)
Definition microdata_products (document : string) : list (list (string * json)) :=
  omap (fun x =>
    if negb (bool_decide (str_casefold (group_text 1 x) = "product")) then None else
    '(start, opening) ← opening_before document (start_at x);
    let scope := microdata_scope (str_drop (Z.to_nat start) document) (group_text 1 opening) in
    let item := microdata_read (str_drop (Z.to_nat (end_at opening - start)) scope) in
    if bool_decide (item = []) then None
    else Some (if dict_mem "@type" item then item else dict_set "@type" (JStr "Product") item))
  (finditer (rx re_I "itemtype\s*=\s*[`']\s*https?://schema\.org/([A-Za-z]+)") document).
End page.

(** * Facts *)

(** A word has no space in it and is not empty. *)
Definition is_word (s : string) : Prop := str_isempty s = false /\ str_forall (fun c => negb (is_space c)) s = true.

Lemma str_forall_app f s t : str_forall f (s +:+ t) = str_forall f s && str_forall f t.
Proof. induction s as [|c s IH]; [done|]. rewrite str_app_cons. simpl. by rewrite IH, andb_assoc. Qed.

Lemma str_rev_app_spec s : forall acc, str_rev_app s acc = str_rev s +:+ acc.
Proof.
  induction s as [|c s IH]; intros acc; [done|]. unfold str_rev. simpl. rewrite IH, (IH (String c "")).
  by rewrite str_app_assoc.
Qed.

Lemma str_rev_cons c s : str_rev (String c s) = str_rev s +:+ String c "".
Proof. unfold str_rev at 1. simpl. by rewrite str_rev_app_spec. Qed.

Lemma str_isempty_app s t : str_isempty (s +:+ t) = str_isempty s && str_isempty t.
Proof. by destruct s. Qed.

Lemma words_from_words s : forall word,
  str_forall (fun c => negb (is_space c)) word = true -> Forall is_word (words_from word s).
Proof.
  assert (forall word, str_forall (fun c => negb (is_space c)) word = true ->
    Forall is_word (if str_isempty word then [] else [str_rev word])) as Hflush.
  { intros word Hw. destruct word as [|c word]; [constructor|]. apply Forall_singleton. rewrite str_rev_cons. split.
    - rewrite str_isempty_app. apply andb_false_r.
    - rewrite <- str_rev_cons.
      clear -Hw. induction (String c word) as [|d w IH]; [done|]. rewrite str_rev_cons, str_forall_app. simpl in *.
      apply andb_prop in Hw as [-> Hw]. by rewrite IH. }
  induction s as [|c s IH]; intros word Hw; cbn [words_from]; [by apply Hflush|].
  destruct (is_space c) eqn:E; [apply Forall_app; split; [by apply Hflush|by apply IH]|].
  apply IH. simpl. by rewrite E.
Qed.

Lemma words_are_words s : Forall is_word (words s).
Proof. by apply words_from_words. Qed.

Lemma words_from_word w s : forall word, str_forall (fun c => negb (is_space c)) w = true ->
  words_from word (w +:+ s) = words_from (str_rev w +:+ word) s.
Proof.
  induction w as [|c w IH]; intros word Hw; [done|]. rewrite str_app_cons. simpl in Hw. apply andb_prop in Hw as [Hc Hw].
  cbn [words_from]. apply negb_true_iff in Hc. rewrite Hc, (IH _ Hw), str_rev_cons, str_app_assoc. done.
Qed.


Lemma str_rev_app_distr s t : str_rev (s +:+ t) = str_rev t +:+ str_rev s.
Proof.
  induction s as [|c s IH]; [by rewrite str_app_nil|]. by rewrite str_app_cons, !str_rev_cons, IH, str_app_assoc.
Qed.

Lemma str_rev_involutive s : str_rev (str_rev s) = s.
Proof. induction s as [|c s IH]; [done|]. by rewrite str_rev_cons, str_rev_app_distr, IH. Qed.

(** Joining words and splitting again gives the words. *)
Lemma words_join ws : Forall is_word ws -> words (str_join " " ws) = ws.
Proof.
  unfold words. induction 1 as [|w ws [He Hw] Hws IH]; [done|].
  assert (forall v, str_isempty v = false -> str_rev v <> "") as Hrev.
  { intros v Hv E. apply (f_equal str_rev) in E. rewrite str_rev_involutive in E. by subst. }
  destruct ws as [|w' ws].
  - simpl. rewrite <- (str_app_nil w), (words_from_word _ _ _ Hw), !str_app_nil. cbn [words_from].
    destruct (str_isempty (str_rev w)) eqn:E; [|by rewrite str_rev_involutive].
    destruct (str_rev w) eqn:Er; [|done]. by apply Hrev in Er.
  - change (str_join " " (w :: w' :: ws)) with (w +:+ " " +:+ str_join " " (w' :: ws)).
    rewrite (words_from_word _ _ _ Hw), str_app_nil. rewrite str_app_cons. cbn [words_from].
    change (is_space " ") with true. cbv iota.
    destruct (str_isempty (str_rev w)) eqn:E; [destruct (str_rev w) eqn:Er; [by apply Hrev in Er|done]|].
    rewrite str_rev_involutive. simpl. f_equal. exact IH.
Qed.

(** Cleaned text has single spaces, between words only. *)
Lemma clean_text_normal unescape s : str_join " " (words (clean_text unescape s)) = clean_text unescape s.
Proof. unfold clean_text. by rewrite words_join by apply words_are_words. Qed.

Lemma elem_of_fromkeys {A} `{EqDecision A} (x : A) l : x ∈ fromkeys l <-> x ∈ l.
Proof. unfold fromkeys. rewrite (reverse_Permutation (remove_dups _)), elem_of_remove_dups. by rewrite (reverse_Permutation l). Qed.

(** The links of a page are distinct URLs of its host. *)
Lemma links_same_host unescape document page_url cards_only l :
  links unescape document page_url cards_only = Ok l ->
  NoDup l /\ exists host, netloc page_url = Ok host /\ Forall (fun url => netloc url = Ok host) l.
Proof.
  unfold links. intros (host & Hh & (candidates & _ & (hosts & Hc & [= <-])%bind_Ok)%bind_Ok)%bind_Ok. split.
  - unfold fromkeys. rewrite reverse_Permutation. apply NoDup_remove_dups.
  - exists host. split; [done|]. apply Forall_forall. intros url Hu. rewrite elem_of_fromkeys in Hu.
    apply list_elem_of_fmap in Hu as ([u h] & -> & [Hx Hz]%list_elem_of_filter). simpl in *. subst h.
    apply map_result_Forall in Hc. apply list_elem_of_lookup in Hz as [i Hz].
    apply lookup_zip_with_Some in Hz as (? & ? & [= <- <-] & H1 & H2).
    by destruct (Forall2_lookup_lr _ _ _ _ _ _ Hc H1 H2).
Qed.

(** The object read is a prefix of the text that ends in a closing brace. *)
Lemma balanced_prefix_prefix s : forall depth in_string escaped p,
  balanced_prefix depth in_string escaped s = Some p -> exists t, s = p +:+ t.
Proof.
  induction s as [|c s IH]; intros depth in_string escaped p H; [done|]. cbn [balanced_prefix] in H.
  repeat (case_match; simplify_eq); try (apply fmap_Some in H as (q & H & ->); apply IH in H as [t ->]; by exists t).
  by exists s.
Qed.

Lemma NoDup_dict_set {V} k (v : V) d : NoDup (map fst d) -> NoDup (map fst (dict_set k v d)).
Proof.
  assert (forall d k', k' ∈ map fst (dict_set k v d) -> k' = k \/ k' ∈ map fst d) as Hkeys.
  { intros d' k'. induction d' as [|[a b] d' IH]; simpl; [rewrite list_elem_of_singleton; auto|].
    case_bool_decide; simpl; [auto|]. rewrite !elem_of_cons. naive_solver. }
  induction d as [|[a b] d IH]; simpl; [intros _; apply NoDup_singleton|]. intros [Ha Hd]%NoDup_cons.
  case_bool_decide; simpl; apply NoDup_cons; [done|]. split; [|by apply IH]. by intros [->|?]%Hkeys.
Qed.

(** Every entry of a specification table passes its filter, under one name each. *)
Lemma specification_table_entries unescape document :
  NoDup (map fst (specification_table unescape document))
  /\ Forall (fun kv => specification kv.1 kv.2 = true) (specification_table unescape document).
Proof.
  unfold specification_table. cbv zeta. generalize (findall2 (rx re_IS "<tr[^>]*>\s*<t[hd][^>]*>(.*?)</t[hd]>\s*<t[hd][^>]*>(.*?)</t[hd]>\s*</tr>") document
    ++ findall2 (rx re_IS "<dt[^>]*>(.*?)</dt>\s*<dd[^>]*>(.*?)</dd>") document) as l. intros l.
  assert (NoDup (map fst ([] : list (string * string))) /\ Forall (fun kv => specification kv.1 kv.2 = true) ([] : list (string * string))) as H
    by (split; constructor).
  revert H. generalize ([] : list (string * string)) as acc. induction l as [|[n v] l IH]; intros acc [Hn Hf]; [done|].
  cbn [foldl]. destruct (specification _ _ && _) eqn:E; [|by apply IH]. apply andb_prop in E as [Es _].
  apply IH. split; [by apply NoDup_dict_set|by apply Forall_dict_set].
Qed.

(** * Nested microdata *)

Lemma opening_tag_first : exists f r, opening_tag = RSeq (RSet f) r.
Proof. eexists _, _. vm_compute. reflexivity. Qed.

Lemma opening_before_reads document n start opening :
  opening_before document n = Some (start, opening) ->
  start < end_at opening /\ (0 < String.length (str_drop (Z.to_nat start) document))%nat.
Proof.
  unfold opening_before. intros (i & Hi & H)%bind_Some. unfold match_from, match_here in H.
  destruct opening_tag_first as (f & r & E). rewrite E in H. cbn [backtrack ms_rest no_groups position] in H.
  assert (0 <= i) as Hi0.
  { unfold rfind in Hi. destruct (str_rpartition _ _) as [[before []] after]; simplify_eq. apply str_len_nonneg. }
  destruct (str_drop (Z.to_nat i) document) as [|c rest] eqn:Ed; [done|]. destruct (f c); [|done].
  destruct (backtrack r _ _) as [st'|] eqn:Eb; [|done]. injection H as <- <-. split; [|rewrite Ed; simpl; lia].
  apply backtrack_forward in Eb as (y & (t & _ & Ht) & [= ->]). unfold end_at. simpl in *. rewrite Ht. lia.
Qed.

Lemma length_str_drop n s : String.length (str_drop n s) = (String.length s - n)%nat.
Proof. revert n. induction s as [|c s IH]; intros [|n]; simpl; auto. Qed.

Lemma str_partition_length c s : (String.length ((str_partition c s).1.1) + (if (str_partition c s).1.2 then 1 else 0) <= String.length s)%nat.
Proof.
  induction s as [|d s IH]; simpl; [lia|]. case_bool_decide; simpl; [lia|].
  destruct (str_partition c s) as [[a []] b]; simpl in *; lia.
Qed.

Lemma microdata_scope_length text tag : (String.length (microdata_scope text tag) <= String.length text)%nat.
Proof.
  unfold microdata_scope. case_bool_decide.
  - pose proof (str_partition_length ">" text) as H'. destruct (str_partition ">" text) as [[before []] after]; simpl in *; [|lia].
    rewrite length_str_app. simpl. lia.
  - destruct (scope_end _ _); [|lia]. rewrite length_str_take. lia.
Qed.

Lemma foldl_ext {A B} (f g : A -> B -> A) l : (forall a b, f a b = g a b) -> forall a, foldl f a l = foldl g a l.
Proof. intros H. induction l as [|b l IH]; intros a; [done|]. simpl. by rewrite H. Qed.

(** The fuel of the recursion is enough: with more than the length of the fragment
    the result no longer depends on it. *)
Lemma microdata_read_fuel unescape n : forall k fragment,
  (String.length fragment < n)%nat -> (String.length fragment < k)%nat ->
  microdata_read_within unescape n fragment = microdata_read_within unescape k fragment.
Proof.
  induction n as [|n IH]; intros [|k] fragment Hn Hk; try lia. cbn [microdata_read_within]. f_equal. apply foldl_ext.
  intros [item skip_to] x. destruct (_ <? _); [done|].
  destruct (opening_before fragment (start_at x)) as [[start opening]|] eqn:E; [|done].
  destruct (words (group_text 1 x)) as [|name others]; [done|]. apply opening_before_reads in E as [E1 E2]. cbv zeta.
  destruct (_ || _); [|done]. rewrite (IH k); [done|..]; rewrite length_str_drop;
    pose proof (microdata_scope_length (str_drop (Z.to_nat start) fragment) (group_text 1 opening)) as Hs;
    rewrite length_str_drop in Hs, E2; lia.
Qed.

(** * An example *)

Module HtmlDemo.
(** [html.unescape] on a few references. *)
Definition unescape (s : string) : string := re_sub (rx no_flags "&amp;") "&" s.

Lemma page_example :
  let page := quoted ("<h1>Red <b>glaze</b> &amp; slip</h1><a href='/p?id=1&amp;order=asc'>x</a><a href=`http://other/q`>y</a>"
    +:+ "<table><tr><th>Cone:</th><td>6</td></tr><tr><td>Cookie</td><td>z</td></tr></table>"
    +:+ "<div itemscope itemtype=`https://schema.org/Product`><span itemprop=`name`>Glaze</span>"
    +:+ "<div itemprop=`offers` itemscope><meta itemprop=`price` content=`4.50`></div></div>") in
  links unescape page "http://shop/dir/" false = Ok ["http://shop/p"]
  /\ specification_table unescape page = [("Cone", "6")]
  /\ select unescape page {| df_selector := "h1"; df_attribute := None |} = Some "Red glaze & slip"
  /\ microdata_products unescape page
     = [[("name", JStr "Glaze"); ("offers", JDict [("price", JStr "4.50")]); ("@type", JStr "Product")]].
Proof. by vm_compute. Qed.
End HtmlDemo.
