(* ===== verification/Manifest.v ===== *)
(** The manifest of collected output ([catalogue-dump/.../ops/outputs.py]): the
    tables of lineages, pages, batches, dataset outcomes and artifacts, and the
    transactions over them that commit a page, seal a lineage and publish. *)
From S2P Require Export ArtifactStore CatalogueConnector.
From stdpp Require Export sorting.
From Stdlib Require Import Ascii.
Open Scope Z_scope.

(** * Tables *)

(** Source: catalogue-dump/ops/outputs.py, DatasetKey. *)
Record DatasetKey := { dk_dataset : string; dk_contract : string; dk_projector : string }.
#[export] Instance DatasetKey_eq_dec : EqDecision DatasetKey.
Proof. solve_decision. Defined.
#[export] Instance DatasetKey_countable : Countable DatasetKey.
Proof.
  refine (inj_countable' (fun k => (dk_dataset k, dk_contract k, dk_projector k))
    (fun '(d, c, p) => {| dk_dataset := d; dk_contract := c; dk_projector := p |}) _).
  by intros [].
Defined.

(** Source: catalogue-dump/ops/outputs.py, LineageRuntimeFormat. *)
Inductive LineageRuntimeFormat := CATALOGUE_V1 | COMMERCE_SCRAPER_V1.
#[export] Instance LineageRuntimeFormat_eq_dec : EqDecision LineageRuntimeFormat.
Proof. solve_decision. Defined.

(** The values the [status] column of a lineage admits. *)
Inductive LineageStatus := active | completed | limited | rejected | expired.
#[export] Instance LineageStatus_eq_dec : EqDecision LineageStatus.
Proof. solve_decision. Defined.
Definition lineage_status_name (s : LineageStatus) : string :=
  match s with
  | active => "active" | completed => "completed" | limited => "limited"
  | rejected => "rejected" | expired => "expired"
  end.

(** What identifies a lineage. Source: catalogue-dump/ops/outputs.py:267-272, create_lineage. *)
Record LineageIdentity := {
  li_source_id : string; li_source_url : string; li_connector : string; li_connector_version : string;
  li_config_fingerprint : string; li_dataset_fingerprint : string; li_dataset_selection : json;
  li_runtime_format : LineageRuntimeFormat; li_collection_request : option json;
  li_connector_options : option json; li_budget_state : json; li_expires_at : option Z;
}.
#[export] Instance LineageIdentity_eq_dec : EqDecision LineageIdentity.
Proof. solve_decision. Defined.

(** A row of [job_checkpoint_lineages]; of the connector configuration only the
    declared partitions are modelled.
    Source: src/catalogue-dump/src/mb_ceramics_catalogue/storage/schema/catalogue-schema.sql:938-965, catalogue.job_checkpoint_lineages. *)
Record Lineage := {
  l_identity : LineageIdentity;
  l_partitions : list string;
  l_status : LineageStatus;
  l_checksum : option string;
  l_created_at : Z;
}.
#[export] Instance eta_Lineage : Eta Lineage := fun l =>
  {| l_identity := l_identity l; l_partitions := l_partitions l; l_status := l_status l;
     l_checksum := l_checksum l; l_created_at := l_created_at l |}.

(** The key of a page: job, lineage, partition and page id. *)
Definition page_key : Type := Z * Z * string * string.

(** Source: src/catalogue-dump/src/mb_ceramics_catalogue/storage/schema/catalogue-schema.sql:1080-1095, catalogue.job_pages. *)
Record PageRow := {
  pg_key : page_key; pg_sequence : Z; pg_resume_after : option json; pg_terminal : bool;
  pg_intact : bool; pg_connector_version : string;
}.

(** Source: catalogue-dump/ops/outputs.py, PageBatch. *)
Record PageBatch := {
  pb_key : DatasetKey; pb_object_key : string; pb_sha256 : string; pb_size : Z; pb_records : Z;
}.
#[export] Instance PageBatch_eq_dec : EqDecision PageBatch.
Proof. solve_decision. Defined.

(** Source: catalogue-dump/ops/outputs.py, DatasetOutcome. *)
Record DatasetOutcome := {
  do_key : DatasetKey; do_state : string; do_records : Z; do_error : option string;
}.
#[export] Instance DatasetOutcome_eq_dec : EqDecision DatasetOutcome.
Proof. solve_decision. Defined.

(** Source: src/catalogue-dump/src/mb_ceramics_catalogue/storage/schema/catalogue-schema.sql:1028-1050, catalogue.job_page_batches. *)
Record BatchRow := { br_page : page_key; br_sequence : Z; br_batch : PageBatch }.
(** Source: src/catalogue-dump/src/mb_ceramics_catalogue/storage/schema/catalogue-schema.sql:1057-1073, catalogue.job_page_dataset_outcomes. *)
Record OutcomeRow := { or_page : page_key; or_sequence : Z; or_outcome : DatasetOutcome }.

(** Source: src/catalogue-dump/src/mb_ceramics_catalogue/storage/schema/catalogue-schema.sql:972-991, catalogue.job_datasets. *)
Record DatasetRow := {
  ds_state : string; ds_complete : bool; ds_records : Z; ds_rejected : Z; ds_error : option string;
  ds_promoted_at : option Z;
}.
#[export] Instance eta_DatasetRow : Eta DatasetRow := fun d =>
  {| ds_state := ds_state d; ds_complete := ds_complete d; ds_records := ds_records d;
     ds_rejected := ds_rejected d; ds_error := ds_error d; ds_promoted_at := ds_promoted_at d |}.

(** The manifest tables. Pages, batches and outcomes are in the order of their
    insertion; [m_now] is the transaction's clock. *)
Record Manifest := {
  m_now : Z;
  m_next_uuid : Z;
  m_jobs : gset Z;
  m_lineages : gmap (Z * Z) Lineage;
  m_pages : list PageRow;
  m_batches : list BatchRow;
  m_outcomes : list OutcomeRow;
  m_datasets : gmap (Z * DatasetKey) DatasetRow;
  m_artifacts : gmap (Z * DatasetKey * string) (Z * (string * string * Z));
}.
#[export] Instance eta_Manifest : Eta Manifest := fun m =>
  {| m_now := m_now m; m_next_uuid := m_next_uuid m; m_jobs := m_jobs m; m_lineages := m_lineages m;
     m_pages := m_pages m; m_batches := m_batches m; m_outcomes := m_outcomes m;
     m_datasets := m_datasets m; m_artifacts := m_artifacts m |}.

Abbreviation mdb := (eff Manifest pyexn).

Definition foreign_key_violation : pyexn := RuntimeError "foreign key violation".
Definition unique_violation : pyexn := RuntimeError "unique violation".
Definition check_violation : pyexn := RuntimeError "check violation".
(** Statements over the files of the store and over the tables. *)
Definition on_store {FS A : Type} (m : eff FS pyexn A) : eff (FS * Manifest) pyexn A := fun '(fs, t) =>
  let '(r, fs') := m fs in (r, (fs', t)).
Definition on_tables {FS A : Type} (m : mdb A) : eff (FS * Manifest) pyexn A := fun '(fs, t) =>
  let '(r, t') := m t in (r, (fs, t')).

(** * Datasets *)

(** Source: catalogue-dump/ops/outputs.py, declare_dataset. *)
Definition declare_dataset (job : Z) (key : DatasetKey) : mdb () := modify (fun m =>
  match m_datasets m !! (job, key) with
  | Some _ => m
  | None => m <| m_datasets := <[(job, key) := {| ds_state := "pending"; ds_complete := false; ds_records := 0;
              ds_rejected := 0; ds_error := None; ds_promoted_at := None |}]> (m_datasets m) |>
  end).

(** [update catalogue.job_datasets set ... where job_id = ... and ...] *)
Definition update_dataset (job : Z) (key : DatasetKey) (f : DatasetRow -> DatasetRow) : mdb () := modify (fun m =>
  m <| m_datasets := alter f (job, key) (m_datasets m) |>).

(** Source: catalogue-dump/ops/outputs.py:173-177, prepare_dataset_for_collection. *)
Definition restored_dataset (d : DatasetRow) : DatasetRow :=
  if bool_decide (ds_state d ∈ ["cancelled"; "degraded"])
  then d <| ds_state := if 0 <? ds_records d then "staged" else "pending" |>
         <| ds_complete := false |> <| ds_error := None |>
  else d.
(** Source: catalogue-dump/ops/outputs.py:182-186, prepare_dataset_for_collection. *)
Definition reset_dataset (d : DatasetRow) : DatasetRow :=
  {| ds_state := "pending"; ds_complete := false; ds_records := 0; ds_rejected := 0; ds_error := None;
     ds_promoted_at := None |}.

(** Source: catalogue-dump/ops/outputs.py, prepare_dataset_for_collection. *)
Definition prepare_dataset_for_collection (job : Z) (key : DatasetKey) (resuming : bool) : mdb () :=
  _ ← declare_dataset job key;
  update_dataset job key (if resuming then restored_dataset else reset_dataset).

(** Source: catalogue-dump/ops/outputs.py, pipeline_dataset_states. *)
Definition pipeline_dataset_state (m : Manifest) (job : Z) (key : DatasetKey) : string :=
  match m_datasets m !! (job, key) with
  | Some d => if bool_decide (ds_state d = "failed") then "failed" else "succeeded"
  | None => "succeeded"
  end.

(** Source: catalogue-dump/ops/outputs.py, finish_dataset. *)
Definition finish_dataset (job : Z) (key : DatasetKey) (state : string) (complete : bool) (rejected_ : Z)
    (error : option string) (promoted : bool) : mdb () :=
  _ ← lift (ensure (bool_decide (state ∈ ["succeeded"; "degraded"; "failed"; "cancelled"; "skipped"]))
        (ValueError ("invalid terminal dataset state " +:+ state)));
  now ← gets m_now;
  update_dataset job key (fun d =>
    {| ds_state := state; ds_complete := complete; ds_records := ds_records d; ds_rejected := rejected_;
       ds_error := error; ds_promoted_at := if promoted then Some now else ds_promoted_at d |}).

(** * Lineages *)

(** [where job_id = ... and checkpoint_lineage = ... for update] *)
Definition get_lineage (job lineage : Z) : mdb (option Lineage) := gets (fun m => m_lineages m !! (job, lineage)).
Definition set_lineage (job lineage : Z) (l : Lineage) : mdb () := modify (fun m =>
  m <| m_lineages := <[(job, lineage) := l]> (m_lineages m) |>).

Definition new_lineage_id : mdb Z := fun m => (Ok (m_next_uuid m), m <| m_next_uuid := m_next_uuid m + 1 |>).

(** The constraints of the row; those of the library runtime are in
    [catalogue-lineage-runtime-v1.sql]. Source: src/catalogue-dump/src/mb_ceramics_catalogue/storage/schema/catalogue-schema.sql:955-963, catalogue.job_checkpoint_lineages. *)
Definition lineage_checks (identity : LineageIdentity) (now : Z) : bool :=
  match li_expires_at identity with Some t => now <? t | None => true end
  && negb (str_isempty (li_connector identity)) && is_sha256 (li_config_fingerprint identity)
  && negb (str_isempty (li_connector_version identity)) && is_sha256 (li_dataset_fingerprint identity)
  && negb (str_isempty (li_source_id identity)) && negb (str_isempty (li_source_url identity))
  && (negb (bool_decide (li_runtime_format identity = COMMERCE_SCRAPER_V1))
      || match li_collection_request identity, li_connector_options identity with
         | Some (JDict _), Some (JDict _) => true | _, _ => false end).

(** Source: catalogue-dump/ops/outputs.py, create_lineage. *)
Definition create_lineage (job : Z) (identity : LineageIdentity) (partitions : list string) (lineage : option Z) : mdb Z :=
  _ ← lift (ensure (negb (bool_decide (li_runtime_format identity = COMMERCE_SCRAPER_V1)
                          && (is_none (li_collection_request identity) || is_none (li_connector_options identity))))
        (ValueError "commerce-scraper-v1 lineages require a durable request and connector options"));
  lineage ← match lineage with Some l => mret l | None => new_lineage_id end;
  now ← gets m_now;
  known ← gets (fun m => bool_decide (job ∈ m_jobs m));
  _ ← lift (ensure (lineage_checks identity now) check_violation);
  existing ← get_lineage job lineage;
  match existing with
  | None =>
      _ ← lift (ensure known foreign_key_violation);
      _ ← set_lineage job lineage {| l_identity := identity; l_partitions := partitions; l_status := active;
                                     l_checksum := None; l_created_at := now |};
      mret lineage
  | Some row =>
      _ ← lift (ensure (bool_decide (l_identity row = identity) && bool_decide (l_partitions row = partitions))
            (ValueError "checkpoint lineage identity changed"));
      mret lineage
  end.

(** [order by created_at, checkpoint_lineage] over the rows of a job that satisfy
    a condition. *)
Definition older (a b : Z * Lineage) : Prop :=
  (if bool_decide (l_created_at a.2 = l_created_at b.2) then a.1 <=? b.1 else l_created_at a.2 <? l_created_at b.2) = true.
#[export] Instance older_dec a b : Decision (older a b).
Proof. unfold older. apply _. Defined.
Definition lineages_of (m : Manifest) (job : Z) (f : Lineage -> bool) : list (Z * Lineage) :=
  merge_sort older (omap (fun '((j, lineage), l) => if bool_decide (j = job) && f l then Some (lineage, l) else None)
    (map_to_list (m_lineages m))).

(** The identity a search for a lineage compares.
    Source: catalogue-dump/ops/outputs.py:295-299, find_compatible_lineage. *)
Definition compatible (source_url connector version config_fingerprint dataset_fingerprint : string)
    (runtime : LineageRuntimeFormat) (now : Z) (l : Lineage) : bool :=
  bool_decide (li_source_url (l_identity l) = source_url) && bool_decide (li_runtime_format (l_identity l) = runtime)
  && bool_decide (li_connector (l_identity l) = connector) && bool_decide (li_connector_version (l_identity l) = version)
  && bool_decide (li_config_fingerprint (l_identity l) = config_fingerprint)
  && bool_decide (li_dataset_fingerprint (l_identity l) = dataset_fingerprint)
  && match li_expires_at (l_identity l) with None => true | Some t => now <? t end.

(** [order by created_at desc limit 1]; of equal times the later identifier.
    Source: catalogue-dump/ops/outputs.py, find_compatible_lineage. *)
Definition find_compatible_lineage (job : Z) (source_url connector version config_fingerprint dataset_fingerprint : string)
    (runtime : LineageRuntimeFormat) (m : Manifest) : option Z :=
  fst <$> last (lineages_of m job (fun l => bool_decide (l_status l = active)
    && compatible source_url connector version config_fingerprint dataset_fingerprint runtime (m_now m) l)).

(** [order by (status = 'active') desc, created_at desc limit 1].
    Source: catalogue-dump/ops/outputs.py, find_recoverable_library_lineage. *)
Definition find_recoverable_library_lineage (job : Z)
    (source_url connector version config_fingerprint dataset_fingerprint : string) (m : Manifest) : option Z :=
  let same := compatible source_url connector version config_fingerprint dataset_fingerprint COMMERCE_SCRAPER_V1 (m_now m) in
  coalesce (fst <$> last (lineages_of m job (fun l => bool_decide (l_status l = active) && same l)))
           (fst <$> last (lineages_of m job (fun l => bool_decide (l_status l ∈ [completed; limited]) && same l))).

(** [lock] also locks the parent job, so a transaction that asks for it runs
    alone; it requires the job.
    Source: catalogue-dump/ops/outputs.py, active_lineages_for_runtime. *)
Definition active_lineages_for_runtime (job : Z) (runtime : LineageRuntimeFormat) (lock : bool) : mdb (list Z) :=
  known ← gets (fun m => bool_decide (job ∈ m_jobs m));
  _ ← lift (ensure (negb lock || known) (ValueError "unknown checkpoint job"));
  gets (fun m => map fst (lineages_of m job (fun l =>
    bool_decide (li_runtime_format (l_identity l) = runtime) && bool_decide (l_status l = active)))).

(** Source: catalogue-dump/ops/outputs.py, LineageRuntimeConfiguration. *)
Record LineageRuntimeConfiguration := {
  rc_runtime_format : LineageRuntimeFormat;
  rc_collection_request : option (list (string * json));
  rc_connector_options : option (list (string * json));
}.

(** Source: catalogue-dump/ops/outputs.py, _optional_json_object. *)
Definition optional_json_object (value : option json) (field : string) : result pyexn (option (list (string * json))) :=
  match value with
  | None => Ok None
  | Some (JDict d) => Ok (Some d)
  | Some _ => Err (ValueError ("checkpoint lineage " +:+ field +:+ " must be a JSON object"))
  end.

(** Source: catalogue-dump/ops/outputs.py, lineage_runtime_configuration. *)
Definition lineage_runtime_configuration (job lineage : Z) (m : Manifest) : result pyexn LineageRuntimeConfiguration :=
  match m_lineages m !! (job, lineage) with
  | None => Err (ValueError "unknown checkpoint lineage")
  | Some l =>
      request ← optional_json_object (li_collection_request (l_identity l)) "collection_request";
      options ← optional_json_object (li_connector_options (l_identity l)) "connector_options";
      Ok {| rc_runtime_format := li_runtime_format (l_identity l); rc_collection_request := request;
            rc_connector_options := options |}
  end.

(** Source: catalogue-dump/ops/outputs.py, reject_lineage. *)
Definition reject_lineage (job lineage : Z) : mdb bool :=
  row ← get_lineage job lineage;
  match row with
  | Some l => if bool_decide (l_status l = active)
              then _ ← set_lineage job lineage (l <| l_status := rejected |>); mret true
              else mret false
  | None => mret false
  end.

(** * Committing a page *)

(** The arguments of [commit_page] that make up the page. *)
Record PageCommit := {
  pc_partition : string; pc_page_id : string; pc_sequence : Z; pc_resume_after : option json;
  pc_terminal : bool; pc_intact : bool; pc_connector_version : string;
  pc_batches : list PageBatch; pc_outcomes : list DatasetOutcome;
}.

Section page.
Context (job lineage : Z) (c : PageCommit).

Definition this_page : page_key := (job, lineage, pc_partition c, pc_page_id c).

(** Source: catalogue-dump/ops/outputs.py:520-530, commit_page. *)
Definition page_row : PageRow :=
  {| pg_key := this_page; pg_sequence := pc_sequence c; pg_resume_after := pc_resume_after c;
   pg_terminal := pc_terminal c; pg_intact := pc_intact c; pg_connector_version := pc_connector_version c |}.

Definition page_at (m : Manifest) (k : page_key) : option PageRow :=
  head (filter (fun p => pg_key p = k) (m_pages m)).
Definition partition_pages (m : Manifest) (partition : string) : list PageRow :=
  filter (fun p => (pg_key p).1 = (job, lineage, partition)) (m_pages m).
Definition lineage_pages (m : Manifest) : list PageRow :=
  filter (fun p => (pg_key p).1.1 = (job, lineage)) (m_pages m).
Definition page_batches (m : Manifest) (k : page_key) : list PageBatch :=
  map br_batch (filter (fun b => br_page b = k) (m_batches m)).
Definition page_outcomes (m : Manifest) (k : page_key) : list DatasetOutcome :=
  map or_outcome (filter (fun o => or_page o = k) (m_outcomes m)).

(** [order by dataset, contract_version, projector_version] *)
Definition key_le (a b : DatasetKey) : bool :=
  if bool_decide (dk_dataset a = dk_dataset b)
  then if bool_decide (dk_contract a = dk_contract b) then str_le (dk_projector a) (dk_projector b)
     else str_le (dk_contract a) (dk_contract b)
  else str_le (dk_dataset a) (dk_dataset b).
Definition before {A} (key : A -> DatasetKey) (a b : A) : Prop := key_le (key a) (key b) = true.
#[local] Instance before_dec {A} (key : A -> DatasetKey) a b : Decision (before key a b).
Proof. unfold before. apply _. Defined.
Definition sort_by_key {A} (key : A -> DatasetKey) (l : list A) : list A := merge_sort (before key) l.

(** A cursor is compared as the connector wrote it, key order included. The code compares
    the Python values, to which the order of the keys of a dict does not matter; a
    connector writes the keys of its cursors in one order, so the two agree on the pages
    of a connector.
    Source: catalogue-dump/ops/outputs.py, _verify_replay. *)
Definition verify_replay (existing : PageRow) : mdb () :=
  _ ← lift (ensure (bool_decide (pg_sequence existing = pc_sequence c)
      && bool_decide (pg_resume_after existing = pc_resume_after c)
      && bool_decide (pg_terminal existing = pc_terminal c) && bool_decide (pg_intact existing = pc_intact c)
      && bool_decide (pg_connector_version existing = pc_connector_version c))
      (ValueError "page replay differs from committed manifest"));
  batches ← gets (fun m => page_batches m this_page);
  _ ← lift (ensure (bool_decide (sort_by_key pb_key batches = sort_by_key pb_key (pc_batches c)))
      (ValueError "page replay differs from committed dataset batches"));
  outcomes ← gets (fun m => page_outcomes m this_page);
  lift (ensure (bool_decide (sort_by_key do_key outcomes = sort_by_key do_key (pc_outcomes c)))
      (ValueError "page replay differs from committed dataset outcomes")).

(** Source: src/catalogue-dump/src/mb_ceramics_catalogue/storage/schema/catalogue-schema.sql:1042-1049, catalogue.job_page_batches. *)
Definition batch_checks (b : PageBatch) : bool :=
  negb (str_isempty (pb_object_key b)) && (0 <=? pb_records b) && is_sha256 (pb_sha256 b) && (0 <=? pb_size b).

(** The insertion of one batch, with the unique and foreign keys of its table.
    Source: catalogue-dump/ops/outputs.py:531-543, commit_page. *)
Definition insert_batch (b : PageBatch) : mdb () :=
  m ← gets id;
  _ ← lift (ensure (batch_checks b) check_violation);
  _ ← lift (ensure (bool_decide (is_Some (m_datasets m !! (job, pb_key b)))) foreign_key_violation);
  _ ← lift (ensure (negb (existsb (fun r => bool_decide (br_page r = this_page) && bool_decide (pb_key (br_batch r) = pb_key b))
                          (m_batches m))
                  && negb (existsb (fun r => bool_decide (pb_object_key (br_batch r) = pb_object_key b)) (m_batches m)))
      unique_violation);
  modify (fun m => m <| m_batches := m_batches m ++
  [{| br_page := this_page; br_sequence := pc_sequence c; br_batch := b |}] |>).

Fixpoint for_each {A} (f : A -> mdb ()) (l : list A) : mdb () :=
  match l with [] => mret () | x :: r => _ ← f x; for_each f r end.

(** [{batch.key: batch.records for batch in batches}] *)
Definition batch_records : gmap DatasetKey Z :=
  foldl (fun acc b => <[pb_key b := pb_records b]> acc) ∅ (pc_batches c).

(** What an outcome does to its dataset.
    Source: catalogue-dump/ops/outputs.py:650-686, _record_outcomes. *)
Definition settle_outcome (o : DatasetOutcome) : mdb () :=
  if bool_decide (do_state o = "succeeded")
  then update_dataset job (do_key o) (fun d =>
       if bool_decide (ds_state d = "failed") then d
       else d <| ds_state := if bool_decide (ds_state d = "pending") then "staged" else ds_state d |>
              <| ds_records := ds_records d + do_records o |>)
  else if bool_decide (do_state o = "failed")
  then update_dataset job (do_key o) (fun d =>
       d <| ds_state := "failed" |> <| ds_complete := false |> <| ds_error := coalesce (ds_error d) (do_error o) |>)
  else current ← gets (fun m => m_datasets m !! (job, do_key o));
     lift (ensure (bool_decide (ds_state <$> current = Some "failed"))
       (ValueError "a skipped projector must already be failed")).

(** One outcome: its checks, its row and its effect.
    Source: catalogue-dump/ops/outputs.py:633-686, _record_outcomes. *)
Definition record_outcome (o : DatasetOutcome) : mdb () :=
  _ ← lift (ensure (bool_decide (do_state o ∈ ["succeeded"; "failed"; "skipped"]))
      (ValueError ("invalid dataset page outcome " +:+ do_state o)));
  _ ← lift (ensure (negb (bool_decide (do_state o = "failed"))
      || match do_error o with Some e => negb (str_isempty e) | None => false end)
      (ValueError "failed dataset outcome requires an error"));
  _ ← lift (ensure (negb (bool_decide (do_state o = "succeeded"))
      || bool_decide (batch_records !! do_key o = Some (do_records o)))
      (ValueError "successful outcome record count differs from its batch"));
  m ← gets id;
  _ ← lift (ensure (0 <=? do_records o) check_violation);
  _ ← lift (ensure (bool_decide (is_Some (m_datasets m !! (job, do_key o)))) foreign_key_violation);
  _ ← lift (ensure (negb (existsb (fun r => bool_decide (or_page r = this_page) && bool_decide (do_key (or_outcome r) = do_key o))
                          (m_outcomes m))) unique_violation);
  _ ← modify (fun m => m <| m_outcomes := m_outcomes m ++
      [{| or_page := this_page; or_sequence := pc_sequence c; or_outcome := o |}] |>);
  settle_outcome o.

(** Source: catalogue-dump/ops/outputs.py, _record_outcomes. *)
Definition record_outcomes : mdb () :=
  _ ← lift (ensure (bool_decide (dom batch_records
        = list_to_set (map do_key (filter (fun o => do_state o = "succeeded") (pc_outcomes c)))))
      (ValueError "successful outcomes and staged batches do not match"));
  for_each record_outcome (pc_outcomes c).

(** Source: catalogue-dump/ops/outputs.py:472-484, commit_page. *)
Definition declare_partition (l : Lineage) : mdb () :=
  if bool_decide (pc_partition c ∈ l_partitions l) then mret ()
  else set_lineage job lineage (l <| l_partitions := l_partitions l ++ [pc_partition c] |>).

(** Source: catalogue-dump/ops/outputs.py:503-518, commit_page. *)
Definition may_append (m : Manifest) : result pyexn () :=
  let pages := partition_pages m (pc_partition c) in
  _ ← ensure (negb (existsb pg_terminal pages)) (ValueError "cannot append after a terminal page");
  ensure (forallb (fun p => pg_sequence p <? pc_sequence c) pages)
  (ValueError "page sequence must increase monotonically").

(** The statements of the transaction once its lineage is locked and the page is
    new. Source: catalogue-dump/ops/outputs.py:503-553, commit_page. *)
Definition append_page : mdb bool :=
  m ← gets id;
  _ ← lift (may_append m);
  _ ← lift (ensure ((0 <=? pc_sequence c) && negb (str_isempty (pc_page_id c)) && negb (str_isempty (pc_partition c))
                  && negb (str_isempty (pc_connector_version c))) check_violation);
  _ ← modify (fun m => m <| m_pages := m_pages m ++ [page_row] |>);
  _ ← for_each insert_batch (pc_batches c);
  _ ← record_outcomes;
  mret true.

(** [True] for a new page, [False] for an exact replay.
    Source: catalogue-dump/ops/outputs.py, commit_page. *)
Definition commit_page (declare : bool) : mdb bool := atomically (
  row ← get_lineage job lineage;
  match row with
  | None => throw (ValueError "unknown checkpoint lineage")
  | Some l =>
    _ ← lift (ensure (bool_decide (l_status l = active))
          (ValueError ("checkpoint lineage is " +:+ lineage_status_name (l_status l))));
    _ ← lift (ensure (bool_decide (li_connector_version (l_identity l) = pc_connector_version c))
          (ValueError "connector version does not match checkpoint lineage"));
    _ ← (if declare then declare_partition l else mret ());
    existing ← gets (fun m => page_at m this_page);
    match existing with
    | Some p => _ ← verify_replay p; mret false
    | None => append_page
    end
  end).
End page.

(** * Progress of a lineage *)

(** Source: catalogue-dump/ops/outputs.py, LineageProgressState. *)
Inductive LineageProgressState := EMPTY | RESUMABLE | TERMINAL_INTACT | TERMINAL_LIMITED | TERMINAL_INCOMPLETE.
#[export] Instance LineageProgressState_eq_dec : EqDecision LineageProgressState.
Proof. solve_decision. Defined.

(** Source: catalogue-dump/ops/outputs.py, LineageProgress. *)
Record LineageProgress := { lp_state : LineageProgressState; lp_checkpoint : option ConnectorCheckpoint }.

(** [order.get(partition, len(order))]; of a name declared twice the last position
    counts. Source: catalogue-dump/ops/outputs.py, _partition_order. *)
Fixpoint last_index (name : string) (l : list string) (i : nat) : option nat :=
  match l with
  | [] => None
  | x :: r => match last_index name r (S i) with
              | Some j => Some j
              | None => if bool_decide (x = name) then Some i else None
              end
  end.
Definition partition_order (partitions : list string) (name : string) : nat :=
  default (length (remove_dups partitions)) (last_index name partitions 0).

(** The rank of a page: partition, sequence, id.
    Source: catalogue-dump/ops/outputs.py:920-927, lineage_progress. *)
Definition rank_le (partitions : list string) (p q : PageRow) : bool :=
  let i := partition_order partitions (pg_key p).1.2 in
  let j := partition_order partitions (pg_key q).1.2 in
  if bool_decide (i = j)
  then if bool_decide (pg_sequence p = pg_sequence q) then str_le (pg_key p).2 (pg_key q).2
       else pg_sequence p <? pg_sequence q
  else (i <? j)%nat.

(** [max(pages, key=...)]: the first of the greatest.
    Source: catalogue-dump/ops/outputs.py:914-927, lineage_progress. *)
Definition latest_page (partitions : list string) (pages : list PageRow) : option PageRow :=
  match pages with
  | [] => None
  | p :: r => Some (foldl (fun best q => if rank_le partitions q best then best else q) p r)
  end.

(** The cursor of the latest page as a checkpoint of the lineage's runtime.
    Source: catalogue-dump/ops/outputs.py:928-949, lineage_progress. *)
Definition lineage_checkpoint (lineage : Z) (l : Lineage) (cursor : json) : result pyexn ConnectorCheckpoint :=
  let checkpoint :=
    {| k_connector := li_connector (l_identity l); k_connector_version := li_connector_version (l_identity l);
       k_source_id := li_source_id (l_identity l); k_lineage := pretty lineage;
       k_fingerprint := li_config_fingerprint (l_identity l); k_resume_after := cursor |} in
  if bool_decide (li_runtime_format (l_identity l) = COMMERCE_SCRAPER_V1) then new_checkpoint checkpoint
  else new_catalogue_checkpoint checkpoint.

(** Source: catalogue-dump/ops/outputs.py, lineage_progress. *)
Definition lineage_progress (job lineage : Z) (m : Manifest) : result pyexn LineageProgress :=
  match m_lineages m !! (job, lineage) with
  | None => Err (ValueError "unknown checkpoint lineage")
  | Some l =>
      _ ← ensure (negb (bool_decide (l_status l ∈ [rejected; expired])))
            (ValueError ("checkpoint lineage is " +:+ lineage_status_name (l_status l)));
      let sealed_limited := bool_decide (l_status l = limited) in
      match latest_page (l_partitions l) (lineage_pages job lineage m) with
      | None => if sealed_limited then Err (ValueError "limited checkpoint lineage has no committed page")
                else Ok {| lp_state := EMPTY; lp_checkpoint := None |}
      | Some latest =>
          if sealed_limited then Ok {| lp_state := TERMINAL_LIMITED; lp_checkpoint := None |}
          else match pg_resume_after latest with
               | Some cursor => c ← lineage_checkpoint lineage l cursor;
                                Ok {| lp_state := RESUMABLE; lp_checkpoint := Some c |}
               | None =>
                   Ok {| lp_state := if pg_terminal latest
                                     then if pg_intact latest then TERMINAL_INTACT else TERMINAL_INCOMPLETE
                                     else EMPTY;
                         lp_checkpoint := None |}
               end
      end
  end.

Definition by_rank (a b : nat * string) : Prop := (a.1 <= b.1)%nat.
#[export] Instance by_rank_dec a b : Decision (by_rank a b).
Proof. unfold by_rank. apply _. Defined.

(** Source: catalogue-dump/ops/outputs.py, declared_partitions. *)
Definition declared_partitions (job lineage : Z) (m : Manifest) : result pyexn (list string) :=
  match m_lineages m !! (job, lineage) with
  | None => Err (ValueError "unknown checkpoint lineage")
  | Some l => Ok (map snd (merge_sort by_rank
      (map (fun name => (partition_order (l_partitions l) name, name)) (remove_dups (l_partitions l)))))
  end.

(** Source: catalogue-dump/ops/outputs.py, resume_checkpoint. *)
Definition resume_checkpoint (job lineage : Z) (m : Manifest) : result pyexn (option ConnectorCheckpoint) :=
  p ← lineage_progress job lineage m;
  _ ← ensure (negb (bool_decide (lp_state p = TERMINAL_INCOMPLETE)))
        (ValueError "incomplete terminal checkpoint requires a new lineage");
  Ok (lp_checkpoint p).

(** * Sealing *)

(** The partitions with pages: name, terminal, intact.
    Source: catalogue-dump/ops/outputs.py:727-741, complete_lineage. *)
Definition partitions_of_pages (pages : list PageRow) : gset string := list_to_set (map (fun p => (pg_key p).1.2) pages).
Definition partition_complete (pages : list PageRow) (name : string) : bool :=
  let of_partition := filter (fun p => (pg_key p).1.2 = name) pages in
  existsb pg_terminal of_partition && forallb pg_intact of_partition.

Definition seal (job lineage : Z) (l : Lineage) (status : LineageStatus) (checksum : string) : mdb bool :=
  _ ← lift (ensure (is_sha256 checksum) check_violation);
  _ ← set_lineage job lineage (l <| l_status := status |> <| l_checksum := Some checksum |>); mret true.

(** Source: catalogue-dump/ops/outputs.py, complete_lineage. *)
Definition complete_lineage (job lineage : Z) (expected : list string) (checksum : string) : mdb bool := atomically (
  current ← get_lineage job lineage;
  match current with
  | None => throw (ValueError "unknown checkpoint lineage")
  | Some l =>
      if bool_decide (l_status l = completed)
      then _ ← lift (ensure (bool_decide (l_checksum l = Some checksum)) (ValueError "completed checkpoint checksum changed"));
           mret false
      else
        _ ← lift (ensure (bool_decide (l_status l = active))
              (ValueError ("checkpoint lineage is " +:+ lineage_status_name (l_status l))));
        pages ← gets (lineage_pages job lineage);
        _ ← lift (ensure (bool_decide (NoDup expected)) (ValueError "checkpoint partition manifest contains duplicates"));
        _ ← lift (ensure (bool_decide (partitions_of_pages pages = list_to_set expected))
              (ValueError "checkpoint partition manifest is incomplete"));
        _ ← lift (ensure (forallb (partition_complete pages) expected)
              (ValueError "checkpoint enumeration is not intact and terminal"));
        seal job lineage l completed checksum
  end).

(** Source: catalogue-dump/ops/outputs.py, complete_limited_lineage. *)
Definition complete_limited_lineage (job lineage : Z) (checksum : string) : mdb bool := atomically (
  current ← get_lineage job lineage;
  match current with
  | None => throw (ValueError "unknown checkpoint lineage")
  | Some l =>
      if bool_decide (l_status l = limited)
      then _ ← lift (ensure (bool_decide (l_checksum l = Some checksum)) (ValueError "limited checkpoint checksum changed"));
           mret false
      else
        _ ← lift (ensure (bool_decide (l_status l = active))
              (ValueError ("checkpoint lineage is " +:+ lineage_status_name (l_status l))));
        pages ← gets (lineage_pages job lineage);
        match latest_page (l_partitions l) pages with
        | None => throw (ValueError "limited checkpoint lineage has no committed page")
        | Some latest =>
            _ ← lift (ensure (is_some (pg_resume_after latest) && pg_terminal latest && negb (pg_intact latest))
                  (ValueError "limited checkpoint lineage must end at a resumable incomplete terminal page"));
            seal job lineage l limited checksum
        end
  end).

(** Source: catalogue-dump/ops/outputs.py, aggregate_job_state. *)
Definition aggregate_job_state (states : list string) (was_cancelled : bool) : string :=
  if was_cancelled then "cancelled"
  else if bool_decide (states = []) then "failed"
  else
    let usable := length (filter (fun s => s ∈ ["succeeded"; "degraded"]) states) in
    if bool_decide (usable = length states) && forallb (fun s => bool_decide (s = "succeeded")) states then "succeeded"
    else if bool_decide (usable <> 0%nat) then "degraded" else "failed".

(** * Publication *)

(** [order by page_sequence, page_id], then by partition order.
    Source: catalogue-dump/ops/outputs.py:993-998, reconstruct_batches. *)
Definition row_le (partitions : list string) (a b : BatchRow) : Prop :=
  let i := partition_order partitions (br_page a).1.2 in
  let j := partition_order partitions (br_page b).1.2 in
  (if bool_decide (i = j)
   then if bool_decide (br_sequence a = br_sequence b) then str_le (br_page a).2 (br_page b).2
        else br_sequence a <? br_sequence b
   else (i <? j)%nat) = true.
#[export] Instance row_le_dec partitions a b : Decision (row_le partitions a b).
Proof. unfold row_le. apply _. Defined.

(** The batch of a row.
    Source: catalogue-dump/ops/outputs.py:999-1017, reconstruct_batches. *)
Definition stored_batch (job lineage : Z) (key : DatasetKey) (r : BatchRow) : StoredBatch :=
  {| sb_object := {| so_location := pb_object_key (br_batch r); so_sha256 := pb_sha256 (br_batch r);
                     so_size := pb_size (br_batch r); so_records := pb_records (br_batch r) |};
     sb_identity := {| bi_job_id := pretty job; bi_lineage := pretty lineage; bi_partition := (br_page r).1.2;
                       bi_page_id := (br_page r).2; bi_sequence := br_sequence r; bi_dataset := dk_dataset key;
                       bi_contract := dk_contract key; bi_projector := dk_projector key |} |}.

(** Source: catalogue-dump/ops/outputs.py, reconstruct_batches. *)
Definition reconstruct_batches (job lineage : Z) (key : DatasetKey) (m : Manifest) : result pyexn (list StoredBatch) :=
  match m_lineages m !! (job, lineage) with
  | None => Err (ValueError "unknown checkpoint lineage")
  | Some l => Ok (map (stored_batch job lineage key) (merge_sort (row_le (l_partitions l))
      (filter (fun b => (br_page b).1.1 = (job, lineage) /\ pb_key (br_batch b) = key) (m_batches m))))
  end.

(** Source: catalogue-dump/ops/outputs.py, register_artifact. *)
Definition register_artifact (job : Z) (key : DatasetKey) (artifact : StoredObject) (kind : string) : mdb Z :=
  let stored := (so_location artifact, so_sha256 artifact, so_size artifact) in
  existing ← gets (fun m => m_artifacts m !! (job, key, kind));
  match existing with
  | None => id ← new_lineage_id;
            _ ← modify (fun m => m <| m_artifacts := <[(job, key, kind) := (id, stored)]> (m_artifacts m) |>); mret id
  | Some (id, row) =>
      _ ← lift (ensure (bool_decide (row = stored)) (ValueError "published artifact identity changed")); mret id
  end.

(** Source: catalogue-dump/ops/outputs.py:1080-1086, publish_dataset. *)
Definition published_dataset (d : DatasetRow) : DatasetRow :=
  if bool_decide (ds_state d = "failed") then d else d <| ds_state := "published" |> <| ds_complete := true |>.

(** [store.publish_dataset] runs on the files of the store, the rest on the tables.
    Source: catalogue-dump/ops/outputs.py, publish_dataset. *)
Definition publish_lineage_dataset {FS : Type} `{!ArtifactStore FS} (job lineage : Z) (key : DatasetKey) (kind : string)
    : eff (FS * Manifest) pyexn StoredObject :=
  m ← gets snd;
  _ ← lift (ensure (match m_lineages m !! (job, lineage) with
                    | Some l => bool_decide (l_status l ∈ [completed; limited]) | None => false end)
        (ValueError "only a completed or limited checkpoint lineage can be published"));
  batches ← lift (reconstruct_batches job lineage key m);
  artifact ← on_store (publish_dataset (pretty job) (dk_dataset key) (dk_contract key) batches);
  _ ← on_tables (register_artifact job key artifact kind);
  _ ← on_tables (update_dataset job key published_dataset);
  mret artifact.

(** * The committer of a pipeline *)

(** [DatasetPageOutcome] of [pipeline/runner.py]. Source: catalogue-dump/pipeline/runner.py, DatasetPageState. *)
Inductive DatasetPageState := SUCCEEDED | FAILED | SKIPPED.
#[export] Instance DatasetPageState_eq_dec : EqDecision DatasetPageState.
Proof. solve_decision. Defined.
Definition page_state_name (s : DatasetPageState) : string :=
  match s with SUCCEEDED => "succeeded" | FAILED => "failed" | SKIPPED => "skipped" end.

(** Source: catalogue-dump/pipeline/runner.py, DatasetPageOutcome. *)
Record DatasetPageOutcome := { po_dataset : string; po_state : DatasetPageState; po_records : Z; po_error : option string }.

Section committer.
Context {T : Type} (job lineage : Z) (version : string) (datasets : list (string * DatasetKey)) (dynamic : bool).

(** Source: catalogue-dump/ops/outputs.py:106-128, PostgresPageCommitter.commit_page. *)
Definition convert_batch (page : EntityPage T) (b : StoredBatch) : result pyexn PageBatch :=
  let i := sb_identity b in
  _ ← ensure (bool_decide ((bi_job_id i, bi_lineage i, bi_partition i, bi_page_id i, bi_sequence i)
      = (pretty job : string, pretty lineage : string, p_partition_key page, p_page_id page, p_sequence page)))
      (ValueError "stored batch identity does not match page commit");
  Ok {| pb_key := {| dk_dataset := bi_dataset i; dk_contract := bi_contract i; dk_projector := bi_projector i |};
      pb_object_key := so_location b; pb_sha256 := so_sha256 b; pb_size := so_size b; pb_records := so_records b |}.

(** Source: catalogue-dump/ops/outputs.py:130-137, PostgresPageCommitter.commit_page. *)
Definition convert_outcome (o : DatasetPageOutcome) : result pyexn DatasetOutcome :=
  match dict_get (po_dataset o) datasets with
  | None => Err (ValueError ("outcome for undeclared dataset " +:+ po_dataset o))
  | Some key => Ok {| do_key := key; do_state := page_state_name (po_state o); do_records := po_records o;
                    do_error := po_error o |}
  end.

(** Source: catalogue-dump/ops/outputs.py:138-152, PostgresPageCommitter.commit_page. *)
Definition page_commit (page : EntityPage T) (batches : list PageBatch) (outcomes : list DatasetOutcome) : PageCommit :=
  {| pc_partition := p_partition_key page; pc_page_id := p_page_id page; pc_sequence := p_sequence page;
   pc_resume_after := p_resume_after page; pc_terminal := p_partition_terminal page || p_terminal page;
   pc_intact := p_enumeration_intact page; pc_connector_version := version;
   pc_batches := batches; pc_outcomes := outcomes |}.

(** Source: catalogue-dump/ops/outputs.py, PostgresPageCommitter.commit_page. *)
Definition commit_entity_page (page : EntityPage T) (batches : list StoredBatch) (outcomes : list DatasetPageOutcome) : mdb () :=
  batches ← lift (map_result (convert_batch page) batches);
  outcomes ← lift (map_result convert_outcome outcomes);
  _ ← commit_page job lineage (page_commit page batches outcomes) dynamic;
  mret ().
End committer.
