(* ===== verification/ManifestHistory.v ===== *)
(** Histories of the manifest: what a committed page writes, how every operation
    lets the tables grow, and the invariant they keep. *)
From S2P Require Export Manifest.
From Stdlib Require Import Ascii.
Open Scope Z_scope.

(** * Loops over statements *)

Lemma for_each_ind {A} (f : A -> mdb ()) (P : list A -> Manifest -> Manifest -> Prop) :
  (forall m, P [] m m) ->
  (forall x l m m1 m2, f x m = (Ok (), m1) -> P l m1 m2 -> P (x :: l) m m2) ->
  forall l m m', for_each f l m = (Ok (), m') -> P l m m'.
Proof.
  intros H0 Hs l. induction l as [|x l IH]; intros m m' H; cbn [for_each] in H.
  - unfold mret, eff_ret in H. simplify_eq. apply H0.
  - apply bind_inv in H as ([] & m1 & H1 & H). eauto.
Qed.

(** * What appending a page writes *)

Section append.
Context (job lineage : Z) (c : PageCommit).
#[local] Abbreviation k := (this_page job lineage c).

Definition batch_row (b : PageBatch) : BatchRow := {| br_page := k; br_sequence := pc_sequence c; br_batch := b |}.
Definition outcome_row (o : DatasetOutcome) : OutcomeRow := {| or_page := k; or_sequence := pc_sequence c; or_outcome := o |}.

(** The unique keys of the batch and the outcome tables. *)
Definition batch_key (r : BatchRow) : page_key * DatasetKey := (br_page r, pb_key (br_batch r)).
Definition outcome_key (r : OutcomeRow) : page_key * DatasetKey := (or_page r, do_key (or_outcome r)).
Definition unique_batches (m : Manifest) : Prop :=
  NoDup (map batch_key (m_batches m)) /\ NoDup (map (fun r => pb_object_key (br_batch r)) (m_batches m)).
Definition unique_outcomes (m : Manifest) : Prop := NoDup (map outcome_key (m_outcomes m)).

(** Only the rows of a page and the state of datasets differ. *)
Record same_tables (m m' : Manifest) : Prop := {
  st_jobs : m_jobs m' = m_jobs m;
  st_lineages : m_lineages m' = m_lineages m;
  st_datasets key : is_Some (m_datasets m !! key) <-> is_Some (m_datasets m' !! key);
  st_artifacts : m_artifacts m' = m_artifacts m;
}.

Lemma same_tables_refl m : same_tables m m.
Proof. done. Qed.
Lemma same_tables_trans m1 m2 m3 : same_tables m1 m2 -> same_tables m2 m3 -> same_tables m1 m3.
Proof. intros [] []. split; try congruence. intros key. by rewrite st_datasets0. Qed.

Lemma existsb_false {A} (f : A -> bool) l : existsb f l = false -> forall x, x ∈ l -> f x = false.
Proof.
  intros H x Hx. destruct (f x) eqn:E; [|done]. apply list_elem_of_In in Hx.
  rewrite <- not_true_iff_false, existsb_exists in H. by destruct H; exists x.
Qed.

(** A row found contradicts the absence that was checked. *)
Ltac absent_row Hr :=
  match goal with H : existsb _ _ = false |- _ =>
  let Ha := fresh in pose proof (existsb_false _ _ H _ Hr) as Ha; cbn beta in Ha;
  rewrite !bool_decide_true in Ha by congruence; done
  end.

Lemma NoDup_snoc {A} (l : list A) x : NoDup l -> x ∉ l -> NoDup (l ++ [x]).
Proof. intros. apply NoDup_app. split_and!; [done|set_solver|apply NoDup_singleton]. Qed.

Lemma insert_batch_Ok b m m' :
  insert_batch job lineage c b m = (Ok (), m') ->
  same_tables m m' /\ m_pages m' = m_pages m /\ m_outcomes m' = m_outcomes m
  /\ m_batches m' = m_batches m ++ [batch_row b]
  /\ is_Some (m_datasets m !! (job, pb_key b)) /\ batch_checks b = true
  /\ (unique_batches m -> unique_batches m').
Proof.
  unfold insert_batch. intros H. eff_inv H. unfold id, modify in *. simplify_eq. bool_facts.
  split_and!; [done..|]. intros [Hk Ho]. unfold unique_batches. simpl. rewrite !map_app.
  split; apply NoDup_snoc; try done; rewrite list_elem_of_fmap; intros (r & E & Hr).
  - unfold batch_key in E. injection E as E1 E2. cbn in *. absent_row Hr.
  - cbn in E. absent_row Hr.
Qed.

Lemma insert_batches_Ok bs m m' :
  for_each (insert_batch job lineage c) bs m = (Ok (), m') ->
  same_tables m m' /\ m_pages m' = m_pages m /\ m_outcomes m' = m_outcomes m
  /\ m_batches m' = m_batches m ++ map batch_row bs
  /\ Forall (fun b => is_Some (m_datasets m !! (job, pb_key b))) bs
  /\ (unique_batches m -> unique_batches m').
Proof.
  revert bs m m'. apply for_each_ind.
  - intros m. split_and!; try done. by rewrite app_nil_r.
  - intros b l m m1 m2 (H1 & H2 & H3 & H4 & H5 & _ & H6)%insert_batch_Ok (J1 & J2 & J3 & J4 & J5 & J6).
  split_and!; [by eapply same_tables_trans|congruence..| | |by auto].
  + rewrite J4, H4, <- app_assoc. done.
  + constructor; [done|]. eapply Forall_impl; [exact J5|]. intros b'. by rewrite <- (st_datasets _ _ H1).
Qed.

Lemma update_dataset_same j key f m : same_tables m (update_dataset j key f m).2.
Proof.
  split; try done. intros key'. simpl. destruct (decide (key' = (j, key))) as [->|].
  - rewrite lookup_alter_eq. by rewrite fmap_is_Some.
  - by rewrite lookup_alter_ne.
Qed.

Lemma settle_outcome_same o m m' :
  settle_outcome job o m = (Ok (), m') ->
  same_tables m m' /\ m_pages m' = m_pages m /\ m_batches m' = m_batches m /\ m_outcomes m' = m_outcomes m.
Proof.
  unfold settle_outcome. case_bool_decide; [|case_bool_decide].
  - intros [= <-]. split; [apply update_dataset_same|done].
  - intros [= <-]. split; [apply update_dataset_same|done].
  - intros H1. eff_inv H1. unfold lift, ensure in H1. case_match; simplify_eq. done.
Qed.

Lemma record_outcome_Ok o m m' :
  record_outcome job lineage c o m = (Ok (), m') ->
  same_tables m m' /\ m_pages m' = m_pages m /\ m_batches m' = m_batches m
  /\ m_outcomes m' = m_outcomes m ++ [outcome_row o]
  /\ (do_state o = "succeeded" -> batch_records c !! do_key o = Some (do_records o))
  /\ (unique_outcomes m -> unique_outcomes m').
Proof.
  unfold record_outcome. intros H. eff_inv H. unfold id in *. simplify_eq.
  apply settle_outcome_same in H as (S1 & S2 & S3 & S4). bool_facts.
  split_and!; [by eapply same_tables_trans; [|exact S1]|done|done|done| |].
  - intros E. destruct_or?; bool_facts; done.
  - unfold unique_outcomes. rewrite S4. simpl. intros Hu. rewrite map_app. apply NoDup_snoc; [done|].
  rewrite list_elem_of_fmap. intros (r & E & Hr).
  unfold outcome_key in E. injection E as E1 E2. cbn in *. absent_row Hr.
Qed.

Lemma record_each_Ok os m m' :
  for_each (record_outcome job lineage c) os m = (Ok (), m') ->
  same_tables m m' /\ m_pages m' = m_pages m /\ m_batches m' = m_batches m
  /\ m_outcomes m' = m_outcomes m ++ map outcome_row os
  /\ Forall (fun o => do_state o = "succeeded" -> batch_records c !! do_key o = Some (do_records o)) os
  /\ (unique_outcomes m -> unique_outcomes m').
Proof.
  revert os m m'. apply for_each_ind.
  - intros m. split_and!; try done. by rewrite app_nil_r.
  - intros o l m m1 m2 (H1 & H2 & H3 & H4 & H5 & H6)%record_outcome_Ok (J1 & J2 & J3 & J4 & J5 & J6).
  split_and!; [by eapply same_tables_trans|congruence..| |by constructor|by auto].
  rewrite J4, H4, <- app_assoc. done.
Qed.

(** A new page writes its row, its batches and its outcomes, and nothing else of
    the tables but the state and counts of its datasets. *)
Record appended (m m' : Manifest) : Prop := {
  ap_tables : same_tables m m';
  ap_pages : m_pages m' = m_pages m ++ [page_row job lineage c];
  ap_batches : m_batches m' = m_batches m ++ map batch_row (pc_batches c);
  ap_outcomes : m_outcomes m' = m_outcomes m ++ map outcome_row (pc_outcomes c);
  ap_may : may_append job lineage c m = Ok ();
  ap_declared : Forall (fun b => is_Some (m_datasets m !! (job, pb_key b))) (pc_batches c);
  ap_succeeded : dom (batch_records c)
  = list_to_set (map do_key (filter (fun o => do_state o = "succeeded") (pc_outcomes c)));
  ap_records : Forall (fun o => do_state o = "succeeded" -> batch_records c !! do_key o = Some (do_records o)) (pc_outcomes c);
  ap_unique_batches : unique_batches m -> unique_batches m';
  ap_unique_outcomes : unique_outcomes m -> unique_outcomes m';
}.

Lemma append_page_Ok m b m' : append_page job lineage c m = (Ok b, m') -> b = true /\ appended m m'.
Proof.
  unfold append_page. intros H. apply bind_inv in H as (m0 & s0 & E0 & H).
  unfold gets, id in E0. simplify_eq. apply bind_inv in H as ([] & s1 & E1 & H).
  unfold lift in E1. simplify_eq. eff_inv H. unfold mret, eff_ret, record_outcomes in *. simplify_eq.
  repeat match goal with a : () |- _ => destruct a end.
  match goal with H : for_each _ _ _ = _ |- _ => apply insert_batches_Ok in H as (I1 & I2 & I3 & I4 & I5 & I6) end.
  match goal with H : (lift _ ≫= _) _ = _ |- _ => apply lift_ensure_inv in H as [Hd Hr] end.
  apply record_each_Ok in Hr as (R1 & R2 & R3 & R4 & R5 & R6). bool_facts.
  split; [done|]. split; try done.
  - eapply same_tables_trans; [|exact R1]. by eapply same_tables_trans; [|exact I1].
  - by rewrite R2, I2.
  - by rewrite R3, I4.
  - by rewrite R4, I3.
  - intros Hu. unfold unique_batches. rewrite R3. by apply I6.
  - intros Hu. apply R6. unfold unique_outcomes. by rewrite I3.
Qed.
End append.

(** * Committing a page *)

Lemma page_at_Some m k p : page_at m k = Some p -> p ∈ m_pages m /\ pg_key p = k.
Proof.
  unfold page_at. intros H. apply head_Some_elem_of in H. by apply list_elem_of_filter in H as [? ?].
Qed.

Lemma page_at_None m k : page_at m k = None -> Forall (fun p => pg_key p <> k) (m_pages m).
Proof.
  unfold page_at. intros H. apply Forall_forall. intros p Hp E.
  assert (p ∈ filter (fun p => pg_key p = k) (m_pages m)) as Hin by (by apply list_elem_of_filter).
  destruct (filter _ _); [by apply elem_of_nil in Hin|done].
Qed.

Lemma declare_partition_spec job lineage c l m :
  declare_partition job lineage c l m
  = (Ok (), if bool_decide (pc_partition c ∈ l_partitions l) then m
            else m <| m_lineages := <[(job, lineage) := l <| l_partitions := l_partitions l ++ [pc_partition c] |>]> (m_lineages m) |>).
Proof. unfold declare_partition. by case_bool_decide. Qed.

(** The tables after the partition of a page is declared. *)
Definition with_partition (job lineage : Z) (c : PageCommit) (declare : bool) (l : Lineage) (m : Manifest) : Manifest :=
  if declare then (declare_partition job lineage c l m).2 else m.

(** The exact replay of a page that is already there. *)
Record replayed (job lineage : Z) (c : PageCommit) (m : Manifest) : Prop := {
  rp_page : exists p, page_at m (this_page job lineage c) = Some p /\ pg_sequence p = pc_sequence c
    /\ pg_resume_after p = pc_resume_after c /\ pg_terminal p = pc_terminal c /\ pg_intact p = pc_intact c
    /\ pg_connector_version p = pc_connector_version c;
  rp_batches : sort_by_key pb_key (page_batches m (this_page job lineage c)) = sort_by_key pb_key (pc_batches c);
  rp_outcomes : sort_by_key do_key (page_outcomes m (this_page job lineage c)) = sort_by_key do_key (pc_outcomes c);
}.

Lemma commit_page_Ok job lineage c declare m b m' :
  commit_page job lineage c declare m = (Ok b, m') ->
  exists l, m_lineages m !! (job, lineage) = Some l /\ l_status l = active
    /\ li_connector_version (l_identity l) = pc_connector_version c
    /\ let m1 := with_partition job lineage c declare l m in
       if b then page_at m (this_page job lineage c) = None /\ appended job lineage c m1 m'
       else replayed job lineage c m /\ m' = m1.
Proof.
  unfold commit_page. intros H%atomically_Ok. apply bind_inv in H as (row & m0 & E & H).
  unfold get_lineage, gets in E. simplify_eq. destruct (m_lineages m0 !! (job, lineage)) as [l|] eqn:El; [|done].
  apply lift_ensure_inv in H as [H1 H]. apply lift_ensure_inv in H as [H2 H]. bool_facts.
  apply bind_inv in H as ([] & m1 & E1 & H).
  assert (m1 = with_partition job lineage c declare l m0 /\ m_pages m1 = m_pages m0 /\ m_batches m1 = m_batches m0
    /\ m_outcomes m1 = m_outcomes m0) as (-> & Hp & Hb & Ho).
  { unfold with_partition. destruct declare; [|by unfold mret, eff_ret in E1; simplify_eq].
    rewrite declare_partition_spec in *. simplify_eq/=. by case_bool_decide. }
  exists l. split_and!; [done..|]. eff_inv H. clear E1. set (m1 := with_partition _ _ _ _ _ _) in *.
  assert (page_at m1 (this_page job lineage c) = page_at m0 (this_page job lineage c)) as Hat by (unfold page_at; by rewrite Hp).
  rewrite Hat in H. destruct (page_at m0 _) as [p|] eqn:Ep.
  - apply bind_inv in H as ([] & m2 & Hv & H). unfold mret, eff_ret in H. simplify_eq.
    unfold verify_replay in Hv. eff_inv Hv. unfold lift, ensure in Hv. case_match; simplify_eq. bool_facts.
    split; [|done]. split.
    + exists p. by split_and!.
    + unfold page_batches in *. by rewrite <- Hb.
    + unfold page_outcomes in *. by rewrite <- Ho.
  - by apply append_page_Ok in H as [-> ?].
Qed.

(** * Growth *)

(** The lineage of a page. *)
Definition lineage_of (k : page_key) : Z * Z := k.1.1.

Definition may_grow (m : Manifest) (k : Z * Z) : Prop :=
  forall l, m_lineages m !! k = Some l -> l_status l = active.

(** How any operation changes a lineage: it keeps its identity, only ever declares
    further partitions, and a lineage that is not active is frozen. *)
Record evolves (l l' : Lineage) : Prop := {
  ev_identity : l_identity l' = l_identity l;
  ev_partitions : l_partitions l `prefix_of` l_partitions l';
  ev_frozen : l_status l <> active -> l' = l;
  ev_created : l_created_at l' = l_created_at l;
}.

#[export] Instance evolves_preorder : PreOrder evolves.
Proof.
  split; [by intros l|]. intros l1 l2 l3 [H1 H2 H3 H4] [J1 J2 J3 J4]. split; [congruence|by etrans| |congruence].
  intros Hs. pose proof (H3 Hs) as ->. by apply J3.
Qed.

(** The tables only grow, and only active lineages get rows. *)
Record grows (m m' : Manifest) : Prop := {
  gr_lineages k l : m_lineages m !! k = Some l -> exists l', m_lineages m' !! k = Some l' /\ evolves l l';
  gr_pages : exists ps, m_pages m' = m_pages m ++ ps /\ Forall (fun p => may_grow m (lineage_of (pg_key p))) ps;
  gr_batches : exists bs, m_batches m' = m_batches m ++ bs
    /\ Forall (fun b => (br_page b ∉ map pg_key (m_pages m)) /\ may_grow m (lineage_of (br_page b))) bs;
  gr_outcomes : exists os, m_outcomes m' = m_outcomes m ++ os
    /\ Forall (fun o => (or_page o ∉ map pg_key (m_pages m)) /\ may_grow m (lineage_of (or_page o))) os;
  gr_artifacts : m_artifacts m ⊆ m_artifacts m';
  gr_jobs : m_jobs m ⊆ m_jobs m';
}.

Lemma may_grow_before m m' k : grows m m' -> may_grow m' k -> may_grow m k.
Proof.
  intros H Hk l Hl. destruct (gr_lineages _ _ H _ _ Hl) as (l' & Hl' & He). specialize (Hk _ Hl').
  destruct (decide (l_status l = active)) as [|Hs]; [done|]. by rewrite (ev_frozen _ _ He Hs) in Hk.
Qed.

#[export] Instance grows_preorder : PreOrder grows.
Proof.
  split.
  - intros m. split; try (eexists []; by rewrite app_nil_r); try done. intros k l Hl. by exists l.
  - intros m1 m2 m3 H J. split.
    + intros k l Hl. destruct (gr_lineages _ _ H _ _ Hl) as (l' & Hl' & ?).
      destruct (gr_lineages _ _ J _ _ Hl') as (l'' & Hl'' & ?). exists l''. split; [done|by etrans].
    + destruct (gr_pages _ _ H) as (ps & E1 & F1), (gr_pages _ _ J) as (qs & E2 & F2).
      exists (ps ++ qs). split; [by rewrite E2, E1, app_assoc|]. apply Forall_app. split; [done|].
      eapply Forall_impl; [exact F2|]. intros p. by apply may_grow_before.
    + destruct (gr_pages _ _ H) as (ps & Ep & _).
      destruct (gr_batches _ _ H) as (bs & E1 & F1), (gr_batches _ _ J) as (cs & E2 & F2).
      exists (bs ++ cs). split; [by rewrite E2, E1, app_assoc|]. apply Forall_app. split; [done|].
      eapply Forall_impl; [exact F2|]. intros b [H1 H2]. split; [|by eapply may_grow_before].
      rewrite Ep, map_app in H1. set_solver.
    + destruct (gr_pages _ _ H) as (ps & Ep & _).
      destruct (gr_outcomes _ _ H) as (bs & E1 & F1), (gr_outcomes _ _ J) as (cs & E2 & F2).
      exists (bs ++ cs). split; [by rewrite E2, E1, app_assoc|]. apply Forall_app. split; [done|].
      eapply Forall_impl; [exact F2|]. intros b [H1 H2]. split; [|by eapply may_grow_before].
      rewrite Ep, map_app in H1. set_solver.
    + etrans; [apply (gr_artifacts _ _ H)|apply (gr_artifacts _ _ J)].
    + etrans; [apply (gr_jobs _ _ H)|apply (gr_jobs _ _ J)].
Qed.

(** An operation that only touches datasets, the clock or the identifiers. *)
Definition same_rows (m m' : Manifest) : Prop :=
  m_lineages m' = m_lineages m /\ m_pages m' = m_pages m /\ m_batches m' = m_batches m
  /\ m_outcomes m' = m_outcomes m /\ m_artifacts m' = m_artifacts m /\ m_jobs m ⊆ m_jobs m'.

Lemma same_rows_grows m m' : same_rows m m' -> grows m m'.
Proof.
  intros (E1 & E2 & E3 & E4 & E5 & E6). split; try (exists []; by rewrite app_nil_r); [|by rewrite E5|done].
  intros k l Hl. exists l. by rewrite E1.
Qed.

(** Replacing one lineage by one it evolves to. *)
Lemma set_lineage_grows job lineage l l' m :
  m_lineages m !! (job, lineage) = Some l -> evolves l l' -> grows m (set_lineage job lineage l' m).2.
Proof.
  intros Hl He. split; try (exists []; by rewrite app_nil_r); try done. intros k l0 Hk. simpl.
  destruct (decide (k = (job, lineage))) as [->|].
  - simplify_eq. exists l'. by rewrite lookup_insert_eq.
  - exists l0. by rewrite lookup_insert_ne.
Qed.

Lemma new_lineage_grows job lineage l m :
  m_lineages m !! (job, lineage) = None -> grows m (set_lineage job lineage l m).2.
Proof.
  intros Hl. split; try (exists []; by rewrite app_nil_r); try done. intros k l0 Hk. simpl.
  exists l0. split; [|done]. rewrite lookup_insert_ne; [done|congruence].
Qed.

Lemma declared_evolves job lineage c declare l m :
  m_lineages m !! (job, lineage) = Some l -> l_status l = active -> grows m (with_partition job lineage c declare l m).
Proof.
  intros Hl Ha. unfold with_partition. destruct declare; [|done]. rewrite declare_partition_spec. simpl.
  case_bool_decide; [done|]. apply (set_lineage_grows _ _ l); [done|]. split; try done. by eexists.
Qed.

Lemma appended_grows job lineage c m m' :
  page_at m (this_page job lineage c) = None -> may_grow m (job, lineage) -> appended job lineage c m m' -> grows m m'.
Proof.
  intros Hn Ha H. destruct (ap_tables _ _ _ _ _ H) as [Hj Hl _ Hart].
  assert (Hk : this_page job lineage c ∉ map pg_key (m_pages m)).
  { rewrite list_elem_of_fmap. intros (p & E & Hp). apply page_at_None in Hn.
    by apply (proj1 (Forall_forall _ _) Hn p Hp). }
  split.
  - intros k l El. exists l. by rewrite Hl.
  - exists [page_row job lineage c]. split; [apply (ap_pages _ _ _ _ _ H)|]. by apply Forall_singleton.
  - eexists. split; [apply (ap_batches _ _ _ _ _ H)|]. apply Forall_map, Forall_forall. intros b _. by split.
  - eexists. split; [apply (ap_outcomes _ _ _ _ _ H)|]. apply Forall_map, Forall_forall. intros b _. by split.
  - by rewrite Hart.
  - by rewrite Hj.
Qed.

Lemma commit_page_grows job lineage c declare m : grows m (commit_page job lineage c declare m).2.
Proof.
  destruct (commit_page job lineage c declare m) as [[b|e] m'] eqn:E; simpl.
  - apply commit_page_Ok in E as (l & Hl & Ha & _ & H). pose proof (declared_evolves job lineage c declare l m Hl Ha) as Hg.
    cbv zeta in H. set (m1 := with_partition job lineage c declare l m) in *. destruct b as [|]; [|by destruct H as [_ ->]].
    destruct H as [Hn H]. etrans; [exact Hg|]. apply (appended_grows job lineage c); [|..|done].
    + unfold page_at in *. unfold m1, with_partition. destruct declare; [|done]. rewrite declare_partition_spec. simpl.
      by case_bool_decide.
    + intros l' Hl'. unfold m1, with_partition in Hl'. destruct declare; [|congruence].
      rewrite declare_partition_spec in Hl'. simpl in Hl'. case_bool_decide; [congruence|].
      simpl in Hl'. rewrite lookup_insert_eq in Hl'. by simplify_eq.
  - apply atomically_Err in E. by subst.
Qed.

(** * Operations *)

(** The operations on the manifest, as its callers invoke them; [Tick] is the
    clock, [NewJob] the creation of a job. *)
Inductive operation :=
| DeclareDataset (job : Z) (key : DatasetKey)
| PrepareDataset (job : Z) (key : DatasetKey) (resuming : bool)
| FinishDataset (job : Z) (key : DatasetKey) (state : string) (complete : bool) (rejected_ : Z) (error : option string)
    (promoted : bool)
| CreateLineage (job : Z) (identity : LineageIdentity) (partitions : list string) (lineage : option Z)
| RejectLineage (job lineage : Z)
| CommitPage (job lineage : Z) (c : PageCommit) (declare : bool)
| CompleteLineage (job lineage : Z) (expected : list string) (checksum : string)
| CompleteLimited (job lineage : Z) (checksum : string)
| RegisterArtifact (job : Z) (key : DatasetKey) (artifact : StoredObject) (kind : string)
| MarkPublished (job : Z) (key : DatasetKey)
| NewJob (job : Z)
| Tick (t : Z).

Definition run {A} (m : mdb A) (s : Manifest) : Manifest := (m s).2.

Definition perform (o : operation) : Manifest -> Manifest :=
  match o with
  | DeclareDataset job key => run (declare_dataset job key)
  | PrepareDataset job key resuming => run (prepare_dataset_for_collection job key resuming)
  | FinishDataset job key state complete rejected_ error promoted =>
      run (finish_dataset job key state complete rejected_ error promoted)
  | CreateLineage job identity partitions lineage => run (create_lineage job identity partitions lineage)
  | RejectLineage job lineage => run (reject_lineage job lineage)
  | CommitPage job lineage c declare => run (commit_page job lineage c declare)
  | CompleteLineage job lineage expected checksum => run (complete_lineage job lineage expected checksum)
  | CompleteLimited job lineage checksum => run (complete_limited_lineage job lineage checksum)
  | RegisterArtifact job key artifact kind => run (register_artifact job key artifact kind)
  | MarkPublished job key => run (update_dataset job key published_dataset)
  | NewJob job => fun m => m <| m_jobs := {[job]} ∪ m_jobs m |>
  | Tick t => fun m => m <| m_now := Z.max t (m_now m) |>
  end.

Definition manifest_step (m m' : Manifest) : Prop := exists o, m' = perform o m.

(** A failing computation of these operations leaves rows untouched, or the
    transaction restores them. *)
Lemma datasets_only_grows m ds : grows m (m <| m_datasets := ds |>).
Proof. apply same_rows_grows. by split_and!. Qed.

(** Both sealing transactions leave the tables alone or seal an active lineage. *)
Lemma complete_lineage_cases job lineage expected checksum m :
  run (complete_lineage job lineage expected checksum) m = m
  \/ exists l, m_lineages m !! (job, lineage) = Some l /\ l_status l = active /\ is_sha256 checksum = true
    /\ NoDup expected /\ partitions_of_pages (lineage_pages job lineage m) = list_to_set expected
    /\ forallb (partition_complete (lineage_pages job lineage m)) expected = true
    /\ run (complete_lineage job lineage expected checksum) m
       = (set_lineage job lineage (l <| l_status := completed |> <| l_checksum := Some checksum |>) m).2.
Proof.
  unfold run. destruct (complete_lineage job lineage expected checksum m) as [[b|e] m'] eqn:E; simpl;
    [|left; by apply atomically_Err in E].
  apply atomically_Ok in E. apply bind_inv in E as (row & m0 & E0 & E). unfold get_lineage, gets in E0. simplify_eq.
  destruct (m_lineages m0 !! (job, lineage)) as [l|] eqn:Hl; [|done].
  case_bool_decide as Hs.
  - left. eff_inv E. unfold mret, eff_ret in E. by simplify_eq.
  - right. exists l. eff_inv E. bool_facts. unfold set_lineage, modify, mret, eff_ret in *. simplify_eq.
    by split_and!.
Qed.

Lemma complete_limited_cases job lineage checksum m :
  run (complete_limited_lineage job lineage checksum) m = m
  \/ exists l, m_lineages m !! (job, lineage) = Some l /\ l_status l = active /\ is_sha256 checksum = true
    /\ (exists p, latest_page (l_partitions l) (lineage_pages job lineage m) = Some p)
    /\ run (complete_limited_lineage job lineage checksum) m
       = (set_lineage job lineage (l <| l_status := limited |> <| l_checksum := Some checksum |>) m).2.
Proof.
  unfold run. destruct (complete_limited_lineage job lineage checksum m) as [[b|e] m'] eqn:E; simpl;
    [|left; by apply atomically_Err in E].
  apply atomically_Ok in E. apply bind_inv in E as (row & m0 & E0 & E). unfold get_lineage, gets in E0. simplify_eq.
  destruct (m_lineages m0 !! (job, lineage)) as [l|] eqn:Hl; [|done].
  case_bool_decide as Hs.
  - left. eff_inv E. unfold mret, eff_ret in E. by simplify_eq.
  - right. exists l. eff_inv E. destruct (latest_page _ _) as [p|] eqn:Ep; [|done]. eff_inv E. bool_facts.
    unfold set_lineage, modify, mret, eff_ret in *. simplify_eq. split_and!; try done. by exists p.
Qed.

Lemma create_lineage_cases job identity partitions lineage m :
  same_rows m (run (create_lineage job identity partitions lineage) m)
    /\ m_datasets (run (create_lineage job identity partitions lineage) m) = m_datasets m
  \/ exists i n l, m_lineages m !! (job, i) = None /\ l_status l = active
    /\ run (create_lineage job identity partitions lineage) m = (set_lineage job i l (m <| m_next_uuid := n |>)).2.
Proof.
  unfold run, create_lineage, get_lineage, new_lineage_id, set_lineage, mbind, eff_bind, lift, ensure, gets, modify,
    mret, eff_ret.
  destruct (negb _); [|by left].
  destruct lineage as [i|]; simpl; (destruct (lineage_checks _ _); [|by left]); simpl.
  - destruct (m_lineages m !! (job, i)) as [row|] eqn:El; [destruct (_ && _); by left|].
    case_bool_decide; simpl; [|by left]. right. eexists i, (m_next_uuid m), _. split_and!; [done| |by destruct m]. done.
  - destruct (m_lineages m !! (job, m_next_uuid m)) as [row|] eqn:El; [destruct (_ && _); by left|].
    case_bool_decide; simpl; [|by left]. right. eexists _, _, _. split_and!; [done| |done]. done.
Qed.

Lemma reject_lineage_cases job lineage m :
  run (reject_lineage job lineage) m = m
  \/ exists l, m_lineages m !! (job, lineage) = Some l /\ l_status l = active
    /\ run (reject_lineage job lineage) m = (set_lineage job lineage (l <| l_status := rejected |>) m).2.
Proof.
  unfold run, reject_lineage, get_lineage, set_lineage, mbind, eff_bind, gets, modify, mret, eff_ret.
  destruct (m_lineages m !! (job, lineage)) as [l|] eqn:El; [|by left]. case_bool_decide; [|by left].
  right. by exists l.
Qed.

Lemma update_dataset_rows job key f m : same_rows m (run (update_dataset job key f) m).
Proof. by split_and!. Qed.

Lemma declare_dataset_rows job key m :
  same_rows m (run (declare_dataset job key) m) /\ same_tables m (run (declare_dataset job key) m)
  \/ m_datasets m !! (job, key) = None /\ same_rows m (run (declare_dataset job key) m)
     /\ exists d, m_datasets (run (declare_dataset job key) m) = <[(job, key) := d]> (m_datasets m).
Proof.
  unfold run, declare_dataset, modify. destruct (m_datasets m !! (job, key)) eqn:E; simpl; [by left|].
  right. split_and!; [done..|by eexists].
Qed.

Lemma declare_dataset_keeps job key m k :
  is_Some (m_datasets m !! k) -> is_Some (m_datasets (run (declare_dataset job key) m) !! k).
Proof.
  destruct (declare_dataset_rows job key m) as [[_ H]|(E & _ & d & ->)]; [apply (st_datasets _ _ H)|].
  intros Hk. destruct (decide (k = (job, key))) as [->|]; [by rewrite lookup_insert_eq|by rewrite lookup_insert_ne].
Qed.

Lemma register_artifact_cases job key artifact kind m :
  run (register_artifact job key artifact kind) m = m
  \/ exists n row, m_artifacts m !! (job, key, kind) = None
    /\ run (register_artifact job key artifact kind) m
       = m <| m_next_uuid := n |> <| m_artifacts := <[(job, key, kind) := row]> (m_artifacts m) |>.
Proof.
  unfold run, register_artifact, new_lineage_id, mbind, eff_bind, gets, modify, mret, eff_ret, lift, ensure.
  destruct (m_artifacts m !! (job, key, kind)) as [[i row]|] eqn:E; [case_bool_decide; by left|].
  right. by eexists _, _.
Qed.

Lemma update_dataset_keeps job key f m k :
  is_Some (m_datasets m !! k) -> is_Some (m_datasets (run (update_dataset job key f) m) !! k).
Proof. apply (st_datasets _ _ (update_dataset_same job key f m)). Qed.

(** An operation on datasets alone keeps the rows and the declared datasets. *)
Definition dataset_operation (o : operation) : bool :=
  match o with
  | DeclareDataset _ _ | PrepareDataset _ _ _ | FinishDataset _ _ _ _ _ _ _ | MarkPublished _ _ | NewJob _ | Tick _ => true
  | _ => false
  end.

Lemma dataset_operation_rows o m :
  dataset_operation o = true ->
  same_rows m (perform o m) /\ (forall k, is_Some (m_datasets m !! k) -> is_Some (m_datasets (perform o m) !! k)).
Proof.
  destruct o; intros [=]; simpl.
  - split; [destruct (declare_dataset_rows job key m) as [[? _]|(_ & ? & _)]; done|intros k; apply declare_dataset_keeps].
  - change (run (prepare_dataset_for_collection job key resuming) m)
      with (run (update_dataset job key (if resuming then restored_dataset else reset_dataset)) (run (declare_dataset job key) m)).
    split.
    + assert (same_rows m (run (declare_dataset job key) m)) as H
        by (destruct (declare_dataset_rows job key m) as [[? _]|(_ & ? & _)]; done).
      exact H.
    + intros k Hk. by apply update_dataset_keeps, declare_dataset_keeps.
  - unfold run, finish_dataset, mbind, eff_bind, lift, ensure, gets. destruct (bool_decide _); [|done].
    split; [by split_and!|]. intros k Hk. by apply (update_dataset_keeps job key _ m).
  - split; [by split_and!|]. intros k. apply update_dataset_keeps.
  - split; [|done]. split_and!; try done. simpl. set_solver.
  - split; [|done]. by split_and!.
Qed.

Lemma perform_grows o m : grows m (perform o m).
Proof.
  destruct (dataset_operation o) eqn:Ho; [by apply same_rows_grows, dataset_operation_rows|].
  destruct o; try discriminate; simpl.
  - destruct (create_lineage_cases job identity partitions lineage m) as [[? _]|(i & n & l & Hn & _ & ->)];
      [by apply same_rows_grows|].
    etrans; [|by apply new_lineage_grows]. apply same_rows_grows. by split_and!.
  - destruct (reject_lineage_cases job lineage m) as [->|(l & Hl & Ha & ->)]; [done|].
    by apply (set_lineage_grows _ _ l); [|split].
  - apply commit_page_grows.
  - destruct (complete_lineage_cases job lineage expected checksum m) as [->|(l & Hl & Ha & _ & _ & _ & _ & ->)]; [done|].
    by apply (set_lineage_grows _ _ l); [|split].
  - destruct (complete_limited_cases job lineage checksum m) as [->|(l & Hl & Ha & _ & _ & ->)]; [done|].
    by apply (set_lineage_grows _ _ l); [|split].
  - destruct (register_artifact_cases job key artifact kind m) as [->|(n & row & Hn & ->)]; [done|].
    split; try (exists []; by rewrite app_nil_r); simpl; [|by apply insert_subseteq|done].
    intros k l Hl. by exists l.
Qed.

Lemma history_grows m m' : reachable manifest_step m m' -> grows m m'.
Proof. induction 1 as [|m1 m2 _ IH [o ->]]; [done|]. etrans; [exact IH|apply perform_grows]. Qed.
