(* ===== verification/ManifestProperties.v ===== *)
(** The manifest over every history: its invariant, the idempotence of a page
    commit, and the immutability of a sealed lineage. *)
From S2P Require Export ManifestHistory.
From Stdlib Require Import Ascii.
Open Scope Z_scope.

(** * The invariant *)

(** [q] may come after [p]: within a partition sequences increase and nothing
    follows a terminal page. *)
Definition follows (p q : PageRow) : Prop :=
  (pg_key p).1 = (pg_key q).1 -> pg_sequence p < pg_sequence q /\ pg_terminal p = false.

(** A succeeded outcome is recorded with the batch it counts. *)
Definition has_batch (m : Manifest) (k : page_key) (d : DatasetKey) (n : Z) : Prop :=
  exists b, b ∈ m_batches m /\ br_page b = k /\ pb_key (br_batch b) = d /\ pb_records (br_batch b) = n.
Definition has_success (m : Manifest) (k : page_key) (d : DatasetKey) (n : Z) : Prop :=
  exists o, o ∈ m_outcomes m /\ or_page o = k /\ do_key (or_outcome o) = d
    /\ do_state (or_outcome o) = "succeeded" /\ do_records (or_outcome o) = n.

(** A completed lineage has only intact pages, and a terminal one in each
    partition that has any. *)
Definition enumeration_complete (m : Manifest) (job lineage : Z) : Prop :=
  forall p, p ∈ lineage_pages job lineage m -> pg_intact p = true
    /\ exists q, q ∈ lineage_pages job lineage m /\ (pg_key q).1 = (pg_key p).1 /\ pg_terminal q = true.

Record manifest_ok (m : Manifest) : Prop := {
  mo_keys : NoDup (map pg_key (m_pages m));
  mo_order : StronglySorted follows (m_pages m);
  mo_lineage p : p ∈ m_pages m -> exists l, m_lineages m !! lineage_of (pg_key p) = Some l
    /\ li_connector_version (l_identity l) = pg_connector_version p;
  mo_batch_page b : b ∈ m_batches m -> exists p, p ∈ m_pages m /\ pg_key p = br_page b /\ pg_sequence p = br_sequence b;
  mo_outcome_page o : o ∈ m_outcomes m -> exists p, p ∈ m_pages m /\ pg_key p = or_page o /\ pg_sequence p = or_sequence o;
  mo_batches : unique_batches m;
  mo_outcomes : unique_outcomes m;
  mo_agree k d n : has_batch m k d n <-> has_success m k d n;
  mo_declared b : b ∈ m_batches m -> is_Some (m_datasets m !! ((br_page b).1.1.1, pb_key (br_batch b)));
  mo_sealed k l : m_lineages m !! k = Some l -> l_status l ∈ [completed; limited] -> is_Some (l_checksum l);
  mo_complete job lineage l : m_lineages m !! (job, lineage) = Some l -> l_status l = completed ->
    enumeration_complete m job lineage;
}.

Definition no_tables : Manifest :=
  {| m_now := 0; m_next_uuid := 0; m_jobs := ∅; m_lineages := ∅; m_pages := []; m_batches := []; m_outcomes := [];
     m_datasets := ∅; m_artifacts := ∅ |}.

Lemma no_tables_ok : manifest_ok no_tables.
Proof.
  split; try (by constructor); try (by intros ? ?%elem_of_nil).
  - split; constructor.
  - intros k d n. split; intros (? & []%elem_of_nil & _).
  - intros k l H. cbn in H. by rewrite lookup_empty in H.
Qed.

Lemma sealed_status s : s ∈ [completed; limited] <-> s = completed \/ s = limited.
Proof. rewrite !elem_of_cons, elem_of_nil. tauto. Qed.

(** ** Operations that keep the rows *)

Lemma ok_same_rows m m' :
  same_rows m m' -> (forall k, is_Some (m_datasets m !! k) -> is_Some (m_datasets m' !! k)) ->
  manifest_ok m -> manifest_ok m'.
Proof.
  intros (E1 & E2 & E3 & E4 & E5 & E6) Hd [].
  split; unfold unique_batches, unique_outcomes, has_batch, has_success, enumeration_complete, lineage_pages in *;
    rewrite ?E1, ?E2, ?E3, ?E4; auto.
Qed.

Lemma ok_set_lineage job lineage l' m :
  (forall l, m_lineages m !! (job, lineage) = Some l -> l_identity l' = l_identity l) ->
  (l_status l' ∈ [completed; limited] -> is_Some (l_checksum l')) ->
  (l_status l' = completed -> enumeration_complete m job lineage) ->
  manifest_ok m -> manifest_ok (set_lineage job lineage l' m).2.
Proof.
  intros Hi Hs Hc []. split; try done; simpl.
  - intros p Hp. destruct (mo_lineage0 p Hp) as (l & Hl & Hv). destruct (decide (lineage_of (pg_key p) = (job, lineage))) as [E|].
    + exists l'. rewrite E in *. rewrite lookup_insert_eq. by rewrite (Hi _ Hl).
    + exists l. by rewrite lookup_insert_ne.
  - intros k l. destruct (decide (k = (job, lineage))) as [->|].
    + rewrite lookup_insert_eq. intros [= <-]. done.
    + rewrite lookup_insert_ne by done. eauto.
  - intros j i l. destruct (decide ((j, i) = (job, lineage))) as [[= -> ->]|].
    + rewrite lookup_insert_eq. intros [= <-]. done.
    + rewrite lookup_insert_ne by done. eauto.
Qed.

(** ** Appending a page *)

Lemma StronglySorted_snoc {A} (R : A -> A -> Prop) l x :
  StronglySorted R l -> Forall (fun y => R y x) l -> StronglySorted R (l ++ [x]).
Proof.
  induction 1 as [|y l Hl IH Hy]; intros Hx; [repeat constructor|]. apply Forall_cons in Hx as [Hyx Hx]. simpl.
  constructor; [by apply IH|]. apply Forall_app. by split; [|apply Forall_singleton].
Qed.

Lemma may_append_follows job lineage c m :
  may_append job lineage c m = Ok () -> Forall (fun p => follows p (page_row job lineage c)) (m_pages m).
Proof.
  unfold may_append. intros H. step_in H. bool_facts. apply Forall_forall. intros p Hp Hk. simpl in Hk.
  assert (p ∈ partition_pages job lineage m (pc_partition c)) as Hin by (by apply list_elem_of_filter).
  split.
  - rewrite forallb_forall in H. apply list_elem_of_In, H, Z.ltb_lt in Hin. done.
  - by eapply existsb_false in Hin.
Qed.

Lemma batch_records_elem c d n :
  NoDup (map pb_key (pc_batches c)) ->
  batch_records c !! d = Some n <-> exists b, b ∈ pc_batches c /\ pb_key b = d /\ pb_records b = n.
Proof.
  unfold batch_records. generalize (pc_batches c) as bs. intros bs.
  enough (Hgen : forall acc : gmap DatasetKey Z, NoDup (map pb_key bs) ->
    foldl (fun acc b => <[pb_key b := pb_records b]> acc) acc bs !! d = Some n
    <-> (exists b, b ∈ bs /\ pb_key b = d /\ pb_records b = n) \/ ((d ∉ map pb_key bs) /\ acc !! d = Some n)).
  { intros Hn. rewrite Hgen by done. rewrite lookup_empty. naive_solver. }
  induction bs as [|b bs IH]; intros acc Hn; simpl.
  - split; [intros H; right; split; [apply not_elem_of_nil|done]|by intros [(? & []%elem_of_nil & _)|[_ ?]]].
  - apply NoDup_cons in Hn as [Hb Hn]. rewrite IH by done. split.
    + intros [(b' & ? & ? & ?)|[Hd Ha]]; [left; exists b'; split; [by apply list_elem_of_further|done]|].
      destruct (decide (pb_key b = d)) as [E|E].
      * left. exists b. rewrite E, lookup_insert_eq in Ha. simplify_eq. split; [by apply list_elem_of_here|done].
      * right. rewrite lookup_insert_ne in Ha by done. split; [|done]. by apply not_elem_of_cons.
    + intros [(b' & [->|Hb']%elem_of_cons & E1 & E2)|[Hd Ha]].
      * right. subst d n. by rewrite lookup_insert_eq.
      * left. by exists b'.
      * apply not_elem_of_cons in Hd as [Hne Hd]. right. by rewrite lookup_insert_ne.
Qed.

Section append_ok.
Context (job lineage : Z) (c : PageCommit) (m m' : Manifest).
Hypothesis ok : manifest_ok m.
Hypothesis fresh : page_at m (this_page job lineage c) = None.
Hypothesis app : appended job lineage c m m'.
#[local] Abbreviation k := (this_page job lineage c).

Lemma fresh_batches b : b ∈ m_batches m -> br_page b <> k.
Proof.
  intros Hb E. destruct (mo_batch_page _ ok b Hb) as (p & Hp & Ek & _).
  apply page_at_None in fresh. apply (proj1 (Forall_forall _ _) fresh p Hp). congruence.
Qed.
Lemma fresh_outcomes o : o ∈ m_outcomes m -> or_page o <> k.
Proof.
  intros Hb E. destruct (mo_outcome_page _ ok o Hb) as (p & Hp & Ek & _).
  apply page_at_None in fresh. apply (proj1 (Forall_forall _ _) fresh p Hp). congruence.
Qed.

Lemma page_batches_appended : page_batches m' k = pc_batches c.
Proof.
  unfold page_batches. rewrite (ap_batches _ _ _ _ _ app), filter_app, map_app.
  rewrite filter_none by (apply Forall_forall, fresh_batches). rewrite filter_all by (by apply Forall_map, Forall_forall).
  simpl. rewrite map_map. apply map_id.
Qed.
Lemma page_outcomes_appended : page_outcomes m' k = pc_outcomes c.
Proof.
  unfold page_outcomes. rewrite (ap_outcomes _ _ _ _ _ app), filter_app, map_app.
  rewrite filter_none by (apply Forall_forall, fresh_outcomes). rewrite filter_all by (by apply Forall_map, Forall_forall).
  simpl. rewrite map_map. apply map_id.
Qed.

Lemma batch_keys_unique : NoDup (map pb_key (pc_batches c)).
Proof.
  destruct (ap_unique_batches _ _ _ _ _ app (mo_batches _ ok)) as [H _].
  rewrite (ap_batches _ _ _ _ _ app), map_app, NoDup_app in H. destruct H as (_ & _ & H).
  rewrite map_map in H. change (NoDup (map (fun b => (k, pb_key b)) (pc_batches c))) in H.
  rewrite <- (map_map pb_key (pair k)) in H. by eapply NoDup_fmap_1.
Qed.

(** Within the new page, batches and successes agree. *)
Lemma new_page_agrees d n :
  (exists b, b ∈ pc_batches c /\ pb_key b = d /\ pb_records b = n)
  <-> (exists o, o ∈ pc_outcomes c /\ do_key o = d /\ do_state o = "succeeded" /\ do_records o = n).
Proof.
  rewrite <- (batch_records_elem c d n batch_keys_unique).
  pose proof (ap_records _ _ _ _ _ app) as Hr. rewrite Forall_forall in Hr. split.
  - intros Hd. assert (d ∈ dom (batch_records c)) as Hin by (by apply elem_of_dom).
  rewrite (ap_succeeded _ _ _ _ _ app), elem_of_list_to_set, list_elem_of_fmap in Hin.
  destruct Hin as (o & -> & [Hs Ho]%list_elem_of_filter). exists o. split_and!; [done..|].
  rewrite (Hr o Ho Hs) in Hd. by simplify_eq.
  - intros (o & Ho & <- & Hs & <-). by apply Hr.
Qed.

Lemma has_batch_appended k' d n :
  has_batch m' k' d n <-> has_batch m k' d n \/ k' = k /\ exists b, b ∈ pc_batches c /\ pb_key b = d /\ pb_records b = n.
Proof.
  unfold has_batch. rewrite (ap_batches _ _ _ _ _ app). setoid_rewrite elem_of_app. setoid_rewrite list_elem_of_fmap. split.
  - intros (b & [Hb|(b' & -> & Hb)] & <- & ?); [left; by exists b|right]. split; [done|]. by exists b'.
  - intros [(b & ? & ?)|[-> (b & Hb & ?)]]; [exists b; auto|]. exists (batch_row job lineage c b). eauto 10.
Qed.
Lemma has_success_appended k' d n :
  has_success m' k' d n <-> has_success m k' d n
  \/ k' = k /\ exists o, o ∈ pc_outcomes c /\ do_key o = d /\ do_state o = "succeeded" /\ do_records o = n.
Proof.
  unfold has_success. rewrite (ap_outcomes _ _ _ _ _ app). setoid_rewrite elem_of_app. setoid_rewrite list_elem_of_fmap. split.
  - intros (b & [Hb|(b' & -> & Hb)] & <- & ?); [left; by exists b|right]. split; [done|]. by exists b'.
  - intros [(b & ? & ?)|[-> (b & Hb & ?)]]; [exists b; auto|]. exists (outcome_row job lineage c b). eauto 10.
Qed.
End append_ok.

Lemma ok_appended job lineage c l m m' :
  manifest_ok m -> page_at m (this_page job lineage c) = None ->
  m_lineages m !! (job, lineage) = Some l -> l_status l = active ->
  li_connector_version (l_identity l) = pc_connector_version c ->
  appended job lineage c m m' -> manifest_ok m'.
Proof.
  intros ok fresh Hl Ha Hv app. pose proof (ap_tables _ _ _ _ _ app) as [_ Hlin Hds _].
  pose proof (ap_pages _ _ _ _ _ app) as Hp. pose proof (ap_batches _ _ _ _ _ app) as Hb.
  pose proof (ap_outcomes _ _ _ _ _ app) as Ho.
  split.
  - rewrite Hp, map_app. apply NoDup_snoc; [apply ok|]. rewrite list_elem_of_fmap. intros (p & E & Hin).
    apply page_at_None in fresh. by apply (proj1 (Forall_forall _ _) fresh p Hin).
  - rewrite Hp. apply StronglySorted_snoc; [apply ok|]. by eapply may_append_follows, (ap_may _ _ _ _ _ app).
  - intros p. rewrite Hp, Hlin. intros [Hin| ->%list_elem_of_singleton]%elem_of_app; [by apply ok|]. by exists l.
  - intros b. rewrite Hb, Hp. intros [Hin|(b' & -> & _)%list_elem_of_fmap]%elem_of_app.
    + destruct (mo_batch_page _ ok b Hin) as (p & ? & ?). exists p. split; [set_solver|done].
    + exists (page_row job lineage c). split; [set_solver|done].
  - intros o. rewrite Ho, Hp. intros [Hin|(o' & -> & _)%list_elem_of_fmap]%elem_of_app.
    + destruct (mo_outcome_page _ ok o Hin) as (p & ? & ?). exists p. split; [set_solver|done].
    + exists (page_row job lineage c). split; [set_solver|done].
  - apply (ap_unique_batches _ _ _ _ _ app), ok.
  - apply (ap_unique_outcomes _ _ _ _ _ app), ok.
  - intros k d n. rewrite (has_batch_appended job lineage c m m' app), (has_success_appended job lineage c m m' app).
    rewrite (mo_agree _ ok). by rewrite (new_page_agrees job lineage c m m' ok app).
  - intros b. rewrite Hb, <- Hds. intros [Hin|(b' & -> & Hb')%list_elem_of_fmap]%elem_of_app; [by apply ok|].
    pose proof (ap_declared _ _ _ _ _ app) as Hd. by apply (proj1 (Forall_forall _ _) Hd).
  - intros k0 l0. rewrite Hlin. apply ok.
  - intros j i l0. rewrite Hlin. intros Hl0 Hc. unfold enumeration_complete, lineage_pages. rewrite Hp, filter_app.
    rewrite (filter_none _ [_]); [rewrite app_nil_r; by eapply ok|].
    apply Forall_singleton. simpl. intros [= -> ->]. congruence.
Qed.

Lemma ok_with_partition job lineage c declare l m :
  m_lineages m !! (job, lineage) = Some l -> l_status l = active ->
  manifest_ok m -> manifest_ok (with_partition job lineage c declare l m).
Proof.
  intros Hl Ha ok. unfold with_partition. destruct declare; [|done]. rewrite declare_partition_spec. simpl.
  case_bool_decide; [done|]. apply (ok_set_lineage job lineage (l <| l_partitions := l_partitions l ++ [pc_partition c] |>)); simpl;
    [congruence|rewrite Ha..|done]; [by intros [|]%sealed_status|done].
Qed.

Lemma enumeration_sealed job lineage expected m :
  partitions_of_pages (lineage_pages job lineage m) = list_to_set expected ->
  forallb (partition_complete (lineage_pages job lineage m)) expected = true ->
  enumeration_complete m job lineage.
Proof.
  intros Hp Hc p Hin. rewrite forallb_forall in Hc.
  assert ((pg_key p).1.2 ∈ expected) as He.
  { rewrite <- (elem_of_list_to_set (C := gset string)), <- Hp. unfold partitions_of_pages.
    rewrite elem_of_list_to_set, list_elem_of_fmap. by exists p. }
  apply list_elem_of_In in He. specialize (Hc _ He). unfold partition_complete in Hc.
  apply andb_true_iff in Hc as [Ht Hi]. rewrite forallb_forall in Hi. split.
  - apply Hi, list_elem_of_In, list_elem_of_filter. done.
  - apply existsb_exists in Ht as (q & Hq & Ht). apply list_elem_of_In, list_elem_of_filter in Hq as [Hk Hq].
    exists q. split_and!; [done| |done].
    apply list_elem_of_filter in Hq as [E1 _], Hin as [E2 _]. destruct (pg_key q) as [[? ?] ?], (pg_key p) as [[? ?] ?].
    simpl in *. congruence.
Qed.

Lemma perform_ok o m : manifest_ok m -> manifest_ok (perform o m).
Proof.
  intros ok. destruct (dataset_operation o) eqn:Ho.
  { destruct (dataset_operation_rows o m Ho). by eapply ok_same_rows. }
  destruct o; try discriminate; simpl.
  - destruct (create_lineage_cases job identity partitions lineage m) as [[? E]|(i & n & l & Hn & Ha & ->)].
    + eapply ok_same_rows; [done|by rewrite E|done].
    + apply ok_set_lineage; simpl; [congruence|rewrite Ha; by intros [|]%sealed_status|by rewrite Ha|].
      apply (ok_same_rows m); [by split_and!|done|exact ok].
  - destruct (reject_lineage_cases job lineage m) as [->|(l & Hl & Ha & ->)]; [done|].
    apply ok_set_lineage; simpl; [congruence|by intros [|]%sealed_status|done|done].
  - unfold run. destruct (commit_page job lineage c declare m) as [[b|e] m'] eqn:E; [|by apply atomically_Err in E; subst].
    apply commit_page_Ok in E as (l & Hl & Ha & Hv & H). cbv zeta in H.
    pose proof (ok_with_partition job lineage c declare l m Hl Ha ok) as ok1. simpl.
    destruct b; [|by destruct H as [_ ->]]. destruct H as [Hf H].
    assert (exists l1, m_lineages (with_partition job lineage c declare l m) !! (job, lineage) = Some l1
      /\ l_status l1 = active /\ l_identity l1 = l_identity l) as (l1 & Hl1 & Ha1 & Hi1).
    { unfold with_partition. destruct declare; [|by exists l]. rewrite declare_partition_spec. simpl.
      case_bool_decide; [by exists l|]. simpl. rewrite lookup_insert_eq. by eexists. }
    apply (ok_appended job lineage c l1 _ _ ok1); try done; [|congruence].
    unfold page_at in *. unfold with_partition. destruct declare; [|done]. rewrite declare_partition_spec. simpl.
    by case_bool_decide.
  - destruct (complete_lineage_cases job lineage expected checksum m) as [->|(l & Hl & Ha & _ & _ & Hp & Hc & ->)]; [done|].
    apply ok_set_lineage; simpl; [congruence|done| |done]. intros _. by eapply enumeration_sealed.
  - destruct (complete_limited_cases job lineage checksum m) as [->|(l & Hl & Ha & _ & _ & ->)]; [done|].
    by apply ok_set_lineage; simpl; [congruence|..].
  - destruct (register_artifact_cases job key artifact kind m) as [->|(n & row & Hn & ->)]; [done|].
    by destruct ok.
Qed.

Lemma history_ok m : reachable manifest_step no_tables m -> manifest_ok m.
Proof. apply reachable_invariant; [apply no_tables_ok|]. intros m1 m2 H [o ->]. by apply perform_ok. Qed.

(** C14. In every history of operations on an empty manifest: a page is recorded
    once, within a partition the sequences increase and nothing follows a terminal
    page, every batch and every outcome belongs to a page, a dataset of its job and
    a row of its own, a dataset succeeded on a page exactly when its batch is there
    with the records it counts, and a completed lineage has only intact pages and a
    terminal one in every partition. *)
Theorem manifest_consistent m : reachable manifest_step no_tables m -> manifest_ok m.
Proof. apply history_ok. Qed.

(** * Replays *)

Lemma page_at_grows m m' k p : grows m m' -> page_at m k = Some p -> page_at m' k = Some p.
Proof.
  intros H. destruct (gr_pages _ _ H) as (ps & E & _). unfold page_at. rewrite E, filter_app.
  destruct (filter _ (m_pages m)); [done|]. done.
Qed.

Lemma page_rows_grow m m' k :
  grows m m' -> k ∈ map pg_key (m_pages m) ->
  page_batches m' k = page_batches m k /\ page_outcomes m' k = page_outcomes m k.
Proof.
  intros H Hk. destruct (gr_batches _ _ H) as (bs & Eb & Hb), (gr_outcomes _ _ H) as (os & Eo & Ho).
  unfold page_batches, page_outcomes. rewrite Eb, Eo, !filter_app.
  rewrite (filter_none _ bs), (filter_none _ os); [by rewrite !app_nil_r|..].
  - eapply Forall_impl; [exact Ho|]. intros o [Hn _] E. by rewrite E in Hn.
  - eapply Forall_impl; [exact Hb|]. intros b [Hn _] E. by rewrite E in Hn.
Qed.

Lemma replayed_grows job lineage c m m' : grows m m' -> replayed job lineage c m -> replayed job lineage c m'.
Proof.
  intros H [(p & Hp & Hf) Hb Ho].
  assert (this_page job lineage c ∈ map pg_key (m_pages m)) as Hk.
  { apply page_at_Some in Hp as [Hin E]. rewrite <- E. by apply list_elem_of_fmap_2. }
  destruct (page_rows_grow _ _ _ H Hk) as [Eb Eo]. split; [|by rewrite Eb|by rewrite Eo].
  exists p. split; [by eapply page_at_grows|done].
Qed.

(** After a commit the page is there as it was given. *)
Lemma commit_page_replayed job lineage c declare m b m' :
  manifest_ok m -> commit_page job lineage c declare m = (Ok b, m') ->
  replayed job lineage c m'
  /\ exists l, m_lineages m' !! (job, lineage) = Some l
     /\ li_connector_version (l_identity l) = pc_connector_version c
     /\ (declare = true -> pc_partition c ∈ l_partitions l).
Proof.
  intros ok E. pose proof (commit_page_grows job lineage c declare m) as Hg. rewrite E in Hg. simpl in Hg.
  apply commit_page_Ok in E as (l & Hl & Ha & Hv & H). cbv zeta in H.
  pose proof (ok_with_partition job lineage c declare l m Hl Ha ok) as ok1. set (m1 := with_partition _ _ _ _ _ _) in *.
  assert (exists l1, m_lineages m1 !! (job, lineage) = Some l1 /\ l_identity l1 = l_identity l
    /\ (declare = true -> pc_partition c ∈ l_partitions l1)) as (l1 & Hl1 & Hi1 & Hp1).
  { unfold m1, with_partition. destruct declare; [|by exists l]. rewrite declare_partition_spec. simpl.
    case_bool_decide; [by exists l|]. simpl. rewrite lookup_insert_eq. eexists. split_and!; [done..|]. simpl. set_solver. }
  destruct b.
  - destruct H as [Hf H]. assert (page_at m1 (this_page job lineage c) = None) as Hf1.
    { unfold page_at in *. unfold m1, with_partition. destruct declare; [|done]. rewrite declare_partition_spec. simpl.
      by case_bool_decide. }
    split; [|exists l1; rewrite (st_lineages _ _ (ap_tables _ _ _ _ _ H)); split_and!; [done|congruence|done]].
    split; [|by erewrite page_batches_appended|by erewrite page_outcomes_appended].
    exists (page_row job lineage c). split_and!; [|done..]. unfold page_at in *.
    rewrite (ap_pages _ _ _ _ _ H), filter_app, (filter_all _ [_]) by (by apply Forall_singleton).
    by destruct (filter _ (m_pages m1)).
  - destruct H as [Hr ->]. split; [|exists l1; split_and!; [done|congruence|done]].
    by eapply replayed_grows.
Qed.

Lemma verify_replay_spec job lineage c p m :
  replayed job lineage c m -> page_at m (this_page job lineage c) = Some p ->
  verify_replay job lineage c p m = (Ok (), m).
Proof.
  intros [(p' & Hp' & E1 & E2 & E3 & E4 & E5) Hb Ho] Hp. simplify_eq.
  unfold verify_replay, mbind, eff_bind, lift, ensure, gets, result_bind.
  by rewrite !bool_decide_true by done.
Qed.

Lemma commit_replayed job lineage c declare l m :
  replayed job lineage c m -> m_lineages m !! (job, lineage) = Some l -> l_status l = active ->
  li_connector_version (l_identity l) = pc_connector_version c ->
  (declare = true -> pc_partition c ∈ l_partitions l) ->
  commit_page job lineage c declare m = (Ok false, m).
Proof.
  intros Hr Hl Ha Hv Hd. destruct (rp_page _ _ _ _ Hr) as (p & Hp & _).
  unfold commit_page, atomically, get_lineage, mbind, eff_bind, gets. rewrite Hl. cbn [fst snd].
  unfold lift, ensure. rewrite Ha, !bool_decide_true by done.
  assert ((if declare then declare_partition job lineage c l else mret ()) m = (Ok (), m)) as ->.
  { destruct declare; [|done]. rewrite declare_partition_spec. by rewrite bool_decide_true by auto. }
  rewrite Hp. pose proof (verify_replay_spec job lineage c p m Hr Hp) as E. unfold mbind, eff_bind in E. by rewrite E.
Qed.

(** Anything else under the identity of a page is refused. *)
Lemma commit_differs job lineage c declare p m :
  page_at m (this_page job lineage c) = Some p -> page_row job lineage c <> p ->
  exists e, commit_page job lineage c declare m = (Err e, m).
Proof.
  intros Hp Hne. destruct (commit_page job lineage c declare m) as [[b|e] m'] eqn:E;
    [exfalso|exists e; by apply atomically_Err in E; subst].
  apply commit_page_Ok in E as (l & _ & _ & _ & H). cbv zeta in H. destruct b; [destruct H; congruence|].
  destruct H as [[(p' & Hp' & E1 & E2 & E3 & E4 & E5) _ _] _]. simplify_eq. apply Hne.
  apply page_at_Some in Hp as [_ Hk]. destruct p. simpl in *. unfold page_row. congruence.
Qed.

(** C16. Committing a page is idempotent over histories: once a commit has returned,
    whatever else happens, committing the same page, batches and outcomes again
    while the lineage is active reports a replay and changes nothing, and a page
    with the same identity but another sequence, cursor or flags is refused and
    changes nothing. *)
Theorem page_commit_idempotent job lineage c declare m b m1 m2 :
  reachable manifest_step no_tables m ->
  commit_page job lineage c declare m = (Ok b, m1) ->
  reachable manifest_step m1 m2 ->
  (forall l, m_lineages m2 !! (job, lineage) = Some l -> l_status l = active ->
     commit_page job lineage c declare m2 = (Ok false, m2))
  /\ (forall c' declare', this_page job lineage c' = this_page job lineage c ->
        page_row job lineage c' <> page_row job lineage c ->
        exists e, commit_page job lineage c' declare' m2 = (Err e, m2)).
Proof.
  intros H0 E H. pose proof (history_ok _ H0) as ok. apply history_grows in H as Hg.
  destruct (commit_page_replayed _ _ _ _ _ _ _ ok E) as (Hr & l1 & Hl1 & Hv & Hd).
  pose proof (replayed_grows _ _ _ _ _ Hg Hr) as Hr2. split.
  - intros l Hl Ha. destruct (gr_lineages _ _ Hg _ _ Hl1) as (l' & Hl' & He). simplify_eq.
    apply (commit_replayed _ _ _ _ l); [done..| |].
    + by rewrite (ev_identity _ _ He).
    + intros Hdec. destruct (ev_partitions _ _ He) as (more & ->). set_solver.
  - intros c' declare' Hk Hne. destruct (rp_page _ _ _ _ Hr2) as (p & Hp & E1 & E2 & E3 & E4 & E5).
    apply (commit_differs _ _ _ _ p); [by rewrite Hk|]. intros Ep. apply Hne. rewrite Ep.
    apply page_at_Some in Hp as [_ Hk']. destruct p. simpl in *. unfold page_row. congruence.
Qed.

(** * Sealed lineages *)

Lemma lineage_rows_frozen m m' job lineage l :
  grows m m' -> m_lineages m !! (job, lineage) = Some l -> l_status l <> active ->
  m_lineages m' !! (job, lineage) = Some l /\ lineage_pages job lineage m' = lineage_pages job lineage m
  /\ filter (fun b => lineage_of (br_page b) = (job, lineage)) (m_batches m')
     = filter (fun b => lineage_of (br_page b) = (job, lineage)) (m_batches m)
  /\ filter (fun o => lineage_of (or_page o) = (job, lineage)) (m_outcomes m')
     = filter (fun o => lineage_of (or_page o) = (job, lineage)) (m_outcomes m).
Proof.
  intros H Hl Hs. destruct (gr_lineages _ _ H _ _ Hl) as (l' & Hl' & He). rewrite (ev_frozen _ _ He Hs) in Hl'.
  assert (Hno : forall k, may_grow m k -> k <> (job, lineage)) by (intros k Hk ->; by apply Hs, Hk).
  destruct (gr_pages _ _ H) as (ps & Ep & Fp), (gr_batches _ _ H) as (bs & Eb & Fb), (gr_outcomes _ _ H) as (os & Eo & Fo).
  unfold lineage_pages. rewrite Ep, Eb, Eo, !filter_app.
  rewrite (filter_none _ ps), (filter_none _ bs), (filter_none _ os); [by rewrite !app_nil_r|..].
  - eapply Forall_impl; [exact Fo|]. intros o [_ ?]. auto.
  - eapply Forall_impl; [exact Fb|]. intros b [_ ?]. auto.
  - eapply Forall_impl; [exact Fp|]. intros p ?. by apply Hno.
Qed.

(** Every commit to the lineage is refused and changes nothing. *)
Definition refuses_pages (job lineage : Z) (m : Manifest) : Prop :=
  forall c declare, exists e, commit_page job lineage c declare m = (Err e, m).

(** C17. A lineage that is no longer active is frozen: no later operation changes
    its row, its pages, batches or outcomes, what its progress is, or what any of
    its datasets publishes, and every commit to it is refused. *)
Theorem sealed_lineage_frozen job lineage l m m' :
  m_lineages m !! (job, lineage) = Some l -> l_status l <> active -> reachable manifest_step m m' ->
  m_lineages m' !! (job, lineage) = Some l
  /\ lineage_progress job lineage m' = lineage_progress job lineage m
  /\ (forall key, reconstruct_batches job lineage key m' = reconstruct_batches job lineage key m)
  /\ refuses_pages job lineage m'.
Proof.
  intros Hl Hs H%history_grows. destruct (lineage_rows_frozen _ _ _ _ _ H Hl Hs) as (Hl' & Hp & Hb & _).
  split_and!; [done|..].
  - unfold lineage_progress. by rewrite Hl, Hl', Hp.
  - intros key. unfold reconstruct_batches. rewrite Hl, Hl'. do 3 f_equal.
    assert (Hand : forall bs : list BatchRow, filter (fun b => (br_page b).1.1 = (job, lineage) /\ pb_key (br_batch b) = key) bs
      = filter (fun b => pb_key (br_batch b) = key) (filter (fun b => lineage_of (br_page b) = (job, lineage)) bs)).
    { intros bs. rewrite list_filter_filter. apply list_filter_iff. intros b. unfold lineage_of. tauto. }
    by rewrite !Hand, Hb.
  - intros c declare. destruct (commit_page job lineage c declare m') as [[b|e] m2] eqn:E.
    + apply commit_page_Ok in E as (l2 & Hl2 & ? & _). congruence.
    + exists e. by apply atomically_Err in E; subst.
Qed.

(** * A manifest at work *)

Definition performs (os : list operation) (m : Manifest) : Manifest := foldl (fun m o => perform o m) m os.

Lemma performs_reachable os m : reachable manifest_step m (performs os m).
Proof.
  enough (H : forall m0, reachable manifest_step m m0 -> reachable manifest_step m (performs os m0)) by (apply H, reach_refl).
  induction os as [|o os IH]; intros m0 H0; [done|]. apply IH. eapply reach_step; [exact H0|]. by exists o.
Qed.

Lemma result_pair {S X A} (p : result X A * S) r : p.1 = r -> p = (r, p.2).
Proof. by destruct p; intros <-. Qed.

Module ManifestDemo.
Definition digest : string := Nat.iter 64 (String "a"%char) EmptyString.
Definition items : DatasetKey := {| dk_dataset := "items"; dk_contract := "1"; dk_projector := "1" |}.
Definition identity : LineageIdentity :=
  {| li_source_id := "shop"; li_source_url := "https://shop"; li_connector := "shopify"; li_connector_version := "1";
   li_config_fingerprint := digest; li_dataset_fingerprint := digest; li_dataset_selection := JList [];
   li_runtime_format := COMMERCE_SCRAPER_V1; li_collection_request := Some (JDict []);
   li_connector_options := Some (JDict []); li_budget_state := JDict []; li_expires_at := None |}.
Definition batch (page : string) (records : Z) : PageBatch :=
  {| pb_key := items; pb_object_key := page; pb_sha256 := digest; pb_size := 10; pb_records := records |}.
Definition page (id : string) (sequence : Z) (cursor : option json) (terminal intact : bool) (records : Z) : PageCommit :=
  {| pc_partition := "main"; pc_page_id := id; pc_sequence := sequence; pc_resume_after := cursor; pc_terminal := terminal;
   pc_intact := intact; pc_connector_version := "1"; pc_batches := [batch id records];
   pc_outcomes := [{| do_key := items; do_state := "succeeded"; do_records := records; do_error := None |}] |}.
Definition first : PageCommit := page "p0" 0 (Some (JInt 1)) false true 2.
Definition second : PageCommit := page "p1" 1 None true true 1.

Definition opened : Manifest := performs
  [NewJob 1; CreateLineage 1 identity ["main"] (Some 7); PrepareDataset 1 items false] no_tables.
Definition collected : list operation := [CommitPage 1 7 second false].

Definition after_first : Manifest := (commit_page 1 7 first false opened).2.
Definition history : list operation :=
  [NewJob 1; CreateLineage 1 identity ["main"] (Some 7); PrepareDataset 1 items false; CommitPage 1 7 first false;
  CommitPage 1 7 second false; CompleteLineage 1 7 ["main"] digest].
Definition sealed : Manifest := performs history no_tables.
Definition sealed_row : Lineage := Eval vm_compute in default
  {| l_identity := identity; l_partitions := []; l_status := active; l_checksum := None; l_created_at := 0 |}
  (m_lineages sealed !! (1, 7)).
End ManifestDemo.

Lemma manifest_consistent_witness :
  length (m_pages ManifestDemo.sealed) = 2%nat /\ manifest_ok ManifestDemo.sealed.
Proof.
  split; [vm_compute; reflexivity|]. apply manifest_consistent.
  exact (performs_reachable ManifestDemo.history no_tables).
Defined.

Lemma page_commit_idempotent_witness :
  let m2 := performs ManifestDemo.collected ManifestDemo.after_first in
  length (m_pages m2) = 2%nat /\ commit_page 1 7 ManifestDemo.first false m2 = (Ok false, m2)
  /\ exists e, commit_page 1 7 (ManifestDemo.page "p0" 5 None true true 2) true m2 = (Err e, m2).
Proof.
  intros m2. split; [vm_compute; reflexivity|].
  assert (commit_page 1 7 ManifestDemo.first false ManifestDemo.opened = (Ok true, ManifestDemo.after_first)) as E
    by (apply (result_pair (commit_page 1 7 ManifestDemo.first false ManifestDemo.opened)); vm_compute; reflexivity).
  destruct (page_commit_idempotent 1 7 ManifestDemo.first false ManifestDemo.opened true ManifestDemo.after_first m2
    (performs_reachable _ _) E (performs_reachable _ _)) as [H1 H2].
  split; [|apply H2; [reflexivity|discriminate]].
  destruct (m_lineages m2 !! (1, 7)) as [l|] eqn:El; [|vm_compute in El; discriminate].
  apply (H1 l eq_refl). vm_compute in El. injection El as <-. reflexivity.
Defined.

Lemma sealed_lineage_frozen_witness :
  l_status ManifestDemo.sealed_row = completed
  /\ lineage_progress 1 7 (performs [CommitPage 1 7 (ManifestDemo.page "p2" 2 None true true 1) true; RejectLineage 1 7]
       ManifestDemo.sealed) = lineage_progress 1 7 ManifestDemo.sealed.
Proof.
  split; [reflexivity|].
  apply (sealed_lineage_frozen 1 7 ManifestDemo.sealed_row ManifestDemo.sealed); [vm_compute; reflexivity|discriminate|].
  apply performs_reachable.
Defined.

(** * A page that cannot be continued *)

(** The latest page of a lineage is terminal and incomplete but carries a cursor
    (a result limit was reached, or the page failed and may be retried). Until the
    lineage is sealed its progress is [RESUMABLE], yet no later history admits
    another page of that partition. *)
Lemma terminal_cursor_is_stuck job lineage l m p cursor :
  m_lineages m !! (job, lineage) = Some l -> l_status l = active ->
  latest_page (l_partitions l) (lineage_pages job lineage m) = Some p -> p ∈ lineage_pages job lineage m ->
  pg_terminal p = true -> pg_resume_after p = Some cursor ->
  lineage_progress job lineage m
    = (c ← lineage_checkpoint lineage l cursor; Ok {| lp_state := RESUMABLE; lp_checkpoint := Some c |})
  /\ forall m' c declare, reachable manifest_step m m' -> (pg_key p).1.2 = pc_partition c ->
       page_at m' (this_page job lineage c) = None -> exists e, commit_page job lineage c declare m' = (Err e, m').
Proof.
  intros Hl Ha Hp Hin Ht Hc. split.
  - unfold lineage_progress. by rewrite Hl, Hp, Hc, Ha.
  - intros m' c declare H%history_grows Hpart Hnew.
    destruct (commit_page job lineage c declare m') as [[b|e] m2] eqn:E; [exfalso|exists e; by apply atomically_Err in E; subst].
    apply commit_page_Ok in E as (l' & _ & _ & _ & H'). cbv zeta in H'. destruct b.
    + destruct H' as [_ H']. apply ap_may, may_append_follows in H'. rewrite Forall_forall in H'.
      apply list_elem_of_filter in Hin as [Hk Hin].
      destruct (gr_pages _ _ H) as (ps & Ep & _). destruct (H' p) as [_ ?]; [| |congruence].
      * unfold with_partition. destruct declare; [rewrite declare_partition_spec; simpl; case_bool_decide; simpl|];
          rewrite Ep; set_solver.
      * destruct (pg_key p) as [[k ?] ?]. simpl in *. by subst.
    + destruct H' as [[(q & Hq & _) _ _] _]. congruence.
Qed.
