(* ===== verification/Lineages.v ===== *)
(** Selection of the lineage a library collection works on
    ([catalogue-dump/.../ops/library_lineages.py]): resume what is recoverable,
    reject what is not, and never mix two lineages of one job. *)
From S2P Require Export ManifestProperties.
From Stdlib Require Import Ascii.
Open Scope Z_scope.

(** Source: catalogue-dump/ops/library_lineages.py, CheckpointRestartReason. *)
Inductive CheckpointRestartReason :=
| MALFORMED_CHECKPOINT | DURABLE_CONFIGURATION_UNAVAILABLE | DURABLE_CONFIGURATION_INVALID
| CHECKPOINT_IDENTITY_MISMATCH | COLLECTION_CONFIGURATION_CHANGED | INCOMPLETE_TERMINAL_CHECKPOINT.
#[export] Instance CheckpointRestartReason_eq_dec : EqDecision CheckpointRestartReason.
Proof. solve_decision. Defined.

(** Source: catalogue-dump/ops/library_lineages.py:30-40, LibraryLineageSpec. *)
Record LibraryLineageSpec := {
  ls_request : CollectionRequest; ls_connector : string; ls_connector_version : string;
  ls_connector_options : list (string * json); ls_dataset_fingerprint : string; ls_dataset_selection : json;
  ls_partitions : list string; ls_budget_state : json; ls_expires_at : option Z;
}.

(** Source: catalogue-dump/ops/library_lineages.py, ResolvedLibraryLineage. *)
Record ResolvedLibraryLineage := {
  rl_lineage : Z; rl_checkpoint : option ConnectorCheckpoint; rl_resuming : bool;
  rl_restart_reason : option CheckpointRestartReason; rl_progress : LineageProgressState;
}.

Section resolve.
(** The digest and float formatting of the fingerprint, and pydantic's dump and
  validation of a request. *)
Context (sha256 : string -> string) (float_repr : pyfloat -> string).
Context (dump : CollectionRequest -> json) (validate : list (string * json) -> option CollectionRequest).

(** Source: catalogue-dump/ops/library_lineages.py, LibraryLineageSpec.connector_config_fingerprint. *)
Definition config_fingerprint (spec : LibraryLineageSpec) : result pyexn string :=
  collection_fingerprint sha256 float_repr (ls_request spec) (ls_connector spec) (JDict (ls_connector_options spec)).

(** Source: catalogue-dump/ops/library_lineages.py, _validated_resume_checkpoint. *)
Definition validated_resume_checkpoint (persisted : ConnectorCheckpoint) (spec : LibraryLineageSpec) (fingerprint : string)
  : option ConnectorCheckpoint * option CheckpointRestartReason :=
  if bool_decide (k_connector persisted = ls_connector spec)
   && bool_decide (k_connector_version persisted = ls_connector_version spec)
   && bool_decide (k_source_id persisted = c_source_id (ls_request spec))
   && bool_decide (k_fingerprint persisted = fingerprint)
  then (Some persisted, None) else (None, Some CHECKPOINT_IDENTITY_MISMATCH).

(** Source: catalogue-dump/ops/library_lineages.py, _durable_request. *)
Definition durable_request (configuration : LineageRuntimeConfiguration)
  : option CollectionRequest * option CheckpointRestartReason :=
  if negb (bool_decide (rc_runtime_format configuration = COMMERCE_SCRAPER_V1))
  then (None, Some DURABLE_CONFIGURATION_UNAVAILABLE)
  else match rc_collection_request configuration, rc_connector_options configuration with
     | Some request, Some _ =>
         match validate request with
         | Some r => (Some r, None)
         | None => (None, Some DURABLE_CONFIGURATION_INVALID)
         end
     | _, _ => (None, Some DURABLE_CONFIGURATION_UNAVAILABLE)
     end.

(** Source: catalogue-dump/ops/library_lineages.py, _configuration_restart_reason. *)
Definition configuration_restart_reason (durable : CollectionRequest) (configuration : LineageRuntimeConfiguration)
    (spec : LibraryLineageSpec) (fingerprint : string) : option CheckpointRestartReason :=
  match rc_connector_options configuration with
  | None => Some DURABLE_CONFIGURATION_UNAVAILABLE
  | Some options =>
    if negb (bool_decide (c_source_id durable = c_source_id (ls_request spec)))
    then Some CHECKPOINT_IDENTITY_MISMATCH
    else match collection_fingerprint sha256 float_repr durable (ls_connector spec) (JDict options) with
         | Err _ => Some DURABLE_CONFIGURATION_INVALID
         | Ok f => if bool_decide (f = fingerprint) then None else Some COLLECTION_CONFIGURATION_CHANGED
         end
  end.

(** [reject_lineage] of one lineage that must still be active.
    Source: catalogue-dump/ops/library_lineages.py:96-100, resolve_library_lineage. *)
Definition reject_active (job lineage : Z) : mdb () :=
  rejected_ ← reject_lineage job lineage;
  lift (ensure rejected_ (RuntimeError "checkpoint lineage was no longer active")).

(** What the durable rows of the candidate say: its checkpoint, the reason to
    restart, and its progress.
    Source: catalogue-dump/ops/library_lineages.py:102-139, resolve_library_lineage. *)
Definition inspect_candidate (job candidate : Z) (spec : LibraryLineageSpec) (fingerprint : string) (m : Manifest)
  : option ConnectorCheckpoint * option CheckpointRestartReason * LineageProgressState :=
  let '(configuration, restart) := match lineage_runtime_configuration job candidate m with
                                 | Ok c => (Some c, None)
                                 | Err _ => (None, Some DURABLE_CONFIGURATION_INVALID)
                                 end in
  let '(progress, restart) := match lineage_progress job candidate m with
                            | Ok p => (p, restart)
                            | Err _ => ({| lp_state := EMPTY; lp_checkpoint := None |}, Some MALFORMED_CHECKPOINT)
                            end in
  match restart, configuration with
  | None, Some configuration =>
    match durable_request configuration with
    | (None, restart) => (None, restart, lp_state progress)
    | (Some durable, _) =>
        let restart := configuration_restart_reason durable configuration spec fingerprint in
        match restart, lp_state progress, lp_checkpoint progress with
        | None, RESUMABLE, Some persisted =>
            (validated_resume_checkpoint persisted spec fingerprint, lp_state progress)
        | _, TERMINAL_INCOMPLETE, _ => (None, Some INCOMPLETE_TERMINAL_CHECKPOINT, lp_state progress)
        | _, _, _ => (None, restart, lp_state progress)
        end
    end
  | _, _ => (None, restart, lp_state progress)
  end.

(** The row of a new lineage.
    Source: catalogue-dump/ops/library_lineages.py:148-164, resolve_library_lineage. *)
Definition spec_identity (spec : LibraryLineageSpec) (fingerprint : string) : LineageIdentity :=
  {| li_source_id := c_source_id (ls_request spec); li_source_url := c_base_url (ls_request spec);
   li_connector := ls_connector spec; li_connector_version := ls_connector_version spec;
   li_config_fingerprint := fingerprint; li_dataset_fingerprint := ls_dataset_fingerprint spec;
   li_dataset_selection := ls_dataset_selection spec; li_runtime_format := COMMERCE_SCRAPER_V1;
   li_collection_request := Some (dump (ls_request spec));
   li_connector_options := Some (JDict (ls_connector_options spec));
   li_budget_state := ls_budget_state spec; li_expires_at := ls_expires_at spec |}.

(** Source: catalogue-dump/ops/library_lineages.py, resolve_library_lineage. *)
Definition resolve_library_lineage (job : Z) (spec : LibraryLineageSpec) (datasets : list DatasetKey)
  : mdb ResolvedLibraryLineage := atomically (
  active_lineages ← active_lineages_for_runtime job COMMERCE_SCRAPER_V1 true;
  fingerprint ← lift (config_fingerprint spec);
  candidate ← gets (find_recoverable_library_lineage job (c_base_url (ls_request spec)) (ls_connector spec)
               (ls_connector_version spec) fingerprint (ls_dataset_fingerprint spec));
  _ ← for_each (fun a => if bool_decide (Some a = candidate) then mret () else reject_active job a) active_lineages;
  m ← gets id;
  let '(checkpoint, restart, progress) := match candidate with
                                        | Some c => inspect_candidate job c spec fingerprint m
                                        | None => (None, None, EMPTY)
                                        end in
  resolved ← match candidate, restart with
           | Some c, None =>
               mret {| rl_lineage := c; rl_checkpoint := checkpoint; rl_resuming := true; rl_restart_reason := None;
                       rl_progress := progress |}
           | _, _ =>
               _ ← match candidate with
                   | Some c => if bool_decide (c ∈ active_lineages) then reject_active job c else mret ()
                   | None => mret ()
                   end;
               lineage ← create_lineage job (spec_identity spec fingerprint) (ls_partitions spec) None;
               mret {| rl_lineage := lineage; rl_checkpoint := None; rl_resuming := false; rl_restart_reason := restart;
                       rl_progress := EMPTY |}
           end;
  _ ← for_each (fun key => prepare_dataset_for_collection job key (rl_resuming resolved)) datasets;
  mret resolved).
End resolve.

(** * What resolution guarantees *)

Lemma lineages_of_elem m job f i l :
  (i, l) ∈ lineages_of m job f <-> m_lineages m !! (job, i) = Some l /\ f l = true.
Proof.
  unfold lineages_of. rewrite merge_sort_Permutation, list_elem_of_omap. split.
  - intros ([[j i'] l'] & Hin & E). apply elem_of_map_to_list in Hin.
    destruct (bool_decide (j = job) && f l') eqn:Eb; simplify_eq. by bool_facts; subst.
  - intros [Hl Hf]. exists ((job, i), l). rewrite elem_of_map_to_list. by rewrite bool_decide_true, Hf by done.
Qed.

Lemma last_Some_elem {A} (l : list A) x : last l = Some x -> x ∈ l.
Proof. intros H. apply last_Some in H as [l' ->]. set_solver. Qed.

Lemma found_lineage m job f i :
  fst <$> last (lineages_of m job f) = Some i -> exists l, m_lineages m !! (job, i) = Some l /\ f l = true.
Proof.
  intros H. destruct (last (lineages_of m job f)) as [[i' l]|] eqn:E; simplify_eq/=.
  apply last_Some_elem, lineages_of_elem in E. by exists l.
Qed.

Lemma recoverable_found job url connector version config dataset m i :
  find_recoverable_library_lineage job url connector version config dataset m = Some i ->
  exists l, m_lineages m !! (job, i) = Some l
    /\ compatible url connector version config dataset COMMERCE_SCRAPER_V1 (m_now m) l = true
    /\ l_status l ∈ [active; completed; limited].
Proof.
  unfold find_recoverable_library_lineage, coalesce. intros H.
  destruct (fst <$> last _) as [i'|] eqn:E; simplify_eq;
    [apply found_lineage in E as (l & Hl & Hf)|apply found_lineage in H as (l & Hl & Hf)];
    apply andb_true_iff in Hf as [Hs Hc]; bool_facts; exists l; split_and!; try done; set_solver.
Qed.

(** Only lineages of the table differ. *)
Definition same_but_lineages (m m' : Manifest) : Prop :=
  m_pages m' = m_pages m /\ m_batches m' = m_batches m /\ m_outcomes m' = m_outcomes m /\ m_datasets m' = m_datasets m
  /\ m_next_uuid m' = m_next_uuid m /\ m_now m' = m_now m /\ m_jobs m' = m_jobs m.

(** The active lineages of the runtime. *)
Definition active_ids (m : Manifest) (job : Z) : list Z :=
  map fst (lineages_of m job (fun l =>
    bool_decide (li_runtime_format (l_identity l) = COMMERCE_SCRAPER_V1) && bool_decide (l_status l = active))).

(** Lineages [i] of the job that satisfy [P] are rejected, the others as they were. *)
Definition rejects (job : Z) (P : Z -> Prop) (m m' : Manifest) : Prop :=
  same_but_lineages m m' /\ forall j i,
    (j = job /\ P i /\ exists l, m_lineages m' !! (j, i) = Some l /\ l_status l = rejected)
    \/ (~ (j = job /\ P i) /\ m_lineages m' !! (j, i) = m_lineages m !! (j, i)).

Lemma reject_active_Ok job a m m' : reject_active job a m = (Ok (), m') -> rejects job (fun i => i = a) m m'.
Proof.
  unfold reject_active. intros H. apply bind_inv in H as (b & m1 & E & H). unfold lift, ensure in H.
  destruct b; simplify_eq. revert E. unfold reject_lineage, get_lineage, set_lineage, mbind, eff_bind, gets, modify, mret, eff_ret.
  destruct (m_lineages m !! (job, a)) as [l|] eqn:El; [|done]. case_bool_decide; [|done]. intros [= <-].
  split; [by split_and!|]. intros j i. simpl. destruct (decide (j = job /\ i = a)) as [[-> ->]|Hne].
  - left. rewrite lookup_insert_eq. split_and!; [done..|]. by eexists.
  - right. split; [done|]. rewrite lookup_insert_ne; [done|]. intros [= -> ->]. tauto.
Qed.

Lemma reject_others_Ok job candidate l m m' :
  for_each (fun a => if bool_decide (Some a = candidate) then mret () else reject_active job a) l m = (Ok (), m') ->
  rejects job (fun i => i ∈ l /\ Some i <> candidate) m m'.
Proof.
  revert l m m'. apply for_each_ind.
  - intros m. split; [by split_and!|]. intros j i. right. split; [|done]. by intros (_ & []%elem_of_nil & _).
  - intros a l m m1 m2 H [Hs IH]. case_bool_decide as Ha.
    + unfold mret, eff_ret in H. simplify_eq. split; [done|]. intros j i. destruct (IH j i) as [(-> & [? ?] & ?)|[Hn E]].
      * left. split_and!; [done|set_solver|done|done].
      * right. split; [|done]. intros (-> & [->|?]%elem_of_cons & ?); [done|]. by apply Hn.
    + apply reject_active_Ok in H as [(? & ? & ? & ? & ? & ? & ?) Hone]. destruct Hs as (? & ? & ? & ? & ? & ? & ?).
      split; [split_and!; congruence|]. intros j i. destruct (IH j i) as [(-> & [? ?] & ?)|[Hn E]].
      * left. split_and!; [done|set_solver|done|done].
      * destruct (Hone j i) as [(-> & -> & lin & Hl & ?)|[Hn' E']].
        -- left. split_and!; [done|set_solver|done|]. exists lin. by rewrite E.
        -- right. split; [|congruence]. intros (-> & [->|?]%elem_of_cons & ?); [by apply Hn'|by apply Hn].
Qed.

(** A dataset as it is before anything is collected. *)
Definition pending_dataset : DatasetRow :=
  {| ds_state := "pending"; ds_complete := false; ds_records := 0; ds_rejected := 0; ds_error := None; ds_promoted_at := None |}.

Lemma prepare_new_Ok job key m :
  exists m', prepare_dataset_for_collection job key false m = (Ok (), m')
  /\ m_datasets m' = <[(job, key) := pending_dataset]> (m_datasets m).
Proof.
  unfold prepare_dataset_for_collection, declare_dataset, update_dataset, mbind, eff_bind, modify.
  eexists. split; [done|]. simpl. destruct (m_datasets m !! (job, key)) eqn:E; simpl; apply map_eq; intros k;
    destruct (decide (k = (job, key))) as [->|]; rewrite ?lookup_alter_eq, ?lookup_insert_eq, ?E; try done;
    by rewrite lookup_alter_ne, !lookup_insert_ne by done || by rewrite lookup_alter_ne, lookup_insert_ne by done.
Qed.

Lemma prepare_each_Ok job resuming keys m m' :
  for_each (fun key => prepare_dataset_for_collection job key resuming) keys m = (Ok (), m') ->
  same_rows m m' /\ (resuming = false -> forall key, key ∈ keys -> m_datasets m' !! (job, key) = Some pending_dataset)
  /\ (resuming = false -> forall key, key ∉ keys -> m_datasets m' !! (job, key) = m_datasets m !! (job, key)).
Proof.
  revert keys m m'. apply for_each_ind.
  - intros m. split_and!; try done. by intros _ key ?%elem_of_nil.
  - intros key l m m1 m2 H (IH1 & IH2 & IH3).
    assert (same_rows m m1) as Hs.
    { pose proof (dataset_operation_rows (PrepareDataset job key resuming) m eq_refl) as [Hr _]. simpl in Hr.
      unfold run in Hr. by rewrite H in Hr. }
    split; [|split; intros ->].
    + destruct Hs as (? & ? & ? & ? & ? & ?), IH1 as (? & ? & ? & ? & ? & ?). split_and!; try congruence. by etrans.
    + intros k Hk. destruct (decide (k ∈ l)) as [|Hn]; [by apply IH2|]. apply elem_of_cons in Hk as [->|]; [|done].
      rewrite (IH3 eq_refl _ Hn). destruct (prepare_new_Ok job key m) as (m0 & E & Ed). rewrite E in H. simplify_eq.
      by rewrite Ed, lookup_insert_eq.
    + intros k [Hk Hl]%not_elem_of_cons. rewrite (IH3 eq_refl _ Hl).
      destruct (prepare_new_Ok job key m) as (m0 & E & Ed). rewrite E in H. simplify_eq.
      rewrite Ed, lookup_insert_ne; [done|]. congruence.
Qed.

Lemma create_new_Ok job identity partitions m i m' :
  create_lineage job identity partitions None m = (Ok i, m') -> m_lineages m !! (job, m_next_uuid m) = None ->
  i = m_next_uuid m /\ exists l, l_identity l = identity /\ l_status l = active
    /\ m' = (set_lineage job i l (m <| m_next_uuid := m_next_uuid m + 1 |>)).2.
Proof.
  unfold create_lineage. intros H Hn. apply lift_ensure_inv in H as [_ H].
  apply bind_inv in H as (u & m1 & E1 & H). unfold new_lineage_id in E1. simplify_eq. eff_inv H. cbn in H. rewrite Hn in H.
  eff_inv H. unfold set_lineage, modify in *. simplify_eq. unfold mret, eff_ret in H. simplify_eq. split; [done|]. eexists. by split_and!; [| |by symmetry].
Qed.

Lemma active_lineages_Ok job runtime lock m l m' :
  active_lineages_for_runtime job runtime lock m = (Ok l, m') ->
  m' = m /\ l = map fst (lineages_of m job (fun l =>
    bool_decide (li_runtime_format (l_identity l) = runtime) && bool_decide (l_status l = active))).
Proof. unfold active_lineages_for_runtime. intros H. eff_inv H. unfold gets in H. by simplify_eq. Qed.

(** After the others are rejected only the candidate can be active. *)
Lemma only_candidate_active job candidate m m1 :
  rejects job (fun i => i ∈ active_ids m job /\ Some i <> candidate) m m1 ->
  forall i l, m_lineages m1 !! (job, i) = Some l -> l_status l = active ->
    li_runtime_format (l_identity l) = COMMERCE_SCRAPER_V1 -> Some i = candidate.
Proof.
  intros [_ H] i l Hl Ha Hc. destruct (H job i) as [(_ & _ & l' & Hl' & Hr)|[Hn E]]; [congruence|].
  destruct (decide (Some i = candidate)) as [|Hne]; [done|]. exfalso. apply Hn. split_and!; [done| |done].
  rewrite E in Hl. apply list_elem_of_fmap. exists (i, l). split; [done|]. apply lineages_of_elem.
  by rewrite !bool_decide_true.
Qed.

Lemma lineage_progress_ext job i m m' :
  m_lineages m' !! (job, i) = m_lineages m !! (job, i) -> m_pages m' = m_pages m ->
  lineage_progress job i m' = lineage_progress job i m.
Proof. intros E1 E2. unfold lineage_progress, lineage_pages. by rewrite E1, E2. Qed.

Section guarantees.
Context (sha256 : string -> string) (float_repr : pyfloat -> string).
Context (dump : CollectionRequest -> json) (validate : list (string * json) -> option CollectionRequest).

Lemma inspect_sound job c spec fingerprint m checkpoint progress :
  inspect_candidate sha256 float_repr validate job c spec fingerprint m = (checkpoint, None, progress) ->
  exists p, lineage_progress job c m = Ok p /\ lp_state p = progress /\ progress <> TERMINAL_INCOMPLETE
  /\ (forall k, checkpoint = Some k -> lp_checkpoint p = Some k /\ progress = RESUMABLE
        /\ k_connector k = ls_connector spec /\ k_connector_version k = ls_connector_version spec
        /\ k_source_id k = c_source_id (ls_request spec) /\ k_fingerprint k = fingerprint)
  /\ (progress = RESUMABLE -> lp_checkpoint p = checkpoint).
Proof.
  unfold inspect_candidate. destruct (lineage_runtime_configuration job c m) as [configuration|];
  destruct (lineage_progress job c m) as [p|]; try done.
  unfold durable_request. destruct (negb _); [done|]. destruct (rc_collection_request configuration); [|done].
  destruct (rc_connector_options configuration) eqn:Eo; [|done]. destruct (validate _) as [durable|]; [|done].
  destruct (configuration_restart_reason _ _ durable configuration spec fingerprint) eqn:Er;
  destruct (lp_state p) eqn:Es; try done;
  destruct (lp_checkpoint p) as [k|] eqn:Ek; try done; intros [= <- <-] || intros H;
  try (exists p; rewrite ?Es, ?Ek; split_and!; done).
  unfold validated_resume_checkpoint in H. destruct (_ && _) eqn:Eb; simplify_eq. bool_facts.
  exists p. rewrite Es, Ek. split_and!; try done. intros k' [= <-]. by split_and!.
Qed.

(** No lineage of the runtime is active, and no new one is there. *)
Definition cleared (job : Z) (m m' : Manifest) : Prop :=
  same_but_lineages m m'
  /\ (forall i l, m_lineages m' !! (job, i) = Some l -> l_status l = active ->
      li_runtime_format (l_identity l) = COMMERCE_SCRAPER_V1 -> False)
  /\ (forall i, m_lineages m !! (job, i) = None -> m_lineages m' !! (job, i) = None).

Lemma rejects_none job candidate m m1 :
  rejects job (fun i => i ∈ active_ids m job /\ Some i <> candidate) m m1 ->
  forall i, m_lineages m !! (job, i) = None -> m_lineages m1 !! (job, i) = None.
Proof.
  intros [_ H] i Hi. destruct (H job i) as [(_ & [Hin _] & _)|[_ E]]; [|congruence].
  apply list_elem_of_fmap in Hin as ([i' l] & -> & Hl). apply lineages_of_elem in Hl as [Hl _]. simpl in *. congruence.
Qed.

Lemma cleared_candidate job c m m1 mb :
  same_but_lineages m m1 -> is_Some (m_lineages m !! (job, c)) ->
  (forall i, m_lineages m !! (job, i) = None -> m_lineages m1 !! (job, i) = None) ->
  (forall i l, m_lineages m1 !! (job, i) = Some l -> l_status l = active ->
   li_runtime_format (l_identity l) = COMMERCE_SCRAPER_V1 -> Some i = Some c) ->
  rejects job (fun i => i = c) m1 mb
  \/ (forall l, m_lineages m1 !! (job, c) = Some l -> l_status l = active ->
      li_runtime_format (l_identity l) = COMMERCE_SCRAPER_V1 -> False) /\ mb = m1 ->
  cleared job m mb.
Proof.
  intros Hs [l0 Hc] Hnone Ha [[Hs' Hr]|[Hn ->]].
  - destruct Hs as (? & ? & ? & ? & ? & ? & ?), Hs' as (? & ? & ? & ? & ? & ? & ?). split; [split_and!; congruence|]. split.
  + intros i l L1 L2 L3. destruct (Hr job i) as [(_ & -> & l' & Hl' & Hr')|[Hn E]]; [congruence|].
    rewrite E in L1. apply Hn. split; [done|]. specialize (Ha i l L1 L2 L3). congruence.
  + intros i Hi. destruct (Hr job i) as [(_ & -> & _)|[_ E]]; [congruence|]. rewrite E. by apply Hnone.
  - split; [done|]. split; [|done]. intros i l H1 H2 H3. specialize (Ha i l H1 H2 H3). simplify_eq. by apply (Hn l).
Qed.

Lemma restart_Ok job spec fingerprint restart m mb r m2 :
  cleared job m mb -> m_lineages m !! (job, m_next_uuid m) = None ->
  (lineage ← create_lineage job (spec_identity dump spec fingerprint) (ls_partitions spec) None;
  mret {| rl_lineage := lineage; rl_checkpoint := None; rl_resuming := false; rl_restart_reason := restart;
         rl_progress := EMPTY |}) mb = (Ok r, m2) ->
  (forall i l, m_lineages m2 !! (job, i) = Some l -> l_status l = active ->
   li_runtime_format (l_identity l) = COMMERCE_SCRAPER_V1 -> i = rl_lineage r)
  /\ m_pages m2 = m_pages m /\ m_batches m2 = m_batches m /\ m_outcomes m2 = m_outcomes m
  /\ rl_resuming r = false /\ m_lineages m !! (job, rl_lineage r) = None /\ rl_checkpoint r = None /\ rl_progress r = EMPTY
  /\ exists l, m_lineages m2 !! (job, rl_lineage r) = Some l /\ l_status l = active.
Proof.
  intros ((S1 & S2 & S3 & _ & S5 & _) & Hno & Hnone) Hf H. apply bind_inv in H as (i & m1 & E & H).
  unfold mret, eff_ret in H. simplify_eq. apply create_new_Ok in E as (-> & l & Hi & Ha & ->).
  - cbn. split_and!; try done.
  + intros i l'. destruct (decide (i = m_next_uuid mb)) as [->|]; [done|].
    rewrite lookup_insert_ne by congruence. intros H1 H2 H3. by destruct (Hno i l' H1 H2 H3).
  + by rewrite S5.
  + exists l. by rewrite lookup_insert_eq.
  - rewrite S5. by apply Hnone.
Qed.

(** C18. Resolving a lineage is atomic and unambiguous: it leaves at most one active
  lineage of the runtime in the job, the one it returns; it resumes only a
  lineage that was recoverable for exactly this configuration, with the
  checkpoint of its own progress or none; otherwise the lineage is new and empty
  and every dataset of the collection starts from nothing; no page, batch or
  outcome is touched, and a failure changes nothing. *)
Theorem resolve_selects_one_lineage job spec datasets m r m' :
  (forall j, m_lineages m !! (j, m_next_uuid m) = None) ->
  resolve_library_lineage sha256 float_repr dump validate job spec datasets m = (r, m') ->
  match r with
  | Err _ => m' = m
  | Ok r =>
    (forall i l, m_lineages m' !! (job, i) = Some l -> l_status l = active ->
       li_runtime_format (l_identity l) = COMMERCE_SCRAPER_V1 -> i = rl_lineage r)
    /\ (m_pages m' = m_pages m /\ m_batches m' = m_batches m /\ m_outcomes m' = m_outcomes m)
    /\ if rl_resuming r
       then exists l fingerprint p, m_lineages m !! (job, rl_lineage r) = Some l
              /\ m_lineages m' !! (job, rl_lineage r) = Some l
              /\ config_fingerprint sha256 float_repr spec = Ok fingerprint
              /\ compatible (c_base_url (ls_request spec)) (ls_connector spec) (ls_connector_version spec) fingerprint
                   (ls_dataset_fingerprint spec) COMMERCE_SCRAPER_V1 (m_now m) l = true
              /\ lineage_progress job (rl_lineage r) m = Ok p /\ lp_state p = rl_progress r
              /\ rl_progress r <> TERMINAL_INCOMPLETE
              /\ (rl_progress r = RESUMABLE -> lp_checkpoint p = rl_checkpoint r)
              /\ (forall k, rl_checkpoint r = Some k -> k_source_id k = c_source_id (ls_request spec) /\ k_fingerprint k = fingerprint)
       else m_lineages m !! (job, rl_lineage r) = None /\ rl_checkpoint r = None /\ rl_progress r = EMPTY
            /\ (exists l, m_lineages m' !! (job, rl_lineage r) = Some l /\ l_status l = active)
            /\ forall key, key ∈ datasets -> m_datasets m' !! (job, key) = Some pending_dataset
  end.
Proof.
  intros Hfresh H. destruct r as [r|e]; [|by apply atomically_Err in H].
  unfold resolve_library_lineage in H. apply atomically_Ok in H.
  apply bind_inv in H as (actives & m0 & E0 & H). apply active_lineages_Ok in E0 as [-> ->].
  apply bind_inv in H as (fingerprint & m0 & E0 & H). unfold lift in E0. injection E0 as Ef <-.
  apply bind_inv in H as (candidate & m0 & E0 & H). unfold gets in E0. injection E0 as Ec <-.
  apply bind_inv in H as ([] & m1 & E1 & H). apply reject_others_Ok in E1 as Hr.
  fold (active_ids m job) in *. pose proof Hr as [Hs1 Hr1].
  apply bind_inv in H as (m1' & m1'' & E0 & H). unfold gets, id in E0. injection E0 as <- <-.
  destruct (match candidate with Some c => inspect_candidate _ _ _ job c spec fingerprint m1 | None => _ end)
  as [[checkpoint restart] progress] eqn:Ei.
  apply bind_inv in H as (r0 & m2 & E2 & H). apply bind_inv in H as ([] & m3 & E3 & H).
  unfold mret, eff_ret in H. injection H as -> ->. apply prepare_each_Ok in E3 as ((P1 & P2 & P3 & P4 & _) & P5 & _).
  rewrite P1, P2, P3, P4.
  pose proof (only_candidate_active job candidate m m1 Hr) as Ha1.
  destruct candidate as [c|]; [destruct restart as [reason|]|].
  - apply bind_inv in E2 as ([] & mb & Eb & E2).
  destruct (restart_Ok job spec fingerprint (Some reason) m mb r m2) as (R1 & R2 & R3 & R4 & R5 & R6 & R7 & R8 & R9); [|apply Hfresh|exact E2|].
  { destruct (recoverable_found _ _ _ _ _ _ _ _ Ec) as (l & Hl & _).
    apply (cleared_candidate job c m m1); [exact Hs1|by eexists|by eapply rejects_none|exact Ha1|].
    case_bool_decide as Hc; [left; by apply reject_active_Ok|right]. split; [|by unfold mret, eff_ret in Eb; simplify_eq].
    intros l' Hl' Ha Hf'. apply Hc. apply list_elem_of_fmap. exists (c, l'). split; [done|]. apply lineages_of_elem.
    destruct (Hr1 job c) as [(_ & [_ ?] & _)|[_ E]]; [done|]. rewrite <- E. by rewrite !bool_decide_true. }
  rewrite R5. split_and!; try done. by apply P5.
  - unfold mret, eff_ret in E2. simplify_eq. cbn [rl_resuming rl_lineage rl_checkpoint rl_progress].
  destruct Hs1 as (S1 & S2 & S3 & _ & _ & S6 & _).
  destruct (Hr1 job c) as [(_ & [_ ?] & _)|[_ E]]; [done|].
  destruct (recoverable_found _ _ _ _ _ _ _ _ Ec) as (l & Hl & Hcomp & _).
  destruct (inspect_sound _ _ _ _ _ _ _ Ei) as (p & Hp & Hst & Hinc & Hck & Hres).
  split; [|split; [done|]].
  + intros i l' H1 H2 H3. specialize (Ha1 i l' H1 H2 H3). congruence.
  + exists l, fingerprint, p. rewrite E. rewrite <- (lineage_progress_ext job c m _ E S1). split_and!; try done.
    intros k Hk. by destruct (Hck k Hk) as (_ & _ & _ & _ & ? & ?).
  - apply bind_inv in E2 as ([] & mb & Eb & E2). unfold mret, eff_ret in Eb. simplify_eq.
  destruct (restart_Ok job spec fingerprint None m mb r m2) as (R1 & R2 & R3 & R4 & R5 & R6 & R7 & R8 & R9); [|apply Hfresh|exact E2|].
  { split; [done|]. split; [intros i l H1 H2 H3; by specialize (Ha1 i l H1 H2 H3)|].
    by eapply rejects_none. }
  rewrite R5. split_and!; try done. by apply P5.
Qed.
End guarantees.

(** * A restart and a resumption *)

Module ResolveDemo.
Definition request : CollectionRequest :=
  {| c_source_id := "shop"; c_base_url := "https://shop"; c_refresh_mode := FULL; c_requested_fields := [F_IDENTITY];
   c_result_limit := None; c_partitions := [] |}.
Definition spec : LibraryLineageSpec :=
  {| ls_request := request; ls_connector := "shopify"; ls_connector_version := "1"; ls_connector_options := [];
   ls_dataset_fingerprint := ManifestDemo.digest; ls_dataset_selection := JList []; ls_partitions := ["main"];
   ls_budget_state := JDict []; ls_expires_at := None |}.
Definition resolve : mdb ResolvedLibraryLineage :=
  resolve_library_lineage (fun _ => ManifestDemo.digest) (fun _ => "") (fun _ => JDict []) (fun _ => Some request) 1 spec
  [ManifestDemo.items].
(** The first resolution, a page, and the second one. *)
Definition started : Manifest := performs [NewJob 1] no_tables.
Definition interrupted : Manifest := Eval vm_compute in performs [CommitPage 1 0 ManifestDemo.first false] (resolve started).2.
End ResolveDemo.

Example first_resolution_is_new :
  (fun r => (rl_lineage r, rl_resuming r, rl_progress r))
    <$> match (ResolveDemo.resolve ResolveDemo.started).1 with Ok r => Some r | Err _ => None end = Some (0, false, EMPTY).
Proof. reflexivity. Qed.

Lemma resolve_selects_one_lineage_witness :
  exists r m', ResolveDemo.resolve ResolveDemo.interrupted = (Ok r, m') /\ rl_resuming r = true /\ rl_progress r = RESUMABLE
    /\ (k_resume_after <$> rl_checkpoint r) = Some (JInt 1)
    /\ (forall i l, m_lineages m' !! (1, i) = Some l -> l_status l = active ->
          li_runtime_format (l_identity l) = COMMERCE_SCRAPER_V1 -> i = rl_lineage r).
Proof.
  destruct (StoreDemo.is_ok_Ok (ResolveDemo.resolve ResolveDemo.interrupted) ltac:(vm_compute; reflexivity)) as (r & m' & E).
  pose proof (resolve_selects_one_lineage (fun _ => ManifestDemo.digest) (fun _ => "") (fun _ => JDict [])
    (fun _ => Some ResolveDemo.request) 1 ResolveDemo.spec [ManifestDemo.items] ResolveDemo.interrupted (Ok r) m') as H.
  destruct H as [H1 _]; [|exact E|].
  - intros j. assert (H : bool_decide (map_Forall (fun k (_ : Lineage) => k.2 <> m_next_uuid ResolveDemo.interrupted)
      (m_lineages ResolveDemo.interrupted)) = true) by (vm_compute; reflexivity).
    apply bool_decide_eq_true_1 in H. destruct (m_lineages ResolveDemo.interrupted !! (j, _)) eqn:El; [|done].
    by apply H in El.
  - exists r, m'. assert (Hr : (ResolveDemo.resolve ResolveDemo.interrupted).1 = Ok r) by (by rewrite E).
    vm_compute in Hr. injection Hr as <-. split; [exact E|]. split_and!; [reflexivity..|exact H1].
Defined.
