(* ===== verification/Pipeline.v ===== *)
(** The page pipeline ([catalogue-dump/.../pipeline/runner.py]): every page of a
    connector is projected into each selected dataset, staged, and committed with
    its cursor before the next page is taken. *)
From S2P Require Export Datasets Lineages.
From Stdlib Require Import Ascii.
Open Scope Z_scope.

Abbreviation Page := (EntityPage CommerceProductSnapshot).

(** [str(error)] *)
Definition exn_str (e : pyexn) : string :=
  match e with
  | ValueError m | TypeError m | RuntimeError m | AssertionError m => m
  | KeyError m => "'" +:+ m +:+ "'"
  end.

(** [try: m except Exception as error: ...] with the outcome as a value. *)
Definition attempt {S A} (m : eff S pyexn A) : eff S pyexn (pyexn + A) := fun s =>
  match m s with
  | (Ok a, s') => (Ok (inr a), s')
  | (Err e, s') => (Ok (inl e), s')
  end.

(** The state of every dataset of a run, in the order of selection. *)
Definition states_t : Type := list (string * DatasetPageState).

(** Source: catalogue-dump/pipeline/runner.py:41-47, PipelineResult. *)
Record PipelineResult := {
  pr_pages : Z; pr_terminal : bool; pr_intact : bool; pr_limited : bool; pr_datasets : states_t;
}.

(** Source: catalogue-dump/pipeline/runner.py, PipelineResult.__post_init__. *)
Definition new_result (r : PipelineResult) : result pyexn PipelineResult :=
  _ ← ensure (negb (pr_limited r && (negb (pr_terminal r) || pr_intact r)))
        (ValueError "a result-limited pipeline must terminate with an incomplete enumeration");
  Ok r.

(** What a connector's [collect] gives its consumer: the pages, and the exception
    that ends them, if any. *)
Record Collected := { co_pages : list Page; co_error : option pyexn }.

(** The database half of the page protocol.
    Source: catalogue-dump/pipeline/runner.py, PageCommitter. *)
Class PageCommitter (DB : Type) := {
  commit_collected : Page -> list StoredBatch -> list DatasetPageOutcome -> eff DB pyexn ();
}.

Section run.
Context {FS DB : Type} `{!ArtifactStore FS} `{!PageCommitter DB}.
Context (registry : DatasetRegistry) (job_id lineage source_id : string).
Context (projection_configuration : string -> record).

(** Statements of the store, and of the committer. *)
Definition in_store {A : Type} (m : eff FS pyexn A) : eff (FS * DB) pyexn A := fun '(fs, t) =>
  let '(r, fs') := m fs in (r, (fs', t)).
Definition in_tables {A : Type} (m : eff DB pyexn A) : eff (FS * DB) pyexn A := fun '(fs, t) =>
  let '(r, t') := m t in (r, (fs, t')).

(** Source: catalogue-dump/pipeline/runner.py, ConnectorPipeline._records. *)
Definition page_records (items : list CommerceProductSnapshot) (dataset : string) (x : ProjectionContext)
  : result pyexn (list record) :=
  l ← map_result (fun entity => project_validated registry dataset entity x) items;
  Ok (concat l).

(** Source: catalogue-dump/pipeline/runner.py:135-142, ConnectorPipeline.run. *)
Definition context_for (d : DatasetDefinition) (name : string) : ProjectionContext :=
  {| x_collection_id := lineage; x_source_id := source_id; x_dataset := name; x_dataset_version := dd_version d;
   x_projector_version := dd_projector_version d; x_configuration := projection_configuration name |}.

(** Source: catalogue-dump/pipeline/runner.py:143-152, ConnectorPipeline.run. *)
Definition batch_identity (page : Page) (d : DatasetDefinition) (name : string) : BatchIdentity :=
  {| bi_job_id := job_id; bi_lineage := lineage; bi_partition := p_partition_key page; bi_page_id := p_page_id page;
   bi_sequence := p_sequence page; bi_dataset := name; bi_contract := dd_version d;
   bi_projector := dd_projector_version d |}.

(** What one dataset contributes to a page: its new state, its batch and its
    outcome. Source: catalogue-dump/pipeline/runner.py:128-174, ConnectorPipeline.run. *)
Definition project_dataset (page : Page) (state : DatasetPageState) (name : string)
  : eff (FS * DB) pyexn (DatasetPageState * option StoredBatch * DatasetPageOutcome) :=
  d ← lift (definition_of registry name);
  if bool_decide (state = FAILED)
  then mret (FAILED, None, {| po_dataset := name; po_state := SKIPPED; po_records := 0; po_error := None |})
  else
  x ← lift (new_context (context_for d name));
  staged_ ← attempt (in_store (stage_batch (batch_identity page d name) (page_records (p_items page) name x)));
  match staged_ with
  | inl e => mret (FAILED, None, {| po_dataset := name; po_state := FAILED; po_records := 0; po_error := Some (exn_str e) |})
  | inr b => mret (state, Some b, {| po_dataset := name; po_state := SUCCEEDED; po_records := so_records (sb_object b); po_error := None |})
  end.

(** The selected datasets in order.
    Source: catalogue-dump/pipeline/runner.py:127-174, ConnectorPipeline.run. *)
Fixpoint project_page (page : Page) (states : states_t)
  : eff (FS * DB) pyexn (states_t * list StoredBatch * list DatasetPageOutcome) :=
  match states with
  | [] => mret ([], [], [])
  | (name, state) :: rest =>
    '(state', batch, outcome) ← project_dataset page state name;
    '(rest', batches, outcomes) ← project_page page rest;
    mret ((name, state') :: rest', option_list batch ++ batches, outcome :: outcomes)
  end.

(** Source: catalogue-dump/pipeline/runner.py:111-114, ConnectorPipeline.run. *)
Definition page_limited (page : Page) : bool :=
  existsb (fun d => bool_decide (d_code d = RESULT_LIMIT_REACHED)) (p_diagnostics page).
(** Source: catalogue-dump/pipeline/runner.py:115-123, ConnectorPipeline.run. *)
Definition check_limited (page : Page) : result pyexn () :=
  if page_limited page then
  _ ← ensure (p_terminal page && negb (p_enumeration_intact page))
        (ValueError "a result-limit page must be terminal with an incomplete enumeration");
  ensure (is_some (p_resume_after page)) (ValueError "a result-limit page must retain a resumable checkpoint cursor")
  else Ok ().

(** Source: catalogue-dump/pipeline/runner.py:110-183, ConnectorPipeline.run. *)
Definition run_page (page : Page) (r : PipelineResult) : eff (FS * DB) pyexn PipelineResult :=
  _ ← lift (check_limited page);
  '(states, batches, outcomes) ← project_page page (pr_datasets r);
  _ ← in_tables (commit_collected page batches outcomes);
  mret {| pr_pages := pr_pages r + 1; pr_terminal := p_terminal page; pr_intact := pr_intact r && p_enumeration_intact page;
        pr_limited := pr_limited r || page_limited page; pr_datasets := states |}.

Fixpoint run_pages (pages : list Page) (r : PipelineResult) : eff (FS * DB) pyexn PipelineResult :=
  match pages with
  | [] => mret r
  | page :: rest => r ← run_page page r; run_pages rest r
  end.

(** The checks before the first page.
    Source: catalogue-dump/pipeline/runner.py:93-103, ConnectorPipeline.run. *)
Definition check_selection (capabilities : ConnectorCapabilities) (refresh : RefreshMode)
    (requested : list SnapshotField) (selected : list string) : result pyexn () :=
  _ ← ensure (negb (bool_decide (selected = []))) (ValueError "at least one dataset is required");
  '(fields, needed) ← collection_requirements registry selected;
  _ ← ensure (supports capabilities fields refresh) (ValueError "connector capabilities do not satisfy selected datasets");
  _ ← ensure (forallb (fun f => bool_decide (f ∈ requested)) fields)
      (ValueError "collection request omits fields required by selected datasets");
  ensure (forallb (fun c => bool_decide (c ∈ named_capabilities capabilities)) needed)
  (ValueError "connector lacks dataset capabilities").

(** Source: catalogue-dump/pipeline/runner.py:105-109, ConnectorPipeline.run. *)
Definition start_result (selected : list string) (initial : string -> option DatasetPageState) : PipelineResult :=
  {| pr_pages := 0; pr_terminal := false; pr_intact := true; pr_limited := false;
   pr_datasets := map (fun name => (name, default SUCCEEDED (initial name))) selected |}.

(** [selected] is [tuple(dict.fromkeys(datasets))].
    Source: catalogue-dump/pipeline/runner.py, ConnectorPipeline.run. *)
Definition run_pipeline (capabilities : ConnectorCapabilities) (refresh : RefreshMode) (requested : list SnapshotField)
    (datasets : list string) (initial : string -> option DatasetPageState) (collected : Collected)
  : eff (FS * DB) pyexn PipelineResult :=
  let selected := reverse (remove_dups (reverse datasets)) in
  _ ← lift (check_selection capabilities refresh requested selected);
  r ← run_pages (co_pages collected) (start_result selected initial);
  _ ← match co_error collected with Some e => throw e | None => mret () end;
  lift (new_result r).
End run.

(** The committer of the job store.
    Source: catalogue-dump/ops/outputs.py, PostgresPageCommitter. *)
Definition PostgresPageCommitter (job lineage : Z) (version : string) (datasets : list (string * DatasetKey)) (dynamic : bool)
  : PageCommitter Manifest := {| commit_collected := commit_entity_page job lineage version datasets dynamic |}.
