(* ===== verification/PipelineResume.v ===== *)
(** Exactly-once collection: attempts of the pipeline that are cut anywhere, read
    their position from the manifest and go on, record every page of the collection
    once, in order, with the projection of exactly that page. *)
From S2P Require Export Pipeline.
From Stdlib Require Import Ascii.
Open Scope Z_scope.

(** * Rows of one lineage under other operations *)

Definition commits_to (job lineage : Z) (o : operation) : bool :=
  match o with CommitPage j l _ _ => bool_decide ((j, l) = (job, lineage)) | _ => false end.

Definition lineage_batches (job lineage : Z) (m : Manifest) : list BatchRow :=
  filter (fun b => lineage_of (br_page b) = (job, lineage)) (m_batches m).

(** The pages and batches of a lineage are as they were, and so is what identifies it. *)
Record same_lineage (job lineage : Z) (m m' : Manifest) : Prop := {
  sl_pages : lineage_pages job lineage m' = lineage_pages job lineage m;
  sl_batches : lineage_batches job lineage m' = lineage_batches job lineage m;
  sl_row l : m_lineages m !! (job, lineage) = Some l ->
    exists l', m_lineages m' !! (job, lineage) = Some l' /\ l_partitions l' = l_partitions l /\ l_identity l' = l_identity l;
}.

Lemma same_lineage_refl job lineage m : same_lineage job lineage m m.
Proof. by split; eauto. Qed.
#[export] Hint Resolve same_lineage_refl : core.

Lemma same_rows_lineage job lineage m m' : same_rows m m' -> same_lineage job lineage m m'.
Proof.
  intros (E1 & E2 & E3 & _). split; unfold lineage_pages, lineage_batches; rewrite ?E1, ?E2, ?E3; try done.
  intros l Hl. by exists l.
Qed.

Lemma set_lineage_same job lineage j i l l' m :
  m_lineages m !! (j, i) = Some l -> l_partitions l' = l_partitions l -> l_identity l' = l_identity l ->
  same_lineage job lineage m (set_lineage j i l' m).2.
Proof.
  intros Hl Hp Hi. split; try done. intros l0 Hl0. simpl. destruct (decide ((job, lineage) = (j, i))) as [[= -> ->]|].
  - rewrite lookup_insert_eq. simplify_eq. by exists l'.
  - rewrite lookup_insert_ne by done. by exists l0.
Qed.

Lemma other_lineage_commit job lineage j i c declare m :
  (j, i) <> (job, lineage) -> same_lineage job lineage m (run (commit_page j i c declare) m).
Proof.
  intros Hne. unfold run. destruct (commit_page j i c declare m) as [[b|e] m'] eqn:E; [|apply atomically_Err in E; by subst].
  apply commit_page_Ok in E as (l & Hl & Ha & _ & H). cbv zeta in H.
  assert (same_lineage job lineage m (with_partition j i c declare l m)) as H1.
  { unfold with_partition. destruct declare; [|done]. rewrite declare_partition_spec. simpl.
    case_bool_decide; [done|]. split; try done. intros l0 Hl0. simpl. rewrite lookup_insert_ne by done. by exists l0. }
  set (m1 := with_partition j i c declare l m) in *. simpl. destruct b; [|by destruct H as [_ ->]].
  destruct H as [_ H]. destruct H1 as [P1 P2 P3]. pose proof (ap_tables _ _ _ _ _ H) as [_ Hlin _ _]. split.
  - rewrite <- P1. unfold lineage_pages. rewrite (ap_pages _ _ _ _ _ H), filter_app, (filter_none _ [_]); [by rewrite app_nil_r|].
    by apply Forall_singleton.
  - rewrite <- P2. unfold lineage_batches. rewrite (ap_batches _ _ _ _ _ H), filter_app, (filter_none _ (map _ _)); [by rewrite app_nil_r|].
    by apply Forall_map, Forall_forall.
  - rewrite Hlin. exact P3.
Qed.

Lemma other_operation_same job lineage o m :
  commits_to job lineage o = false -> same_lineage job lineage m (perform o m).
Proof.
  intros Hc. destruct (dataset_operation o) eqn:Ho; [by apply same_rows_lineage, dataset_operation_rows|].
  destruct o; try discriminate; simpl.
  - destruct (create_lineage_cases job0 identity partitions lineage0 m) as [[? _]|(i & n & l & Hn & _ & ->)];
      [by apply same_rows_lineage|]. split; try done. intros l0 Hl0. simpl. exists l0. split; [|done].
    rewrite lookup_insert_ne; [done|congruence].
  - destruct (reject_lineage_cases job0 lineage0 m) as [->|(l & Hl & Ha & ->)]; [done|].
    by apply (set_lineage_same _ _ _ _ l).
  - apply other_lineage_commit. simpl in Hc. by apply bool_decide_eq_false in Hc.
  - destruct (complete_lineage_cases job0 lineage0 expected checksum m) as [->|(l & Hl & Ha & _ & _ & _ & _ & ->)];
      [done|]. by apply (set_lineage_same _ _ _ _ l).
  - destruct (complete_limited_cases job0 lineage0 checksum m) as [->|(l & Hl & Ha & _ & _ & ->)]; [done|].
    by apply (set_lineage_same _ _ _ _ l).
  - destruct (register_artifact_cases job0 key artifact kind m) as [->|(n & row & Hn & ->)]; [done|by split; eauto].
Qed.

(** * The latest page of rows in order *)

Lemma latest_sorted partitions rows :
  StronglySorted (fun p q => rank_le partitions q p = false) rows -> latest_page partitions rows = last rows.
Proof.
  destruct rows as [|p rows]; [done|]. intros H. unfold latest_page. apply StronglySorted_inv in H as [Hs Hp].
  revert p Hp. induction Hs as [|q rows Hs IH Hq]; intros p Hp; [done|]. apply Forall_cons in Hp as [Hpq Hp].
  cbn [foldl]. rewrite Hpq. rewrite last_cons_cons. by rewrite <- (IH q Hq).
Qed.

Lemma StronglySorted_take {A} (R : A -> A -> Prop) l n : StronglySorted R l -> StronglySorted R (take n l).
Proof.
  intros H. revert n. induction H as [|x l Hl IH Hx]; intros [|n]; simpl; try constructor; [by apply IH|].
  by apply Forall_take.
Qed.

(** * The files of the store only gain batches *)

Section staging.
Context {FS : Type} `{!ArtifactStore FS, !ArtifactStoreLaws FS}.

Definition store_keeps (fs fs' : FS) : Prop := forall i r b, staged fs i r b -> staged fs' i r b.

#[export] Instance store_keeps_preorder : PreOrder store_keeps.
Proof. split; [by intros f i r b|]. intros f g h H1 H2 i r b Hb. by apply H2, H1. Qed.

Lemma stage_store_keeps i records fs : store_keeps fs (stage_batch i records fs).2.
Proof. intros j r b Hb. destruct (stage_batch i records fs) as [x fs'] eqn:E. by eapply stage_keeps. Qed.

Context (registry : DatasetRegistry) (job lineage : Z) (source_id : string).
Context (configuration : string -> record).
#[local] Abbreviation job_id := (pretty job : string).
#[local] Abbreviation lineage_id := (pretty lineage : string).

(** [b] is the staged projection of [page] into the dataset [name]. *)
Definition projection_of (fs : FS) (page : Page) (name : string) (b : StoredBatch) : Prop :=
  exists d records, definition_of registry name = Ok d
  /\ page_records registry (p_items page) name (context_for lineage_id source_id configuration d name) = Ok records
  /\ staged fs (batch_identity job_id lineage_id page d name) records b.

Lemma projection_kept fs fs' page name b : store_keeps fs fs' -> projection_of fs page name b -> projection_of fs' page name b.
Proof. intros H (d & r & ? & ? & ?). exists d, r. eauto. Qed.

Context {DB : Type} `{!PageCommitter DB}.

(** Projecting one dataset writes to the store only, and the batch it returns is
    the projection of the page. *)
Lemma project_dataset_stages page state name fs (t : DB) :
  let '(r, (fs', t')) := project_dataset registry job_id lineage_id source_id configuration page state name (fs, t) in
  t' = t /\ store_keeps fs fs'
  /\ forall s b o, r = Ok (s, Some b, o) -> projection_of fs' page name b.
Proof.
  unfold project_dataset, mbind, eff_bind, lift, attempt, in_store.
  destruct (definition_of registry name) as [d|e] eqn:Ed; [|done].
  case_bool_decide; [done|]. destruct (new_context _) as [x|e] eqn:Ex; [|done].
  assert (x = context_for lineage_id source_id configuration d name) as ->.
  { unfold new_context in Ex. repeat (step_in Ex). by simplify_eq. }
  pose proof (stage_store_keeps (batch_identity job_id lineage_id page d name)
  (page_records registry (p_items page) name (context_for lineage_id source_id configuration d name)) fs) as Hk.
  destruct (stage_batch _ _ fs) as [[b|e] fs'] eqn:Eb; [|done].
  split_and!; [done..|]. intros s b' o [= <- <- <-]. apply stage_Ok in Eb as (records & Er & Hs). by exists d, records.
Qed.

Lemma project_page_stages page states fs (t : DB) :
  let '(r, (fs', t')) := project_page registry job_id lineage_id source_id configuration page states (fs, t) in
  t' = t /\ store_keeps fs fs'
  /\ forall s bs os, r = Ok (s, bs, os) -> Forall (fun b => exists name, projection_of fs' page name b) bs.
Proof.
  revert fs. induction states as [|[name state] states IH]; intros fs; cbn [project_page].
  - split_and!; [done..|]. intros s bs os [= <- <- <-]. constructor.
  - unfold mbind at 1, eff_bind at 1. pose proof (project_dataset_stages page state name fs t) as H1.
  destruct (project_dataset _ _ _ _ _ page state name (fs, t)) as [[[[state' batch] outcome]|e] [fs1 t1]] eqn:E1.
  2: { by destruct H1 as (-> & ? & _). }
  destruct H1 as (-> & Hk1 & Hb). specialize (IH fs1). unfold mbind, eff_bind.
  destruct (project_page _ _ _ _ _ page states (fs1, t)) as [[[[s bs] os]|e] [fs2 t2]].
  2: { destruct IH as (-> & ? & _). split_and!; [done|by etrans|done]. }
  destruct IH as (-> & Hk2 & Hbs). split_and!; [done|by etrans|]. intros s' bs' os' [= <- <- <-].
  apply Forall_app. split; [|by eapply Hbs]. destruct batch as [b|]; [|constructor]. apply Forall_singleton.
  exists name. eapply projection_kept; [exact Hk2|]. by eapply Hb.
Qed.
End staging.

(** * The enumeration of a connector *)

(** The row a page of a connector becomes. *)
Definition entity_row (job lineage : Z) (version : string) (p : Page) : PageRow :=
  page_row job lineage (page_commit version p [] []).

(** What a connector owes the pipeline. [collects cursor ps] says that the pages
    [ps] are what it may yield from a cursor; the items of a page may differ from
    one collection to the next (a clock, a changed description), its row may not.
    The rows have names of their own and come in the order of the declared
    partitions; every one but the last has a cursor, from which the connector goes
    on with the row after it. *)
Record enumeration (job lineage : Z) (version : string) (partitions : list string)
    (collects : option json -> list Page -> Prop) (rows : list PageRow) : Prop := {
  en_start ps : collects None ps -> map (entity_row job lineage version) ps = rows;
  en_resume i r c ps : rows !! i = Some r -> pg_resume_after r = Some c -> collects (Some c) ps ->
    map (entity_row job lineage version) ps = drop (S i) rows;
  en_cursor i r : rows !! i = Some r -> pg_resume_after r = None -> S i = length rows;
  en_last r : last rows = Some r -> pg_resume_after r = None /\ pg_terminal r = true;
  en_keys : NoDup (map pg_key rows);
  en_order : StronglySorted (fun p q => rank_le partitions q p = false) rows;
}.

(** The pages a connector may yield. *)
Definition yielded (collects : option json -> list Page -> Prop) (p : Page) : Prop :=
  exists cursor ps, collects cursor ps /\ p ∈ ps.

Section resume.
Context {FS : Type} `{!ArtifactStore FS, !ArtifactStoreLaws FS}.
Context (registry : DatasetRegistry) (job lineage : Z) (source_id : string) (configuration : string -> record).
Context (version : string) (keys : list (string * DatasetKey)) (partitions : list string).
Context (collects : option json -> list Page -> Prop) (rows : list PageRow).
Context (enum : enumeration job lineage version partitions collects rows).

#[local] Instance committer : PageCommitter Manifest := PostgresPageCommitter job lineage version keys false.
#[local] Abbreviation row := (entity_row job lineage version).
#[local] Abbreviation pipeline := (run_pipeline registry (pretty job) (pretty lineage) source_id configuration).

(** A batch of the lineage is the staged projection of a page the connector
    yielded, whose row is one of [done]. *)
Definition batch_of (fs : FS) (done : list PageRow) (r : BatchRow) : Prop :=
  exists p name b, yielded collects p /\ row p ∈ done /\ br_page r = pg_key (row p) /\ br_sequence r = p_sequence p
    /\ projection_of registry job lineage source_id configuration fs p name b
    /\ convert_batch job lineage p b = Ok (br_batch r).

(** The first [n] pages are recorded, each once and in order, and nothing else. *)
Record collected_to (n : nat) (s : FS * Manifest) : Prop := {
  ct_bound : (n <= length rows)%nat;
  ct_lineage : exists l, m_lineages s.2 !! (job, lineage) = Some l /\ l_partitions l = partitions;
  ct_pages : lineage_pages job lineage s.2 = take n rows;
  ct_batches : Forall (batch_of s.1 (take n rows)) (lineage_batches job lineage s.2);
}.

Lemma batch_of_kept fs fs' n k r :
  store_keeps fs fs' -> (n <= k)%nat -> batch_of fs (take n rows) r -> batch_of fs' (take k rows) r.
Proof.
  intros Hk Hn (p & name & b & Hy & Hp & ? & ? & Hb & ?). exists p, name, b. split_and!; try done.
  - apply list_elem_of_lookup in Hp as [i Hi]. apply lookup_take_Some in Hi as [Hi ?].
    apply list_elem_of_lookup. exists i. apply lookup_take_Some. split; [done|lia].
  - by eapply projection_kept.
Qed.

Lemma collected_kept n fs fs' m m' :
  store_keeps fs fs' -> same_lineage job lineage m m' -> collected_to n (fs, m) -> collected_to n (fs', m').
Proof.
  intros Hk Hs [Hb (l & Hl & Hp) Hr HB]. split; simpl in *; [done|..].
  - destruct (sl_row _ _ _ _ Hs l Hl) as (l' & ? & ? & ?). exists l'. split; [done|congruence].
  - by rewrite (sl_pages _ _ _ _ Hs).
  - rewrite (sl_batches _ _ _ _ Hs). eapply Forall_impl; [exact HB|]. intros r. by apply batch_of_kept.
Qed.

Lemma next_page_fresh n r m :
  rows !! n = Some r -> lineage_pages job lineage m = take n rows -> (pg_key r).1.1 = (job, lineage) ->
  page_at m (pg_key r) = None.
Proof.
  intros Hr Hm Hmine. destruct (page_at m _) as [q|] eqn:Hq; [exfalso|done]. apply page_at_Some in Hq as [Hin Hk].
  assert (q ∈ lineage_pages job lineage m) as Hq by (apply list_elem_of_filter; by rewrite Hk).
  rewrite Hm in Hq. apply list_elem_of_lookup in Hq as [i Hi]. apply lookup_take_Some in Hi as [Hi Hin'].
  assert (i = n); [|lia]. eapply NoDup_lookup; [apply (en_keys _ _ _ _ _ _ enum)|..];
    rewrite list_lookup_fmap, ?Hi, ?Hr; simpl; by rewrite ?Hk.
Qed.

(** Committing the next page records it; an exception records nothing. *)
Lemma commit_next n p fs m batches outcomes :
  yielded collects p -> rows !! n = Some (row p) -> collected_to n (fs, m) ->
  Forall (fun b => exists name, projection_of registry job lineage source_id configuration fs p name b) batches ->
  let '(r, m') := commit_collected p batches outcomes m in
  collected_to (match r with Ok _ => S n | Err _ => n end) (fs, m').
Proof.
  intros Hy Hp [Hb (l & Hl & Hparts) Hr HB] HF. simpl in *. unfold commit_entity_page, mbind, eff_bind, lift.
  destruct (map_result (convert_batch job lineage p) batches) as [bs|e] eqn:Ebs; [|by split; eauto].
  destruct (map_result (convert_outcome keys) outcomes) as [os|e] eqn:Eos; [|by split; eauto].
  pose proof (next_page_fresh n (row p) m Hp Hr eq_refl) as Hfresh.
  destruct (commit_page job lineage (page_commit version p bs os) false m) as [[fresh|e] m'] eqn:Ec;
    [|apply atomically_Err in Ec as ->; by split; eauto].
  apply commit_page_Ok in Ec as (l' & Hl' & Ha & _ & H). cbv zeta in H. simpl in H. destruct fresh;
    [destruct H as [_ H]|destruct H as [[(q & Hq & _) _ _] _]; exfalso; change (page_at m (pg_key (row p)) = Some q) in Hq; congruence].
  assert (S n <= length rows)%nat as Hn by (by apply lookup_lt_Some in Hp).
  assert (take (S n) rows = take n rows ++ [row p]) as Htake by (by apply take_S_r).
  split; simpl; [done|..].
  - exists l. by rewrite (st_lineages _ _ (ap_tables _ _ _ _ _ H)).
  - unfold lineage_pages in *. rewrite (ap_pages _ _ _ _ _ H), filter_app, Hr, Htake.
    by rewrite (filter_all _ [_]) by (by apply Forall_singleton).
  - unfold lineage_batches in *. rewrite (ap_batches _ _ _ _ _ H), filter_app. apply Forall_app. split.
    + eapply Forall_impl; [exact HB|]. intros r. apply batch_of_kept; [done|lia].
    + apply Forall_forall. intros r [_ Hin]%list_elem_of_filter. apply list_elem_of_fmap in Hin as (pb & -> & Hpb).
      apply map_result_Forall in Ebs.
      apply list_elem_of_lookup in Hpb as [i Hi]. destruct (Forall2_lookup_r _ _ _ _ _ Ebs Hi) as (b & Hbi & Hc).
      destruct (proj1 (Forall_lookup _ _) HF i b Hbi) as [name Hname].
      exists p, name, b. split_and!; try done. rewrite Htake. set_solver.
Qed.

Lemma run_page_next n p r fs m :
  yielded collects p -> rows !! n = Some (row p) -> collected_to n (fs, m) ->
  let '(x, s') := run_page registry (pretty job) (pretty lineage) source_id configuration p r (fs, m) in
  collected_to (match x with Ok _ => S n | Err _ => n end) s'.
Proof.
  intros Hy Hp H. unfold run_page, mbind at 1, eff_bind at 1, lift. destruct (check_limited p) as [[]|e]; [|done].
  unfold mbind at 1, eff_bind at 1.
  pose proof (project_page_stages registry job lineage source_id configuration p (pr_datasets r) fs m) as HP.
  destruct (project_page _ _ _ _ _ p _ (fs, m)) as [[[[states batches] outcomes]|e] [fs' m']].
  2: { destruct HP as (-> & Hk & _). by eapply collected_kept. }
  destruct HP as (-> & Hk & HF). specialize (HF _ _ _ eq_refl).
  pose proof (commit_next n p fs' m batches outcomes Hy Hp (collected_kept n fs fs' m m Hk (same_lineage_refl _ _ _) H) HF) as Hc.
  unfold mbind, eff_bind, in_tables. by destruct (commit_collected p batches outcomes m) as [[?|?] m'].
Qed.

(** A run over the first [k] of the pages that lead to the end records some of
    them in order, and all of them when it returns. *)
Lemma run_pages_next k ps n r s :
  Forall (yielded collects) ps -> map row ps = drop n rows -> collected_to n s ->
  let '(x, s') := run_pages registry (pretty job) (pretty lineage) source_id configuration (take k ps) r s in
  exists n', collected_to n' s' /\ match x with Ok _ => n' = Nat.min (n + k) (length rows) | Err _ => True end.
Proof.
  revert ps n r s. induction k as [|k IH]; intros ps n r [fs m] Hy Hps H.
  { rewrite take_0. cbn. exists n. split; [done|]. pose proof (ct_bound _ _ H). lia. }
  destruct ps as [|p ps].
  - assert (length rows <= n)%nat. { apply (f_equal length) in Hps. rewrite length_drop in Hps. simpl in Hps. lia. }
    rewrite take_nil. cbn. exists n. split; [done|]. pose proof (ct_bound _ _ H). lia.
  - apply Forall_cons in Hy as [Hy1 Hy]. cbn [map] in Hps.
    assert (rows !! n = Some (row p)) as Hp by (by rewrite <- (Nat.add_0_r n), <- lookup_drop, <- Hps).
    assert (map row ps = drop (S n) rows) as Hrest. { rewrite (drop_S _ _ _ Hp) in Hps. by injection Hps. }
    cbn [take run_pages]. pose proof (run_page_next n p r fs m Hy1 Hp H) as H1.
    unfold mbind, eff_bind. destruct (run_page _ _ _ _ _ p r (fs, m)) as [[r'|e] s']; [|by exists n].
    specialize (IH ps (S n) r' s' Hy Hrest H1). destruct (run_pages _ _ _ _ _ _ r' s') as [x s'']. destruct IH as (n' & H' & Hn).
    exists n'. split; [done|]. destruct x; [|done]. by rewrite Hn, <- Nat.add_succ_comm.
Qed.

(** ** Where an attempt starts *)

Lemma last_take n : (0 < n <= length rows)%nat -> exists r, rows !! (n - 1)%nat = Some r /\ last (take n rows) = Some r.
Proof.
  intros Hn. destruct (lookup_lt_is_Some_2 rows (n - 1)) as [r Hr]; [lia|]. exists r. split; [done|].
  rewrite last_lookup, length_take. replace (pred (n `min` length rows)) with (n - 1)%nat by lia.
  by rewrite lookup_take_lt by lia.
Qed.

(** The progress of the lineage leads to the first page that is not recorded. *)
Lemma progress_position n s p ps :
  collected_to n s -> lineage_progress job lineage s.2 = Ok p -> lp_state p ∈ [EMPTY; RESUMABLE] ->
  collects (k_resume_after <$> lp_checkpoint p) ps -> map row ps = drop n rows.
Proof.
  intros [Hb (l & Hl & Hparts) Hr _] Hprog Hst Hps. unfold lineage_progress in Hprog. rewrite Hl, Hparts, Hr in Hprog.
  apply bind_Ok in Hprog as ([] & _ & Hprog). rewrite latest_sorted in Hprog
    by (apply StronglySorted_take, (en_order _ _ _ _ _ _ enum)).
  destruct (decide (n = 0%nat)) as [->|Hn].
  { rewrite take_0 in Hprog. cbn in Hprog. case_bool_decide; [done|]. simplify_eq.
    by rewrite drop_0; apply (en_start _ _ _ _ _ _ enum). }
  destruct (last_take n) as (q & Hq & Hlast); [lia|]. rewrite Hlast in Hprog.
  case_bool_decide; [simplify_eq; by rewrite !elem_of_cons, elem_of_nil in Hst; naive_solver|].
  destruct (pg_resume_after q) as [c|] eqn:Hc.
  - apply bind_Ok in Hprog as (k & Hk & Hprog). simplify_eq. simpl in Hps. assert (k_resume_after k = c) as E.
    { unfold lineage_checkpoint, new_checkpoint, new_catalogue_checkpoint in Hk. by case_bool_decide; step_in Hk; simplify_eq. }
    rewrite E in Hps. rewrite (en_resume _ _ _ _ _ _ enum _ _ _ _ Hq Hc Hps). f_equal. lia.
  - exfalso. pose proof (en_cursor _ _ _ _ _ _ enum _ _ Hq Hc) as Hlen.
    destruct (en_last _ _ _ _ _ _ enum q) as [_ Ht].
    { rewrite last_lookup. by rewrite <- Hlen. }
    simplify_eq. cbn in Hst. rewrite Ht in Hst. destruct (pg_intact q);
      rewrite !elem_of_cons, elem_of_nil in Hst; naive_solver.
Qed.

(** ** Attempts *)

(** What happens to the files and tables between the start and the end of a
    collection: attempts that take any number of the pages their position leads to
    and end by any exception or none, other users of the store, and any operation
    on the manifest that does not commit a page of this lineage. *)
Inductive durable_step : FS * Manifest -> FS * Manifest -> Prop :=
| step_attempt s progress ps capabilities refresh requested names initial k error :
    lineage_progress job lineage s.2 = Ok progress -> lp_state progress ∈ [EMPTY; RESUMABLE] ->
    collects (k_resume_after <$> lp_checkpoint progress) ps ->
    durable_step s (pipeline capabilities refresh requested names initial
      {| co_pages := take k ps; co_error := error |} s).2
| step_stage fs m i records : durable_step (fs, m) ((stage_batch i records fs).2, m)
| step_operation fs m o : commits_to job lineage o = false -> durable_step (fs, m) (fs, perform o m).

Lemma attempt_collects n s progress ps k capabilities refresh requested names initial error :
  collected_to n s -> lineage_progress job lineage s.2 = Ok progress -> lp_state progress ∈ [EMPTY; RESUMABLE] ->
  collects (k_resume_after <$> lp_checkpoint progress) ps ->
  let '(x, s') := pipeline capabilities refresh requested names initial {| co_pages := take k ps; co_error := error |} s in
  exists n', collected_to n' s' /\ match x with Ok _ => n' = Nat.min (n + k) (length rows) | Err _ => True end.
Proof.
  intros H Hprog Hst Hps. pose proof (progress_position n s progress ps H Hprog Hst Hps) as Hrows.
  assert (Forall (yielded collects) ps) as Hy by (apply Forall_forall; intros p Hp; by exists (k_resume_after <$> lp_checkpoint progress), ps).
  unfold run_pipeline, mbind at 1, eff_bind at 1, lift. destruct (check_selection _ _ _ _ _) as [[]|e]; [|by exists n].
  unfold mbind at 1, eff_bind at 1. cbn [co_pages co_error].
  pose proof (run_pages_next k ps n (start_result (reverse (remove_dups (reverse names))) initial) s Hy Hrows H) as H1.
  destruct (run_pages _ _ _ _ _ _ _ s) as [[r|e] s']; [|destruct H1 as (n' & ? & _); by exists n'].
  destruct H1 as (n' & ? & ?). unfold mbind, eff_bind. destruct error as [e|]; [by exists n'|].
  cbn. exists n'. split; [done|]. by case_match.
Qed.

Lemma durable_step_collects s s' n : collected_to n s -> durable_step s s' -> exists n', collected_to n' s'.
Proof.
  intros H Hs. destruct Hs as [s progress ps capabilities refresh requested names initial k error Hp Hst Hps|fs m i records|fs m o Ho].
  - pose proof (attempt_collects n s progress ps k capabilities refresh requested names initial error H Hp Hst Hps) as H1.
    destruct (pipeline _ _ _ _ _ _ s) as [x s']. destruct H1 as (n' & ? & _). by exists n'.
  - exists n. eapply collected_kept; [apply stage_store_keeps|apply same_lineage_refl|done].
  - exists n. by eapply collected_kept; [|apply other_operation_same|].
Qed.

Lemma new_lineage_collected fs m l :
  manifest_ok m -> m_lineages m !! (job, lineage) = Some l -> l_partitions l = partitions ->
  lineage_pages job lineage m = [] -> collected_to 0 (fs, m).
Proof.
  intros ok Hl Hp Hr. split; simpl; [lia|by exists l|done|].
  apply Forall_forall. intros b [Hk Hb]%list_elem_of_filter.
  destruct (mo_batch_page _ ok b Hb) as (p & Hin & Hpk & _).
  assert (p ∈ lineage_pages job lineage m) as Hpm by (apply list_elem_of_filter; rewrite Hpk; done).
  rewrite Hr in Hpm. by apply elem_of_nil in Hpm.
Qed.

(** An attempt over all the pages its position leads to. *)
Lemma whole_attempt_collects n s progress ps capabilities refresh requested names initial r s' :
  collected_to n s -> lineage_progress job lineage s.2 = Ok progress -> lp_state progress ∈ [EMPTY; RESUMABLE] ->
  collects (k_resume_after <$> lp_checkpoint progress) ps ->
  pipeline capabilities refresh requested names initial {| co_pages := ps; co_error := None |} s = (Ok r, s') ->
  collected_to (length rows) s'.
Proof.
  intros Hn Hprog Hst Hps E. pose proof (progress_position n s progress ps Hn Hprog Hst Hps) as Hrows.
  pose proof (attempt_collects n s progress ps (length ps) capabilities refresh requested names initial None Hn Hprog Hst Hps) as H1.
  rewrite take_ge in H1 by done. rewrite E in H1. destruct H1 as (n' & Hn' & ->).
  apply (f_equal length) in Hrows. rewrite length_map, length_drop in Hrows. by rewrite Nat.min_r in Hn' by lia.
Qed.

(** C5. Collection is exactly once across interruptions: from a new lineage, after
    any sequence of attempts that are cut anywhere and other activity, the manifest
    holds a prefix of the connector's enumeration, each page once and in order, and
    every batch of the lineage is the staged projection of a page the connector
    yielded at that position; and an attempt that takes all the pages its recorded
    position leads to and returns leaves every page recorded. *)
Theorem attempts_collect_exactly_once fs m s l :
  reachable manifest_step no_tables m -> m_lineages m !! (job, lineage) = Some l -> l_partitions l = partitions ->
  lineage_pages job lineage m = [] -> reachable durable_step (fs, m) s ->
  (exists n, collected_to n s)
  /\ forall progress ps capabilities refresh requested names initial r s',
       lineage_progress job lineage s.2 = Ok progress -> lp_state progress ∈ [EMPTY; RESUMABLE] ->
       collects (k_resume_after <$> lp_checkpoint progress) ps ->
       pipeline capabilities refresh requested names initial {| co_pages := ps; co_error := None |} s = (Ok r, s') ->
       collected_to (length rows) s'.
Proof.
  intros H0 Hl Hp Hr H. pose proof (history_ok _ H0) as ok.
  assert (exists n, collected_to n s) as [n Hn].
  { revert s H. apply reachable_invariant; [exists 0%nat; by eapply new_lineage_collected|].
    intros s1 s2 [n Hn] Hs. by eapply durable_step_collects. }
  split; [by exists n|]. intros. by eapply whole_attempt_collects.
Qed.

(** ** An attempt is a history of the manifest *)

Lemma commit_history p batches outcomes m : reachable manifest_step m (commit_collected p batches outcomes m).2.
Proof.
  simpl. unfold commit_entity_page, mbind, eff_bind, lift.
  destruct (map_result (convert_batch job lineage p) batches) as [bs|e]; [|apply reach_refl].
  destruct (map_result (convert_outcome keys) outcomes) as [os|e]; [|apply reach_refl].
  eapply reach_step; [apply reach_refl|]. exists (CommitPage job lineage (page_commit version p bs os) false).
  simpl. unfold run. by destruct (commit_page job lineage (page_commit version p bs os) false m) as [[?|?] ?].
Qed.

Lemma run_pages_history ps r s :
  reachable manifest_step s.2 (run_pages registry (pretty job) (pretty lineage) source_id configuration ps r s).2.2.
Proof.
  revert r s. induction ps as [|p ps IH]; intros r [fs m]; [apply reach_refl|]. cbn [run_pages].
  assert (H1 : reachable manifest_step m (run_page registry (pretty job) (pretty lineage) source_id configuration p r (fs, m)).2.2).
  { unfold run_page, mbind, eff_bind, lift. destruct (check_limited p) as [[]|e]; [|apply reach_refl].
  pose proof (project_page_stages registry job lineage source_id configuration p (pr_datasets r) fs m) as HP.
  destruct (project_page _ _ _ _ _ p _ (fs, m)) as [[[[states batches] outcomes]|e] [fs' m']]; destruct HP as (-> & _);
    [|apply reach_refl]. unfold in_tables. pose proof (commit_history p batches outcomes m) as Hc.
  by destruct (commit_collected p batches outcomes m) as [[?|?] m']. }
  unfold mbind, eff_bind. destruct (run_page _ _ _ _ _ p r (fs, m)) as [[r'|e] s']; [|done].
  eapply reachable_trans; [exact H1|]. apply IH.
Qed.

Lemma pipeline_history capabilities refresh requested names initial co s :
  reachable manifest_step s.2 (pipeline capabilities refresh requested names initial co s).2.2.
Proof.
  unfold run_pipeline, mbind, eff_bind, lift. destruct (check_selection _ _ _ _ _) as [[]|e]; [|apply reach_refl].
  pose proof (run_pages_history (co_pages co) (start_result (reverse (remove_dups (reverse names))) initial) s) as H.
  destruct (run_pages _ _ _ _ _ _ _ s) as [[r|e] s']; [|done]. by destruct (co_error co).
Qed.
End resume.

(** * A collection that is interrupted *)

Module PipelineDemo.
(** The products as the connector sees them at time [t]. *)
Definition snapshot (t : Z) (id : string) : CommerceProductSnapshot :=
  {| sn_connector := "shopify"; sn_source_id := "shop"; sn_external_id := id; sn_canonical_url := "https://shop/" +:+ id;
   sn_title := id; sn_observed_at := t; sn_description := None; sn_vendor := None; sn_categories := []; sn_images := [];
   sn_documents := []; sn_variants := []; sn_source_updated_at := None; sn_published_attributes := [];
   sn_platform_extensions := JDict [] |}.
Definition page (t : Z) (id : string) (sequence : Z) (items : list string) (cursor : option json) (terminal : bool) : Page :=
  {| p_page_id := id; p_partition_key := "main"; p_sequence := sequence; p_items := map (snapshot t) items;
     p_resume_after := cursor; p_terminal := terminal; p_partition_terminal := terminal; p_enumeration_intact := true;
     p_discovered := Z.of_nat (length items); p_diagnostics := [] |}.
Definition pages (t : Z) : list Page :=
  [page t "p0" 0 ["red"; "blue"] (Some (JInt 1)) false; page t "p1" 1 [] (Some (JInt 2)) false;
   page t "p2" 2 ["blue"] None true].
Definition position_of (cursor : option json) : nat := match cursor with Some (JInt n) => Z.to_nat n | _ => 0%nat end.
Definition collects (cursor : option json) (ps : list Page) : Prop := exists t, ps = drop (position_of cursor) (pages t).
Definition rows : list PageRow := map (entity_row 1 7 "1") (pages 0).

Definition items : DatasetDefinition :=
  {| dd_name := "items"; dd_version := "1"; dd_projector_version := "1"; dd_required_fields := [F_IDENTITY];
   dd_required_capabilities := [];
   dd_project := fun s _ => Ok [if bool_decide (sn_external_id s = "red") then StoreDemo.red else StoreDemo.blue];
   dd_validate := Ok |}.
Definition registry : DatasetRegistry := [("items", items)].
Definition capabilities : ConnectorCapabilities :=
  {| cap_snapshot_fields := [F_IDENTITY]; cap_refresh_modes := [FULL]; cap_stock_kinds := [];
   cap_incremental_cursor := false; cap_category_filter := false; cap_documents := false;
   cap_browser := NEVER; cap_shared_edge := None |}.

#[export] Instance store : ArtifactStore files := LocalArtifactStore StoreDemo.codec ["data"].
#[export] Instance store_laws : ArtifactStoreLaws files :=
  LocalArtifactStoreLaws StoreDemo.codec _ ["data"] StoreDemo.codec_laws StoreDemo.proper_data.

Definition keys : list (string * DatasetKey) := [("items", ManifestDemo.items)].
Definition collect_run (co : Collected) (s : files * Manifest) : result pyexn PipelineResult * (files * Manifest) :=
  @run_pipeline files Manifest store (committer 1 7 "1" keys) registry (pretty 1) (pretty 7) "shop"
  (fun _ => []) capabilities FULL [F_IDENTITY] ["items"] (fun _ => None) co s.

(** The first attempt dies after one page; the second, later, reads its position. *)
Definition start : LineageProgress := {| lp_state := EMPTY; lp_checkpoint := None |}.
Definition interrupted : files * Manifest :=
  (collect_run {| co_pages := take 1 (pages 10); co_error := Some (RuntimeError "reset") |} (∅, ManifestDemo.opened)).2.
Definition position : LineageProgress := Eval vm_compute in
  match lineage_progress 1 7 interrupted.2 with Ok p => p | Err _ => start end.
Definition resumed : Collected := {| co_pages := drop 1 (pages 20); co_error := None |}.
Definition finished : files * Manifest := (collect_run resumed interrupted).2.

Lemma starts : collects (k_resume_after <$> lp_checkpoint start) (pages 10).
Proof. by exists 10. Defined.
Lemma resumes : collects (k_resume_after <$> lp_checkpoint position) (drop 1 (pages 20)).
Proof. by exists 20. Defined.

Definition opened_row : Lineage := Eval vm_compute in default
  {| l_identity := ManifestDemo.identity; l_partitions := []; l_status := active; l_checksum := None; l_created_at := 0 |}
  (m_lineages ManifestDemo.opened !! (1, 7)).

Lemma demo_enumeration : enumeration 1 7 "1" ["main"] collects rows.
Proof.
  split.
  - by intros ps [t ->].
  - intros [|[|[|i]]] r c ps Hr Hc [t ->]; simpl in Hr; simplify_eq/=; done.
  - intros [|[|[|i]]] r Hr Hc; simpl in Hr; simplify_eq/=; done.
  - intros r Hr. simpl in Hr. by simplify_eq.
  - apply (bool_decide_unpack _). by vm_compute.
  - repeat constructor; by vm_compute.
Defined.
End PipelineDemo.
#[local] Existing Instances PipelineDemo.store PipelineDemo.store_laws.

Lemma attempts_collect_exactly_once_witness :
  lp_state PipelineDemo.position = RESUMABLE
  /\ length (lineage_pages 1 7 PipelineDemo.interrupted.2) = 1%nat
  /\ map pg_key (lineage_pages 1 7 PipelineDemo.finished.2) = [(1, 7, "main", "p0"); (1, 7, "main", "p1"); (1, 7, "main", "p2")]
  /\ map (fun r => pb_records (br_batch r)) (lineage_batches 1 7 PipelineDemo.finished.2) = [2; 0; 1]
  /\ @collected_to files PipelineDemo.store PipelineDemo.store_laws PipelineDemo.registry 1 7 "shop" (fun _ => []) "1"
       ["main"] PipelineDemo.collects PipelineDemo.rows 3 PipelineDemo.finished.
Proof.
  split_and!; [reflexivity|vm_compute; reflexivity|vm_compute; reflexivity|vm_compute; reflexivity|].
  destruct (StoreDemo.is_ok_Ok (PipelineDemo.collect_run PipelineDemo.resumed PipelineDemo.interrupted)
    ltac:(vm_compute; reflexivity)) as (r & s' & E).
  destruct (attempts_collect_exactly_once (FS := files) PipelineDemo.registry 1 7 "shop" (fun _ => []) "1" PipelineDemo.keys
    ["main"] PipelineDemo.collects PipelineDemo.rows PipelineDemo.demo_enumeration ∅ ManifestDemo.opened
    PipelineDemo.interrupted PipelineDemo.opened_row) as [_ H].
  - apply performs_reachable.
  - vm_compute; reflexivity.
  - reflexivity.
  - vm_compute; reflexivity.
  - eapply reach_step; [apply reach_refl|]. unfold PipelineDemo.interrupted, PipelineDemo.collect_run.
    refine (step_attempt _ _ _ _ _ _ _ _ (∅, ManifestDemo.opened) PipelineDemo.start _ _ _ _ _ _ _ _ _ _ PipelineDemo.starts).
    + vm_compute; reflexivity.
    + apply elem_of_cons. by left.
  - unfold PipelineDemo.finished. rewrite E. apply (H PipelineDemo.position (drop 1 (PipelineDemo.pages 20)) PipelineDemo.capabilities FULL
      [F_IDENTITY] ["items"] (fun _ => None) r s');
      [vm_compute; reflexivity|apply elem_of_cons; right; by apply list_elem_of_singleton|apply PipelineDemo.resumes|exact E].
Defined.

(** * Where interruption and isolation break *)

(** A connector that counts its pages from zero again when it resumes cannot
    continue a partition: the sequence of its next page does not exceed the
    recorded ones. *)
Lemma restarted_sequence_is_refused job lineage version keys dynamic (page : Page) p batches outcomes m :
  p ∈ partition_pages job lineage m (p_partition_key page) -> p_sequence page <= pg_sequence p ->
  page_at m (job, lineage, p_partition_key page, p_page_id page) = None ->
  exists e, commit_entity_page job lineage version keys dynamic page batches outcomes m = (Err e, m).
Proof.
  intros Hp Hs Hn. unfold commit_entity_page, mbind, eff_bind, lift.
  destruct (map_result (convert_batch job lineage page) batches) as [bs|e]; [|by exists e].
  destruct (map_result (convert_outcome keys) outcomes) as [os|e]; [|by exists e].
  destruct (commit_page _ _ (page_commit version page bs os) dynamic m) as [[fresh|e] m'] eqn:E;
    [exfalso|exists e; by apply atomically_Err in E as ->].
  apply commit_page_Ok in E as (l & _ & _ & _ & H). cbv zeta in H. destruct fresh.
  - destruct H as [_ H]. apply ap_may, may_append_follows in H. rewrite Forall_forall in H.
    apply list_elem_of_filter in Hp as [Hk Hp]. destruct (H p) as [Hlt _]; [|by rewrite Hk|simpl in Hlt; lia].
    unfold with_partition. destruct dynamic; [|done]. rewrite declare_partition_spec. simpl. by case_bool_decide.
  - destruct H as [[(q & Hq & _) _ _] _]. change (page_at m (job, lineage, p_partition_key page, p_page_id page) = Some q) in Hq.
    congruence.
Qed.

(** A projector that raises an exception without a message: its outcome has an
    empty error, which the manifest refuses, so the failure of one dataset ends the
    whole run; with a message the run goes on. *)
Definition failing_registry (message : string) : DatasetRegistry :=
  [("items", {| dd_name := "items"; dd_version := "1"; dd_projector_version := "1"; dd_required_fields := [F_IDENTITY];
                dd_required_capabilities := []; dd_project := fun _ _ => Err (ValueError message); dd_validate := Ok |})].
Lemma silent_failure_ends_the_run :
  let collect_failing message :=
    (@run_pipeline files Manifest PipelineDemo.store (committer 1 7 "1" PipelineDemo.keys) (failing_registry message)
      (pretty 1) (pretty 7) "shop" (fun _ => []) PipelineDemo.capabilities FULL [F_IDENTITY] ["items"] (fun _ => None)
      {| co_pages := PipelineDemo.pages 0; co_error := None |} (∅, ManifestDemo.opened)) in
  (collect_failing "").1 = Err (ValueError "failed dataset outcome requires an error")
  /\ lineage_pages 1 7 (collect_failing "").2.2 = []
  /\ length (lineage_pages 1 7 (collect_failing "no glaze").2.2) = 3%nat.
Proof. split_and!; vm_compute; reflexivity. Qed.
