(* ===== verification/Publication.v ===== *)
(** What a published dataset holds: the projections of the connector's pages, in
    the order of the enumeration, however often the collection was interrupted. *)
From S2P Require Export PipelineResume.
From Stdlib Require Import Ascii.
Open Scope Z_scope.

(** * The order of batches *)

#[export] Instance row_le_total partitions : Total (row_le partitions).
Proof.
  intros a b. unfold row_le. rewrite (bool_decide_ext _ _ (Nat.eq_sym_iff (partition_order partitions (br_page b).1.2) _)).
  rewrite (bool_decide_ext _ _ (Z.eq_sym_iff (br_sequence b) _)).
  case_bool_decide; [case_bool_decide|]; [apply str_le_total|rewrite !Z.ltb_lt; lia|rewrite !Nat.ltb_lt; lia].
Qed.

#[export] Instance row_le_trans partitions : Transitive (row_le partitions).
Proof.
  intros a b c. unfold row_le.
  repeat case_bool_decide; rewrite ?Nat.ltb_lt, ?Z.ltb_lt; try lia. apply str_le_trans.
Qed.

(** A list no later element of which may come before an earlier one is what any
    sorting of its elements returns. *)
Lemma strict_antisym {A} (R : A -> A -> Prop) l x y :
  StronglySorted (fun x y => ~ R y x) l -> x ∈ l -> y ∈ l -> R x y -> R y x -> x = y.
Proof.
  induction 1 as [|z l Hs IH Hz]; [by intros []%elem_of_nil|]. rewrite Forall_forall in Hz.
  rewrite !elem_of_cons. intros [->|Hx] [->|Hy]; [done| | |by apply IH]; [by apply Hz in Hy|by apply Hz in Hx].
Qed.

Lemma merge_sort_strict {A} (R : A -> A -> Prop) `{!forall x y, Decision (R x y), !Total R, !Transitive R} l k :
  StronglySorted (fun x y => ~ R y x) l -> k ≡ₚ l -> merge_sort R k = l.
Proof.
  intros Hs Hp. assert (merge_sort R k ≡ₚ l) as Hp' by (by rewrite merge_sort_Permutation).
  apply (StronglySorted_unique_strong R); [..|done].
  - intros x y Hx Hy. rewrite Hp' in Hx. by apply (strict_antisym R l).
  - apply StronglySorted_merge_sort; apply _.
  - clear Hp Hp'. induction Hs as [|x l Hs IH Hx]; constructor; [done|]. eapply Forall_impl; [exact Hx|].
    intros y Hy. by destruct (total R x y).
Qed.

Lemma NoDup_map_inj {A B} (f : A -> B) l x y : NoDup (map f l) -> x ∈ l -> y ∈ l -> f x = f y -> x = y.
Proof.
  intros Hn Hx Hy E. apply list_elem_of_lookup in Hx as [i Hi], Hy as [j Hj]. assert (i = j) as ->; [|congruence].
  eapply NoDup_lookup; [exact Hn|..]; rewrite list_lookup_fmap, ?Hi, ?Hj; simpl; [done|by rewrite E].
Qed.

Lemma rank_not_row partitions (p q : PageRow) (a b : BatchRow) :
  rank_le partitions q p = false -> br_page a = pg_key p -> br_sequence a = pg_sequence p ->
  br_page b = pg_key q -> br_sequence b = pg_sequence q -> ~ row_le partitions b a.
Proof. intros H E1 E2 E3 E4. unfold row_le. rewrite E1, E2, E3, E4. unfold rank_le in H. rewrite H. done. Qed.

Lemma batch_row_unique m a b :
  manifest_ok m -> a ∈ m_batches m -> b ∈ m_batches m -> br_page a = br_page b ->
  pb_key (br_batch a) = pb_key (br_batch b) -> a = b.
Proof.
  intros ok Ha Hb E1 E2. apply (NoDup_map_inj batch_key (m_batches m)); [apply (proj1 (mo_batches _ ok))|done..|].
  unfold batch_key. by rewrite E1, E2.
Qed.

(** * Publication *)

Section publication.
Context (codec : Codec) (encodable : record -> Prop) (root : path).
Context (laws : CodecLaws codec encodable) (proper_root : Forall proper_part root).
#[local] Instance store : ArtifactStore files := LocalArtifactStore codec root.
#[local] Instance store_laws : ArtifactStoreLaws files := LocalArtifactStoreLaws codec encodable root laws proper_root.

Context (registry : DatasetRegistry) (job lineage : Z) (source_id : string) (configuration : string -> record).
Context (version : string) (partitions : list string) (collects : option json -> list Page -> Prop) (rows : list PageRow).
Context (enum : enumeration job lineage version partitions collects rows).
#[local] Abbreviation row := (entity_row job lineage version).
#[local] Abbreviation collected :=
  (collected_to (FS := gmap path string) registry job lineage source_id configuration version partitions collects rows).

(** The dataset [name] as the registry defines it. *)
Context (name : string) (d : DatasetDefinition) (defined : definition_of registry name = Ok d).
Definition dataset_key : DatasetKey :=
  {| dk_dataset := name; dk_contract := dd_version d; dk_projector := dd_projector_version d |}.

(** [records] are the projection of [p], a page the connector yielded. *)
Definition projects (p : Page) (records : list record) : Prop :=
  yielded collects p
  /\ page_records registry (p_items p) name (context_for (pretty lineage) source_id configuration d name) = Ok records.

(** Pages of the enumeration in their order, with their projections. *)
Definition projection_of_all (l : list (Page * list record)) : Prop :=
  map (fun x => row x.1) l = rows /\ Forall (fun x => projects x.1 x.2) l.

(** The batch of the dataset on a page: its row is a batch of the page, and what
    the store reads through it is the staged projection of the page. *)
Definition page_batch (fs : files) (x : Page * list record) (r : BatchRow) : Prop :=
  projects x.1 x.2 /\ br_page r = pg_key (row x.1) /\ br_sequence r = p_sequence x.1
  /\ pb_key (br_batch r) = dataset_key
  /\ locally_staged codec root fs (batch_identity (pretty job) (pretty lineage) x.1 d name) x.2
       (stored_batch job lineage dataset_key r).

Lemma batch_of_row fs q r :
  q ∈ rows -> batch_of registry job lineage source_id configuration version collects fs rows r ->
  br_page r = pg_key q -> pb_key (br_batch r) = dataset_key -> exists x, row x.1 = q /\ page_batch fs x r.
Proof.
  intros Hq (p & name' & b & Hy & Hp & Hk & Hs & (d' & records & Hd & Hr & Hb) & Hc) Hkq Hkey.
  assert (row p = q) as Ep.
  { apply (NoDup_map_inj pg_key rows); [apply (en_keys _ _ _ _ _ _ enum)|done..|congruence]. }
  destruct (staged_object _ _ _ _ Hb) as [Hi _]. unfold convert_batch in Hc. apply bind_Ok in Hc as ([] & _ & [= Hc]).
  rewrite <- Hc in Hkey. simpl in Hkey. rewrite Hi in Hkey. cbn in Hkey. injection Hkey as -> _ _.
  rewrite defined in Hd. simplify_eq.
  exists (p, records). split; [done|]. split; [by split|]. split_and!; [done|done|by rewrite <- Hc; simpl; rewrite Hi|].
  assert (stored_batch job lineage dataset_key r = b) as ->; [|exact Hb].
  destruct b as [[? ? ? ?] i]. simpl in Hi. subst i. unfold stored_batch. rewrite Hk, Hs, <- Hc. done.
Qed.

Lemma rows_sorted fs l brs :
  map (fun x => row x.1) l = rows -> Forall2 (page_batch fs) l brs -> StronglySorted (fun a b => ~ row_le partitions b a) brs.
Proof.
  intros Hl Hbrs. pose proof (en_order _ _ _ _ _ _ enum) as Ho. rewrite <- Hl in Ho. clear -Hbrs Ho.
  induction Hbrs as [|x r xs rs (_ & H1 & H2 & _) Hrs IH]; [constructor|]. cbn [map] in Ho.
  apply StronglySorted_inv in Ho as [Ho Hp]. constructor; [by apply IH|]. apply Forall_map in Hp.
  clear -Hrs Hp H1 H2. induction Hrs as [|y t xs rs (_ & H3 & H4 & _) _ IH]; constructor; apply Forall_cons in Hp as [Hq Hp];
    [|by apply IH]. by apply (rank_not_row partitions (row x.1) (row y.1)).
Qed.

Lemma rows_distinct fs l brs : map (fun x => row x.1) l = rows -> Forall2 (page_batch fs) l brs -> NoDup brs.
Proof.
  intros Hl Hbrs. pose proof (en_keys _ _ _ _ _ _ enum) as Hn. rewrite <- Hl, map_map in Hn. clear -Hbrs Hn.
  induction Hbrs as [|x r xs rs (_ & H1 & _) Hrs IH]; [constructor|].
  apply NoDup_cons in Hn as [Hn1 Hn2]. constructor; [|by apply IH]. intros Hin. apply Hn1.
  apply list_elem_of_lookup in Hin as [i Hi]. destruct (Forall2_lookup_r _ _ _ _ _ Hrs Hi) as (y & Hy & _ & H3 & _).
  apply list_elem_of_fmap. exists y. split; [congruence|by apply list_elem_of_lookup_2 in Hy].
Qed.

(** The batches of the dataset, one of each page, in the order of the pages. *)
Lemma dataset_rows fs m :
  manifest_ok m -> collected (length rows) (fs, m) ->
  (forall r, r ∈ rows -> exists n, has_success m (pg_key r) dataset_key n) ->
  exists l brs, map (fun x => row x.1) l = rows /\ Forall2 (page_batch fs) l brs
    /\ reconstruct_batches job lineage dataset_key m = Ok (map (stored_batch job lineage dataset_key) brs).
Proof.
  intros ok [_ (li & Hli & Hparts) Hpages HB] Hsucc. simpl in *. rewrite take_ge in HB, Hpages by done.
  set (mine := filter (fun b => (br_page b).1.1 = (job, lineage) /\ pb_key (br_batch b) = dataset_key) (m_batches m)).
  assert (Hmine : forall r, r ∈ mine <-> r ∈ lineage_batches job lineage m /\ pb_key (br_batch r) = dataset_key).
  { intros r. unfold mine, lineage_batches. rewrite !list_elem_of_filter. unfold lineage_of. tauto. }
  rewrite Forall_forall in HB.
  assert (exists lb, Forall2 (fun q xb => row xb.1.1 = q /\ xb.2 ∈ mine /\ page_batch fs xb.1 xb.2) rows lb) as [lb Hlb].
  { assert (Forall (fun q => exists xb, row xb.1.1 = q /\ xb.2 ∈ mine /\ page_batch fs xb.1 xb.2) rows) as HF;
      [|by apply Forall_exists_Forall2_l in HF].
    apply Forall_forall. intros q Hq. destruct (Hsucc q Hq) as [n (r & Hr & Hk & Hkey & _)%(mo_agree _ ok)].
    assert (r ∈ lineage_batches job lineage m) as Hin.
    { apply list_elem_of_filter. rewrite Hk. split; [|done]. rewrite <- Hpages in Hq. by apply list_elem_of_filter in Hq as [? _]. }
    destruct (batch_of_row fs q r) as (x & Hx & Hb); [done|by apply HB|done|done|].
    exists (x, r). split_and!; [done|by apply Hmine|done]. }
  exists (map fst lb), (map snd lb).
  assert (map (fun x => row x.1) (map fst lb) = rows) as Hl.
  { rewrite map_map. clear -Hlb. induction Hlb as [|q xb qs xbs (E & _) _ IH]; [done|]. simpl. by rewrite E, IH. }
  assert (Forall2 (page_batch fs) (map fst lb) (map snd lb)) as Hb.
  { clear -Hlb. induction Hlb as [|q xb qs xbs (_ & _ & ?) _ IH]; constructor; done. }
  split_and!; [done|done|]. unfold reconstruct_batches. rewrite Hli, Hparts. fold mine. do 2 f_equal.
  apply merge_sort_strict; [apply _..|by eapply rows_sorted|]. apply NoDup_Permutation.
  - apply NoDup_filter. eapply NoDup_fmap_1, (proj1 (mo_batches _ ok)).
  - by eapply rows_distinct.
  - intros r. rewrite list_elem_of_fmap. split.
    + intros Hr. pose proof (proj1 (Hmine r) Hr) as [Hl' Hkey]. destruct (HB r Hl') as (p & name' & b & _ & Hp & Hk & _).
      apply list_elem_of_lookup in Hp as [i Hi]. destruct (Forall2_lookup_l _ _ _ _ _ Hlb Hi) as (xb & Hxb & Ex & Hm' & _ & H1 & _ & H3 & _).
      exists xb. split; [|by apply list_elem_of_lookup_2 in Hxb].
      eapply (batch_row_unique m); [exact ok|by apply list_elem_of_filter in Hr as [_ ?]|by apply list_elem_of_filter in Hm' as [_ ?]|congruence|congruence].
    + intros (xb & -> & Hxb). apply list_elem_of_lookup in Hxb as [i Hi].
      by destruct (Forall2_lookup_r _ _ _ _ _ Hlb Hi) as (q & _ & _ & ? & _).
Qed.

(** C4. End to end: once every page of the connector's enumeration is recorded,
    whatever interruptions the collection had, and the dataset succeeded on each of
    them, publishing the lineage writes one file whose checksum, size and count are
    those it returns and that decodes to the projections of pages the connector
    yielded, one for each row of the enumeration and in its order; every file that
    was there stays. *)
Theorem published_dataset_is_the_projection fs m kind o fs' m' :
  reachable manifest_step no_tables m -> collected (length rows) (fs, m) ->
  (forall r, r ∈ rows -> exists n, has_success m (pg_key r) dataset_key n) ->
  (forall p records, projects p records -> Forall encodable records /\ no_collision codec fs records) ->
  (forall l, projection_of_all l -> no_collision codec fs (concat (map snd l))) ->
  publish_lineage_dataset job lineage dataset_key kind (fs, m) = (Ok o, (fs', m')) ->
  exists l p content, projection_of_all l /\ so_location o = path_str p /\ fs' !! p = Some content
    /\ digest codec content = (so_sha256 o, so_size o)
    /\ ArtifactStore.decode codec content = Ok (concat (map snd l))
    /\ so_records o = Z.of_nat (length (concat (map snd l)))
    /\ (forall q old, fs !! q = Some old -> fs' !! q = Some old).
Proof.
  intros H0 Hc Hsucc Hpage Hall. pose proof (history_ok _ H0) as ok.
  destruct (dataset_rows fs m ok Hc Hsucc) as (l & brs & Hl & Hbrs & Hrec).
  assert (Forall (fun x => projects x.1 x.2) l) as Hproj by (by eapply Forall2_Forall_l; [exact Hbrs|apply Forall_forall; by intros ? _ ? (? & _)]).
  unfold publish_lineage_dataset, mbind, eff_bind, gets, lift, on_store, on_tables. cbn [snd fst].
  destruct (ensure _ _); [|done]. rewrite Hrec. simpl publish_dataset.
  set (batches := map (stored_batch job lineage dataset_key) brs).
  destruct (local_publish_dataset codec root (pretty job) name (dd_version d) batches fs) as [[artifact|e] fs1] eqn:Ep; [|done].
  destruct (register_artifact _ _ _ _ m) as [[id|e] m1]; [|done]. simpl. intros [= <- <- <-].
  set (staged_list := zip_with (fun x r => (batch_identity (pretty job) (pretty lineage) x.1 d name, x.2,
    stored_batch job lineage dataset_key r)) l brs).
  assert (map snd staged_list = batches /\ map (fun x => x.1.2) staged_list = map snd l
    /\ map (fun x => x.1.1) staged_list = map (fun x => batch_identity (pretty job) (pretty lineage) x.1 d name) l) as (E1 & E2 & E3).
  { unfold staged_list, batches. clear -Hbrs. induction Hbrs as [|x r xs rs _ _ (IH1 & IH2 & IH3)]; [done|]. simpl. by rewrite IH1, IH2, IH3. }
  rewrite <- E1 in Ep.
  destruct (published_records codec encodable root laws proper_root fs (pretty job) name (dd_version d) staged_list artifact fs1)
    as (p & content & Hpub); [| |by rewrite E2; apply Hall|exact Ep|].
  - clear -Hbrs Hpage. unfold staged_list. induction Hbrs as [|x r xs rs (Hx & _ & _ & _ & Hs) _ IH]; [constructor|].
    destruct (Hpage _ _ Hx). simpl. by constructor.
  - rewrite E3. pose proof (en_keys _ _ _ _ _ _ enum) as Hk. rewrite <- Hl, map_map in Hk. clear -Hk.
    induction l as [|x xs IH]; [constructor|].
    apply NoDup_cons in Hk as [Hk1 Hk2]. constructor; [|by apply IH]. intros (y & E & Hy)%list_elem_of_fmap.
    apply Hk1. unfold batch_identity in E. injection E as E4 E5 _. apply list_elem_of_fmap. exists y.
    split; [|done]. change ((job, lineage, p_partition_key x.1, p_page_id x.1) = (job, lineage, p_partition_key y.1, p_page_id y.1)). by rewrite E4, E5.
  - exists l, p, content. rewrite E2 in Hpub. by split.
Qed.
End publication.

(** * An interrupted collection, published *)

Lemma has_success_dec m k d n :
  existsb (fun o => bool_decide (or_page o = k /\ do_key (or_outcome o) = d /\ do_state (or_outcome o) = "succeeded"
    /\ do_records (or_outcome o) = n)) (m_outcomes m) = true -> has_success m k d n.
Proof.
  intros (o & Ho & H)%existsb_exists. apply list_elem_of_In in Ho. apply bool_decide_eq_true in H. exists o. tauto.
Qed.

Module PublicationDemo.
Import PipelineDemo.

Definition seal : operation := CompleteLineage 1 7 ["main"] ManifestDemo.digest.
Definition sealed : Manifest := perform seal finished.2.
(** The projection of the page with an identifier: it does not depend on the clock. *)
Definition projected (id : string) : list record :=
  if bool_decide (id = "p0") then [StoreDemo.red; StoreDemo.blue] else if bool_decide (id = "p1") then [] else [StoreDemo.blue].

#[local] Abbreviation demo_projects :=
  (projects registry 7 "shop" (fun _ => []) collects "items" items).

Lemma projects_projected p records : demo_projects p records -> records = projected (p_page_id p).
Proof.
  intros [(cursor & ps & [t ->] & Hp) Hr]. assert (p ∈ pages t) as Hin by (eapply (subseteq_drop _ (pages t)), Hp). clear Hp.
  apply elem_of_cons in Hin as [->|[->|[->|[]%elem_of_nil]%elem_of_cons]%elem_of_cons]; vm_compute in Hr; by simplify_eq.
Qed.

Lemma all_projected l :
  projection_of_all registry 1 7 "shop" (fun _ => []) "1" collects rows "items" items l ->
  map snd l = [[StoreDemo.red; StoreDemo.blue]; []; [StoreDemo.blue]].
Proof.
  intros [Hl Hp]. assert (map snd l = map projected (map (fun x => p_page_id x.1) l)) as ->.
  { clear Hl. induction Hp as [|x l Hx _ IH]; [done|]. simpl. rewrite IH. f_equal. by apply projects_projected. }
  assert (map (fun x : Page * list record => p_page_id x.1) l = map (fun r => (pg_key r).2) rows) as ->; [|by vm_compute].
  rewrite <- Hl, map_map. done.
Qed.

Lemma projected_fits id :
  Forall (fun r => r ∈ [StoreDemo.red; StoreDemo.blue]) (projected id) /\ no_collision StoreDemo.codec finished.1 (projected id).
Proof.
  unfold projected. repeat case_bool_decide; (split;
    [by apply (bool_decide_eq_true_1 _); vm_compute|by apply StoreDemo.no_collision_dec; vm_compute]).
Qed.

Lemma sealed_history : reachable manifest_step no_tables sealed.
Proof.
  eapply reach_step; [|by exists seal]. eapply reachable_trans; [|apply pipeline_history].
  eapply reachable_trans; [|apply pipeline_history]. apply performs_reachable.
Qed.

Lemma sealed_collected :
  collected_to (FS := files) registry 1 7 "shop" (fun _ => []) "1" ["main"] collects rows 3 (finished.1, sealed).
Proof.
  assert (collected_to (FS := files) registry 1 7 "shop" (fun _ => []) "1" ["main"] collects rows 3 finished) as H.
  { pose proof (new_lineage_collected registry 1 7 "shop" (fun _ => []) "1" ["main"] collects rows (∅ : files) ManifestDemo.opened
      opened_row (history_ok _ (performs_reachable _ _)) ltac:(vm_compute; reflexivity) eq_refl ltac:(vm_compute; reflexivity)) as H0.
    pose proof (attempt_collects registry 1 7 "shop" (fun _ => []) "1" keys ["main"] collects rows demo_enumeration 0
      (∅, ManifestDemo.opened) start (pages 10) 1 capabilities FULL [F_IDENTITY] ["items"] (fun _ => None)
      (Some (RuntimeError "reset")) H0 ltac:(vm_compute; reflexivity) ltac:(apply elem_of_cons; by left) starts) as H1.
    destruct (run_pipeline _ _ _ _ _ _ _ _ _ _ _ _) as [x s1] eqn:E1. destruct H1 as (n & H1 & _).
    assert (s1 = interrupted) as -> by (unfold interrupted, collect_run; by rewrite E1).
    destruct (StoreDemo.is_ok_Ok (collect_run resumed interrupted) ltac:(vm_compute; reflexivity)) as (r & s' & E).
    unfold finished. rewrite E.
    apply (whole_attempt_collects registry 1 7 "shop" (fun _ => []) "1" keys ["main"] collects rows demo_enumeration n interrupted
      position (drop 1 (pages 20)) capabilities FULL [F_IDENTITY] ["items"] (fun _ => None) r s' H1);
      [vm_compute; reflexivity|apply elem_of_cons; right; by apply list_elem_of_singleton|apply resumes|exact E]. }
  rewrite (surjective_pairing finished) in H. eapply collected_kept; [|apply (other_operation_same 1 7 seal)|exact H]; [done|reflexivity].
Qed.
End PublicationDemo.

Lemma published_dataset_is_the_projection_witness :
  exists o fs' m' p content,
    @publish_lineage_dataset files PipelineDemo.store 1 7 ManifestDemo.items "records"
      (PipelineDemo.finished.1, PublicationDemo.sealed) = (Ok o, (fs', m'))
    /\ so_location o = path_str p /\ fs' !! p = Some content
    /\ ArtifactStore.decode StoreDemo.codec content = Ok [StoreDemo.red; StoreDemo.blue; StoreDemo.blue].
Proof.
  destruct (StoreDemo.is_ok_Ok (@publish_lineage_dataset files PipelineDemo.store 1 7 ManifestDemo.items "records"
    (PipelineDemo.finished.1, PublicationDemo.sealed)) ltac:(vm_compute; reflexivity)) as (o & [fs' m'] & E).
  destruct (published_dataset_is_the_projection StoreDemo.codec _ ["data"] StoreDemo.codec_laws StoreDemo.proper_data
    PipelineDemo.registry 1 7 "shop" (fun _ => []) "1" ["main"] PipelineDemo.collects PipelineDemo.rows
    PipelineDemo.demo_enumeration "items" PipelineDemo.items eq_refl)
    with (fs := PipelineDemo.finished.1) (m := PublicationDemo.sealed) (kind := "records") (o := o) (fs' := fs') (m' := m')
    as (l & p & content & Hall & Hl & Hc & _ & Hd & _).
  - exact PublicationDemo.sealed_history.
  - exact PublicationDemo.sealed_collected.
  - apply Forall_forall. repeat (apply Forall_cons; split); [exists 2|exists 0|exists 1|by apply Forall_nil];
      apply has_success_dec; vm_compute; reflexivity.
  - intros p records ->%PublicationDemo.projects_projected. apply PublicationDemo.projected_fits.
  - intros l ->%PublicationDemo.all_projected. by apply StoreDemo.no_collision_dec; vm_compute.
  - exact E.
  - rewrite (PublicationDemo.all_projected l Hall) in Hd. exists o, fs', m', p, content. exact (conj E (conj Hl (conj Hc Hd))).
Defined.
