(* ===== verification/WorkBudget.v ===== *)
(** The request budget that plans a collection's work by priority
    ([catalogue-dump/.../connectors/budget.py] and [pipeline/budget.py]): the
    planning decision with its limit, ceilings and protected reserves, the gate
    that charges what it grants, and the connector's facade over it. *)
From S2P Require Export Effects.

(** * Priorities, decisions and costs *)

(** Source: catalogue-dump/connectors/budget.py, RequestPriority. *)
Inductive RequestPriority := DISCOVERY | IDENTITY | DATASET_REQUIRED | DETAIL | OPTIONAL.

(** Source: catalogue-dump/connectors/budget.py:13-18, RequestPriority. *)
Definition priority_value (p : RequestPriority) : Z :=
  match p with
  | DISCOVERY => 1 | IDENTITY => 2 | DATASET_REQUIRED => 3 | DETAIL => 4 | OPTIONAL => 5
  end.
Definition priority_of_value (v : Z) : RequestPriority :=
  if v =? 1 then DISCOVERY else if v =? 2 then IDENTITY else if v =? 3 then DATASET_REQUIRED
  else if v =? 4 then DETAIL else OPTIONAL.

#[export] Instance RequestPriority_eq_dec : EqDecision RequestPriority.
Proof. solve_decision. Defined.
#[export] Instance RequestPriority_countable : Countable RequestPriority.
Proof. refine (inj_countable' priority_value priority_of_value _). by intros []. Defined.

(** Source: catalogue-dump/connectors/budget.py, BudgetDecision. *)
Inductive BudgetDecision := ALLOW | DOWNGRADE | DEFER | DENY.
#[export] Instance BudgetDecision_eq_dec : EqDecision BudgetDecision.
Proof. solve_decision. Defined.

(** Source: catalogue-dump/connectors/budget.py, RequestCost. *)
Record RequestCost := { http_requests : Z; browser_requests : Z; proxy_bytes : Z }.
#[export] Instance RequestCost_eq_dec : EqDecision RequestCost.
Proof. solve_decision. Defined.

(** The model's field constraints, [Field(ge=0)]. Source:
    catalogue-dump/connectors/budget.py:30-32, RequestCost. *)
Definition valid_cost (c : RequestCost) : bool :=
  (0 <=? http_requests c) && (0 <=? browser_requests c) && (0 <=? proxy_bytes c).

(** Constructing a cost validates it. *)
Definition new_cost (h b p : Z) : result pyexn RequestCost :=
  let c := {| http_requests := h; browser_requests := b; proxy_bytes := p |} in
  _ ← ensure (valid_cost c) (ValueError "Input should be greater than or equal to 0"); Ok c.

(** The sum of two valid costs passes the constructor's validation
    ([cost_add_new]). Source: catalogue-dump/connectors/budget.py, RequestCost.__add__. *)
Definition cost_add (c d : RequestCost) : RequestCost :=
  {| http_requests := http_requests c + http_requests d;
     browser_requests := browser_requests c + browser_requests d;
     proxy_bytes := proxy_bytes c + proxy_bytes d |}.

(** Source: catalogue-dump/connectors/budget.py, RequestCost.exceeds. *)
Definition exceeds (c limit : RequestCost) : bool :=
  (http_requests limit <? http_requests c) || (browser_requests limit <? browser_requests c)
  || (proxy_bytes limit <? proxy_bytes c).

(** Source: catalogue-dump/connectors/budget.py:49-49, ZERO_COST. *)
Definition ZERO_COST : RequestCost := {| http_requests := 0; browser_requests := 0; proxy_bytes := 0 |}.

(** * The planning budget *)

(** Source: catalogue-dump/pipeline/budget.py, RequestBudget.__init__. *)
Record RequestBudget := {
  b_limit : RequestCost;
  b_reserves : gmap RequestPriority RequestCost;
  b_ceilings : gmap RequestPriority RequestCost;
  b_used : RequestCost;
  b_used_by_priority : gmap RequestPriority RequestCost;
}.
(** Source: catalogue-dump/pipeline/budget.py, RequestBudget.__init__. *)
Definition new_budget (limit : RequestCost) (reserves ceilings : gmap RequestPriority RequestCost) : RequestBudget :=
  {| b_limit := limit; b_reserves := reserves; b_ceilings := ceilings; b_used := ZERO_COST;
     b_used_by_priority := ∅ |}.

(** Source: catalogue-dump/pipeline/budget.py:77-77, RequestBudget._allows. *)
Definition used_for (b : RequestBudget) (p : RequestPriority) : RequestCost :=
  default ZERO_COST (b_used_by_priority b !! p).

(** The ceiling check that [consume] and [_allows] share. Source:
    catalogue-dump/pipeline/budget.py:77-80, RequestBudget._allows. *)
Definition over_ceiling (b : RequestBudget) (p : RequestPriority) (cost : RequestCost) : bool :=
  match b_ceilings b !! p with
  | None => false
  | Some ceiling => exceeds (cost_add (used_for b p) cost) ceiling
  end.

(** What is left of a reserve. Source: catalogue-dump/pipeline/budget.py:87-91, RequestBudget._allows. *)
Definition outstanding (reserve already_used : RequestCost) : RequestCost :=
  {| http_requests := Z.max 0 (http_requests reserve - http_requests already_used);
     browser_requests := Z.max 0 (browser_requests reserve - browser_requests already_used);
     proxy_bytes := Z.max 0 (proxy_bytes reserve - proxy_bytes already_used) |}.

(** The outstanding reserves of the more important priorities. Source:
    catalogue-dump/pipeline/budget.py:82-91, RequestBudget._allows. *)
Definition protected (b : RequestBudget) (p : RequestPriority) : RequestCost :=
  foldl (fun acc '(q, reserve) =>
           if priority_value p <=? priority_value q then acc
           else cost_add acc (outstanding reserve (used_for b q)))
        ZERO_COST (map_to_list (b_reserves b)).

(** Source: catalogue-dump/pipeline/budget.py, RequestBudget._allows. *)
Definition allows (b : RequestBudget) (p : RequestPriority) (cost : RequestCost)
    (future_reserve : option RequestCost) : result pyexn bool :=
  let next_total := cost_add (b_used b) cost in
  let next_total := match future_reserve with
                    | None => next_total
                    | Some f => cost_add next_total f
                    end in
  if exceeds next_total (b_limit b) then Ok false
  else if over_ceiling b p cost then Ok false
  else
    remaining ← new_cost (http_requests (b_limit b) - http_requests next_total)
                         (browser_requests (b_limit b) - browser_requests next_total)
                         (proxy_bytes (b_limit b) - proxy_bytes next_total);
    Ok (negb (exceeds (protected b p) remaining)).

(** Source: catalogue-dump/pipeline/budget.py, RequestBudget.decide. *)
Definition decide_request (b : RequestBudget) (p : RequestPriority) (cost : RequestCost) (required : bool)
    (alternative future_reserve : option RequestCost) : result pyexn BudgetDecision :=
  ok ← allows b p cost future_reserve;
  if (ok : bool) then Ok ALLOW
  else
    alt ← (match alternative with
           | None => Ok false
           | Some a => allows b p a future_reserve
           end);
    Ok (if (alt : bool) then DOWNGRADE else if required then DENY else DEFER).

(** Source: catalogue-dump/pipeline/budget.py, RequestBudget.consume. *)
Definition consume (p : RequestPriority) (actual : RequestCost) : eff RequestBudget pyexn () := fun b =>
  let next_total := cost_add (b_used b) actual in
  if exceeds next_total (b_limit b) then
    (Err (ValueError "measured request usage exceeds the job hard limit"), b)
  else if over_ceiling b p actual then
    (Err (ValueError "measured request usage exceeds the priority ceiling"), b)
  else
    (Ok (), {| b_limit := b_limit b; b_reserves := b_reserves b; b_ceilings := b_ceilings b;
               b_used := next_total;
               b_used_by_priority := <[p := cost_add (used_for b p) actual]> (b_used_by_priority b) |}).

(** * The gate and the connector's facade *)

(** A gate whose [budget] is configured. Source:
    catalogue-dump/connectors/budget.py, RequestGate.claim. *)
Definition gate_claim (p : RequestPriority) (cost : RequestCost) (required : bool)
    (alternative future_reserve : option RequestCost) : eff RequestBudget pyexn BudgetDecision :=
  b ← gets id;
  decision ← lift (decide_request b p cost required alternative future_reserve);
  _ ← (match decision with
       | ALLOW => consume p cost
       | DOWNGRADE => match alternative with
                      | None => throw (AssertionError "alternative is not None")
                      | Some a => consume p a
                      end
       | DEFER | DENY => mret ()
       end);
  mret decision.

(** A gate without a budget allows everything. Source:
    catalogue-dump/connectors/budget.py, RequestGate. *)
Definition RequestGate_claim (p : RequestPriority) (cost : RequestCost) (required : bool)
    (alternative future_reserve : option RequestCost) : eff (option RequestBudget) pyexn BudgetDecision :=
  fun g =>
    match g with
    | None => (Ok ALLOW, None)
    | Some b => let '(r, b) := gate_claim p cost required alternative future_reserve b in (r, Some b)
    end.

Inductive connector_exn :=
| CollectorError (e : pyexn)
| BudgetExhausted (p : RequestPriority) (url : string).

Definition raising {A} (m : eff (option RequestBudget) pyexn A) : eff (option RequestBudget) connector_exn A :=
  fun g => match m g with (Ok a, g) => (Ok a, g) | (Err e, g) => (Err (CollectorError e), g) end.

(** The cost of one page. Source: catalogue-dump/connectors/budget.py:118-122, ConnectorBudget.claim. *)
Definition page_cost (browser : bool) (bytes : Z) : result pyexn RequestCost :=
  new_cost (if browser then 0 else 1) (if browser then 1 else 0) bytes.

(** Source: catalogue-dump/connectors/budget.py, ConnectorBudget.claim. *)
Definition connector_claim (p : RequestPriority) (required browser : bool) (bytes : Z)
    (future_reserve : option RequestCost) : eff (option RequestBudget) pyexn BudgetDecision :=
  cost ← lift (page_cost browser bytes);
  RequestGate_claim p cost required None future_reserve.

(** Source: catalogue-dump/connectors/budget.py:149-155, ConnectorBudget.require. *)
Definition granted (d : BudgetDecision) : bool := bool_decide (d = ALLOW) || bool_decide (d = DOWNGRADE).

(** Source: catalogue-dump/connectors/budget.py, ConnectorBudget.require. *)
Definition connector_require (p : RequestPriority) (url : string) (browser : bool) (bytes : Z)
    (future_reserve : option RequestCost) : eff (option RequestBudget) connector_exn () :=
  d ← raising (connector_claim p true browser bytes future_reserve);
  if granted d then mret () else throw (BudgetExhausted p url).

(** Source: catalogue-dump/connectors/budget.py, ConnectorBudget.optional. *)
Definition connector_optional (p : RequestPriority) (browser : bool) (bytes : Z)
    (future_reserve : option RequestCost) : eff (option RequestBudget) pyexn bool :=
  d ← connector_claim p false browser bytes future_reserve; mret (granted d).

(** Source: catalogue-dump/connectors/budget.py, ConnectorBudget.required_detail_priority. *)
Definition required_detail_priority {F} `{Countable F} (requested_fields supplied_fields : gset F) : RequestPriority :=
  if bool_decide (requested_fields ∩ supplied_fields ≠ ∅) then DATASET_REQUIRED else DETAIL.

(** * Lemmas on costs *)

Definition cost_le (c d : RequestCost) : Prop :=
  http_requests c <= http_requests d /\ browser_requests c <= browser_requests d
  /\ proxy_bytes c <= proxy_bytes d.

Lemma exceeds_false c d : exceeds c d = false <-> cost_le c d.
Proof. unfold exceeds, cost_le. rewrite !orb_false_iff, !Z.ltb_ge. tauto. Qed.

Lemma valid_cost_le c : valid_cost c = true <-> cost_le ZERO_COST c.
Proof. unfold valid_cost, cost_le. rewrite !andb_true_iff, !Z.leb_le. simpl. tauto. Qed.

Lemma cost_add_new c d :
  valid_cost c = true -> valid_cost d = true ->
  new_cost (http_requests c + http_requests d) (browser_requests c + browser_requests d)
           (proxy_bytes c + proxy_bytes d) = Ok (cost_add c d).
Proof.
rewrite !valid_cost_le. intros Hc Hd. unfold new_cost.
replace (valid_cost _) with true; [done|]. symmetry. apply valid_cost_le.
unfold cost_le in *. simpl in *. lia.
Qed.

(** Linear arithmetic on the three components of a cost. *)
Ltac cost_lia := unfold cost_le in *; simpl in *; lia.

Lemma outstanding_valid r u : cost_le ZERO_COST (outstanding r u).
Proof. cost_lia. Qed.

(** The reserves counted by [protected], as a sum over a list. *)
Definition protected_of (b : RequestBudget) (p : RequestPriority) (l : list (RequestPriority * RequestCost)) : RequestCost :=
  foldr (fun '(q, reserve) acc =>
           if priority_value p <=? priority_value q then acc
           else cost_add (outstanding reserve (used_for b q)) acc) ZERO_COST l.

Lemma cost_eq c d : cost_le c d -> cost_le d c -> c = d.
Proof. destruct c, d. unfold cost_le. simpl. intros. f_equal; lia. Qed.

Lemma protected_fold b p l c :
  foldl (fun acc '(q, reserve) =>
           if priority_value p <=? priority_value q then acc
           else cost_add acc (outstanding reserve (used_for b q))) c l
  = cost_add c (protected_of b p l).
Proof.
revert c. induction l as [|[q r] l IH]; intros c; simpl.
- apply cost_eq; cost_lia.
- destruct (_ <=? _); rewrite IH; [done|]. apply cost_eq; cost_lia.
Qed.

Lemma protected_alt b p : protected b p = protected_of b p (map_to_list (b_reserves b)).
Proof. unfold protected. rewrite protected_fold. apply cost_eq; cost_lia. Qed.

Lemma protected_of_valid b p l : cost_le ZERO_COST (protected_of b p l).
Proof.
induction l as [|[q r] l IH]; simpl; [cost_lia|].
destruct (_ <=? _); [done|]. pose proof (outstanding_valid r (used_for b q)). cost_lia.
Qed.

(** The reserves protected from [p] are among those protected from a less
    important [p']. *)
Lemma protected_of_mono b p p' l :
  priority_value p <= priority_value p' -> cost_le (protected_of b p l) (protected_of b p' l).
Proof.
intros Hp. induction l as [|[q r] l IH]; simpl; [cost_lia|].
pose proof (outstanding_valid r (used_for b q)).
destruct (priority_value p' <=? priority_value q) eqn:E1, (priority_value p <=? priority_value q) eqn:E2;
  bool_facts; cost_lia.
Qed.

(** A more important priority's own outstanding reserve comes on top of the
    reserves protected from it. *)
Lemma protected_of_own b p q l :
  NoDup l.*1 -> priority_value q < priority_value p ->
  forall r, (q, r) ∈ l ->
  cost_le (cost_add (outstanding r (used_for b q)) (protected_of b q l)) (protected_of b p l).
Proof.
intros Hnd Hqp r. induction l as [|[q' r'] l IH]; simpl; [by intros ?%elem_of_nil|].
inversion Hnd as [|?? Hni Hnd']; subst. intros [[= <- <-]|Hin]%elem_of_cons.
- rewrite (proj2 (Z.leb_gt _ _) Hqp), (proj2 (Z.leb_le _ _) (Z.le_refl (priority_value q))).
  pose proof (protected_of_mono b q p l ltac:(lia)). cost_lia.
- specialize (IH Hnd' Hin). pose proof (outstanding_valid r' (used_for b q')).
  destruct (priority_value p <=? priority_value q') eqn:E1, (priority_value q <=? priority_value q') eqn:E2;
    bool_facts; cost_lia.
Qed.

(** * The budget's invariant *)

Definition all_priorities : list RequestPriority := [DISCOVERY; IDENTITY; DATASET_REQUIRED; DETAIL; OPTIONAL].

(** What was used stays within the limit and within every priority's ceiling,
    and the total is the sum of what each priority used. *)
Record budget_ok (b : RequestBudget) : Prop := {
  bo_within : cost_le (b_used b) (b_limit b);
  bo_used : forall p, cost_le ZERO_COST (used_for b p);
  bo_ceiling : forall p c, b_ceilings b !! p = Some c -> cost_le (used_for b p) c;
  bo_total : b_used b = foldr cost_add ZERO_COST (used_for b <$> all_priorities);
}.

Lemma new_budget_ok limit reserves ceilings :
  valid_cost limit = true -> map_Forall (fun _ c => valid_cost c = true) ceilings ->
  budget_ok (new_budget limit reserves ceilings).
Proof.
rewrite valid_cost_le. intros Hl Hc. split; simpl.
- done.
- intros p. unfold used_for. simpl. rewrite lookup_empty. cost_lia.
- intros p c Hp. unfold used_for. simpl. rewrite lookup_empty. by apply valid_cost_le, (Hc p).
- unfold used_for. simpl. rewrite !lookup_empty. done.
Qed.

Lemma bo_used_valid b : budget_ok b -> cost_le ZERO_COST (b_used b).
Proof.
intros [_ Hu _ Ht]. rewrite Ht. cbn [all_priorities fmap list_fmap foldr].
pose proof (Hu DISCOVERY). pose proof (Hu IDENTITY). pose proof (Hu DATASET_REQUIRED).
pose proof (Hu DETAIL). pose proof (Hu OPTIONAL). cost_lia.
Qed.

Definition charged (b : RequestBudget) (p : RequestPriority) (c : RequestCost) : RequestBudget :=
  {| b_limit := b_limit b; b_reserves := b_reserves b; b_ceilings := b_ceilings b;
     b_used := cost_add (b_used b) c;
     b_used_by_priority := <[p := cost_add (used_for b p) c]> (b_used_by_priority b) |}.

Lemma used_for_charged b p c q :
  used_for (charged b p c) q = if bool_decide (p = q) then cost_add (used_for b p) c else used_for b q.
Proof.
unfold used_for, charged. simpl. case_bool_decide.
- subst. by rewrite lookup_insert_eq.
- by rewrite lookup_insert_ne.
Qed.

Lemma over_ceiling_false b p c cl :
  over_ceiling b p c = false -> b_ceilings b !! p = Some cl -> cost_le (cost_add (used_for b p) c) cl.
Proof. unfold over_ceiling. intros H Hc. rewrite Hc in H. by apply exceeds_false. Qed.

Lemma charged_ok b p c :
  budget_ok b -> valid_cost c = true -> cost_le (cost_add (b_used b) c) (b_limit b) ->
  over_ceiling b p c = false -> budget_ok (charged b p c).
Proof.
intros [Hw Hu Hc Ht] Hv%valid_cost_le Hl Ho. split.
- done.
- intros q. rewrite used_for_charged. case_bool_decide; [|done]. pose proof (Hu p). cost_lia.
- intros q cl Hq. rewrite used_for_charged. case_bool_decide; [subst|by apply Hc].
  by apply (over_ceiling_false b q c).
- change (b_used (charged b p c)) with (cost_add (b_used b) c). rewrite Ht.
  cbn [all_priorities fmap list_fmap foldr]. rewrite !used_for_charged.
  destruct p; simpl; apply cost_eq; cost_lia.
Qed.

(** A granted request fits the limit and the ceiling, and leaves the more
    important reserves fundable. *)
Lemma allows_true b p c fr :
  budget_ok b -> valid_cost c = true -> (forall f, fr = Some f -> valid_cost f = true) ->
  exists v, allows b p c fr = Ok v /\
  (v = true ->
     cost_le (cost_add (b_used b) c) (b_limit b) /\ over_ceiling b p c = false
     /\ cost_le (cost_add (protected b p) (cost_add (b_used b) c)) (b_limit b)).
Proof.
intros Hb Hc%valid_cost_le Hf. pose proof (bo_used_valid b Hb) as Hu.
set (n := match fr with None => cost_add (b_used b) c | Some f => cost_add (cost_add (b_used b) c) f end).
assert (Hn : cost_le (cost_add (b_used b) c) n).
{ subst n. destruct fr as [f|]; [|cost_lia]. specialize (Hf f eq_refl). apply valid_cost_le in Hf. cost_lia. }
unfold allows. fold n. destruct (exceeds n (b_limit b)) eqn:E1; [by exists false|].
apply exceeds_false in E1.
destruct (over_ceiling b p c) eqn:E2; [by exists false|].
unfold new_cost. rewrite (proj2 (valid_cost_le _)); [|cost_lia]. simpl. eexists. split; [done|].
intros E3%negb_true_iff%exceeds_false. split_and!; [cost_lia|done|cost_lia].
Qed.

Lemma consume_charges b p c :
  cost_le (cost_add (b_used b) c) (b_limit b) -> over_ceiling b p c = false ->
  consume p c b = (Ok (), charged b p c).
Proof. intros Hl%exceeds_false Ho. unfold consume. by rewrite Hl, Ho. Qed.

(** The effect of a claim on the budget, by decision. *)
Definition claim_effect (b : RequestBudget) (p : RequestPriority) (cost : RequestCost) (required : bool)
    (alternative : option RequestCost) (d : BudgetDecision) (b' : RequestBudget) : Prop :=
  match d with
  | ALLOW => b' = charged b p cost
             /\ cost_le (cost_add (protected b p) (cost_add (b_used b) cost)) (b_limit b)
  | DOWNGRADE => exists a, alternative = Some a /\ b' = charged b p a
             /\ cost_le (cost_add (protected b p) (cost_add (b_used b) a)) (b_limit b)
  | DEFER => required = false /\ b' = b
  | DENY => required = true /\ b' = b
  end.

Lemma gate_claim_spec b p cost required alternative fr :
  budget_ok b -> valid_cost cost = true ->
  (forall a, alternative = Some a -> valid_cost a = true) ->
  (forall f, fr = Some f -> valid_cost f = true) ->
  exists d b', gate_claim p cost required alternative fr b = (Ok d, b')
  /\ claim_effect b p cost required alternative d b' /\ budget_ok b'.
Proof.
intros Hb Hc Ha Hf. unfold gate_claim, mbind, eff_bind, gets, lift, decide_request, id.
destruct (allows_true b p cost fr Hb Hc Hf) as (v & -> & Hv). simpl. destruct v.
{ destruct (Hv eq_refl) as (Hl & Ho & Hp). rewrite (consume_charges b p cost Hl Ho).
  do 2 eexists. split_and!; [done|done|by apply charged_ok]. }
destruct alternative as [a|]; [|destruct required; do 2 eexists; split_and!; done].
destruct (allows_true b p a fr Hb (Ha a eq_refl) Hf) as (w & -> & Hw). simpl. destruct w.
- destruct (Hw eq_refl) as (Hl & Ho & Hp). rewrite (consume_charges b p a Hl Ho).
  do 2 eexists. split_and!; [done|by exists a|]. apply charged_ok; auto.
- destruct required; do 2 eexists; split_and!; done.
Qed.

(** [funded q b]: the outstanding reserves of [q] and of everything more
    important than [q] fit in what is left of the limit. *)
Definition funded (b : RequestBudget) (q : RequestPriority) (reserve : RequestCost) : Prop :=
  b_reserves b !! q = Some reserve /\
  cost_le (cost_add (cost_add (outstanding reserve (used_for b q)) (protected b q)) (b_used b)) (b_limit b).

Lemma protected_of_charged b p c q l :
  priority_value q < priority_value p ->
  protected_of (charged b p c) q l = protected_of b q l.
Proof.
intros Hqp. induction l as [|[q' r] l IH]; simpl; [done|].
destruct (_ <=? _) eqn:E; [done|]. bool_facts. rewrite IH, used_for_charged, bool_decide_false; [done|].
intros ->. lia.
Qed.

Lemma charged_funded b p c q r :
  budget_ok b -> priority_value q < priority_value p ->
  cost_le (cost_add (protected b p) (cost_add (b_used b) c)) (b_limit b) ->
  funded b q r -> funded (charged b p c) q r.
Proof.
intros Hb Hqp Hp [Hr Hf]. split; [done|].
rewrite protected_alt in *. rewrite used_for_charged, bool_decide_false by (intros ->; lia).
change (b_reserves (charged b p c)) with (b_reserves b). rewrite protected_of_charged by done.
pose proof (protected_of_own b p q (map_to_list (b_reserves b)) (NoDup_fst_map_to_list _) Hqp r) as Ho.
specialize (Ho ltac:(by apply elem_of_map_to_list)). cost_lia.
Qed.

(** A priority whose reserve is funded is granted a cost within it. *)
Lemma funded_allows b q r cost :
  budget_ok b -> valid_cost cost = true -> funded b q r ->
  cost_le (cost_add (used_for b q) cost) r ->
  over_ceiling b q cost = false ->
  allows b q cost None = Ok true.
Proof.
intros Hb Hc%valid_cost_le [Hr Hf] Hle Ho. unfold allows.
pose proof (protected_of_valid b q (map_to_list (b_reserves b))) as Hp. rewrite <- protected_alt in Hp.
rewrite (proj2 (exceeds_false _ _)) by cost_lia. rewrite Ho.
unfold new_cost. rewrite (proj2 (valid_cost_le _)) by cost_lia. simpl.
rewrite (proj2 (exceeds_false _ _)); [done|]. cost_lia.
Qed.

(** A connector's claims, one after another, whatever each one decides. *)
Record claim_args := {
  ca_priority : RequestPriority; ca_cost : RequestCost; ca_required : bool;
  ca_alternative : option RequestCost; ca_future : option RequestCost;
}.
Definition valid_claim (c : claim_args) : Prop :=
  valid_cost (ca_cost c) = true
  /\ (forall a, ca_alternative c = Some a -> valid_cost a = true)
  /\ (forall f, ca_future c = Some f -> valid_cost f = true).
Definition run_claims (b : RequestBudget) (l : list claim_args) : RequestBudget :=
  foldl (fun b c => (gate_claim (ca_priority c) (ca_cost c) (ca_required c) (ca_alternative c) (ca_future c) b).2) b l.

Lemma run_claims_funded q r l b :
  Forall (fun c => valid_claim c /\ priority_value q < priority_value (ca_priority c)) l ->
  budget_ok b -> funded b q r ->
  let b' := run_claims b l in
  budget_ok b' /\ funded b' q r /\ used_for b' q = used_for b q /\ b_ceilings b' = b_ceilings b.
Proof.
intros Hl. revert b. induction Hl as [|c l [(Hc & Ha & Hf) Hq] _ IH]; intros b Hb Hr; simpl; [done|].
destruct (gate_claim_spec b (ca_priority c) (ca_cost c) (ca_required c) (ca_alternative c) (ca_future c) Hb Hc Ha Hf)
  as (d & b' & -> & He & Hb'). simpl.
assert (H : funded b' q r /\ used_for b' q = used_for b q /\ b_ceilings b' = b_ceilings b).
{ destruct d; simpl in He;
    [destruct He as [-> Hp]|destruct He as (a & _ & -> & Hp)|by destruct He as [_ ->]|by destruct He as [_ ->]];
    (split_and!; [by apply charged_funded| |done]);
    by rewrite used_for_charged, bool_decide_false by (intros Heq; rewrite Heq in Hq; lia). }
destruct H as (Hfd & Hu & Hce). rewrite <- Hu, <- Hce. by apply IH.
Qed.

(** * Properties *)

(** Planning and accounting agree: for a budget within its limits and
    validated costs, a claim never raises. An allowed claim charges its cost, a
    downgraded one the alternative, and either leaves room under the limit for
    the outstanding reserves of every more important priority; only a required
    claim is denied, only an optional one deferred, and neither charges
    anything. The budget stays within its limit and its ceilings. *)
Theorem budget_claim_total b p cost required alternative future_reserve :
  budget_ok b -> valid_cost cost = true ->
  (forall a, alternative = Some a -> valid_cost a = true) ->
  (forall f, future_reserve = Some f -> valid_cost f = true) ->
  exists d b', gate_claim p cost required alternative future_reserve b = (Ok d, b')
  /\ claim_effect b p cost required alternative d b' /\ budget_ok b'.
Proof. apply gate_claim_spec. Qed.

(** A reserve does what it is for: once a priority's reserve is funded, no
    sequence of less important claims, however they ask and whatever they are
    granted, can starve it: a request within the reserve and the priority's
    ceiling is still allowed afterwards. *)
Theorem budget_reserve_survives b q r l cost required :
  budget_ok b -> funded b q r ->
  Forall (fun c => valid_claim c /\ priority_value q < priority_value (ca_priority c)) l ->
  valid_cost cost = true -> cost_le (cost_add (used_for b q) cost) r -> over_ceiling b q cost = false ->
  (gate_claim q cost required None None (run_claims b l)).1 = Ok ALLOW.
Proof.
intros Hb Hf Hl Hc Hr Ho.
destruct (run_claims_funded q r l b Hl Hb Hf) as (Hb' & Hf' & Hu & Hce).
set (b' := run_claims b l) in *.
assert (Ho' : over_ceiling b' q cost = false) by (unfold over_ceiling in *; by rewrite Hu, Hce).
pose proof (funded_allows b' q r cost Hb' Hc Hf' ltac:(by rewrite Hu) Ho') as Ha.
destruct (allows_true b' q cost None Hb' Hc ltac:(done)) as (v & Hv & Hw).
rewrite Ha in Hv. injection Hv as <-. destruct (Hw eq_refl) as (Hl' & _ & _).
unfold gate_claim, mbind, eff_bind, gets, lift, decide_request, id. rewrite Ha. simpl.
by rewrite consume_charges.
Qed.

(** The connector's facade raises exactly when a required page is not
    funded, with the priority and the page's address, and never for an internal
    error; an unfunded page changes nothing. *)
Theorem connector_require_outcome b p url browser bytes :
  budget_ok b -> 0 <= bytes ->
  exists cost, page_cost browser bytes = Ok cost /\
  match connector_require p url browser bytes None (Some b) with
  | (Ok _, Some b') => b' = charged b p cost /\ budget_ok b'
  | (Err e, b') => e = BudgetExhausted p url /\ b' = Some b
  | (Ok _, None) => False
  end.
Proof.
intros Hb Hz. unfold page_cost, new_cost.
set (cost := {| http_requests := _ |}).
assert (Hc : valid_cost cost = true) by (apply valid_cost_le; destruct browser; cost_lia).
rewrite Hc. exists cost. split; [done|].
destruct (gate_claim_spec b p cost true None None Hb Hc ltac:(done) ltac:(done)) as (d & b' & Hg & He & Hb').
unfold connector_require, connector_claim, raising, page_cost, new_cost, mbind, eff_bind, lift. fold cost.
rewrite Hc. simpl. rewrite Hg. simpl.
destruct d; simpl in *; [by destruct He as [-> _]|by destruct He as (? & ? & _)|by destruct He|by destruct He as [_ ->]].
Qed.

(** * Witnesses *)

Definition example_budget : RequestBudget :=
  new_budget {| http_requests := 10; browser_requests := 2; proxy_bytes := 1000 |}
    {[ DISCOVERY := {| http_requests := 2; browser_requests := 0; proxy_bytes := 0 |};
       DATASET_REQUIRED := {| http_requests := 3; browser_requests := 1; proxy_bytes := 500 |} ]}
    {[ DETAIL := {| http_requests := 6; browser_requests := 2; proxy_bytes := 1000 |} ]}.
Definition pages (n : Z) : RequestCost := {| http_requests := n; browser_requests := 0; proxy_bytes := 0 |}.
Definition detail (n : Z) : claim_args :=
  {| ca_priority := DETAIL; ca_cost := pages n; ca_required := false; ca_alternative := Some (pages 1); ca_future := None |}.

Lemma example_budget_ok : budget_ok example_budget.
Proof. apply new_budget_ok; [done|]. by apply map_Forall_singleton. Qed.

Lemma budget_claim_total_witness :
  decide_request example_budget DETAIL (pages 6) false (Some (pages 5)) None = Ok DOWNGRADE /\
  exists d b', gate_claim DETAIL (pages 6) false (Some (pages 5)) None example_budget = (Ok d, b')
  /\ claim_effect example_budget DETAIL (pages 6) false (Some (pages 5)) d b' /\ budget_ok b'.
Proof.
split; [by vm_compute|].
apply (budget_claim_total example_budget DETAIL (pages 6) false (Some (pages 5)) None).
- apply example_budget_ok.
- done.
- by intros a [= <-].
- done.
Defined.

Lemma budget_reserve_survives_witness :
  http_requests (b_used (run_claims example_budget [detail 4; detail 4; detail 4])) = 5 /\
  (gate_claim DATASET_REQUIRED (pages 3) true None None
     (run_claims example_budget [detail 4; detail 4; detail 4])).1 = Ok ALLOW.
Proof.
split; [by vm_compute|].
apply (budget_reserve_survives example_budget DATASET_REQUIRED
         {| http_requests := 3; browser_requests := 1; proxy_bytes := 500 |}).
- apply example_budget_ok.
- split; [done|]. vm_compute. split_and!; by intros.
- repeat constructor; try done; by intros ? [= <-].
- done.
- vm_compute. split_and!; by intros.
- done.
Defined.

Lemma connector_require_outcome_witness :
  exists cost, page_cost true 100 = Ok cost /\
  match connector_require DETAIL "https://shop.example/a" true 100 None (Some example_budget) with
  | (Ok _, Some b') => b' = charged example_budget DETAIL cost /\ budget_ok b'
  | (Err e, b') => e = BudgetExhausted DETAIL "https://shop.example/a" /\ b' = Some example_budget
  | (Ok _, None) => False
  end.
Proof.
apply (connector_require_outcome example_budget DETAIL "https://shop.example/a" true 100).
- apply example_budget_ok.
- lia.
Defined.
