(* ===== verification/BespokePages.v ===== *)
(** The three connectors of the catalogue for bespoke storefronts
    ([catalogue-dump/.../connectors/bespoke_pages.py]): discovery of a bounded list
    of pages, one page of the collection per storefront page with a cursor of index
    and sequence, and what each storefront's markup becomes. The transport is I/O
    over a world; SHA-256, [html.unescape] and the [repr] of containers are
    parameters. *)
From S2P Require Export PyNumber HtmlPage WorkBudget.
From Stdlib Require Import Ascii.
Open Scope Z_scope.

(** * Exceptions *)

(** The exceptions by the classes the handlers name; [BudgetExhausted] is a
    [RuntimeError]. *)
Inductive page_exn :=
| X_Budget
| X_Http (class : string)
| X_Runtime (class : string)
| X_Other (e : pyexn).

(** [except (httpx.HTTPError, RuntimeError)] *)
Definition caught (e : page_exn) : bool := match e with X_Other _ => false | _ => true end.
(** [type(error).__name__] *)
Definition class_name (e : page_exn) : string :=
  match e with X_Budget => "BudgetExhausted" | X_Http c | X_Runtime c => c | X_Other _ => "" end.
Definition of_connector_exn (e : connector_exn) : page_exn :=
  match e with
  | BudgetExhausted _ _ => X_Budget
  | CollectorError (RuntimeError _) => X_Runtime "RuntimeError"
  | CollectorError e => X_Other e
  end.

(** Source: catalogue-dump/connectors/bespoke_pages.py, _budget_code. *)
Definition budget_code (e : page_exn) (fallback : DiagnosticCode) : DiagnosticCode :=
  match e with X_Budget => REQUEST_BUDGET_EXHAUSTED | _ => fallback end.

(** * Loading a page *)

(** [PageTransport] and [InteractivePageTransport]: I/O over a world [W]. *)
Record PageTransport (W : Type) := {
  pt_document : string -> bool -> eff W page_exn string;
  pt_evaluate : string -> eff W page_exn json;
  pt_clock : W -> Z;
}.
Arguments pt_document {W}. Arguments pt_evaluate {W}. Arguments pt_clock {W}.

(** The gate in front of the budget, and the world. *)
Abbreviation collector W := (eff (option RequestBudget * W) page_exn).

Section effects.
Context {W : Type}.
Definition on_budget {A} (m : eff (option RequestBudget) connector_exn A) : collector W A := fun '(g, w) =>
  match m g with (Ok a, g) => (Ok a, (g, w)) | (Err e, g) => (Err (of_connector_exn e), (g, w)) end.
Definition on_world {A} (m : eff W page_exn A) : collector W A := fun '(g, w) => let '(r, w) := m w in (r, (g, w)).
Definition pure_py {A} (r : result pyexn A) : collector W A := fun s =>
  match r with Ok a => (Ok a, s) | Err e => (Err (X_Other e), s) end.
End effects.

Section connectors.
Context {W : Type} (transport : PageTransport W) (render : option bool).

(** Source: catalogue-dump/connectors/bespoke_pages.py, _load. *)
Definition load (url : string) (priority : RequestPriority) : collector W string :=
  let rendered := bool_decide (render = Some true) in
  catch (_ ← on_budget (connector_require priority url rendered 0 None); on_world (pt_document transport url rendered))
    (fun e => match e with
              | X_Http _ | X_Runtime _ =>
                  if is_none render
                  then _ ← on_budget (connector_require priority url true 0 None); on_world (pt_document transport url true)
                  else throw e
              | _ => throw e
              end).

(** [try: load except (httpx.HTTPError, RuntimeError) as error] with the outcome as
    a value. *)
Definition try_load (url : string) (priority : RequestPriority) : collector W (page_exn + string) :=
  catch (d ← load url priority; mret (inr d)) (fun e => if caught e then mret (inl e) else throw e).

(** * Pages *)

(** [hashlib.sha256(...).hexdigest()], and the name and label of the connector. *)
Context (sha256 : string -> string) (name label : string).

(** Source: catalogue-dump/connectors/bespoke_pages.py, _page_id. *)
Definition page_id_of (sequence index : Z) : string :=
  name +:+ "-" +:+ pretty sequence +:+ "-"
  +:+ str_take 16 (sha256 (name +:+ ":" +:+ pretty sequence +:+ ":" +:+ pretty index)).

(** Source: catalogue-dump/connectors/bespoke_pages.py:948-957, _success. *)
Definition page_cursor (index sequence offset : Z) : json :=
  JDict ([("partition", JStr "main"); ("index", JInt index); ("sequence", JInt sequence)]
         ++ (if offset =? 0 then [] else [("card_offset", JInt offset)])).

(** Source: catalogue-dump/connectors/bespoke_pages.py, _ConnectorBase._failure. *)
Definition failure (sequence index : Z) (code : DiagnosticCode) (message url : string) (retryable : bool) : CataloguePage :=
  {| p_page_id := page_id_of sequence index; p_partition_key := "main"; p_sequence := sequence; p_items := [];
     p_resume_after := Some (page_cursor index sequence 0); p_terminal := true; p_partition_terminal := false;
     p_enumeration_intact := false; p_discovered := 0;
     p_diagnostics := [{| d_code := code; d_severity := ERROR; d_message := message; d_retryable := retryable;
                          d_affects_completeness := true; d_url := Some url |}] |}.

(** [result_limit] is given when the page ends a limited collection; [resume] is
    the index and offset of the cursor.
    Source: catalogue-dump/connectors/bespoke_pages.py, _success. *)
Definition success (sequence index : Z) (items : list CommerceProductSnapshot) (terminal : bool) (discovered : Z)
    (result_limit : option Z) (url : string) (resume : Z * Z) : CataloguePage :=
  let limited := is_some result_limit in
  {| p_page_id := page_id_of sequence index; p_partition_key := "main"; p_sequence := sequence; p_items := items;
     p_resume_after := if terminal && negb limited then None else Some (page_cursor resume.1 (sequence + 1) resume.2);
     p_terminal := terminal; p_partition_terminal := false; p_enumeration_intact := negb limited;
     p_discovered := discovered;
     p_diagnostics := match result_limit with Some n => [result_limit_diagnostic n url] | None => [] end |}.

(** The cursor of a checkpoint: index and sequence.
    Source: catalogue-dump/connectors/bespoke_pages.py, _ConnectorBase._validate. *)
Definition validate_start (capabilities : CatalogueCapabilities) (request : CatalogueRequest)
    (checkpoint : option ConnectorCheckpoint) : result pyexn (Z * Z) :=
  _ ← ensure (catalogue_supports capabilities (cr_requested_fields request) (cr_refresh_mode request))
        (ValueError (name +:+ " does not support the requested collection"));
  _ ← ensure (bool_decide (cr_categories request = []) && bool_decide (cr_collections request = []))
        (ValueError (name +:+ " does not support server-side filters"));
  match checkpoint with
  | None => Ok (0, 0)
  | Some c =>
      _ ← ensure (bool_decide (k_connector c = name) && bool_decide (k_connector_version c = "1")
                  && bool_decide (k_source_id c = cr_source_id request))
            (ValueError (name +:+ " checkpoint does not match this collection"));
      match k_resume_after c with
      | JDict cursor =>
          _ ← ensure (bool_decide (get cursor "partition" = JStr "main"))
                (ValueError (name +:+ " checkpoint partition is invalid"));
          match get cursor "index", get cursor "sequence" with
          | JInt index, JInt sequence =>
              _ ← ensure ((0 <=? index) && (0 <=? sequence)) (ValueError (name +:+ " checkpoint cursor is invalid"));
              Ok (index, sequence)
          | _, _ => Err (ValueError (name +:+ " checkpoint cursor is invalid"))
          end
      | _ => Err (ValueError (name +:+ " checkpoint partition is invalid"))
      end
  end.

(** * Discovery *)

(** The code, message, URL and retryability of a failed discovery. *)
Definition failure_info : Type := DiagnosticCode * string * string * bool.

(** A loop that threads a value and may raise. *)
Fixpoint fold_result {A B} (f : A -> B -> result pyexn A) (a : A) (l : list B) : result pyexn A :=
  match l with [] => Ok a | x :: r => a ← f a x; fold_result f a r end.

(** Source: catalogue-dump/connectors/bespoke_pages.py:233-236, AxnerConnector._discover. *)
Fixpoint drop_seen (seen queue : list string) : list string :=
  match queue with
  | [] => []
  | url :: rest => if bool_decide (url ∈ seen) then drop_seen seen rest else queue
  end.

(** The loop over the queue of listing pages; [visit] takes a loaded page, the
    pages seen and those queued, and returns what it collected and the queue with
    the pages it links to. [fuel] is what is left of the page limit.
    Source: catalogue-dump/connectors/bespoke_pages.py:233-264, AxnerConnector._discover. *)
Fixpoint walk {A} (limit : Z) (visit : string -> string -> list string -> list string -> A ->
      result pyexn (A * list string)) (fuel : nat) (queue seen : list string) (acc : A) : collector W (failure_info + A) :=
  match drop_seen seen queue with
  | [] => mret (inr acc)
  | url :: rest =>
      match fuel with
      | O => mret (inl (ENUMERATION_INCOMPLETE, label +:+ " category page limit " +:+ pretty limit +:+ " reached", url, false))
      | S fuel =>
          loaded ← try_load url DISCOVERY;
          match loaded with
          | inl e => mret (inl (budget_code e ENUMERATION_INCOMPLETE, label +:+ " listing failed: " +:+ class_name e, url, true))
          | inr document =>
              '(acc, queue) ← pure_py (visit url document (url :: seen) rest acc);
              walk limit visit fuel queue (url :: seen) acc
          end
      end
  end.

(** A page as pydantic validates it on construction. *)
Definition yield_page (p : CataloguePage) : collector W CataloguePage := pure_py (catalogue_page p).

(** * The products of a list of URLs *)

(** What reading one product gives: a page that ends the collection, or a snapshot. *)
Definition read_result : Type := CataloguePage + CommerceProductSnapshot.

(** Where the generator is suspended: before its start, or in the loop over the URLs
    it discovered, which began at [start]. *)
Inductive position :=
| AtStart (checkpoint : option ConnectorCheckpoint)
| AtUrls (urls : list string) (start index sequence : Z).

(** [page_limit] is the option; [read] takes the sequence, the index and the URL of a
    product. *)
Context (capabilities : CatalogueCapabilities) (page_limit : Z) (request : CatalogueRequest).
Context (discover : collector W (failure_info + list string)) (read : Z -> Z -> string -> collector W read_result).

(** Source: catalogue-dump/connectors/bespoke_pages.py:273-277, AxnerConnector._products. *)
Definition stop_index (urls : list string) (start : Z) : Z :=
  let stop := Z.min (Z.of_nat (length urls)) page_limit in
  match cr_result_limit request with Some limit => Z.min stop (start + limit) | None => stop end.

(** One round of the loop, or what follows it.
    Source: catalogue-dump/connectors/bespoke_pages.py:281-326, AxnerConnector._products. *)
Definition next_product (urls : list string) (start index sequence : Z) : collector W (option (CataloguePage * option position)) :=
  let total := Z.of_nat (length urls) in
  let stop := stop_index urls start in
  if index <? stop then
    let url := default "" (urls !! Z.to_nat index) in
    r ← read sequence index url;
    match r with
    | inl p => mret (Some (p, None))
    | inr snapshot =>
        let next_index := index + 1 in
        let limited := match cr_result_limit request with
                       | Some limit => (start + limit <? total) && (start + limit <=? next_index)
                       | None => false
                       end in
        let terminal := (next_index =? total) || limited in
        p ← yield_page (success sequence index [snapshot] terminal 1 (if limited then cr_result_limit request else None) url
                          (index + 1, 0));
        mret (Some (p, if terminal then None else Some (AtUrls urls start next_index (sequence + 1))))
    end
  else if stop <? total then
    p ← yield_page (failure sequence stop ENUMERATION_INCOMPLETE (label +:+ " product page limit " +:+ pretty page_limit +:+ " reached")
                      (cr_base_url request) false);
    mret (Some (p, None))
  else mret None.

(** The generator of a connector that reads a list of products.
    Source: catalogue-dump/connectors/bespoke_pages.py:442-459, CeramicoloursConnector.collect. *)
Definition next_listed (g : position) : collector W (option (CataloguePage * option position)) :=
  match g with
  | AtUrls urls start index sequence => next_product urls start index sequence
  | AtStart checkpoint =>
      '(start, sequence) ← pure_py (validate_start capabilities request checkpoint);
      d ← discover;
      match d with
      | inl (code, message, url, retryable) =>
          p ← yield_page (failure sequence start code message url retryable); mret (Some (p, None))
      | inr urls =>
          if start =? stop_index urls start
          then p ← yield_page (success sequence start [] true 0 None "unknown" (start + 1, 0)); mret (Some (p, None))
          else next_product urls start start sequence
      end
  end.
End connectors.

(** * What markup becomes *)

#[export] Instance eta_DocumentRef : Eta DocumentRef := fun d =>
  {| doc_url := doc_url d; doc_observed_at := doc_observed_at d; doc_evidence := doc_evidence d; doc_title := doc_title d;
     doc_media_type := doc_media_type d; doc_external_id := doc_external_id d |}.
#[export] Instance eta_CommerceOffer : Eta CommerceOffer := fun o =>
  {| o_price := o_price o; o_observed_at := o_observed_at o; o_evidence := o_evidence o; o_role := o_role o;
     o_vat_status := o_vat_status o; o_vat_rate := o_vat_rate o; o_minimum_quantity := o_minimum_quantity o;
     o_unit := o_unit o; o_pack_size := o_pack_size o; o_valid_from := o_valid_from o; o_valid_until := o_valid_until o;
     o_seller_id := o_seller_id o; o_seller_name := o_seller_name o; o_availability := o_availability o;
     o_availability_evidence := o_availability_evidence o |}.

Definition field_index (f : SnapshotField) : nat :=
  match f with
  | F_IDENTITY => 0 | F_DESCRIPTION => 1 | F_CATEGORIES => 2 | F_IMAGES => 3 | F_VARIANTS => 4 | F_OFFERS => 5 | F_STOCK => 6
  | F_DOCUMENTS => 7 | F_PUBLISHED_ATTRIBUTES => 8 | F_PLATFORM_EXTENSIONS => 9
  end.
(** [frozenset(SnapshotField)] *)
Definition all_fields : list SnapshotField :=
  [F_IDENTITY; F_DESCRIPTION; F_CATEGORIES; F_IMAGES; F_VARIANTS; F_OFFERS; F_STOCK; F_DOCUMENTS; F_PUBLISHED_ATTRIBUTES;
   F_PLATFORM_EXTENSIONS].

#[export] Instance SnapshotField_countable : Countable SnapshotField.
Proof. refine (inj_countable' field_index (fun n => nth n all_fields F_IDENTITY) _). by intros []. Defined.

Section markup.
Context (unescape : string -> string) (repr : json -> string) (sha256 : string -> string).
#[local] Abbreviation clean := (clean unescape repr).
#[local] Abbreviation clean_text := (clean_text unescape).

(** Source: catalogue-dump/connectors/bespoke_pages.py, _match_text. *)
Definition match_text (document pattern : string) : string :=
  match search (rx re_IS pattern) document with
  | Some x => match group 1 x with Some s => clean_text s | None => "" end
  | None => ""
  end.

(** Source: catalogue-dump/connectors/bespoke_pages.py, _meta. *)
Definition meta_text (document key : string) : string :=
  match search (rx_around re_I "<meta[^>]+(?:property|name)=[`']" key "[`'][^>]+content=[`']([^`']*)") document with
  | Some x => str_strip (unescape (group_text 1 x))
  | None => ""
  end.

(** Amount and currency of a price text.
    Source: catalogue-dump/connectors/bespoke_pages.py, _price. *)
Definition price_of (value : json) : option decimal * option string :=
  match value with
  | JNull | JBool _ => (None, None)
  | _ =>
      let text := clean value in
      let currency := snd <$> head (filter (fun sc => str_contains sc.1 text = true) [("€", "EUR"); ("$", "USD"); ("£", "GBP")]) in
      let number := re_sub (rx no_flags "[^0-9.,-]") "" text in
      let number := str_replace_char "," "." (re_sub (rx no_flags "[.,](?=\d{3}(?:\D|$))") "" number) in
      match decimal_of_text number with
      | Some d => (if decimal_sign_nonneg d then Some d else None, currency)
      | None => (None, currency)
      end
  end.

(** Source: catalogue-dump/connectors/bespoke_pages.py, _url_id. *)
Definition url_id (url : string) : result pyexn string := u ← canonical url; Ok (str_take 24 (sha256 u)).

(** Source: catalogue-dump/connectors/bespoke_pages.py, _evidence. *)
Definition evidence_of (url : string) (observed_at : Z) (field : string) : result pyexn Evidence :=
  new_evidence "html" url (Some field) observed_at.

(** Source: catalogue-dump/connectors/bespoke_pages.py, _offer. *)
Definition offer_of (amount : decimal) (currency : string) (observed_at : Z) (evidence : Evidence)
    (vat_status : option string) (vat_rate : option decimal) : result pyexn CommerceOffer :=
  let offer := plain_offer {| m_amount := amount; m_currency := currency |} observed_at [evidence] "regular"
                 (default "unknown" vat_status) None [] in
  valid_offer (offer <| o_vat_rate := vat_rate |>).

(** Source: catalogue-dump/connectors/bespoke_pages.py, _stock. *)
Definition stock_of (quantity : option Z) (observed_at : Z) (evidence : Evidence) : result pyexn StockState :=
  valid_stock {| s_availability := match quantity with
                                   | Some q => if q =? 0 then OUT_OF_STOCK else IN_STOCK
                                   | None => AVAILABILITY_UNKNOWN
                                   end;
                 s_quantity := quantity; s_quantity_kind := if is_some quantity then EXACT else QUANTITY_UNKNOWN;
                 s_observed_at := observed_at; s_evidence := [evidence] |}.

(** Source: catalogue-dump/connectors/bespoke_pages.py, _unknown_stock. *)
Definition unknown_stock (observed_at : Z) (evidence : Evidence) : result pyexn StockState := stock_of None observed_at evidence.

(** Source: catalogue-dump/connectors/bespoke_pages.py, _documents. *)
Definition documents_of (document url : string) (observed_at : Z) : result pyexn (list DocumentRef) :=
  links ← pdf_links unescape document url;
  map_result (fun '(document_url, text) =>
    evidence ← evidence_of url observed_at "a[href*=.pdf]";
    d ← new_document document_url observed_at [evidence] (or_none text);
    Ok (d <| doc_media_type := Some "application/pdf" |>)) links.

Definition url_path (url : string) : result pyexn string := u ← urlparse url ""; Ok (sr_path (pr_split u)).

(** [parse_qs(urlparse(url).query).get(key, [''])[0]] *)
Definition query_value (url key : string) : result pyexn string :=
  u ← urlparse url "";
  Ok (default "" (snd <$> head (filter (fun kv => kv.1 = key /\ kv.2 <> "") (parse_qsl (sr_query (pr_split u)))))).

(** * Axner *)

(** The validated options. Source: catalogue-dump/connectors/bespoke_pages.py, AxnerOptions. *)
Record AxnerOptions := {
  ax_category_url : option string;
  ax_category_page_limit : Z;
  ax_page_limit : Z;
  ax_brand : option string;
  ax_currency : string;
  ax_vat_status : option string;
  ax_vat_rate : option decimal;
  ax_render : option bool;
}.

(** The constraints of the fields. Source: catalogue-dump/connectors/bespoke_pages.py:64-74, AxnerOptions. *)
Definition new_axner_options (o : AxnerOptions) : result pyexn AxnerOptions :=
  _ ← ensure (1 <=? ax_category_page_limit o) (ValueError "category_page_limit is not positive");
  _ ← ensure (1 <=? ax_page_limit o) (ValueError "page_limit is not positive");
  _ ← ensure (match ax_vat_status o with Some s => bool_decide (s ∈ ["inclusive"; "exclusive"; "unknown"]) | None => true end)
        (ValueError "unknown VAT status");
  _ ← ensure (opt_forall decimal_fraction (ax_vat_rate o)) (ValueError "VAT rate out of range");
  Ok o.

(** Source: catalogue-dump/connectors/bespoke_pages.py:177-179, AxnerConnector. *)
Definition LISTING_LINK : regex := rx re_I "class=`[^`]*product-list-link[^`]*`[^>]*>\s*<a[^>]+href=`([^`]+)`".
(** Source: catalogue-dump/connectors/bespoke_pages.py:180-180, AxnerConnector. *)
Definition NEXT_PAGE : regex := rx re_I "href=`([^`]*\?page=\d+)`".

(** The details table: each label without its colons, and its value.
    Source: catalogue-dump/connectors/bespoke_pages.py:339-347, AxnerConnector._parse. *)
Definition axner_details (document : string) : list (string * string) :=
  foldl (fun acc '(text, value) => dict_set (str_rstrip (fun c => (c =? ":")%char) (clean_text text)) (clean_text value) acc) []
    (findall2 (rx re_IS ("class=`prod-detail-part-label`[^>]*>(.*?)</span>\s*<span[^>]*" +:+
       "class=`prod-detail-part-value`[^>]*>(.*?)</span>")) document).

(** Source: catalogue-dump/connectors/bespoke_pages.py, AxnerConnector._parse. *)
Definition axner_parse (options : AxnerOptions) (document url source_id : string) (observed_at : Z)
    : result pyexn (option CommerceProductSnapshot) :=
  let heading := match_text document "<h1[^>]*>(.*?)</h1>" in
  let name := if str_isempty heading then meta_text document "og:title" else heading in
  let price_text := match_text document "class=`[^`]*product-list-cost-value[^`]*`[^>]*>\s*\$?\s*([\d,]+\.\d{2})" in
  let '(amount, currency) := price_of (JStr price_text) in
  match str_isempty name, amount with
  | false, Some amount =>
      let details := axner_details document in
      let reference := from_option or_none None (dict_get "Axner Number" details) in
      let maker := match_text document "class=`prod-detail-man-name-value`[^>]*>(.*?)</span>" in
      let currency := match currency with Some c => c | None => ax_currency options end in
      images ← map_result (urljoin url)
        (filter (fun value => str_contains "thumb" (str_lower (str_rpartition "/" value).2) = false)
           (fromkeys (findall (rx re_I "src=`(/ProductImages/[^`]+)`") document)));
      let attributes := filter (fun kv => kv.1 <> "Axner Number") details in
      evidence ← evidence_of url observed_at "axner_data_item";
      external_id ← (match reference with Some r => Ok r | None => url_id url end);
      offer ← offer_of amount currency observed_at evidence (ax_vat_status options) (ax_vat_rate options);
      canonical_url ← canonical url;
      images ← map_result (fun value => new_media value None None) images;
      documents ← documents_of document url observed_at;
      stock ← unknown_stock observed_at evidence;
      variant ← new_variant
        {| v_external_id := external_id; v_is_default := true; v_canonical_url := Some canonical_url; v_title := None;
           v_sku := reference; v_gtin := None; v_image := None; v_options := []; v_offers := [offer]; v_stock := Some stock;
           v_published_attributes :=
             dict_set "price_text" (JStr (str_strip (price_text +:+ " " +:+ currency))) (prod_map id JStr <$> attributes);
           v_platform_extensions := JDict [] |};
      snapshot ← new_snapshot
        {| sn_connector := "axner"; sn_source_id := source_id; sn_external_id := external_id; sn_canonical_url := canonical_url;
           sn_title := name; sn_observed_at := observed_at;
           sn_description := or_none (match_text document "class=`prod-detail-desc`[^>]*>(.*?)</div>");
           sn_vendor := match or_none maker with Some m => Some m | None => ax_brand options end;
           sn_categories := []; sn_images := images; sn_documents := documents; sn_variants := [variant];
           sn_source_updated_at := None; sn_published_attributes := [];
           sn_platform_extensions :=
             JDict [("raw", JDict [("details", JDict (prod_map id JStr <$> details));
                                   ("options_available", JBool (found (rx re_I "options[- ]available") document))])] |};
      Ok (Some snapshot)
  | _, _ => Ok None
  end.

(** The products and pages a listing links to.
    Source: catalogue-dump/connectors/bespoke_pages.py:256-263, AxnerConnector._discover. *)
Definition axner_visit (origin url listing : string) (seen queue products : list string) : result pyexn (list string * list string) :=
  products ← fold_result (fun products href =>
    joined ← urljoin url (unescape href); candidate ← canonical joined; host ← netloc candidate;
    Ok (if bool_decide (host = origin) && negb (bool_decide (candidate ∈ products)) then products ++ [candidate] else products))
    products (findall LISTING_LINK listing);
  queue ← fold_result (fun queue href =>
    joined ← urljoin url (unescape href); page ← canonical joined;
    Ok (if negb (bool_decide (page ∈ seen)) && negb (bool_decide (page ∈ queue)) then queue ++ [page] else queue))
    queue (findall NEXT_PAGE listing);
  Ok (products, queue).

(** The departments of the index on the shop's host.
    Source: catalogue-dump/connectors/bespoke_pages.py:224-230, AxnerConnector._discover. *)
Definition axner_departments (origin index document : string) : result pyexn (list string) :=
  urls ← map_result (fun href => joined ← urljoin index href; host ← netloc joined; Ok (joined, host))
    (fromkeys (findall (rx no_flags "href=`(/[A-Za-z0-9\-]+\.aspx)`") document));
  map_result (fun '(joined, _) => canonical joined) (filter (fun x => x.2 = origin) urls).
End markup.

Section axner.
Context {W : Type} (transport : PageTransport W) (unescape : string -> string) (repr : json -> string) (sha256 : string -> string).
Context (options : AxnerOptions) (request : CatalogueRequest).

(** Source: catalogue-dump/connectors/bespoke_pages.py, AxnerConnector._discover. *)
Definition axner_discover : collector W (failure_info + list string) :=
  let base_url := cr_base_url request in
  index ← pure_py (match or_none (default "" (ax_category_url options)) with
                   | Some url => Ok url | None => urljoin base_url "/sitemap.aspx" end);
  loaded ← try_load transport (ax_render options) index DISCOVERY;
  match loaded with
  | inl e => mret (inl (budget_code e ENUMERATION_INCOMPLETE, "Axner department index failed: " +:+ class_name e, index, true))
  | inr document =>
      origin ← pure_py (netloc base_url);
      queue ← pure_py (axner_departments origin index document);
      walk transport (ax_render options) "Axner" (ax_category_page_limit options)
        (axner_visit unescape origin) (Z.to_nat (ax_category_page_limit options)) queue [] []
  end.

Definition now : collector W Z := fun '(g, w) => (Ok (pt_clock transport w), (g, w)).

(** Source: catalogue-dump/connectors/bespoke_pages.py:282-307, AxnerConnector._products. *)
Definition axner_read (sequence index : Z) (url : string) : collector W read_result :=
  loaded ← try_load transport (ax_render options) url IDENTITY;
  match loaded with
  | inl e =>
      p ← yield_page (failure sha256 "axner" sequence index (budget_code e ENTITY_FETCH_FAILED)
                        ("Axner product failed: " +:+ class_name e) url true); mret (inl p)
  | inr document =>
      t ← now;
      parsed ← pure_py (axner_parse unescape repr sha256 options document url (cr_source_id request) t);
      match parsed with
      | Some snapshot => mret (inr snapshot)
      | None =>
          p ← yield_page (failure sha256 "axner" sequence index PARSER_UNSUPPORTED
                            "Axner product markup is unsupported or has no published price" url false); mret (inl p)
      end
  end.

(** Source: catalogue-dump/connectors/bespoke_pages.py:168-175, AxnerConnector. *)
Definition axner_capabilities : CatalogueCapabilities :=
  {| cc_common := {| cap_snapshot_fields := all_fields; cap_refresh_modes := [FULL]; cap_stock_kinds := [QUANTITY_UNKNOWN];
                     cap_incremental_cursor := false; cap_category_filter := false; cap_documents := true;
                     cap_browser := Connector.OPTIONAL; cap_shared_edge := None |};
     cc_browser_backends := [CAMOUFOX; CDP_EXTENSION_PROXY] |}.

(** Source: catalogue-dump/connectors/bespoke_pages.py, AxnerConnector.collect. *)
Definition axner_next : position -> collector W (option (CataloguePage * option position)) :=
  next_listed sha256 "axner" "Axner" axner_capabilities (ax_page_limit options) request axner_discover axner_read.
End axner.

(** * Ceramicolours *)

(** The validated options. Source: catalogue-dump/connectors/bespoke_pages.py, CeramicoloursOptions. *)
Record CeramicoloursOptions := {
  co_category_ids : list string;
  co_category_page_limit : Z;
  co_page_limit : Z;
  co_brand : option string;
  co_vat_status : string;
  co_render : option bool;
}.

(** The constraints of the fields. Source: catalogue-dump/connectors/bespoke_pages.py:77-85, CeramicoloursOptions. *)
Definition new_ceramicolours_options (o : CeramicoloursOptions) : result pyexn CeramicoloursOptions :=
  _ ← ensure (1 <=? co_category_page_limit o) (ValueError "category_page_limit is not positive");
  _ ← ensure (1 <=? co_page_limit o) (ValueError "page_limit is not positive");
  _ ← ensure (bool_decide (co_vat_status o ∈ ["inclusive"; "exclusive"; "unknown"])) (ValueError "unknown VAT status");
  Ok o.

Section ceramicolours.
Context {W : Type} (transport : PageTransport W) (unescape : string -> string) (repr : json -> string) (sha256 : string -> string).
Context (options : CeramicoloursOptions) (request : CatalogueRequest).
#[local] Abbreviation clean := (clean unescape repr).
#[local] Abbreviation match_text := (match_text unescape).
#[local] Abbreviation price_of := (price_of unescape repr).
Definition ceramicolours : string := "ceramicolours".

(** How many packs of a size can be ordered.
    Source: catalogue-dump/connectors/bespoke_pages.py, _ceramicolours_stock. *)
Definition ceramicolours_stock (document : string) (pack : json) : result pyexn (option Z) :=
  let available := x ← search (rx re_I "<input[^>]+id=[`']icaOrdinabile[`'][^>]+value=[`']([0-9.,]+)[`']") document;
                   float_of_text (str_replace_char "," "." (group_text 1 x)) in
  match available, float_of_text (str_replace_char "," "." (py_str repr pack)) with
  | Some available, Some pack_size =>
      if float_lt_zero available || float_le_zero pack_size then Ok None else
      match float_to_int (float_floordiv (float_add available (float_of_finite 1 (-9))) pack_size) with
      | Some n => Ok (Some n)
      | None => Err (ValueError "cannot convert float to integer")
      end
  | _, _ => Ok None
  end.

Definition optional_entry (key value : string) : list (string * json) := if str_isempty value then [] else [(key, JStr value)].

(** A variant of the page: one offer in euros.
    Source: catalogue-dump/connectors/bespoke_pages.py:634-666, CeramicoloursConnector._parse. *)
Definition ceramicolours_variant (url external_id : string) (is_default : bool) (title : option string) (amount : decimal)
    (stock : StockState) (choices : list (string * string)) (attributes : list (string * json)) (raw : list (string * json))
    (observed_at : Z) (evidence : Evidence) : result pyexn CommerceVariant :=
  offer ← offer_of amount "EUR" observed_at evidence (Some (co_vat_status options)) None;
  canonical_url ← canonical url;
  new_variant {| v_external_id := external_id; v_is_default := is_default; v_canonical_url := Some canonical_url;
                 v_title := title; v_sku := None; v_gtin := None; v_image := None; v_options := choices; v_offers := [offer];
                 v_stock := Some stock; v_published_attributes := attributes;
                 v_platform_extensions := JDict [("raw", JDict raw)] |}.

Definition text_or_null (s : string) : json := if str_isempty s then JNull else JStr s.

(** The variant of a pack, unless its price cannot be read.
    Source: catalogue-dump/connectors/bespoke_pages.py:627-666, CeramicoloursConnector._parse. *)
Definition pack_variant (document url code temperature : string) (observed_at : Z) (evidence : Evidence)
    (pack : list (string * json)) : result pyexn (list CommerceVariant) :=
  match (price_of (get pack "price")).1 with
  | None => Ok []
  | Some amount =>
      let identifier := clean (get pack "value") in
      let title := str_strip (clean (get pack "pack") +:+ " kg") in
      quantity ← ceramicolours_stock document (get pack "value");
      stock ← stock_of quantity observed_at evidence;
      v ← ceramicolours_variant url (if str_isempty identifier then code +:+ ":" +:+ title else identifier) false (Some title) amount
            stock [("Confezione", title)]
            (optional_entry "Temperatura" temperature
             ++ [("Confezione", JStr title); ("Prezzo unitario", JStr (clean (get pack "unit_price")));
                 ("price_text", text_or_null (clean (get pack "price")))])
            [("url", JStr url); ("code", JStr code); ("temperature", JStr temperature); ("pack", JDict pack)] observed_at evidence;
      Ok [v]
  end.

(** Source: catalogue-dump/connectors/bespoke_pages.py, CeramicoloursConnector._parse. *)
Definition ceramicolours_parse (document url : string) (packs : list (list (string * json))) (observed_at : Z)
    : result pyexn (option CommerceProductSnapshot) :=
  let heading := match_text document "<h1[^>]*>(.*?)</h1>" in
  let name := if str_isempty heading then match_text document "class=`product-name`[^>]*>(.*?)</a>" else heading in
  if str_isempty name then Ok None else
  raw_code ← query_value url "cod";
  let code := clean (JStr raw_code) in
  let temperature := match_text document "Temp\.\s*</span>\s*(.*?)</p>" in
  images ← map_result (fun value => urljoin url (unescape value))
    (findall (rx re_I "<img[^>]+src=`([^`]*upload-immagini[^`]*)`") document);
  let categories := filter (fun s => s <> "")
    (map (clean_text unescape) (findall (rx re_IS "<li[^>]*class=`breadcrumb[^`]*`[^>]*>.*?<a[^>]*>(.*?)</a>") document)) in
  evidence ← evidence_of url observed_at "ceramicolours_product";
  variants ← map_result (pack_variant document url code temperature observed_at evidence) packs;
  own_id ← (if str_isempty code then url_id sha256 url else Ok code);
  let price_text := match_text document "Prezzo:\s*</span>\s*(.*?)</p>" in
  variants ← (match concat variants with
    | [] =>
        match (price_of (JStr price_text)).1 with
        | None => Ok None
        | Some amount =>
            stock ← unknown_stock observed_at evidence;
            v ← ceramicolours_variant url own_id true None amount stock []
                  (optional_entry "Temperatura" temperature ++ [("price_text", text_or_null price_text)])
                  [("url", JStr url); ("code", JStr code); ("temperature", JStr temperature)] observed_at evidence;
            Ok (Some [v])
        end
    | variants => Ok (Some variants)
    end);
  match variants with
  | None => Ok None
  | Some variants =>
      canonical_url ← canonical url;
      categories ← map_result new_category categories;
      images ← map_result (fun value => new_media value None None) (fromkeys images);
      snapshot ← new_snapshot
        {| sn_connector := ceramicolours; sn_source_id := cr_source_id request; sn_external_id := own_id;
           sn_canonical_url := canonical_url; sn_title := name; sn_observed_at := observed_at;
           sn_description := or_none (match_text document "class=`product-description`[^>]*>(.*?)</div>");
           sn_vendor := co_brand options; sn_categories := categories; sn_images := images; sn_documents := [];
           sn_variants := variants; sn_source_updated_at := None; sn_published_attributes := [];
           sn_platform_extensions :=
             JDict [("page_parser", JStr (if bool_decide (packs = []) then "dom" else "browser"))] |};
      Ok (Some snapshot)
  end.

(** Required offers take the packs from the budget of a dataset, others only if it
    grants them. [inl ()] is the exhausted budget of a required one.
    Source: catalogue-dump/connectors/bespoke_pages.py:476-502, CeramicoloursConnector.collect. *)
Definition evaluate_packs (document url : string) : collector W (() + list (list (string * json))) :=
  if negb (str_contains "product-pack-field" document) then mret (inr []) else
  catch
    (let priority := required_detail_priority (list_to_set (cr_requested_fields request) : gset SnapshotField) {[F_OFFERS]} in
     _ ← (if bool_decide (priority = DATASET_REQUIRED) then on_budget (connector_require priority url true 0 None)
          else optional_granted ← on_budget (raising (connector_optional priority true 0 None));
               if optional_granted : bool then mret () else throw (X_Runtime "RuntimeError"));
     value ← on_world (pt_evaluate transport url);
     mret (inr (match value with JList l => omap as_dict l | _ => [] end)))
    (fun e => match e with
              | X_Budget => mret (inl ())
              | X_Runtime _ => mret (inr [])
              | _ => throw e
              end).

(** Source: catalogue-dump/connectors/bespoke_pages.py:461-513, CeramicoloursConnector.collect. *)
Definition ceramicolours_read (sequence index : Z) (url : string) : collector W read_result :=
  let failed code message retryable :=
    p ← yield_page (failure sha256 ceramicolours sequence index code message url retryable); mret (inl p) in
  loaded ← try_load transport (co_render options) url IDENTITY;
  match loaded with
  | inl e => failed (budget_code e ENTITY_FETCH_FAILED) ("Ceramicolours product failed: " +:+ class_name e) true
  | inr document =>
      packs ← evaluate_packs document url;
      match packs with
      | inl _ => failed REQUEST_BUDGET_EXHAUSTED "Ceramicolours required offer detail deferred: BudgetExhausted" true
      | inr packs =>
          t ← now transport;
          parsed ← pure_py (ceramicolours_parse document url packs t);
          match parsed with
          | Some snapshot => mret (inr snapshot)
          | None => failed PARSER_UNSUPPORTED "Ceramicolours page has no usable published price" false
          end
      end
  end.

(** The pages of one category from [page] on, until one without products; [fuel] is
    what is left of the page limit.
    Source: catalogue-dump/connectors/bespoke_pages.py:557-590, CeramicoloursConnector._discover. *)
Fixpoint category_pages (fuel : nat) (category : string) (page : Z) (products : list string)
    : collector W (failure_info + list string) :=
  match fuel with
  | O => mret (inl (ENUMERATION_INCOMPLETE,
           "Ceramicolours category page limit " +:+ pretty (co_category_page_limit options) +:+ " reached", category, false))
  | S fuel =>
      let url := category +:+ "&page=" +:+ pretty page in
      loaded ← try_load transport (co_render options) url DISCOVERY;
      match loaded with
      | inl e =>
          mret (inl (budget_code e ENUMERATION_INCOMPLETE, "Ceramicolours listing failed: " +:+ class_name e, url, true))
      | inr document =>
          hits ← pure_py (map_result (fun href => joined ← urljoin (cr_base_url request) (unescape href); canonical joined)
                    (findall (rx re_I "<a href=`(Articolo\.php\?[^`]+)`[^>]*class=`product-name`>") document));
          if bool_decide (hits = []) then mret (inr products)
          else category_pages fuel category (page + 1)
                 (foldl (fun acc value => if bool_decide (value ∈ acc) then acc else acc ++ [value]) products hits)
      end
  end.

(** Source: catalogue-dump/connectors/bespoke_pages.py:555-591, CeramicoloursConnector._discover. *)
Fixpoint all_categories (categories products : list string) : collector W (failure_info + list string) :=
  match categories with
  | [] => mret (inr products)
  | category :: categories =>
      r ← category_pages (Z.to_nat (co_category_page_limit options)) category 1 products;
      match r with inl failed => mret (inl failed) | inr products => all_categories categories products end
  end.

(** The categories the options ask for.
    Source: catalogue-dump/connectors/bespoke_pages.py:548-556, CeramicoloursConnector._discover. *)
Definition wanted_categories (home : string) : result pyexn (list string) :=
  urls ← map_result (fun href =>
    url ← urljoin (cr_base_url request) (unescape href); identifier ← query_value url "Id"; Ok (url, identifier))
    (findall (rx re_I "href=`(Articoli\.php\?[^`]+)`") home);
  Ok (fromkeys (map (fun x => re_sub (rx no_flags "&page=\d+") "" x.1)
        (filter (fun x => co_category_ids options = [] \/ x.2 ∈ co_category_ids options) urls))).

(** Source: catalogue-dump/connectors/bespoke_pages.py, CeramicoloursConnector._discover. *)
Definition ceramicolours_discover : collector W (failure_info + list string) :=
  let base_url := cr_base_url request in
  loaded ← try_load transport (co_render options) base_url DISCOVERY;
  match loaded with
  | inl e =>
      mret (inl (budget_code e ENUMERATION_INCOMPLETE, "Ceramicolours category index failed: " +:+ class_name e, base_url, true))
  | inr home => categories ← pure_py (wanted_categories home); all_categories categories []
  end.

(** Source: catalogue-dump/connectors/bespoke_pages.py:404-410, CeramicoloursConnector. *)
Definition ceramicolours_capabilities : CatalogueCapabilities :=
  {| cc_common := {| cap_snapshot_fields := all_fields; cap_refresh_modes := [FULL]; cap_stock_kinds := [EXACT; QUANTITY_UNKNOWN];
                     cap_incremental_cursor := false; cap_category_filter := false; cap_documents := false;
                     cap_browser := Connector.OPTIONAL; cap_shared_edge := None |};
     cc_browser_backends := [CAMOUFOX; CDP_EXTENSION_PROXY] |}.

(** Source: catalogue-dump/connectors/bespoke_pages.py, CeramicoloursConnector.collect. *)
Definition ceramicolours_next : position -> collector W (option (CataloguePage * option position)) :=
  next_listed sha256 ceramicolours "Ceramicolours" ceramicolours_capabilities (co_page_limit options) request
    ceramicolours_discover ceramicolours_read.
End ceramicolours.

(** * Keramik-Kraft *)

(** The validated options. Source: catalogue-dump/connectors/bespoke_pages.py, KeramikKraftOptions. *)
Record KeramikKraftOptions := {
  kk_category_paths : list string;
  kk_category_page_limit : Z;
  kk_page_limit : Z;
  kk_brand : option string;
  kk_vat_rate : option decimal;
  kk_render : option bool;
}.

(** The constraints of the fields. Source: catalogue-dump/connectors/bespoke_pages.py:88-96, KeramikKraftOptions. *)
Definition new_keramik_kraft_options (o : KeramikKraftOptions) : result pyexn KeramikKraftOptions :=
  _ ← ensure (1 <=? kk_category_page_limit o) (ValueError "category_page_limit is not positive");
  _ ← ensure (1 <=? kk_page_limit o) (ValueError "page_limit is not positive");
  _ ← ensure (opt_forall decimal_fraction (kk_vat_rate o)) (ValueError "VAT rate out of range");
  Ok o.

(** Whether a URL is a category page.
    Source: catalogue-dump/connectors/bespoke_pages.py, _kraft_category. *)
Definition kraft_category (url : string) : result pyexn bool :=
  path ← url_path url;
  Ok (str_endswith ".html" path && negb (found (rx no_flags "_[A-Za-z0-9.\-]+\.html") url)
      && negb (found (rx re_I "/(?:error_page|menu|index\d*)\.html$") path)
      && is_some (match_start (rx no_flags "^/[a-z]{2}/") path)).

(** Source: catalogue-dump/connectors/bespoke_pages.py, _kraft_variant. *)
Definition kraft_variant (product_url : string) : result pyexn string :=
  path ← url_path product_url;
  let parts := str_split "_" (removesuffix ".html" (str_rpartition "/" path).2) in
  Ok (if (length parts <? 3)%nat then ""
      else str_strip (str_join " " (filter (fun part => part <> "")
             (str_split "-" (str_join "_" (take (length parts - 2) (drop 1 parts))))))).

(** Source: catalogue-dump/connectors/bespoke_pages.py, _kraft_breadcrumb. *)
Definition kraft_breadcrumb (page_url : string) : result pyexn (list string) :=
  path ← url_path page_url;
  let '(before, slash, _) := str_rpartition "/" path in
  let is_slash c := (c =? "/")%char in
  let parts := str_split "/" (str_rstrip is_slash (str_lstrip is_slash (if slash then before else path))) in
  Ok (map (fun part => str_replace_char "-" " " (re_sub (rx no_flags "--") " - " part)) (filter (fun part => part <> "") (drop 1 parts))).

(** Source: catalogue-dump/connectors/bespoke_pages.py, _kraft_brand. *)
Definition kraft_brand (name : string) : option string :=
  head (filter (fun maker => found (rx re_I ("\b" +:+ maker +:+ "\b")) name = true)
    ["Botz"; "Mayco"; "Duncan"; "Amaco"; "Terracolor"; "Ceraline"; "Wolbring"]).

(** Source: catalogue-dump/connectors/bespoke_pages.py:728-728, KeramikKraftConnector. *)
Definition CARD : regex := rx re_IS "<div[^>]+class=`product\b[^`]*`[^>]*>(.*?)<!--\s*/product".

Section kraft.
Context {W : Type} (transport : PageTransport W) (unescape : string -> string) (repr : json -> string) (sha256 : string -> string).
Context (options : KeramikKraftOptions) (request : CatalogueRequest).
#[local] Abbreviation clean_text := (clean_text unescape).
#[local] Abbreviation price_of := (price_of unescape repr).
Definition keramik_kraft : string := "keramik_kraft".

(** What a card says: name, variant, gross and net price, price text, code.
    Source: catalogue-dump/connectors/bespoke_pages.py:847-866, KeramikKraftConnector._cards. *)
Definition card_facts (card : string) : option (string * string * Z * Z * option (Z * Z) * string * string) :=
  markup ← search (rx re_IS "<p[^>]+class=`text-sm[^`]*`[^>]*>(.*?)</p>") card;
  price ← search (rx re_I ("([0-9]{1,3}(?:[.\s][0-9]{3})*,[0-9]{2})\s*(?:&euro;|€)" +:+
    "(?:\s*<i[^>]*>\s*\(?\s*([0-9]{1,3}(?:[.\s][0-9]{3})*,[0-9]{2})\s*(?:&euro;|€)\s*HT)?")) card;
  let parts := filter (fun part => part <> "")
    (map (fun value => str_strip (str_lstrip (fun c => (c =? "=")%char || (c =? ">")%char) (clean_text value)))
       (re_split (rx no_flags "<br\s*/?>") (group_text 1 markup))) in
  let code := match_text unescape card "<p[^>]+class=`p mb-1`[^>]*>(.*?)</p>" in
  match parts, (price_of (JStr (group_text 1 price))).1 with
  | name :: variant, Some (Finite m e) =>
      let net := if str_isempty (group_text 2 price) then None
                 else match (price_of (JStr (group_text 2 price))).1 with Some (Finite n f) => Some (n, f) | _ => None end in
      Some (name, str_join " " variant, m, e, net, clean_text (whole price), code)
  | _, _ => None
  end.

(** Source: catalogue-dump/connectors/bespoke_pages.py:867-927, KeramikKraftConnector._cards. *)
Definition card_snapshot (page_url : string) (observed_at : Z) (card : string) : result pyexn (option CommerceProductSnapshot) :=
  match card_facts card with
  | None => Ok None
  | Some (name, variant_text, m, e, net, price_text, code) =>
      product_url ← (match search (rx re_I "href=`([^`]*_[A-Za-z0-9.\-]+\.html[^`]*)`") card with
                     | Some link => joined ← urljoin page_url (unescape (group_text 1 link)); canonical joined
                     | None => Ok page_url
                     end);
      variant_title ← (if str_isempty variant_text then kraft_variant product_url else Ok variant_text);
      image_url ← (match search (rx re_I "<img[^>]+src=`([^`]+)`") card with
                   | Some image => url ← urljoin page_url (unescape (group_text 1 image)); Ok (or_none url)
                   | None => Ok None
                   end);
      external_id ← (if str_isempty code then url_id sha256 product_url else Ok code);
      evidence ← evidence_of page_url observed_at "keramik_kraft_listing_card";
      let net_float := match net with Some (n, f) => Some (JFloat (float_of_finite n f)) | None => None end in
      categories ← kraft_breadcrumb page_url;
      categories ← map_result new_category categories;
      images ← (match image_url with Some url => i ← new_media url None None; Ok [i] | None => Ok [] end);
      offer ← offer_of (Finite m e) "EUR" observed_at evidence (Some "inclusive") (kk_vat_rate options);
      stock ← valid_stock {| s_availability := IN_STOCK; s_quantity := None; s_quantity_kind := QUANTITY_UNKNOWN;
                             s_observed_at := observed_at; s_evidence := [evidence] |};
      variant ← new_variant
        {| v_external_id := external_id; v_is_default := true; v_canonical_url := Some product_url;
           v_title := or_none variant_title; v_sku := or_none code; v_gtin := None; v_image := None; v_options := [];
           v_offers := [offer]; v_stock := Some stock;
           v_published_attributes := ("price_text", text_or_null price_text)
             :: match net_float with Some f => [("Netto-Preis EUR", f)] | None => [] end;
           v_platform_extensions := JDict [] |};
      snapshot ← new_snapshot
        {| sn_connector := keramik_kraft; sn_source_id := cr_source_id request; sn_external_id := external_id;
           sn_canonical_url := product_url; sn_title := name; sn_observed_at := observed_at; sn_description := None;
           sn_vendor := match kraft_brand name with Some b => Some b | None => kk_brand options end;
           sn_categories := categories; sn_images := images; sn_documents := []; sn_variants := [variant];
           sn_source_updated_at := None; sn_published_attributes := [];
           sn_platform_extensions :=
             JDict [("raw", JDict [("page", JStr page_url); ("code", JStr code); ("gross", JFloat (float_of_finite m e));
                                   ("net", default JNull net_float); ("variant", JStr variant_title)])] |};
      Ok (Some snapshot)
  end.

(** Source: catalogue-dump/connectors/bespoke_pages.py, KeramikKraftConnector._cards. *)
Definition cards (document page_url : string) (observed_at : Z) : result pyexn (list CommerceProductSnapshot) :=
  crumbs ← kraft_breadcrumb page_url;
  match map_result (card_snapshot page_url observed_at) (findall CARD document) with
  | Ok l => Ok (omap (fun s => s) l)
  | Err e => Err e
  end.

(** The category pages a listing links to.
    Source: catalogue-dump/connectors/bespoke_pages.py:829-838, KeramikKraftConnector._listing_pages. *)
Definition kraft_visit (origin url document : string) (seen queue : list string) (pages : list (string * string))
    : result pyexn (list (string * string) * list string) :=
  queue ← fold_result (fun queue href =>
    joined ← urljoin url (unescape href); candidate ← canonical joined; host ← netloc candidate; category ← kraft_category candidate;
    Ok (if bool_decide (host = origin) && category && negb (bool_decide (candidate ∈ seen))
           && negb (bool_decide (candidate ∈ queue)) then queue ++ [candidate] else queue))
    queue (findall (rx no_flags "href=`([^`]+)`") document);
  Ok (pages ++ [(url, document)], queue).

(** Source: catalogue-dump/connectors/bespoke_pages.py, KeramikKraftConnector._listing_pages. *)
Definition listing_pages (roots : list string) : collector W (failure_info + list (string * string)) :=
  origin ← pure_py (netloc (cr_base_url request));
  walk transport (kk_render options) "Keramik-Kraft" (kk_category_page_limit options) (kraft_visit origin)
    (Z.to_nat (kk_category_page_limit options)) roots [] [].

(** Before its start, or in the loop over the listing pages: [offset] cards of the
    page [start] were emitted before. *)
Inductive kraft_position :=
| KraftStart (checkpoint : option ConnectorCheckpoint)
| KraftPages (pages : list (string * string)) (start offset index sequence emitted : Z).

(** Source: catalogue-dump/connectors/bespoke_pages.py:747-752, KeramikKraftConnector.collect. *)
Definition card_offset (checkpoint : option ConnectorCheckpoint) : result pyexn Z :=
  match checkpoint with
  | Some c =>
      match k_resume_after c with
      | JDict cursor =>
          match default (JInt 0) (dict_get "card_offset" cursor) with
          | JInt offset => _ ← ensure (0 <=? offset) (ValueError "keramik_kraft checkpoint card offset is invalid"); Ok offset
          | _ => Err (ValueError "keramik_kraft checkpoint card offset is invalid")
          end
      | _ => Ok 0
      end
  | None => Ok 0
  end.

(** Source: catalogue-dump/connectors/bespoke_pages.py:764-795, KeramikKraftConnector.collect. *)
Definition next_cards (pages : list (string * string)) (start first_offset index sequence emitted : Z)
    : collector W (option (CataloguePage * option kraft_position)) :=
  let total := Z.of_nat (length pages) in
  let stop := Z.min total (kk_page_limit options) in
  if index <? stop then
    let '(url, document) := default ("", "") (pages !! Z.to_nat index) in
    t ← now transport;
    snapshots ← pure_py (cards document url t);
    let offset := if index =? start then first_offset else 0 in
    let available := drop (Z.to_nat offset) snapshots in
    let selected := match cr_result_limit request with
                    | Some limit => take (Z.to_nat (limit - emitted)) available
                    | None => available
                    end in
    let count := Z.of_nat (length selected) in
    let partial := (length selected <? length available)%nat in
    let emitted := emitted + count in
    let limited := match cr_result_limit request with
                   | Some limit => (limit <=? emitted) && (partial || (index + 1 <? total))
                   | None => false
                   end in
    let terminal := (index + 1 =? total) || limited in
    p ← yield_page (success sha256 keramik_kraft sequence index selected terminal (Z.of_nat (length snapshots))
                      (if limited then cr_result_limit request else None) url
                      (if limited && partial then (index, offset + count) else (index + 1, 0)));
    mret (Some (p, if terminal then None else Some (KraftPages pages start first_offset (index + 1) (sequence + 1) emitted)))
  else if stop <? total then
    p ← yield_page (failure sha256 keramik_kraft sequence stop ENUMERATION_INCOMPLETE
                      ("Keramik-Kraft listing page limit " +:+ pretty (kk_page_limit options) +:+ " reached")
                      (cr_base_url request) false);
    mret (Some (p, None))
  else mret None.

(** Source: catalogue-dump/connectors/bespoke_pages.py:721-727, KeramikKraftConnector. *)
Definition kraft_capabilities : CatalogueCapabilities :=
  {| cc_common := {| cap_snapshot_fields := all_fields; cap_refresh_modes := [FULL]; cap_stock_kinds := [QUANTITY_UNKNOWN];
                     cap_incremental_cursor := false; cap_category_filter := false; cap_documents := false;
                     cap_browser := Connector.OPTIONAL; cap_shared_edge := None |};
     cc_browser_backends := [CAMOUFOX; CDP_EXTENSION_PROXY] |}.

(** Source: catalogue-dump/connectors/bespoke_pages.py:743-763, KeramikKraftConnector.collect. *)
Definition kraft_next (g : kraft_position) : collector W (option (CataloguePage * option kraft_position)) :=
  match g with
  | KraftPages pages start offset index sequence emitted => next_cards pages start offset index sequence emitted
  | KraftStart checkpoint =>
      '(start, sequence) ← pure_py (validate_start keramik_kraft kraft_capabilities request checkpoint);
      offset ← pure_py (card_offset checkpoint);
      roots ← pure_py (map_result (urljoin (cr_base_url request)) (kk_category_paths options));
      r ← listing_pages (if bool_decide (roots = []) then [cr_base_url request] else roots);
      match r with
      | inl (code, message, url, retryable) =>
          p ← yield_page (failure sha256 keramik_kraft sequence start code message url retryable); mret (Some (p, None))
      | inr pages => next_cards pages start offset start sequence 0
      end
  end.
End kraft.
