(* ===== verification/BespokeResume.v ===== *)
(** Resuming the bespoke connectors: over a site that answers every request the
    same way, the generator of [BespokePages] is an enumeration the page pipeline
    can interrupt anywhere; and where its page limit breaks this. *)
From S2P Require Export BespokePages PipelineResume.
From Stdlib Require Import Ascii.
Open Scope Z_scope.

(** * Computations whose outcome does not depend on the world *)

Section determined.
Context {W : Type}.

(** Without a budget the computation always gives [r]. *)
Definition settles {A} (m : collector W A) (r : result page_exn A) : Prop :=
  forall w, exists w', m (None, w) = (r, (None, w')).

Definition determined {A} (m : collector W A) : Prop := exists r, settles m r.

Lemma settles_ret {A} (a : A) : settles (mret a) (Ok a).
Proof. intros w. by exists w. Qed.

Lemma settles_throw {A} e : settles (throw e : collector W A) (Err e).
Proof. intros w. by exists w. Qed.

Lemma settles_bind {A B} (m : collector W A) (k : A -> collector W B) a r :
  settles m (Ok a) -> settles (k a) r -> settles (m ≫= k) r.
Proof.
  intros Hm Hk w. destruct (Hm w) as [w' E]. destruct (Hk w') as [w'' E']. exists w''.
  unfold mbind, eff_bind. by rewrite E.
Qed.

Lemma settles_bind_Err {A B} (m : collector W A) (k : A -> collector W B) e :
  settles m (Err e) -> settles (m ≫= k) (Err e).
Proof. intros Hm w. destruct (Hm w) as [w' E]. exists w'. unfold mbind, eff_bind. by rewrite E. Qed.

Lemma settles_catch {A} (m : collector W A) h a : settles m (Ok a) -> settles (catch m h) (Ok a).
Proof. intros Hm w. destruct (Hm w) as [w' E]. exists w'. unfold catch. by rewrite E. Qed.

Lemma settles_catch_Err {A} (m : collector W A) h e r : settles m (Err e) -> settles (h e) r -> settles (catch m h) r.
Proof.
  intros Hm Hh w. destruct (Hm w) as [w' E]. destruct (Hh w') as [w'' E']. exists w''. unfold catch. by rewrite E.
Qed.

Lemma settles_pure {A} (r : result pyexn A) :
  settles (pure_py r) (match r with Ok a => Ok a | Err e => Err (X_Other e) end).
Proof. intros w. exists w. by destruct r. Qed.

Lemma settles_require p url browser : settles (on_budget (connector_require p url browser 0 None)) (Ok ()).
Proof. intros w. exists w. by destruct browser. Qed.

Lemma settles_unique {A} (m : collector W A) r r' (w : W) : settles m r -> (m (None, w)).1 = r' -> r = r'.
Proof. intros Hm <-. destruct (Hm w) as [w' E]. by rewrite E. Qed.

Lemma determined_bind {A B} (m : collector W A) (k : A -> collector W B) :
  determined m -> (forall a, determined (k a)) -> determined (m ≫= k).
Proof.
  intros [[a|e] Hm] Hk; [destruct (Hk a) as [r Hr]; exists r; by eapply settles_bind|].
  exists (Err e). by apply settles_bind_Err.
Qed.

Lemma determined_catch {A} (m : collector W A) h : determined m -> (forall e, determined (h e)) -> determined (catch m h).
Proof.
  intros [[a|e] Hm] Hh; [exists (Ok a); by apply settles_catch|]. destruct (Hh e) as [r Hr]. exists r.
  by eapply settles_catch_Err.
Qed.

Lemma determined_ret {A} (a : A) : determined (mret a).
Proof. exists (Ok a). apply settles_ret. Qed.
Lemma determined_throw {A} e : determined (throw e : collector W A).
Proof. exists (Err e). apply settles_throw. Qed.
Lemma determined_pure {A} (r : result pyexn A) : determined (pure_py r).
Proof. eexists. apply settles_pure. Qed.
Lemma determined_require p url browser : determined (on_budget (connector_require p url browser 0 None)).
Proof. eexists. apply settles_require. Qed.
End determined.

Create HintDb site.
#[export] Hint Resolve determined_ret determined_throw determined_pure determined_require : site.

(** * A site that does not change *)

Section site.
Context {W : Type} (transport : PageTransport W) (site : string -> string).

(** Every request is answered, and by the same document. *)
Definition unchanged_site : Prop :=
  forall url rendered w, exists w', pt_document transport url rendered w = (Ok (site url), w').

Context (unchanged : unchanged_site).

Lemma settles_document url rendered : settles (on_world (pt_document transport url rendered)) (Ok (site url)).
Proof. intros w. destruct (unchanged url rendered w) as [w' E]. exists w'. unfold on_world. by rewrite E. Qed.

Lemma settles_try_load render url priority : settles (try_load transport render url priority) (Ok (inr (site url))).
Proof.
  apply settles_catch. eapply settles_bind; [|apply settles_ret]. apply settles_catch.
  eapply settles_bind; [apply settles_require|apply settles_document].
Qed.

Lemma determined_try_load render url priority : determined (try_load transport render url priority).
Proof. eexists. apply settles_try_load. Qed.
#[local] Hint Resolve determined_try_load : site.

Lemma determined_walk {A} render label limit visit fuel : forall queue seen (acc : A),
  determined (walk transport render label limit visit fuel queue seen acc).
Proof.
  induction fuel as [|fuel IH]; intros queue seen acc; cbn [walk]; destruct (drop_seen seen queue) as [|url rest]; eauto with site.
  apply determined_bind; [eauto with site|]. intros [e|document]; [eauto with site|].
  apply determined_bind; [eauto with site|]. intros [acc' queue']. apply IH.
Qed.
#[local] Hint Resolve determined_walk : site.

Lemma determined_axner_discover unescape options request : determined (axner_discover transport unescape options request).
Proof.
  unfold axner_discover. apply determined_bind; [eauto with site|]. intros index.
  apply determined_bind; [eauto with site|]. intros [e|document]; [eauto with site|].
  apply determined_bind; [eauto with site|]. intros origin.
  apply determined_bind; [eauto with site|]. intros queue. apply determined_walk.
Qed.

Lemma axner_reads unescape repr sha256 options request sequence index url w :
  (forall t, exists s, axner_parse unescape repr sha256 options (site url) url (cr_source_id request) t = Ok (Some s)) ->
  exists s w', axner_read transport unescape repr sha256 options request sequence index url (None, w) = (Ok (inr s), (None, w')).
Proof.
  intros Hp. destruct (settles_try_load (ax_render options) url IDENTITY w) as [w' E]. destruct (Hp (pt_clock transport w')) as [s Hs].
  exists s, w'. unfold axner_read, mbind, eff_bind. rewrite E. cbn. rewrite Hs. done.
Qed.
End site.

(** * The generator over a list of products is an enumeration *)

Section listed.
Context {W : Type} (sha256 : string -> string) (name label : string) (capabilities : CatalogueCapabilities) (page_limit : Z).
Context (request : CatalogueRequest) (discover : collector W (failure_info + list string)).
Context (read : Z -> Z -> string -> collector W read_result) (urls : list string) (job lineage : Z).
Hypothesis supported : validate_start name capabilities request None = Ok (0, 0).
Hypothesis unlimited : cr_result_limit request = None.
Hypothesis discovered : settles discover (Ok (inr urls)).
Hypothesis all_read : forall sequence index url w, url ∈ urls ->
  exists s w', read sequence index url (None, w) = (Ok (inr s), (None, w')).
Hypothesis within_limit : Z.of_nat (length urls) <= page_limit.

#[local] Abbreviation row := (entity_row job lineage "1").
#[local] Abbreviation next := (next_listed sha256 name label capabilities page_limit request discover read).
#[local] Abbreviation total := (Z.of_nat (length urls)).

(** The page of a product, or the empty page of a shop without products. *)
Definition product_page (items : list CommerceProductSnapshot) (url : string) (i : Z) : CataloguePage :=
  success sha256 name i i items (bool_decide (total <= i + 1)) (Z.of_nat (length items)) None url (i + 1, 0).

Definition listed_rows : list PageRow :=
  map (fun i => row (product_page [] "" (Z.of_nat i))) (seq 0 (Nat.max 1 (length urls))).

(** The checkpoint the pipeline hands to the connector. *)
Definition checkpoint_at (cursor : option json) (k : option ConnectorCheckpoint) : Prop :=
  match cursor, k with
  | None, None => True
  | Some c, Some k => k_connector k = name /\ k_connector_version k = "1" /\ k_source_id k = cr_source_id request
                      /\ k_resume_after k = c
  | _, _ => False
  end.

(** The pages of a whole collection from a cursor. *)
Definition listed_collects (cursor : option json) (ps : list CataloguePage) : Prop :=
  exists k fuel w s', checkpoint_at cursor k /\ drain next fuel (AtStart k) (None, w) = (Ok (ps, true), s').

Lemma stop_is_total start : stop_index page_limit request urls start = total.
Proof. unfold stop_index. rewrite unlimited. lia. Qed.

Lemma product_row items url i : row (product_page items url i) = row (product_page [] "" i).
Proof. done. Qed.

Lemma product_page_valid items url i : 0 <= i -> catalogue_page (product_page items url i) = Ok (product_page items url i).
Proof.
  intros Hi. unfold catalogue_page. simpl.
  assert (str_isempty (page_id_of sha256 name i i) = false) as ->.
  { unfold page_id_of. rewrite str_isempty_app. simpl. by rewrite andb_false_r. }
  cbn -[Z.leb Z.of_nat]. rewrite !(proj2 (Z.leb_le _ _)) by lia. by destruct (bool_decide _).
Qed.

(** A round of the loop yields the page of the next product. *)
Lemma product_round start i w : 0 <= i < total ->
  exists s url w', next_product sha256 name label page_limit request read urls start i i (None, w)
  = (Ok (Some (product_page [s] url i, if bool_decide (total <= i + 1) then None else Some (AtUrls urls start (i + 1) (i + 1)))),
     (None, w')).
Proof.
  intros Hi. unfold next_product. rewrite stop_is_total, unlimited. replace (i <? total) with true by lia.
  destruct (lookup_lt_is_Some_2 urls (Z.to_nat i)) as [url Hu]; [lia|]. rewrite Hu. simpl.
  destruct (all_read i i url w) as (s & w' & E); [by apply list_elem_of_lookup_2 in Hu|].
  exists s, url, w'. unfold mbind, eff_bind. rewrite E. rewrite orb_false_r.
  replace (i + 1 =? total) with (bool_decide (total <= i + 1)) by (case_bool_decide; [symmetry; apply Z.eqb_eq; lia|symmetry; apply Z.eqb_neq; lia]).
  change (success sha256 name i i [s] _ 1 _ url (i + 1, 0)) with (product_page [s] url i).
  unfold yield_page, pure_py. rewrite product_page_valid by lia. done.
Qed.

Lemma listed_from fuel : forall start i w ps s',
  0 <= i < total ->
  drain next fuel (AtUrls urls start i i) (None, w) = (Ok (ps, true), s') ->
  map row ps = map (fun i => row (product_page [] "" (Z.of_nat i))) (seq (Z.to_nat i) (length urls - Z.to_nat i)).
Proof.
  induction fuel as [|fuel IH]; intros start i w ps s' Hi H; [done|]. cbn [drain next_listed] in H.
  unfold mbind at 1, eff_bind at 1 in H. destruct (product_round start i w Hi) as (s & url & w' & E). rewrite E in H.
  replace (length urls - Z.to_nat i)%nat with (S (length urls - S (Z.to_nat i))) by lia. cbn [seq map].
  rewrite <- (product_row [s] url). rewrite Z2Nat.id by lia. case_bool_decide as Hlast.
  - unfold mret, eff_ret in H. simplify_eq. replace (length urls - S (Z.to_nat i))%nat with 0%nat by lia. done.
  - unfold mbind, eff_bind in H. destruct (drain next fuel _ _) as [[[qs ended]|e] s1] eqn:Ed; [|done].
    unfold mret, eff_ret in H. simplify_eq. apply IH in Ed; [|lia]. cbn [map]. rewrite Ed.
    by replace (Z.to_nat (i + 1)) with (S (Z.to_nat i)) by lia.
Qed.

Lemma next_start k i w : validate_start name capabilities request k = Ok (i, i) ->
  exists w', next (AtStart k) (None, w)
  = (if i =? total
     then p ← yield_page (success sha256 name i i [] true 0 None "unknown" (i + 1, 0)); mret (Some (p, None))
     else next_product sha256 name label page_limit request read urls i i i) (None, w').
Proof.
  intros Hv. destruct (discovered w) as [w' E]. exists w'. cbn [next_listed]. unfold mbind at 1, eff_bind at 1, pure_py.
  rewrite Hv. unfold mbind at 1, eff_bind at 1. rewrite E. by rewrite stop_is_total.
Qed.

(** From a start on, whatever checkpoint led there. *)
Lemma listed_start fuel k i w ps s' :
  validate_start name capabilities request k = Ok (i, i) -> 0 <= i -> (i < total \/ i = 0) ->
  drain next fuel (AtStart k) (None, w) = (Ok (ps, true), s') ->
  map row ps = drop (Z.to_nat i) listed_rows.
Proof.
  intros Hv Hi Ht H. unfold listed_rows. rewrite <- fmap_drop, drop_seq. destruct fuel as [|fuel]; [done|].
  destruct (next_start k i w Hv) as [w1 E]. cbn [drain] in H. unfold mbind at 1, eff_bind at 1 in H. rewrite E in H.
  destruct (decide (i = total)) as [Hz|Hz].
  - assert (i = 0) as -> by lia. rewrite <- Hz in H. cbn [Z.eqb] in H. unfold mbind, eff_bind, yield_page, pure_py in H.
    assert (product_page [] "unknown" 0 = success sha256 name 0 0 [] true 0 None "unknown" (0 + 1, 0)) as Ep
      by (unfold product_page; by rewrite bool_decide_eq_true_2 by lia).
    rewrite <- Ep, product_page_valid in H by lia. unfold mret, eff_ret in H. simplify_eq.
    replace (Nat.max 1 (length urls) - Z.to_nat 0)%nat with 1%nat by lia. done.
  - replace (i =? total) with false in H by (symmetry; by apply Z.eqb_neq).
    replace (Nat.max 1 (length urls) - Z.to_nat i)%nat with (length urls - Z.to_nat i)%nat by lia.
    apply (listed_from (S fuel) i i w1 ps s'); [lia|exact H].
Qed.

Lemma digits_no_dash s : str_forall is_digit s = true -> str_has "-" s = false.
Proof. intros H. by apply (str_forall_has _ _ _ H). Qed.

Lemma page_id_inj i j : 0 <= i -> 0 <= j -> page_id_of sha256 name i i = page_id_of sha256 name j j -> i = j.
Proof.
  intros Hi Hj E.
  assert (forall i, exists h, page_id_of sha256 name i i = name +:+ String "-" (pretty i +:+ String "-" h)) as Hid by (intros; by eexists).
  destruct (Hid i) as [h Ei], (Hid j) as [h' Ej]. rewrite Ei, Ej in E. apply (inj (String.append name)) in E.
  apply (f_equal (fun s => str_partition "-" (str_drop 1 s))) in E. cbn [str_drop] in E.
  rewrite !str_partition_app in E by (by apply digits_no_dash, pretty_digits). injection E as E _. by apply (inj pretty).
Qed.

Lemma validate_cursor k i :
  k_connector k = name -> k_connector_version k = "1" -> k_source_id k = cr_source_id request -> 0 <= i ->
  k_resume_after k = page_cursor i i 0 -> validate_start name capabilities request (Some k) = Ok (i, i).
Proof.
  intros E1 E2 E3 Hi E4. unfold validate_start in *. do 2 (step_in supported). rewrite E, E0. simpl.
  rewrite E1, E2, E3, !bool_decide_eq_true_2 by done. rewrite E4. unfold page_cursor. simpl.
  by rewrite !(proj2 (Z.leb_le _ _)) by lia.
Qed.

Lemma listed_rows_lookup i r : listed_rows !! i = Some r -> (i < Nat.max 1 (length urls))%nat /\ r = row (product_page [] "" (Z.of_nat i)).
Proof.
  unfold listed_rows. rewrite list_lookup_fmap. intros (j & Hj & ->)%fmap_Some. apply lookup_seq in Hj as [-> Hj]. done.
Qed.

Lemma listed_enumeration : enumeration job lineage "1" ["main"] listed_collects listed_rows.
Proof.
  assert (length listed_rows = Nat.max 1 (length urls)) as Hlen by (unfold listed_rows; by rewrite length_map, length_seq).
  split.
  - intros ps (k & fuel & w & s' & Hk & H). destruct k as [k|]; [done|]. by apply (listed_start fuel None 0 w ps s') in H; [|done|lia|lia].
  - intros i r c ps Hr Hc (k & fuel & w & s' & Hk & H). apply listed_rows_lookup in Hr as [Hi ->].
    simpl in Hc. case_bool_decide as Hlast; simpl in Hc; [done|]. simplify_eq. destruct k as [k|]; [|done].
    destruct Hk as (E1 & E2 & E3 & E4). replace (S i) with (Z.to_nat (Z.of_nat i + 1)) by lia.
    apply (listed_start fuel (Some k) (Z.of_nat i + 1) w ps s'); [apply validate_cursor; auto; lia|lia|lia|done].
  - intros i r Hr Hc. apply listed_rows_lookup in Hr as [Hi ->]. rewrite Hlen. simpl in Hc.
    case_bool_decide; [lia|done].
  - intros r Hr. rewrite last_lookup in Hr. apply listed_rows_lookup in Hr as [Hi ->]. rewrite Hlen in *. simpl.
    rewrite !bool_decide_eq_true_2 by lia. done.
  - unfold listed_rows. rewrite map_map. apply NoDup_fmap_2_strong, NoDup_seq. intros i j _ _ E.
    injection E as E. apply page_id_inj in E; lia.
  - unfold listed_rows. generalize 0%nat as o, (Nat.max 1 (length urls)) as n. intros o n. revert o.
    induction n as [|n IH]; intros o; [constructor|]. cbn [seq map]. constructor; [apply IH|].
    apply Forall_map, Forall_forall. intros j [Hj _]%elem_of_seq. unfold rank_le. cbn -[partition_order Z.of_nat].
    rewrite (bool_decide_eq_true_2 (partition_order _ _ = _)) by done. rewrite bool_decide_eq_false_2 by lia. apply Z.ltb_ge. lia.
Qed.

(** The generator ends, after at most as many pages as there are products. *)
Lemma listed_ends fuel : forall start i w, 0 <= i < total -> total - i < Z.of_nat fuel ->
  exists ps s', drain next fuel (AtUrls urls start i i) (None, w) = (Ok (ps, true), s').
Proof.
  induction fuel as [|fuel IH]; intros start i w Hi Hf; [lia|]. cbn [drain next_listed].
  unfold mbind at 1, eff_bind at 1. destruct (product_round start i w Hi) as (s & url & w' & ->).
  case_bool_decide; [by eexists _, _|]. destruct (IH start (i + 1) w' ltac:(lia) ltac:(lia)) as (ps & s' & E).
  eexists _, _. unfold mbind, eff_bind. by rewrite E.
Qed.

Lemma listed_start_ends k i w : validate_start name capabilities request k = Ok (i, i) -> 0 <= i -> i < total \/ i = 0 ->
  exists ps s', drain next (2 + length urls) (AtStart k) (None, w) = (Ok (ps, true), s').
Proof.
  intros Hv Hi Ht. destruct (next_start k i w Hv) as [w' E]. cbn [Nat.add drain]. unfold mbind at 1, eff_bind at 1. rewrite E.
  destruct (decide (i = total)) as [Hz|Hz].
  - assert (i = 0) as -> by lia. rewrite <- Hz. cbn [Z.eqb]. unfold mbind, eff_bind, yield_page, pure_py.
    assert (product_page [] "unknown" 0 = success sha256 name 0 0 [] true 0 None "unknown" (0 + 1, 0)) as Ep
      by (unfold product_page; by rewrite bool_decide_eq_true_2 by lia).
    rewrite <- Ep, product_page_valid by lia. by eexists _, _.
  - replace (i =? total) with false by (symmetry; by apply Z.eqb_neq).
    destruct (listed_ends (2 + length urls) i i w' ltac:(lia) ltac:(lia)) as (ps & s' & E'). exists ps, s'.
    exact E'.
Qed.

(** From the start and from the cursor of every page there is a whole collection. *)
Lemma listed_collects_total cursor :
  (cursor = None \/ exists r, r ∈ listed_rows /\ cursor = pg_resume_after r) -> inhabited W ->
  exists ps, listed_collects cursor ps.
Proof.
  intros Hc [w].
  assert (exists k i, checkpoint_at cursor k /\ validate_start name capabilities request k = Ok (i, i) /\ 0 <= i /\ (i < total \/ i = 0))
    as (k & i & Hk & Hv & Hi & Ht).
  { assert (cursor = None \/ exists i, 0 <= i < total /\ cursor = Some (page_cursor i i 0)) as [->|(i & Hi & ->)].
    { destruct Hc as [?|(r & [i Hr]%list_elem_of_lookup & ->)]; [by left|]. apply listed_rows_lookup in Hr as [Hr ->]. simpl.
      case_bool_decide; [by left|right]. exists (Z.of_nat i + 1). split; [lia|done]. }
    - exists None, 0. split_and!; [done|done|lia|by right].
    - exists (Some {| k_connector := name; k_connector_version := "1"; k_source_id := cr_source_id request; k_lineage := "";
                      k_fingerprint := ""; k_resume_after := page_cursor i i 0 |}), i.
      split_and!; [done..|apply validate_cursor; auto; lia|lia|lia]. }
  destruct (listed_start_ends k i w Hv Hi Ht) as (ps & s' & E). by exists ps, k, (2 + length urls)%nat, w, s'.
Qed.
End listed.

(** * Axner over an unchanged site *)

Section axner.
Context {W : Type} (transport : PageTransport W) (unescape : string -> string) (repr : json -> string) (sha256 : string -> string).
Context (options : AxnerOptions) (request : CatalogueRequest).

(** The pages of a whole collection from a cursor. *)
Definition axner_collects (cursor : option json) (ps : list CataloguePage) : Prop :=
  exists k fuel w s', checkpoint_at "axner" request cursor k
  /\ drain (axner_next transport unescape repr sha256 options request) fuel (AtStart k) (None, w) = (Ok (ps, true), s').

(** C6. For a request the connector accepts, without a result limit and collected without a request budget, over a
    site that answers every request with the same documents, whose products can be
    read and number no more than the page limit: what the Axner connector yields from
    its start and from the cursor of any page it yielded is one enumeration, the same
    rows in the same order, each cursor continuing after its page, whatever the clock
    says; and such a collection always comes to its end. So a pipeline that collects
    so may be cut anywhere and resumed. (A result limit ends a collection early, with
    a cursor; the pages before and after it are not those of one run.) *)
Theorem axner_is_an_enumeration (site : string -> string) (urls : list string) (job lineage : Z) (w0 : W) :
  unchanged_site transport site ->
  validate_start "axner" axner_capabilities request None = Ok (0, 0) -> cr_result_limit request = None ->
  (axner_discover transport unescape options request (None, w0)).1 = Ok (inr urls) ->
  (forall url t, url ∈ urls -> exists s, axner_parse unescape repr sha256 options (site url) url (cr_source_id request) t = Ok (Some s)) ->
  Z.of_nat (length urls) <= ax_page_limit options ->
  let rows := listed_rows sha256 "axner" urls job lineage in
  enumeration job lineage "1" ["main"] axner_collects rows
  /\ forall cursor, (cursor = None \/ exists r, r ∈ rows /\ cursor = pg_resume_after r) -> exists ps, axner_collects cursor ps.
Proof.
  intros Hs Hv Hl Hd Hp Hn rows.
  assert (settles (axner_discover transport unescape options request) (Ok (inr urls))) as Hdisc.
  { destruct (determined_axner_discover transport site Hs unescape options request) as [r Hr].
    by rewrite (settles_unique _ _ _ _ Hr Hd) in Hr. }
  assert (forall sequence index url w, url ∈ urls -> exists s w',
    axner_read transport unescape repr sha256 options request sequence index url (None, w) = (Ok (inr s), (None, w'))) as Hread
    by (intros; apply (axner_reads transport site Hs); auto).
  split; [by apply listed_enumeration|]. intros cursor Hc. by apply (listed_collects_total sha256 "axner" "Axner" axner_capabilities
    (ax_page_limit options) request _ _ urls job lineage Hv Hl Hdisc Hread Hn cursor Hc (inhabits w0)).
Qed.
End axner.

(** * Where the page limit is forgotten *)

(** A collection that stopped at the page limit and is resumed there yields an
    intact terminal page, although products remain: the incompleteness is lost. *)
Lemma page_limit_masked_on_resume {W} sha256 name label capabilities page_limit request
    (discover : collector W (failure_info + list string)) read urls k sequence w :
  settles discover (Ok (inr urls)) -> cr_result_limit request = None -> 0 <= sequence ->
  validate_start name capabilities request (Some k) = Ok (page_limit, sequence) -> page_limit < Z.of_nat (length urls) ->
  exists p w', next_listed sha256 name label capabilities page_limit request discover read (AtStart (Some k)) (None, w)
    = (Ok (Some (p, None)), (None, w'))
  /\ p_items p = [] /\ p_terminal p = true /\ p_enumeration_intact p = true /\ p_resume_after p = None.
Proof.
  intros Hd Hl Hs Hv Hn. destruct (Hd w) as [w' E].
  exists (success sha256 name sequence page_limit [] true 0 None "unknown" (page_limit + 1, 0)), w'. split; [|done].
  cbn [next_listed]. unfold mbind, eff_bind, pure_py. rewrite Hv, E. unfold stop_index. rewrite Hl, Z.min_r, Z.eqb_refl by lia.
  unfold yield_page, pure_py, catalogue_page. cbn -[Z.leb Z.of_nat page_id_of].
  assert (str_isempty (page_id_of sha256 name sequence page_limit) = false) as ->
    by (unfold page_id_of; rewrite str_isempty_app; simpl; by rewrite andb_false_r).
  by rewrite (proj2 (Z.leb_le 0 sequence) Hs).
Qed.

(** * A shop *)

Module AxnerDemo.
Definition unescape (s : string) : string := s.
Definition repr (v : json) : string := "".
Definition sha256 (s : string) : string := str_rev s.

Definition product (title price : string) : string :=
  quoted ("<h1>" +:+ title +:+ "</h1><span class=`product-list-cost-value`> $ " +:+ price +:+ "</span>"
          +:+ "<span class=`prod-detail-part-label`>Axner Number:</span> <span class=`prod-detail-part-value`>N-" +:+ title +:+ "</span>").
Definition site (url : string) : string :=
  if bool_decide (url = "http://shop/sitemap.aspx") then quoted "<a href=`/glazes.aspx`>Glazes</a>"
  else if bool_decide (url = "http://shop/glazes.aspx")
  then quoted "<div class=`product-list-link`><a href=`/red.aspx`>Red</a></div><a href=`/glazes.aspx?page=2`>2</a>"
  else if bool_decide (url = "http://shop/glazes.aspx?page=2")
  then quoted "<div class=`product-list-link`><a href=`/blue.aspx`>Blue</a></div><a href=`/glazes.aspx?page=2`>2</a>"
  else if bool_decide (url = "http://shop/red.aspx") then product "Red" "4.50" else product "Blue" "1,200.00".
Definition urls : list string := ["http://shop/red.aspx"; "http://shop/blue.aspx"].

(** The world is a clock that every request moves. *)
Definition transport : PageTransport Z :=
  {| pt_document := fun url _ t => (Ok (site url), t + 1); pt_evaluate := fun _ t => (Ok JNull, t + 1); pt_clock := fun t => t |}.
Definition options : AxnerOptions :=
  {| ax_category_url := None; ax_category_page_limit := 5; ax_page_limit := 10; ax_brand := None; ax_currency := "USD";
     ax_vat_status := None; ax_vat_rate := None; ax_render := None |}.
Definition request : CatalogueRequest :=
  {| cr_source_id := "axner-us"; cr_base_url := "http://shop"; cr_refresh_mode := FULL; cr_requested_fields := [F_IDENTITY; F_OFFERS];
     cr_result_limit := None; cr_categories := []; cr_collections := []; cr_request_budget := None |}.
Definition collection : result page_exn (list CataloguePage * bool) :=
  (drain (axner_next transport unescape repr sha256 options request) 4 (AtStart None) (None, 0)).1.
End AxnerDemo.

Lemma axner_is_an_enumeration_witness :
  enumeration 1 7 "1" ["main"]
    (axner_collects AxnerDemo.transport AxnerDemo.unescape AxnerDemo.repr AxnerDemo.sha256 AxnerDemo.options AxnerDemo.request)
    (listed_rows AxnerDemo.sha256 "axner" AxnerDemo.urls 1 7)
  /\ match AxnerDemo.collection with
     | Ok (ps, true) => map (fun p => map (fun s => (sn_external_id s, map (fun v => o_price <$> v_offers v) (sn_variants s))) (p_items p)) ps
                        = [[("N-Red", [[{| m_amount := Finite 450 (-2); m_currency := "USD" |}]])];
                           [("N-Blue", [[{| m_amount := Finite 120000 (-2); m_currency := "USD" |}]])]]
     | _ => False
     end.
Proof.
  split; [|by vm_compute].
  apply (axner_is_an_enumeration AxnerDemo.transport AxnerDemo.unescape AxnerDemo.repr AxnerDemo.sha256 AxnerDemo.options
    AxnerDemo.request AxnerDemo.site AxnerDemo.urls 1 7 0).
  - intros url rendered w. by exists (w + 1).
  - by vm_compute.
  - reflexivity.
  - by vm_compute.
  - intros url t [->|[->|[]%elem_of_nil]%elem_of_cons]%elem_of_cons; eexists; vm_compute; reflexivity.
  - by vm_compute.
Defined.
