(* ===== verification/JobTables.v ===== *)
(** The operational database of the catalogue collector: the rows of the tables
    that [catalogue-dump/.../ops/] reads and writes, the database as one state,
    and guarded updates ([update ... where ... returning]) over it. A
    transaction is atomic: it either commits the state it leaves or, when it
    raises, restores the one it began with. *)
From S2P Require Export Effects Json.

(** * Jobs *)

(** The states the [jobs.state] column admits. *)
Inductive JobState :=
| queued | leased | running | paused | succeeded | degraded | failed | cancelled | skipped.
#[export] Instance JobState_eq_dec : EqDecision JobState.
Proof. solve_decision. Defined.

(** Source: catalogue-dump/ops/queue.py:30-30, TERMINAL. *)
Definition TERMINAL : list JobState := [succeeded; degraded; failed; cancelled; skipped].
Definition terminal (s : JobState) : bool := bool_decide (s ∈ TERMINAL).

(** The states a lease belongs to: [state in ('leased','running')]. *)
Definition executing (s : JobState) : bool := bool_decide (s = leased) || bool_decide (s = running).
(** [state in ('queued','leased','running')] *)
Definition deliverable (s : JobState) : bool := bool_decide (s = queued) || executing s.

Definition state_name (s : JobState) : string :=
  match s with
  | queued => "queued" | leased => "leased" | running => "running" | paused => "paused"
  | succeeded => "succeeded" | degraded => "degraded" | failed => "failed"
  | cancelled => "cancelled" | skipped => "skipped"
  end.

(** The entries of a job's summary document that the store reads. *)
Record JobSummary := {
  sm_discovered : option Z; sm_records : option Z; sm_requests : option Z;
  sm_rendered_pages : option Z; sm_error_count : option Z;
  sm_truncated : option bool; sm_interrupted : option bool; sm_write_status : option string;
}.
#[export] Instance eta_JobSummary : Eta JobSummary := fun x =>
  {| sm_discovered := sm_discovered x; sm_records := sm_records x; sm_requests := sm_requests x;
     sm_rendered_pages := sm_rendered_pages x; sm_error_count := sm_error_count x; sm_truncated := sm_truncated x;
     sm_interrupted := sm_interrupted x; sm_write_status := sm_write_status x |}.
Definition no_summary : JobSummary :=
  {| sm_discovered := None; sm_records := None; sm_requests := None; sm_rendered_pages := None;
     sm_error_count := None; sm_truncated := None; sm_interrupted := None; sm_write_status := None |}.

Record Artifact := { art_path : string; art_sha256 : option string; art_size : option Z }.

(** The proxy decision frozen into a job when it is created. Source:
    catalogue-dump/ops/runs.py:154-170, create_jobs. *)
Record ProxySnapshot := {
  px_policy : string; px_policy_revision : Z; px_route_id : Z; px_profile_id : Z;
  px_provider : string; px_profile : string; px_secret_generation : Z; px_protocol : string;
  px_country : option string; px_state : option string; px_city : option string;
  px_session_mode : string; px_session_minutes : Z; px_max_bytes : Z; px_pilot : bool;
}.

(** A row of [catalogue.jobs]; the row's id is its key in the table. Source:
    catalogue-dump/storage/schema/catalogue-schema.sql:1134-1167, catalogue.jobs. *)
Record JobRow := {
  j_run_id : Z;
  j_source_id : string;
  j_host : string;
  j_state : JobState;
  j_priority : Z;
  j_attempt : Z;
  j_max_attempts : Z;
  j_requires : list string;
  j_requires_any : list string;
  j_scheduled_for : Z;
  j_lease_owner : option Z;
  j_lease_expires_at : option Z;
  j_cancel_requested : bool;
  j_pause_requested : bool;
  j_resume_without_attempt : bool;
  j_started_at : option Z;
  j_finished_at : option Z;
  j_error : option string;
  j_trace_id : option string;
  j_artifact_path : option string;
  j_artifact_sha256 : option string;
  j_artifact_size : option Z;
  j_summary : option JobSummary;
  j_proxy_snapshot : option ProxySnapshot;
  j_selected_browser_backend : option string;
  j_delivery_generation : Z;
  j_execution_token : option Z;
  j_paused_by_source : bool;
}.
#[export] Instance eta_JobRow : Eta JobRow := fun j =>
  {| j_run_id := j_run_id j; j_source_id := j_source_id j; j_host := j_host j; j_state := j_state j;
     j_priority := j_priority j; j_attempt := j_attempt j; j_max_attempts := j_max_attempts j;
     j_requires := j_requires j; j_requires_any := j_requires_any j; j_scheduled_for := j_scheduled_for j;
     j_lease_owner := j_lease_owner j; j_lease_expires_at := j_lease_expires_at j;
     j_cancel_requested := j_cancel_requested j; j_pause_requested := j_pause_requested j;
     j_resume_without_attempt := j_resume_without_attempt j; j_started_at := j_started_at j;
     j_finished_at := j_finished_at j; j_error := j_error j; j_trace_id := j_trace_id j;
     j_artifact_path := j_artifact_path j; j_artifact_sha256 := j_artifact_sha256 j;
     j_artifact_size := j_artifact_size j; j_summary := j_summary j; j_proxy_snapshot := j_proxy_snapshot j;
     j_selected_browser_backend := j_selected_browser_backend j;
     j_delivery_generation := j_delivery_generation j; j_execution_token := j_execution_token j;
     j_paused_by_source := j_paused_by_source j |}.

(** Give a lease's columns up: [lease_owner = null, lease_expires_at = null, execution_token =
    null]. Source: catalogue-dump/ops/queue.py:332-332, reconcile. *)
Definition without_lease (j : JobRow) : JobRow :=
  j <| j_lease_owner := None |> <| j_lease_expires_at := None |> <| j_execution_token := None |>.

(** * Runs *)

(** The values the [runs.status] column admits. *)
Inductive RunStatus := run_queued | run_running | run_complete | run_degraded | run_failed | run_cancelled.
#[export] Instance RunStatus_eq_dec : EqDecision RunStatus.
Proof. solve_decision. Defined.
Definition status_name (s : RunStatus) : string :=
  match s with
  | run_queued => "queued" | run_running => "running" | run_complete => "complete"
  | run_degraded => "degraded" | run_failed => "failed" | run_cancelled => "cancelled"
  end.

(** The counts a finished run records. Source: catalogue-dump/ops/runs.py:391-406, _close_run_if_done. *)
Record Tally := {
  t_succeeded : Z; t_degraded : Z; t_failed : Z; t_cancelled : Z; t_skipped : Z;
  t_records : Z; t_requests : Z;
}.

(** Source: catalogue-dump/storage/schema/catalogue-schema.sql:1788-1802, catalogue.runs. *)
Record RunRow := {
  r_kind : string; r_schedule_id : option string; r_scheduled_fire_at : option Z;
  r_requested_by : option string; r_params : list (string * json); r_status : RunStatus;
  r_started_at : option Z; r_finished_at : option Z; r_summary : option Tally;
}.
#[export] Instance eta_RunRow : Eta RunRow := fun r =>
  {| r_kind := r_kind r; r_schedule_id := r_schedule_id r; r_scheduled_fire_at := r_scheduled_fire_at r;
     r_requested_by := r_requested_by r; r_params := r_params r; r_status := r_status r;
     r_started_at := r_started_at r; r_finished_at := r_finished_at r; r_summary := r_summary r |}.

(** * Deliveries *)

(** Source: catalogue-dump/ops/delivery.py:22-30, JobEnvelope. *)
Record JobEnvelope := {
  e_job_id : Z; e_run_id : Z; e_source_id : string; e_generation : Z; e_route : string;
  e_priority : Z; e_enqueued_at : Z;
}.

(** A row of [catalogue.queue_outbox]. Its [deduplication_key] is the pair of its job and
    generation. Source: catalogue-dump/storage/schema/catalogue-schema.sql:1713-1733,
    catalogue.queue_outbox. *)
Record OutboxRow := {
  o_job_id : Z; o_generation : Z; o_route : string; o_payload : JobEnvelope; o_available_at : Z;
  o_published_at : option Z; o_cancelled_at : option Z; o_publish_attempts : Z; o_last_error : option string;
}.
#[export] Instance eta_OutboxRow : Eta OutboxRow := fun o =>
  {| o_job_id := o_job_id o; o_generation := o_generation o; o_route := o_route o; o_payload := o_payload o;
     o_available_at := o_available_at o; o_published_at := o_published_at o; o_cancelled_at := o_cancelled_at o;
     o_publish_attempts := o_publish_attempts o; o_last_error := o_last_error o |}.

(** * The other tables *)

(** A row of [catalogue.host_leases]; its key is the host and the slot. Source:
    catalogue-dump/storage/schema/catalogue-schema.sql:862-870, catalogue.host_leases. *)
Record HostLease := {
  h_job_id : option Z; h_leased_by : option Z; h_leased_until : option Z; h_execution_token : option Z;
}.
Definition free_slot : HostLease :=
  {| h_job_id := None; h_leased_by := None; h_leased_until := None; h_execution_token := None |}.

(** Source: catalogue-dump/storage/schema/catalogue-schema.sql:1894-1902,
    catalogue.source_settings. *)
Record SourceSetting := { ss_enabled : bool; ss_paused : bool; ss_params : list (string * json) }.

(** A source's proxy policy joined with its route and profile; a policy other
    than [never] has a route. *)
Record ProxyPolicyRow := {
  pp_snapshot : ProxySnapshot; pp_route_enabled : bool; pp_profile_enabled : bool;
  pp_profile_lifecycle : string; pp_route_max_bytes : Z;
}.

(** Source: catalogue-dump/storage/schema/catalogue-schema.sql:1102-1113,
    catalogue.job_progress. *)
Record JobProgress := {
  jp_phase : string; jp_discovered : Z; jp_records : Z; jp_requests : Z; jp_rendered_pages : Z;
  jp_error_count : Z; jp_truncated : bool; jp_in_flight : list string; jp_updated_at : Z;
}.

(** Source: catalogue-dump/storage/schema/catalogue-schema.sql:972-991, catalogue.job_datasets.
    *)
Record JobDataset := { d_job_id : Z; d_dataset : string; d_state : string; d_complete : bool }.

(** Source: catalogue-dump/storage/schema/catalogue-schema.sql:1809-1818, catalogue.schedules.
    *)
Record ScheduleRow := {
  s_enabled : bool; s_cron : string; s_timezone : string;
  s_only : list string; s_except : list string;   (* the entries of [source_filter] *)
  s_params : list (string * json); s_last_fired_at : option Z; s_next_fire_at : option Z;
}.
#[export] Instance eta_ScheduleRow : Eta ScheduleRow := fun s =>
  {| s_enabled := s_enabled s; s_cron := s_cron s; s_timezone := s_timezone s; s_only := s_only s;
     s_except := s_except s; s_params := s_params s; s_last_fired_at := s_last_fired_at s;
     s_next_fire_at := s_next_fire_at s |}.

(** An edge of the event log, without its payload. *)
Record Event := {
  ev_type : string; ev_run : option Z; ev_job : option Z; ev_worker : option Z; ev_source : option string; ev_at : Z;
}.

(** * What operators watch *)

(** The parts of a notification's deduplication key, which the source joins with
    colons: the condition, the source or schedule it is about, and the numbers or
    moments that tell two occurrences of it apart. *)
Record NoteKey := { nk_condition : string; nk_subject : string; nk_values : list Z }.
#[export] Instance NoteKey_eq_dec : EqDecision NoteKey.
Proof. solve_decision. Defined.

(** Source: catalogue-dump/ops/events.py, Severity. *)
Inductive Severity := INFO | WARNING | CRITICAL.
#[export] Instance Severity_eq_dec : EqDecision Severity.
Proof. solve_decision. Defined.

(** A row of [catalogue.notifications], without its title and body. Source:
    catalogue-dump/storage/schema/catalogue-schema.sql:1226-1242, catalogue.notifications. *)
Record Notification := {
  n_at : Z; n_severity : Severity; n_kind : string; n_run_id : option Z; n_job_id : option Z;
  n_source_id : option string; n_worker_id : option Z; n_dedup_key : NoteKey;
  n_resolved_at : option Z; n_acknowledged_at : option Z; n_acknowledged_by : option string;
}.
#[export] Instance eta_Notification : Eta Notification := fun n =>
  {| n_at := n_at n; n_severity := n_severity n; n_kind := n_kind n; n_run_id := n_run_id n; n_job_id := n_job_id n;
     n_source_id := n_source_id n; n_worker_id := n_worker_id n; n_dedup_key := n_dedup_key n;
     n_resolved_at := n_resolved_at n; n_acknowledged_at := n_acknowledged_at n;
     n_acknowledged_by := n_acknowledged_by n |}.

(** A line of a job's log. Source:
    catalogue-dump/storage/schema/catalogue-schema.sql:998-1007, catalogue.job_events. *)
Record JobEvent := { je_job_id : Z; je_at : Z; je_level : string; je_event : option string; je_message : string }.

(** Source: catalogue-dump/storage/schema/catalogue-schema.sql:1927-1940, catalogue.workers. *)
Record WorkerRow := {
  wk_hostname : string; wk_pid : Z; wk_version : string; wk_capabilities : list string;
  wk_last_heartbeat_at : Z; wk_status : string; wk_desired_state : string; wk_current_job_id : option Z;
}.
#[export] Instance eta_WorkerRow : Eta WorkerRow := fun w =>
  {| wk_hostname := wk_hostname w; wk_pid := wk_pid w; wk_version := wk_version w; wk_capabilities := wk_capabilities w;
     wk_last_heartbeat_at := wk_last_heartbeat_at w; wk_status := wk_status w;
     wk_desired_state := wk_desired_state w; wk_current_job_id := wk_current_job_id w |}.

(** Source: catalogue-dump/storage/schema/catalogue-schema.sql:1846-1860,
    catalogue.source_health_probes. *)
Record ProbeRow := {
  pb_url : string; pb_expect : string; pb_last_checked_at : option Z; pb_last_status : option Z;
  pb_last_error : option string; pb_checks : Z; pb_consecutive_ok : Z; pb_required_ok : Z; pb_recovered_at : option Z;
}.
#[export] Instance eta_ProbeRow : Eta ProbeRow := fun p =>
  {| pb_url := pb_url p; pb_expect := pb_expect p; pb_last_checked_at := pb_last_checked_at p;
     pb_last_status := pb_last_status p; pb_last_error := pb_last_error p; pb_checks := pb_checks p;
     pb_consecutive_ok := pb_consecutive_ok p; pb_required_ok := pb_required_ok p; pb_recovered_at := pb_recovered_at p |}.

(** * The database *)

(** [db_next_uuid] supplies [uuid4()] and [gen_random_uuid()]: every identifier
    drawn is new. [db_now] is the transaction's [now()], in microseconds. *)
Record DB := {
  db_now : Z;
  db_jobs : gmap Z JobRow;
  db_runs : gmap Z RunRow;
  db_outbox : gmap Z OutboxRow;
  db_hosts : gmap string Z;
  db_host_leases : gmap (string * Z) HostLease;
  db_settings : gmap string SourceSetting;
  db_policies : gmap string ProxyPolicyRow;
  db_progress : gmap Z JobProgress;
  db_datasets : list JobDataset;
  db_schedules : gmap string ScheduleRow;
  db_events : list Event;
  db_notifications : gmap Z Notification;
  db_job_events : list JobEvent;
  db_workers : gmap Z WorkerRow;
  db_probes : gmap string ProbeRow;
  db_promotions : list Z;                        (* the runs whose promotion was attempted *)
  db_next_uuid : Z;
  db_next_outbox : Z;
  db_next_note : Z;
}.
#[export] Instance eta_DB : Eta DB := fun s =>
  {| db_now := db_now s; db_jobs := db_jobs s; db_runs := db_runs s; db_outbox := db_outbox s;
     db_hosts := db_hosts s; db_host_leases := db_host_leases s; db_settings := db_settings s;
     db_policies := db_policies s; db_progress := db_progress s; db_datasets := db_datasets s;
     db_schedules := db_schedules s; db_events := db_events s; db_notifications := db_notifications s;
     db_job_events := db_job_events s; db_workers := db_workers s; db_probes := db_probes s;
     db_promotions := db_promotions s; db_next_uuid := db_next_uuid s; db_next_outbox := db_next_outbox s;
     db_next_note := db_next_note s |}.

(** An empty database with the given source settings and schedules. *)
Definition empty_store (now : Z) (settings : gmap string SourceSetting) (schedules : gmap string ScheduleRow)
    (policies : gmap string ProxyPolicyRow) : DB :=
  {| db_now := now; db_jobs := ∅; db_runs := ∅; db_outbox := ∅; db_hosts := ∅; db_host_leases := ∅;
     db_settings := settings; db_policies := policies; db_progress := ∅; db_datasets := []; db_schedules := schedules;
     db_events := [];
     db_notifications := ∅; db_job_events := []; db_workers := ∅; db_probes := ∅; db_promotions := [];
     db_next_uuid := 0; db_next_outbox := 0; db_next_note := 0 |}.

Abbreviation db := (eff DB pyexn).

Definition seconds (n : Z) : Z := n * 1000000.

(** [async with connection.transaction()] *)
Definition transaction {A} (m : db A) : db A := fun s =>
  match m s with
  | (Ok a, s') => (Ok a, s')
  | (Err e, _) => (Err e, s)
  end.

(** [select * from catalogue.jobs where id = ...] *)
Definition select_job (id : Z) : db (option JobRow) := gets (fun s => db_jobs s !! id).

(** [update catalogue.jobs set ... where id = ... and ... returning *] *)
Definition update_job (id : Z) (guard : DB -> JobRow -> bool) (f : DB -> JobRow -> JobRow) : db (option JobRow) :=
  fun s =>
    match db_jobs s !! id with
    | None => (Ok None, s)
    | Some j => if guard s j then (Ok (Some (f s j)), s <| db_jobs := <[id := f s j]> (db_jobs s) |>)
                else (Ok None, s)
    end.

Definition any_row {R} (s : DB) (r : R) : bool := true.

(** [uuid4()] and [gen_random_uuid()] *)
Definition new_uuid : db Z := fun s => (Ok (db_next_uuid s), s <| db_next_uuid := db_next_uuid s + 1 |>).

(** Source: catalogue-dump/ops/events.py:65-99, emit. *)
Definition emit (type : string) (run job worker : option Z) (source : option string) : db () :=
  modify (fun s => s <| db_events := db_events s ++
    [{| ev_type := type; ev_run := run; ev_job := job; ev_worker := worker; ev_source := source;
       ev_at := db_now s |}] |>).

(** The rows of a run's jobs. *)
Definition run_jobs (s : DB) (run : Z) : list JobRow :=
  filter (fun j => j_run_id j = run) (map_to_list (db_jobs s)).*2.

(** * Lemmas *)

Lemma keeps_transaction {A} I (m : db A) : keeps I m -> keeps I (transaction m).
Proof.
intros Hm s Hs. specialize (Hm s Hs). unfold wp, transaction in *. by destruct (m s) as [[a|e] s'].
Qed.
Lemma keeps_select_job I id : keeps I (select_job id).
Proof. apply keeps_gets. Qed.
#[export] Hint Resolve keeps_transaction keeps_select_job : keeps.

Lemma update_job_spec id guard f s :
  update_job id guard f s =
    match db_jobs s !! id with
    | Some j => if guard s j then (Ok (Some (f s j)), s <| db_jobs := <[id := f s j]> (db_jobs s) |>)
                else (Ok None, s)
    | None => (Ok None, s)
    end.
Proof. unfold update_job. by destruct (db_jobs s !! id). Qed.

Lemma terminal_executing st : terminal st = true -> executing st = false.
Proof. by destruct st. Qed.
