(* ===== verification/Notifications.v ===== *)
(** Notifications and job logs ([catalogue-dump/.../ops/events.py]): a condition
    is raised at most once while it is open, closed when it ends, and
    acknowledged by an operator. *)
From S2P Require Export JobTables.
From stdpp Require Import sorting.
Open Scope Z_scope.

(** A notification nobody has dealt with: the rows of the partial unique index. Source:
    catalogue-dump/storage/schema/catalogue-schema.sql:2591-2591, notifications_open_key. *)
Definition is_open (n : Notification) : bool := is_none (n_resolved_at n) && is_none (n_acknowledged_at n).

(** The open row of a key, with which an insert collides. *)
Definition open_row (s : DB) (key : NoteKey) : option (Z * Notification) :=
  list_find (fun p => is_open (snd p) = true /\ n_dedup_key (snd p) = key) (map_to_list (db_notifications s)) ≫= fun p => Some (snd p).

(** [insert ... on conflict do nothing returning id]. Source:
    catalogue-dump/ops/events.py:131-141, RAISE_NOTIFICATION. *)
Definition insert_notification (row : Notification) : db (option Z) := fun s =>
  match open_row s (n_dedup_key row) with
  | Some _ => (Ok None, s)
  | None => (Ok (Some (db_next_note s)),
             s <| db_notifications := <[db_next_note s := row]> (db_notifications s) |>
               <| db_next_note := db_next_note s + 1 |>)
  end.

(** What a notification is about. *)
Record Subject := { su_run : option Z; su_job : option Z; su_source : option string; su_worker : option Z }.
Definition nothing : Subject := {| su_run := None; su_job := None; su_source := None; su_worker := None |}.
Definition about_source (source : string) : Subject :=
  {| su_run := None; su_job := None; su_source := Some source; su_worker := None |}.
Definition about_worker (worker : Z) : Subject :=
  {| su_run := None; su_job := None; su_source := None; su_worker := Some worker |}.

(** Source: catalogue-dump/ops/events.py, notify. *)
Definition notify (kind : string) (severity : Severity) (key : NoteKey) (x : Subject) : db (option Z) :=
  now ← gets db_now;
  row ← insert_notification
    {| n_at := now; n_severity := severity; n_kind := kind; n_run_id := su_run x; n_job_id := su_job x;
       n_source_id := su_source x; n_worker_id := su_worker x; n_dedup_key := key;
       n_resolved_at := None; n_acknowledged_at := None; n_acknowledged_by := None |};
  match row with
  | None => mret None
  | Some id =>
      _ ← emit "notification.raised" (su_run x) (su_job x) (su_worker x) (su_source x);
      mret (Some id)
  end.

(** [update catalogue.notifications set ... where ... returning id]: the rows
    changed, by id. *)
Definition update_notifications (guard : Z -> Notification -> bool) (f : DB -> Notification -> Notification) : db (list Z) := fun s =>
  (Ok (merge_sort Z.le (filter (fun p => guard (fst p) (snd p) = true) (map_to_list (db_notifications s))).*1),
   s <| db_notifications := map_imap (fun i n => Some (if guard i n then f s n else n)) (db_notifications s) |>).

(** Every unresolved row of the key is closed, those acknowledged included; the
    edge names one of them. Source: catalogue-dump/ops/events.py, resolve. *)
Definition resolve (key : NoteKey) (source : option string) : db bool :=
  rows ← update_notifications (fun _ n => bool_decide (n_dedup_key n = key) && is_none (n_resolved_at n))
           (fun s n => n <| n_resolved_at := Some (db_now s) |>);
  match rows with
  | [] => mret false
  | _ :: _ => _ ← emit "notification.resolved" None None None source; mret true
  end.

(** [acknowledged_at = now(), acknowledged_by = %(by)s]. Source:
    catalogue-dump/ops/events.py:158-164, ACKNOWLEDGE_NOTIFICATIONS. *)
Definition acknowledge_rows (ids : list Z) (by_ : string) : db (list Z) :=
  update_notifications (fun i n => bool_decide (i ∈ ids) && is_none (n_acknowledged_at n))
    (fun s n => n <| n_acknowledged_at := Some (db_now s) |> <| n_acknowledged_by := Some by_ |>).

(** Source: catalogue-dump/ops/events.py, acknowledge. *)
Definition acknowledge (id : Z) (by_ : string) : db bool :=
  rows ← acknowledge_rows [id] by_;
  match rows with
  | [] => mret false
  | _ :: _ => _ ← emit "notification.acknowledged" None None None None; mret true
  end.

(** One edge per row. *)
Fixpoint emit_acknowledged (ids : list Z) : db () :=
  match ids with
  | [] => mret ()
  | id :: r =>
      source ← gets (fun s => db_notifications s !! id ≫= n_source_id);
      _ ← emit "notification.acknowledged" None None None source; emit_acknowledged r
  end.

(** Source: catalogue-dump/ops/events.py, acknowledge_many. *)
Definition acknowledge_many (ids : list Z) (by_ : string) : db (list Z) :=
  if bool_decide (ids = []) then mret []
  else
    rows ← acknowledge_rows ids by_;
    _ ← emit_acknowledged rows;
    mret rows.

(** Source: catalogue-dump/ops/events.py, log. *)
Definition log (job_id : Z) (message level : string) (event : option string) : db () := modify (fun s =>
  s <| db_job_events := db_job_events s ++
    [{| je_job_id := job_id; je_at := db_now s; je_level := level; je_event := event; je_message := message |}] |>).

(** * Lemmas *)

(** The statements that leave every table but the notifications and the event
    log alone. *)
Definition notes_only (s s' : DB) : Prop :=
  s' = s <| db_notifications := db_notifications s' |> <| db_events := db_events s' |> <| db_next_note := db_next_note s' |>.

Lemma notes_only_refl s : notes_only s s.
Proof. by destruct s. Qed.
Lemma notes_only_trans a b c : notes_only a b -> notes_only b c -> notes_only a c.
Proof. unfold notes_only. intros H1 H2. rewrite H2, H1. by destruct a, b, c. Qed.

Lemma keeps_emit_notes s0 t r j w src : keeps (notes_only s0) (emit t r j w src).
Proof. intros s Hs. eapply notes_only_trans; [exact Hs|]. by destruct s. Qed.
Lemma keeps_insert_notification s0 row : keeps (notes_only s0) (insert_notification row).
Proof.
intros s Hs. unfold wp, insert_notification. destruct (open_row s _); [done|].
eapply notes_only_trans; [exact Hs|]. by destruct s.
Qed.
Lemma keeps_update_notifications s0 guard f : keeps (notes_only s0) (update_notifications guard f).
Proof. intros s Hs. eapply notes_only_trans; [exact Hs|]. by destruct s. Qed.
#[export] Hint Resolve keeps_emit_notes keeps_insert_notification keeps_update_notifications : keeps.

Lemma keeps_notify s0 kind severity key x : keeps (notes_only s0) (notify kind severity key x).
Proof.
unfold notify. apply keeps_bind; [apply keeps_gets|]. intros now. apply keeps_bind; [eauto with keeps|].
intros [id|]; eauto with keeps.
Qed.
Lemma keeps_resolve s0 key source : keeps (notes_only s0) (resolve key source).
Proof. unfold resolve. apply keeps_bind; [eauto with keeps|]. intros [|]; eauto with keeps. Qed.
#[export] Hint Resolve keeps_notify keeps_resolve : keeps.

Lemma notify_notes kind severity key x s : notes_only s (notify kind severity key x s).2.
Proof. apply (keeps_notify s kind severity key x s), notes_only_refl. Qed.
Lemma resolve_notes key source s : notes_only s (resolve key source s).2.
Proof. apply (keeps_resolve s key source s), notes_only_refl. Qed.
