(* ===== verification/Outbox.v ===== *)
(** Delivery routes and the transactional outbox
    ([catalogue-dump/.../ops/delivery.py], [ops/outbox.py]): the route of a job,
    the routes a worker subscribes to, and the publication rows that carry one
    generation of a job to the broker. *)
From S2P Require Export JobTables PyStr.
From stdpp Require Import sorting.
Open Scope Z_scope.

(** * Routes *)

(** Source: catalogue-dump/ops/delivery.py:14-19, ROUTES. *)
Definition ROUTES : list string :=
  ["plain.normal"; "browser.auto.normal"; "browser.camoufox.normal"; "browser.cdp_extension_proxy.normal"].

(** [if value] of an optional text. *)
Definition truthy_text (o : option string) : bool :=
  match o with Some s => negb (str_isempty s) | None => false end.

(** Source: catalogue-dump/ops/outbox.py, route_for. *)
Definition route_for (requires requires_any : list string) (selected_browser_backend : option string) : string :=
  if truthy_text selected_browser_backend then
    "browser." +:+ default "" selected_browser_backend +:+ ".normal"
  else if bool_decide (requires_any ≠ []) then "browser.auto.normal"
  else if bool_decide ("browser" ∈ requires) then "browser.camoufox.normal"
  else "plain.normal".

(** The backends among a worker's capabilities. Source: catalogue-dump/ops/delivery.py:223-223,
    routes_for. *)
Definition exact_backends (capabilities : list string) : list string :=
  removeprefix "browser:" <$> filter (fun v => str_startswith "browser:" v = true) capabilities.

(** Source: catalogue-dump/ops/delivery.py, routes_for. *)
Definition routes_for (capabilities : list string) : list string :=
  let exact := exact_backends capabilities in
  let routes := ["plain.normal"] in
  let routes := if bool_decide (exact ≠ []) then "browser.auto.normal" :: routes else routes in
  let routes := if bool_decide ("camoufox" ∈ exact) then "browser.camoufox.normal" :: routes else routes in
  if bool_decide ("cdp_extension_proxy" ∈ exact) then "browser.cdp_extension_proxy.normal" :: routes else routes.

(** * The outbox *)

(** Source: catalogue-dump/ops/outbox.py, job_route. *)
Definition job_route (id : Z) : db string :=
  row ← select_job id;
  match row with
  | None => throw (ValueError "unknown job")
  | Some j => mret (route_for (j_requires j) (j_requires_any j) (j_selected_browser_backend j))
  end.

(** The row of one generation of a job. Source: catalogue-dump/ops/outbox.py:56-56, enqueue_job.
    *)
Definition outbox_for (s : DB) (id generation : Z) : option (Z * OutboxRow) :=
  list_find (fun p => o_job_id (snd p) = id /\ o_generation (snd p) = generation) (map_to_list (db_outbox s)) ≫= fun p => Some (snd p).

(** The row [enqueue_job] inserts for a job. Source: catalogue-dump/ops/outbox.py:36-53, enqueue_job. *)
Definition outbox_row (s : DB) (id : Z) (j : JobRow) (route : string) (available_at : option Z) : OutboxRow :=
  {| o_job_id := id; o_generation := j_delivery_generation j; o_route := route;
     o_payload := {| e_job_id := id; e_run_id := j_run_id j; e_source_id := j_source_id j;
                     e_generation := j_delivery_generation j; e_route := route;
                     e_priority := j_priority j; e_enqueued_at := db_now s |};
     o_available_at := default (j_scheduled_for j) available_at;
     o_published_at := None; o_cancelled_at := None; o_publish_attempts := 0; o_last_error := None |}.

Definition insert_outbox (o : OutboxRow) (s : DB) : DB :=
  s <| db_outbox := <[db_next_outbox s := o]> (db_outbox s) |> <| db_next_outbox := db_next_outbox s + 1 |>.

(** [insert ... select ... on conflict (job_id, generation) do nothing returning
    id]. Source: catalogue-dump/ops/outbox.py:33-66, enqueue_job. *)
Definition insert_generation (id : Z) (route : string) (available_at : option Z) : db bool := fun s =>
  match db_jobs s !! id with
  | None => (Ok false, s)
  | Some j =>
      if terminal (j_state j) then (Ok false, s)
      else match outbox_for s id (j_delivery_generation j) with
           | Some _ => (Ok false, s)
           | None => (Ok true, insert_outbox (outbox_row s id j route available_at) s)
           end
  end.

(** Source: catalogue-dump/ops/outbox.py, enqueue_job. *)
Definition enqueue_job (id : Z) (available_at : option Z) : db bool :=
  route ← job_route id; insert_generation id route available_at.

(** [order by available_at, id]. Source: catalogue-dump/ops/outbox.py:93-93, pending. *)
Definition due_before (p q : Z * OutboxRow) : Prop :=
  o_available_at p.2 < o_available_at q.2 \/ (o_available_at p.2 = o_available_at q.2 /\ p.1 <= q.1).
#[export] Instance due_before_dec p q : Decision (due_before p q).
Proof. unfold due_before. apply _. Defined.

(** Source: catalogue-dump/ops/outbox.py, pending. *)
Definition pending (limit : nat) : db (list (Z * OutboxRow)) := gets (fun s =>
  take limit (merge_sort due_before
    (filter (fun p => o_published_at (snd p) = None /\ o_cancelled_at (snd p) = None /\ o_available_at (snd p) <= db_now s)
            (map_to_list (db_outbox s))))).

Definition update_outbox (id : Z) (guard : OutboxRow -> bool) (f : DB -> OutboxRow -> OutboxRow) : db () := modify (fun s =>
  match db_outbox s !! id with
  | Some o => if guard o then s <| db_outbox := <[id := f s o]> (db_outbox s) |> else s
  | None => s
  end).

(** Source: catalogue-dump/ops/outbox.py, mark_published. *)
Definition mark_published (id : Z) : db () :=
  update_outbox id (fun o => is_none (o_published_at o)) (fun s o =>
    o <| o_published_at := Some (db_now s) |> <| o_publish_attempts := o_publish_attempts o + 1 |>
      <| o_last_error := None |>).

(** Source: catalogue-dump/ops/outbox.py, mark_failed. *)
Definition mark_failed (id : Z) (error : string) : db () :=
  update_outbox id (fun o => is_none (o_published_at o)) (fun s o =>
    o <| o_publish_attempts := o_publish_attempts o + 1 |> <| o_last_error := Some (str_take 2000 error) |>
      <| o_available_at := db_now s + seconds 5 |>).

(** A job's source may run: [coalesce(s.enabled, true) and not coalesce(s.paused, false)].
    Source: catalogue-dump/ops/outbox.py:144-144, reconstruct_missing. *)
Definition source_enabled (s : DB) (source : string) : bool :=
  default true (ss_enabled <$> db_settings s !! source).
(** Source: catalogue-dump/ops/outbox.py:144-144, reconstruct_missing. *)
Definition source_paused (s : DB) (source : string) : bool :=
  default false (ss_paused <$> db_settings s !! source).

(** A job whose current generation should be on offer. Source:
    catalogue-dump/ops/outbox.py:163-165, republish_current. *)
Definition eligible (s : DB) (j : JobRow) : bool :=
  deliverable (j_state j) && negb (j_cancel_requested j) && negb (j_pause_requested j)
  && source_enabled s (j_source_id j) && negb (source_paused s (j_source_id j)).

(** The eligible jobs whose generation has no row. Source:
    catalogue-dump/ops/outbox.py:134-147, reconstruct_missing. *)
Definition missing_jobs (s : DB) : list Z :=
  (filter (fun p => eligible s (snd p) = true /\ outbox_for s (fst p) (j_delivery_generation (snd p)) = None)
          (map_to_list (db_jobs s))).*1.

(** Source: catalogue-dump/ops/outbox.py:148-149, reconstruct_missing. *)
Fixpoint enqueue_all (ids : list Z) : db () :=
  match ids with
  | [] => mret ()
  | id :: r => _ ← enqueue_job id None; enqueue_all r
  end.

(** Source: catalogue-dump/ops/outbox.py, reconstruct_missing. *)
Definition reconstruct_missing : db Z :=
  rows ← gets missing_jobs;
  _ ← enqueue_all rows;
  mret (Z.of_nat (length rows)).

(** The rows [republish_current] offers again. Source: catalogue-dump/ops/outbox.py:162-165,
    republish_current. *)
Definition current_row (s : DB) (o : OutboxRow) : bool :=
  match db_jobs s !! o_job_id o with
  | Some j => bool_decide (o_generation o = j_delivery_generation j) && eligible s j
  | None => false
  end.

(** Source: catalogue-dump/ops/outbox.py:156-169, republish_current. *)
Definition reoffer_current : db Z := fun s =>
  let hits := filter (fun p => current_row s (snd p) = true) (map_to_list (db_outbox s)) in
  let reoffered o := if current_row s o
                     then o <| o_published_at := None |> <| o_cancelled_at := None |>
                            <| o_available_at := db_now s |> <| o_last_error := None |>
                     else o in
  (Ok (Z.of_nat (length hits)), s <| db_outbox := reoffered <$> db_outbox s |>).

(** Source: catalogue-dump/ops/outbox.py, republish_current. *)
Definition republish_current : db Z := _ ← reconstruct_missing; reoffer_current.

(** Source: catalogue-dump/ops/outbox.py, redrive_exhausted. *)
Definition redrive_exhausted (exhausted : JobEnvelope) : db bool :=
  row ← select_job (e_job_id exhausted);
  enabled ← gets source_enabled; source_is_paused ← gets source_paused;
  match row with
  | None => mret false
  | Some j =>
      if bool_decide (j_delivery_generation j ≠ e_generation exhausted)
         || negb (deliverable (j_state j)) || j_cancel_requested j || j_pause_requested j
         || negb (enabled (j_source_id j)) || source_is_paused (j_source_id j)
      then mret false
      else
        _ ← update_job (e_job_id exhausted) any_row (fun _ j =>
              j <| j_delivery_generation := j_delivery_generation j + 1 |>);
        enqueue_job (e_job_id exhausted) None
  end.
