(* ===== verification/Runs.v ===== *)
(** Runs and their jobs ([catalogue-dump/.../ops/runs.py]): creating a run, one
    job per source, starting a run, finishing a job, and closing the run whose
    last job finished. *)
From S2P Require Export Outbox.
Open Scope Z_scope.

(** * Creating runs *)

(** The unique index on [(schedule_id, scheduled_fire_at) where schedule_id is not null].
    Source: catalogue-dump/ops/runs.py:61-62, create_run. *)
Definition occurrence_taken (s : DB) (schedule_id : option string) (fire_at : option Z) : bool :=
  match schedule_id, fire_at with
  | Some k, Some t =>
      existsb (fun r => bool_decide (r_schedule_id r = Some k) && bool_decide (r_scheduled_fire_at r = Some t))
              (map_to_list (db_runs s)).*2
  | _, _ => false
  end.

(** Source: catalogue-dump/ops/runs.py:59-63, create_run. *)
Definition insert_run (id : Z) (r : RunRow) : db () := modify (fun s => s <| db_runs := <[id := r]> (db_runs s) |>).

(** Source: catalogue-dump/ops/runs.py, create_run. *)
Definition create_run (kind : string) (requested_by : option string) (params : list (string * json))
    (schedule_id : option string) (scheduled_fire_at : option Z) : db (option Z) :=
  taken ← gets (fun s => occurrence_taken s schedule_id scheduled_fire_at);
  if (taken : bool) then mret None
  else
    run_id ← new_uuid;
    _ ← insert_run run_id
      {| r_kind := kind; r_schedule_id := schedule_id; r_scheduled_fire_at := scheduled_fire_at;
         r_requested_by := requested_by; r_params := params; r_status := run_queued;
         r_started_at := None; r_finished_at := None; r_summary := None |};
    _ ← emit "run.created" (Some run_id) None None None;
    mret (Some run_id).

(** * Closing runs *)

(** Source: catalogue-dump/ops/runs.py:394-398, _close_run_if_done. *)
Definition count_state (st : JobState) (l : list JobRow) : Z :=
  Z.of_nat (length (filter (fun j => j_state j = st) l)).

(** [coalesce(sum((summary->>'...')::bigint), 0)]. Source: catalogue-dump/ops/runs.py:399-400,
    _close_run_if_done. *)
Definition sum_summary (field : JobSummary -> option Z) (l : list JobRow) : Z :=
  sum_Z ((fun j => default 0 (j_summary j ≫= field)) <$> l).

(** Source: catalogue-dump/ops/runs.py:391-406, _close_run_if_done. *)
Definition tally (l : list JobRow) : Tally :=
  {| t_succeeded := count_state succeeded l; t_degraded := count_state degraded l;
     t_failed := count_state failed l; t_cancelled := count_state cancelled l;
     t_skipped := count_state skipped l;
     t_records := sum_summary sm_records l; t_requests := sum_summary sm_requests l |}.

(** Source: catalogue-dump/ops/runs.py:411-419, _close_run_if_done. *)
Definition run_outcome (t : Tally) : RunStatus :=
  let usable := t_succeeded t + t_degraded t in
  if bool_decide (t_cancelled t ≠ 0) && bool_decide (usable = 0) && bool_decide (t_failed t = 0) then run_cancelled
  else if bool_decide (usable ≠ 0)
          && (bool_decide (t_degraded t ≠ 0) || bool_decide (t_failed t ≠ 0) || bool_decide (t_cancelled t ≠ 0))
  then run_degraded
  else if bool_decide (t_failed t ≠ 0) then run_failed
  else run_complete.

(** The number of a run's jobs that are not terminal. Source: catalogue-dump/ops/runs.py:381-389, _close_run_if_done. *)
Definition remaining (s : DB) (run : Z) : nat :=
  length (filter (fun j => terminal (j_state j) = false) (run_jobs s run)).

(** A job whose collection may be folded into the product identities. Source:
    catalogue-dump/ops/runs.py:463-485, _promote_canonicals. *)
Definition promotes (s : DB) (id : Z) (j : JobRow) : bool :=
  let datasets := filter (fun d => d_job_id d = id) (db_datasets s) in
  (bool_decide (j_state j = succeeded) || bool_decide (j_state j = degraded)) &&
  (existsb (fun d => bool_decide (d_dataset d ∈ ["ceramics.catalogue_item.v2"; "ceramics.catalogue_identity.v2"])
                     && bool_decide (d_state d ∈ ["succeeded"; "degraded"]) && d_complete d) datasets
   || bool_decide (length datasets = 0%nat) &&
      (bool_decide (j_state j = succeeded)
       || bool_decide ((j_summary j ≫= sm_write_status) = Some "replaced")
          && negb (default false (j_summary j ≫= sm_truncated))
          && negb (default false (j_summary j ≫= sm_interrupted)))).

(** The promotion statement itself, whose failure is swallowed, belongs to the
    product tables; the model records that it was attempted for the run. Source:
    catalogue-dump/ops/runs.py:444-485, _promote_canonicals. *)
Definition promote_canonicals (run : Z) : db () := modify (fun s =>
  if existsb (fun p => bool_decide (j_run_id p.2 = run) && promotes s p.1 p.2) (map_to_list (db_jobs s))
  then s <| db_promotions := db_promotions s ++ [run] |> else s).

Definition update_run (id : Z) (guard : RunRow -> bool) (f : DB -> RunRow -> RunRow) : db bool := fun s =>
  match db_runs s !! id with
  | Some r => if guard r then (Ok true, s <| db_runs := <[id := f s r]> (db_runs s) |>) else (Ok false, s)
  | None => (Ok false, s)
  end.

(** Source: catalogue-dump/ops/runs.py, _close_run_if_done. *)
Definition close_run_if_done (run : Z) : db (option (RunStatus * Tally)) :=
  outstanding ← gets (fun s => remaining s run);
  if bool_decide (outstanding ≠ 0%nat) then mret None
  else
    summary ← gets (fun s => tally (run_jobs s run));
    let status := run_outcome summary in
    _ ← update_run run (fun _ => true) (fun s r =>
          r <| r_status := status |> <| r_finished_at := Some (db_now s) |> <| r_summary := Some summary |>);
    _ ← emit ("run." +:+ status_name status) (Some run) None None None;
    _ ← promote_canonicals run;
    mret (Some (status, summary)).

(** Source: catalogue-dump/ops/runs.py, start_run. *)
Definition start_run (run : Z) : db bool :=
  changed ← update_run run (fun r => bool_decide (r_status r = run_queued)) (fun s r =>
    r <| r_status := run_running |> <| r_started_at := coalesce (r_started_at r) (Some (db_now s)) |>);
  if (changed : bool) then (_ ← emit "run.started" (Some run) None None None; mret true) else mret false.

(** * Creating jobs *)

(** What [create_jobs] reads of a configured source. [sc_requires] is
    [adapter_capabilities(config.scraper).required_worker_capabilities]. Source:
    catalogue-dump/config/sources.py, SourceConfig. *)
Record SourceConfig := {
  sc_url : string; sc_country : option string; sc_proxy_eligible : bool; sc_scraper : string;
}.

(** Source: catalogue-dump/ops/runs.py, host_of. *)
Definition host_of (url : string) : result pyexn string :=
  sr ← urlsplit url; Ok (sr_netloc sr).

(** The scrapers whose adapter declares worker capabilities. Source:
    catalogue-dump/scrapers/__init__.py:29-49, ADAPTER_CAPABILITIES. *)
Definition required_worker_capabilities (scraper : string) : list string :=
  if bool_decide (scraper = "ceramicolours") || bool_decide (scraper = "keramik_kraft")
  then ["browser"] else [].

(** Source: catalogue-dump/scrapers/__init__.py, adapter_capabilities. *)
Definition adapter_capabilities (name : string) : list string :=
  required_worker_capabilities (if str_endswith "_connector" name then removesuffix "_connector" name else name).

(** Source: catalogue-dump/ops/runs.py:145-170, create_jobs. *)
Definition snapshot_for (config : SourceConfig) (policy : option ProxyPolicyRow) : result pyexn (option ProxySnapshot) :=
  match policy with
  | None => Ok None
  | Some p =>
      let x := pp_snapshot p in
      if bool_decide (px_policy x = "never") then Ok None
      else
        _ ← ensure (sc_proxy_eligible config) (ValueError "source is not checked-in as proxy eligible");
        _ ← ensure (pp_route_enabled p && pp_profile_enabled p)
                   (ValueError "source references a disabled proxy route/profile");
        _ ← ensure (bool_decide (pp_profile_lifecycle p = "enabled"))
                   (ValueError "source proxy profile is not operational");
        Ok (Some {| px_policy := px_policy x; px_policy_revision := px_policy_revision x;
                    px_route_id := px_route_id x; px_profile_id := px_profile_id x; px_provider := px_provider x;
                    px_profile := px_profile x; px_secret_generation := px_secret_generation x;
                    px_protocol := px_protocol x;
                    px_country := if truthy_text (px_country x) then px_country x
                                  else if truthy_text (sc_country config) then str_upper <$> sc_country config
                                  else None;
                    px_state := px_state x; px_city := px_city x; px_session_mode := px_session_mode x;
                    px_session_minutes := px_session_minutes x;
                    px_max_bytes := Z.min (px_max_bytes x) (pp_route_max_bytes p);
                    px_pilot := px_pilot x |})
  end.

(** The row of a new job: the columns the insert names, the defaults for the
    others. Source: catalogue-dump/ops/runs.py:175-200, create_jobs. *)
Definition new_job (s : DB) (run_id : Z) (name host : string) (config : SourceConfig)
    (snapshot : option ProxySnapshot) (priority max_attempts position : Z) : JobRow :=
  {| j_run_id := run_id; j_source_id := name; j_host := host; j_state := queued; j_priority := priority;
     j_attempt := 0; j_max_attempts := max_attempts; j_requires := adapter_capabilities (sc_scraper config);
     j_requires_any := []; j_scheduled_for := db_now s + seconds (position * 30);
     j_lease_owner := None; j_lease_expires_at := None; j_cancel_requested := false; j_pause_requested := false;
     j_resume_without_attempt := false; j_started_at := None; j_finished_at := None; j_error := None;
     j_trace_id := None; j_artifact_path := None; j_artifact_sha256 := None; j_artifact_size := None;
     j_summary := None; j_proxy_snapshot := snapshot; j_selected_browser_backend := None;
     j_delivery_generation := 1; j_execution_token := None; j_paused_by_source := false |}.

(** [insert into catalogue.jobs ... on conflict (run_id, source_id) do nothing returning id].
    Source: catalogue-dump/ops/runs.py:178-184, create_jobs. *)
Definition insert_job (row : DB -> JobRow) : db (option Z) := fun s =>
  let j := row s in
  if existsb (fun k => bool_decide (j_source_id k = j_source_id j)) (run_jobs s (j_run_id j)) then (Ok None, s)
  else
    let id := db_next_uuid s in
    (Ok (Some id), s <| db_jobs := <[id := j]> (db_jobs s) |> <| db_next_uuid := id + 1 |>).

(** One source of the selection. Source: catalogue-dump/ops/runs.py:138-203, create_jobs. *)
Definition create_job (run_id : Z) (sources : gmap string SourceConfig) (priority max_attempts : Z)
    (st : gmap string Z * list (string * Z)) (name : string) : db (gmap string Z * list (string * Z)) :=
  let '(seen_per_host, created) := st in
  setting ← gets (fun s => db_settings s !! name);
  if bool_decide ((ss_enabled <$> setting) = Some false) then mret st
  else
    config ← lift (match sources !! name with Some c => Ok c | None => Err (KeyError name) end);
    policy ← gets (fun s => db_policies s !! name);
    snapshot ← lift (snapshot_for config policy);
    host ← lift (host_of (sc_url config));
    let position := default 0 (seen_per_host !! host) in
    let seen_per_host := <[host := position + 1]> seen_per_host in
    row ← insert_job (fun s => new_job s run_id name host config snapshot priority max_attempts position);
    match row with
    | None => mret (seen_per_host, created)
    | Some id => _ ← enqueue_job id None; mret (seen_per_host, created ++ [(name, id)])
    end.

(** Source: catalogue-dump/ops/runs.py:138-203, create_jobs. *)
Fixpoint create_each (run_id : Z) (sources : gmap string SourceConfig) (priority max_attempts : Z)
    (selected : list string) (st : gmap string Z * list (string * Z)) : db (gmap string Z * list (string * Z)) :=
  match selected with
  | [] => mret st
  | name :: r => st' ← create_job run_id sources priority max_attempts st name;
                 create_each run_id sources priority max_attempts r st'
  end.

(** Source: catalogue-dump/ops/runs.py, create_jobs. *)
Definition create_jobs (run_id : Z) (sources : gmap string SourceConfig) (selected : list string)
    (priority max_attempts : Z) : db (list (string * Z)) :=
  st ← create_each run_id sources priority max_attempts selected (∅, []);
  let created := st.2 in
  _ ← emit "run.planned" (Some run_id) None None None;
  _ ← (if bool_decide (created = []) then _ ← close_run_if_done run_id; mret () else mret ());
  mret created.

(** * Finishing jobs *)

(** The progress row a finished job leaves. Source: catalogue-dump/ops/runs.py:316-348, finish_job. *)
Definition final_progress (s : DB) (st : JobState) (summary : option JobSummary) (old : option JobProgress) : JobProgress :=
  let final := default no_summary summary in
  let level (field : JobSummary -> option Z) (column : JobProgress -> Z) :=
    default (default 0 (column <$> old)) (field final) in
  {| jp_phase := state_name st;
     jp_discovered := level sm_discovered jp_discovered; jp_records := level sm_records jp_records;
     jp_requests := level sm_requests jp_requests; jp_rendered_pages := level sm_rendered_pages jp_rendered_pages;
     jp_error_count := level sm_error_count jp_error_count;
     jp_truncated := default (default false (jp_truncated <$> old)) (sm_truncated final);
     jp_in_flight := []; jp_updated_at := db_now s |}.

(** [%(token)s::uuid is null or execution_token = %(token)s]. Source:
    catalogue-dump/ops/runs.py:295-295, finish_job. *)
Definition token_matches (token row_token : option Z) : bool :=
  match token with None => true | Some t => bool_decide (row_token = Some t) end.

(** Clear the host slots a guard selects: [update catalogue.host_leases set job_id = null, ...].
    Source: catalogue-dump/ops/runs.py:352-358, finish_job. *)
Definition clear_slots (guard : HostLease -> bool) : db () := modify (fun s =>
  s <| db_host_leases := (fun h => if guard h then free_slot else h) <$> db_host_leases s |>).

(** Source: catalogue-dump/ops/runs.py:281-308, finish_job. *)
Definition finished_row (s : DB) (st : JobState) (summary : option JobSummary) (error : option string)
    (artifact : option Artifact) (j : JobRow) : JobRow :=
  without_lease j <| j_state := st |> <| j_finished_at := Some (db_now s) |> <| j_error := error |>
    <| j_summary := coalesce summary (j_summary j) |>
    <| j_artifact_path := coalesce (art_path <$> artifact) (j_artifact_path j) |>
    <| j_artifact_sha256 := coalesce (a ← artifact; if truthy_text (art_sha256 a) then art_sha256 a else None)
                                     (j_artifact_sha256 j) |>
    <| j_artifact_size := coalesce (artifact ≫= art_size) (j_artifact_size j) |>
    <| j_pause_requested := false |> <| j_resume_without_attempt := false |>.

(** Source: catalogue-dump/ops/runs.py, finish_job. *)
Definition finish_job (job_id : Z) (st : JobState) (summary : option JobSummary) (error : option string)
    (artifact : option Artifact) (execution_token : option Z) : db (option (RunStatus * Tally)) :=
  _ ← lift (ensure (terminal st) (ValueError "not a terminal job state"));
  transaction (
    row ← update_job job_id (fun _ j => token_matches execution_token (j_execution_token j))
                     (fun s j => finished_row s st summary error artifact j);
    match row with
    | None => mret None
    | Some j =>
        _ ← modify (fun s => s <| db_progress := <[job_id := final_progress s st summary (db_progress s !! job_id)]> (db_progress s) |>);
        _ ← clear_slots (fun h => bool_decide (h_job_id h = Some job_id) && token_matches execution_token (h_execution_token h));
        _ ← emit ("job." +:+ state_name st) (Some (j_run_id j)) (Some job_id) None (Some (j_source_id j));
        close_run_if_done (j_run_id j)
    end).

(** Source: catalogue-dump/ops/runs.py, record_job_start. *)
Definition record_job_start (job_id : Z) (trace_id : option string) : db () :=
  _ ← update_job job_id any_row (fun s j =>
        j <| j_started_at := coalesce (j_started_at j) (Some (db_now s)) |>
          <| j_trace_id := coalesce trace_id (j_trace_id j) |>);
  modify (fun s => s <| db_progress := <[job_id :=
    match db_progress s !! job_id with
    | Some p => {| jp_phase := "discovering"; jp_discovered := jp_discovered p; jp_records := jp_records p;
                   jp_requests := jp_requests p; jp_rendered_pages := jp_rendered_pages p;
                   jp_error_count := jp_error_count p; jp_truncated := jp_truncated p;
                   jp_in_flight := jp_in_flight p; jp_updated_at := db_now s |}
    | None => {| jp_phase := "discovering"; jp_discovered := 0; jp_records := 0; jp_requests := 0;
                 jp_rendered_pages := 0; jp_error_count := 0; jp_truncated := false; jp_in_flight := [];
                 jp_updated_at := db_now s |}
    end]> (db_progress s) |>).
