(* ===== verification/JobQueue.v ===== *)
(** Executing jobs ([catalogue-dump/.../ops/queue.py]): reserving the generation
    a delivery names, starting, renewing and releasing an execution, asking for a
    capability, and repairing executions whose lease expired. Every mutation an
    execution owns compares its token. *)
From S2P Require Export Runs.
From stdpp Require Import sorting.
Open Scope Z_scope.

(** Source: catalogue-dump/ops/queue.py:33-48, ClaimedJob. *)
Record ClaimedJob := {
  c_id : Z; c_run_id : Z; c_source_id : string; c_host : string; c_attempt : Z; c_max_attempts : Z;
  c_requires : list string; c_requires_any : list string; c_params : list (string * json);
  c_proxy_snapshot : option ProxySnapshot; c_delivery_generation : Z; c_execution_token : Z;
  c_selected_browser_backend : option string; c_trace_id : option string;
}.
#[export] Instance eta_ClaimedJob : Eta ClaimedJob := fun c =>
  {| c_id := c_id c; c_run_id := c_run_id c; c_source_id := c_source_id c; c_host := c_host c;
     c_attempt := c_attempt c; c_max_attempts := c_max_attempts c; c_requires := c_requires c;
     c_requires_any := c_requires_any c; c_params := c_params c; c_proxy_snapshot := c_proxy_snapshot c;
     c_delivery_generation := c_delivery_generation c; c_execution_token := c_execution_token c;
     c_selected_browser_backend := c_selected_browser_backend c; c_trace_id := c_trace_id c |}.

(** Source: catalogue-dump/ops/queue.py:50-61, ClaimedJob.from_row. *)
Definition claimed_from_row (id : Z) (params : list (string * json)) (j : JobRow) (token : Z) : ClaimedJob :=
  {| c_id := id; c_run_id := j_run_id j; c_source_id := j_source_id j; c_host := j_host j;
     c_attempt := j_attempt j; c_max_attempts := j_max_attempts j; c_requires := j_requires j;
     c_requires_any := j_requires_any j; c_params := params; c_proxy_snapshot := j_proxy_snapshot j;
     c_delivery_generation := j_delivery_generation j; c_execution_token := token;
     c_selected_browser_backend := if truthy_text (j_selected_browser_backend j)
                                   then j_selected_browser_backend j else None;
     c_trace_id := j_trace_id j |}.

(** Source: catalogue-dump/ops/queue.py:67-67, Reservation. *)
Inductive Disposition := run_it | ack | retry.
#[export] Instance Disposition_eq_dec : EqDecision Disposition.
Proof. solve_decision. Defined.

(** Source: catalogue-dump/ops/queue.py, Reservation. *)
Record Reservation := { rv_job : option ClaimedJob; rv_disposition : Disposition; rv_retry_after : Z }.
Definition acknowledged : Reservation := {| rv_job := None; rv_disposition := ack; rv_retry_after := 0 |}.
Definition retry_in (delay : Z) : Reservation := {| rv_job := None; rv_disposition := retry; rv_retry_after := delay |}.

(** * Reserving *)

(** The job's effective parameters: the run's, overridden by the source's. Source:
    catalogue-dump/ops/queue.py:85-90, reserve. *)
Definition job_params (s : DB) (j : JobRow) : list (string * json) :=
  dict_update (default [] (r_params <$> db_runs s !! j_run_id j))
              (default [] (ss_params <$> db_settings s !! j_source_id j)).

(** The backends of an automatic delivery that this worker offers. Source:
    catalogue-dump/ops/queue.py:150-153, reserve. *)
Definition auto_matches (capabilities : list string) (j : JobRow) : list string :=
  sort_strs (removeprefix "browser:" <$>
    filter (fun v => str_startswith "browser:" v = true /\ v ∈ j_requires_any j) capabilities).

Inductive backend_choice := Chosen (backend : option string) | NoBackend.

(** The backend a delivery's route selects. Source: catalogue-dump/ops/queue.py:148-161, reserve. *)
Definition select_backend (route : string) (capabilities : list string) (j : JobRow) : backend_choice :=
  let selected := j_selected_browser_backend j in
  if bool_decide (route = "browser.auto.normal") && negb (truthy_text selected) then
    match auto_matches capabilities j with
    | [] => NoBackend
    | m :: _ => Chosen (Some m)
    end
  else if str_startswith "browser." route && negb (bool_decide (route = "browser.auto.normal")) then
    let routed_backend := removesuffix ".normal" (removeprefix "browser." route) in
    if truthy_text selected && negb (bool_decide (selected = Some routed_backend)) then NoBackend
    else Chosen (if truthy_text selected then selected else Some routed_backend)
  else Chosen selected.

(** [selected and f"browser:{selected}" not in available]. Source:
    catalogue-dump/ops/queue.py:165-165, reserve. *)
Definition backend_unavailable (selected : option string) (capabilities : list string) : bool :=
  truthy_text selected && negb (bool_decide ("browser:" +:+ default "" selected ∈ capabilities)).

(** The source is disabled, or the job's cancellation was requested. Source:
    catalogue-dump/ops/queue.py:110-120, reserve. *)
Definition retire_job (id : Z) (j : JobRow) (st : JobState) : db Reservation :=
  _ ← update_job id any_row (fun s j =>
        without_lease j <| j_state := st |> <| j_finished_at := Some (db_now s) |>);
  _ ← emit ("job." +:+ state_name st) (Some (j_run_id j)) (Some id) None (Some (j_source_id j));
  _ ← close_run_if_done (j_run_id j);
  mret acknowledged.

(** A delivery of a job with no attempt left. Source: catalogue-dump/ops/queue.py:134-142, reserve. *)
Definition exhaust_job (id : Z) (j : JobRow) : db Reservation :=
  _ ← update_job id any_row (fun s j =>
        without_lease j <| j_state := failed |> <| j_finished_at := Some (db_now s) |>
          <| j_error := coalesce (j_error j) (Some "lease expired with no attempts remaining") |>);
  _ ← emit "job.failed" (Some (j_run_id j)) (Some id) None (Some (j_source_id j));
  mret acknowledged.

(** A delivery that must be republished to an exact backend. Source:
    catalogue-dump/ops/queue.py:167-179, reserve. *)
Definition reroute_job (id : Z) (selected : option string) : db Reservation :=
  _ ← update_job id any_row (fun _ j =>
        j <| j_selected_browser_backend := selected |>
          <| j_delivery_generation := j_delivery_generation j + 1 |>);
  _ ← enqueue_job id None;
  mret acknowledged.

(** Source: catalogue-dump/ops/queue.py:181-203, reserve. *)
Definition claim_job (envelope : JobEnvelope) (worker_id : Z) (params : list (string * json))
    (selected : option string) (lease : Z) : db Reservation :=
  let id := e_job_id envelope in
  token ← new_uuid;
  claimed ← update_job id (fun _ j => bool_decide (j_delivery_generation j = e_generation envelope)) (fun s j =>
    j <| j_state := leased |> <| j_lease_owner := Some worker_id |> <| j_execution_token := Some token |>
      <| j_selected_browser_backend := coalesce (j_selected_browser_backend j) selected |>
      <| j_lease_expires_at := Some (db_now s + seconds lease) |>);
  match claimed with
  | None => throw (AssertionError "claimed is not None")
  | Some j =>
      let job := claimed_from_row id params j token in
      _ ← emit "job.leased" (Some (j_run_id j)) (Some id) (Some worker_id) (Some (j_source_id j));
      mret {| rv_job := Some job; rv_disposition := run_it; rv_retry_after := 0 |}
  end.

(** [row["lease_expires_at"] > now] raises on a null. Source:
    catalogue-dump/ops/queue.py:127-127, reserve. *)
Definition lease_live (j : JobRow) (now : Z) : result pyexn bool :=
  if executing (j_state j) then
    match j_lease_expires_at j with
    | None => Err (TypeError "'>' not supported between instances of 'NoneType' and 'datetime.datetime'")
    | Some t => Ok (now <? t)
    end
  else Ok false.

(** From the worker's capabilities on. Source: catalogue-dump/ops/queue.py:144-203, reserve. *)
Definition reserve_available (envelope : JobEnvelope) (worker_id : Z) (capabilities : list string)
    (lease : Z) (params : list (string * json)) (j : JobRow) : db Reservation :=
  if negb (bool_decide (Forall (fun c => c ∈ capabilities) (j_requires j))) then mret (retry_in (seconds 30))
  else
    match select_backend (e_route envelope) capabilities j with
    | NoBackend => mret acknowledged
    | Chosen selected =>
        let expected_route := route_for (j_requires j) (j_requires_any j) selected in
        if backend_unavailable selected capabilities then mret (retry_in (seconds 30))
        else if bool_decide (expected_route ≠ e_route envelope) then reroute_job (e_job_id envelope) selected
        else claim_job envelope worker_id params selected lease
    end.

(** A job that is neither terminal nor to be retired. Source: catalogue-dump/ops/queue.py:121-203, reserve. *)
Definition reserve_live (envelope : JobEnvelope) (worker_id : Z) (capabilities : list string)
    (lease : Z) (params : list (string * json)) (is_paused : bool) (j : JobRow) : db Reservation :=
  if is_paused || j_pause_requested j || bool_decide (j_state j = paused) then mret acknowledged
  else
    now ← gets db_now;
    if now <? j_scheduled_for j then mret (retry_in (j_scheduled_for j - now))
    else
      live ← lift (lease_live j now);
      if (live : bool) then mret (retry_in (Z.min (default 0 (j_lease_expires_at j) - now) (seconds 30)))
      else if (j_max_attempts j <=? j_attempt j) && negb (j_resume_without_attempt j)
      then exhaust_job (e_job_id envelope) j
      else reserve_available envelope worker_id capabilities lease params j.

(** Source: catalogue-dump/ops/queue.py, reserve. *)
Definition reserve (envelope : JobEnvelope) (worker_id : Z) (capabilities : list string) (lease : Z) : db Reservation :=
  transaction (
    row ← select_job (e_job_id envelope);
    match row with
    | None => mret acknowledged
    | Some j =>
        enabled ← gets (fun s => source_enabled s (j_source_id j));
        is_paused ← gets (fun s => source_paused s (j_source_id j));
        params ← gets (fun s => job_params s j);
        if bool_decide (j_delivery_generation j ≠ e_generation envelope) then mret acknowledged
        else if terminal (j_state j) then mret acknowledged
        else if negb enabled || j_cancel_requested j
        then retire_job (e_job_id envelope) j (if negb enabled then skipped else cancelled)
        else reserve_live envelope worker_id capabilities lease params is_paused j
    end).

(** * The mutations an execution owns *)

(** [lease_owner = ... and execution_token = ...]. Source: catalogue-dump/ops/queue.py:219-219,
    start. *)
Definition owned_by (worker_id token : Z) (j : JobRow) : bool :=
  bool_decide (j_lease_owner j = Some worker_id) && bool_decide (j_execution_token j = Some token).

(** The claimed job's own copy of the attempt is updated too. Source: catalogue-dump/ops/queue.py, start. *)
Definition start (job : ClaimedJob) (worker_id : Z) (trace_id : option string) (lease : Z) : db (bool * ClaimedJob) :=
  row ← update_job (c_id job)
    (fun s j => bool_decide (j_delivery_generation j = c_delivery_generation job)
                && owned_by worker_id (c_execution_token job) j && bool_decide (j_state j = leased)
                && match j_lease_expires_at j with Some t => db_now s <? t | None => false end
                && negb (j_cancel_requested j) && negb (j_pause_requested j))
    (fun s j => j <| j_state := running |>
                  <| j_attempt := j_attempt j + (if j_resume_without_attempt j then 0 else 1) |>
                  <| j_resume_without_attempt := false |>
                  <| j_started_at := coalesce (j_started_at j) (Some (db_now s)) |>
                  <| j_trace_id := coalesce trace_id (j_trace_id j) |>
                  <| j_lease_expires_at := Some (db_now s + seconds lease) |>);
  match row with
  | None => mret (false, job)
  | Some j =>
      let job := job <| c_attempt := j_attempt j |> in
      _ ← emit "job.started" (Some (c_run_id job)) (Some (c_id job)) (Some worker_id) (Some (c_source_id job));
      mret (true, job)
  end.

(** One job of a renewal. Source: catalogue-dump/ops/queue.py:244-253, renew. *)
Definition renew_one (worker_id lease : Z) (job : ClaimedJob) : db (option (Z * bool * bool)) :=
  row ← update_job (c_id job)
    (fun _ j => owned_by worker_id (c_execution_token job) j && executing (j_state j))
    (fun s j => j <| j_lease_expires_at := Some (db_now s + seconds lease) |>);
  mret ((fun j => (c_id job, j_cancel_requested j, j_pause_requested j)) <$> row).

(** Source: catalogue-dump/ops/queue.py, renew. *)
Fixpoint renew (jobs : list ClaimedJob) (worker_id lease : Z) : db (list (Z * bool * bool)) :=
  match jobs with
  | [] => mret []
  | job :: r => row ← renew_one worker_id lease job; held ← renew r worker_id lease;
                mret (match row with Some h => h :: held | None => held end)
  end.

(** Source: catalogue-dump/ops/queue.py, release. *)
Definition release (job : ClaimedJob) (worker_id delay : Z) : db bool :=
  row ← update_job (c_id job) (fun _ j => owned_by worker_id (c_execution_token job) j)
    (fun s j => without_lease j <| j_state := queued |> <| j_scheduled_for := db_now s + seconds delay |>);
  match row with
  | None => mret false
  | Some _ =>
      _ ← emit "job.released" (Some (c_run_id job)) (Some (c_id job)) (Some worker_id) (Some (c_source_id job));
      mret true
  end.

(** [array(select distinct unnest(requires || array[capability]) order by 1)]. Source:
    catalogue-dump/ops/queue.py:287-288, require_capability. *)
Definition with_capability (capability : string) (requires : list string) : list string :=
  sort_strs (remove_dups (requires ++ [capability])).

(** Source: catalogue-dump/ops/queue.py, require_capability. *)
Definition require_capability (job : ClaimedJob) (worker_id : Z) (capability : string) : db bool :=
  transaction (
    row ← update_job (c_id job)
      (fun _ j => owned_by worker_id (c_execution_token job) j && negb (bool_decide (capability ∈ j_requires j)))
      (fun _ j => without_lease j <| j_state := queued |>
                    <| j_requires := with_capability capability (j_requires j) |>
                    <| j_requires_any := if bool_decide (capability = "browser")
                                         then ["browser:camoufox"; "browser:cdp_extension_proxy"]
                                         else j_requires_any j |>
                    <| j_selected_browser_backend := None |> <| j_resume_without_attempt := true |>
                    <| j_delivery_generation := j_delivery_generation j + 1 |>);
    match row with
    | None => mret false
    | Some _ =>
        _ ← enqueue_job (c_id job) None;
        _ ← emit "job.requeued" (Some (c_run_id job)) (Some (c_id job)) (Some worker_id) (Some (c_source_id job));
        mret true
    end).

(** * Reconciling *)

(** Source: catalogue-dump/ops/queue.py:333-333, reconcile. *)
Definition expired (s : DB) (j : JobRow) : bool :=
  executing (j_state j) && match j_lease_expires_at j with Some t => t <? db_now s | None => false end.

Definition expires_before (p q : Z * JobRow) : Prop :=
  default 0 (j_lease_expires_at p.2) <= default 0 (j_lease_expires_at q.2).
#[export] Instance expires_before_dec p q : Decision (expires_before p q).
Proof. unfold expires_before. apply _. Defined.

(** Source: catalogue-dump/ops/queue.py:314-318, reconcile. *)
Definition expired_jobs (s : DB) : list Z :=
  (merge_sort expires_before (filter (fun p => expired s (snd p) = true) (map_to_list (db_jobs s)))).*1.

(** Source: catalogue-dump/ops/queue.py:324-337, reconcile. *)
Definition repaired_row (s : DB) (j : JobRow) : JobRow :=
  let spent := (j_max_attempts j <=? j_attempt j) && negb (j_resume_without_attempt j) in
  without_lease j <| j_state := if spent then failed else queued |>
    <| j_finished_at := if spent then Some (db_now s) else j_finished_at j |>
    <| j_error := if spent then coalesce (j_error j) (Some "lease expired with no attempts remaining")
                  else j_error j |>.

(** Source: catalogue-dump/ops/queue.py:320-339, reconcile. *)
Fixpoint repair_each (ids : list Z) : db (list (Z * JobRow)) :=
  match ids with
  | [] => mret []
  | id :: r => row ← update_job id expired repaired_row; rows ← repair_each r;
               mret (match row with Some j => (id, j) :: rows | None => rows end)
  end.

(** Source: catalogue-dump/ops/queue.py:344-352, reconcile. *)
Fixpoint close_failed (rows : list (Z * JobRow)) : db () :=
  match rows with
  | [] => mret ()
  | (id, j) :: r =>
      _ ← (if bool_decide (j_state j = failed) then
             _ ← emit "job.failed" (Some (j_run_id j)) (Some id) None (Some (j_source_id j));
             _ ← close_run_if_done (j_run_id j); mret ()
           else mret ());
      close_failed r
  end.

(** Source: catalogue-dump/ops/queue.py, reconcile. *)
Definition reconcile : db Z :=
  candidates ← gets expired_jobs;
  rows ← repair_each candidates;
  now ← gets db_now;
  _ ← clear_slots (fun h => match h_leased_until h with Some t => t <? now | None => false end);
  _ ← close_failed rows;
  mret (Z.of_nat (length rows)).

(** Source: catalogue-dump/ops/queue.py, cancel_requested. *)
Definition cancel_requested (id : Z) : db (bool * bool) :=
  row ← select_job id;
  mret (default false (j_cancel_requested <$> row), default false (j_pause_requested <$> row)).
