(* ===== verification/JobControl.v ===== *)
(** The operator's controls over jobs ([catalogue-control/.../queries.py] and
    [app.py]): pausing, resuming, cancelling and retrying one job, cancelling a
    run, pausing, resuming or disabling a source, and the worker's answer to a
    pause ([catalogue-dump/.../ops/worker.py]). *)
From S2P Require Export JobQueue.
Open Scope Z_scope.

(** The states an operator may cancel, and those that end at once when it does. Source:
    src/catalogue-control/src/catalogue_control/queries.py:257-257, CANCEL_JOB. *)
Definition idle (st : JobState) : bool := bool_decide (st ∈ [queued; leased; paused]).
(** Source: src/catalogue-control/src/catalogue_control/queries.py:263-263, CANCEL_JOB. *)
Definition cancellable (st : JobState) : bool := bool_decide (st ∈ [queued; leased; running; paused]).

(** [cancel_requested = true, state = case when state in ('queued', 'leased',
    'paused') then ... end, ...], which CANCEL_RUN, CANCEL_JOB and
    DISABLE_SOURCE_JOBS share up to the final state. Source:
    src/catalogue-control/src/catalogue_control/queries.py:254-265, CANCEL_JOB. *)
Definition cancelled_row (final : JobState) (s : DB) (j : JobRow) : JobRow :=
  if idle (j_state j) then
    without_lease j <| j_cancel_requested := true |> <| j_state := final |>
      <| j_finished_at := Some (db_now s) |>
      <| j_delivery_generation := j_delivery_generation j + 1 |>
  else j <| j_cancel_requested := true |>.

(** PAUSE_JOB, and PAUSE_SOURCE_JOBS with [by_source]. A queued job has no lease
    to clear. Source: src/catalogue-control/src/catalogue_control/queries.py:225-236, PAUSE_JOB. *)
Definition paused_row (by_source : bool) (j : JobRow) : JobRow :=
  let stops := bool_decide (j_state j = queued) || bool_decide (j_state j = leased) in
  let lease_col {A} (c : option A) := if bool_decide (j_state j = leased) then None else c in
  j <| j_pause_requested := bool_decide (j_state j = running) |>
    <| j_state := if stops then paused else j_state j |>
    <| j_paused_by_source := by_source |>
    <| j_lease_owner := lease_col (j_lease_owner j) |>
    <| j_lease_expires_at := lease_col (j_lease_expires_at j) |>
    <| j_execution_token := lease_col (j_execution_token j) |>
    <| j_delivery_generation := j_delivery_generation j + (if stops then 1 else 0) |>.

(** RESUME_JOB. Source: src/catalogue-control/src/catalogue_control/queries.py:238-252, RESUME_JOB. *)
Definition resumed_row (s : DB) (j : JobRow) : JobRow :=
  let was_paused := bool_decide (j_state j = paused) in
  let lease_col {A} (c : option A) := if was_paused then None else c in
  j <| j_pause_requested := false |>
    <| j_state := if was_paused then queued else j_state j |>
    <| j_resume_without_attempt := was_paused |>
    <| j_scheduled_for := db_now s |>
    <| j_lease_owner := lease_col (j_lease_owner j) |>
    <| j_execution_token := lease_col (j_execution_token j) |>
    <| j_delivery_generation := j_delivery_generation j + (if was_paused then 1 else 0) |>
    <| j_paused_by_source := false |>.

(** RETRY_JOB. Source: src/catalogue-control/src/catalogue_control/queries.py:267-285, RETRY_JOB. *)
Definition retried_row (s : DB) (j : JobRow) : JobRow :=
  without_lease j <| j_state := queued |> <| j_cancel_requested := false |> <| j_pause_requested := false |>
    <| j_attempt := 0 |> <| j_error := None |>
    <| j_delivery_generation := j_delivery_generation j + 1 |>
    <| j_finished_at := None |> <| j_scheduled_for := db_now s |>.

(** RESUME_SOURCE_JOBS. Source: src/catalogue-control/src/catalogue_control/queries.py:438-446, RESUME_SOURCE_JOBS. *)
Definition source_resumed_row (s : DB) (j : JobRow) : JobRow :=
  without_lease j <| j_state := queued |> <| j_pause_requested := false |> <| j_paused_by_source := false |>
    <| j_resume_without_attempt := true |> <| j_scheduled_for := db_now s |>
    <| j_delivery_generation := j_delivery_generation j + 1 |>.

Inductive JobAction := act_pause | act_resume | act_cancel | act_retry.
#[export] Instance JobAction_eq_dec : EqDecision JobAction.
Proof. solve_decision. Defined.

(** The statement of an action: the rows it applies to and what it does. Source:
    src/catalogue-control/src/catalogue_control/app.py:435-440, job_action. *)
Definition action_guard (a : JobAction) (j : JobRow) : bool :=
  match a with
  | act_pause => deliverable (j_state j)
  | act_resume => bool_decide (j_state j = paused) || j_pause_requested j
  | act_cancel => cancellable (j_state j)
  | act_retry => terminal (j_state j)
  end.
(** Source: src/catalogue-control/src/catalogue_control/app.py:435-447, job_action. *)
Definition action_row (a : JobAction) (s : DB) (j : JobRow) : JobRow :=
  match a with
  | act_pause => paused_row false j
  | act_resume => resumed_row s j
  | act_cancel => cancelled_row cancelled s j
  | act_retry => retried_row s j
  end.
Definition action_name (a : JobAction) : string :=
  match a with act_pause => "pause" | act_resume => "resume" | act_cancel => "cancel" | act_retry => "retry" end.

(** The HTTP status of the answer. Source: src/catalogue-control/src/catalogue_control/app.py:446-465, job_action. *)
Definition job_action (a : JobAction) (job_id : Z) : db Z :=
  transaction (
    row ← update_job job_id (fun _ => action_guard a) (action_row a);
    match row with
    | None => mret 409
    | Some j =>
        _ ← emit ("job." +:+ action_name a +:+ "_requested") (Some (j_run_id j)) (Some job_id) None (Some (j_source_id j));
        _ ← (if bool_decide (a = act_cancel) then _ ← close_run_if_done (j_run_id j); mret ()
             else if (bool_decide (a = act_resume) || bool_decide (a = act_retry)) && bool_decide (j_state j = queued)
             then _ ← enqueue_job job_id None; mret () else mret ());
        mret 202
    end).

(** [update catalogue.jobs set ... where <guard>] over several rows, in the
    order of the rows' ids. *)
Fixpoint update_each (ids : list Z) (guard : JobRow -> bool) (f : DB -> JobRow -> JobRow) : db (list (Z * JobRow)) :=
  match ids with
  | [] => mret []
  | id :: r => row ← update_job id (fun _ => guard) f; rows ← update_each r guard f;
               mret (match row with Some j => (id, j) :: rows | None => rows end)
  end.
Definition update_jobs (guard : JobRow -> bool) (f : DB -> JobRow -> JobRow) : db (list (Z * JobRow)) :=
  ids ← gets (fun s => (map_to_list (db_jobs s)).*1); update_each ids guard f.

Fixpoint for_each {A} (l : list A) (f : A -> db ()) : db () :=
  match l with
  | [] => mret ()
  | x :: r => _ ← f x; for_each r f
  end.

(** Source: src/catalogue-control/src/catalogue_control/app.py:410-421, cancel_run. *)
Definition cancel_run (run : Z) : db nat :=
  rows ← update_jobs (fun j => bool_decide (j_run_id j = run) && cancellable (j_state j)) (cancelled_row cancelled);
  _ ← for_each rows (fun p => emit "job.cancel_requested" (Some run) (Some p.1) None (Some (j_source_id p.2)));
  _ ← close_run_if_done run;
  mret (length rows).

(** The jobs of a source whose settings changed. Source: src/catalogue-control/src/catalogue_control/app.py:774-800, update_source. *)
Definition apply_source_settings (name : string) (was_paused enabled is_paused : bool) : db () :=
  _ ← (if negb enabled then
         rows ← update_jobs (fun j => bool_decide (j_source_id j = name) && cancellable (j_state j)) (cancelled_row skipped);
         for_each rows (fun p =>
           _ ← emit (if bool_decide (j_state p.2 = skipped) then "job.skipped" else "job.cancel_requested")
                    (Some (j_run_id p.2)) (Some p.1) None (Some name);
           if bool_decide (j_state p.2 = skipped) then _ ← close_run_if_done (j_run_id p.2); mret () else mret ())
       else mret ());
  _ ← (if enabled && is_paused then
         _ ← update_jobs (fun j => bool_decide (j_source_id j = name) && deliverable (j_state j)) (fun _ => paused_row true);
         mret ()
       else if enabled && was_paused then
         rows ← update_jobs (fun j => bool_decide (j_source_id j = name) && bool_decide (j_state j = paused)
                                      && j_paused_by_source j) source_resumed_row;
         for_each rows (fun p => _ ← enqueue_job p.1 None; mret ())
       else mret ());
  emit "source.changed" None None None (Some name).

(** A change of a source's settings and its effect on the source's jobs. Source:
    src/catalogue-control/src/catalogue_control/app.py:751-801, update_source. *)
Definition update_source (name : string) (enabled is_paused : option bool) (params : option (list (string * json))) : db () :=
  transaction (
    current ← gets (fun s => db_settings s !! name);
    let enabled := default (default true (ss_enabled <$> current)) enabled in
    let was_paused := default false (ss_paused <$> current) in
    let is_paused := default was_paused is_paused in
    let setting := {| ss_enabled := enabled; ss_paused := is_paused;
                      ss_params := default (default [] (ss_params <$> current)) params |} in
    _ ← modify (fun s => s <| db_settings := <[name := setting]> (db_settings s) |>);
    apply_source_settings name was_paused enabled is_paused).

(** * The worker's end of an execution *)

(** Source: catalogue-dump/ops/worker.py:1415-1434, Worker._finish. *)
Definition pause_execution (job : ClaimedJob) (summary : option JobSummary) (artifact : option Artifact) : db bool :=
  row ← update_job (c_id job) (fun _ j => bool_decide (j_execution_token j = Some (c_execution_token job)))
    (fun _ j => without_lease j <| j_state := paused |> <| j_pause_requested := false |>
      <| j_summary := coalesce summary (j_summary j) |>
      <| j_artifact_path := coalesce (art_path <$> artifact) (j_artifact_path j) |>
      <| j_artifact_sha256 := coalesce (a ← artifact; if truthy_text (art_sha256 a) then art_sha256 a else None)
                                       (j_artifact_sha256 j) |>
      <| j_artifact_size := coalesce (artifact ≫= art_size) (j_artifact_size j) |>);
  match row with
  | None => mret false
  | Some j =>
      _ ← emit "job.paused" (Some (j_run_id j)) (Some (c_id job)) None (Some (j_source_id j));
      mret true
  end.

(** Source: catalogue-dump/ops/worker.py:1403-1454, Worker._finish. *)
Definition finish_execution (job : ClaimedJob) (st : JobState) (summary : option JobSummary)
    (error : option string) (artifact : option Artifact) : db () :=
  flags ← cancel_requested (c_id job);
  if bool_decide (st = cancelled) && flags.2
  then _ ← pause_execution job summary artifact; mret ()
  else _ ← finish_job (c_id job) st summary error artifact (Some (c_execution_token job)); mret ().

(** The guard of the transaction that loads what an execution collected. Source:
    catalogue-dump/ops/worker.py:1381-1392, Worker._load_fenced. *)
Definition owns_execution (s : DB) (job : ClaimedJob) : bool :=
  match db_jobs s !! c_id job with
  | Some j => bool_decide (j_execution_token j = Some (c_execution_token job)) && bool_decide (j_state j = running)
  | None => false
  end.
