(* ===== verification/JobInvariant.v ===== *)
(** What every operation on the operational database preserves, and how it lets
    the database evolve: the lemmas behind the properties of [JobProperties]. *)
From S2P Require Export JobControl.
Open Scope Z_scope.

(** * The invariant *)

(** The lease columns are set exactly while a job is leased or running. *)
Definition lease_consistent (j : JobRow) : Prop :=
  if executing (j_state j)
  then is_some (j_lease_owner j) = true /\ is_some (j_lease_expires_at j) = true
       /\ is_some (j_execution_token j) = true
  else j_lease_owner j = None /\ j_lease_expires_at j = None /\ j_execution_token j = None.

(** [n] bounds the identifiers drawn so far. *)
Record job_ok (n : Z) (j : JobRow) : Prop := {
  jo_lease : lease_consistent j;
  jo_generation : 1 <= j_delivery_generation j;
  jo_attempt : 0 <= j_attempt j <= j_max_attempts j;
  jo_leased : j_state j = leased ->
    (j_attempt j < j_max_attempts j \/ j_resume_without_attempt j = true) /\ j_pause_requested j = false;
  jo_token : forall t, j_execution_token j = Some t -> t < n;
}.

(** A publication row belongs to a job, names a generation that job has had,
    and its payload is that generation's envelope. *)
Record outbox_ok (s : DB) (i : Z) (o : OutboxRow) : Prop := {
  oo_id : i < db_next_outbox s;
  oo_job : exists j, db_jobs s !! o_job_id o = Some j /\ o_generation o <= j_delivery_generation j;
  oo_payload : e_job_id (o_payload o) = o_job_id o /\ e_generation (o_payload o) = o_generation o
               /\ e_route (o_payload o) = o_route o;
}.

(** The run materialises occurrence [t] of schedule [k]. *)
Definition same_occurrence (k : string) (t : Z) (r : RunRow) : Prop :=
  r_schedule_id r = Some k /\ r_scheduled_fire_at r = Some t.

Record store_ok (s : DB) : Prop := {
  so_jobs : map_Forall (fun id j => id < db_next_uuid s /\ job_ok (db_next_uuid s) j) (db_jobs s);
  so_runs : map_Forall (fun id _ => id < db_next_uuid s) (db_runs s);
  so_outbox : map_Forall (outbox_ok s) (db_outbox s);
  so_unique : forall i i' o o', db_outbox s !! i = Some o -> db_outbox s !! i' = Some o' ->
    o_job_id o = o_job_id o' -> o_generation o = o_generation o' -> i = i';
  so_occurrences : forall i i' r r' k t, db_runs s !! i = Some r -> db_runs s !! i' = Some r' ->
    same_occurrence k t r -> same_occurrence k t r' -> i = i';
}.

(** * Evolution *)

(** [operator] admits the operator's retry, the one way out of a terminal
    state. *)
Record job_evolves (operator : bool) (n : Z) (j j' : JobRow) : Prop := {
  je_identity : j_run_id j' = j_run_id j /\ j_source_id j' = j_source_id j /\ j_max_attempts j' = j_max_attempts j;
  je_generation : j_delivery_generation j <= j_delivery_generation j';
  je_token : j_execution_token j' = j_execution_token j \/ j_execution_token j' = None
             \/ exists t, j_execution_token j' = Some t /\ n <= t;
  je_terminal : operator = false -> terminal (j_state j) = true ->
                j_state j' = j_state j /\ j_finished_at j' = j_finished_at j /\ j_error j' = j_error j
                /\ j_summary j' = j_summary j;
}.

Record evolves (operator : bool) (s s' : DB) : Prop := {
  ev_uuid : db_next_uuid s <= db_next_uuid s';
  ev_jobs : forall id j, db_jobs s !! id = Some j ->
    exists j', db_jobs s' !! id = Some j' /\ job_evolves operator (db_next_uuid s) j j';
}.

(** [s] is a consistent database that [s0] may have become. *)
Definition good (operator : bool) (s0 s : DB) : Prop := store_ok s /\ evolves operator s0 s.

Lemma job_evolves_refl op n j : job_evolves op n j j.
Proof. split; auto; lia. Qed.

Lemma job_evolves_trans op n n' j1 j2 j3 :
  n <= n' -> job_evolves op n j1 j2 -> job_evolves op n' j2 j3 -> job_evolves op n j1 j3.
Proof.
intros Hn [(I1 & I2 & I3) G T Z] [(I1' & I2' & I3') G' T' Z']. split.
- split_and!; congruence.
- lia.
- destruct T' as [T'|[T'|(t & T' & Ht)]]; [|auto|].
  + rewrite T'. destruct T as [T|[T|(t & T & Ht)]]; [auto|auto|]. right. right. exists t. auto.
  + right. right. exists t. split; [done|lia].
- intros Ho Ht. destruct (Z Ho Ht) as (A & B & C & D).
  destruct (Z' Ho) as (A' & B' & C' & D'); [by rewrite A|]. split_and!; congruence.
Qed.

Lemma evolves_refl op s : evolves op s s.
Proof. split; [lia|]. intros id j Hj. exists j. split; [done|apply job_evolves_refl]. Qed.

Lemma evolves_trans op s1 s2 s3 : evolves op s1 s2 -> evolves op s2 s3 -> evolves op s1 s3.
Proof.
intros [U1 J1] [U2 J2]. split; [lia|]. intros id j Hj.
destruct (J1 id j Hj) as (j2 & Hj2 & E1). destruct (J2 id j2 Hj2) as (j3 & Hj3 & E2).
exists j3. split; [done|]. by eapply job_evolves_trans.
Qed.

Lemma job_ok_mono n n' j : n <= n' -> job_ok n j -> job_ok n' j.
Proof. intros Hn [L G A S T]. split; auto. intros t Ht. specialize (T t Ht). lia. Qed.

(** * One job *)

Lemma good_put_job op s0 s id j j' :
  good op s0 s -> db_jobs s !! id = Some j ->
  job_ok (db_next_uuid s) j' -> job_evolves op (db_next_uuid s0) j j' ->
  good op s0 (s <| db_jobs := <[id := j']> (db_jobs s) |>).
Proof.
intros [[Hj Hr Ho Hu Hc] [U J]] Hid Hok Hev. split.
- split; simpl.
  + apply map_Forall_insert_2; [split; [exact (proj1 (Hj id j Hid))|exact Hok]|exact Hj].
  + done.
  + intros i o Hio. destruct (Ho i o Hio) as [O1 (k & Hk & Hg) O3]. split; [done| |done]. simpl.
    destruct (decide (id = o_job_id o)) as [->|Hne].
    * exists j'. rewrite lookup_insert_eq. split; [done|]. assert (k = j) as -> by congruence.
      destruct Hev. lia.
    * exists k. by rewrite lookup_insert_ne.
  + done.
  + done.
- split; simpl; [done|]. intros i k Hk. destruct (J i k Hk) as (k' & Hk' & E).
  destruct (decide (id = i)) as [->|Hne].
  + exists j'. rewrite lookup_insert_eq. split; [done|]. assert (k' = j) as -> by congruence.
    by eapply (job_evolves_trans _ _ (db_next_uuid s0)).
  + exists k'. by rewrite lookup_insert_ne.
Qed.

Lemma good_update_job op s0 s id guard f :
  good op s0 s ->
  (forall j, db_jobs s !! id = Some j -> job_ok (db_next_uuid s) j -> guard s j = true ->
     job_ok (db_next_uuid s) (f s j) /\ job_evolves op (db_next_uuid s0) j (f s j)) ->
  good op s0 (update_job id guard f s).2.
Proof.
intros Hg Hf. rewrite update_job_spec. destruct (db_jobs s !! id) as [j|] eqn:Hj; [|done].
destruct (guard s j) eqn:E; [|done].
destruct (Hf j eq_refl (proj2 (so_jobs s (proj1 Hg) id j Hj)) E). simpl. by eapply good_put_job.
Qed.

Lemma keeps_update_job op s0 id guard f :
  (forall s j n0, guard s j = true -> job_ok (db_next_uuid s) j ->
     job_ok (db_next_uuid s) (f s j) /\ job_evolves op n0 j (f s j)) ->
  keeps (good op s0) (update_job id guard f).
Proof. intros Hf s Hs. apply good_update_job; auto. Qed.

(** * Statements that leave the jobs alone *)

(** A statement that changes neither the jobs, the outbox nor the identifiers,
    and adds no run. *)
Lemma good_frame op s0 s s' :
  good op s0 s ->
  db_jobs s' = db_jobs s -> db_outbox s' = db_outbox s -> db_next_uuid s' = db_next_uuid s ->
  db_next_outbox s' = db_next_outbox s ->
  (forall i r', db_runs s' !! i = Some r' -> exists r, db_runs s !! i = Some r
     /\ r_schedule_id r' = r_schedule_id r /\ r_scheduled_fire_at r' = r_scheduled_fire_at r) ->
  good op s0 s'.
Proof.
intros [[Hj Hr Ho Hu Hc] [U J]] Fj Fo Fu Fx Fr. split; split; rewrite ?Fj, ?Fo, ?Fu; auto.
- intros i r' Hi. destruct (Fr i r' Hi) as (r & Hi' & _). by apply (Hr i r).
- intros i o Hio. destruct (Ho i o Hio) as [O1 O2 O3]. split; rewrite ?Fx, ?Fj; auto.
- intros i i' r r' k t Hi Hi' [E1 E2] [E1' E2'].
  destruct (Fr i r Hi) as (q & Hq & F1 & F2), (Fr i' r' Hi') as (q' & Hq' & F1' & F2').
  apply (Hc i i' q q' k t Hq Hq'); split; congruence.
Qed.

Lemma keeps_frame op s0 (f : DB -> DB) :
  (forall s, db_jobs (f s) = db_jobs s /\ db_outbox (f s) = db_outbox s /\ db_next_uuid (f s) = db_next_uuid s
             /\ db_next_outbox (f s) = db_next_outbox s /\ db_runs (f s) = db_runs s) ->
  keeps (good op s0) (modify f : db ()).
Proof.
intros F s Hs. destruct (F s) as (Fj & Fo & Fu & Fx & Fr). apply wp_modify.
apply (good_frame op s0 s); auto. rewrite Fr. eauto.
Qed.

Lemma keeps_emit_event op s0 t r j w src : keeps (good op s0) (emit t r j w src).
Proof. by apply keeps_frame. Qed.
Lemma keeps_clear_slots op s0 g : keeps (good op s0) (clear_slots g).
Proof. by apply keeps_frame. Qed.
Lemma keeps_promote op s0 run : keeps (good op s0) (promote_canonicals run).
Proof. apply keeps_frame; intros s; by destruct (existsb _ _). Qed.

Lemma keeps_update_run op s0 id guard f :
  (forall s r, r_schedule_id (f s r) = r_schedule_id r /\ r_scheduled_fire_at (f s r) = r_scheduled_fire_at r) ->
  keeps (good op s0) (update_run id guard f).
Proof.
intros Hf s Hs. unfold wp, update_run. destruct (db_runs s !! id) as [r|] eqn:Hr; [|done].
destruct (guard r); [|done]. simpl. apply (good_frame op s0 s); try done. simpl.
intros i r' [[<- <-]|[_ Hi]]%lookup_insert_Some; [|by eauto]. destruct (Hf s r). by exists r.
Qed.
#[export] Hint Extern 1 (keeps _ (update_run _ _ _)) => apply keeps_update_run; done : keeps.
#[export] Hint Resolve keeps_emit_event keeps_clear_slots keeps_promote : keeps.

Lemma keeps_close_run op s0 run : keeps (good op s0) (close_run_if_done run).
Proof. unfold close_run_if_done. eauto 20 with keeps. Qed.
#[export] Hint Resolve keeps_close_run : keeps.

Lemma keeps_start_run op s0 run : keeps (good op s0) (start_run run).
Proof. unfold start_run. eauto 20 with keeps. Qed.
#[export] Hint Resolve keeps_start_run : keeps.

(** * Identifiers and insertions *)

Lemma good_next op s0 s : good op s0 s -> good op s0 (s <| db_next_uuid := db_next_uuid s + 1 |>).
Proof.
intros [[Hj Hr Ho Hu Hc] [U J]]. split; split; simpl; auto; [..|lia].
- intros i j Hi. destruct (Hj i j Hi). split; [lia|]. eapply job_ok_mono; [|done]. lia.
- intros i r Hi. pose proof (Hr i r Hi). simpl in *. lia.
- intros i o Hio. destruct (Ho i o Hio) as [O1 O2 O3]. by split.
Qed.

Lemma keeps_new_uuid op s0 : keeps (good op s0) new_uuid.
Proof. intros s Hs. by apply good_next. Qed.
#[export] Hint Resolve keeps_new_uuid : keeps.

Lemma occurrence_taken_false s k t :
  occurrence_taken s (Some k) (Some t) = false ->
  forall i r, db_runs s !! i = Some r -> ~ same_occurrence k t r.
Proof.
intros H i r Hi [E1 E2]. simpl in H. apply not_true_iff_false in H. apply H.
apply existsb_exists. exists r. rewrite E1, E2, !bool_decide_true by done. split; [|done].
apply list_elem_of_In, list_elem_of_fmap. exists (i, r). split; [done|]. by apply elem_of_map_to_list.
Qed.

Lemma good_insert_run op s0 s r :
  good op s0 s -> occurrence_taken s (r_schedule_id r) (r_scheduled_fire_at r) = false ->
  good op s0 (s <| db_next_uuid := db_next_uuid s + 1 |> <| db_runs := <[db_next_uuid s := r]> (db_runs s) |>).
Proof.
intros Hs Ht. pose proof (good_next op s0 s Hs) as [[Hj Hr Ho Hu Hc] [U J]].
split; split; simpl in *; auto.
- apply map_Forall_insert_2; [lia|done].
- intros i o Hi. destruct (Ho i o Hi). by split.
- intros i i' q q' k t Hi Hi' E E'.
  apply lookup_insert_Some in Hi as [[<- <-]|[_ Hi]], Hi' as [[<- <-]|[_ Hi']]; [done| | |by eapply Hc].
  + destruct E as [E1 E2]. rewrite E1, E2 in Ht. by destruct (occurrence_taken_false s k t Ht i' q' Hi').
  + destruct E' as [E1 E2]. rewrite E1, E2 in Ht. by destruct (occurrence_taken_false s k t Ht i q Hi).
Qed.

Lemma keeps_create_run op s0 kind by_ params sid at_ : keeps (good op s0) (create_run kind by_ params sid at_).
Proof.
unfold create_run. intros s Hs. apply wp_bind, wp_gets.
destruct (occurrence_taken s sid at_) eqn:Ht; [done|].
pose (r := {| r_kind := kind; r_schedule_id := sid; r_scheduled_fire_at := at_; r_requested_by := by_;
              r_params := params; r_status := run_queued; r_started_at := None; r_finished_at := None;
              r_summary := None |}).
exact (keeps_emit_event op s0 "run.created" (Some (db_next_uuid s)) None None None _ (good_insert_run op s0 s r Hs Ht)).
Qed.
#[export] Hint Resolve keeps_create_run : keeps.

Lemma outbox_for_None s id g :
  outbox_for s id g = None <-> forall i o, db_outbox s !! i = Some o -> ~ (o_job_id o = id /\ o_generation o = g).
Proof.
unfold outbox_for. destruct (list_find _ _) as [[k p]|] eqn:E; simpl.
- split; [done|]. intros H. exfalso. apply list_find_Some in E as (Hk & HP & _).
  apply list_elem_of_lookup_2 in Hk. destruct p as [i o]. apply elem_of_map_to_list in Hk. by apply (H i o).
- split; [|done]. intros _ i o Hio HP. apply list_find_None in E. rewrite Forall_forall in E.
  apply (E (i, o)); [by apply elem_of_map_to_list|done].
Qed.

Lemma outbox_for_Some s id g i o :
  outbox_for s id g = Some (i, o) -> db_outbox s !! i = Some o /\ o_job_id o = id /\ o_generation o = g.
Proof.
unfold outbox_for. destruct (list_find _ _) as [[k p]|] eqn:E; simpl; [|done]. intros [= ->].
apply list_find_Some in E as (Hk & HP & _). apply list_elem_of_lookup_2, elem_of_map_to_list in Hk. done.
Qed.

Lemma keeps_insert_generation op s0 id route at_ : keeps (good op s0) (insert_generation id route at_).
Proof.
intros s Hs. unfold wp, insert_generation. destruct (db_jobs s !! id) as [j|] eqn:Hj; [|done].
destruct (terminal (j_state j)); [done|].
destruct (outbox_for s id (j_delivery_generation j)) eqn:Ho; [done|]. rewrite outbox_for_None in Ho.
destruct Hs as [[Ij Ir Io Iu Ic] [U J]]. split; split; simpl; auto.
- apply map_Forall_insert_2.
  + split; simpl; [lia| |done]. exists j. split; [done|lia].
  + intros i o Hi. destruct (Io i o Hi) as [O1 O2 O3]. split; simpl; [lia|done|done].
- assert (Hfresh : db_outbox s !! db_next_outbox s = None).
  { destruct (db_outbox s !! db_next_outbox s) eqn:E; [|done]. pose proof (oo_id _ _ _ (Io _ _ E)). lia. }
  intros i i' o o' Hi Hi' Hjob Hgen.
  apply lookup_insert_Some in Hi as [[<- <-]|[Hne Hi]], Hi' as [[<- <-]|[Hne' Hi']]; simpl in *; [done| | |by eapply Iu].
  + destruct (Ho i' o' Hi'). done.
  + destruct (Ho i o Hi). done.
Qed.

Lemma keeps_enqueue_job op s0 id at_ : keeps (good op s0) (enqueue_job id at_).
Proof.
unfold enqueue_job, job_route. apply keeps_bind; [|intros; apply keeps_insert_generation].
apply keeps_bind; [apply keeps_select_job|]. intros [j|]; [apply keeps_ret|apply keeps_throw].
Qed.
#[export] Hint Resolve keeps_enqueue_job : keeps.

Lemma keeps_enqueue_all op s0 ids : keeps (good op s0) (enqueue_all ids).
Proof. induction ids as [|i ids IH]; simpl; eauto with keeps. Qed.

Lemma keeps_insert_job op s0 row :
  (forall s, job_ok (db_next_uuid s) (row s)) -> keeps (good op s0) (insert_job row).
Proof.
intros Hrow s Hs. unfold wp, insert_job. destruct (existsb _ _); [done|].
pose proof (good_next op s0 s Hs) as [[Hj Hr Ho Hu Hc] [U J]].
assert (Hfresh : db_jobs s !! db_next_uuid s = None).
{ destruct (db_jobs s !! db_next_uuid s) as [j|] eqn:E; [|done].
  pose proof (proj1 (so_jobs s (proj1 Hs) _ _ E)). simpl in *. lia. }
split; split; simpl in *; auto.
- apply map_Forall_insert_2; [|done]. split; [lia|]. eapply job_ok_mono; [|apply Hrow]. lia.
- intros i o Hi. destruct (Ho i o Hi) as [O1 (k & Hk & Hg) O3]. split; simpl; [done| |done].
  exists k. split; [|done]. rewrite lookup_insert_ne; [done|]. intros Heq. rewrite <- Heq in Hk. simpl in Hk. congruence.
- intros i k Hi. destruct (J i k Hi) as (k' & Hk' & E). exists k'. split; [|done].
  rewrite lookup_insert_ne; [done|]. intros <-. congruence.
Qed.

Lemma new_job_ok s run name host config snap prio max pos :
  0 <= max -> job_ok (db_next_uuid s) (new_job s run name host config snap prio max pos).
Proof. intros. split; simpl; try done; lia. Qed.

Lemma keeps_create_jobs op s0 run sources selected prio max :
  0 <= max -> keeps (good op s0) (create_jobs run sources selected prio max).
Proof.
intros Hmax. unfold create_jobs. apply keeps_bind; [|eauto 20 with keeps].
generalize (∅ : gmap string Z, [] : list (string * Z)).
induction selected as [|name l IH]; intros st; simpl; [apply keeps_ret|].
apply keeps_bind; [|intros; apply IH]. unfold create_job. destruct st as [seen created].
pose proof (keeps_insert_job op s0).
apply keeps_bind; [apply keeps_gets|]. intros setting. destruct (bool_decide _); [apply keeps_ret|].
repeat (apply keeps_bind; [eauto using new_job_ok with keeps|intros ?]).
case_match; eauto with keeps.
Qed.

(** * Jobs *)

(** Unfold the rows the operations write. *)
Ltac row_simpl :=
  unfold finished_row, cancelled_row, paused_row, resumed_row, retried_row, source_resumed_row, repaired_row,
    without_lease, owned_by, expired in *; simpl in *.

(** A row that gives its lease up, stays unleased and keeps its counters. *)
Lemma job_ok_released n j j' :
  job_ok n j -> executing (j_state j') = false ->
  j_lease_owner j' = None -> j_lease_expires_at j' = None -> j_execution_token j' = None ->
  j_delivery_generation j <= j_delivery_generation j' ->
  j_max_attempts j' = j_max_attempts j -> j_attempt j' = j_attempt j ->
  job_ok n j'.
Proof.
intros [L G A S T] He Ho Hx Ht Hg Hm Ha. split.
- unfold lease_consistent. by rewrite He.
- lia.
- lia.
- intros Hs. rewrite Hs in He. done.
- rewrite Ht. done.
Qed.

(** A job holding a token or a lease is not terminal. *)
Lemma token_executing n j t : job_ok n j -> j_execution_token j = Some t -> executing (j_state j) = true.
Proof.
intros [L _ _ _ _] Ht. unfold lease_consistent in L. destruct (executing _); [done|].
destruct L as (_ & _ & L). congruence.
Qed.

Lemma executing_not_terminal st : executing st = true -> terminal st = true -> False.
Proof. by destruct st. Qed.

(** An update that only touches jobs that are not terminal evolves them. *)
Lemma job_evolves_open op n j j' :
  j_run_id j' = j_run_id j -> j_source_id j' = j_source_id j -> j_max_attempts j' = j_max_attempts j ->
  j_delivery_generation j <= j_delivery_generation j' ->
  (j_execution_token j' = j_execution_token j \/ j_execution_token j' = None
   \/ exists t, j_execution_token j' = Some t /\ n <= t) ->
  (op = true \/ terminal (j_state j) = false) ->
  job_evolves op n j j'.
Proof. intros. split; auto. intros -> Ht. destruct_or?; congruence. Qed.

Lemma finished_row_ok op n0 n s st summary error artifact j :
  terminal st = true -> (op = true \/ terminal (j_state j) = false) -> job_ok n j ->
  job_ok n (finished_row s st summary error artifact j)
  /\ job_evolves op n0 j (finished_row s st summary error artifact j).
Proof.
intros Hst Hop Hj. split.
- apply (job_ok_released n j); try done. by apply terminal_executing.
- apply job_evolves_open; simpl; auto; lia.
Qed.

Lemma keeps_finish_job op s0 id st summary error artifact token :
  op = true \/ is_some token = true ->
  keeps (good op s0) (finish_job id st summary error artifact token).
Proof.
intros Htok. unfold finish_job. destruct (terminal st) eqn:Hst; [|by intros s Hs].
apply keeps_bind; [apply keeps_lift|]. intros _. apply keeps_transaction, keeps_bind.
- apply keeps_update_job. intros s j n0 Hg Hj. apply finished_row_ok; [done| |done].
  destruct Htok as [?|Htok]; [auto|]. right. destruct token as [t|]; [|done]. simpl in Hg. bool_facts.
  pose proof (token_executing _ _ _ Hj Hg). by destruct (j_state j).
- intros [j|]; [|apply keeps_ret]. apply keeps_bind; [by apply keeps_frame|]. eauto 10 with keeps.
Qed.

Lemma keeps_record_job_start op s0 id trace : keeps (good op s0) (record_job_start id trace).
Proof.
unfold record_job_start. apply keeps_bind; [|intros; by apply keeps_frame].
apply keeps_update_job. intros s j n0 _ [L G A S T]. split; [by split|].
split; simpl; auto; lia.
Qed.
#[export] Hint Resolve keeps_record_job_start keeps_enqueue_all keeps_create_jobs : keeps.

(** * Reserving *)

(** [holds op s0 m s]: running [m] from [s] leaves a good database. *)
Abbreviation holds op s0 m s := (wp m (fun _ s' => good op s0 s') s).

Lemma holds_update_then {A} op s0 id guard f (k : option JobRow -> db A) s :
  good op s0 s ->
  (forall j, db_jobs s !! id = Some j -> job_ok (db_next_uuid s) j -> guard s j = true ->
     job_ok (db_next_uuid s) (f s j) /\ job_evolves op (db_next_uuid s0) j (f s j)) ->
  (forall r, keeps (good op s0) (k r)) ->
  holds op s0 (update_job id guard f ≫= k) s.
Proof.
intros Hg Hf Hk. apply wp_bind. pose proof (good_update_job op s0 s id guard f Hg Hf) as H.
unfold wp. destruct (update_job id guard f s) as [[r|e] s'] eqn:E; simpl in *; [by apply Hk|done].
Qed.

Lemma holds_retire op s0 s id j st :
  good op s0 s -> db_jobs s !! id = Some j -> terminal (j_state j) = false -> terminal st = true ->
  holds op s0 (retire_job id j st) s.
Proof.
intros Hg Hj Ht Hst. apply holds_update_then; [done| |eauto 20 with keeps].
intros j' Hj' Hok _. assert (j' = j) as -> by congruence. split.
- apply (job_ok_released _ j); try done. by apply terminal_executing.
- apply job_evolves_open; simpl; auto; lia.
Qed.

Lemma holds_exhaust op s0 s id j :
  good op s0 s -> db_jobs s !! id = Some j -> terminal (j_state j) = false ->
  holds op s0 (exhaust_job id j) s.
Proof.
intros Hg Hj Ht. apply holds_update_then; [done| |eauto 20 with keeps].
intros j' Hj' Hok _. assert (j' = j) as -> by congruence. split.
- by apply (job_ok_released _ j).
- apply job_evolves_open; simpl; auto; lia.
Qed.

Lemma rerouted_row_ok op n0 n j selected :
  job_ok n j -> terminal (j_state j) = false ->
  let j' := j <| j_selected_browser_backend := selected |>
              <| j_delivery_generation := j_delivery_generation j + 1 |> in
  job_ok n j' /\ job_evolves op n0 j j'.
Proof.
intros [L G A S T] Ht j'. split.
- split; [done|simpl; lia|done..].
- apply job_evolves_open; [done..|simpl; lia|by left|by right].
Qed.

Lemma holds_reroute op s0 s id j selected :
  good op s0 s -> db_jobs s !! id = Some j -> terminal (j_state j) = false ->
  holds op s0 (reroute_job id selected) s.
Proof.
intros Hg Hj Ht. apply holds_update_then; [done| |eauto 20 with keeps].
intros j' Hj' Hok _. assert (j' = j) as -> by congruence. by apply rerouted_row_ok.
Qed.

Lemma claimed_row_ok op n0 n j worker token backend until :
  job_ok n j -> terminal (j_state j) = false ->
  (j_attempt j < j_max_attempts j \/ j_resume_without_attempt j = true) -> j_pause_requested j = false ->
  n0 <= token < n ->
  let j' := j <| j_state := leased |> <| j_lease_owner := Some worker |> <| j_execution_token := Some token |>
              <| j_selected_browser_backend := coalesce (j_selected_browser_backend j) backend |>
              <| j_lease_expires_at := Some until |> in
  job_ok n j' /\ job_evolves op n0 j j'.
Proof.
intros [L G A S T] Ht Hat Hp Hn j'. split.
- split; [done|exact G|exact A|intros _; exact (conj Hat Hp)|]. intros t [= <-]. lia.
- apply job_evolves_open; [done..|exact (Z.le_refl _)| |by right].
  right. right. exists token. split; [done|lia].
Qed.

Lemma holds_claim op s0 s envelope worker params selected lease j :
  good op s0 s -> db_jobs s !! e_job_id envelope = Some j -> terminal (j_state j) = false ->
  (j_attempt j < j_max_attempts j \/ j_resume_without_attempt j = true) -> j_pause_requested j = false ->
  holds op s0 (claim_job envelope worker params selected lease) s.
Proof.
intros Hg Hj Ht Hat Hp. unfold claim_job. apply wp_bind. unfold wp at 1. simpl.
pose proof (good_next op s0 s Hg) as Hg'. pose proof (ev_uuid _ _ _ (proj2 Hg)) as Hle.
set (s1 := s <| db_next_uuid := _ |>) in *.
apply holds_update_then; [done| |intros [?|]; eauto 20 with keeps].
intros j' Hj' Hok _. change (db_jobs s1) with (db_jobs s) in Hj'. assert (j' = j) as -> by congruence.
change (db_next_uuid s1) with (db_next_uuid s + 1). by apply claimed_row_ok; [..|lia].
Qed.

Lemma holds_reserve_live op s0 s envelope worker capabilities lease params is_paused j :
  good op s0 s -> db_jobs s !! e_job_id envelope = Some j -> terminal (j_state j) = false ->
  holds op s0 (reserve_live envelope worker capabilities lease params is_paused j) s.
Proof.
intros Hg Hj Ht. unfold reserve_live.
destruct (is_paused || j_pause_requested j || bool_decide (j_state j = paused)) eqn:Ep; [done|].
apply wp_bind, wp_gets. destruct (db_now s <? j_scheduled_for j); [done|].
apply wp_bind, wp_lift. destruct (lease_live j (db_now s)) as [[|]|e]; [done| |done].
destruct ((j_max_attempts j <=? j_attempt j) && negb (j_resume_without_attempt j)) eqn:Ea.
{ by eapply holds_exhaust. }
unfold reserve_available. case_match; [done|]. destruct (select_backend _ _ _) as [selected|]; [|done].
destruct (backend_unavailable _ _); [done|]. destruct (bool_decide (_ ≠ e_route envelope)); [by eapply holds_reroute|].
bool_facts. eapply holds_claim; try done. destruct Ea; bool_facts; auto.
Qed.

Lemma keeps_reserve op s0 envelope worker capabilities lease :
  keeps (good op s0) (reserve envelope worker capabilities lease).
Proof.
apply keeps_transaction. intros s Hg. apply wp_bind, wp_gets.
destruct (db_jobs s !! e_job_id envelope) as [j|] eqn:Hj; [|done].
do 3 apply wp_bind, wp_gets. case_bool_decide; [done|].
destruct (terminal (j_state j)) eqn:Ht; [done|].
destruct (_ || _); [|by apply holds_reserve_live].
apply holds_retire; auto. by destruct (negb _).
Qed.

(** * The executions' own mutations *)

Lemma started_row_ok op n0 n j trace now until :
  job_ok n j -> j_state j = leased ->
  let j' := j <| j_state := running |>
              <| j_attempt := j_attempt j + (if j_resume_without_attempt j then 0 else 1) |>
              <| j_resume_without_attempt := false |>
              <| j_started_at := coalesce (j_started_at j) (Some now) |>
              <| j_trace_id := coalesce trace (j_trace_id j) |>
              <| j_lease_expires_at := Some until |> in
  job_ok n j' /\ job_evolves op n0 j j'.
Proof.
intros [L G A S T] Hs j'. destruct (S Hs) as [Hat Hp].
unfold lease_consistent in L. rewrite Hs in L. destruct L as (L1 & L2 & L3). split.
- split; [done|done| |done|done].
  simpl. destruct (j_resume_without_attempt j), Hat; try done; lia.
- apply job_evolves_open; [done..|exact (Z.le_refl _)|by left|]. right. by rewrite Hs.
Qed.

Lemma keeps_start op s0 job worker trace lease : keeps (good op s0) (start job worker trace lease).
Proof.
unfold start. apply keeps_bind; [|intros [?|]; eauto with keeps].
apply keeps_update_job. intros s j n0 Hg Hj. apply started_row_ok; [done|]. by bool_facts.
Qed.

Lemma renewed_row_ok op n0 n j until :
  job_ok n j -> executing (j_state j) = true ->
  let j' := j <| j_lease_expires_at := Some until |> in
  job_ok n j' /\ job_evolves op n0 j j'.
Proof.
intros [L G A S T] He j'. split.
- split; [|done..]. unfold lease_consistent in *. change (j_state j') with (j_state j).
  rewrite He in *. by destruct L as (? & _ & ?).
- apply job_evolves_open; [done..|exact (Z.le_refl _)|by left|]. right. by destruct (j_state j).
Qed.

Lemma keeps_renew op s0 jobs worker lease : keeps (good op s0) (renew jobs worker lease).
Proof.
induction jobs as [|job jobs IH]; simpl; [apply keeps_ret|].
apply keeps_bind; [|intros; apply keeps_bind; [done|intros; apply keeps_ret]].
unfold renew_one. apply keeps_bind; [|intros; apply keeps_ret].
apply keeps_update_job. intros s j n0 Hg Hj. apply renewed_row_ok; [done|]. by bool_facts.
Qed.

(** A lease its token guards is given up. *)
Lemma released_by_token op n0 n j j' t :
  job_ok n j -> j_execution_token j = Some t ->
  j_run_id j' = j_run_id j -> j_source_id j' = j_source_id j ->
  j_max_attempts j' = j_max_attempts j -> j_attempt j' = j_attempt j ->
  j_delivery_generation j <= j_delivery_generation j' -> executing (j_state j') = false ->
  j_lease_owner j' = None -> j_lease_expires_at j' = None -> j_execution_token j' = None ->
  job_ok n j' /\ job_evolves op n0 j j'.
Proof.
intros Hj Ht. intros. split; [by apply (job_ok_released n j)|].
apply job_evolves_open; auto. right. pose proof (token_executing _ _ _ Hj Ht). by destruct (j_state j).
Qed.

Lemma keeps_release op s0 job worker delay : keeps (good op s0) (release job worker delay).
Proof.
unfold release. apply keeps_bind; [|intros [?|]; eauto with keeps].
apply keeps_update_job. intros s j n0 Hg Hj. unfold owned_by in Hg. bool_facts.
eapply released_by_token; try done.
Qed.

Lemma keeps_require_capability op s0 job worker cap : keeps (good op s0) (require_capability job worker cap).
Proof.
unfold require_capability. apply keeps_transaction, keeps_bind; [|intros [?|]; eauto with keeps].
apply keeps_update_job. intros s j n0 Hg Hj. unfold owned_by in Hg. bool_facts.
eapply released_by_token; try done. simpl; lia.
Qed.

Lemma keeps_pause_execution op s0 job summary artifact : keeps (good op s0) (pause_execution job summary artifact).
Proof.
unfold pause_execution. apply keeps_bind; [|intros [?|]; eauto with keeps].
apply keeps_update_job. intros s j n0 Hg Hj. unfold owned_by in Hg. bool_facts.
eapply released_by_token; try done.
Qed.

Lemma keeps_finish_execution op s0 job st summary error artifact :
  keeps (good op s0) (finish_execution job st summary error artifact).
Proof.
unfold finish_execution, cancel_requested. apply keeps_bind; [eauto with keeps|]. intros flags.
destruct (_ && _); (apply keeps_bind; [|intros; apply keeps_ret]).
- apply keeps_pause_execution.
- apply keeps_finish_job. by right.
Qed.

Lemma repaired_row_ok op n0 n s j :
  job_ok n j -> executing (j_state j) = true ->
  job_ok n (repaired_row s j) /\ job_evolves op n0 j (repaired_row s j).
Proof.
intros Hj He. split.
- apply (job_ok_released n j); try done. unfold repaired_row. simpl. by destruct (_ && _).
- apply job_evolves_open; [done..|exact (Z.le_refl _)|by right; left|]. right. by destruct (j_state j).
Qed.

Lemma keeps_reconcile op s0 : keeps (good op s0) reconcile.
Proof.
unfold reconcile. apply keeps_bind; [apply keeps_gets|]. intros ids. apply keeps_bind.
- induction ids as [|i ids IH]; simpl; [apply keeps_ret|]. apply keeps_bind; [|eauto with keeps].
  apply keeps_update_job. intros s j n0 Hg Hj. apply repaired_row_ok; [done|].
  unfold expired in Hg. by bool_facts.
- intros rows. do 2 (apply keeps_bind; [eauto with keeps|intros]).
  apply keeps_bind; [|eauto with keeps].
  induction rows as [|[i j] rows IH]; simpl; [apply keeps_ret|]. eauto 20 with keeps.
Qed.
#[export] Hint Resolve keeps_reserve keeps_start keeps_renew keeps_release keeps_require_capability
  keeps_pause_execution keeps_finish_execution keeps_reconcile : keeps.

(** * Publication *)

(** An update of publication rows that keeps what they publish. *)
Lemma good_map_outbox op s0 s (g : OutboxRow -> OutboxRow) :
  (forall o, o_job_id (g o) = o_job_id o /\ o_generation (g o) = o_generation o /\ o_route (g o) = o_route o
             /\ o_payload (g o) = o_payload o) ->
  good op s0 s -> good op s0 (s <| db_outbox := g <$> db_outbox s |>).
Proof.
intros Hf [[Hj Hr Ho Hu Hc] E]. split; [|by destruct E; split]. split; simpl; [done|done| | |done].
- intros i o Hi. rewrite lookup_fmap in Hi. destruct (db_outbox s !! i) as [o'|] eqn:Hi'; simplify_eq/=.
  destruct (Ho i o' Hi') as [O1 O2 O3]. destruct (Hf o') as (F1 & F2 & F3 & F4).
  split; simpl; rewrite ?F1, ?F2, ?F3, ?F4; done.
- intros i i' o o' Hi Hi'. rewrite lookup_fmap in Hi, Hi'.
  destruct (db_outbox s !! i) as [p|] eqn:Hp, (db_outbox s !! i') as [p'|] eqn:Hp'; simplify_eq/=.
  destruct (Hf p) as (F1 & F2 & _), (Hf p') as (F1' & F2' & _). rewrite F1, F1', F2, F2'. by apply Hu.
Qed.

Lemma keeps_update_outbox op s0 id guard f :
  (forall s o, o_job_id (f s o) = o_job_id o /\ o_generation (f s o) = o_generation o
               /\ o_route (f s o) = o_route o /\ o_payload (f s o) = o_payload o) ->
  keeps (good op s0) (update_outbox id guard f).
Proof.
intros Hf s [[Hj Hr Ho Hu Hc] E]. unfold update_outbox. apply wp_modify.
destruct (db_outbox s !! id) as [o|] eqn:Hi; [|done]. destruct (guard o); [|done].
destruct (Hf s o) as (F1 & F2 & F3 & F4). destruct (Ho id o Hi) as [O1 O2 O3].
split; [|by destruct E; split]. split; simpl; [done|done| | |done].
- apply map_Forall_insert_2; [by split; simpl; rewrite ?F1, ?F2, ?F3, ?F4|].
  intros k q Hq. destruct (Ho k q Hq). by split.
- intros i i' p p' Hp Hp'.
  apply lookup_insert_Some in Hp as [[<- <-]|[Hne Hp]], Hp' as [[<- <-]|[Hne' Hp']];
    rewrite ?F1, ?F2; eauto.
Qed.

Lemma keeps_mark_published op s0 id : keeps (good op s0) (mark_published id).
Proof. by apply keeps_update_outbox. Qed.
Lemma keeps_mark_failed op s0 id error : keeps (good op s0) (mark_failed id error).
Proof. by apply keeps_update_outbox. Qed.

Lemma keeps_reconstruct op s0 : keeps (good op s0) reconstruct_missing.
Proof. unfold reconstruct_missing. eauto 10 with keeps. Qed.

Lemma keeps_republish op s0 : keeps (good op s0) republish_current.
Proof.
apply keeps_bind; [apply keeps_reconstruct|]. intros _ s Hs. unfold wp, reoffer_current. simpl.
apply good_map_outbox; [|done]. intros o. by destruct (current_row s o).
Qed.

Lemma redriven_row_ok op n0 n j :
  job_ok n j -> executing (j_state j) = true \/ terminal (j_state j) = false ->
  let j' := j <| j_delivery_generation := j_delivery_generation j + 1 |> in
  job_ok n j' /\ job_evolves op n0 j j'.
Proof.
intros [L G A S T] Ht j'. split.
- split; [done|simpl; lia|done..].
- apply job_evolves_open; [done..|simpl; lia|by left|]. right.
  destruct Ht; [by destruct (j_state j)|done].
Qed.

Lemma keeps_redrive op s0 e : keeps (good op s0) (redrive_exhausted e).
Proof.
intros s Hg. apply wp_bind, wp_gets. destruct (db_jobs s !! e_job_id e) as [j|] eqn:Hj.
2:{ by do 2 apply wp_bind, wp_gets. }
do 2 apply wp_bind, wp_gets. destruct (bool_decide _ || _ || _ || _ || _ || _) eqn:Ec; [done|].
apply holds_update_then; [done| |intros; apply keeps_enqueue_job].
intros j' Hj' Hok _. assert (j' = j) as -> by congruence. apply redriven_row_ok; [done|].
bool_facts. right. by destruct (j_state j).
Qed.
#[export] Hint Resolve keeps_mark_published keeps_mark_failed keeps_reconstruct keeps_republish keeps_redrive : keeps.

(** * The operator's controls *)

Lemma cancelled_row_ok op n0 n final s j :
  terminal final = true -> job_ok n j -> cancellable (j_state j) = true ->
  job_ok n (cancelled_row final s j) /\ job_evolves op n0 j (cancelled_row final s j).
Proof.
intros Hf Hj Hc. unfold cancelled_row. destruct (idle (j_state j)) eqn:Hi; split.
- apply (job_ok_released n j); try done; [by apply terminal_executing|simpl; lia].
- apply job_evolves_open; [done..|simpl; lia|by right; left|]. right. by destruct (j_state j).
- destruct Hj as [L G A S T]. by split.
- apply job_evolves_open; [done..|by left|]. right. by destruct (j_state j).
Qed.

(** Split on the boolean of every conditional. *)
Ltac destruct_bool := repeat match goal with |- context [if ?b then _ else _] => destruct b end.

(** The invariant through the columns it reads. *)
Lemma job_ok_columns n j' owner until token st g a m r p :
  j_lease_owner j' = owner -> j_lease_expires_at j' = until -> j_execution_token j' = token ->
  j_state j' = st -> j_delivery_generation j' = g -> j_attempt j' = a -> j_max_attempts j' = m ->
  j_resume_without_attempt j' = r -> j_pause_requested j' = p ->
  (if executing st then is_some owner = true /\ is_some until = true /\ is_some token = true
   else owner = None /\ until = None /\ token = None) ->
  1 <= g -> 0 <= a <= m -> (st = leased -> (a < m \/ r = true) /\ p = false) ->
  (forall t, token = Some t -> t < n) ->
  job_ok n j'.
Proof. intros <- <- <- <- <- <- <- <- <-. by split. Qed.

Lemma paused_row_ok op n0 n by_source j :
  job_ok n j -> deliverable (j_state j) = true ->
  job_ok n (paused_row by_source j) /\ job_evolves op n0 j (paused_row by_source j).
Proof.
intros Hj Hd. split.
- destruct Hj as [L G A S T]. unfold lease_consistent in L.
  eapply job_ok_columns; [cbn; reflexivity..| | | | |]; [|destruct_bool; lia|done| |].
  + destruct (j_state j); naive_solver.
  + destruct (j_state j); naive_solver.
  + destruct_bool; naive_solver.
- apply job_evolves_open; [done..| | |].
  + change (j_delivery_generation (paused_row by_source j)) with
      (j_delivery_generation j + (if bool_decide (j_state j = queued) || bool_decide (j_state j = leased) then 1 else 0)).
    destruct (_ || _); lia.
  + change (j_execution_token (paused_row by_source j)) with
      (if bool_decide (j_state j = leased) then None else j_execution_token j).
    case_bool_decide; [by right; left|by left].
  + right. by destruct (j_state j).
Qed.

Lemma resumed_row_ok n s j :
  job_ok n j -> bool_decide (j_state j = paused) || j_pause_requested j = true -> job_ok n (resumed_row s j).
Proof.
intros [L G A S T] Hd. unfold lease_consistent in L.
eapply job_ok_columns; [cbn; reflexivity..| | | | |]; [|destruct_bool; lia|done| |].
- destruct (j_state j); naive_solver.
- destruct (decide (j_state j = paused)) as [Hp|Hp].
  + by rewrite bool_decide_true.
  + rewrite bool_decide_false in Hd |- * by done. intros Hl. destruct (S Hl). simpl in Hd. congruence.
- destruct_bool; naive_solver.
Qed.

Lemma resumed_row_evolves op n0 s j : job_evolves op n0 j (resumed_row s j).
Proof.
split.
- done.
- change (j_delivery_generation (resumed_row s j)) with
    (j_delivery_generation j + (if bool_decide (j_state j = paused) then 1 else 0)).
  case_bool_decide; lia.
- change (j_execution_token (resumed_row s j)) with
    (if bool_decide (j_state j = paused) then None else j_execution_token j).
  case_bool_decide; [by right; left|by left].
- intros _ Ht. change (j_state (resumed_row s j)) with (if bool_decide (j_state j = paused) then queued else j_state j).
  rewrite bool_decide_false; [done|]. intros Hp. by rewrite Hp in Ht.
Qed.

Lemma retried_row_ok n0 n s j :
  job_ok n j -> job_ok n (retried_row s j) /\ job_evolves true n0 j (retried_row s j).
Proof.
intros [L G A S T]. split.
- eapply job_ok_columns; [cbn; reflexivity..| | | | |]; [done|lia|lia|done|done].
- apply job_evolves_open; [done..| |by right; left|by left].
  change (j_delivery_generation (retried_row s j)) with (j_delivery_generation j + 1). lia.
Qed.

Lemma source_resumed_row_ok op n0 n s j :
  job_ok n j -> j_state j = paused ->
  job_ok n (source_resumed_row s j) /\ job_evolves op n0 j (source_resumed_row s j).
Proof.
intros Hj Hp. split.
- apply (job_ok_released n j); try done. simpl; lia.
- apply job_evolves_open; [done..|simpl; lia|by right; left|]. right. by rewrite Hp.
Qed.

(** The operator's actions; only a retry leaves a terminal state. *)
Lemma keeps_job_action op s0 a id : op = true \/ a <> act_retry -> keeps (good op s0) (job_action a id).
Proof.
intros Hop. apply keeps_transaction, keeps_bind; [|intros [j|]; [|apply keeps_ret]].
- apply keeps_update_job. intros s j n0 Hg Hj. destruct a; simpl in *.
  + by apply paused_row_ok.
  + split; [by apply resumed_row_ok|apply resumed_row_evolves].
  + by apply cancelled_row_ok.
  + destruct Hop as [->|Hop]; [by apply retried_row_ok|done].
- apply keeps_bind; [apply keeps_emit_event|]. intros _.
  apply keeps_bind; [|intros; apply keeps_ret]. eauto 20 with keeps.
Qed.

Lemma keeps_update_jobs op s0 guard f :
  (forall s j n0, guard j = true -> job_ok (db_next_uuid s) j ->
     job_ok (db_next_uuid s) (f s j) /\ job_evolves op n0 j (f s j)) ->
  keeps (good op s0) (update_jobs guard f).
Proof.
intros Hf. apply keeps_bind; [apply keeps_gets|]. intros ids.
induction ids as [|i ids IH]; simpl; [apply keeps_ret|]. apply keeps_bind; [|eauto with keeps].
by apply keeps_update_job.
Qed.

Lemma keeps_for_each {A} op s0 (l : list A) (f : A -> db ()) :
  (forall x, keeps (good op s0) (f x)) -> keeps (good op s0) (for_each l f).
Proof. intros Hf. induction l as [|x l IH]; simpl; eauto with keeps. Qed.

Lemma keeps_cancel_run op s0 run : keeps (good op s0) (cancel_run run).
Proof.
apply keeps_bind.
- apply keeps_update_jobs. intros s j n0 Hg Hj. bool_facts. by apply cancelled_row_ok.
- intros rows. apply keeps_bind; [apply keeps_for_each; eauto with keeps|]. eauto with keeps.
Qed.

Lemma keeps_update_source op s0 name enabled is_paused params :
  keeps (good op s0) (update_source name enabled is_paused params).
Proof.
apply keeps_transaction, keeps_bind; [apply keeps_gets|]. intros current.
apply keeps_bind; [by apply keeps_frame|]. intros _. unfold apply_source_settings.
apply keeps_bind; [|intros _; apply keeps_bind; [|eauto with keeps]].
- case_match; [|apply keeps_ret]. apply keeps_bind.
  + apply keeps_update_jobs. intros s j n0 Hg Hj. bool_facts. by apply cancelled_row_ok.
  + intros rows. apply keeps_for_each. eauto 20 with keeps.
- case_match; [|case_match; [|apply keeps_ret]].
  + apply keeps_bind; [|intros; apply keeps_ret].
    apply keeps_update_jobs. intros s j n0 Hg Hj. bool_facts. by apply paused_row_ok.
  + apply keeps_bind; [|intros rows; apply keeps_for_each; eauto with keeps].
    apply keeps_update_jobs. intros s j n0 Hg Hj. bool_facts. by apply source_resumed_row_ok.
Qed.
#[export] Hint Resolve keeps_cancel_run keeps_update_source : keeps.
