(* ===== verification/HostSlots.v ===== *)
(** Politeness across workers ([catalogue-dump/.../ops/leases.py] and the schema's
    [reconcile_host_slots]): at most [max_concurrency] jobs hold a slot of one
    host. *)
From S2P Require Export JobTables.
From stdpp Require Import sorting.
Open Scope Z_scope.

(** A host's rows, by slot. *)
Definition host_slots (s : DB) (host : string) : list (Z * HostLease) :=
  omap (fun p => if bool_decide (fst (fst p) = host) then Some (snd (fst p), snd p) else None)
       (map_to_list (db_host_leases s)).

(** [generate_series(1, n)] *)
Definition series (n : Z) : list Z := Z.of_nat <$> seq 1 (Z.to_nat n).

(** Source: catalogue-dump/storage/schema/catalogue-schema.sql:551-553, reconcile_host_slots. *)
Definition add_slot (host : string) (m : gmap (string * Z) HostLease) (slot : Z) : gmap (string * Z) HostLease :=
  match m !! (host, slot) with Some _ => m | None => <[(host, slot) := free_slot]> m end.

(** The host's limit, a host nobody configured getting the default. Source:
    catalogue-dump/storage/schema/catalogue-schema.sql:542-549, reconcile_host_slots. *)
Definition host_limit (s : DB) (host : string) : Z := default 1 (db_hosts s !! host).

(** Source: catalogue-dump/storage/schema/catalogue-schema.sql:534-565, reconcile_host_slots. *)
Definition reconcile_host_slots (host : string) : db () := modify (fun s =>
  let limit_now := host_limit s host in
  let with_slots := foldl (add_slot host) (db_host_leases s) (series limit_now) in
  s <| db_hosts := <[host := limit_now]> (db_hosts s) |>
    <| db_host_leases := filter (fun p => ~ (fst (fst p) = host /\ limit_now < snd (fst p) /\ h_job_id (snd p) = None)) with_slots |>).

(** Free, or held by something that stopped renewing. Source: catalogue-dump/ops/leases.py:39-44, ACQUIRE. *)
Definition claimable (now : Z) (h : HostLease) : bool :=
  is_none (h_job_id h) || match h_leased_until h with None => true | Some t => t <? now end.

Definition slot_before (p q : Z * HostLease) : Prop := p.1 <= q.1.
#[export] Instance slot_before_dec p q : Decision (slot_before p q).
Proof. unfold slot_before. apply _. Defined.

(** Source: catalogue-dump/ops/leases.py:37-47, ACQUIRE. *)
Definition first_claimable (s : DB) (host : string) : option (Z * HostLease) :=
  head (merge_sort slot_before (filter (fun p => claimable (db_now s) (snd p) = true) (host_slots s host))).

(** Source: catalogue-dump/ops/leases.py:35-35, SLOT_SECONDS. *)
Definition SLOT_SECONDS : Z := 180.

(** Source: catalogue-dump/ops/leases.py:48-57, ACQUIRE. *)
Definition take_slot (host : string) (job_id worker_id token secs : Z) : db (option Z) := fun s =>
  match first_claimable s host with
  | None => (Ok None, s)
  | Some (slot, _) =>
      (Ok (Some slot),
       s <| db_host_leases := <[(host, slot) :=
              {| h_job_id := Some job_id; h_leased_by := Some worker_id;
                 h_leased_until := Some (db_now s + seconds secs); h_execution_token := Some token |}]> (db_host_leases s) |>)
  end.

(** Source: catalogue-dump/ops/leases.py, acquire. *)
Definition acquire_slot (host : string) (job_id worker_id token secs : Z) : db (option Z) :=
  transaction (_ ← reconcile_host_slots host; take_slot host job_id worker_id token secs).

(** The rows a guard selects lose their holder. Source: catalogue-dump/ops/leases.py:59-64,
    RELEASE. *)
Definition free_slots (guard : string * Z -> HostLease -> bool) : db (list (string * Z)) := fun s =>
  (Ok (filter (fun p => guard (fst p) (snd p) = true) (map_to_list (db_host_leases s))).*1,
   s <| db_host_leases := map_imap (fun k h => Some (if guard k h then free_slot else h)) (db_host_leases s) |>).

(** Source: catalogue-dump/ops/leases.py:62-62, RELEASE. *)
Definition held_under (job_id token : Z) (h : HostLease) : bool :=
  bool_decide (h_job_id h = Some job_id) && bool_decide (h_execution_token h = Some token).

(** Source: catalogue-dump/ops/leases.py, release. *)
Definition release_slot (host : string) (job_id token : Z) : db bool :=
  rows ← free_slots (fun k h => bool_decide (k.1 = host) && held_under job_id token h);
  mret (bool_decide (rows ≠ [])).

(** Source: catalogue-dump/ops/leases.py, release_all. *)
Definition release_all_slots (job_id token : Z) : db (list string) :=
  rows ← free_slots (fun _ => held_under job_id token); mret rows.*1.

(** The slots a renewal extends. Source: catalogue-dump/ops/leases.py:73-78, RENEW. *)
Definition renewable (worker_id : Z) (tokens : list Z) (h : HostLease) : bool :=
  bool_decide (h_leased_by h = Some worker_id) && is_some (h_job_id h)
  && match h_execution_token h with Some t => bool_decide (t ∈ tokens) | None => false end.

(** Source: catalogue-dump/ops/leases.py, renew. *)
Definition renew_slots (worker_id : Z) (tokens : list Z) (secs : Z) : db Z := fun s =>
  if bool_decide (tokens = []) then (Ok 0, s)
  else
    (Ok (Z.of_nat (length (filter (fun p => renewable worker_id tokens (snd p) = true) (map_to_list (db_host_leases s))))),
     s <| db_host_leases :=
       (fun h => if renewable worker_id tokens h
                 then {| h_job_id := h_job_id h; h_leased_by := h_leased_by h;
                         h_leased_until := Some (db_now s + seconds secs); h_execution_token := h_execution_token h |}
                 else h) <$> db_host_leases s |>).

(** Source: catalogue-dump/ops/leases.py, configure. *)
Definition configure_host (host : string) (max_concurrency : Z) : db () :=
  transaction (_ ← modify (fun s => s <| db_hosts := <[host := max_concurrency]> (db_hosts s) |>);
               reconcile_host_slots host).

(** Source: catalogue-dump/ops/leases.py, held_by. *)
Definition slots_held_by (worker_id : Z) : db (list (string * Z * option Z)) := gets (fun s =>
  (fun p => (fst p, h_job_id (snd p))) <$> filter (fun p => h_leased_by (snd p) = Some worker_id) (map_to_list (db_host_leases s))).

(** * Lemmas *)

(** A job is using the slot: its lease has not run out. *)
Definition in_use (now : Z) (h : HostLease) : bool := negb (claimable now h).

Lemma elem_of_host_slots s host slot h :
  (slot, h) ∈ host_slots s host <-> db_host_leases s !! (host, slot) = Some h.
Proof.
unfold host_slots. rewrite list_elem_of_omap. split.
- intros ([[k n] h'] & Hin & Heq). apply elem_of_map_to_list in Hin. simpl in Heq.
  case_bool_decide; [|done]. by simplify_eq.
- intros Hl. exists (host, slot, h). split; [by apply elem_of_map_to_list|]. simpl. by rewrite bool_decide_true.
Qed.

Lemma first_claimable_Some s host slot h :
  first_claimable s host = Some (slot, h) ->
  db_host_leases s !! (host, slot) = Some h /\ claimable (db_now s) h = true.
Proof.
unfold first_claimable. intros H. apply head_Some_elem_of in H.
rewrite merge_sort_Permutation, list_elem_of_filter, elem_of_host_slots in H. tauto.
Qed.

Lemma first_claimable_None s host :
  first_claimable s host = None ->
  forall slot h, db_host_leases s !! (host, slot) = Some h -> in_use (db_now s) h = true.
Proof.
unfold first_claimable. intros H slot h Hl. apply head_None in H.
assert (Hp : Permutation [] (filter (fun p => claimable (db_now s) (snd p) = true) (host_slots s host)))
  by (rewrite <- H; apply merge_sort_Permutation).
unfold in_use. destruct (claimable (db_now s) h) eqn:E; [|done].
assert (Hin : (slot, h) ∈ filter (fun p => claimable (db_now s) (snd p) = true) (host_slots s host)).
{ apply list_elem_of_filter. split; [done|by apply elem_of_host_slots]. }
rewrite <- Hp in Hin. by apply elem_of_nil in Hin.
Qed.

Lemma elem_of_series n k : k ∈ series n <-> 1 <= k <= n.
Proof.
unfold series. rewrite list_elem_of_fmap. split.
- intros (i & -> & Hi). apply elem_of_seq in Hi. lia.
- intros Hk. exists (Z.to_nat k). split; [lia|]. apply elem_of_seq. lia.
Qed.

Lemma add_slots_lookup host l m host' slot :
  foldl (add_slot host) m l !! (host', slot) =
    match m !! (host', slot) with
    | Some h => Some h
    | None => if bool_decide (host' = host /\ slot ∈ l) then Some free_slot else None
    end.
Proof.
revert m. induction l as [|k l IH]; intros m; simpl.
- destruct (m !! (host', slot)); [done|]. by rewrite bool_decide_false by set_solver.
- rewrite IH. unfold add_slot. destruct (m !! (host, k)) eqn:Hk.
  + destruct (m !! (host', slot)) eqn:Hs; [done|].
    rewrite (bool_decide_ext (host' = host /\ slot ∈ l) (host' = host /\ slot ∈ k :: l)); [done|].
    rewrite elem_of_cons. split; [tauto|]. intros [-> [->|?]]; [congruence|done].
  + destruct (decide ((host, k) = (host', slot))) as [Heq|Hne].
    * rewrite Heq, lookup_insert_eq in *. simplify_eq. rewrite Hk, bool_decide_true; [done|].
      split; [done|]. by left.
    * rewrite lookup_insert_ne by done. destruct (m !! (host', slot)); [done|].
      rewrite (bool_decide_ext (host' = host /\ slot ∈ l) (host' = host /\ slot ∈ k :: l)); [done|].
      rewrite elem_of_cons. split; [tauto|]. intros [-> [->|?]]; [congruence|done].
Qed.

(** After the reconciliation a host's rows are its slots up to the limit, and
    those above it that still name a job. *)
Lemma reconciled_lookup s host slot h :
  let s' := (reconcile_host_slots host s).2 in
  db_host_leases s' !! (host, slot) = Some h ->
  (db_host_leases s !! (host, slot) = Some h /\ (slot <= host_limit s host \/ is_some (h_job_id h) = true))
  \/ (db_host_leases s !! (host, slot) = None /\ 1 <= slot <= host_limit s host /\ h = free_slot).
Proof.
simpl. rewrite map_lookup_filter_Some. intros [Hl Hn]. simpl in Hn. rewrite add_slots_lookup in Hl.
destruct (db_host_leases s !! (host, slot)) as [h'|].
- simplify_eq. left. split; [done|]. destruct (h_job_id h); [by right|]. left.
  apply Z.nlt_ge. intros ?. by apply Hn.
- case_bool_decide as Hs; [|done]. destruct Hs as [_ Hs%elem_of_series]. simplify_eq. by right.
Qed.

Lemma reconciled_slot s host slot :
  1 <= slot <= host_limit s host ->
  is_Some (db_host_leases (reconcile_host_slots host s).2 !! (host, slot)).
Proof.
intros Hs. simpl. destruct (foldl (add_slot host) (db_host_leases s) (series (host_limit s host)) !! (host, slot))
  as [h|] eqn:Hl.
- exists h. apply map_lookup_filter_Some. split; [done|]. simpl. intros (_ & ? & _). lia.
- rewrite add_slots_lookup in Hl. destruct (_ !! _); [done|].
  rewrite bool_decide_true in Hl; [done|]. split; [done|]. by apply elem_of_series.
Qed.

Lemma host_slots_NoDup s host : NoDup (host_slots s host).*1.
Proof.
unfold host_slots.
assert (H : NoDup (map_to_list (db_host_leases s)).*1) by apply NoDup_fst_map_to_list.
induction (map_to_list (db_host_leases s)) as [|[[k n] h] l IH]; simpl in *; [constructor|].
inversion H as [|?? Hni Hnd]; subst. case_bool_decide; [|by apply IH].
simpl. constructor; [|by apply IH]. subst. intros Hin. apply Hni.
apply list_elem_of_fmap in Hin as ([n' h'] & Heq & Hin). simpl in Heq. subst.
apply list_elem_of_omap in Hin as ([[k' m'] h''] & Hin & Heq). simpl in Heq. case_bool_decide; [|done].
simplify_eq. apply list_elem_of_fmap. by exists (host, n', h').
Qed.

(** The slots of a host whose lease is running. *)
Definition held_slots (s : DB) (host : string) : list (Z * HostLease) :=
  filter (fun p => in_use (db_now s) (snd p) = true) (host_slots s host).

(** * Properties *)

(** Every slot of the host is one of its [n] slots. *)
Definition slots_within (s : DB) (host : string) (n : Z) : Prop :=
  forall slot h, db_host_leases s !! (host, slot) = Some h -> 1 <= slot <= n.

Lemma slots_within_length s host n (P : Z * HostLease -> Prop) `{!forall x, Decision (P x)} :
  0 <= n -> slots_within s host n -> Z.of_nat (length (filter P (host_slots s host))) <= n.
Proof.
intros Hn Hw.
assert (Hsub : (filter P (host_slots s host)).*1 ⊆+ series n).
{ apply NoDup_submseteq.
  - eapply sublist_NoDup; [apply host_slots_NoDup|]. apply fmap_sublist, sublist_filter.
  - intros k Hk. apply list_elem_of_fmap in Hk as ([k' h] & -> & Hk). apply list_elem_of_filter in Hk as [_ Hk].
    apply elem_of_host_slots in Hk. apply elem_of_series. by eapply Hw. }
apply submseteq_length in Hsub. rewrite length_fmap in Hsub. unfold series in Hsub.
rewrite length_fmap, length_seq in Hsub. lia.
Qed.

Lemma reconcile_keeps_in_use s host k h :
  db_host_leases s !! k = Some h -> in_use (db_now s) h = true ->
  db_host_leases (reconcile_host_slots host s).2 !! k = Some h.
Proof.
destruct k as [host' slot]. intros Hl Hu. simpl. apply map_lookup_filter_Some. split.
- by rewrite add_slots_lookup, Hl.
- simpl. intros (_ & _ & Hn). unfold in_use, claimable in Hu. rewrite Hn in Hu. done.
Qed.

Lemma acquire_slot_eq host job worker token secs s :
  acquire_slot host job worker token secs s
  = take_slot host job worker token secs (reconcile_host_slots host s).2.
Proof.
unfold acquire_slot, transaction, mbind, eff_bind, take_slot. simpl.
by destruct (first_claimable _ _) as [[slot h]|].
Qed.

(** Taking a host's slot never displaces a job that is using one: a granted
    slot was new, free or abandoned, every slot in use anywhere keeps its row,
    and the request is refused exactly when each of the host's
    [max_concurrency] slots is in use. *)
Theorem host_slot_exclusive host job worker token secs s :
  let s' := (acquire_slot host job worker token secs s).2 in
  (forall k h, db_host_leases s !! k = Some h -> in_use (db_now s) h = true -> db_host_leases s' !! k = Some h)
  /\ match (acquire_slot host job worker token secs s).1 with
     | Ok (Some slot) =>
         (forall h, db_host_leases s !! (host, slot) = Some h -> claimable (db_now s) h = true)
         /\ (h_job_id <$> db_host_leases s' !! (host, slot)) = Some (Some job)
         /\ (h_execution_token <$> db_host_leases s' !! (host, slot)) = Some (Some token)
     | Ok None =>
         forall slot, 1 <= slot <= host_limit s host ->
         exists h, db_host_leases s' !! (host, slot) = Some h /\ in_use (db_now s) h = true
     | Err _ => False
     end.
Proof.
rewrite acquire_slot_eq. set (s1 := (reconcile_host_slots host s).2). unfold take_slot.
pose proof (reconcile_keeps_in_use s host) as Hkeep. fold s1 in Hkeep.
destruct (first_claimable s1 host) as [[slot h]|] eqn:Hf; simpl.
- apply first_claimable_Some in Hf as [Hl Hc]. change (db_now s1) with (db_now s) in Hc. split_and!.
  + intros k h' Hk Hu. specialize (Hkeep k h' Hk Hu).
    destruct (decide (k = (host, slot))) as [->|Hne]; [|by rewrite lookup_insert_ne].
    assert (h' = h) as -> by congruence. unfold in_use in Hu. by rewrite Hc in Hu.
  + intros h' Hk. destruct (claimable (db_now s) h') eqn:E; [done|].
    assert (Hu : in_use (db_now s) h' = true) by (unfold in_use; by rewrite E).
    specialize (Hkeep _ h' Hk Hu). assert (h' = h) as -> by congruence. congruence.
  + by rewrite lookup_insert_eq.
  + by rewrite lookup_insert_eq.
- split; [done|]. intros slot Hs. destruct (reconciled_slot s host slot Hs) as [h Hl]. exists h.
  split; [done|]. by apply (first_claimable_None s1 host Hf slot).
Qed.

(** Politeness: while every slot of a host lies within its limit, as it does
    from the host's first use until the limit is lowered, the reconciliation and
    the grant of one more slot keep it so, and at most [max_concurrency] of them
    are in use. *)
Theorem host_slots_bounded host job worker token secs s :
  1 <= host_limit s host -> slots_within s host (host_limit s host) ->
  let s' := (acquire_slot host job worker token secs s).2 in
  slots_within s' host (host_limit s host) /\ host_limit s' host = host_limit s host
  /\ Z.of_nat (length (held_slots s' host)) <= host_limit s host.
Proof.
intros Hn Hw. rewrite acquire_slot_eq. set (s1 := (reconcile_host_slots host s).2).
assert (Hw1 : slots_within s1 host (host_limit s host)).
{ intros slot h Hl. destruct (reconciled_lookup s host slot h Hl) as [[Hs _]|(_ & ? & _)]; [by eapply Hw|done]. }
assert (Hl1 : host_limit s1 host = host_limit s host).
{ unfold host_limit at 1. simpl. by rewrite lookup_insert_eq. }
set (s' := (take_slot host job worker token secs s1).2).
assert (Hw' : slots_within s' host (host_limit s host) /\ host_limit s' host = host_limit s host).
{ subst s'. unfold take_slot. destruct (first_claimable s1 host) as [[slot h]|] eqn:Hf; [|done]. split; [|done].
  apply first_claimable_Some in Hf as [Hl _]. intros k h' Hk. simpl in Hk.
  apply lookup_insert_Some in Hk as [[[= <-] _]|[_ Hk]]; by eapply Hw1. }
destruct Hw'. split_and!; [done|done|]. apply slots_within_length; [lia|done].
Qed.

(** A bound that was lowered is not kept. A slot above the new limit whose
    holder stopped renewing still names its job, so the reconciliation keeps it
    and the next request is granted it: two jobs are in use of a host limited to
    one. *)
Definition lowered_host : DB :=
  {| db_now := seconds 1000; db_jobs := ∅; db_runs := ∅; db_outbox := ∅;
     db_hosts := {[ "shop.example" := 1 ]};
     db_host_leases := {[ ("shop.example", 1) :=
                            {| h_job_id := Some 1; h_leased_by := Some 100; h_leased_until := Some (seconds 1100);
                               h_execution_token := Some 11 |};
                          ("shop.example", 2) :=
                            {| h_job_id := Some 2; h_leased_by := Some 101; h_leased_until := Some (seconds 990);
                               h_execution_token := Some 12 |} ]};
     db_settings := ∅; db_policies := ∅; db_progress := ∅; db_datasets := []; db_schedules := ∅;
     db_events := []; db_notifications := ∅; db_job_events := []; db_workers := ∅; db_probes := ∅; db_promotions := []; db_next_uuid := 1000; db_next_outbox := 1; db_next_note := 0 |}.

Lemma lowered_limit_exceeded :
  let r := acquire_slot "shop.example" 3 102 13 SLOT_SECONDS lowered_host in
  r.1 = Ok (Some 2) /\ host_limit r.2 "shop.example" = 1 /\ length (held_slots r.2 "shop.example") = 2%nat.
Proof. vm_compute. auto. Qed.

Lemma host_slots_bounded_witness :
  let s := lowered_host <| db_hosts := {[ "shop.example" := 2 ]} |> in
  let s' := (acquire_slot "shop.example" 3 102 13 SLOT_SECONDS s).2 in
  slots_within s' "shop.example" 2 /\ host_limit s' "shop.example" = 2
  /\ Z.of_nat (length (held_slots s' "shop.example")) <= 2.
Proof.
intros s. apply (host_slots_bounded "shop.example" 3 102 13 SLOT_SECONDS s).
- vm_compute. by intros.
- intros slot h Hl. change (host_limit s "shop.example") with 2.
  change (db_host_leases s) with (db_host_leases lowered_host) in Hl. unfold lowered_host, db_host_leases in Hl.
  apply lookup_insert_Some in Hl as [[[= <-] _]|[_ Hl]]; [lia|].
  apply lookup_singleton_Some in Hl as [[= <-] _]. lia.
Defined.
