(* ===== verification/Schedule.v ===== *)
(** Firing schedules ([catalogue-dump/.../ops/schedule.py]): the occurrences a
    schedule missed, the one it materialises, and the cursor. The cron calendar
    is a library's, a parameter here: [get_next] and [get_prev] are the next and
    the previous occurrence of an expression in its time zone. *)
From S2P Require Export JobInvariant Notifications.
From stdpp Require Import sorting.
Open Scope Z_scope.

(** * Selecting sources *)

(** [source_filter.get("only")] and [.get("except")]; an empty list is falsy.
    Source: catalogue-dump/ops/schedule.py, _select_sources. *)
Definition select_sources (names only excluded : list string) : list string :=
  let selected := if bool_decide (only ≠ []) then filter (fun n => n ∈ only) names else names in
  if bool_decide (excluded ≠ []) then filter (fun n => ~ n ∈ excluded) selected else selected.

(** * Firing *)

Section calendar.
Context (get_next get_prev : string -> string -> Z -> Z).

(** At most [fuel] occurrences after [moment] up to [stop]. Source:
  catalogue-dump/ops/schedule.py:176-182, _missed_between. *)
Fixpoint occurrences (fuel : nat) (cron timezone : string) (moment stop : Z) : list Z :=
match fuel with
| O => []
| S fuel => let next := get_next cron timezone moment in
            if stop <? next then [] else next :: occurrences fuel cron timezone next stop
end.

(** Source: catalogue-dump/ops/schedule.py, _missed_between. *)
Definition missed_between (cron timezone : string) (start stop : Z) : list Z :=
match occurrences 500 cron timezone start stop with
| [] => [start]
| found => found
end.

(** The occurrence a schedule is due for. Source: catalogue-dump/ops/schedule.py:101-116, _fire. *)
Definition due_occurrence (sch : ScheduleRow) (now : Z) : Z * list Z :=
let fire_at := match s_next_fire_at sch with
               | Some t => t
               | None => get_prev (s_cron sch) (s_timezone sch) now
               end in
(fire_at, missed_between (s_cron sch) (s_timezone sch) fire_at now).

(** Source: catalogue-dump/ops/schedule.py:109-127, _fire. *)
Definition chosen_occurrence (sch : ScheduleRow) (now : Z) : Z :=
let '(fire_at, missed) := due_occurrence sch now in
if (1 <? length missed)%nat then List.last missed fire_at else fire_at.

(** The warning about the occurrences that are not materialised. Source:
    catalogue-dump/ops/schedule.py:110-127, _fire. *)
Definition report_missed (id : string) (sch : ScheduleRow) (now : Z) : db () :=
let '(fire_at, missed) := due_occurrence sch now in
if (1 <? length missed)%nat then
  _ ← notify "schedule.missed" CRITICAL
        {| nk_condition := "schedule.missed"; nk_subject := id; nk_values := [List.last missed fire_at] |} nothing;
  mret ()
else mret ().

(** The cursor moves whether or not a run was created. Source:
  catalogue-dump/ops/schedule.py:138-145, _fire. *)
Definition advance_cursor (id : string) (sch : ScheduleRow) (fired : option Z) (now : Z) : db () := modify (fun s =>
match db_schedules s !! id with
| None => s
| Some row =>
    s <| db_schedules := <[id := row <| s_last_fired_at := fired |>
           <| s_next_fire_at := Some (get_next (s_cron sch) (s_timezone sch) now) |>]> (db_schedules s) |>
end).

(** The id of the run and its number of jobs. Source: catalogue-dump/ops/schedule.py, _fire. *)
Definition fire (sources : list (string * SourceConfig)) (id : string) (sch : ScheduleRow) : db (option (Z * nat)) :=
now ← gets db_now;
let fire_at := chosen_occurrence sch now in
_ ← report_missed id sch now;
run_id ← create_run "scheduled" (Some ("schedule:" +:+ id)) (s_params sch) (Some id) (Some fire_at);
_ ← advance_cursor id sch (match run_id with Some _ => Some fire_at | None => s_last_fired_at sch end) now;
match run_id with
| None => mret None
| Some run =>
    jobs ← create_jobs run (list_to_map sources) (select_sources sources.*1 (s_only sch) (s_except sch)) 100 3;
    _ ← emit "schedule.fired" (Some run) None None None;
    mret (Some (run, length jobs))
end.

(** Source: catalogue-dump/ops/schedule.py:72-79, DUE. *)
Definition due (s : DB) : list (string * ScheduleRow) :=
filter (fun p => s_enabled (snd p)
                 && match s_next_fire_at (snd p) with None => true | Some t => t <=? db_now s end = true)
       (map_to_list (db_schedules s)).

(** Source: catalogue-dump/ops/schedule.py:90-95, fire_due. *)
Fixpoint fire_each (sources : list (string * SourceConfig)) (l : list (string * ScheduleRow)) : db (list (string * Z * nat)) :=
match l with
| [] => mret []
| (id, sch) :: r => result ← fire sources id sch; fired ← fire_each sources r;
                    mret (match result with Some (run, n) => (id, run, n) :: fired | None => fired end)
end.

(** The order of the schedules, [order by id], is the order of their rows. *)
Definition id_before (p q : string * ScheduleRow) : Prop := str_le p.1 q.1 = true.
#[export] Instance id_before_dec p q : Decision (id_before p q).
Proof. unfold id_before. apply _. Defined.

(** One transaction of the leader. Source: catalogue-dump/ops/schedule.py, fire_due. *)
Definition fire_due (sources : list (string * SourceConfig)) : db (list (string * Z * nat)) :=
transaction (schedules ← gets (fun s => merge_sort id_before (due s)); fire_each sources schedules).

(** * Lemmas *)

(** Notifications are not the job store's. *)
Lemma keeps_good_notes {A} op s0 (m : db A) : (forall s, notes_only s (m s).2) -> keeps (good op s0) m.
Proof. intros H s Hs. unfold wp. apply (good_frame op s0 s); [done|..]; rewrite (H s); eauto. Qed.
Lemma keeps_good_notify op s0 kind severity key x : keeps (good op s0) (notify kind severity key x).
Proof. apply keeps_good_notes, notify_notes. Qed.
#[local] Hint Resolve keeps_good_notify : keeps.

Lemma keeps_fire op s0 sources id sch : keeps (good op s0) (fire sources id sch).
Proof.
unfold fire. apply keeps_bind; [apply keeps_gets|]. intros now. apply keeps_bind.
{ unfold report_missed. destruct (due_occurrence sch now). destruct (_ <? _)%nat; eauto with keeps. }
intros _. apply keeps_bind; [apply keeps_create_run|]. intros run. apply keeps_bind.
{ intros s Hs. apply wp_modify. destruct (db_schedules s !! id); [|done].
apply (good_frame op s0 s); eauto. }
intros _. destruct run as [run|]; [|apply keeps_ret].
apply keeps_bind; [by apply keeps_create_jobs|]. eauto with keeps.
Qed.

Lemma keeps_fire_due op s0 sources : keeps (good op s0) (fire_due sources).
Proof.
apply keeps_transaction, keeps_bind; [apply keeps_gets|]. intros l.
induction l as [|[id sch] l IH]; simpl; [apply keeps_ret|].
apply keeps_bind; [apply keeps_fire|]. eauto with keeps.
Qed.

Hypothesis get_next_after : forall cron timezone t, t < get_next cron timezone t.

(** The occurrences found are those of the calendar, in order, within the bounds. *)
Lemma occurrences_sorted fuel cron timezone start stop :
Forall (fun t => start < t <= stop) (occurrences fuel cron timezone start stop)
/\ Sorted.StronglySorted Z.lt (occurrences fuel cron timezone start stop).
Proof.
revert start. induction fuel as [|fuel IH]; intros start; simpl; [split; constructor|].
pose proof (get_next_after cron timezone start) as Hn.
destruct (stop <? get_next cron timezone start) eqn:E; [split; constructor|]. bool_facts.
destruct (IH (get_next cron timezone start)) as [Hf Hs]. split.
- constructor; [lia|]. eapply Forall_impl; [exact Hf|]. simpl. intros; lia.
- constructor; [done|]. eapply Forall_impl; [exact Hf|]. simpl. intros; lia.
Qed.

Lemma last_cons_default {A} (x : A) l d d' : List.last (x :: l) d = List.last (x :: l) d'.
Proof. revert x. induction l as [|y l IH]; intros x; [done|]. apply (IH y). Qed.

Lemma last_elem {A} (x : A) l : List.last (x :: l) x ∈ x :: l.
Proof.
revert x. induction l as [|y l IH]; intros x; [by left|]. right.
change (List.last (y :: l) x ∈ y :: l). rewrite (last_cons_default y l x y). apply IH.
Qed.

Lemma occurrences_last fuel cron timezone start stop :
(length (occurrences fuel cron timezone start stop) < fuel)%nat -> start <= stop ->
stop < get_next cron timezone (List.last (occurrences fuel cron timezone start stop) start).
Proof.
revert start. induction fuel as [|fuel IH]; intros start; simpl; [lia|].
destruct (stop <? get_next cron timezone start) eqn:E; bool_facts; [done|].
intros Hl Hs. specialize (IH (get_next cron timezone start) ltac:(simpl in Hl; lia) ltac:(lia)).
destruct (occurrences fuel cron timezone (get_next cron timezone start) stop) as [|t l] eqn:Eo; [done|].
change (stop < get_next cron timezone (List.last (t :: l) start)).
by rewrite (last_cons_default t l start (get_next cron timezone start)).
Qed.

(** After an outage a schedule catches up with one run, not a herd: when at
  least two occurrences passed since the one it was due for, and fewer than
  the 500 the search is capped at, it materialises the most recent of them,
  which is in the past while the calendar's next one is still to come. *)
Theorem schedule_catches_up sch now fire_at missed :
due_occurrence sch now = (fire_at, missed) -> (1 < length missed < 500)%nat -> fire_at <= now ->
let chosen := chosen_occurrence sch now in
fire_at < chosen <= now /\ now < get_next (s_cron sch) (s_timezone sch) chosen /\ chosen ∈ missed.
Proof.
intros Hd Hl Hle. unfold chosen_occurrence. rewrite Hd. simpl.
rewrite (proj2 (Nat.ltb_lt 1 (length missed))) by lia.
unfold due_occurrence in Hd. injection Hd as Hf Hm. unfold missed_between in Hm. rewrite Hf in Hm.
pose proof (occurrences_sorted 500 (s_cron sch) (s_timezone sch) fire_at now) as [Hin _].
pose proof (occurrences_last 500 (s_cron sch) (s_timezone sch) fire_at now) as Hlast.
destruct (occurrences 500 (s_cron sch) (s_timezone sch) fire_at now) as [|t l] eqn:Eo; [subst; simpl in Hl; lia|].
subst missed. assert (Hmem : List.last (t :: l) fire_at ∈ t :: l)
by (rewrite (last_cons_default t l fire_at t); apply last_elem).
rewrite Forall_forall in Hin. pose proof (Hin _ Hmem). split_and!; [lia|lia| |done].
apply Hlast; lia.
Qed.

Lemma report_missed_frame id sch now s :
exists s', report_missed id sch now s = (Ok (), s') /\ db_runs s' = db_runs s /\ db_jobs s' = db_jobs s
/\ db_outbox s' = db_outbox s /\ db_schedules s' = db_schedules s /\ db_now s' = db_now s.
Proof.
unfold report_missed. destruct (due_occurrence sch now) as [f m]. destruct (_ <? _)%nat; [|by exists s].
set (key := Build_NoteKey _ _ _). pose proof (notify_notes "schedule.missed" CRITICAL key nothing s) as H.
unfold mbind, eff_bind. destruct (notify _ _ key nothing s) as [[r|e] s'] eqn:E.
- exists s'. split; [done|]. simpl in H. rewrite H. by split_and!.
- revert E. unfold notify, mbind, eff_bind, gets, insert_notification. by destruct (open_row s _).
Qed.

(** Firing is idempotent. When the occurrence a schedule is due for already
  has its run, as after a leader died between committing the run and moving the
  cursor, firing again creates no run, no job and no delivery; it only moves
  the cursor past the present, so the schedule is not due again. *)
Theorem schedule_refire_is_noop sources id sch s :
db_schedules s !! id = Some sch ->
occurrence_taken s (Some id) (Some (chosen_occurrence sch (db_now s))) = true ->
exists s' sch', fire sources id sch s = (Ok None, s')
/\ db_runs s' = db_runs s /\ db_jobs s' = db_jobs s /\ db_outbox s' = db_outbox s
/\ db_schedules s' = <[id := sch']> (db_schedules s) /\ s_last_fired_at sch' = s_last_fired_at sch
/\ exists next, s_next_fire_at sch' = Some next /\ db_now s < next.
Proof.
intros Hsch Ht. unfold fire, mbind, eff_bind, gets. cbv beta iota.
destruct (report_missed_frame id sch (db_now s) s) as (s1 & E & Er & Ej & Eo & Es & En). rewrite E.
unfold create_run, mbind, eff_bind, gets. cbv beta iota.
replace (occurrence_taken s1 _ _) with true by (symmetry; unfold occurrence_taken in *; by rewrite Er).
unfold mret, eff_ret, advance_cursor, modify. rewrite Es, Hsch.
do 2 eexists. split; [done|]. split_and!; [done|done|done|done|done|].
eexists. split; [done|]. apply get_next_after.
Qed.
End calendar.

(** * Witnesses *)

(** A calendar with an occurrence at the start of every day. *)
Definition daily_next (cron timezone : string) (t : Z) : Z := (t / seconds 86400 + 1) * seconds 86400.
Definition daily_prev (cron timezone : string) (t : Z) : Z := ((t - 1) / seconds 86400) * seconds 86400.

Lemma daily_next_after cron timezone t : t < daily_next cron timezone t.
Proof.
unfold daily_next. pose proof (Z.mul_succ_div_gt t (seconds 86400) ltac:(unfold seconds; lia)). lia.
Qed.

Definition day (n : Z) : Z := n * seconds 86400.
Definition nightly (next : option Z) : ScheduleRow :=
  {| s_enabled := true; s_cron := "0 0 * * *"; s_timezone := "UTC"; s_only := []; s_except := []; s_params := [];
     s_last_fired_at := None; s_next_fire_at := next |}.

Lemma schedule_catches_up_witness :
  let chosen := chosen_occurrence daily_next daily_prev (nightly (Some (day 10))) (day 13 + 5) in
  chosen = day 13 /\ day 10 < chosen <= day 13 + 5
  /\ day 13 + 5 < daily_next "0 0 * * *" "UTC" chosen /\ chosen ∈ [day 11; day 12; day 13].
Proof.
split; [by vm_compute|].
apply (schedule_catches_up daily_next daily_prev daily_next_after (nightly (Some (day 10))) (day 13 + 5) (day 10)).
- by vm_compute.
- simpl. lia.
- unfold day, seconds. lia.
Defined.

Definition fired_store : DB :=
  {| db_now := day 10 + 5; db_jobs := ∅;
     db_runs := {[ 1 := {| r_kind := "scheduled"; r_schedule_id := Some "daily"; r_scheduled_fire_at := Some (day 10);
                           r_requested_by := None; r_params := []; r_status := run_queued; r_started_at := None;
                           r_finished_at := None; r_summary := None |} ]};
     db_outbox := ∅; db_hosts := ∅; db_host_leases := ∅; db_settings := ∅; db_policies := ∅; db_progress := ∅;
     db_datasets := []; db_schedules := {[ "daily" := nightly (Some (day 10)) ]}; db_events := [];
     db_notifications := ∅; db_job_events := []; db_workers := ∅; db_probes := ∅; db_promotions := []; db_next_uuid := 2; db_next_outbox := 0; db_next_note := 0 |}.

Lemma schedule_refire_is_noop_witness :
  exists s' sch', fire daily_next daily_prev [] "daily" (nightly (Some (day 10))) fired_store = (Ok None, s')
  /\ db_runs s' = db_runs fired_store /\ db_jobs s' = db_jobs fired_store /\ db_outbox s' = db_outbox fired_store
  /\ db_schedules s' = <["daily" := sch']> (db_schedules fired_store) /\ s_last_fired_at sch' = None
  /\ exists next, s_next_fire_at sch' = Some next /\ db_now fired_store < next.
Proof.
apply (schedule_refire_is_noop daily_next daily_prev daily_next_after [] "daily" (nightly (Some (day 10))) fired_store).
- done.
- by vm_compute.
Defined.

(** * Divergences *)

(** With exactly one occurrence after the one it was due for, the schedule
    materialises the older of the two, and moves its cursor past both: the most
    recent occurrence, day 11, is never materialised and nothing reports it. *)
Lemma single_missed_occurrence_dropped :
  let sch := nightly (Some (day 10)) in
  let now := day 11 + 5 in
  due_occurrence daily_next daily_prev sch now = (day 10, [day 11])
  /\ chosen_occurrence daily_next daily_prev sch now = day 10
  /\ daily_next (s_cron sch) (s_timezone sch) now = day 12.
Proof. by vm_compute. Qed.

(** A schedule that has never fired materialises its most recent past
    occurrence at once. *)
Lemma new_schedule_fires_the_past :
  chosen_occurrence daily_next daily_prev (nightly None) (day 10 + 5) = day 10.
Proof. by vm_compute. Qed.
