(* ===== verification/Monitor.v ===== *)
(** The conditions the leader watches for ([catalogue-dump/.../ops/monitor.py]):
    sources that went stale or shrank, workers that stopped reporting, hosts that
    refuse, and the retention of logs and notifications. *)
From S2P Require Export PyNumber JobInvariant Notifications.
From stdpp Require Import sorting.
Open Scope Z_scope.

(** Source: catalogue-dump/ops/monitor.py:33-33, STALE_RUNS. *)
Definition STALE_RUNS : nat := 3.
(** The double nearest to 0.30. Source: catalogue-dump/ops/monitor.py:37-37, SHRANK_SHARE. *)
Definition SHRANK_SHARE : pyfloat := FFinite 5404319552844595 (-54).
(** Source: catalogue-dump/ops/monitor.py:41-41, SHRANK_FLOOR. *)
Definition SHRANK_FLOOR : Z := 50.
(** Source: catalogue-dump/ops/monitor.py:44-44, LOST_INTERVALS. *)
Definition LOST_INTERVALS : Z := 3.
(** Source: catalogue-dump/ops/monitor.py:45-45, HEARTBEAT_SECONDS. *)
Definition HEARTBEAT_SECONDS : Z := 5.
(** Source: catalogue-dump/ops/monitor.py:50-50, BLOCKING_MINIMUM. *)
Definition BLOCKING_MINIMUM : Z := 20.
(** Source: catalogue-dump/ops/monitor.py:54-54, EVENT_RETENTION_DAYS. *)
Definition EVENT_RETENTION_DAYS : Z := 30.
(** Source: catalogue-dump/ops/monitor.py:55-55, NOTIFICATION_RETENTION_DAYS. *)
Definition NOTIFICATION_RETENTION_DAYS : Z := 90.

Definition days (n : Z) : Z := seconds (n * 86400).

(** Do [f] for each row and count those it answers [true] for. *)
Fixpoint count_each {A} (f : A -> db bool) (l : list A) : db Z :=
  match l with
  | [] => mret 0
  | x :: r => raised ← f x; n ← count_each f r; mret ((if (raised : bool) then 1 else 0) + n)
  end.

Definition raise_ (kind : string) (severity : Severity) (subject : string) (values : list Z) (x : Subject) : db bool :=
  row ← notify kind severity {| nk_condition := kind; nk_subject := subject; nk_values := values |} x;
  mret (is_some row).

(** * Sources *)

Definition finished_later (a b : JobRow) : Prop := default 0 (j_finished_at b) <= default 0 (j_finished_at a).
#[export] Instance finished_later_dec a b : Decision (finished_later a b).
Proof. unfold finished_later. apply _. Defined.

(** The finished jobs of a source in the given states, latest first: their place
    is their [rank]. Source: catalogue-dump/ops/monitor.py:71-77, STALE. *)
Definition recent (s : DB) (states : list JobState) (source : string) : list JobRow :=
  merge_sort finished_later
    (filter (fun j => j_source_id j = source /\ j_state j ∈ states /\ is_some (j_finished_at j) = true) (map_to_list (db_jobs s)).*2).

Definition job_sources (s : DB) : list string := remove_dups (j_source_id <$> (map_to_list (db_jobs s)).*2).

(** [(summary->>'records')::int] *)
Definition summary_records (j : JobRow) : option Z := j_summary j ≫= sm_records.

(** A source with enough runs, and how many of its last ones were empty. Source:
    catalogue-dump/ops/monitor.py:70-85, STALE. *)
Definition stale_rows (s : DB) : list (string * nat) :=
  omap (fun source =>
    let last := take STALE_RUNS (recent s [succeeded; degraded; failed] source) in
    if bool_decide (STALE_RUNS <= length last)%nat
    then Some (source, length (filter (fun j => default 0 (summary_records j) = 0) last)) else None) (job_sources s).

(** Source: catalogue-dump/ops/monitor.py:96-112, check_stale_sources. *)
Definition check_stale_source (row : string * nat) : db bool :=
  let '(source, empty_runs) := row in
  if bool_decide (STALE_RUNS <= empty_runs)%nat
  then raise_ "source.stale" WARNING source [] (about_source source)
  else _ ← resolve {| nk_condition := "source.stale"; nk_subject := source; nk_values := [] |} (Some source); mret false.

(** Source: catalogue-dump/ops/monitor.py, check_stale_sources. *)
Definition check_stale_sources : db Z := rows ← gets stale_rows; count_each check_stale_source rows.

(** [records * (1 - share)] in double precision. Source: catalogue-dump/ops/monitor.py:133-133, SHRANK. *)
Definition shrunk_limit (records : Z) : pyfloat :=
  match SHRANK_SHARE with
  | FFinite m e =>
      match float_add (FFinite 1 0) (FFinite (- m) e) with
      | FFinite n f => round_dyadic (records * n) f
      | x => x
      end
  | x => x
  end.
(** [current < limit] of an integer and a finite double. *)
Definition int_lt_float (n : Z) (x : pyfloat) : bool :=
  match x with
  | FFinite m e => let '(num, den) := ratio_of_dyadic m e in n * den <? num
  | FInf negative => negb negative
  | FNan => false
  end.

(** Source: catalogue-dump/ops/monitor.py:116-134, SHRANK. *)
Definition shrank_rows (s : DB) : list (string * Z * Z) :=
  omap (fun source =>
    match recent s [succeeded] source with
    | current :: previous :: _ =>
        match summary_records current, summary_records previous with
        | Some now, Some before =>
            if (SHRANK_FLOOR <=? before) && int_lt_float now (shrunk_limit before) then Some (source, now, before) else None
        | _, _ => None
        end
    | _ => None
    end) (job_sources s).

(** Source: catalogue-dump/ops/monitor.py, check_shrunk_sources. *)
Definition check_shrunk_sources : db Z :=
  rows ← gets shrank_rows;
  count_each (fun '(source, now, before) => raise_ "source.shrank" WARNING source [before; now] (about_source source)) rows.

(** * Workers and hosts *)

(** Source: catalogue-dump/ops/monitor.py:170-175, check_lost_workers. *)
Definition lost_rows (s : DB) : list Z :=
  (filter (fun p => wk_status (snd p) <> "stopped"
                    /\ wk_last_heartbeat_at (snd p) < db_now s - seconds (HEARTBEAT_SECONDS * LOST_INTERVALS))
          (map_to_list (db_workers s))).*1.

(** Source: catalogue-dump/ops/monitor.py, check_lost_workers. *)
Definition check_lost_workers : db Z :=
  rows ← gets lost_rows;
  count_each (fun id => raise_ "worker.lost" CRITICAL "" [id] (about_worker id)) rows.

(** A line of the last hour that counts for a host's refusals. Source:
    catalogue-dump/ops/monitor.py:196-197, BLOCKING. *)
Definition counts (s : DB) (host : string) (e : JobEvent) : bool :=
  bool_decide ((j_host <$> db_jobs s !! je_job_id e) = Some host) && (db_now s - seconds 3600 <? je_at e)
  && (str_contains "403" (je_message e) || str_contains "429" (je_message e) || bool_decide (je_level e = "error")).

(** The host, its errors and the lines considered. Source: catalogue-dump/ops/monitor.py:190-200, BLOCKING. *)
Definition blocking_rows (s : DB) : list (string * Z * Z) :=
  omap (fun host =>
    let considered := filter (fun e => counts s host e = true) (db_job_events s) in
    let errors := filter (fun e => je_level e = "error") considered in
    if BLOCKING_MINIMUM <=? Z.of_nat (length considered)
    then Some (host, Z.of_nat (length errors), Z.of_nat (length considered)) else None)
  (remove_dups (j_host <$> (map_to_list (db_jobs s)).*2)).

(** [errors / considered >= BLOCKING_SHARE]: a quarter is a double, and rounding
    is monotone. Source: catalogue-dump/ops/monitor.py:211-225, check_blocking_hosts. *)
Definition check_blocking_host (row : string * Z * Z) : db bool :=
  let '(host, errors, considered) := row in
  if considered <=? 4 * errors then raise_ "host.blocking" CRITICAL host [] nothing
  else _ ← resolve {| nk_condition := "host.blocking"; nk_subject := host; nk_values := [] |} None; mret false.

(** Source: catalogue-dump/ops/monitor.py, check_blocking_hosts. *)
Definition check_blocking_hosts : db Z := rows ← gets blocking_rows; count_each check_blocking_host rows.

(** Source: catalogue-dump/ops/monitor.py, check_degraded_run. *)
Definition check_degraded_run (run : Z) : db bool :=
  row ← gets (fun s => db_runs s !! run);
  match row with
  | Some r =>
      if bool_decide (r_status r = run_degraded)
      then raise_ "run.degraded" WARNING "" [run] {| su_run := Some run; su_job := None; su_source := None; su_worker := None |}
      else mret false
  | None => mret false
  end.

(** Source: catalogue-dump/ops/monitor.py, check_all. *)
Definition check_all : db (list (string * Z)) :=
  stale ← check_stale_sources; shrank ← check_shrunk_sources;
  lost ← check_lost_workers; blocking ← check_blocking_hosts;
  mret [("source.stale", stale); ("source.shrank", shrank); ("worker.lost", lost); ("host.blocking", blocking)].

(** * Retention *)

(** Source: catalogue-dump/ops/monitor.py:268-274, prune. *)
Definition prunable (s : DB) (n : Notification) : bool :=
  (n_at n <? db_now s - days NOTIFICATION_RETENTION_DAYS) && (is_some (n_resolved_at n) || is_some (n_acknowledged_at n)).

(** Source: catalogue-dump/ops/monitor.py, prune. *)
Definition prune : db () := modify (fun s =>
  let horizon := db_now s - days EVENT_RETENTION_DAYS in
  s <| db_job_events := filter (fun e => horizon <= je_at e) (db_job_events s) |>
    <| db_events := filter (fun e => horizon <= ev_at e) (db_events s) |>
    <| db_notifications := filter (fun p => prunable s (snd p) = false) (db_notifications s) |>).
