(* ===== verification/Health.v ===== *)
(** Sources that are out of runs until their site recovers
    ([catalogue-dump/.../ops/health.py]). What the site answers, and whether a text
    is a JSON document, are parameters. *)
From S2P Require Export Monitor.
From stdpp Require Import sorting.
Open Scope Z_scope.

(** Source: catalogue-dump/ops/health.py:207-215, _record. *)
Definition enable_source (source : string) (enabled : bool) : db () := modify (fun s =>
  let setting := match db_settings s !! source with
                 | Some x => {| ss_enabled := enabled; ss_paused := ss_paused x; ss_params := ss_params x |}
                 | None => {| ss_enabled := enabled; ss_paused := false; ss_params := [] |}
                 end in
  s <| db_settings := <[source := setting]> (db_settings s) |>).

Definition condition (name source : string) : NoteKey :=
  {| nk_condition := name; nk_subject := source; nk_values := [] |}.

(** Source: catalogue-dump/ops/health.py, disable. *)
Definition disable (source url expect : string) (required_ok : Z) : db () := transaction (
  _ ← enable_source source false;
  _ ← modify (fun s =>
        let old := db_probes s !! source in
        s <| db_probes := <[source :=
          {| pb_url := url; pb_expect := expect;
             pb_last_checked_at := old ≫= pb_last_checked_at; pb_last_status := old ≫= pb_last_status;
             pb_last_error := old ≫= pb_last_error; pb_checks := 0; pb_consecutive_ok := 0;
             pb_required_ok := required_ok; pb_recovered_at := None |}]> (db_probes s) |>);
  _ ← resolve (condition "source.stale" source) (Some source);
  _ ← resolve (condition "job.failed" source) (Some source);
  _ ← notify "source.disabled" WARNING (condition "source.disabled" source) (about_source source);
  mret ()).

(** [order by last_checked_at nulls first] *)
Definition checked_before (p q : string * ProbeRow) : Prop :=
  match pb_last_checked_at p.2, pb_last_checked_at q.2 with
  | None, _ => True
  | Some _, None => False
  | Some a, Some b => a <= b
  end.
#[export] Instance checked_before_dec p q : Decision (checked_before p q).
Proof. unfold checked_before. destruct (pb_last_checked_at p.2), (pb_last_checked_at q.2); apply _. Defined.

(** Source: catalogue-dump/ops/health.py:53-58, PENDING. *)
Definition waiting (s : DB) : list (string * ProbeRow) :=
  merge_sort checked_before (filter (fun p => pb_recovered_at (snd p) = None) (map_to_list (db_probes s))).

Section probe.
Context (fetch : string -> string + Z * string) (is_json : string -> bool).

(** The status, and why it does not count as recovered. Source: catalogue-dump/ops/health.py, _probe. *)
Definition probe (url expect : string) : option Z * option string :=
  match fetch url with
  | inl error => (None, Some (str_take 500 error))
  | inr (status, text) =>
      if negb (status =? 200) then (Some status, Some ("HTTP " +:+ pretty status))
      else if bool_decide (expect = "json") && negb (is_json text)
      then (Some status, Some "200 but the body is not JSON")
      else (Some status, None)
  end.

Definition update_probe (source : string) (f : DB -> ProbeRow -> ProbeRow) : db (option ProbeRow) := fun s =>
  match db_probes s !! source with
  | Some p => (Ok (Some (f s p)), s <| db_probes := <[source := f s p]> (db_probes s) |>)
  | None => (Ok None, s)
  end.

(** Source: catalogue-dump/ops/health.py:173-181, _record. *)
Definition failed_probe (status : option Z) (error : string) (s : DB) (p : ProbeRow) : ProbeRow :=
  p <| pb_last_checked_at := Some (db_now s) |> <| pb_last_status := status |> <| pb_last_error := Some error |>
    <| pb_checks := pb_checks p + 1 |> <| pb_consecutive_ok := 0 |>.
(** Source: catalogue-dump/ops/health.py:185-194, _record. *)
Definition passed_probe (status : option Z) (s : DB) (p : ProbeRow) : ProbeRow :=
  p <| pb_last_checked_at := Some (db_now s) |> <| pb_last_status := status |> <| pb_last_error := None |>
    <| pb_checks := pb_checks p + 1 |> <| pb_consecutive_ok := pb_consecutive_ok p + 1 |>.

(** The source is back in runs. Source: catalogue-dump/ops/health.py:206-232, _record. *)
Definition recover (source : string) : db () := transaction (
  _ ← enable_source source true;
  _ ← update_probe source (fun s p => p <| pb_recovered_at := Some (db_now s) |>);
  _ ← resolve (condition "source.disabled" source) (Some source);
  _ ← notify "source.recovered" INFO (condition "source.recovered" source) (about_source source);
  mret ()).

(** Source: catalogue-dump/ops/health.py, _record. *)
Definition record_probe (source : string) (status : option Z) (error : option string) : db bool :=
  match error with
  | Some error => _ ← update_probe source (failed_probe status error); mret false
  | None =>
      updated ← update_probe source (passed_probe status);
      match updated with
      | None => throw (AssertionError "result is not None")
      | Some p => if pb_consecutive_ok p <? pb_required_ok p then mret false else _ ← recover source; mret true
      end
  end.

(** Source: catalogue-dump/ops/health.py, check_recovered. *)
Definition check_recovered : db Z :=
  pending ← gets waiting;
  count_each (fun '(source, p) => let '(status, error) := probe (pb_url p) (pb_expect p) in record_probe source status error) pending.
End probe.
