(* ===== verification/AlertProperties.v ===== *)
(** What the alerts promise: a condition is open at most once, staleness alerts
    follow the source they are about, and a disabled source returns exactly when
    its site held up as many times running as it must. *)
From S2P Require Export Health.
From stdpp Require Import sorting.
Open Scope Z_scope.

(** * At most one open alert of a condition *)

Record alerts_ok (s : DB) : Prop := {
  alert_ids : forall i n, db_notifications s !! i = Some n -> i < db_next_note s;
  alert_once : forall i i' n n', db_notifications s !! i = Some n -> db_notifications s !! i' = Some n' ->
    is_open n = true -> is_open n' = true -> n_dedup_key n = n_dedup_key n' -> i = i';
}.

Lemma alerts_frame s s' :
  db_notifications s' = db_notifications s -> db_next_note s' = db_next_note s -> alerts_ok s -> alerts_ok s'.
Proof. intros E1 E2 [H1 H2]. split; rewrite E1; [rewrite E2; eauto|eauto]. Qed.

(** Rows may go, and may be closed. *)
Lemma alerts_shrink s s' :
  db_next_note s' = db_next_note s ->
  (forall i n', db_notifications s' !! i = Some n' -> exists n, db_notifications s !! i = Some n
     /\ n_dedup_key n' = n_dedup_key n /\ (is_open n' = true -> is_open n = true)) ->
  alerts_ok s -> alerts_ok s'.
Proof.
intros E H [H1 H2]. split.
- intros i n' Hi. apply H in Hi as (n & Hi & _). rewrite E. eauto.
- intros i i' n n' Hi Hi' O O' K. apply H in Hi as (m & Hi & K1 & O1), Hi' as (m' & Hi' & K2 & O2).
  eapply (H2 i i' m m'); eauto. congruence.
Qed.

Lemma keeps_alerts_modify f :
  (forall s, db_notifications (f s) = db_notifications s /\ db_next_note (f s) = db_next_note s) -> keeps alerts_ok (modify f : db ()).
Proof. intros F s Hs. destruct (F s). by eapply alerts_frame. Qed.
Lemma keeps_alerts_emit t r j w src : keeps alerts_ok (emit t r j w src).
Proof. by apply keeps_alerts_modify. Qed.
Lemma keeps_alerts_transaction {A} (m : db A) : keeps alerts_ok m -> keeps alerts_ok (transaction m).
Proof. apply keeps_transaction. Qed.

Lemma open_row_None s key :
  open_row s key = None ->
  forall i n, db_notifications s !! i = Some n -> is_open n = true -> n_dedup_key n <> key.
Proof.
unfold open_row. intros H i n Hi O K. destruct (list_find _ _) as [[]|] eqn:E; [done|].
apply list_find_None in E. rewrite Forall_forall in E. apply (E (i, n)); [|done]. by apply elem_of_map_to_list.
Qed.
Lemma open_row_Some s key i n :
  open_row s key = Some (i, n) -> db_notifications s !! i = Some n /\ is_open n = true /\ n_dedup_key n = key.
Proof.
unfold open_row. destruct (list_find _ _) as [[k p]|] eqn:E; [|done]. intros [= ->].
apply list_find_Some in E as (E & [O K] & _). split_and!; [|done..].
apply elem_of_map_to_list. by eapply list_elem_of_lookup_2.
Qed.

Lemma keeps_alerts_insert row : keeps alerts_ok (insert_notification row).
Proof.
intros s [H1 H2]. unfold wp, insert_notification. destruct (open_row s (n_dedup_key row)) eqn:E; [done|]. simpl.
split; simpl.
- intros i n [[<- _]|[_ Hi]]%lookup_insert_Some; [lia|]. specialize (H1 _ _ Hi). lia.
- intros i i' n n' [[<- <-]|[Hne Hi]]%lookup_insert_Some [[<- <-]|[Hne' Hi']]%lookup_insert_Some O O' K; eauto.
  + by destruct (open_row_None _ _ E _ _ Hi' O').
  + by destruct (open_row_None _ _ E _ _ Hi O).
Qed.

Lemma keeps_alerts_update guard f :
  (forall s n, n_dedup_key (f s n) = n_dedup_key n /\ (is_open (f s n) = true -> is_open n = true)) ->
  keeps alerts_ok (update_notifications guard f).
Proof.
intros F s Hs. unfold wp, update_notifications. simpl. eapply alerts_shrink; [| |exact Hs]; [done|]. simpl.
intros i n'. rewrite map_lookup_imap. destruct (db_notifications s !! i) as [n|]; [|done]. simpl. intros [= <-].
exists n. split; [done|]. destruct (guard i n); [apply F|done].
Qed.
#[export] Hint Resolve keeps_alerts_emit keeps_alerts_transaction keeps_alerts_insert : keeps.

Lemma keeps_alerts_notify kind severity key x : keeps alerts_ok (notify kind severity key x).
Proof.
unfold notify. apply keeps_bind; [apply keeps_gets|]. intros now. apply keeps_bind; [eauto with keeps|].
intros [id|]; eauto with keeps.
Qed.
Lemma keeps_alerts_resolve key source : keeps alerts_ok (resolve key source).
Proof.
unfold resolve. apply keeps_bind; [|intros [|]; eauto with keeps].
apply keeps_alerts_update. intros s n. split; [done|]. unfold is_open. simpl. done.
Qed.
Lemma keeps_alerts_acknowledge_rows ids by_ : keeps alerts_ok (acknowledge_rows ids by_).
Proof. apply keeps_alerts_update. intros s n. split; [done|]. unfold is_open. simpl. by rewrite andb_false_r. Qed.
#[export] Hint Resolve keeps_alerts_notify keeps_alerts_resolve keeps_alerts_acknowledge_rows : keeps.

Lemma keeps_count_each {A} I (f : A -> db bool) l : (forall x, keeps I (f x)) -> keeps I (count_each f l).
Proof.
intros H. induction l as [|x l IH]; simpl; [apply keeps_ret|]. apply keeps_bind; [done|]. intros b.
apply keeps_bind; [done|]. intros n. apply keeps_ret.
Qed.
Lemma keeps_alerts_raise kind severity subject values x : keeps alerts_ok (raise_ kind severity subject values x).
Proof. unfold raise_. eauto with keeps. Qed.
#[export] Hint Resolve keeps_alerts_raise : keeps.

Lemma keeps_alerts_check_all : keeps alerts_ok check_all.
Proof.
unfold check_all.
assert (keeps alerts_ok check_stale_sources).
{ unfold check_stale_sources. apply keeps_bind; [apply keeps_gets|]. intros l. apply keeps_count_each.
  intros [source n]. unfold check_stale_source. case_bool_decide; eauto with keeps. }
assert (keeps alerts_ok check_shrunk_sources).
{ unfold check_shrunk_sources. apply keeps_bind; [apply keeps_gets|]. intros l. apply keeps_count_each.
  intros [[source n] b]. eauto with keeps. }
assert (keeps alerts_ok check_lost_workers).
{ unfold check_lost_workers. apply keeps_bind; [apply keeps_gets|]. intros l. apply keeps_count_each. eauto with keeps. }
assert (keeps alerts_ok check_blocking_hosts).
{ unfold check_blocking_hosts. apply keeps_bind; [apply keeps_gets|]. intros l. apply keeps_count_each.
  intros [[host n] c]. unfold check_blocking_host. destruct (_ <=? _); eauto with keeps. }
eauto 10 with keeps.
Qed.

Lemma keeps_alerts_prune : keeps alerts_ok prune.
Proof.
intros s Hs. unfold wp, prune, modify. simpl. eapply alerts_shrink; [| |exact Hs]; [done|]. simpl.
intros i n' [Hi _]%map_lookup_filter_Some. by exists n'.
Qed.

Lemma keeps_alerts_enable source enabled : keeps alerts_ok (enable_source source enabled).
Proof. by apply keeps_alerts_modify. Qed.
Lemma keeps_alerts_update_probe source f : keeps alerts_ok (update_probe source f).
Proof. intros s Hs. unfold wp, update_probe. destruct (db_probes s !! source); [|done]. by apply (alerts_frame s). Qed.
#[export] Hint Resolve keeps_alerts_enable keeps_alerts_update_probe : keeps.

Lemma keeps_alerts_disable source url expect required_ok : keeps alerts_ok (disable source url expect required_ok).
Proof.
apply keeps_transaction, keeps_bind; [eauto with keeps|]. intros []. apply keeps_bind; [by apply keeps_alerts_modify|].
intros []. eauto 10 with keeps.
Qed.
Lemma keeps_alerts_recover source : keeps alerts_ok (recover source).
Proof. apply keeps_transaction. eauto 10 with keeps. Qed.
#[export] Hint Resolve keeps_alerts_recover : keeps.
Lemma keeps_alerts_record source status error : keeps alerts_ok (record_probe source status error).
Proof.
unfold record_probe. destruct error; [eauto with keeps|]. apply keeps_bind; [eauto with keeps|].
intros [p|]; [|eauto with keeps]. destruct (_ <? _); eauto with keeps.
Qed.

(** What the operators, the leader and the health checks do to the alerts. *)
Inductive AlertOp :=
| Raise (kind : string) (severity : Severity) (key : NoteKey) (x : Subject)
| Resolve (key : NoteKey) (source : option string)
| Acknowledge (id : Z) (by_ : string)
| AcknowledgeMany (ids : list Z) (by_ : string)
| CheckAll | CheckDegradedRun (run : Z) | Prune
| Disable (source url expect : string) (required_ok : Z)
| CheckRecovered (fetch : string -> string + Z * string) (is_json : string -> bool).

Definition alert_step (o : AlertOp) (s : DB) : DB :=
  match o with
  | Raise kind severity key x => (notify kind severity key x s).2
  | Resolve key source => (resolve key source s).2
  | Acknowledge id by_ => (acknowledge id by_ s).2
  | AcknowledgeMany ids by_ => (acknowledge_many ids by_ s).2
  | CheckAll => (check_all s).2
  | CheckDegradedRun run => (check_degraded_run run s).2
  | Prune => (prune s).2
  | Disable source url expect required_ok => (disable source url expect required_ok s).2
  | CheckRecovered fetch is_json => (check_recovered fetch is_json s).2
  end.

Lemma alert_step_ok o s : alerts_ok s -> alerts_ok (alert_step o s).
Proof.
destruct o; simpl; intros H; try (apply (keeps_alerts_notify _ _ _ _ s H)); try (apply (keeps_alerts_resolve _ _ s H));
  try (apply (keeps_alerts_check_all s H)); try (apply (keeps_alerts_prune s H));
  try (apply (keeps_alerts_disable _ _ _ _ s H)).
- assert (K : keeps alerts_ok (acknowledge id by_)) by (unfold acknowledge; apply keeps_bind; [eauto with keeps|]; intros [|]; eauto with keeps).
  apply (K s H).
- assert (E : forall l, keeps alerts_ok (emit_acknowledged l)) by (intros l; induction l; simpl; eauto with keeps).
  assert (K : keeps alerts_ok (acknowledge_many ids by_)).
  { unfold acknowledge_many. case_bool_decide; [apply keeps_ret|]. eauto 10 with keeps. }
  apply (K s H).
- assert (K : keeps alerts_ok (check_degraded_run run)).
  { unfold check_degraded_run. apply keeps_bind; [apply keeps_gets|]. intros [r|]; [|apply keeps_ret].
    case_bool_decide; eauto with keeps. }
  apply (K s H).
- assert (K : keeps alerts_ok (check_recovered fetch is_json)).
  { unfold check_recovered. apply keeps_bind; [apply keeps_gets|]. intros l. apply keeps_count_each.
    intros [source p]. destruct (probe fetch is_json _ _) as [st er]. apply keeps_alerts_record. }
  apply (K s H).
Qed.

(** * Which conditions are open *)

Definition opened (s : DB) (key : NoteKey) : Prop :=
  exists i n, db_notifications s !! i = Some n /\ is_open n = true /\ n_dedup_key n = key.

Lemma opened_row s key : opened s key <-> is_some (open_row s key) = true.
Proof.
split.
- intros (i & n & Hi & O & K). destruct (open_row s key) eqn:E; [done|]. by destruct (open_row_None _ _ E _ _ Hi O).
- destruct (open_row s key) as [[i n]|] eqn:E; [|done]. intros _. apply open_row_Some in E as (? & ? & ?). by exists i, n.
Qed.

(** Raising opens the condition, closing closes it; both leave the others. *)
Lemma raise_opened kind severity subject values x s :
  (forall i n, db_notifications s !! i = Some n -> i < db_next_note s) ->
  exists b s', raise_ kind severity subject values x s = (Ok b, s')
  /\ forall key, opened s' key <-> (key = {| nk_condition := kind; nk_subject := subject; nk_values := values |}) \/ opened s key.
Proof.
intros Hfresh. unfold raise_, notify, mbind, eff_bind, gets, insert_notification. cbn [n_dedup_key].
set (k0 := Build_NoteKey kind subject values). destruct (open_row s k0) as [p|] eqn:E.
- eexists _, _. split; [reflexivity|]. intros key. split; [by right|]. intros [->|]; [|done].
  apply opened_row. by rewrite E.
- eexists _, _. split; [reflexivity|]. unfold emit, modify. simpl. intros key. unfold opened. simpl. split.
  + intros (i & n & [[<- <-]|[_ Hi]]%lookup_insert_Some & O & K); [by left|right; eauto].
  + intros [->|(i & n & Hi & O & K)].
    * eexists (db_next_note s), _. rewrite lookup_insert_eq. by split_and!.
    * exists i, n. rewrite lookup_insert_ne; [done|]. apply Hfresh in Hi. lia.
Qed.

Lemma resolve_opened key source s :
  exists b s', resolve key source s = (Ok b, s') /\ forall key', opened s' key' <-> key' <> key /\ opened s key'.
Proof.
unfold resolve, mbind, eff_bind, update_notifications.
set (s1 := s <| db_notifications := _ |>). set (l := merge_sort _ _).
assert (H : forall s', db_notifications s' = db_notifications s1 -> forall key', opened s' key' <-> key' <> key /\ opened s key').
{ intros s' E key'. unfold opened. rewrite E. subst s1. simpl. setoid_rewrite map_lookup_imap. split.
  - intros (i & n & Hi & O & <-). destruct (db_notifications s !! i) as [m|] eqn:Em; [|done]. simpl in Hi. simplify_eq.
    case_bool_decide as Hk; simpl in *; [destruct (n_resolved_at m) eqn:Er; simpl in *|].
    + unfold is_open in O. by rewrite Er in O.
    + done.
    + split; [done|]. by exists i, m.
  - intros (Hne & i & n & Hi & O & <-). exists i, n. rewrite Hi. simpl. rewrite bool_decide_false by done. by split_and!. }
destruct l as [|i l']; (eexists _, _; split; [reflexivity|]); by apply H.
Qed.

Definition stale_key (source : string) : NoteKey :=
  {| nk_condition := "source.stale"; nk_subject := source; nk_values := [] |}.

(** The rows of distinct sources are checked independently. *)
Lemma check_stale_each l s :
  NoDup l.*1 -> alerts_ok s ->
  exists n s', count_each check_stale_source l s = (Ok n, s') /\
  forall source, opened s' (stale_key source) <->
    (exists k, (source, k) ∈ l /\ (STALE_RUNS <= k)%nat) \/ (source ∉ l.*1 /\ opened s (stale_key source)).
Proof.
revert s. induction l as [|[source k] l IH]; intros s Hnd Hs; cbn [count_each].
{ exists 0, s. split; [done|]. intros src. split; [right; split; [apply not_elem_of_nil|done]|].
  intros [(? & []%elem_of_nil & _)|[_ ?]]; done. }
apply NoDup_cons in Hnd as [Hn Hnd].
assert (H : exists b s1, check_stale_source (source, k) s = (Ok b, s1) /\ alerts_ok s1 /\
  forall src, opened s1 (stale_key src) <-> (src = source /\ (STALE_RUNS <= k)%nat) \/ (src <> source /\ opened s (stale_key src))).
{ unfold check_stale_source. case_bool_decide as Hk.
  - destruct (raise_opened "source.stale" WARNING source [] (about_source source) s (alert_ids s Hs)) as (b & s1 & E & O).
    exists b, s1. split; [done|]. split; [pose proof (keeps_alerts_raise "source.stale" WARNING source [] (about_source source) s Hs) as K; unfold wp in K; by rewrite E in K|].
    intros src. rewrite O. split.
    + intros [[= <-]|]; [by left|]. destruct (decide (src = source)); [by left|by right].
    + intros [[-> _]|[_ ?]]; [by left|by right].
  - destruct (resolve_opened (stale_key source) (Some source) s) as (b & s1 & E & O).
    exists false, s1. unfold mbind, eff_bind. fold (stale_key source). rewrite E. split; [done|].
    split; [pose proof (keeps_alerts_resolve (stale_key source) (Some source) s Hs) as K; unfold wp in K; by rewrite E in K|].
    intros src. rewrite O. split.
    + intros [Hne ?]. right. split; [|done]. intros ->. by apply Hne.
    + intros [[_ ?]|[Hne ?]]; [done|]. split; [|done]. intros [= ->]. by apply Hne. }
destruct H as (b & s1 & E & Hs1 & O). destruct (IH s1 Hnd Hs1) as (n & s2 & E2 & O2).
unfold mbind, eff_bind. rewrite E, E2. eexists _, s2. split; [reflexivity|]. intros src. rewrite O2, O. clear E E2 O O2 IH.
change ((source, k) :: l).*1 with (source :: l.*1). rewrite not_elem_of_cons. split.
- intros [(k' & Hk' & ?)|[Hnot [[-> ?]|[? ?]]]]; [left; exists k'|left; exists k|right]; rewrite ?elem_of_cons; auto.
- intros [(k' & [[= -> ->]|Hk']%elem_of_cons & ?)|[[? ?] ?]].
  + right. split; [done|]. by left.
  + left. by exists k'.
  + right. split; [done|]. by right.
Qed.

(** The last finished runs of a source. *)
Definition last_runs (s : DB) (source : string) : list JobRow :=
  take STALE_RUNS (recent s [succeeded; degraded; failed] source).
Definition empty_run (j : JobRow) : Prop := default 0 (summary_records j) = 0.
#[export] Instance empty_run_dec j : Decision (empty_run j).
Proof. unfold empty_run. apply _. Defined.

Lemma recent_source s states source j :
  j ∈ recent s states source -> j_source_id j = source /\ source ∈ job_sources s.
Proof.
unfold recent. rewrite merge_sort_Permutation, list_elem_of_filter. intros [(<- & _ & _) H]. split; [done|].
apply elem_of_remove_dups, list_elem_of_fmap. eauto.
Qed.

Lemma stale_rows_spec s source k :
  (source, k) ∈ stale_rows s <->
  (STALE_RUNS <= length (last_runs s source))%nat /\ k = length (filter empty_run (last_runs s source)).
Proof.
unfold stale_rows. rewrite list_elem_of_omap. split.
- intros (src & _ & E). fold (last_runs s src) in E. case_bool_decide as H; simplify_eq. by split.
- intros [H ->]. exists source. fold (last_runs s source). rewrite bool_decide_true by done. split; [|done].
  destruct (last_runs s source) as [|j l] eqn:E; [unfold STALE_RUNS in H; simpl in H; lia|].
  apply (recent_source s [succeeded; degraded; failed] source j).
  apply (subseteq_take STALE_RUNS). fold (last_runs s source). rewrite E. by left.
Qed.

Lemma stale_rows_NoDup s : NoDup (stale_rows s).*1.
Proof.
unfold stale_rows. set (f := fun source : string => _). assert (H : forall l, NoDup l -> NoDup (omap f l).*1 /\ forall x, x ∈ (omap f l).*1 -> x ∈ l).
{ assert (F : forall x y, f x = Some y -> y.1 = x) by (intros x y; unfold f; case_bool_decide; intros; by simplify_eq).
  induction l as [|x l IH]; intros Hnd; [split; [constructor|done]|]. apply NoDup_cons in Hnd as [Hx Hnd].
  destruct (IH Hnd) as [N S]. cbn [omap list_omap]. destruct (f x) as [[y k]|] eqn:E.
  - apply F in E as E'. simpl in E'. subst y. split.
    + apply NoDup_cons. split; [|done]. intros Hin. by apply Hx, S.
    + intros z [->|Hz]%elem_of_cons; [by left|]. right. by apply S.
  - split; [done|]. intros z Hz. right. by apply S. }
apply H, NoDup_remove_dups.
Qed.

Lemma filter_full {A} (P : A -> Prop) `{forall x, Decision (P x)} (l : list A) :
  (length l <= length (filter P l))%nat <-> Forall P l.
Proof.
split; [|intros F; by rewrite filter_all].
induction l as [|x l IH]; [constructor|]. pose proof (length_filter P l) as L. rewrite filter_cons.
case_decide; simpl; intros Hl; [constructor; [done|apply IH; lia]|lia].
Qed.

(** C31. A condition is never on the operators' screen twice. Whatever sequence of
    operations starts from an empty table (raising, resolving and acknowledging,
    the leader's rules and pruning, disabling sources and probing them for
    recovery), two notifications that are both unresolved and unacknowledged have
    different deduplication keys. *)
Theorem alerts_open_once ops s i i' n n' :
  db_notifications s = ∅ ->
  let s' := foldl (fun s o => alert_step o s) s ops in
  db_notifications s' !! i = Some n -> db_notifications s' !! i' = Some n' ->
  is_open n = true -> is_open n' = true -> n_dedup_key n = n_dedup_key n' -> i = i'.
Proof.
intros Hs s'. assert (H : forall l t, alerts_ok t -> alerts_ok (foldl (fun s o => alert_step o s) t l)).
{ induction l as [|o l IH]; intros t Ht; simpl; [done|]. by apply IH, alert_step_ok. }
apply H. split; rewrite Hs; intros *; by rewrite lookup_empty.
Qed.

(** The staleness alert follows its source. After the leader checked every
    source, the alert of a source that finished at least three runs is open
    exactly when none of the last three returned a record: it is raised when the
    third empty run in a row finishes and closed by the next run that returns
    something. The alert of a source with fewer runs is left as it was. *)
Theorem stale_alert_follows_source s source :
  alerts_ok s ->
  exists raised s', check_stale_sources s = (Ok raised, s') /\
  (opened s' (stale_key source) <->
     if bool_decide (STALE_RUNS <= length (last_runs s source))%nat then Forall empty_run (last_runs s source)
     else opened s (stale_key source)).
Proof.
intros Hs. destruct (check_stale_each (stale_rows s) s (stale_rows_NoDup s) Hs) as (n & s' & E & O).
exists n, s'. split; [exact E|]. rewrite O. case_bool_decide as H.
- rewrite <- (filter_full empty_run). split.
  + intros [(k & Hk & ?)|[Hn _]].
    * apply stale_rows_spec in Hk as [_ ->]. assert (length (last_runs s source) <= STALE_RUNS)%nat; [|lia].
      unfold last_runs. rewrite length_take. lia.
    * destruct Hn. apply list_elem_of_fmap. exists (source, length (filter empty_run (last_runs s source))).
      split; [done|]. by apply stale_rows_spec.
  + intros Hl. left. eexists. split; [apply stale_rows_spec; split; [done|reflexivity]|]. lia.
- split.
  + intros [(k & Hk & _)|[_ ?]]; [|done]. by apply stale_rows_spec in Hk as [? _].
  + intros Ho. right. split; [|done]. intros Hin. apply list_elem_of_fmap in Hin as ([src k] & -> & Hk).
    by apply stale_rows_spec in Hk as [? _].
Qed.

(** * Sources that are out of runs *)

(** The results of the probes of one source, in order, while it waits for a
    recovery; a source that recovered is not probed again. *)
Fixpoint probe_results (source : string) (results : list (option Z * option string)) : db () :=
  match results with
  | [] => mret ()
  | (status, error) :: r =>
      waits ← gets (fun s => match db_probes s !! source with Some p => is_none (pb_recovered_at p) | None => false end);
      _ ← (if (waits : bool) then _ ← record_probe source status error; mret () else mret ());
      probe_results source r
  end.

(** The reference: the site held up as many times running as it must. *)
Definition held_up (required_ok : nat) (results : list (option Z * option string)) : Prop :=
  exists before after, results = before ++ after /\ (required_ok <= length after)%nat
    /\ Forall (fun r => r.2 = None) (take required_ok after).

Definition enabled_in (s : DB) (source : string) : option bool := ss_enabled <$> db_settings s !! source.

(** The state of a source that waits, having just answered [n] times running. *)
Definition waits_with (s : DB) (source : string) (n required : Z) : Prop :=
  enabled_in s source = Some false /\ exists p, db_probes s !! source = Some p
  /\ pb_recovered_at p = None /\ pb_consecutive_ok p = n /\ pb_required_ok p = required.
Definition is_back (s : DB) (source : string) : Prop :=
  enabled_in s source = Some true /\ exists p, db_probes s !! source = Some p /\ is_some (pb_recovered_at p) = true.

Lemma notes_probes s s' : notes_only s s' -> db_probes s' = db_probes s /\ db_settings s' = db_settings s.
Proof. unfold notes_only. by intros ->. Qed.

Lemma notify_total kind severity key x s : exists r s', notify kind severity key x s = (Ok r, s') /\ notes_only s s'.
Proof.
pose proof (notify_notes kind severity key x s) as N. destruct (notify kind severity key x s) as [[r|e] s'] eqn:E; [by exists r, s'|].
revert E. unfold notify, mbind, eff_bind, gets, insert_notification. by destruct (open_row s _).
Qed.
Lemma resolve_total key source s : exists r s', resolve key source s = (Ok r, s') /\ notes_only s s'.
Proof.
pose proof (resolve_notes key source s) as N. destruct (resolve_opened key source s) as (b & s' & E & _).
rewrite E in N. by exists b, s'.
Qed.

Lemma recover_back source s p :
  db_probes s !! source = Some p -> exists s', recover source s = (Ok (), s') /\ is_back s' source.
Proof.
intros Hp. unfold recover, transaction, mbind, eff_bind, enable_source, modify, update_probe. simpl. rewrite Hp. simpl.
set (s1 := _ <| db_probes := _ |>).
destruct (resolve_total (condition "source.disabled" source) (Some source) s1) as (r & s2 & E & N). rewrite E.
destruct (notify_total "source.recovered" INFO (condition "source.recovered" source) (about_source source) s2) as (r' & s3 & E' & N').
rewrite E'. exists s3. split; [done|]. apply notes_probes in N as [P S], N' as [P' S'].
unfold is_back, enabled_in. rewrite P', P, S', S. subst s1. simpl. rewrite !lookup_insert_eq. simpl.
split; [by destruct (db_settings s !! source)|]. eexists. split; [reflexivity|done].
Qed.

(** One probe of a source that waits. *)
Lemma record_probe_step source status error s n required :
  waits_with s source n required ->
  exists b s', record_probe source status error s = (Ok b, s') /\
  match error with
  | Some _ => waits_with s' source 0 required
  | None => if n + 1 <? required then waits_with s' source (n + 1) required else is_back s' source
  end.
Proof.
intros (En & p & Hp & Hr & <- & <-). unfold record_probe. destruct error as [e|].
- unfold mbind, eff_bind, update_probe. rewrite Hp. eexists _, _. split; [reflexivity|]. split; [done|].
  eexists. simpl. rewrite lookup_insert_eq. by split_and!.
- unfold mbind, eff_bind, update_probe at 1. rewrite Hp. cbn [passed_probe]. set (s1 := s <| db_probes := _ |>).
  change (pb_consecutive_ok (passed_probe status s p)) with (pb_consecutive_ok p + 1).
  change (pb_required_ok (passed_probe status s p)) with (pb_required_ok p).
  destruct (pb_consecutive_ok p + 1 <? pb_required_ok p) eqn:El.
  + eexists _, _. split; [reflexivity|]. split; [done|]. eexists. subst s1. simpl. rewrite lookup_insert_eq. by split_and!.
  + destruct (recover_back source s1 (passed_probe status s p)) as (s2 & E & B); [subst s1; simpl; by rewrite lookup_insert_eq|].
    rewrite E. by exists true, s2.
Qed.

Lemma probe_results_back source results s :
  is_back s source -> probe_results source results s = (Ok (), s).
Proof.
intros (En & p & Hp & Hr). induction results as [|[status error] r IH]; [done|]. simpl.
unfold mbind, eff_bind, gets. rewrite Hp. by destruct (pb_recovered_at p).
Qed.

Lemma probe_results_waits source status error r s n required :
  waits_with s source n required ->
  exists b s', record_probe source status error s = (Ok b, s')
  /\ probe_results source ((status, error) :: r) s = probe_results source r s'.
Proof.
intros W. destruct (record_probe_step source status error s n required W) as (b & s' & E & _).
destruct W as (_ & p & Hp & Hr & _). exists b, s'. split; [done|]. simpl.
unfold mbind, eff_bind, gets. rewrite Hp, Hr. simpl. by rewrite E.
Qed.

Lemma held_up_skip required pre e r :
  (length pre < required)%nat -> Forall (fun x => x.2 = None) pre -> e.2 <> None ->
  (held_up required (pre ++ e :: r) <-> held_up required r).
Proof.
intros Hl Hp He. split; intros (before & after & E & Ha & F).
- destruct (decide (length before <= length pre)%nat) as [Hb|Hb].
  + exfalso. apply He. rewrite Forall_lookup in F. apply (F (length pre - length before)%nat).
    rewrite lookup_take_lt by lia. assert (He' : (before ++ after) !! length pre = Some e).
    { rewrite <- E, lookup_app_r by lia. by rewrite Nat.sub_diag. }
    by rewrite lookup_app_r in He' by lia.
  + apply app_eq_inv in E as [(k & -> & E)|(k & -> & E)].
    * rewrite length_app in Hb. lia.
    * destruct k as [|x k]; [rewrite app_nil_r in Hb; lia|]. injection E as <- ->. by exists k, after.
- exists (pre ++ e :: before), after. rewrite E, <- app_assoc. by split_and!.
Qed.

Lemma probe_results_spec source required results : forall s pre,
  (length pre < required)%nat -> Forall (fun x => x.2 = None) pre ->
  waits_with s source (Z.of_nat (length pre)) (Z.of_nat required) ->
  exists s', probe_results source results s = (Ok (), s')
  /\ (enabled_in s' source = Some true <-> held_up required (pre ++ results)).
Proof.
induction results as [|[status error] r IH]; intros s pre Hl Hp W.
- exists s. split; [done|]. destruct W as [En _]. rewrite En. split; [done|].
  intros (before & after & E & Ha & _). rewrite app_nil_r in E. subst pre. rewrite length_app in Hl. lia.
- destruct (probe_results_waits source status error r s _ _ W) as (b & s1 & E1 & ->).
  destruct (record_probe_step source status error s _ _ W) as (b' & s1' & E1' & H). rewrite E1 in E1'. simplify_eq.
  destruct error as [e|].
  + destruct (IH s1' [] ltac:(simpl; lia) ltac:(constructor) H) as (s2 & E2 & Eq). exists s2. split; [done|].
    rewrite Eq. by rewrite held_up_skip.
  + destruct (_ <? _) eqn:El; bool_facts.
    * destruct (IH s1' (pre ++ [(status, None)])) as (s2 & E2 & Eq).
      -- rewrite length_app. simpl. lia.
      -- apply Forall_app_2; [done|]. by constructor.
      -- rewrite length_app. simpl. replace (Z.of_nat (length pre + 1)) with (Z.of_nat (length pre) + 1) by lia. done.
      -- exists s2. split; [done|]. rewrite Eq. by rewrite <- app_assoc.
    * rewrite (probe_results_back _ _ _ H). exists s1'. split; [done|]. destruct H as [-> _]. split; [|done]. intros _.
      exists [], (pre ++ (status, None) :: r). split_and!; [done|rewrite length_app; simpl; lia|].
      assert (required = length (pre ++ [(status, @None string)])) as -> by (rewrite length_app; simpl; lia).
      change ((status, None) :: r) with ([(status, @None string)] ++ r). rewrite app_assoc, take_app_length.
      apply Forall_app_2; [done|]. by constructor.
Qed.

Lemma disable_waits source url expect required_ok s :
  exists s', disable source url expect required_ok s = (Ok (), s') /\ waits_with s' source 0 required_ok.
Proof.
unfold disable, transaction, mbind, eff_bind, enable_source, modify. set (s1 := _ <| db_probes := _ |>).
destruct (resolve_total (condition "source.stale" source) (Some source) s1) as (r & s2 & E & N). rewrite E.
destruct (resolve_total (condition "job.failed" source) (Some source) s2) as (r' & s3 & E' & N'). rewrite E'.
destruct (notify_total "source.disabled" WARNING (condition "source.disabled" source) (about_source source) s3) as (r'' & s4 & E'' & N'').
rewrite E''. exists s4. split; [done|]. apply notes_probes in N as [P S], N' as [P' S'], N'' as [P'' S''].
unfold waits_with, enabled_in. rewrite P'', P', P, S'', S', S. subst s1. simpl. rewrite !lookup_insert_eq. simpl.
split; [by destruct (db_settings s !! source)|]. eexists. by split_and!.
Qed.

(** C29. A disabled source is back in runs exactly when its site held up. Whatever
    was recorded of it before, once a source is disabled with a positive number of
    answers to wait for, recording any sequence of probe results (a source that
    recovered is not probed again) leaves it enabled if and only if the sequence
    contains that many successes in a row: the counter the code keeps in the
    database decides the same as the reference definition over the whole history,
    one failure starting the count again. *)
Theorem source_returns_when_it_held_up source url expect required results s :
  (0 < required)%nat ->
  exists s1 s', disable source url expect (Z.of_nat required) s = (Ok (), s1)
  /\ enabled_in s1 source = Some false
  /\ probe_results source results s1 = (Ok (), s')
  /\ (enabled_in s' source = Some true <-> held_up required results).
Proof.
intros Hr. destruct (disable_waits source url expect (Z.of_nat required) s) as (s1 & E1 & W).
destruct (probe_results_spec source required results s1 [] Hr (Forall_nil_2 _) W) as (s' & E & Eq).
exists s1, s'. split_and!; [done|apply W|done|exact Eq].
Qed.

(** * What the alerts do not promise *)

(** An acknowledged alert whose condition never ended is pruned all the same. *)
Lemma acknowledged_alert_pruned s i n t :
  db_notifications s !! i = Some n -> n_resolved_at n = None -> n_acknowledged_at n = Some t ->
  n_at n < db_now s - days NOTIFICATION_RETENTION_DAYS -> db_notifications (prune s).2 !! i = None.
Proof.
intros Hi Hr Ha Ht. unfold prune, modify. simpl. apply map_lookup_filter_None. right. intros n' Hn'. simplify_eq. simpl.
unfold prunable. rewrite Ha, orb_true_r, andb_true_r. destruct (_ <? _) eqn:E; [done|]. bool_facts. lia.
Qed.

(** The alert of a host that stopped refusing stays open: with no error line left
    in the hour the host has no row, and only a row closes it. *)
Lemma quiet_host_alert_stays s :
  (forall e, e ∈ db_job_events s -> je_at e <= db_now s - seconds 3600) ->
  check_blocking_hosts s = (Ok 0, s).
Proof.
intros H. unfold check_blocking_hosts, mbind, eff_bind, gets. assert (blocking_rows s = []) as ->; [|done].
unfold blocking_rows. induction (remove_dups _) as [|h l IH]; [done|]. cbn [omap list_omap].
assert (filter (fun e => counts s h e = true) (db_job_events s) = []) as ->; [|exact IH].
apply filter_none, Forall_forall. intros e He. unfold counts. specialize (H e He).
replace (db_now s - seconds 3600 <? je_at e) with false; [by rewrite andb_false_r|]. symmetry. apply Z.ltb_ge. lia.
Qed.

(** * The hypotheses hold *)

Module AlertDemo.
(** A finished job of [clay], the number of records it returned. *)
Definition ended (at_ : Z) (records : Z) : JobRow :=
  {| j_run_id := 0; j_source_id := "clay"; j_host := "clay.example"; j_state := succeeded; j_priority := 100; j_attempt := 1;
     j_max_attempts := 3; j_requires := []; j_requires_any := []; j_scheduled_for := 0; j_lease_owner := None;
     j_lease_expires_at := None; j_cancel_requested := false; j_pause_requested := false; j_resume_without_attempt := false;
     j_started_at := Some 0; j_finished_at := Some at_; j_error := None; j_trace_id := None; j_artifact_path := None;
     j_artifact_sha256 := None; j_artifact_size := None;
     j_summary := Some {| sm_discovered := None; sm_records := Some records; sm_requests := None; sm_rendered_pages := None;
                          sm_error_count := None; sm_truncated := None; sm_interrupted := None; sm_write_status := None |};
     j_proxy_snapshot := None; j_selected_browser_backend := None; j_delivery_generation := 1; j_execution_token := None;
     j_paused_by_source := false |}.
(** A productive run followed by three empty ones. *)
Definition dry : DB :=
  (empty_store 1000 ∅ ∅ ∅) <| db_jobs := {[ 1 := ended 10 7; 2 := ended 20 0; 3 := ended 30 0; 4 := ended 40 0 ]} |>.
Definition recovered_again : DB := ((check_stale_sources dry).2) <| db_jobs := <[5 := ended 50 9]> (db_jobs dry) |>.

Example raised_then_closed :
  (check_all dry).1 = Ok [("source.stale", 1); ("source.shrank", 0); ("worker.lost", 0); ("host.blocking", 0)]
  /\ is_some (open_row (check_stale_sources dry).2 (stale_key "clay")) = true
  /\ (check_stale_sources (check_stale_sources dry).2).1 = Ok 0
  /\ open_row (check_stale_sources recovered_again).2 (stale_key "clay") = None.
Proof. vm_compute. by split_and!. Qed.

(** A source that drops from 100 records to 69 shrank; to 70 it did not. *)
Definition dropped (now : Z) : DB := (empty_store 1000 ∅ ∅ ∅) <| db_jobs := {[ 1 := ended 10 100; 2 := ended 20 now ]} |>.
Example shrinking : shrank_rows (dropped 69) = [("clay", 69, 100)] /\ shrank_rows (dropped 70) = [].
Proof. vm_compute. by split_and!. Qed.

Lemma dry_alerts_ok : alerts_ok dry.
Proof. split; intros *; unfold dry; simpl; by rewrite lookup_empty. Qed.
End AlertDemo.

(** Two raises of one condition leave one row. *)
Lemma alerts_open_once_witness :
  let ops := [Raise "source.stale" WARNING (stale_key "clay") (about_source "clay"); Acknowledge 0 "anna"; CheckAll; CheckAll] in
  db_notifications AlertDemo.dry = ∅ /\
  (forall i i' n n', db_notifications (foldl (fun s o => alert_step o s) AlertDemo.dry ops) !! i = Some n ->
     db_notifications (foldl (fun s o => alert_step o s) AlertDemo.dry ops) !! i' = Some n' ->
     is_open n = true -> is_open n' = true -> n_dedup_key n = n_dedup_key n' -> i = i').
Proof. split; [reflexivity|]. intros i i' n n'. apply alerts_open_once. reflexivity. Defined.

Lemma stale_alert_follows_source_witness :
  alerts_ok AlertDemo.dry /\ exists raised s', check_stale_sources AlertDemo.dry = (Ok raised, s') /\
  (opened s' (stale_key "clay") <->
     if bool_decide (STALE_RUNS <= length (last_runs AlertDemo.dry "clay"))%nat
     then Forall empty_run (last_runs AlertDemo.dry "clay") else opened AlertDemo.dry (stale_key "clay")).
Proof. split; [apply AlertDemo.dry_alerts_ok|]. apply (stale_alert_follows_source AlertDemo.dry "clay"), AlertDemo.dry_alerts_ok. Defined.

(** An answer, a failure, then two answers running bring the source back. *)
Lemma source_returns_when_it_held_up_witness :
  (0 < 2)%nat /\ exists s1 s', disable "clay" "https://clay.example/" "json" (Z.of_nat 2) AlertDemo.dry = (Ok (), s1)
  /\ enabled_in s1 "clay" = Some false
  /\ probe_results "clay" [(Some 200, None); (Some 500, Some "HTTP 500"); (Some 200, None); (Some 200, None)] s1 = (Ok (), s')
  /\ (enabled_in s' "clay" = Some true
      <-> held_up 2 [(Some 200, None); (Some 500, Some "HTTP 500"); (Some 200, None); (Some 200, None)]).
Proof. split; [lia|]. apply (source_returns_when_it_held_up "clay" "https://clay.example/" "json" 2). lia. Defined.
