(* ===== verification/Diagnostics.v ===== *)
(** Sanitising diagnostic text ([models/sanitization.py]): embedded URLs are
    sanitised, labelled credentials and authorization values redacted, and what
    is kept is bounded. *)
From S2P Require Export Sanitization Regex.
Open Scope Z_scope.

(** Source: models/sanitization.py:16-16, _EMBEDDED_URL. *)
Definition EMBEDDED_URL : regex := rx re_I "[a-z][a-z0-9+.-]*://[^\s<>`']+".
(** Source: models/sanitization.py:17-24, _LABELED_CREDENTIAL. *)
Definition LABELED_CREDENTIAL : regex := rx re_I
  "\b(authorization|proxy[-_ ]?authorization|cookie|set[-_ ]?cookie|password|passwd|passphrase|secret|api[-_ ]?key|access[-_ ]?token|refresh[-_ ]?token|token|signature|credential)\b(['`]?)(\s*[:=]\s*)(?:'[^']*'|`[^`]*`|(?:bearer|basic)\s+[^\s,;&]+|[^\s,;&]+)".
(** Source: models/sanitization.py:25-28, _AUTHORIZATION_VALUE. *)
Definition AUTHORIZATION_VALUE : regex := rx re_I "\b(bearer|basic)(\s+)[a-z0-9._~+/=-]+".

(** [pattern.sub(f, value)] of a pattern without empty matches. *)
Definition re_sub_with (r : regex) (f : match_object -> string) (value : string) : string :=
  interleave (re_split r value) (map f (finditer r value)).

(** Source: models/sanitization.py, sanitize_diagnostic_text. *)
Definition sanitize_diagnostic_text (value : string) (max_length : Z) : result pyexn string :=
  _ ← ensure (1 <=? max_length) (ValueError "max_length must be positive");
  let sanitized := re_sub_with EMBEDDED_URL (fun x => sanitize_url (whole x)) value in
  let sanitized := re_sub_with LABELED_CREDENTIAL
    (fun x => group_text 1 x +:+ group_text 2 x +:+ group_text 3 x +:+ REDACTED) sanitized in
  let sanitized := re_sub_with AUTHORIZATION_VALUE (fun x => group_text 1 x +:+ group_text 2 x +:+ REDACTED) sanitized in
  Ok (bounded_string sanitized max_length).

Lemma diagnostic_text_total value max_length : 1 <= max_length ->
  exists text, sanitize_diagnostic_text value max_length = Ok text /\ str_len text <= max_length.
Proof.
intros H. unfold sanitize_diagnostic_text. rewrite (proj2 (Z.leb_le 1 max_length) H). eexists. split; [reflexivity|].
cbn. apply (bounded_string_length DEFAULT_JSON_SANITIZATION_LIMITS); (reflexivity || lia).
Qed.

Example redacts_credentials :
  sanitize_diagnostic_text "GET https://user:pw@shop.example/a?token=abc failed: api_key='s3cret', Authorization: Bearer a.b.c" 200
  = Ok "GET https://redacted@shop.example/a?token=[redacted] failed: api_key=[redacted], Authorization: [redacted]".
Proof. vm_compute. reflexivity. Qed.
