(* ===== verification/DumpFiles.v ===== *)
(** A source's dump on disk ([catalogue-dump/.../crawl/artifacts.py]): an empty or
    interrupted run never replaces a good file. The compressed form of the rows
    and its digest are parameters. *)
From S2P Require Export JobTables PyStr.
Open Scope Z_scope.

Definition dump_files : Type := gmap string string.
Definition is_nil {A} (l : list A) : bool := match l with [] => true | _ :: _ => false end.

Definition safe_char (c : Ascii.ascii) : bool := is_alnum c || str_has c "._-".

(** [^[A-Za-z0-9][A-Za-z0-9._-]*$]. Source: catalogue-dump/crawl/artifacts.py:32-32, SAFE_COMPONENT. *)
Definition is_component (value : string) : bool :=
  match value with
  | String c rest => is_alnum c && str_forall safe_char rest
  | EmptyString => false
  end.

(** Source: catalogue-dump/crawl/artifacts.py, _component. *)
Definition component (value : string) : result pyexn string :=
  if negb (is_component value) || bool_decide (value ∈ ["."; ".."])
  then Err (ValueError ("unsafe artifact path component: " +:+ value)) else Ok value.

(** Source: catalogue-dump/crawl/artifacts.py, job_directory. *)
Definition job_directory (root run_id job_id : string) : result pyexn string :=
  run_id ← component run_id; job_id ← component job_id;
  Ok (root +:+ "/" +:+ run_id +:+ "/" +:+ job_id).

(** Whether a collection may be read as the whole of a catalogue, and why not.
    Source: catalogue-dump/storage/postgres.py, may_retire. *)
Definition may_retire (write_status : string) (truncated : bool) : bool * string :=
  if negb (bool_decide (write_status = "replaced")) then (false, "write_status '" +:+ write_status +:+ "', not written by this run")
  else if truncated then (false, "run hit its cap, so the file is not the whole catalogue")
  else (true, "").

Section files.
Context {R : Type} (encode : list R -> string) (sha256 : string -> string).

(** An artifact and its [status]. Source: catalogue-dump/crawl/artifacts.py:41-53, Artifact. *)
Definition written : Type := Artifact * string.

(** The rename is atomic: the target holds the old bytes or the new. Source:
    catalogue-dump/crawl/artifacts.py, _write. *)
Definition write_rows (target : string) (records : list R) (status : string) : eff dump_files pyexn written :=
  let bytes := encode records in
  _ ← modify (fun files => <[target := bytes]> files);
  mret ({| art_path := target; art_sha256 := Some (sha256 bytes); art_size := Some (str_len bytes) |}, status).

Definition size_of (files : dump_files) (path : string) : Z := str_len (default "" (files !! path)).

(** Source: catalogue-dump/crawl/artifacts.py, write_source. *)
Definition write_source (output name : string) (records : list R) (allow_empty : bool) : eff dump_files pyexn written :=
  safe_name ← lift (component name);
  let target := output +:+ "/" +:+ safe_name +:+ ".ndjson.gz" in
  let legacy := output +:+ "/" +:+ safe_name +:+ ".ndjson" in
  files ← gets id;
  let existing_path := if is_some (files !! target) then target else legacy in
  let existing := is_some (files !! existing_path) && (0 <? size_of files existing_path) in
  if negb (negb (is_nil records) || allow_empty || negb existing)
  then mret ({| art_path := existing_path; art_sha256 := Some ""; art_size := Some (size_of files existing_path) |},
             "preserved_existing_nonempty")
  else write_rows target records "replaced".

(** Source: catalogue-dump/crawl/artifacts.py, write_partial. *)
Definition write_partial (output name : string) (records : list R) : eff dump_files pyexn written :=
  safe_name ← lift (component name);
  let target := output +:+ "/" +:+ safe_name +:+ ".partial.ndjson.gz" in
  if is_nil records then mret ({| art_path := target; art_sha256 := Some ""; art_size := Some 0 |}, "skipped_empty")
  else write_rows target records "partial".

(** * What a write does to the directory *)

Lemma write_source_Ok output name records allow_empty files w files' :
  write_source output name records allow_empty files = (Ok w, files') ->
  (snd w = "preserved_existing_nonempty" /\ files' = files /\ records = [] /\ allow_empty = false
     /\ exists bytes, files !! art_path (fst w) = Some bytes /\ bytes <> "")
  \/ (snd w = "replaced" /\ files' = <[art_path (fst w) := encode records]> files
      /\ art_sha256 (fst w) = Some (sha256 (encode records)) /\ art_size (fst w) = Some (str_len (encode records))).
Proof.
unfold write_source. intros H. apply bind_inv in H as (n & s1 & E1 & H). unfold lift in E1. injection E1 as E1 <-.
apply bind_inv in H as (fs & s2 & E2 & H). unfold gets in E2. injection E2 as <- <-. unfold id in H.
set (target := output +:+ "/" +:+ n +:+ ".ndjson.gz") in H. set (legacy := output +:+ "/" +:+ n +:+ ".ndjson") in H.
set (path := if is_some (files !! target) then target else legacy) in H.
destruct (negb (is_nil records) || allow_empty || negb (is_some (files !! path) && (0 <? size_of files path))) eqn:Eb; simpl in H.
- right. unfold write_rows, mbind, eff_bind, modify, mret, eff_ret in H. simplify_eq. by split_and!.
- left. unfold mret, eff_ret in H. injection H as <- <-. simpl. apply orb_false_iff in Eb as [Eb E3]. apply orb_false_iff in Eb as [E4 ->].
  apply negb_false_iff in E3, E4. apply andb_true_iff in E3 as [E3 E5]. split_and!; try done; [by destruct records|].
  unfold size_of in E5. destruct (files !! path) as [bytes|]; [|done]. exists bytes. split; [done|]. by intros ->.
Qed.
End files.
