(* ===== verification/Dispatcher.v ===== *)
(** The outbox dispatcher ([catalogue-dump/.../ops/dispatcher.py]) over a broker
    whose answers are a parameter: publishing due rows, and giving a job whose
    deliveries are exhausted a new generation. *)
From S2P Require Export JobInvariant.
Open Scope Z_scope.

Section dispatcher.
(** The broker's answer to a publication: [None] for a receipt, [Some] for the
  text of the error it raised. *)
Context (publish : JobEnvelope -> option string).

(** Source: catalogue-dump/ops/dispatcher.py:51-74, Dispatcher.tick. *)
Fixpoint publish_each (rows : list (Z * OutboxRow)) : db (list JobEnvelope) :=
match rows with
| [] => mret []
| (id, o) :: r =>
    match publish (o_payload o) with
    | Some error => _ ← mark_failed id error; publish_each r
    | None => _ ← mark_published id; published ← publish_each r; mret (o_payload o :: published)
    end
end.

(** The envelopes the broker accepted; the source returns their number. Source:
  catalogue-dump/ops/dispatcher.py:42-81, Dispatcher.tick. *)
Definition tick : db (list JobEnvelope) :=
transaction (
  _ ← reconstruct_missing;
  _ ← reconcile;
  rows ← pending 100;
  publish_each rows).

(** The delivery the recovery consumer holds is acknowledged in either case.
  Source: catalogue-dump/ops/dispatcher.py:83-104, Dispatcher.recover_once. *)
Definition recover_once (delivery : option JobEnvelope) : db bool :=
match delivery with
| None => mret false
| Some e => transaction (redrive_exhausted e)
end.

(** Source: catalogue-dump/ops/dispatcher.py, Dispatcher.reconstruct. *)
Definition reconstruct : db Z := transaction republish_current.

Lemma keeps_publish_each op s0 rows : keeps (good op s0) (publish_each rows).
Proof. induction rows as [|[id o] rows IH]; simpl; [apply keeps_ret|]. destruct (publish _); eauto with keeps. Qed.

Lemma keeps_tick op s0 : keeps (good op s0) tick.
Proof. unfold tick, pending. apply keeps_transaction. pose proof (keeps_publish_each op s0). eauto 10 with keeps. Qed.

Lemma keeps_recover op s0 delivery : keeps (good op s0) (recover_once delivery).
Proof. unfold recover_once. destruct delivery; eauto with keeps. Qed.
End dispatcher.
