(* ===== verification/JobProperties.v ===== *)
(** The properties of the job store: histories of its operations, what every
    database they reach satisfies, the fencing of stale executions, reservations,
    finishing, publication, and the operator's controls. *)
From S2P Require Export HostSlots Schedule Dispatcher.
Open Scope Z_scope.

(** * Histories *)

(** One operation of a worker, the dispatcher, the scheduler or an operator. *)
Inductive Op :=
| op_wait (microseconds : N)
| op_create_run (kind : string) (requested_by : option string) (params : list (string * json))
| op_create_jobs (run : Z) (sources : gmap string SourceConfig) (selected : list string) (priority : Z) (max_attempts : nat)
| op_start_run (run : Z)
| op_fire_due (get_next get_prev : string -> string -> Z -> Z) (sources : list (string * SourceConfig))
| op_tick (publish : JobEnvelope -> option string)
| op_recover (delivery : JobEnvelope)
| op_reconstruct
| op_reserve (envelope : JobEnvelope) (worker : Z) (capabilities : list string) (lease : Z)
| op_start (job : ClaimedJob) (worker : Z) (trace : option string) (lease : Z)
| op_record_start (id : Z) (trace : option string)
| op_renew (jobs : list ClaimedJob) (worker lease : Z)
| op_release (job : ClaimedJob) (worker delay : Z)
| op_require (job : ClaimedJob) (worker : Z) (capability : string)
| op_finish (job : ClaimedJob) (st : JobState) (summary : option JobSummary) (error : option string) (artifact : option Artifact)
| op_finish_any (id : Z) (st : JobState) (summary : option JobSummary) (error : option string)
| op_action (a : JobAction) (id : Z)
| op_cancel_run (run : Z)
| op_update_source (name : string) (enabled is_paused : option bool) (params : option (list (string * json))).

Definition perform (o : Op) (s : DB) : DB :=
  match o with
  | op_wait d => s <| db_now := db_now s + Z.of_N d |>
  | op_create_run kind by_ params => (create_run kind by_ params None None s).2
  | op_create_jobs run sources selected prio max => (create_jobs run sources selected prio (Z.of_nat max) s).2
  | op_start_run run => (start_run run s).2
  | op_fire_due next prev sources => (fire_due next prev sources s).2
  | op_tick publish => (tick publish s).2
  | op_recover e => (recover_once (Some e) s).2
  | op_reconstruct => (reconstruct s).2
  | op_reserve e w caps lease => (reserve e w caps lease s).2
  | op_start job w trace lease => (start job w trace lease s).2
  | op_record_start id trace => (record_job_start id trace s).2
  | op_renew jobs w lease => (renew jobs w lease s).2
  | op_release job w delay => (release job w delay s).2
  | op_require job w cap => (require_capability job w cap s).2
  | op_finish job st summary error artifact => (finish_execution job st summary error artifact s).2
  | op_finish_any id st summary error => (finish_job id st summary error None None s).2
  | op_action a id => (job_action a id s).2
  | op_cancel_run run => (cancel_run run s).2
  | op_update_source name enabled is_paused params => (update_source name enabled is_paused params s).2
  end.
Definition perform_all (s : DB) (ops : list Op) : DB := foldl (fun s o => perform o s) s ops.

(** The two operations that may overwrite a terminal job: the operator's retry,
    and finishing a job without naming an execution. *)
Definition reopens (o : Op) : bool :=
  match o with op_action act_retry _ => true | op_finish_any _ _ _ _ => true | _ => false end.

Lemma perform_good op s0 s o :
  op = true \/ reopens o = false -> good op s0 s -> good op s0 (perform o s).
Proof.
intros Hop Hs. destruct o; cbn [perform].
- by apply (good_frame op s0 s); eauto.
- by apply keeps_create_run.
- apply keeps_create_jobs; [lia|done].
- by apply keeps_start_run.
- by apply keeps_fire_due.
- by apply keeps_tick.
- by apply (keeps_recover op s0 (Some delivery)).
- refine (keeps_transaction _ _ (keeps_republish op s0) s Hs).
- by apply keeps_reserve.
- by apply keeps_start.
- by apply keeps_record_job_start.
- by apply keeps_renew.
- by apply keeps_release.
- by apply keeps_require_capability.
- by apply keeps_finish_execution.
- apply keeps_finish_job; [|done]. by destruct Hop; [left|].
- apply keeps_job_action; [|done]. destruct Hop as [?|Hop]; [by left|]. right. intros ->. done.
- by apply keeps_cancel_run.
- by apply keeps_update_source.
Qed.

Lemma perform_all_good op s0 s ops :
  op = true \/ Forall (fun o => reopens o = false) ops -> good op s0 s -> good op s0 (perform_all s ops).
Proof.
revert s. induction ops as [|o ops IH]; intros s Hop Hs; [done|].
apply IH; [|apply perform_good; [|done]]; (destruct Hop as [?|Hop]; [by left|]; inversion Hop; by right).
Qed.

Lemma good_self op s : store_ok s -> good op s s.
Proof. intros Hs. split; [done|apply evolves_refl]. Qed.

Lemma empty_store_ok now settings schedules policies : store_ok (empty_store now settings schedules policies).
Proof. by split. Qed.

(** * Fencing *)

(** The execution [job] was claimed for can change nothing: each of its
    mutations answers that the job is no longer its own and leaves the database
    as it was. *)
Definition fenced (job : ClaimedJob) (s : DB) : Prop :=
  (forall worker trace lease, start job worker trace lease s = (Ok (false, job), s))
  /\ (forall worker lease, renew [job] worker lease s = (Ok [], s))
  /\ (forall worker delay, release job worker delay s = (Ok false, s))
  /\ (forall worker capability, require_capability job worker capability s = (Ok false, s))
  /\ (forall st summary error artifact, terminal st = true ->
        finish_job (c_id job) st summary error artifact (Some (c_execution_token job)) s = (Ok None, s))
  /\ (forall summary artifact, pause_execution job summary artifact s = (Ok false, s))
  /\ owns_execution s job = false.

Lemma update_job_refused id guard f s :
  (forall j, db_jobs s !! id = Some j -> guard s j = false) -> update_job id guard f s = (Ok None, s).
Proof. intros Hg. rewrite update_job_spec. destruct (db_jobs s !! id) as [j|]; [|done]. by rewrite Hg. Qed.

Lemma other_token_fenced job s :
  (forall j, db_jobs s !! c_id job = Some j -> j_execution_token j <> Some (c_execution_token job)) ->
  fenced job s.
Proof.
intros Ht.
assert (Ho : forall w j, db_jobs s !! c_id job = Some j -> owned_by w (c_execution_token job) j = false).
{ intros w j Hj. unfold owned_by. rewrite (bool_decide_false (_ = Some (c_execution_token job))) by (by apply Ht).
  by rewrite andb_false_r. }
split_and!.
- intros. unfold start, mbind, eff_bind. rewrite update_job_refused; [done|].
  intros j Hj. by rewrite (Ho _ j Hj), andb_false_r.
- intros. simpl. unfold renew_one, mbind, eff_bind. rewrite update_job_refused; [done|].
  intros j Hj. by rewrite (Ho _ j Hj).
- intros. unfold release, mbind, eff_bind. rewrite update_job_refused; [done|].
  intros j Hj. by rewrite (Ho _ j Hj).
- intros. unfold require_capability, transaction, mbind, eff_bind. rewrite update_job_refused; [done|].
  intros j Hj. by rewrite (Ho _ j Hj).
- intros st summary error artifact Hst. unfold finish_job, transaction, mbind, eff_bind, lift. rewrite Hst.
  simpl. rewrite update_job_refused; [done|]. intros j Hj. simpl. by apply bool_decide_false, Ht.
- intros. unfold pause_execution, mbind, eff_bind. rewrite update_job_refused; [done|].
  intros j Hj. by apply bool_decide_false, Ht.
- unfold owns_execution. destruct (db_jobs s !! c_id job) as [j|] eqn:Hj; [|done].
  by rewrite bool_decide_false by (by apply Ht).
Qed.

Lemma token_stays_lost s0 s job :
  good true s0 s -> c_execution_token job < db_next_uuid s0 -> is_Some (db_jobs s0 !! c_id job) ->
  (forall j, db_jobs s0 !! c_id job = Some j -> j_execution_token j <> Some (c_execution_token job)) ->
  forall j, db_jobs s !! c_id job = Some j -> j_execution_token j <> Some (c_execution_token job).
Proof.
intros [_ [_ He]] Hlt [j0 Hj0] Hne j Hj. specialize (Hne j0 Hj0).
destruct (He _ j0 Hj0) as (j' & Hj' & [_ _ Ht _]). assert (j' = j) as -> by congruence.
destruct Ht as [->|[->|(t & -> & Hle)]]; [done|done|]. intros [= ->]. lia.
Qed.

(** * Properties of every history *)

(** C1. Whatever the workers, the dispatcher, the scheduler and the operators do,
    in whatever order, the database stays consistent: lease columns are set
    exactly while a job is leased or running, no job spends more attempts than
    it has, a leased job may be started, one publication row exists per job and
    generation and none is ahead of its job, and no occurrence of a schedule is
    materialised twice. *)
Theorem job_store_consistent now settings schedules policies ops :
  store_ok (perform_all (empty_store now settings schedules policies) ops).
Proof.
refine (proj1 (perform_all_good true _ _ ops (or_introl eq_refl) (good_self true _ _))).
apply empty_store_ok.
Qed.

(** C2. An execution that lost its job has lost it for good, as far as the job's row goes:
    once the job holds another token, or none, then after any further history the old
    execution's start, renewal, release, capability demand, finish and pause of the job
    are refused and leave the database as it was, and the check of the token that its
    load of the catalogue makes first fails. Only these operations take the token: what
    an execution writes to the output manifest (pages, datasets, artifacts) and the
    notifications it raises are not guarded by it and not part of this. *)
Theorem stale_execution_fenced s job ops :
  store_ok s -> c_execution_token job < db_next_uuid s -> is_Some (db_jobs s !! c_id job) ->
  (forall j, db_jobs s !! c_id job = Some j -> j_execution_token j <> Some (c_execution_token job)) ->
  fenced job (perform_all s ops).
Proof.
intros Hs Hlt Hj Hne. apply other_token_fenced.
apply (token_stays_lost s _ job); auto. apply perform_all_good; [by left|by apply good_self].
Qed.

(** A terminal job stays as it finished: no history without an operator's
    retry or an administrative finish changes its state, the time it finished,
    its error or its summary. *)
Theorem terminal_jobs_settled s ops id j :
  store_ok s -> Forall (fun o => reopens o = false) ops ->
  db_jobs s !! id = Some j -> terminal (j_state j) = true ->
  exists j', db_jobs (perform_all s ops) !! id = Some j'
  /\ j_state j' = j_state j /\ j_finished_at j' = j_finished_at j
  /\ j_error j' = j_error j /\ j_summary j' = j_summary j.
Proof.
intros Hs Hops Hj Ht.
destruct (perform_all_good false s s ops (or_intror Hops) (good_self _ s Hs)) as [_ [_ He]].
destruct (He id j Hj) as (j' & Hj' & [_ _ _ Hz]). exists j'. split; [done|]. by apply Hz.
Qed.

(** * Finishing *)

Lemma tally_total l :
  Forall (fun j => terminal (j_state j) = true) l ->
  let t := tally l in
  t_succeeded t + t_degraded t + t_failed t + t_cancelled t + t_skipped t = Z.of_nat (length l).
Proof.
unfold tally, count_state. simpl. induction 1 as [|j l Hj _ IH]; [done|].
rewrite !filter_cons. destruct (j_state j); try done; simpl in *; lia.
Qed.

Lemma count_state_nonneg st l : 0 <= count_state st l.
Proof. unfold count_state. lia. Qed.

(** What a run's status says of its jobs: it failed only if none of them is
    usable, and it is complete only if each succeeded or was skipped. *)
Lemma run_outcome_meaning l :
  let t := tally l in
  (run_outcome t = run_failed -> t_failed t <> 0 /\ t_succeeded t = 0 /\ t_degraded t = 0)
  /\ (run_outcome t = run_complete -> t_failed t = 0 /\ t_cancelled t = 0 /\ t_degraded t = 0)
  /\ (run_outcome t = run_degraded -> t_succeeded t + t_degraded t <> 0
        /\ (t_degraded t <> 0 \/ t_failed t <> 0 \/ t_cancelled t <> 0))
  /\ (run_outcome t = run_cancelled -> t_cancelled t <> 0 /\ t_succeeded t = 0 /\ t_degraded t = 0 /\ t_failed t = 0).
Proof.
intros t.
pose proof (count_state_nonneg succeeded l). pose proof (count_state_nonneg degraded l).
unfold run_outcome. change (count_state succeeded l) with (t_succeeded t) in *.
change (count_state degraded l) with (t_degraded t) in *.
repeat case_bool_decide; simpl; naive_solver lia.
Qed.

Lemma remaining_zero s run :
  remaining s run = 0%nat -> Forall (fun j => terminal (j_state j) = true) (run_jobs s run).
Proof.
unfold remaining. intros H%nil_length_inv. apply Forall_forall. intros j Hj.
destruct (terminal (j_state j)) eqn:E; [done|].
assert (Hin : j ∈ filter (fun j => terminal (j_state j) = false) (run_jobs s run))
  by (apply list_elem_of_filter; done).
rewrite H in Hin. by apply elem_of_nil in Hin.
Qed.

Lemma remaining_nonzero s run :
  remaining s run <> 0%nat -> exists j, j ∈ run_jobs s run /\ terminal (j_state j) = false.
Proof.
unfold remaining. intros H. destruct (filter _ _) as [|j l] eqn:E; [done|]. exists j.
assert (Hin : j ∈ filter (fun j => terminal (j_state j) = false) (run_jobs s run)) by (rewrite E; by left).
apply list_elem_of_filter in Hin. tauto.
Qed.

Lemma close_run_spec s run :
  let '(r, s') := close_run_if_done run s in
  db_jobs s' = db_jobs s /\ db_host_leases s' = db_host_leases s /\
  if bool_decide (remaining s run = 0%nat) then
    let t := tally (run_jobs s run) in
    r = Ok (Some (run_outcome t, t))
    /\ (forall row, db_runs s !! run = Some row ->
          exists row', db_runs s' !! run = Some row' /\ r_status row' = run_outcome t
                       /\ r_finished_at row' = Some (db_now s) /\ r_summary row' = Some t)
  else r = Ok None /\ s' = s.
Proof.
unfold close_run_if_done, mbind, eff_bind, gets. simpl.
destruct (decide (remaining s run = 0%nat)) as [H|H].
- rewrite (bool_decide_true (remaining s run = 0%nat)), bool_decide_false by auto.
  unfold update_run, emit, promote_canonicals, modify.
  destruct (db_runs s !! run) as [row|] eqn:Hr; simpl.
  + split_and!; [by destruct (existsb _ _)|by destruct (existsb _ _)|done|].
    intros row' [= <-]. exists (row <| r_status := run_outcome (tally (run_jobs s run)) |>
      <| r_finished_at := Some (db_now s) |> <| r_summary := Some (tally (run_jobs s run)) |>).
    split; [|done]. destruct (existsb _ _); simpl; apply lookup_insert_eq.
  + split_and!; [by destruct (existsb _ _)|by destruct (existsb _ _)|done|done].
- by rewrite (bool_decide_false (remaining s run = 0%nat)), bool_decide_true by auto.
Qed.

(** What settling a job of run [run] says of the run: left open while a job of
    it is live, otherwise closed with the tally of all its jobs. *)
Definition closes_run (s : DB) (run : Z) (r : result pyexn (option (RunStatus * Tally))) (s' : DB) : Prop :=
  match r with
  | Ok None => exists j', j' ∈ run_jobs s' run /\ terminal (j_state j') = false
  | Ok (Some (status, t)) =>
      Forall (fun j' => terminal (j_state j') = true) (run_jobs s' run)
      /\ t = tally (run_jobs s' run) /\ status = run_outcome t
      /\ t_succeeded t + t_degraded t + t_failed t + t_cancelled t + t_skipped t = Z.of_nat (length (run_jobs s' run))
      /\ (forall row, db_runs s !! run = Some row ->
            exists row', db_runs s' !! run = Some row' /\ r_status row' = status /\ r_summary row' = Some t)
  | Err _ => False
  end.

(** C21. Finishing a job settles it and, if it was the last, its run: the job has
    the given state and no lease, gives back every host slot its execution
    holds, and the run is closed exactly when none of its jobs is left, with the
    tally of all of them and the status that tally calls for. *)
Theorem finish_job_closes_run s id j st summary error artifact token :
  db_jobs s !! id = Some j -> token_matches token (j_execution_token j) = true -> terminal st = true ->
  let '(r, s') := finish_job id st summary error artifact token s in
  let run := j_run_id j in
  (exists j', db_jobs s' !! id = Some j' /\ j_state j' = st /\ j_execution_token j' = None /\ j_error j' = error)
  /\ (forall k h, db_host_leases s' !! k = Some h ->
        ~ (h_job_id h = Some id /\ token_matches token (h_execution_token h) = true))
  /\ closes_run s run r s'.
Proof.
intros Hj Htok Hst. unfold finish_job, transaction, mbind, eff_bind, lift. rewrite Hst. cbn [ensure].
rewrite update_job_spec, Hj, Htok. cbn beta iota. unfold clear_slots, emit, modify.
set (j1 := finished_row s st summary error artifact j).
set (s1 := _ <| db_events := _ |>). change (j_run_id j1) with (j_run_id j).
assert (Hj1 : db_jobs s1 !! id = Some j1) by apply lookup_insert_eq.
pose proof (close_run_spec s1 (j_run_id j)) as Hc.
destruct (close_run_if_done (j_run_id j) s1) as [r s2]. destruct Hc as (Ejobs & Eslots & Hc).
assert (Hrj : run_jobs s2 (j_run_id j) = run_jobs s1 (j_run_id j)) by (unfold run_jobs; by rewrite Ejobs).
assert (Hslots : forall k h, db_host_leases s2 !! k = Some h ->
  ~ (h_job_id h = Some id /\ token_matches token (h_execution_token h) = true)).
{ rewrite Eslots. intros k h. unfold s1. cbn [db_host_leases]. intros Hk [E1 E2].
  change (db_host_leases _) with ((fun h => if bool_decide (h_job_id h = Some id)
    && token_matches token (h_execution_token h) then free_slot else h) <$> db_host_leases s) in Hk.
  rewrite lookup_fmap in Hk. destruct (db_host_leases s !! k) as [h0|]; [|done]. simpl in Hk. simplify_eq.
  destruct (_ && _) eqn:E; [done|]. by rewrite E1, E2, bool_decide_true in E. }
case_bool_decide as Hr; destruct Hc as [-> Hc]; (split; [exists j1; by rewrite Ejobs|]; split; [done|]); simpl; rewrite ?Hrj.
- split_and!; [by apply remaining_zero|done|done|by apply tally_total, remaining_zero|].
  intros row Hrow. destruct (Hc row Hrow) as (row' & ? & ? & _ & ?). by exists row'.
- subst. by apply remaining_nonzero.
Qed.

(** * Reserving *)

Lemma reserve_body s envelope worker capabilities lease :
  reserve envelope worker capabilities lease s =
  match db_jobs s !! e_job_id envelope with
  | None => (Ok acknowledged, s)
  | Some j =>
      if bool_decide (j_delivery_generation j ≠ e_generation envelope) then (Ok acknowledged, s)
      else if terminal (j_state j) then (Ok acknowledged, s)
      else transaction (
             if negb (source_enabled s (j_source_id j)) || j_cancel_requested j
             then retire_job (e_job_id envelope) j (if negb (source_enabled s (j_source_id j)) then skipped else cancelled)
             else reserve_live envelope worker capabilities lease (job_params s j) (source_paused s (j_source_id j)) j) s
  end.
Proof.
unfold reserve, transaction, mbind, eff_bind, select_job, gets. simpl.
destruct (db_jobs s !! e_job_id envelope) as [j|]; [|done]. simpl.
destruct (bool_decide _); [done|]. destruct (terminal (j_state j)); [done|]. by destruct (_ || _).
Qed.

(** Only the final branch of [reserve] hands a job out. *)
Lemma transaction_Ok {A} (m : db A) s a s' : transaction m s = (Ok a, s') -> m s = (Ok a, s').
Proof. unfold transaction. by destruct (m s) as [[?|?] ?]. Qed.

Lemma retire_acknowledges id j st s r s' : retire_job id j st s = (Ok r, s') -> r = acknowledged.
Proof.
unfold retire_job, mbind, eff_bind, emit, modify. rewrite update_job_spec.
destruct (db_jobs s !! id); simpl; destruct (close_run_if_done _ _) as [[?|?] ?]; by intros [= <- _].
Qed.

Lemma reroute_acknowledges id selected s r s' : reroute_job id selected s = (Ok r, s') -> r = acknowledged.
Proof.
unfold reroute_job, mbind, eff_bind. rewrite update_job_spec.
destruct (db_jobs s !! id); simpl; destruct (enqueue_job _ _ _) as [[?|?] ?]; by intros [= <- _].
Qed.

Lemma claim_job_eq envelope worker params selected lease j s :
  db_jobs s !! e_job_id envelope = Some j -> j_delivery_generation j = e_generation envelope ->
  exists s',
  claim_job envelope worker params selected lease s =
    (Ok {| rv_job := Some (claimed_from_row (e_job_id envelope) params
             (j <| j_state := leased |> <| j_lease_owner := Some worker |>
                <| j_execution_token := Some (db_next_uuid s) |>
                <| j_selected_browser_backend := coalesce (j_selected_browser_backend j) selected |>
                <| j_lease_expires_at := Some (db_now s + seconds lease) |>) (db_next_uuid s));
           rv_disposition := run_it; rv_retry_after := 0 |}, s')
  /\ db_jobs s' = <[e_job_id envelope :=
             j <| j_state := leased |> <| j_lease_owner := Some worker |>
                <| j_execution_token := Some (db_next_uuid s) |>
                <| j_selected_browser_backend := coalesce (j_selected_browser_backend j) selected |>
                <| j_lease_expires_at := Some (db_now s + seconds lease) |>]> (db_jobs s).
Proof.
intros Hj Hg. unfold claim_job, mbind, eff_bind, new_uuid. rewrite update_job_spec. cbn [db_jobs setter].
change (db_jobs (s <| db_next_uuid := db_next_uuid s + 1 |>)) with (db_jobs s). rewrite Hj, bool_decide_true by done.
eexists. by split.
Qed.

(** What a granted reservation rests on. *)
Definition reservable (s : DB) (envelope : JobEnvelope) (capabilities : list string) (j : JobRow) : Prop :=
  j_delivery_generation j = e_generation envelope /\ terminal (j_state j) = false
  /\ source_enabled s (j_source_id j) = true /\ source_paused s (j_source_id j) = false
  /\ j_cancel_requested j = false /\ j_pause_requested j = false /\ j_state j <> paused
  /\ j_scheduled_for j <= db_now s
  /\ (executing (j_state j) = true -> exists t, j_lease_expires_at j = Some t /\ t <= db_now s)
  /\ (j_attempt j < j_max_attempts j \/ j_resume_without_attempt j = true)
  /\ Forall (fun c => c ∈ capabilities) (j_requires j).

Lemma reserve_live_run s envelope worker capabilities lease params is_paused j r s' :
  db_jobs s !! e_job_id envelope = Some j -> j_delivery_generation j = e_generation envelope ->
  reserve_live envelope worker capabilities lease params is_paused j s = (Ok r, s') -> rv_disposition r = run_it ->
  is_paused = false /\ j_pause_requested j = false /\ j_state j <> paused /\ j_scheduled_for j <= db_now s
  /\ (executing (j_state j) = true -> exists t, j_lease_expires_at j = Some t /\ t <= db_now s)
  /\ (j_attempt j < j_max_attempts j \/ j_resume_without_attempt j = true)
  /\ Forall (fun c => c ∈ capabilities) (j_requires j)
  /\ exists selected, route_for (j_requires j) (j_requires_any j) selected = e_route envelope
     /\ backend_unavailable selected capabilities = false
     /\ claim_job envelope worker params selected lease s = (Ok r, s').
Proof.
intros Hj Hg. unfold reserve_live.
destruct (is_paused || j_pause_requested j || bool_decide (j_state j = paused)) eqn:Ep; [by intros [= <- _]|].
unfold mbind, eff_bind, gets, lift. simpl.
destruct (db_now s <? j_scheduled_for j) eqn:Es; [by intros [= <- _]|].
destruct (lease_live j (db_now s)) as [[|]|e] eqn:El; [by intros [= <- _]| |done].
destruct ((j_max_attempts j <=? j_attempt j) && negb (j_resume_without_attempt j)) eqn:Ea.
{ unfold exhaust_job, mbind, eff_bind, emit, modify. rewrite update_job_spec, Hj. by intros [= <- _]. }
unfold reserve_available. destruct (bool_decide (Forall _ _)) eqn:Hr; cbn [negb]; [apply bool_decide_eq_true in Hr|by intros [= <- _]].
destruct (select_backend _ _ _) as [selected|]; [|by intros [= <- _]].
destruct (backend_unavailable selected capabilities) eqn:Eb; [by intros [= <- _]|].
destruct (bool_decide (_ ≠ e_route envelope)) eqn:Er; [by intros ->%reroute_acknowledges|].
apply bool_decide_eq_false, dec_stable in Er. intros Hc Hd.
bool_facts. split_and!; try done.
- intros He. unfold lease_live in El. rewrite He in El.
  destruct (j_lease_expires_at j) as [t|]; [|done]. injection El as El. bool_facts. eauto.
- destruct Ea; bool_facts; auto.
- by exists selected.
Qed.

(** C3. A delivery is handed to a worker only when the job may run there: it is
    the job's current generation, nobody's live lease covers it, an attempt is
    left, its time has come, neither it nor its source is stopped, and the worker
    has what it requires and serves its route. The execution gets a token no row
    has held before and a lease of the given length. *)
Theorem reserve_grants_safely s envelope worker capabilities lease r s' :
  reserve envelope worker capabilities lease s = (Ok r, s') -> rv_disposition r = run_it ->
  exists j j' job, db_jobs s !! e_job_id envelope = Some j /\ reservable s envelope capabilities j
  /\ rv_job r = Some job /\ c_execution_token job = db_next_uuid s
  /\ db_jobs s' = <[e_job_id envelope := j']> (db_jobs s)
  /\ j_state j' = leased /\ j_lease_owner j' = Some worker /\ j_execution_token j' = Some (db_next_uuid s)
  /\ j_lease_expires_at j' = Some (db_now s + seconds lease) /\ j_attempt j' = j_attempt j
  /\ exists selected, route_for (j_requires j) (j_requires_any j) selected = e_route envelope
     /\ backend_unavailable selected capabilities = false.
Proof.
rewrite reserve_body. destruct (db_jobs s !! e_job_id envelope) as [j|] eqn:Hj; [|by intros [= <- _]].
case_bool_decide as Hg; [by intros [= <- _]|].
destruct (terminal (j_state j)) eqn:Ht; [by intros [= <- _]|].
intros H%transaction_Ok Hd. destruct (negb (source_enabled s (j_source_id j)) || j_cancel_requested j) eqn:Ee.
{ by apply retire_acknowledges in H as ->. }
destruct (reserve_live_run _ _ _ _ _ _ _ _ _ _ Hj Hg H Hd) as (P1 & P2 & P3 & P4 & P5 & P6 & P7 & sel & P8 & P9 & Hc).
destruct (claim_job_eq envelope worker (job_params s j) sel lease j s Hj Hg) as (s1 & Hc' & Hjobs).
rewrite Hc' in Hc. injection Hc as <- <-. bool_facts.
exists j. eexists. eexists. rewrite Hjobs.
split; [done|]. split; [by split_and!|]. split; [done|]. split; [done|]. split; [done|].
split_and!; [done..|]. by exists sel.
Qed.

(** * Publication *)

(** A publication row carries generation [g] of job [id]. *)
Definition offered (s : DB) (id g : Z) : Prop :=
  exists i o, db_outbox s !! i = Some o /\ o_job_id o = id /\ o_generation o = g.

Lemma offered_outbox_for s id g : offered s id g <-> outbox_for s id g <> None.
Proof.
destruct (outbox_for s id g) as [[i o]|] eqn:E.
- split; [done|]. intros _. apply outbox_for_Some in E as (? & ? & ?). by exists i, o.
- rewrite outbox_for_None in E. split; [|done]. intros (i & o & Hi & Ho) _. by apply (E i o).
Qed.

(** A row that has not been sent. *)
Definition unpublished (o : OutboxRow) : Prop := o_published_at o = None /\ o_cancelled_at o = None.

Lemma enqueue_job_offers s id available_at j :
  store_ok s -> db_jobs s !! id = Some j -> terminal (j_state j) = false ->
  exists b s', enqueue_job id available_at s = (Ok b, s')
  /\ db_jobs s' = db_jobs s /\ db_settings s' = db_settings s
  /\ offered s' id (j_delivery_generation j)
  /\ (forall i g, offered s i g -> offered s' i g)
  /\ (~ offered s id (j_delivery_generation j) ->
        exists i o, db_outbox s' !! i = Some o /\ o_job_id o = id /\ o_generation o = j_delivery_generation j
        /\ unpublished o /\ o_available_at o = default (j_scheduled_for j) available_at
        /\ o_route o = route_for (j_requires j) (j_requires_any j) (j_selected_browser_backend j)).
Proof.
intros Hs Hj Ht. unfold enqueue_job, job_route, mbind, eff_bind, select_job, gets. simpl. rewrite Hj.
unfold mret, eff_ret, insert_generation. rewrite Hj, Ht.
destruct (outbox_for s id (j_delivery_generation j)) as [p|] eqn:E.
- exists false, s. assert (offered s id (j_delivery_generation j)) by (apply offered_outbox_for; congruence).
  split_and!; done.
- set (o := outbox_row _ _ _ _ _). exists true, (insert_outbox o s).
  assert (Hnew : db_outbox (insert_outbox o s) !! db_next_outbox s = Some o) by apply lookup_insert_eq.
  assert (Hfresh : db_outbox s !! db_next_outbox s = None).
  { destruct (db_outbox s !! db_next_outbox s) eqn:E'; [|done].
    pose proof (oo_id _ _ _ (so_outbox s Hs _ _ E')). lia. }
  split_and!; [done..| | |].
  + by exists (db_next_outbox s), o.
  + intros i g (k & p & Hk & Hp). exists k, p. split; [|done].
    change (<[db_next_outbox s := o]> (db_outbox s) !! k = Some p). rewrite lookup_insert_ne; [done|congruence].
  + intros _. by exists (db_next_outbox s), o.
Qed.

Lemma eligible_open s j : eligible s j = true -> terminal (j_state j) = false.
Proof. unfold eligible. intros. bool_facts. by destruct (j_state j). Qed.

Lemma enqueue_all_offers s ids :
  store_ok s -> Forall (fun id => exists j, db_jobs s !! id = Some j /\ terminal (j_state j) = false) ids ->
  exists s', enqueue_all ids s = (Ok (), s') /\ db_jobs s' = db_jobs s /\ db_settings s' = db_settings s
  /\ (forall i g, offered s i g -> offered s' i g)
  /\ (forall id j, id ∈ ids -> db_jobs s !! id = Some j -> offered s' id (j_delivery_generation j)).
Proof.
intros Hs Hids. revert s Hs Hids. induction ids as [|id ids IH]; intros s Hs Hids.
{ exists s. split_and!; try done. by intros id j ?%elem_of_nil. }
apply Forall_cons in Hids as [(j & Hj & Ht) Hids].
destruct (enqueue_job_offers s id None j Hs Hj Ht) as (b & s1 & E1 & Ej & Est & Ho & Hmono & _).
assert (Hs1 : store_ok s1).
{ pose proof (keeps_enqueue_job true s id None s (good_self true s Hs)) as H. unfold wp in H. rewrite E1 in H. apply H. }
destruct (IH s1 Hs1) as (s2 & E2 & Ej2 & Est2 & Hmono2 & Ho2); [by rewrite Ej|].
exists s2. simpl. unfold mbind, eff_bind. rewrite E1, E2. split_and!; [done|congruence|congruence|auto|].
intros i k [->|Hin]%elem_of_cons Hk; [|apply Ho2; [done|by rewrite Ej]].
assert (k = j) as -> by congruence. auto.
Qed.

(** No eligible job is lost between the database and the broker: once the
    dispatcher has reconstructed the outbox, every job that is queued or
    executing and not stopped has a publication row for its current generation,
    and rows that existed are kept. The reconstruction never fails. *)
Theorem reconstruct_offers_every_job s :
  store_ok s ->
  exists n s', reconstruct_missing s = (Ok n, s') /\ db_jobs s' = db_jobs s
  /\ (forall i g, offered s i g -> offered s' i g)
  /\ (forall id j, db_jobs s' !! id = Some j -> eligible s' j = true -> offered s' id (j_delivery_generation j)).
Proof.
intros Hs. unfold reconstruct_missing, mbind, eff_bind, gets.
destruct (enqueue_all_offers s (missing_jobs s) Hs) as (s' & E & Ej & Est & Hmono & Ho).
{ apply Forall_forall. intros id Hin. unfold missing_jobs in Hin.
  apply list_elem_of_fmap in Hin as ([i j] & -> & Hin). apply list_elem_of_filter in Hin as [[He _] Hin].
  apply elem_of_map_to_list in Hin. exists j. split; [done|]. by apply (eligible_open s). }
rewrite E. exists (Z.of_nat (length (missing_jobs s))), s'. split_and!; [done|done|done|].
intros id j Hj He. rewrite Ej in Hj.
assert (He' : eligible s j = true) by (unfold eligible, source_enabled, source_paused in *; by rewrite Est in He).
destruct (outbox_for s id (j_delivery_generation j)) eqn:Eo.
- apply Hmono, offered_outbox_for. congruence.
- apply Ho; [|done]. unfold missing_jobs. apply list_elem_of_fmap. exists (id, j). split; [done|].
  apply list_elem_of_filter. split; [done|]. by apply elem_of_map_to_list.
Qed.

Lemma future_not_offered s id j :
  store_ok s -> db_jobs s !! id = Some j -> forall g, j_delivery_generation j < g -> ~ offered s id g.
Proof.
intros Hs Hj g Hg (i & o & Hi & Hid & Hgen). destruct (oo_job _ _ _ (so_outbox s Hs i o Hi)) as (j' & Hj' & Hle).
rewrite Hid in Hj'. assert (j' = j) as -> by congruence. lia.
Qed.

Lemma reroute_offers s id j selected r s' :
  store_ok s -> db_jobs s !! id = Some j -> terminal (j_state j) = false ->
  reroute_job id selected s = (Ok r, s') ->
  exists j', db_jobs s' !! id = Some j' /\ j_delivery_generation j' = j_delivery_generation j + 1
  /\ exists i o, db_outbox s' !! i = Some o /\ o_job_id o = id /\ o_generation o = j_delivery_generation j' /\ unpublished o.
Proof.
intros Hs Hj Ht. unfold reroute_job, mbind, eff_bind. rewrite update_job_spec, Hj. cbn [any_row]. cbv beta iota.
set (j' := j <| j_selected_browser_backend := _ |> <| j_delivery_generation := _ |>).
set (s1 := s <| db_jobs := _ |>).
assert (Hs1 : store_ok s1).
{ destruct (rerouted_row_ok true (db_next_uuid s) _ j selected (proj2 (so_jobs s Hs id j Hj)) Ht) as [Hok Hev].
  exact (proj1 (good_put_job true s s id j j' (good_self true s Hs) Hj Hok Hev)). }
destruct (enqueue_job_offers s1 id None j' Hs1 ltac:(apply lookup_insert_eq) Ht) as (b & s2 & E & Ej & _ & _ & _ & Hnew).
rewrite E. intros [= _ <-]. exists j'. rewrite Ej. split; [apply lookup_insert_eq|]. split; [done|].
destruct Hnew as (i & o & H1 & H2 & H3 & H4 & _); [|by exists i, o].
apply (future_not_offered s id j Hs Hj). change (j_delivery_generation j < j_delivery_generation j + 1). lia.
Qed.

(** Why a delivery was acknowledged without running the job. *)
Inductive accounted (s s' : DB) (envelope : JobEnvelope) (capabilities : list string) (j : JobRow) : Prop :=
| acc_stale : j_delivery_generation j <> e_generation envelope -> accounted s s' envelope capabilities j
| acc_settled j' : db_jobs s' !! e_job_id envelope = Some j' -> terminal (j_state j') = true ->
    accounted s s' envelope capabilities j
| acc_stopped : source_paused s (j_source_id j) = true \/ j_pause_requested j = true \/ j_state j = paused ->
    accounted s s' envelope capabilities j
| acc_rerouted j' i o : db_jobs s' !! e_job_id envelope = Some j' ->
    j_delivery_generation j' = j_delivery_generation j + 1 ->
    db_outbox s' !! i = Some o -> o_job_id o = e_job_id envelope -> o_generation o = j_delivery_generation j' ->
    unpublished o -> accounted s s' envelope capabilities j
| acc_no_backend : select_backend (e_route envelope) capabilities j = NoBackend -> accounted s s' envelope capabilities j.

Lemma retire_settles s id j st r s' :
  db_jobs s !! id = Some j -> retire_job id j st s = (Ok r, s') ->
  exists j', db_jobs s' !! id = Some j' /\ j_state j' = st.
Proof.
intros Hj. unfold retire_job, mbind, eff_bind, emit, modify. rewrite update_job_spec, Hj. cbn [any_row]. cbv beta iota.
set (s1 := _ <| db_events := _ |>). pose proof (close_run_spec s1 (j_run_id j)) as Hc.
destruct (close_run_if_done (j_run_id j) s1) as [[x|e] s2]; [|done]. intros [= _ <-].
destruct Hc as (Ej & _). rewrite Ej. eexists. split; [apply lookup_insert_eq|done].
Qed.

Lemma reserve_live_ack s envelope worker capabilities lease params is_paused j r s' :
  store_ok s -> db_jobs s !! e_job_id envelope = Some j -> terminal (j_state j) = false ->
  is_paused = source_paused s (j_source_id j) ->
  reserve_live envelope worker capabilities lease params is_paused j s = (Ok r, s') -> rv_disposition r = ack ->
  accounted s s' envelope capabilities j.
Proof.
intros Hs Hj Ht Hip. unfold reserve_live.
destruct (is_paused || j_pause_requested j || bool_decide (j_state j = paused)) eqn:Ep.
{ intros _ _. bool_facts. apply acc_stopped. destruct Ep as [[Ep|Ep]|Ep]; bool_facts; subst; auto. }
unfold mbind, eff_bind, gets, lift. simpl.
destruct (db_now s <? j_scheduled_for j); [by intros [= <- _]|].
destruct (lease_live j (db_now s)) as [[|]|e]; [by intros [= <- _]| |done].
destruct ((j_max_attempts j <=? j_attempt j) && negb (j_resume_without_attempt j)).
{ unfold exhaust_job, mbind, eff_bind, emit, modify. rewrite update_job_spec, Hj. intros [= _ <-] _.
  eapply acc_settled; [apply lookup_insert_eq|done]. }
unfold reserve_available. destruct (bool_decide (Forall _ _)); cbn [negb]; [|by intros [= <- _]].
destruct (select_backend _ _ _) as [selected|] eqn:Esel; [|by intros; apply acc_no_backend].
destruct (backend_unavailable selected capabilities); [by intros [= <- _]|].
destruct (bool_decide (_ ≠ e_route envelope)).
- intros H _. destruct (reroute_offers s _ j selected r s' Hs Hj Ht H) as (j' & ? & ? & i & o & ? & ? & ? & ?).
  by eapply acc_rerouted.
- unfold claim_job, mbind, eff_bind, new_uuid. destruct (update_job _ _ _ _) as [[[x|]|e] s2]; by intros [= <- _].
Qed.

(** C30. An acknowledged delivery never loses a runnable job silently. The broker
    forgets a delivery only when the job is gone, the delivery is of an old
    generation, the job is settled, it is stopped and waits for its restart, a
    new generation of it is waiting in the outbox, or the worker offers no
    browser the delivery can use. *)
Theorem acknowledged_deliveries_accounted s envelope worker capabilities lease r s' :
  store_ok s -> reserve envelope worker capabilities lease s = (Ok r, s') -> rv_disposition r = ack ->
  db_jobs s !! e_job_id envelope = None
  \/ exists j, db_jobs s !! e_job_id envelope = Some j /\ accounted s s' envelope capabilities j.
Proof.
intros Hs. rewrite reserve_body. destruct (db_jobs s !! e_job_id envelope) as [j|] eqn:Hj; [|by left].
intros H Hd. right. exists j. split; [done|]. revert H.
case_bool_decide as Hg; [by intros; apply acc_stale|].
destruct (terminal (j_state j)) eqn:Ht; [intros [= _ <-]; by eapply acc_settled|].
intros H%transaction_Ok. destruct (_ || _); [|by eapply reserve_live_ack].
destruct (retire_settles s _ j _ r s' Hj H) as (j' & Hj' & Hst). eapply acc_settled; [done|].
rewrite Hst. by destruct (negb _).
Qed.

(** * The operator's controls *)

(** What an operator restarts is delivered: resuming a paused job or retrying
    a terminal one is accepted, queues the job under a new generation, which
    makes every earlier delivery stale, and leaves an unpublished row for it,
    available at once. *)
Theorem operator_restart_is_offered s id j a :
  store_ok s -> db_jobs s !! id = Some j ->
  (a = act_resume /\ j_state j = paused) \/ (a = act_retry /\ terminal (j_state j) = true) ->
  exists s' j', job_action a id s = (Ok 202, s')
  /\ db_jobs s' !! id = Some j' /\ j_state j' = queued /\ j_pause_requested j' = false
  /\ j_delivery_generation j' = j_delivery_generation j + 1
  /\ (a = act_resume -> j_attempt j' = j_attempt j /\ j_resume_without_attempt j' = true)
  /\ (a = act_retry -> j_attempt j' = 0 /\ j_cancel_requested j' = false /\ j_error j' = None)
  /\ exists i o, db_outbox s' !! i = Some o /\ o_job_id o = id /\ o_generation o = j_delivery_generation j'
     /\ unpublished o /\ o_available_at o = db_now s.
Proof.
intros Hs Hj Ha.
assert (Hq : exists j', action_guard a j = true /\ action_row a s j = j' /\ j_state j' = queued
   /\ j_pause_requested j' = false /\ j_delivery_generation j' = j_delivery_generation j + 1
   /\ j_scheduled_for j' = db_now s
   /\ (a = act_resume -> j_attempt j' = j_attempt j /\ j_resume_without_attempt j' = true)
   /\ (a = act_retry -> j_attempt j' = 0 /\ j_cancel_requested j' = false /\ j_error j' = None)
   /\ a <> act_cancel).
{ exists (action_row a s j). destruct Ha as [[-> Hp]|[-> Ht]]; cbn [action_guard action_row].
  - split; [by rewrite bool_decide_true|]. split; [done|]. unfold resumed_row. rewrite (bool_decide_true (j_state j = paused)) by done.
    split_and!; done.
  - split; [done|]. split; [done|]. split_and!; done. }
destruct Hq as (j' & Hguard & Hrow & Q1 & Q2 & Q3 & Q4 & Q5 & Q6 & Hnc).
assert (Hjob : good true s (update_job id (fun _ => action_guard a) (action_row a) s).2).
{ apply good_update_job; [by apply good_self|]. intros k Hk Hok _. assert (k = j) as -> by congruence.
  destruct Ha as [[-> Hp]|[-> Ht]].
  - split; [by apply resumed_row_ok|apply resumed_row_evolves].
  - by apply retried_row_ok. }
unfold job_action, transaction, mbind, eff_bind. rewrite update_job_spec, Hj, Hguard in *. rewrite Hrow in *.
cbn beta iota. unfold emit, modify. rewrite (bool_decide_false (a = act_cancel)) by done.
assert (Hb : (bool_decide (a = act_resume) || bool_decide (a = act_retry)) && bool_decide (j_state j' = queued) = true).
{ rewrite (bool_decide_true (j_state j' = queued)) by done. destruct Ha as [[-> _]|[-> _]]; done. }
rewrite Hb. simpl in Hjob. set (s1 := _ <| db_events := _ |>).
assert (Hs1 : store_ok s1) by (eapply (proj1 (good_frame true s _ s1 Hjob eq_refl eq_refl eq_refl eq_refl ltac:(eauto)))).
assert (Hj1 : db_jobs s1 !! id = Some j') by apply lookup_insert_eq.
destruct (enqueue_job_offers s1 id None j' Hs1 Hj1 ltac:(by rewrite Q1)) as (b & s2 & E & Ej & _ & _ & _ & Hnew).
assert (Hno : ~ offered s1 id (j_delivery_generation j')).
{ apply (future_not_offered s id j Hs Hj). lia. }
destruct (Hnew Hno) as (i & o & Ho & O1 & O2 & O3 & O4 & _).
rewrite E. exists s2, j'. rewrite Ej. split_and!; try done.
exists i, o. rewrite O4, Q4. done.
Qed.

(** * Witnesses *)

(** A run of two sources at [seconds 100], created through the operations. *)
Definition shop (n : string) : SourceConfig :=
  {| sc_url := "https://" +:+ n +:+ ".example/"; sc_country := None; sc_proxy_eligible := false; sc_scraper := "shopify" |}.
Definition two_sources : gmap string SourceConfig := {[ "alpha" := shop "alpha"; "beta" := shop "beta" ]}.
Definition planned : DB :=
  perform_all (empty_store (seconds 100) ∅ ∅ ∅)
    [op_create_run "manual" None []; op_create_jobs 0 two_sources ["alpha"; "beta"] 100 1].

(** The first delivery of the first job, and the execution a worker claims with it. *)
Definition first_delivery : JobEnvelope :=
  {| e_job_id := 1; e_run_id := 0; e_source_id := "alpha"; e_generation := 1; e_route := "plain.normal";
     e_priority := 100; e_enqueued_at := seconds 100 |}.
Definition claimed : DB := perform (op_reserve first_delivery 500 [] 300) planned.
Definition first_claim : ClaimedJob :=
  {| c_id := 1; c_run_id := 0; c_source_id := "alpha"; c_host := "alpha.example"; c_attempt := 0; c_max_attempts := 1;
     c_requires := []; c_requires_any := []; c_params := []; c_proxy_snapshot := None; c_delivery_generation := 1;
     c_execution_token := 3; c_selected_browser_backend := None; c_trace_id := None |}.

Lemma planned_ok : store_ok planned.
Proof.
refine (proj1 (perform_all_good true _ _ _ (or_introl eq_refl) (good_self true _ (empty_store_ok (seconds 100) ∅ ∅ ∅)))).
Qed.

Lemma later_ok ops : store_ok (perform_all planned ops).
Proof. exact (proj1 (perform_all_good true _ _ ops (or_introl eq_refl) (good_self true _ planned_ok))). Qed.

Lemma reserve_grants_safely_witness :
  exists j j' job, db_jobs planned !! 1 = Some j /\ reservable planned first_delivery [] j
  /\ Some first_claim = Some job /\ c_execution_token job = db_next_uuid planned
  /\ db_jobs claimed = <[1 := j']> (db_jobs planned)
  /\ j_state j' = leased /\ j_lease_owner j' = Some 500 /\ j_execution_token j' = Some (db_next_uuid planned)
  /\ j_lease_expires_at j' = Some (db_now planned + seconds 300) /\ j_attempt j' = j_attempt j
  /\ exists selected, route_for (j_requires j) (j_requires_any j) selected = "plain.normal"
     /\ backend_unavailable selected [] = false.
Proof.
apply (reserve_grants_safely planned first_delivery 500 [] 300
         {| rv_job := Some first_claim; rv_disposition := run_it; rv_retry_after := 0 |} claimed).
- by vm_compute.
- done.
Defined.

(** The claimed lease runs out, the job is repaired and claimed again: the first
    execution's token, 3, is no longer the job's. *)
Definition reclaimed : DB :=
  perform_all planned
    [op_reserve first_delivery 500 [] 300; op_wait 400000000%N; op_tick (fun _ => None); op_reserve first_delivery 501 [] 300].

Lemma stale_execution_fenced_witness : fenced first_claim (perform_all reclaimed [op_wait 1%N]).
Proof.
apply (stale_execution_fenced reclaimed first_claim [op_wait 1%N]).
- apply later_ok.
- by vm_compute.
- vm_compute. by eexists.
- intros j Hj. vm_compute in Hj. by simplify_eq.
Defined.

(** The first job finished. *)
Definition finished : DB :=
  perform_all planned [op_reserve first_delivery 500 [] 300; op_start first_claim 500 None 300;
                       op_finish first_claim succeeded None None None].

Lemma terminal_jobs_settled_witness :
  exists j', db_jobs (perform_all finished [op_cancel_run 0; op_reconstruct]) !! 1 = Some j' /\ j_state j' = succeeded
  /\ j_finished_at j' = Some (seconds 100) /\ j_error j' = None /\ j_summary j' = None.
Proof.
destruct (db_jobs finished !! 1) as [j|] eqn:Hj; [|by vm_compute in Hj].
assert (Hst : j_state j = succeeded /\ j_finished_at j = Some (seconds 100) /\ j_error j = None /\ j_summary j = None).
{ vm_compute in Hj. by simplify_eq. }
destruct Hst as (<- & <- & <- & <-).
apply (terminal_jobs_settled finished [op_cancel_run 0; op_reconstruct] 1 j).
- apply later_ok.
- by repeat constructor.
- done.
- vm_compute in Hj. by simplify_eq.
Defined.

Lemma finish_job_closes_run_witness :
  exists j, db_jobs claimed !! 1 = Some j /\
  let '(r, s') := finish_job 1 degraded None (Some "timeout") None (Some 3) claimed in
  let run := j_run_id j in
  (exists j', db_jobs s' !! 1 = Some j' /\ j_state j' = degraded /\ j_execution_token j' = None /\ j_error j' = Some "timeout")
  /\ (forall k h, db_host_leases s' !! k = Some h ->
        ~ (h_job_id h = Some 1 /\ token_matches (Some 3) (h_execution_token h) = true))
  /\ closes_run claimed run r s'.
Proof.
destruct (db_jobs claimed !! 1) as [j|] eqn:Hj; [|by vm_compute in Hj]. exists j. split; [done|].
apply (finish_job_closes_run claimed 1 j degraded None (Some "timeout") None (Some 3)).
- done.
- vm_compute in Hj. by simplify_eq.
- done.
Defined.

Lemma acknowledged_deliveries_accounted_witness :
  db_jobs finished !! 1 = None \/
  exists j, db_jobs finished !! 1 = Some j /\ accounted finished finished first_delivery [] j.
Proof.
apply (acknowledged_deliveries_accounted finished first_delivery 500 [] 300 acknowledged finished).
- apply later_ok.
- by vm_compute.
- done.
Defined.

Lemma outbox_lost_ok s : store_ok s -> store_ok (s <| db_outbox := ∅ |>).
Proof. intros [Hj Hr Ho Hu Hc]. by split. Qed.

Lemma reconstruct_offers_every_job_witness :
  let s := planned <| db_outbox := ∅ |> in
  exists n s', reconstruct_missing s = (Ok n, s') /\ db_jobs s' = db_jobs s
  /\ (forall i g, offered s i g -> offered s' i g)
  /\ (forall id j, db_jobs s' !! id = Some j -> eligible s' j = true -> offered s' id (j_delivery_generation j)).
Proof.
intros s. apply (reconstruct_offers_every_job s). apply outbox_lost_ok, planned_ok.
Defined.

Lemma operator_restart_is_offered_witness :
  exists j, db_jobs finished !! 1 = Some j /\
  exists s' j', job_action act_retry 1 finished = (Ok 202, s')
  /\ db_jobs s' !! 1 = Some j' /\ j_state j' = queued /\ j_pause_requested j' = false
  /\ j_delivery_generation j' = j_delivery_generation j + 1
  /\ (act_retry = act_resume -> j_attempt j' = j_attempt j /\ j_resume_without_attempt j' = true)
  /\ (act_retry = act_retry -> j_attempt j' = 0 /\ j_cancel_requested j' = false /\ j_error j' = None)
  /\ exists i o, db_outbox s' !! i = Some o /\ o_job_id o = 1 /\ o_generation o = j_delivery_generation j'
     /\ unpublished o /\ o_available_at o = db_now finished.
Proof.
destruct (db_jobs finished !! 1) as [j|] eqn:Hj; [|by vm_compute in Hj]. exists j. split; [done|].
apply (operator_restart_is_offered finished 1 j act_retry).
- apply later_ok.
- done.
- right. split; [done|]. vm_compute in Hj. by simplify_eq.
Defined.

(** * Divergences *)

(** A delivery of the given generation of the first job. *)
Definition delivery_of (id generation : Z) (source : string) : JobEnvelope :=
  {| e_job_id := id; e_run_id := 0; e_source_id := source; e_generation := generation; e_route := "plain.normal";
     e_priority := 100; e_enqueued_at := seconds 100 |}.

(** What an operator sees of a job: its state, and whether a row of its current
    generation still waits to be sent. *)
Definition waiting (s : DB) (id : Z) : bool :=
  match db_jobs s !! id with
  | None => false
  | Some j => existsb (fun p => bool_decide (o_job_id p.2 = id) && bool_decide (o_generation p.2 = j_delivery_generation j)
                                && is_none (o_published_at p.2)) (map_to_list (db_outbox s))
  end.
Definition job_state (s : DB) (id : Z) : option JobState := j_state <$> db_jobs s !! id.
Definition run_status (s : DB) (run : Z) : option RunStatus := r_status <$> db_runs s !! run.

(** A delivery whose job has no attempt left fails the job but does not look at
    its run, unlike every other path to a terminal state: when it was the last
    job, the run stays open, and neither the dispatcher nor another delivery of
    the job closes it. *)
Definition exhausted_history : list Op :=
  [op_create_run "manual" None []; op_create_jobs 0 two_sources ["alpha"] 100 1; op_tick (fun _ => None);
   op_reserve first_delivery 500 [] 300; op_start (first_claim <| c_execution_token := 2 |>) 500 None 300;
   op_start_run 0; op_wait 400000000%N; op_reserve first_delivery 501 [] 300;
   op_tick (fun _ => None); op_reserve first_delivery 501 [] 300].
Lemma exhausted_delivery_leaves_run_open :
  let s := perform_all (empty_store (seconds 100) ∅ ∅ ∅) exhausted_history in
  job_state s 1 = Some failed /\ remaining s 0 = 0%nat /\ run_status s 0 = Some run_running.
Proof. by vm_compute. Qed.

(** A job created while its source is paused is queued, so its delivery is
    acknowledged; resuming the source restarts only jobs that were paused. The
    job stays queued with its only row already sent, and the dispatcher, which
    looks for missing rows, never offers it again. *)
Definition paused_source_history : list Op :=
  [op_update_source "alpha" None (Some true) None; op_create_run "manual" None [];
   op_create_jobs 0 two_sources ["alpha"] 100 1; op_tick (fun _ => None); op_reserve first_delivery 500 [] 300;
   op_update_source "alpha" None (Some false) None; op_tick (fun _ => None); op_wait 86400000000%N; op_tick (fun _ => None)].
Lemma paused_source_job_is_stranded :
  let s := perform_all (empty_store (seconds 100) ∅ ∅ ∅) paused_source_history in
  job_state s 1 = Some queued /\ source_paused s "alpha" = false /\ waiting s 1 = false.
Proof. by vm_compute. Qed.

(** A running job asked to pause whose worker is lost comes back queued, with the
    request still set. Its delivery is acknowledged, and resuming it clears the
    request without a new generation, so the row that was already sent is the
    only one: the job stays queued and is never offered again. *)
Definition lost_pause_history : list Op :=
  [op_create_run "manual" None []; op_create_jobs 0 two_sources ["alpha"] 100 3; op_tick (fun _ => None);
   op_reserve first_delivery 500 [] 300; op_start (first_claim <| c_execution_token := 2 |>) 500 None 300;
   op_action act_pause 1; op_wait 400000000%N; op_tick (fun _ => None);
   op_reserve first_delivery 501 [] 300; op_action act_resume 1; op_tick (fun _ => None)].
Lemma resumed_job_is_stranded :
  let s := perform_all (empty_store (seconds 100) ∅ ∅ ∅) lost_pause_history in
  job_state s 1 = Some queued /\ (j_pause_requested <$> db_jobs s !! 1) = Some false /\ waiting s 1 = false.
Proof. by vm_compute. Qed.
