(* ===== verification/Worker.v ===== *)
(** The worker ([catalogue-dump/.../ops/worker.py]): its state, its connections,
    taking a delivery to a terminal state, its heartbeat and its shutdown. One
    worker process is modelled step by step; what other processes do meanwhile
    changes the database between its steps.

    The broker delivers what it has for the worker's routes and accepts every
    settlement. [ww_outages] says, for each time the worker asks its pool for a
    connection, whether the database cannot be reached ([psycopg.Error]); a
    connection it got serves until it is given back. *)
From S2P Require Export Pipeline JobControl HostSlots Notifications DumpFiles Diagnostics.
From stdpp Require Import sorting.
Open Scope Z_scope.

(** What a step of the worker raises. *)
Inductive wexn := W_exn (e : pyexn) | W_psycopg | W_browser (message : string).

(** [str(error)] *)
Definition wexn_str (e : wexn) : string :=
  match e with
  | W_exn e => exn_str e
  | W_psycopg => "the database is not reachable"
  | W_browser m => m
  end.

(** A broker delivery, by the broker's own handle, and how it was settled. *)
Record Delivery := { dl_id : Z; dl_envelope : JobEnvelope }.
Inductive Settlement := Acknowledged | Retried (delay : Z).

(** A transaction that loaded a source's records: [lc_whole] lets it retire the
    products the records do not hold. *)
Record LoadCall := { lc_job : Z; lc_source : string; lc_records : nat; lc_whole : bool }.

(** [current_jobs] is in the order of insertion. Source:
    catalogue-dump/ops/worker.py:152-167, WorkerState. *)
Record WorkerState := {
  ws_id : Z; ws_hostname : string; ws_pid : Z; ws_capabilities : list string;
  ws_status : string; ws_desired_state : string; ws_current_jobs : list (Z * ClaimedJob); ws_stopping : bool;
  ws_cancels : gmap Z bool; ws_deliveries : gmap Z Delivery; ws_browser_backends : list string;
}.
#[export] Instance eta_WorkerState : Eta WorkerState := fun w =>
  {| ws_id := ws_id w; ws_hostname := ws_hostname w; ws_pid := ws_pid w; ws_capabilities := ws_capabilities w;
     ws_status := ws_status w; ws_desired_state := ws_desired_state w; ws_current_jobs := ws_current_jobs w;
     ws_stopping := ws_stopping w; ws_cancels := ws_cancels w; ws_deliveries := ws_deliveries w;
     ws_browser_backends := ws_browser_backends w |}.

Definition remove_job {A} (id : Z) (l : list (Z * A)) : list (Z * A) := filter (fun p => fst p <> id) l.
(** [d[id] = job] keeps the place of a key that is there. *)
Fixpoint set_job {A} (id : Z) (job : A) (l : list (Z * A)) : list (Z * A) :=
  match l with
  | [] => [(id, job)]
  | (k, j) :: r => if bool_decide (k = id) then (id, job) :: r else (k, j) :: set_job id job r
  end.

(** Source: catalogue-dump/ops/worker.py:169-172, WorkerState.current_job. *)
Definition current_job (w : WorkerState) : option ClaimedJob := snd <$> head (ws_current_jobs w).

(** The constructor's checks. Source: catalogue-dump/ops/worker.py:209-221, Worker.__init__. *)
Definition check_backends (capabilities : list string) (backends : list (string * string)) : result pyexn () :=
  _ ← ensure (forallb (fun p => bool_decide (fst p = snd p)) backends)
        (ValueError "browser backend registry key does not match implementation");
  ensure (negb (bool_decide ("browser:cdp_extension_proxy" ∈ capabilities))
          || existsb (fun p => bool_decide (fst p = "cdp_extension_proxy")) backends)
    (ValueError "worker cannot advertise cdp_extension_proxy without a ready backend").

(** Source: catalogue-dump/ops/queue.py:25-25, LEASE_SECONDS. *)
Definition LEASE_SECONDS : Z := 300.
(** Source: catalogue-dump/ops/queue.py:26-26, HOST_BACKOFF_SECONDS. *)
Definition HOST_BACKOFF_SECONDS : Z := 30.
(** Source: catalogue-dump/ops/queue.py:29-29, TRANSIENT_BACKOFF_SECONDS. *)
Definition TRANSIENT_BACKOFF_SECONDS : Z := 300.

(** Everything a worker's step reads or changes. *)
Record World {FS : Type} := {
  ww_db : DB; ww_files : FS; ww_manifest : Manifest; ww_dumps : dump_files; ww_worker : WorkerState;
  ww_inbox : list Delivery; ww_settled : list (Z * Settlement); ww_extended : list Z;
  ww_outages : list bool; ww_loads : list LoadCall;
  ww_revoked : list Z;   (* the jobs whose proxy reservation is to be revoked *)
}.
Arguments World : clear implicits.
#[export] Instance eta_World {FS} : Eta (World FS) := fun w =>
  {| ww_db := ww_db w; ww_files := ww_files w; ww_manifest := ww_manifest w; ww_dumps := ww_dumps w;
     ww_worker := ww_worker w; ww_inbox := ww_inbox w; ww_settled := ww_settled w; ww_extended := ww_extended w;
     ww_outages := ww_outages w; ww_loads := ww_loads w; ww_revoked := ww_revoked w |}.

Section worker.
Context {FS : Type}.
Abbreviation work := (eff (World FS) wexn).

(** * Connections and bookkeeping *)

(** [async with self.pool.connection()] *)
Definition connect : work () := fun w =>
  match ww_outages w with
  | [] => (Ok (), w)
  | down :: r => (if (down : bool) then Err W_psycopg else Ok (), w <| ww_outages := r |>)
  end.

(** A statement, or a function of the store, on the connection held. *)
Definition on_db {A : Type} (m : db A) : work A := fun w =>
  match m (ww_db w) with
  | (Ok a, s) => (Ok a, w <| ww_db := s |>)
  | (Err e, s) => (Err (W_exn e), w <| ww_db := s |>)
  end.
Definition raising {A} (r : result pyexn A) : work A :=
  lift (match r with Ok a => Ok a | Err e => Err (W_exn e) end).
(** [except psycopg.Error] *)
Definition tolerate (m : work ()) : work () :=
  catch m (fun e => match e with W_psycopg => mret () | _ => throw e end).

Definition worker_id : work Z := gets (fun w => ws_id (ww_worker w)).
Definition update_worker (f : WorkerState -> WorkerState) : work () := modify (fun w => w <| ww_worker := f (ww_worker w) |>).
Definition settle (d : Delivery) (x : Settlement) : work () :=
  modify (fun w => w <| ww_settled := ww_settled w ++ [(dl_id d, x)] |>).
(** [self._deliveries.get(job.id)] *)
Definition delivery_of (id : Z) : work (option Delivery) := gets (fun w => ws_deliveries (ww_worker w) !! id).
(** [await self._deliveries[job.id]....] *)
Definition settle_job (id : Z) (x : Settlement) : work () :=
  d ← delivery_of id;
  match d with Some d => settle d x | None => throw (W_exn (KeyError (pretty id))) end.

(** Source: catalogue-dump/ops/worker.py, Worker._forget. *)
Definition forget (job : ClaimedJob) : work () := update_worker (fun w =>
  w <| ws_current_jobs := remove_job (c_id job) (ws_current_jobs w) |>
    <| ws_cancels := delete (c_id job) (ws_cancels w) |>
    <| ws_deliveries := delete (c_id job) (ws_deliveries w) |>).

(** Source: catalogue-dump/ops/worker.py, Worker._cancel. *)
Definition cancel (id : Z) : work () := update_worker (fun w =>
  w <| ws_cancels := alter (fun _ => true) id (ws_cancels w) |>).

(** Source: catalogue-dump/ops/worker.py, Worker._cancel_all. *)
Definition cancel_all : work () := update_worker (fun w => w <| ws_cancels := (fun _ => true) <$> ws_cancels w |>).

(** Source: catalogue-dump/ops/worker.py, _durable_error. *)
Definition durable_error (e : wexn) (max_length : Z) : work string :=
  raising (sanitize_diagnostic_text (wexn_str e) max_length).

(** * Lifecycle *)

Definition set_worker_row (id : Z) (f : DB -> WorkerRow -> WorkerRow) : db (option WorkerRow) := fun s =>
  match db_workers s !! id with
  | Some r => (Ok (Some (f s r)), s <| db_workers := <[id := f s r]> (db_workers s) |>)
  | None => (Ok None, s)
  end.

(** The row of a worker that registers; on a conflict only its status and
    heartbeat change. Source: catalogue-dump/ops/worker.py, Worker.register. *)
Definition register (version : string) : work () :=
  _ ← connect;
  w ← gets ww_worker;
  _ ← on_db (modify (fun s => s <| db_workers := <[ws_id w :=
        match db_workers s !! ws_id w with
        | Some r => r <| wk_status := "starting" |> <| wk_last_heartbeat_at := db_now s |>
        | None => {| wk_hostname := ws_hostname w; wk_pid := ws_pid w; wk_version := version;
                     wk_capabilities := ws_capabilities w; wk_last_heartbeat_at := db_now s; wk_status := "starting";
                     wk_desired_state := "running"; wk_current_job_id := None |}
        end]> (db_workers s) |>));
  on_db (emit "worker.starting" None None (Some (ws_id w)) None).

(** Source: catalogue-dump/ops/worker.py, Worker.set_status. *)
Definition set_status (status : string) (job_id : option Z) (force : bool) : work () :=
  w ← gets ww_worker;
  if negb force && bool_decide (ws_status w = status) && bool_decide (job_id = c_id <$> current_job w) then mret ()
  else
    _ ← update_worker (fun w => w <| ws_status := status |>);
    _ ← connect;
    _ ← on_db (set_worker_row (ws_id w) (fun s r =>
          r <| wk_status := status |> <| wk_current_job_id := job_id |> <| wk_last_heartbeat_at := db_now s |>));
    on_db (emit "worker.changed" None job_id (Some (ws_id w)) None).

(** Source: catalogue-dump/ops/worker.py, Worker._observe_desired_state. *)
Definition observe_desired_state (desired : string) : work () :=
  w ← gets ww_worker;
  if bool_decide (desired = ws_desired_state w) then mret ()
  else
    _ ← update_worker (fun w => w <| ws_desired_state := desired |>);
    if bool_decide (desired = "stopping") then _ ← cancel_all; update_worker (fun w => w <| ws_stopping := true |>)
    else if bool_decide (desired = "draining") then update_worker (fun w => w <| ws_stopping := true |>)
    else if bool_decide (desired = "paused") then set_status "paused" None false
    else if bool_decide (desired = "running") && bool_decide (ws_status w = "paused") then set_status "idle" None false
    else mret ().

(** The flags of the executions a renewal kept. Source: catalogue-dump/ops/worker.py:343-355, Worker._beat. *)
Fixpoint cancel_flagged (held : list (Z * bool * bool)) : work () :=
  match held with
  | [] => mret ()
  | (id, wants_cancel, wants_pause) :: r => _ ← (if (wants_cancel : bool) || wants_pause then cancel id else mret ()); cancel_flagged r
  end.

(** The revoked reservations of jobs this worker leases. Source:
    catalogue-dump/ops/worker.py:356-369, Worker._beat. *)
Definition revoked_jobs (w : World FS) : list Z :=
  filter (fun id => (db_jobs (ww_db w) !! id ≫= j_lease_owner) = Some (ws_id (ww_worker w))) (ww_revoked w).
Fixpoint cancel_each (ids : list Z) : work () :=
  match ids with
  | [] => mret ()
  | id :: r => _ ← cancel id; cancel_each r
  end.

(** Source: catalogue-dump/ops/worker.py:330-369, Worker._beat. *)
Definition poll_database : work () :=
  _ ← connect;
  id ← worker_id;
  row ← on_db (set_worker_row id (fun s r => r <| wk_last_heartbeat_at := db_now s |>));
  _ ← match row with Some r => observe_desired_state (wk_desired_state r) | None => mret () end;
  jobs ← gets (fun w => (ws_current_jobs (ww_worker w)).*2);
  held ← on_db (renew jobs id LEASE_SECONDS);
  _ ← on_db (renew_slots id (c_execution_token <$> jobs) SLOT_SECONDS);
  _ ← cancel_flagged held;
  revoked ← gets revoked_jobs;
  cancel_each revoked.

(** One pass of the heartbeat's loop: deliveries first, then the database, whose
    failure it survives. Source: catalogue-dump/ops/worker.py:320-376, Worker._beat. *)
Definition beat : work () :=
  _ ← modify (fun w => w <| ww_extended := ww_extended w ++ (dl_id <$> (map_to_list (ws_deliveries (ww_worker w))).*2) |>);
  tolerate poll_database.

(** * Outcomes *)

(** The alert of a source whose job failed. Source: catalogue-dump/ops/worker.py:149-149, _JOB_FAILED_KEY. *)
Definition JOB_FAILED_KEY (source : string) : NoteKey :=
  {| nk_condition := "job.failed"; nk_subject := source; nk_values := [] |}.

(** The alert of a finished job: raised by a failure, closed by a success. Source:
    catalogue-dump/ops/worker.py:1497-1521, Worker._finish. *)
Definition job_alert (job : ClaimedJob) (st : JobState) : db () :=
  if bool_decide (st = failed) then
    _ ← notify "job.failed" WARNING (JOB_FAILED_KEY (c_source_id job))
          {| su_run := Some (c_run_id job); su_job := Some (c_id job); su_source := Some (c_source_id job); su_worker := None |};
    mret ()
  else if bool_decide (st = succeeded) then
    _ ← resolve (JOB_FAILED_KEY (c_source_id job)) (Some (c_source_id job)); mret ()
  else mret ().

(** The pilot evidence of a proxied source and the metrics are not modelled. Source:
    catalogue-dump/ops/worker.py:1412-1459, Worker._finish. *)
Definition finish (job : ClaimedJob) (st : JobState) (summary : option JobSummary) (error : option string)
    (artifact : option Artifact) : work () :=
  _ ← connect;
  _ ← on_db (finish_execution job st summary error artifact);
  on_db (job_alert job st).

(** Source: catalogue-dump/ops/worker.py, Worker._requeue_for_browser. *)
Definition requeue_for_browser (job : ClaimedJob) (message : string) : work bool :=
  _ ← connect;
  _ ← durable_error (W_browser message) 200;
  id ← worker_id;
  on_db (require_capability job id "browser").

(** The entries of a legacy crawl's summary that the worker reads. *)
Record CrawlSummary := {
  cs_scraper : string; cs_records : Z; cs_discovered : Z; cs_filtered : Z; cs_invalid : Z; cs_requests : Z;
  cs_rendered_pages : Z; cs_interrupted : bool; cs_truncated : bool; cs_deadline_exceeded : bool; cs_error_count : Z;
  cs_errors : list string; cs_outcome_counts : list (string * Z);
}.

(** Source: catalogue-dump/crawl/runner.py, barren. *)
Definition barren (x : CrawlSummary) : option string :=
  if bool_decide (cs_records x <> 0) || cs_interrupted x then None
  else if bool_decide (cs_discovered x = 0) then None
  else
    let filtered := bool_decide (cs_filtered x <> 0) in
    let invalid := bool_decide (cs_invalid x <> 0) in
    let listed := "listed " +:+ pretty (cs_discovered x) +:+ " products" in
    Some (
      if filtered && negb invalid then
        listed +:+ ", extracted " +:+ pretty (cs_filtered x) +:+ ", and kept none: every row fell outside this source's materials scope, so the crawl is listing the wrong pages"
      else if invalid && negb filtered then
        listed +:+ ", extracted " +:+ pretty (cs_invalid x) +:+ ", and kept none: every extracted row lacked a usable identity or price"
      else if filtered && invalid then
        listed +:+ ", extracted " +:+ pretty (cs_filtered x + cs_invalid x) +:+ ", and kept none: " +:+ pretty (cs_filtered x)
          +:+ " fell outside this source's materials scope and " +:+ pretty (cs_invalid x) +:+ " lacked a usable identity or price"
      else listed +:+ " and extracted none: the " +:+ cs_scraper x +:+ " scraper recognised nothing on any of them").

(** Source: catalogue-dump/crawl/runner.py:134-134, THROTTLED_OUTCOMES. *)
Definition THROTTLED_OUTCOMES : list string := ["429"; "5xx"; "timeout"; "transport_error"].

(** Source: catalogue-dump/crawl/runner.py, transient. *)
Definition transient (x : CrawlSummary) : bool :=
  negb (bool_decide (cs_records x <> 0) || cs_interrupted x) && negb (cs_deadline_exceeded x)
  && bool_decide (cs_error_count x <> 0)
  && existsb (fun name => bool_decide (default 0 (dict_get name (cs_outcome_counts x)) <> 0)) THROTTLED_OUTCOMES.

(** Source: catalogue-dump/ops/worker.py, _first_error. *)
Definition first_error (x : CrawlSummary) : option string :=
  match cs_errors x with
  | [] => None
  | e :: _ => match sanitize_diagnostic_text e 2000 with Ok t => Some t | Err _ => None end
  end.

(** [x or y] of an optional text. *)
Definition or_text (x : option string) (y : string) : string :=
  match x with Some t => if str_isempty t then y else t | None => y end.

(** Source: catalogue-dump/ops/worker.py:1637-1641, _legacy_load_plan. *)
Definition crawl_error (x : CrawlSummary) : option string :=
  if bool_decide (cs_error_count x <> 0) && bool_decide (cs_records x = 0)
  then Some (or_text (first_error x) "source collected no records after errors")
  else barren x.

(** Source: catalogue-dump/ops/worker.py, _legacy_load_plan. *)
Definition legacy_load_plan (x : CrawlSummary) (write_status : string) : bool * option string * option string :=
  let error := crawl_error x in
  let '(whole, why_not) := may_retire write_status (cs_truncated x) in
  match error with
  | Some e => (false, Some "zero-record outcome failed validation", Some e)
  | None => (whole, Some why_not, None)
  end.

(** Source: catalogue-dump/ops/worker.py, _legacy_terminal_state. *)
Definition legacy_terminal_state (error : option string) (rejected_ : Z) : JobState :=
  if truthy_text error then failed else if bool_decide (rejected_ <> 0) then degraded else succeeded.

(** Source: catalogue-dump/ops/worker.py, Worker._retry_transient. *)
Definition retry_transient (job : ClaimedJob) (x : CrawlSummary) : work bool :=
  if c_max_attempts job <=? c_attempt job then mret false
  else
    let delay := TRANSIENT_BACKOFF_SECONDS * c_attempt job in
    let reason := or_text (first_error x) "host refused the request" in
    id ← worker_id;
    _ ← on_db (release_all_slots (c_id job) (c_execution_token job));
    released ← on_db (release job id delay);
    if negb (released : bool) then mret false
    else
      _ ← on_db (log (c_id job) ("collected nothing and will retry in " +:+ pretty delay +:+ "s (attempt " +:+ pretty (c_attempt job)
            +:+ " of " +:+ pretty (c_max_attempts job) +:+ "): " +:+ reason) "warning" (Some "job.retry_scheduled"));
      d ← delivery_of (c_id job);
      _ ← match d with Some d => settle d (Retried (seconds delay)) | None => mret () end;
      _ ← forget job;
      mret true.

(** * Taking a delivery to its end *)

(** The shops of a family that answers from one provider's edge. Source:
    catalogue-dump/scrapers/__init__.py, shared_edge. *)
Definition shared_edge (scraper : string) : option string :=
  if bool_decide (scraper ∈ ["shopify"; "shopify_connector"]) then Some "edge:shopify" else None.

(** The shop first, then its edge. Source: catalogue-dump/ops/worker.py:565-568, Worker.execute. *)
Definition host_keys (sources : gmap string SourceConfig) (job : ClaimedJob) : list string :=
  c_host job :: match sources !! c_source_id job ≫= (fun c => shared_edge (sc_scraper c)) with Some edge => [edge] | None => [] end.

(** The keys in order; a busy one gives back what was taken and the delivery.
    Source: catalogue-dump/ops/worker.py:570-582, Worker.execute. *)
Fixpoint acquire_keys (job : ClaimedJob) (keys : list string) : work bool :=
  match keys with
  | [] => mret true
  | key :: r =>
      id ← worker_id;
      slot ← on_db (acquire_slot key (c_id job) id (c_execution_token job) SLOT_SECONDS);
      match slot with
      | Some _ => acquire_keys job r
      | None =>
          _ ← on_db (release_all_slots (c_id job) (c_execution_token job));
          _ ← on_db (release job id HOST_BACKOFF_SECONDS);
          _ ← settle_job (c_id job) (Retried (seconds HOST_BACKOFF_SECONDS));
          _ ← forget job;
          mret false
      end
  end.

(** The job is this process's. Source: catalogue-dump/ops/worker.py:554-555, Worker.execute. *)
Definition adopt (job : ClaimedJob) : work () := update_worker (fun w =>
  w <| ws_current_jobs := set_job (c_id job) job (ws_current_jobs w) |>
    <| ws_cancels := <[c_id job := false]> (ws_cancels w) |>).

(** [queue.start], which also updates the attempt of the job this process holds;
    a job it does not own any more is given up. Source:
    catalogue-dump/ops/worker.py:593-605, Worker.execute. *)
Definition begin_execution (job : ClaimedJob) (trace_id : option string) : work (option ClaimedJob) :=
  _ ← connect;
  id ← worker_id;
  '(started, job) ← on_db (start job id trace_id LEASE_SECONDS);
  if negb (started : bool) then
    _ ← on_db (release_all_slots (c_id job) (c_execution_token job));
    _ ← settle_job (c_id job) Acknowledged;
    _ ← forget job;
    mret None
  else
    _ ← update_worker (fun w => w <| ws_current_jobs := set_job (c_id job) job (ws_current_jobs w) |>);
    _ ← on_db (start_run (c_run_id job));
    mret (Some job).

(** The handlers of an execution. Source: catalogue-dump/ops/worker.py:610-620, Worker.execute. *)
Definition recover_execution (job : ClaimedJob) (e : wexn) : work () :=
  let fail := error ← durable_error e 2000; finish job failed None (Some error) None in
  match e with
  | W_browser message => requeued ← requeue_for_browser job message; if (requeued : bool) then mret () else fail
  | _ => fail
  end.

(** The [finally] of an execution. Source: catalogue-dump/ops/worker.py:621-641, Worker.execute. *)
Definition end_execution (job : ClaimedJob) : work () :=
  _ ← connect;
  _ ← on_db (release_all_slots (c_id job) (c_execution_token job));
  d ← delivery_of (c_id job);
  _ ← match d with Some d => settle d Acknowledged | None => mret () end;
  _ ← forget job;
  remaining ← gets (fun w => current_job (ww_worker w));
  set_status (match remaining with Some _ => "busy" | None => "idle" end) (c_id <$> remaining) true.

(** Source: catalogue-dump/ops/worker.py, Worker.execute. *)
Definition execute (sources : gmap string SourceConfig) (trace_id : option string) (crawl_and_load : ClaimedJob -> work ())
    (job : ClaimedJob) : work bool :=
  _ ← adopt job;
  _ ← connect;
  acquired ← acquire_keys job (host_keys sources job);
  if negb (acquired : bool) then mret false
  else
    begun ← begin_execution job trace_id;
    match begun with
    | None => mret false
    | Some job =>
        _ ← set_status "busy" (Some (c_id job)) false;
        _ ← finally (catch (crawl_and_load job) (recover_execution job)) (end_execution job);
        mret true
    end.

(** The first delivery the broker has for the worker's routes. *)
Definition next_delivery : work (option Delivery) := fun w =>
  let routes := routes_for (ws_capabilities (ww_worker w)) in
  match list_find (fun d => e_route (dl_envelope d) ∈ routes) (ww_inbox w) with
  | Some (i, d) => (Ok (Some d), w <| ww_inbox := take i (ww_inbox w) ++ drop (S i) (ww_inbox w) |>)
  | None => (Ok None, w)
  end.

(** What the reservation says of the delivery; [None] when the database cannot be
    reached. Source: catalogue-dump/ops/worker.py:520-528, Worker.tick. *)
Definition reserve_delivery (d : Delivery) : work (option Reservation) :=
  catch (_ ← connect;
         w ← gets ww_worker;
         r ← on_db (reserve (dl_envelope d) (ws_id w) (ws_capabilities w) LEASE_SECONDS);
         mret (Some r))
        (fun e => match e with W_psycopg => mret None | _ => throw e end).

(** One pass of the loop that runs the job inline. The leader duties before it are
    other definitions' ([Schedule.fire_due], [Monitor.check_all],
    [Health.check_recovered]). Source: catalogue-dump/ops/worker.py:516-550, Worker.tick. *)
Definition tick (execute : ClaimedJob -> work bool) : work bool :=
  delivery ← next_delivery;
  match delivery with
  | None => mret false
  | Some d =>
      reservation ← reserve_delivery d;
      match reservation with
      | None => _ ← settle d (Retried (seconds 5)); mret true
      | Some r =>
          match rv_disposition r, rv_job r with
          | ack, _ => _ ← settle d Acknowledged; mret true
          | retry, _ => _ ← settle d (Retried (rv_retry_after r)); mret true
          | run_it, None => throw (W_exn (AssertionError "job is not None"))
          | run_it, Some job =>
              _ ← update_worker (fun w => w <| ws_deliveries := <[c_id job := d]> (ws_deliveries w) |>);
              execute job
          end
      end
  end.

(** * Shutting down *)

(** Source: catalogue-dump/ops/worker.py:1541-1548, Worker.shutdown. *)
Fixpoint give_back (jobs : list ClaimedJob) : work () :=
  match jobs with
  | [] => mret ()
  | job :: r =>
      id ← worker_id;
      _ ← on_db (release_all_slots (c_id job) (c_execution_token job));
      _ ← on_db (release job id 0);
      d ← delivery_of (c_id job);
      _ ← match d with Some d => settle d (Retried 0) | None => mret () end;
      give_back r
  end.

(** Source: catalogue-dump/ops/worker.py:1533-1565, Worker.shutdown. *)
Definition shutdown : work () :=
  _ ← update_worker (fun w => w <| ws_stopping := true |>);
  _ ← tolerate (
    _ ← connect;
    jobs ← gets (fun w => (ws_current_jobs (ww_worker w)).*2);
    _ ← give_back jobs;
    id ← worker_id;
    _ ← on_db (set_worker_row id (fun s r =>
          r <| wk_status := "stopped" |> <| wk_current_job_id := None |> <| wk_last_heartbeat_at := db_now s |>));
    on_db (emit "worker.stopped" None None (Some id) None));
  update_worker (fun w => w <| ws_browser_backends := [] |>).

(** A second signal cancels what runs. Source: catalogue-dump/ops/worker.py, Worker._on_signal. *)
Definition on_signal : work () :=
  w ← gets ww_worker;
  if ws_stopping w then cancel_all
  else update_worker (fun w => w <| ws_stopping := true |> <| ws_desired_state := "draining" |>).
End worker.
Abbreviation work FS := (eff (World FS) wexn).
