(* ===== verification/Canary.v ===== *)
(** What a worker does for a job it executes ([catalogue-dump/.../ops/worker.py]):
    a legacy source's crawl, dump and load, or a connector's collection through the
    page pipeline, the sealing of its lineage, the publication of its datasets and
    the load of its catalogue records.

    What lies outside the process is a parameter: what the source answers, what
    other processes do to the database while it does, the proxy's and the runtime's
    verdicts, and the report of the catalogue's loader. *)
From S2P Require Export Worker.
From stdpp Require Import sorting.
Open Scope Z_scope.

(** * The checksum of a lineage *)

(** Lexicographic order of sort keys: numbers, then texts. *)
Fixpoint texts_le (a b : list string) : bool :=
  match a, b with
  | [], _ => true
  | _ :: _, [] => false
  | x :: a, y :: b => if bool_decide (x = y) then texts_le a b else str_le x y
  end.
Definition row_key_le (a b : nat * Z * list string) : bool :=
  let '(i, m, x) := a in let '(j, n, y) := b in
  if bool_decide (i = j) then (if m =? n then texts_le x y else m <? n) else (i <? j)%nat.
Definition by_row_key {A} (key : A -> nat * Z * list string) (a b : A) : Prop := row_key_le (key a) (key b) = true.
#[export] Instance by_row_key_dec {A} (key : A -> nat * Z * list string) a b : Decision (by_row_key key a b).
Proof. unfold by_row_key. apply _. Defined.

Definition text_or_null (o : option string) : json := match o with Some t => JStr t | None => JNull end.
Definition key_fields (k : DatasetKey) : list (string * json) :=
  [("dataset", JStr (dk_dataset k)); ("contract_version", JStr (dk_contract k)); ("projector_version", JStr (dk_projector k))].
Definition place_fields (k : page_key) (sequence : Z) : list (string * json) :=
  [("partition_key", JStr k.1.2); ("page_sequence", JInt sequence); ("page_id", JStr k.2)].

(** The committed manifest of a lineage, ordered. Source:
    catalogue-dump/ops/outputs.py:823-861, lineage_checksum. *)
Definition lineage_document (job lineage : Z) (partitions : list string) (m : Manifest) : json :=
  let order name := partition_order partitions name in
  let here (k : page_key) := bool_decide (k.1.1 = (job, lineage)) in
  let place (k : page_key) sequence texts := (order k.1.2, sequence, k.2 :: texts) in
  let key_texts k := [dk_dataset k; dk_contract k; dk_projector k] in
  let pages := merge_sort (by_row_key (fun p => place (pg_key p) (pg_sequence p) []))
                 (filter (fun p => here (pg_key p) = true) (m_pages m)) in
  let batches := merge_sort (by_row_key (fun b => place (br_page b) (br_sequence b) (key_texts (pb_key (br_batch b)))))
                   (filter (fun b => here (br_page b) = true) (m_batches m)) in
  let outcomes := merge_sort (by_row_key (fun o => place (or_page o) (or_sequence o) (key_texts (do_key (or_outcome o)))))
                    (filter (fun o => here (or_page o) = true) (m_outcomes m)) in
  JDict [
    ("pages", JList (map (fun p => JDict (place_fields (pg_key p) (pg_sequence p) ++
       [("resume_after", default JNull (pg_resume_after p)); ("terminal", JBool (pg_terminal p));
        ("enumeration_intact", JBool (pg_intact p)); ("connector_version", JStr (pg_connector_version p))])) pages));
    ("batches", JList (map (fun b => let x := br_batch b in JDict (place_fields (br_page b) (br_sequence b) ++ key_fields (pb_key x) ++
       [("object_key", JStr (pb_object_key x)); ("sha256", JStr (pb_sha256 x)); ("size", JInt (pb_size x)); ("records", JInt (pb_records x))])) batches));
    ("outcomes", JList (map (fun o => let x := or_outcome o in JDict (place_fields (or_page o) (or_sequence o) ++ key_fields (do_key x) ++
       [("state", JStr (do_state x)); ("records", JInt (do_records x)); ("error", text_or_null (do_error x))])) outcomes))].

(** Source: catalogue-dump/ops/outputs.py, lineage_checksum. *)
Definition lineage_checksum (sha256 : string -> string) (float_repr : pyfloat -> string) (job lineage : Z) (m : Manifest)
    : result pyexn string :=
  match m_lineages m !! (job, lineage) with
  | None => Err (ValueError "unknown checkpoint lineage")
  | Some l => Ok (sha256 (json_dumps float_repr true (lineage_document job lineage (l_partitions l) m)))
  end.

(** * The plan of a collection *)

(** The parameters of a job that the worker reads. Source:
    catalogue-dump/config/settings.py, CrawlParams. *)
Record CrawlParams := {
  cp_pipeline : string; cp_browser : string; cp_allow_empty : bool; cp_datasets : list string;
}.

(** What the commerce runtime plans for a source: the lineage's specification and
    the pipeline's arguments. *)
Record CollectionPlan := {
  ca_registry : DatasetRegistry; ca_spec : LibraryLineageSpec; ca_dynamic_partitions : bool; ca_partitions : list string;
  ca_capabilities : ConnectorCapabilities; ca_refresh : RefreshMode; ca_requested : list SnapshotField;
  ca_version : string; ca_projection : string -> record; ca_source_id : string;
}.

Record LoadReport := { lr_records : Z; lr_retired : Z; lr_rejected : Z }.

(** How a legacy crawl ended. *)
Inductive CrawlAnswer :=
| Interrupted (records : list record)
| Crawled (records : list record) (summary : CrawlSummary)
| CrawlRaises (e : wexn).

(** Source: catalogue-dump/ops/worker.py:837-840, Worker._crawl_connector_canary. *)
Definition selected_datasets (identity_only : bool) (datasets : list string) : list string :=
  (fun name => if bool_decide (name = "ceramics")
               then (if identity_only then "ceramics.catalogue_identity.v2" else "ceramics.catalogue_item.v2")
               else name) <$> datasets.

(** A dict by name: the first place, the last value. Source:
    catalogue-dump/ops/worker.py:856-862, Worker._crawl_connector_canary. *)
Fixpoint dataset_keys (registry : DatasetRegistry) (selected : list string) (keys : list (string * DatasetKey))
    : result pyexn (list (string * DatasetKey)) :=
  match selected with
  | [] => Ok keys
  | name :: r =>
      d ← definition_of registry name;
      dataset_keys registry r (dict_set (dd_name d)
        {| dk_dataset := dd_name d; dk_contract := dd_version d; dk_projector := dd_projector_version d |} keys)
  end.

Definition is_ceramics (name : string) : bool := str_startswith "ceramics." name.

(** Retirement requires a terminal cursor and an intact enumeration. Source:
    catalogue-dump/ops/worker.py, _connector_load_is_whole. *)
Definition connector_load_is_whole (r : PipelineResult) : bool := pr_terminal r && pr_intact r.

(** What lies outside the process. *)
Record Surroundings := {
  (* the digest, the compressed form of rows and the float formatting *)
  en_sha256 : string -> string; en_encode : list record -> string; en_float_repr : pyfloat -> string;
  (* pydantic's dump and validation of a request, and of a job's parameters *)
  en_dump : CollectionRequest -> json; en_validate : list (string * json) -> option CollectionRequest;
  en_from_job : list (string * json) -> result pyexn CrawlParams;
  (* the sources of this worker, which of them keep identities only, and where it puts its dumps *)
  en_sources : gmap string SourceConfig; en_identity_only : string -> bool; en_dumps_dir : string;
  (* the profile of the CDP backend (the pool it is allowed in, its name), and this worker's pool *)
  en_cdp_profile : string * string; en_cdp_worker_pool : string;
  (* what other processes do to the database while a source is collected, and whether the heartbeat
     raised the job's cancel flag meanwhile *)
  en_meanwhile : ClaimedJob -> DB -> DB; en_flagged : ClaimedJob -> bool;
  (* a legacy job: its proxy lease, what its source answers; what the loader reports *)
  en_proxy_lease : ClaimedJob -> result wexn bool; en_crawl : ClaimedJob -> CrawlAnswer;
  en_load_report : ClaimedJob -> bool -> result wexn LoadReport;
  (* a connector's job: the runtime's plan, whether the runtime opens, and what the connector collects
     from a checkpoint *)
  en_plan : ClaimedJob -> CrawlParams -> list string -> result wexn CollectionPlan;
  en_assemble : ClaimedJob -> result wexn (); en_collect : ClaimedJob -> option ConnectorCheckpoint -> Collected;
}.

Section canary.
Context {FS : Type} `{!ArtifactStore FS} (E : Surroundings).

(** * Tables and files *)

(** The rows of [catalogue.job_datasets] as the run's rules read them. *)
Definition dataset_rows (m : Manifest) : list JobDataset :=
  (fun p => {| d_job_id := (fst p).1; d_dataset := dk_dataset (fst p).2; d_state := ds_state (snd p); d_complete := ds_complete (snd p) |})
    <$> map_to_list (m_datasets m).

(** The manifest's tables share the clock and the jobs of the store. *)
Definition manifest_view (w : World FS) : Manifest :=
  (ww_manifest w) <| m_now := db_now (ww_db w) |> <| m_jobs := dom (db_jobs (ww_db w)) |>.

(** A function of the manifest, on the connection held. *)
Definition on_pipeline {A} (m : eff (FS * Manifest) pyexn A) : work FS A := fun w =>
  let '(r, (fs, t)) := m (ww_files w, manifest_view w) in
  (match r with Ok a => Ok a | Err e => Err (W_exn e) end,
   w <| ww_files := fs |> <| ww_manifest := t |> <| ww_db := (ww_db w) <| db_datasets := dataset_rows t |> |>).
Definition on_manifest {A} (m : mdb A) : work FS A := on_pipeline (on_tables m).
Definition on_dumps {A : Type} (m : eff dump_files pyexn A) : work FS A := fun w =>
  match m (ww_dumps w) with
  | (Ok a, d) => (Ok a, w <| ww_dumps := d |>)
  | (Err e, d) => (Err (W_exn e), w <| ww_dumps := d |>)
  end.

(** Time passes while the source answers. *)
Definition elapse (job : ClaimedJob) : work FS () := modify (fun w =>
  w <| ww_db := en_meanwhile E job (ww_db w) |>
    <| ww_worker := if en_flagged E job then (ww_worker w) <| ws_cancels := alter (fun _ => true) (c_id job) (ws_cancels (ww_worker w)) |>
                    else ww_worker w |>).

(** * Loading *)

(** The material transaction is fenced; what the loader does to the products is
    not modelled, only that it was asked, and for what. Source:
    catalogue-dump/ops/worker.py:1381-1401, Worker._load_fenced. *)
Definition load_fenced (job : ClaimedJob) (records : nat) (whole : bool) : work FS LoadReport :=
  _ ← connect;
  owned ← gets (fun w => owns_execution (ww_db w) job);
  if negb (owned : bool) then throw (W_exn (RuntimeError "job execution token was lost before catalogue load"))
  else
    report ← lift (en_load_report E job whole);
    _ ← modify (fun w => w <| ww_loads := ww_loads w ++
          [{| lc_job := c_id job; lc_source := c_source_id job; lc_records := records; lc_whole := whole |}] |>);
    mret report.

(** * Browsers *)

(** Source: catalogue-dump/connectors/base.py:41-43, BrowserBackendName. *)
Definition BROWSER_BACKENDS : list string := ["camoufox"; "cdp_extension_proxy"].

(** The backend of a job and its logical profile. Source:
    catalogue-dump/ops/worker.py, Worker._browser_for_job. *)
Definition browser_for_job (job : ClaimedJob) (params : CrawlParams) (proxy_active : bool) : work FS (option (string * option string)) :=
  if bool_decide (cp_browser params = "never") then mret None
  else
    let selected := if truthy_text (c_selected_browser_backend job) then default "" (c_selected_browser_backend job) else "camoufox" in
    if negb (bool_decide (selected ∈ BROWSER_BACKENDS)) then throw (W_browser ("unsupported selected browser backend '" +:+ selected +:+ "'"))
    else if bool_decide (selected = "cdp_extension_proxy") && proxy_active
    then throw (W_browser "cdp_extension_proxy is direct-route only and cannot use a paid proxy lease")
    else
      _ ← update_worker (fun w =>
            if bool_decide (selected = "camoufox") && negb (bool_decide (selected ∈ ws_browser_backends w))
            then w <| ws_browser_backends := ws_browser_backends w ++ [selected] |> else w);
      backends ← gets (fun w => ws_browser_backends (ww_worker w));
      if negb (bool_decide (selected ∈ backends))
      then throw (W_browser ("selected browser backend '" +:+ selected +:+ "' is unavailable"))
      else if bool_decide (selected = "cdp_extension_proxy") then
        if negb (bool_decide ((en_cdp_profile E).1 = (en_cdp_worker_pool E))) then throw (W_browser "CDP profile is not allowed in this worker pool")
        else mret (Some (selected, Some (en_cdp_profile E).2))
      else mret (Some (selected, None)).

(** * A legacy source *)

(** [outcome.summary] with what the worker adds, as the store reads it. *)
Definition summary_of (x : CrawlSummary) (write_status : option string) : JobSummary :=
  {| sm_discovered := Some (cs_discovered x); sm_records := Some (cs_records x); sm_requests := Some (cs_requests x);
     sm_rendered_pages := Some (cs_rendered_pages x); sm_error_count := Some (cs_error_count x);
     sm_truncated := Some (cs_truncated x); sm_interrupted := if cs_interrupted x then Some true else None;
     sm_write_status := write_status |}.

(** The partial artifact of an interrupted crawl. Source:
    catalogue-dump/ops/worker.py:748-757, Worker._crawl_and_load. *)
Definition finish_interrupted (job : ClaimedJob) (output : string) (records : list record) : work FS () :=
  '(artifact, _) ← on_dumps (write_partial (en_encode E) (en_sha256 E) output (c_source_id job) records);
  finish job cancelled
    (Some (no_summary <| sm_records := Some (Z.of_nat (length records)) |> <| sm_interrupted := Some true |>)) None (Some artifact).

(** The dump, the load and the outcome of a crawl that ended. Source:
    catalogue-dump/ops/worker.py:770-804, Worker._crawl_and_load. *)
Definition record_outcome (job : ClaimedJob) (params : CrawlParams) (output : string) (records : list record) (x : CrawlSummary) : work FS () :=
  '(artifact, status) ← on_dumps (write_source (en_encode E) (en_sha256 E) output (c_source_id job) records (cp_allow_empty params));
  _ ← on_db (log (c_id job) ("wrote " +:+ pretty (default 0 (art_size artifact)) +:+ " bytes to " +:+ art_path artifact) "info" (Some "job.artifact"));
  let '(whole, why_not, error) := legacy_load_plan x status in
  loaded ← load_fenced job (length records) whole;
  finish job (legacy_terminal_state error (lr_rejected loaded)) (Some (summary_of x (Some status))) error (Some artifact).

(** Source: catalogue-dump/ops/worker.py:714-804, Worker._crawl_and_load. *)
Definition crawl_legacy (job : ClaimedJob) (params : CrawlParams) (output : string) : work FS () :=
  _ ← connect;
  proxied ← lift (en_proxy_lease E job);
  _ ← browser_for_job job params proxied;
  _ ← elapse job;
  match en_crawl E job with
  | CrawlRaises e => throw e
  | Interrupted records => finish_interrupted job output records
  | Crawled records x =>
      retried ← (if transient x then retry_transient job x else mret false);
      if (retried : bool) then mret () else record_outcome job params output records x
  end.

(** * A connector *)

Definition restored_state (m : Manifest) (job : Z) (keys : list (string * DatasetKey)) (name : string) : option DatasetPageState :=
  (fun key => if bool_decide (pipeline_dataset_state m job key = "failed") then FAILED else SUCCEEDED) <$> dict_get name keys.

(** A lineage that is terminal already is not collected again. Source:
    catalogue-dump/ops/worker.py:921-928, Worker._crawl_connector_canary. *)
Definition recovered_result (limited : bool) (states : states_t) : PipelineResult :=
  {| pr_pages := 0; pr_terminal := true; pr_intact := negb limited; pr_limited := limited; pr_datasets := states |}.

Fixpoint finish_each (job : Z) (state : string) (complete : bool) (error : string -> option string) (keys : list (string * DatasetKey)) : work FS () :=
  match keys with
  | [] => mret ()
  | (name, key) :: r =>
      _ ← on_manifest (finish_dataset job key state complete 0 (error name) false);
      finish_each job state complete error r
  end.

(** The committed and projected pages of a lineage. Source:
    catalogue-dump/ops/worker.py:887-990, Worker._crawl_connector_canary. *)
Definition collect_lineage (job : ClaimedJob) (selected : list string) (p : CollectionPlan) (keys : list (string * DatasetKey))
    : work FS (Z * PipelineResult) :=
  resolved ← on_manifest (resolve_library_lineage (en_sha256 E) (en_float_repr E) (en_dump E) (en_validate E) (c_id job) (ca_spec p) keys.*2);
  let lineage := rl_lineage resolved in
  let limited := bool_decide (rl_progress resolved = TERMINAL_LIMITED) in
  m ← gets manifest_view;
  let initial := restored_state m (c_id job) keys in
  if limited || bool_decide (rl_progress resolved = TERMINAL_INTACT)
  then mret (lineage, recovered_result limited (omap (fun p => (fun st => (fst p, st)) <$> initial (fst p)) keys))
  else
    _ ← lift (en_assemble E job);
    r ← on_pipeline (@run_pipeline FS Manifest _ (PostgresPageCommitter (c_id job) lineage (ca_version p) keys (ca_dynamic_partitions p))
           (ca_registry p) (pretty (c_id job)) (pretty lineage) (ca_source_id p) (ca_projection p)
           (ca_capabilities p) (ca_refresh p) (ca_requested p) selected initial (en_collect E job (rl_checkpoint resolved)));
    mret (lineage, r).

(** Sealing. Source: catalogue-dump/ops/worker.py:1041-1060, Worker._crawl_connector_canary. *)
Definition seal_lineage (job lineage : Z) (p : CollectionPlan) (limited : bool) : work FS () :=
  m ← gets manifest_view;
  checksum ← raising (lineage_checksum (en_sha256 E) (en_float_repr E) job lineage m);
  if limited then _ ← on_manifest (complete_limited_lineage job lineage checksum); mret ()
  else
    expected ← (if ca_dynamic_partitions p then raising (declared_partitions job lineage m)
                else mret (if bool_decide (ca_partitions p = []) then ["main"] else ca_partitions p));
    _ ← on_manifest (complete_lineage job lineage expected checksum); mret ().

(** The datasets that did not fail are published, in order. Source:
    catalogue-dump/ops/worker.py:1072-1081, Worker._crawl_connector_canary. *)
Fixpoint publish_each (job lineage : Z) (failed_names : list string) (keys : list (string * DatasetKey)) : work FS (list (string * StoredObject)) :=
  match keys with
  | [] => mret []
  | (name, key) :: r =>
      if bool_decide (name ∈ failed_names) then publish_each job lineage failed_names r
      else
        artifact ← on_pipeline (publish_lineage_dataset job lineage key "ndjson.gz");
        _ ← (if is_ceramics name then mret () else on_manifest (finish_dataset job key "succeeded" true 0 None false));
        published ← publish_each job lineage failed_names r;
        mret ((name, artifact) :: published)
  end.

(** Source: catalogue-dump/ops/worker.py:995-1018, Worker._crawl_connector_canary. *)
Definition canary_summary (r : PipelineResult) (errors : Z) : JobSummary :=
  no_summary <| sm_records := Some 0 |> <| sm_discovered := Some 0 |> <| sm_truncated := Some (negb (pr_intact r)) |>
    <| sm_error_count := Some errors |>.

(** The load of the catalogue's records: its artifact, and whether rows were
    rejected. Source: catalogue-dump/ops/worker.py:1094-1151, Worker._crawl_connector_canary. *)
Definition load_ceramics (job : ClaimedJob) (params : CrawlParams) (key : DatasetKey) (published : StoredObject) (whole : bool)
    (summary : JobSummary) : work FS (option (JobSummary * LoadReport)) :=
  let summary := summary <| sm_records := Some (so_records published) |> <| sm_discovered := Some (so_records published) |>
                   <| sm_write_status := Some "replaced" |> in
  let produced_none := "connector canary produced no ceramics records" in
  if bool_decide (so_records published = 0) && negb (cp_allow_empty params) then
    _ ← connect;
    _ ← on_manifest (finish_dataset (c_id job) key "failed" true 0 (Some produced_none) false);
    _ ← finish job failed (Some summary) (Some produced_none) None;
    mret None
  else
    loaded ← catch (load_fenced job (Z.to_nat (so_records published)) whole)
      (fun e =>
         _ ← connect;
         error ← durable_error e 2000;
         _ ← on_manifest (finish_dataset (c_id job) key "failed" true 0 (Some error) false);
         throw e);
    _ ← connect;
    let rejected_any := bool_decide (lr_rejected loaded <> 0) in
    _ ← on_manifest (finish_dataset (c_id job) key (if rejected_any then "degraded" else "succeeded") true (lr_rejected loaded)
          (if rejected_any then Some "database rejected projected records" else None) false);
    mret (Some (summary, loaded)).

(** Source: catalogue-dump/ops/worker.py:1153-1167, Worker._crawl_connector_canary. *)
Definition finish_canary (job : ClaimedJob) (published : list (string * StoredObject)) (failed_names : list string)
    (loaded : option LoadReport) (summary : JobSummary) (artifact : option Artifact) : work FS () :=
  let job_state :=
    if bool_decide (published = []) then failed
    else if bool_decide (failed_names <> []) || bool_decide (default 0 (lr_rejected <$> loaded) <> 0) then degraded
    else succeeded in
  finish job job_state (Some summary)
    (if bool_decide (job_state = failed) then Some "all selected dataset projectors failed" else None) artifact.

(** A terminal collection that is intact or limited is sealed, its datasets are
    published and its records loaded. Source:
    catalogue-dump/ops/worker.py:1041-1167, Worker._crawl_connector_canary. *)
Definition publish_collection (job : ClaimedJob) (params : CrawlParams) (selected : list string) (p : CollectionPlan)
    (keys : list (string * DatasetKey)) (lineage : Z) (r : PipelineResult) : work FS () :=
  _ ← seal_lineage (c_id job) lineage p (pr_limited r);
  let failed_names := omap (fun st => if bool_decide (snd st = FAILED) then Some (fst st) else None) (pr_datasets r) in
  _ ← finish_each (c_id job) "failed" false (fun name => Some (name +:+ " projector failed"))
        (filter (fun p => fst p ∈ failed_names) keys);
  published ← publish_each (c_id job) lineage failed_names keys;
  let summary := canary_summary r (Z.of_nat (length failed_names)) in
  match list_find (fun name => is_ceramics name = true) selected ≫= (fun p => dict_get (snd p) published ≫= fun artifact =>
          (fun key => (artifact, key)) <$> dict_get (snd p) keys) with
  | Some (artifact, key) =>
      loaded ← load_ceramics job params key artifact (connector_load_is_whole r) summary;
      match loaded with
      | None => mret ()
      | Some (summary, report) =>
          finish_canary job published failed_names (Some report) summary
            (Some {| art_path := so_location artifact; art_sha256 := Some (so_sha256 artifact); art_size := Some (so_size artifact) |})
      end
  | None => finish_canary job published failed_names None summary None
  end.

(** Source: catalogue-dump/ops/worker.py, Worker._crawl_connector_canary. *)
Definition crawl_connector_canary (job : ClaimedJob) (params : CrawlParams) : work FS () :=
  let selected := selected_datasets (en_identity_only E (c_source_id job)) (cp_datasets params) in
  p ← lift (en_plan E job params selected);
  keys ← raising (dataset_keys (ca_registry p) selected []);
  _ ← connect;
  '(lineage, r) ← collect_lineage job selected p keys;
  _ ← elapse job;
  cancels ← gets (fun w => ws_cancels (ww_worker w) !! c_id job);
  flag ← lift (match cancels with Some b => Ok b | None => Err (W_exn (KeyError (pretty (c_id job)))) end);
  if (flag : bool) || negb (pr_terminal r) then
    _ ← finish_each (c_id job) "cancelled" false (fun _ => None) keys;
    finish job cancelled (Some ((canary_summary r 0) <| sm_interrupted := Some true |>)) None None
  else if negb (pr_intact r) && negb (pr_limited r) then
    _ ← finish_each (c_id job) "failed" false (fun _ => Some "connector enumeration incomplete") keys;
    finish job failed (Some (canary_summary r 1)) (Some "connector enumeration incomplete") None
  else publish_collection job params selected p keys lineage r.

(** * Either *)

(** The final flush of the job's log survives an unreachable database. Source:
    catalogue-dump/ops/worker.py, Worker._crawl_and_load. *)
Definition crawl_and_load (job : ClaimedJob) : work FS () :=
  params ← raising (en_from_job E (c_params job));
  _ ← raising (match en_sources E !! c_source_id job with Some c => Ok c | None => Err (KeyError (c_source_id job)) end);
  output ← raising (job_directory (en_dumps_dir E) (pretty (c_run_id job)) (pretty (c_id job)));
  finally
    (if bool_decide (cp_pipeline params = "connector_canary") then crawl_connector_canary job params
     else crawl_legacy job params output)
    (tolerate connect).

(** The worker's loop body. *)
Definition worker_tick (trace_id : option string) : work FS bool :=
  tick (execute (en_sources E) trace_id crawl_and_load).
End canary.
