(* ===== verification/WorkerProperties.v ===== *)
(** What a worker guarantees: a delivery is settled at most once whatever fails,
    an execution that can reach its database always ends and holds nothing
    afterwards, and products are only ever retired by a whole collection. *)
From S2P Require Export JobProperties AlertProperties PipelineResume Canary.
From stdpp Require Import sorting.
Open Scope Z_scope.

(** * Invariants of a worker's steps *)

(** An invariant that neither the store nor the worker's state, its deliveries
    apart, can break. *)
Record calm {FS} (I : World FS -> Prop) : Prop := {
  cm_db : forall s w, I w -> I (w <| ww_db := s |>);
  cm_worker : forall f w, ws_deliveries (f (ww_worker w)) = ws_deliveries (ww_worker w) -> I w ->
    I (w <| ww_worker := f (ww_worker w) |>);
  cm_connect : keeps I connect;
}.
(** Nor the files, the dumps and the manifest. *)
Record steady {FS} (I : World FS -> Prop) : Prop := {
  st_calm :> calm I;
  st_files : forall fs w, I w -> I (w <| ww_files := fs |>);
  st_manifest : forall m w, I w -> I (w <| ww_manifest := m |>);
  st_dumps : forall d w, I w -> I (w <| ww_dumps := d |>);
}.
(** Nor a load. *)
Definition load_proof {FS} (I : World FS -> Prop) : Prop := forall l w, I w -> I (w <| ww_loads := l |>).

Section steady.
Context {FS : Type} (I : World FS -> Prop) (HI : calm I).

Lemma keeps_on_db {A} (m : db A) : keeps I (on_db m).
Proof. intros w Hw. unfold wp, on_db. destruct (m (ww_db w)) as [[a|e] s]; simpl; by apply (cm_db I HI). Qed.
Lemma keeps_raising {A} (r : result pyexn A) : keeps I (raising r).
Proof. apply keeps_lift. Qed.
Lemma keeps_connect : keeps I connect.
Proof. apply (cm_connect I HI). Qed.
Lemma keeps_tolerate (m : work FS ()) : keeps I m -> keeps I (tolerate m).
Proof. intros H. apply keeps_catch; [done|]. intros [e| |e]; [apply keeps_throw|apply keeps_ret|apply keeps_throw]. Qed.
Lemma keeps_update_worker f :
  (forall w, ws_deliveries (f w) = ws_deliveries w) -> keeps I (update_worker f).
Proof. intros F w Hw. apply wp_modify. by apply (cm_worker I HI f). Qed.
Lemma keeps_worker_id : keeps I worker_id.
Proof. apply keeps_gets. Qed.
Lemma keeps_durable_error e n : keeps I (durable_error e n).
Proof. apply keeps_raising. Qed.
End steady.
#[export] Hint Resolve keeps_on_db keeps_raising keeps_connect keeps_tolerate keeps_worker_id keeps_durable_error : keeps.

(** Walk through the binds of a computation. *)
Ltac steady_step :=
  lazymatch goal with
  | |- keeps _ (_ ≫= _) => apply keeps_bind; [|intros ?]
  | |- keeps _ (mret _) => apply keeps_ret
  | |- keeps _ (throw _) => apply keeps_throw
  | |- keeps _ (gets _) => apply keeps_gets
  | |- keeps _ (lift _) => apply keeps_lift
  | |- keeps _ (raising _) => apply keeps_raising
  | |- keeps _ (on_db _) => apply keeps_on_db; assumption
  | |- keeps _ connect => apply keeps_connect; assumption
  | |- keeps _ (tolerate _) => apply keeps_tolerate
  | |- keeps _ (update_worker _) => apply keeps_update_worker; [assumption|reflexivity]
  | |- keeps _ worker_id => apply keeps_gets
  | |- keeps _ (durable_error _ _) => apply keeps_lift
  | |- keeps _ (match ?x with _ => _ end) => destruct x
  end.
Ltac steady := repeat steady_step.

Section steps.
Context {FS : Type} (I : World FS -> Prop) (HI : calm I) (id : Z).

Lemma keeps_set_status status job_id force : keeps I (set_status status job_id force).
Proof. unfold set_status. steady. Qed.
Lemma keeps_finish job st summary error artifact : keeps I (finish job st summary error artifact).
Proof. unfold finish. steady. Qed.
Lemma keeps_requeue job message : keeps I (requeue_for_browser job message).
Proof. unfold requeue_for_browser. steady. Qed.

(** Settling a delivery and forgetting its job is one step. *)
Hypothesis settle_forget : forall job x, c_id job = id -> keeps I (_ ← settle_job (c_id job) x; forget job).
Hypothesis settle_or_forget : forall job x, c_id job = id ->
  keeps I (d ← delivery_of (c_id job); _ ← match d with Some d => settle d x | None => mret () end; forget job).

Lemma keeps_settle_then {A} job x (k : work FS A) :
  c_id job = id -> keeps I k -> keeps I (_ ← settle_job (c_id job) x; _ ← forget job; k).
Proof.
intros Hid Hk w Hw. pose proof (settle_forget job x Hid w Hw) as H0. revert H0. unfold wp, mbind, eff_bind.
destruct (settle_job (c_id job) x w) as [[[]|e] w1]; [|by intros]. destruct (forget job w1) as [[[]|e] w2]; [|by intros].
intros H. by apply Hk.
Qed.
Lemma keeps_settle_or_then {A} job x (k : work FS A) :
  c_id job = id -> keeps I k -> keeps I (d ← delivery_of (c_id job); _ ← match d with Some d => settle d x | None => mret () end; _ ← forget job; k).
Proof.
intros Hid Hk w Hw. pose proof (settle_or_forget job x Hid w Hw) as H0. revert H0. unfold wp, mbind, eff_bind.
destruct (delivery_of (c_id job) w) as [[[d|]|e] w0]; simpl; intros H0; by try apply Hk.
Qed.

Lemma keeps_retry_transient job x : c_id job = id -> keeps I (retry_transient job x).
Proof.
intros Hid. unfold retry_transient. destruct (_ <=? _); [apply keeps_ret|].
apply keeps_bind; [apply keeps_gets|]. intros worker. apply keeps_bind; [by apply keeps_on_db|]. intros _.
apply keeps_bind; [by apply keeps_on_db|]. intros [|]; simpl; [|apply keeps_ret].
apply keeps_bind; [by apply keeps_on_db|]. intros _. apply keeps_settle_or_then; [done|apply keeps_ret].
Qed.

Lemma keeps_acquire_keys job keys : c_id job = id -> keeps I (acquire_keys job keys).
Proof.
intros Hid. induction keys as [|key r IH]; simpl; [apply keeps_ret|].
apply keeps_bind; [apply keeps_gets|]. intros worker. apply keeps_bind; [by apply keeps_on_db|]. intros [slot|]; [done|].
apply keeps_bind; [by apply keeps_on_db|]. intros _. apply keeps_bind; [by apply keeps_on_db|]. intros _.
apply keeps_settle_then; [done|apply keeps_ret].
Qed.

Lemma keeps_recover_execution job e : keeps I (recover_execution job e).
Proof.
unfold recover_execution. destruct e as [e| |message]; try (apply keeps_bind; [apply keeps_lift|intros; apply keeps_finish]).
apply keeps_bind; [apply keeps_requeue|]. intros [|]; [apply keeps_ret|].
apply keeps_bind; [apply keeps_lift|intros; apply keeps_finish].
Qed.

Lemma keeps_end_execution job : c_id job = id -> keeps I (end_execution job).
Proof.
intros Hid. unfold end_execution. apply keeps_bind; [by apply keeps_connect|]. intros _.
apply keeps_bind; [by apply keeps_on_db|]. intros _. apply keeps_settle_or_then; [done|].
apply keeps_bind; [apply keeps_gets|]. intros remaining. apply keeps_set_status.
Qed.
End steps.

Section crawling.
Context {FS : Type} `{!ArtifactStore FS} (E : Surroundings) (I : World FS -> Prop) (HI : steady I) (id : Z).
Let HC : calm I := st_calm I HI.
Hypothesis settle_or_forget : forall job x, c_id job = id ->
  keeps I (d ← delivery_of (c_id job); _ ← match d with Some d => settle d x | None => mret () end; forget job).

Lemma keeps_on_pipeline {A} (m : eff (FS * Manifest) pyexn A) : keeps I (on_pipeline m).
Proof.
intros w Hw. unfold wp, on_pipeline. destruct (m _) as [r [fs t]]. simpl.
apply (cm_db I HC _ (w <| ww_files := fs |> <| ww_manifest := t |>)). by apply (st_manifest I HI), (st_files I HI).
Qed.
Lemma keeps_on_manifest {A} (m : mdb A) : keeps I (on_manifest m).
Proof. apply keeps_on_pipeline. Qed.
Lemma keeps_on_dumps {A} (m : eff dump_files pyexn A) : keeps I (on_dumps m).
Proof. intros w Hw. unfold wp, on_dumps. destruct (m (ww_dumps w)) as [[a|e] d]; simpl; by apply (st_dumps I HI). Qed.
Lemma keeps_elapse job : keeps I (elapse E job).
Proof.
intros w Hw. apply wp_modify. apply (cm_db I HC (en_meanwhile E job (ww_db w))) in Hw. destruct (en_flagged E job).
- by apply (cm_worker I HC (fun x => x <| ws_cancels := alter (fun _ => true) (c_id job) (ws_cancels x) |>)) in Hw.
- by apply (cm_worker I HC (fun x => x)) in Hw.
Qed.
Lemma keeps_load_fenced job n whole : load_proof I -> keeps I (load_fenced E job n whole).
Proof.
intros HL. unfold load_fenced. steady. intros w Hw. by apply wp_modify, HL.
Qed.
Lemma keeps_browser_for_job job params proxied : keeps I (browser_for_job E job params proxied).
Proof.
unfold browser_for_job. repeat (steady_step || (apply keeps_update_worker; [done|intros w; by destruct (_ && _)])).
Qed.

Lemma keeps_finish_each job state complete error keys : keeps I (finish_each job state complete error keys).
Proof. induction keys as [|[name key] r IH]; simpl; [apply keeps_ret|]. apply keeps_bind; [apply keeps_on_manifest|done]. Qed.

Lemma keeps_crawl_legacy job params output : load_proof I -> c_id job = id -> keeps I (crawl_legacy E job params output).
Proof.
intros HL Hid. unfold crawl_legacy. apply keeps_bind; [by apply keeps_connect|]. intros _. apply keeps_bind; [apply keeps_lift|]. intros proxied.
apply keeps_bind; [apply keeps_browser_for_job|]. intros _. apply keeps_bind; [apply keeps_elapse|]. intros _.
destruct (en_crawl E job) as [records|records x|e]; [| |apply keeps_throw].
- unfold finish_interrupted. apply keeps_bind; [apply keeps_on_dumps|]. intros [artifact st]. by apply keeps_finish.
- apply keeps_bind; [destruct (transient x); [by apply (keeps_retry_transient I HC id)|apply keeps_ret]|].
  intros [|]; [apply keeps_ret|]. unfold record_outcome. apply keeps_bind; [apply keeps_on_dumps|]. intros [artifact st].
  apply keeps_bind; [by apply keeps_on_db|]. intros _. destruct (legacy_load_plan x st) as [[whole why] error].
  apply keeps_bind; [by apply keeps_load_fenced|]. intros loaded. by apply keeps_finish.
Qed.

Lemma keeps_publishing_each job lineage failed_names keys : keeps I (publish_each job lineage failed_names keys).
Proof.
induction keys as [|[name key] r IH]; simpl; [apply keeps_ret|]. destruct (bool_decide _); [done|].
apply keeps_bind; [apply keeps_on_pipeline|]. intros artifact.
apply keeps_bind; [destruct (is_ceramics name); [apply keeps_ret|apply keeps_on_manifest]|]. intros _.
apply keeps_bind; [done|]. intros published. apply keeps_ret.
Qed.

Lemma keeps_load_ceramics job params key published whole summary : load_proof I -> keeps I (load_ceramics E job params key published whole summary).
Proof.
intros HL. unfold load_ceramics. destruct (_ && _).
- repeat steady_step; try apply keeps_on_manifest. by apply keeps_finish.
- apply keeps_bind; [apply keeps_catch; [by apply keeps_load_fenced|]|].
  + intros e. repeat steady_step; apply keeps_on_manifest.
  + intros loaded. repeat steady_step; apply keeps_on_manifest.
Qed.

Lemma keeps_seal_lineage job lineage p limited : keeps I (seal_lineage E job lineage p limited).
Proof. unfold seal_lineage. repeat (steady_step || apply keeps_on_manifest). Qed.
Lemma keeps_collect_lineage job selected p keys : keeps I (collect_lineage E job selected p keys).
Proof.
unfold collect_lineage. apply keeps_bind; [apply keeps_on_manifest|]. intros resolved. apply keeps_bind; [apply keeps_gets|].
intros m. destruct (_ || _); [apply keeps_ret|]. apply keeps_bind; [apply keeps_lift|]. intros _.
apply keeps_bind; [apply keeps_on_pipeline|]. intros r. apply keeps_ret.
Qed.

Lemma keeps_publish_collection job params selected p keys lineage r : load_proof I -> keeps I (publish_collection E job params selected p keys lineage r).
Proof.
intros HL. unfold publish_collection. apply keeps_bind; [apply keeps_seal_lineage|intros _].
apply keeps_bind; [apply keeps_finish_each|]. intros _. apply keeps_bind; [apply keeps_publishing_each|]. intros published.
destruct (_ ≫= _) as [[artifact key]|]; [|by apply keeps_finish].
apply keeps_bind; [by apply keeps_load_ceramics|]. intros [[summary report]|]; [|apply keeps_ret]. by apply keeps_finish.
Qed.

Lemma keeps_crawl_connector_canary job params : load_proof I -> keeps I (crawl_connector_canary E job params).
Proof.
intros HL. unfold crawl_connector_canary. apply keeps_bind; [apply keeps_lift|]. intros p. apply keeps_bind; [apply keeps_lift|]. intros keys.
apply keeps_bind; [by apply keeps_connect|]. intros _. apply keeps_bind; [apply keeps_collect_lineage|].
intros [lineage r]. apply keeps_bind; [apply keeps_elapse|]. intros _. apply keeps_bind; [apply keeps_gets|]. intros cancels.
apply keeps_bind; [apply keeps_lift|]. intros flag. destruct (_ || _); [|destruct (_ && _)].
- apply keeps_bind; [apply keeps_finish_each|]. intros _. by apply keeps_finish.
- apply keeps_bind; [apply keeps_finish_each|]. intros _. by apply keeps_finish.
- by apply keeps_publish_collection.
Qed.

Lemma keeps_crawl_and_load job : load_proof I -> c_id job = id -> keeps I (crawl_and_load E job).
Proof.
intros HL Hid. unfold crawl_and_load. repeat (apply keeps_bind; [apply keeps_lift|intros ?]).
apply keeps_finally; [|apply keeps_tolerate, keeps_connect; done].
destruct (bool_decide _); [by apply keeps_crawl_connector_canary|by apply keeps_crawl_legacy].
Qed.
End crawling.

(** A bind whose value is known to satisfy something. *)
Lemma keeps_bind_returns {S X A B} (I : S -> Prop) (R : A -> Prop) (m : eff S X A) (k : A -> eff S X B) :
  keeps I m -> returns R m -> (forall a, R a -> keeps I (k a)) -> keeps I (m ≫= k).
Proof.
intros Hm Hr Hk s Hs. specialize (Hm s Hs). specialize (Hr s). unfold wp, mbind, eff_bind in *.
destruct (m s) as [[a|e] s1]; simpl in *; [|done]. by apply Hk.
Qed.

Lemma start_same_job job worker trace_id lease :
  returns (fun p => c_id p.2 = c_id job /\ c_execution_token p.2 = c_execution_token job /\ c_source_id p.2 = c_source_id job) (start job worker trace_id lease).
Proof. unfold start. apply returns_then. intros [j|]; [|by apply returns_ret]. apply returns_then. intros _. by apply returns_ret. Qed.
Lemma on_db_returns {FS A} (R : A -> Prop) (m : db A) : returns R m -> returns R (on_db m : work FS A).
Proof. intros H w. specialize (H (ww_db w)). unfold on_db. by destruct (m (ww_db w)) as [[a|e] s]. Qed.

Section executing.
Context {FS : Type} (I : World FS -> Prop) (HI : calm I) (id : Z).
Hypothesis settle_forget : forall job x, c_id job = id -> keeps I (_ ← settle_job (c_id job) x; forget job).
Hypothesis settle_or_forget : forall job x, c_id job = id ->
  keeps I (d ← delivery_of (c_id job); _ ← match d with Some d => settle d x | None => mret () end; forget job).

Lemma keeps_begin_execution job trace_id : c_id job = id -> keeps I (begin_execution job trace_id).
Proof.
intros Hid. unfold begin_execution. apply keeps_bind; [by apply keeps_connect|]. intros _.
apply keeps_bind; [apply keeps_gets|]. intros worker.
eapply keeps_bind_returns; [by apply keeps_on_db|apply on_db_returns, start_same_job|]. intros [started job'] (Hj & _ & _). simpl in Hj.
destruct started; simpl.
- apply keeps_bind; [apply keeps_update_worker; [done|done]|]. intros _. apply keeps_bind; [by apply keeps_on_db|]. intros _. apply keeps_ret.
- apply keeps_bind; [by apply keeps_on_db|]. intros _. apply (keeps_settle_then I id); [done|congruence|apply keeps_ret].
Qed.

Lemma begin_same_job job trace_id :
  returns (fun r => match r with Some job' => c_id job' = c_id job /\ c_execution_token job' = c_execution_token job /\ c_source_id job' = c_source_id job | None => True end)
    (begin_execution job trace_id : work FS _).
Proof.
unfold begin_execution. apply returns_then. intros _. apply returns_then. intros worker.
eapply returns_bind; [apply on_db_returns, start_same_job|]. intros [[|] job'] Hj; simpl in *.
- apply returns_then. intros _. apply returns_then. intros _. by apply returns_ret.
- apply returns_then. intros _. apply returns_then. intros _. apply returns_then. intros _. by apply returns_ret.
Qed.

Lemma keeps_execute sources trace_id crawl job :
  c_id job = id -> (forall job', c_id job' = id -> keeps I (crawl job')) -> keeps I (execute sources trace_id crawl job).
Proof.
intros Hid Hc. unfold execute. apply keeps_bind; [apply keeps_update_worker; [done|done]|]. intros _.
apply keeps_bind; [by apply keeps_connect|]. intros _.
apply keeps_bind; [by apply (keeps_acquire_keys I HI id)|]. intros [|]; simpl; [|apply keeps_ret].
eapply keeps_bind_returns; [by apply keeps_begin_execution|apply begin_same_job|]. intros [job'|]; [|intros; apply keeps_ret].
intros (Hj & _ & _). apply keeps_bind; [by apply keeps_set_status|]. intros _. apply keeps_bind; [|intros _; apply keeps_ret].
apply keeps_finally; [apply keeps_catch|].
- apply Hc. congruence.
- intros e. by apply keeps_recover_execution.
- apply (keeps_end_execution I HI id); [done|congruence].
Qed.
End executing.

(** * A delivery is settled at most once *)

(** The delivery [d] of job [id] is registered and not settled, or settled once
    and not registered any more; no other settlement was made since [old]. *)
Definition once_settled {FS} (old : list (Z * Settlement)) (id : Z) (d : Delivery) (w : World FS) : Prop :=
  (ww_settled w = old /\ ws_deliveries (ww_worker w) !! id = Some d)
  \/ (ws_deliveries (ww_worker w) !! id = None /\ exists x, ww_settled w = old ++ [(dl_id d, x)]).

Lemma once_settled_calm {FS} old id d : calm (@once_settled FS old id d).
Proof.
split; try by intros.
- intros f w F [[H1 H2]|[H1 H2]]; [left|right]; simpl; rewrite F; by split.
- intros w Hw. unfold wp, connect. destruct (ww_outages w) as [|[|] r]; done.
Qed.

Lemma once_settled_steady {FS} old id d : steady (@once_settled FS old id d).
Proof. split; [apply once_settled_calm|by intros..]. Qed.
Lemma once_settled_loads {FS} old id d : load_proof (@once_settled FS old id d).
Proof. by intros l w. Qed.

Lemma once_settled_forget {FS} old id d job x : c_id job = id ->
  keeps (@once_settled FS old id d) (_ ← settle_job (c_id job) x; forget job).
Proof.
intros <- w [[H1 H2]|[H1 H2]]; unfold wp, settle_job, mbind, eff_bind, delivery_of, gets.
- rewrite H2. simpl. right. simpl. rewrite lookup_delete_eq. split; [done|]. exists x. by rewrite H1.
- rewrite H1. by right.
Qed.
Lemma once_settled_or_forget {FS} old id d job x : c_id job = id ->
  keeps (@once_settled FS old id d)
    (d ← delivery_of (c_id job); _ ← match d with Some d => settle d x | None => mret () end; forget job).
Proof.
intros <- w [[H1 H2]|[H1 H2]]; unfold wp, mbind, eff_bind, delivery_of, gets.
- rewrite H2. simpl. right. simpl. rewrite lookup_delete_eq. split; [done|]. exists x. by rewrite H1.
- rewrite H1. simpl. right. simpl. by rewrite lookup_delete_eq.
Qed.

Lemma next_delivery_eq {FS} (w : World FS) :
  (next_delivery w = (Ok None, w)
     /\ forall d, d ∈ ww_inbox w -> e_route (dl_envelope d) ∉ routes_for (ws_capabilities (ww_worker w)))
  \/ exists d inbox, d ∈ ww_inbox w /\ next_delivery w = (Ok (Some d), w <| ww_inbox := inbox |>).
Proof.
unfold next_delivery. destruct (list_find _ (ww_inbox w)) as [[i d]|] eqn:Ef.
- apply list_find_Some in Ef as (Hd & _ & _). right. exists d. eexists. split; [by eapply list_elem_of_lookup_2|done].
- apply list_find_None in Ef. rewrite Forall_forall in Ef. by left.
Qed.

Lemma reserve_delivery_eq {FS} (d : Delivery) (w : World FS) :
  (exists w', reserve_delivery d w = (Ok None, w') /\ ww_settled w' = ww_settled w)
  \/ (exists outages, let w1 := w <| ww_outages := outages |> in
      match reserve (dl_envelope d) (ws_id (ww_worker w)) (ws_capabilities (ww_worker w)) LEASE_SECONDS (ww_db w) with
      | (Ok r, s) => reserve_delivery d w = (Ok (Some r), w1 <| ww_db := s |>)
      | (Err e, s) => reserve_delivery d w = (Err (W_exn e), w1 <| ww_db := s |>)
      end).
Proof.
unfold reserve_delivery, catch, mbind, eff_bind, connect, gets, on_db.
destruct (ww_outages w) as [|[|] rest] eqn:Eo; [right; exists []|left|right; exists rest].
- replace (w <| ww_outages := [] |>) with w by (destruct w; simpl in *; by subst).
  destruct (reserve _ _ _ _ (ww_db w)) as [[r|e] s]; done.
- eexists. split; [reflexivity|done].
- simpl. destruct (reserve _ _ _ _ (ww_db w)) as [[r|e] s]; done.
Qed.

(** A granted reservation names its job, whose row is leased under the job's
    token. *)
Lemma reserve_connected {FS} (d : Delivery) (w : World FS) : ww_outages w = [] ->
  reserve_delivery d w =
  match reserve (dl_envelope d) (ws_id (ww_worker w)) (ws_capabilities (ww_worker w)) LEASE_SECONDS (ww_db w) with
  | (Ok r, s) => (Ok (Some r), w <| ww_db := s |>)
  | (Err e, s) => (Err (W_exn e), w <| ww_db := s |>)
  end.
Proof.
intros Eo. unfold reserve_delivery, catch, mbind, eff_bind, connect, gets, on_db. rewrite Eo.
by destruct (reserve _ _ _ _ (ww_db w)) as [[r|e] s].
Qed.
Lemma reserve_run_row s envelope worker capabilities lease r s' :
  reserve envelope worker capabilities lease s = (Ok r, s') -> rv_disposition r = run_it ->
  exists job row, rv_job r = Some job /\ c_id job = e_job_id envelope /\ db_jobs s' !! c_id job = Some row
  /\ j_state row = leased /\ j_execution_token row = Some (c_execution_token job).
Proof.
rewrite reserve_body. intros Er Ed. destruct (db_jobs s !! e_job_id envelope) as [j|] eqn:Hj; [|by simplify_eq].
case_bool_decide as Hg; [by simplify_eq|]. destruct (terminal (j_state j)); [by simplify_eq|]. apply transaction_Ok in Er.
destruct (_ || _); [by apply retire_acknowledges in Er as ->|].
destruct (reserve_live_run _ _ _ _ _ _ _ j _ _ Hj Hg Er Ed) as (_ & _ & _ & _ & _ & _ & _ & selected & _ & _ & Ec).
destruct (claim_job_eq envelope worker (job_params s j) selected lease j _ Hj Hg) as (s1 & Ec' & Ej).
rewrite Ec' in Ec. simplify_eq. eexists _, _. split; [reflexivity|]. simpl. rewrite Ej, lookup_insert_eq. by split_and!.
Qed.

Lemma execute_settles {FS} `{!ArtifactStore FS} (E : Surroundings) old d trace_id job :
  keeps (@once_settled FS old (c_id job) d) (execute (en_sources E) trace_id (crawl_and_load E) job).
Proof.
apply (keeps_execute _ (once_settled_calm _ _ _) (c_id job)); [apply once_settled_forget|apply once_settled_or_forget|done|].
intros job' Hj. apply (keeps_crawl_and_load E _ (once_settled_steady _ _ _) (c_id job)); [apply once_settled_or_forget|apply once_settled_loads|done].
Qed.

(** Why a pass of the worker from [w] to [w'] settles nothing: the broker had
    nothing for its routes, the delivery is still registered for the heartbeat to
    extend and the shutdown to give back, or the reservation itself raised. *)
Definition left_unsettled {FS} (w w' : World FS) : Prop :=
  (forall d, d ∈ ww_inbox w -> e_route (dl_envelope d) ∉ routes_for (ws_capabilities (ww_worker w)))
  \/ (exists d id, d ∈ ww_inbox w /\ ws_deliveries (ww_worker w') !! id = Some d)
  \/ (exists d e, d ∈ ww_inbox w /\
        (reserve (dl_envelope d) (ws_id (ww_worker w)) (ws_capabilities (ww_worker w)) LEASE_SECONDS (ww_db w)).1 = Err e).

(** C15. A delivery is settled at most once. Whatever one pass of the worker meets
    (an unreachable database at any connection, a stale or duplicate delivery, a
    busy host, a crawl or a load that raises), it adds at most one settlement to
    those it made, of the delivery it took. When it adds none, the broker had
    nothing for the worker's routes, or the delivery is still registered for the
    heartbeat to extend and the shutdown to give back, or the reservation itself
    raised. *)
Theorem delivery_settled_at_most_once {FS} `{!ArtifactStore FS} (E : Surroundings) trace_id (w : World FS) :
  let w' := (worker_tick E trace_id w).2 in
  (exists d x, d ∈ ww_inbox w /\ ww_settled w' = ww_settled w ++ [(dl_id d, x)])
  \/ (ww_settled w' = ww_settled w /\ left_unsettled w w').
Proof.
intros w'. subst w'. unfold worker_tick, tick.
destruct (next_delivery_eq w) as [[E1 Hr]|(d & inbox & Hd & E1)]; unfold mbind, eff_bind; rewrite E1; [by right; split; [|left]|].
set (w0 := w <| ww_inbox := inbox |>).
destruct (reserve_delivery_eq d w0) as [(w1 & -> & S1)|(outages & H)].
{ left. exists d, (Retried (seconds 5)). simpl. by rewrite S1. }
change (ww_db w0) with (ww_db w) in H. change (ww_worker w0) with (ww_worker w) in H. cbn zeta in H.
destruct (reserve (dl_envelope d) (ws_id (ww_worker w)) (ws_capabilities (ww_worker w)) LEASE_SECONDS (ww_db w)) as [[r|e] s] eqn:Er;
  rewrite H; [|right; split; [done|]; right; right; exists d, e; by rewrite Er].
destruct (rv_disposition r) eqn:Ed; [|by left; exists d, Acknowledged|by left; exists d, (Retried (rv_retry_after r))].
destruct (reserve_run_row _ _ _ _ _ _ _ Er Ed) as (job & _ & Hjob & _).
rewrite Hjob. cbn [update_worker modify].
set (w2 := w0 <| ww_outages := outages |> <| ww_db := s |> <| ww_worker := _ |>).
assert (HS : @once_settled FS (ww_settled w) (c_id job) d w2) by (left; split; [done|]; simpl; apply lookup_insert_eq).
destruct (execute_settles E (ww_settled w) d trace_id job w2 HS) as [[H1 H2]|[H1 [x H2]]].
- right. split; [exact H1|]. right. left. exists d, (c_id job). by split.
- left. exists d, x. by split.
Qed.

(** * An execution that reaches its database ends *)

(** The row is not running under the execution's token. *)
Definition not_running (id token : Z) (s : DB) : Prop :=
  forall j, db_jobs s !! id = Some j -> j_execution_token j = Some token -> j_state j <> running.

(** The worker let go of the execution: nothing of it is registered, no host slot
    is held under its token and its row is not running under it. *)
Definition let_go {FS} (id token : Z) (w : World FS) : Prop :=
  ws_deliveries (ww_worker w) !! id = None /\ ws_cancels (ww_worker w) !! id = None
  /\ (id ∉ (ws_current_jobs (ww_worker w)).*1)
  /\ (forall k h, db_host_leases (ww_db w) !! k = Some h -> held_under id token h = false)
  /\ not_running id token (ww_db w).

Definition connected {FS} (w : World FS) : Prop := ww_outages w = [].
Lemma connected_calm {FS} : calm (@connected FS).
Proof. split; try by intros. intros w Hw. unfold wp, connect, connected in *. by rewrite Hw. Qed.
Lemma connected_steady {FS} : steady (@connected FS).
Proof. split; [apply connected_calm|by intros..]. Qed.
Lemma connected_loads {FS} : load_proof (@connected FS).
Proof. by intros l w. Qed.
Lemma connect_Ok {FS} (w : World FS) : connected w -> connect w = (Ok (), w).
Proof. unfold connected, connect. by intros ->. Qed.

(** Statements that leave a job's row alone, or end its execution, never leave it
    running. *)
Lemma not_running_jobs id token s s' : db_jobs s' = db_jobs s -> not_running id token s -> not_running id token s'.
Proof. unfold not_running. by intros ->. Qed.

Lemma update_job_not_running id token guard f s :
  (forall s j, j_state (f s j) <> running \/ j_execution_token (f s j) = None) ->
  (forall j, db_jobs s !! id = Some j -> guard s j = false -> j_execution_token j = Some token -> j_state j <> running) ->
  exists r s', update_job id guard f s = (Ok r, s') /\ not_running id token s' /\ db_host_leases s' = db_host_leases s.
Proof.
intros F G. rewrite update_job_spec. destruct (db_jobs s !! id) as [j|] eqn:Hj.
- destruct (guard s j) eqn:Eg; (eexists _, _; split; [reflexivity|]; split; [|done]); intros j' Hj' T.
  + simpl in Hj'. rewrite lookup_insert_eq in Hj'. simplify_eq. destruct (F s j); congruence.
  + rewrite Hj in Hj'. simplify_eq. by apply (G j').
- eexists _, _. split; [reflexivity|]. split; [|done]. intros j' Hj'. congruence.
Qed.

Lemma close_run_total run s : exists r s', close_run_if_done run s = (Ok r, s') /\ db_jobs s' = db_jobs s.
Proof.
destruct (decide (remaining s run = 0%nat)) as [H|H].
- unfold close_run_if_done, mbind, eff_bind, gets. rewrite bool_decide_false by (intros Hn; by apply Hn).
  unfold update_run, emit, modify, promote_canonicals. destruct (db_runs s !! run) as [r|]; simpl; eexists _, _; (split; [reflexivity|]);
    by destruct (existsb _ _).
- unfold close_run_if_done, mbind, eff_bind, gets. rewrite bool_decide_true by done. by eexists _, _.
Qed.

(** Finishing always returns, and never leaves the job running. *)
Lemma finish_execution_ends job st summary error artifact s : terminal st = true ->
  exists s', finish_execution job st summary error artifact s = (Ok (), s') /\ not_running (c_id job) (c_execution_token job) s'.
Proof.
intros Ht. assert (exists flags, cancel_requested (c_id job) s = (Ok flags, s)) as [flags Ef] by by eexists.
unfold finish_execution, mbind, eff_bind. rewrite Ef.
match goal with |- context [if ?b then _ else _] => destruct b end.
- unfold pause_execution, mbind, eff_bind.
  set (guard := fun (_ : DB) (j : JobRow) => bool_decide _). set (f := fun (_ : DB) (j : JobRow) => _).
  destruct (update_job_not_running (c_id job) (c_execution_token job) guard f s) as (r & s' & -> & N & _).
  { intros s0 j. by right. }
  { intros j _ Eg T. subst guard. simpl in Eg. by rewrite T, bool_decide_true in Eg. }
  destruct r as [j|]; eexists; (split; [reflexivity|]); [|done]. exact N.
- unfold finish_job, lift, ensure, transaction, mbind, eff_bind. rewrite Ht.
  set (guard := fun (_ : DB) (j : JobRow) => token_matches _ _). set (f := fun (s : DB) (j : JobRow) => finished_row _ _ _ _ _ _).
  destruct (update_job_not_running (c_id job) (c_execution_token job) guard f s) as (r & s' & -> & N & _).
  { intros s0 j. by right. }
  { intros j _ Eg T. subst guard. simpl in Eg. by rewrite T, bool_decide_true in Eg. }
  destruct r as [j|]; [|by eexists]. unfold clear_slots, emit, modify. cbn beta iota.
  match goal with |- context [close_run_if_done ?run ?s0] => destruct (close_run_total run s0) as (r & s1 & -> & Ej) end.
  eexists. split; [reflexivity|]. by eapply not_running_jobs.
Qed.

(** The crawl leaves the worker connected; when it returns, the job is not
    running under its token. *)
Definition ends {FS A} (id token : Z) (P : A -> Prop) (m : work FS A) : Prop :=
  forall w, connected w -> wp m (fun r w' => connected w' /\
    match r with Ok a => P a -> not_running id token (ww_db w') | Err _ => True end) w.
Definition always {A} (a : A) : Prop := True.

Section ends.
Context {FS : Type} `{!ArtifactStore FS} (E : Surroundings) (id token : Z).

Lemma ends_bind {A B} P (m : work FS A) (k : A -> work FS B) :
  keeps connected m -> (forall a, ends id token P (k a)) -> ends id token P (m ≫= k).
Proof.
intros Hm Hk w Hw. apply wp_bind. eapply wp_conseq; [by apply Hm|]. intros [a|e] w1 Hw1; [by apply Hk|by split].
Qed.
(** A value that does not say the job has ended promises nothing. *)
Lemma ends_otherwise {A} P (m : work FS A) : keeps connected m -> returns (fun a => ~ P a) m -> ends id token P m.
Proof.
intros Hm Hr w Hw. specialize (Hm w Hw). specialize (Hr w). unfold wp in *. split; [done|].
destruct (m w) as [[a|e] w1]; simpl in *; [intros HP; by destruct Hr|done].
Qed.
(** The value of the first step may already say that the job has ended. *)
Lemma ends_bind_when {A B} P Q (m : work FS A) (k : A -> work FS B) :
  ends id token Q m -> (forall a, (Q a /\ forall w, exists b, k a w = (Ok b, w)) \/ ends id token P (k a)) ->
  ends id token P (m ≫= k).
Proof.
intros Hm Hk w Hw. apply wp_bind. eapply wp_conseq; [by apply Hm|]. intros [a|e] w1 [Hw1 N]; [|by split].
destruct (Hk a) as [[Ha Hr]|He]; [|by apply He]. destruct (Hr w1) as [b Eb]. unfold wp. rewrite Eb. simpl. auto.
Qed.
Lemma ends_throw {A} P e : ends id token P (throw e : work FS A).
Proof. by intros w Hw. Qed.
Lemma ends_finish job st summary error artifact : c_id job = id -> c_execution_token job = token -> terminal st = true ->
  ends id token always (finish job st summary error artifact : work FS ()).
Proof.
intros <- <- Ht w Hw. unfold finish, mbind, eff_bind, wp. rewrite (connect_Ok w Hw).
destruct (finish_execution_ends job st summary error artifact (ww_db w) Ht) as (s & Ef & N). unfold on_db. rewrite Ef. simpl.
assert (Hj : exists r s', job_alert job st s = (Ok r, s') /\ db_jobs s' = db_jobs s).
{ unfold job_alert, mbind, eff_bind. repeat case_bool_decide.
  - destruct (notify_total "job.failed" WARNING (JOB_FAILED_KEY (c_source_id job))
      {| su_run := Some (c_run_id job); su_job := Some (c_id job); su_source := Some (c_source_id job); su_worker := None |} s) as (r & s' & -> & No).
    eexists _, s'. split; [reflexivity|]. by rewrite No.
  - destruct (resolve_total (JOB_FAILED_KEY (c_source_id job)) (Some (c_source_id job)) s) as (r & s' & -> & No).
    eexists _, s'. split; [reflexivity|]. by rewrite No.
  - by eexists _, s. }
destruct Hj as (r & s' & -> & Ej). simpl. split; [done|]. intros _. by eapply not_running_jobs.
Qed.

Lemma release_not_running job worker delay s : c_id job = id -> c_execution_token job = token ->
  exists b s', release job worker delay s = (Ok b, s') /\ db_host_leases s' = db_host_leases s
  /\ (b = true \/ not_running id token s -> not_running id token s').
Proof.
intros Hid Htok. unfold release, mbind, eff_bind. rewrite update_job_spec, Hid.
destruct (db_jobs s !! id) as [j|] eqn:Hj; [destruct (owned_by _ _ j)|]; (eexists _, _; split; [reflexivity|]; split; [done|]).
- intros _ j' Hj' T. simpl in Hj'. rewrite lookup_insert_eq in Hj'. simplify_eq.
- by intros [|].
- by intros [|].
Qed.

Lemma ends_retry_transient job x : c_id job = id -> c_execution_token job = token ->
  ends id token (fun b => b = true) (retry_transient job x : work FS bool).
Proof.
intros Hid Htok w Hw. unfold retry_transient. destruct (_ <=? _); [by split|].
unfold wp, mbind, eff_bind, worker_id, gets, on_db. cbn [ww_db].
destruct (release_all_slots (c_id job) (c_execution_token job) (ww_db w)) as [[ks|e] s1] eqn:E1; simpl; [|done].
destruct (release_not_running job (ws_id (ww_worker w)) (TRANSIENT_BACKOFF_SECONDS * c_attempt job) s1 Hid Htok) as (b & s2 & -> & _ & N).
destruct b; simpl; [|done]. unfold delivery_of, gets. simpl. destruct (_ !! c_id job); (split; [done|]; intros _;
  eapply not_running_jobs; [|apply N; by left]; done).
Qed.
End ends.

Section crawl_ends.
Context {FS : Type} `{!ArtifactStore FS} (E : Surroundings) (id token : Z) (job : ClaimedJob).
Context (Hid : c_id job = id) (Htok : c_execution_token job = token).
Let HC : calm (@connected FS) := connected_calm.
Let HS : steady (@connected FS) := connected_steady.
Let HL : load_proof (@connected FS) := connected_loads.

Lemma ends_record_outcome params output records x : ends id token always (record_outcome E job params output records x : work FS ()).
Proof.
unfold record_outcome. apply ends_bind; [apply keeps_on_dumps, HS|]. intros [artifact st].
apply ends_bind; [apply keeps_on_db, HC|]. intros _. destruct (legacy_load_plan x st) as [[whole why] error].
apply ends_bind; [by apply keeps_load_fenced|]. intros loaded. apply ends_finish; [done..|].
unfold legacy_terminal_state. destruct (truthy_text error); [done|]. by case_bool_decide.
Qed.

Lemma ends_crawl_legacy params output : ends id token always (crawl_legacy E job params output : work FS ()).
Proof.
unfold crawl_legacy. apply ends_bind; [apply keeps_connect, HC|]. intros _. apply ends_bind; [apply keeps_lift|]. intros proxied.
apply ends_bind; [apply keeps_browser_for_job, HS|]. intros _. apply ends_bind; [apply keeps_elapse, HS|]. intros _.
destruct (en_crawl E job) as [records|records x|e]; [| |apply ends_throw].
- unfold finish_interrupted. apply ends_bind; [apply keeps_on_dumps, HS|]. intros [artifact st]. by apply ends_finish.
- destruct (transient x); [|exact (ends_record_outcome params output records x)].
  eapply ends_bind_when; [by apply ends_retry_transient|]. intros [|]; [left; split; [done|]; intros w; by eexists|right].
  apply ends_record_outcome.
Qed.

Lemma ends_load_ceramics params key published whole summary :
  ends id token (fun r => r = None) (load_ceramics E job params key published whole summary : work FS _).
Proof.
unfold load_ceramics. destruct (_ && _).
- apply ends_bind; [apply keeps_connect, HC|]. intros _. apply ends_bind; [apply keeps_on_manifest, HS|]. intros _.
  eapply ends_bind_when; [by apply ends_finish|]. intros []. left. split; [done|]. intros w. by eexists.
- apply ends_otherwise.
  + apply keeps_bind; [apply keeps_catch; [by apply keeps_load_fenced|]|].
    * intros e. repeat steady_step; try apply HC. apply keeps_on_manifest, HS.
    * intros loaded. repeat steady_step; try apply HC. apply keeps_on_manifest, HS.
  + apply returns_then. intros loaded. apply returns_then. intros _. apply returns_then. intros _. by apply returns_ret.
Qed.

Lemma ends_finish_canary published failed_names loaded summary artifact :
  ends id token always (finish_canary job published failed_names loaded summary artifact : work FS ()).
Proof. unfold finish_canary. apply ends_finish; [done..|]. repeat case_bool_decide; try done. Qed.

Lemma ends_publish_collection params selected p keys lineage r :
  ends id token always (publish_collection E job params selected p keys lineage r : work FS ()).
Proof.
unfold publish_collection. apply ends_bind; [apply keeps_seal_lineage, HS|intros _].
apply ends_bind; [apply keeps_finish_each, HS|]. intros _. apply ends_bind; [apply keeps_publishing_each, HS|]. intros published.
destruct (_ ≫= _) as [[artifact key]|]; [|apply ends_finish_canary].
eapply ends_bind_when; [apply ends_load_ceramics|]. intros [[summary report]|]; [right; apply ends_finish_canary|].
left. split; [done|]. intros w. by eexists.
Qed.

Lemma ends_crawl_connector_canary params : ends id token always (crawl_connector_canary E job params : work FS ()).
Proof.
unfold crawl_connector_canary. apply ends_bind; [apply keeps_lift|]. intros p. apply ends_bind; [apply keeps_lift|]. intros keys.
apply ends_bind; [apply keeps_connect, HC|]. intros _. apply ends_bind; [apply keeps_collect_lineage, HS|].
intros [lineage r]. apply ends_bind; [apply keeps_elapse, HS|]. intros _. apply ends_bind; [apply keeps_gets|]. intros cancels.
apply ends_bind; [apply keeps_lift|]. intros flag. destruct (_ || _); [|destruct (_ && _)].
- apply ends_bind; [apply keeps_finish_each, HS|]. intros _. by apply ends_finish.
- apply ends_bind; [apply keeps_finish_each, HS|]. intros _. by apply ends_finish.
- apply ends_publish_collection.
Qed.

Lemma ends_crawl_and_load : ends id token always (crawl_and_load E job : work FS ()).
Proof.
unfold crawl_and_load. repeat (apply ends_bind; [apply keeps_lift|intros ?]). intros w Hw. apply wp_finally.
assert (H : ends id token always (if bool_decide (cp_pipeline a = "connector_canary") then crawl_connector_canary E job a
    else crawl_legacy E job a a1 : work FS ())) by (destruct (bool_decide _); [apply ends_crawl_connector_canary|apply ends_crawl_legacy]).
eapply wp_conseq; [by apply H|]. intros r w1 [Hw1 N]. unfold wp, tolerate, catch. rewrite (connect_Ok w1 Hw1). simpl. by destruct r.
Qed.
End crawl_ends.

Lemma set_status_Ok {FS} status job_id force (w : World FS) : connected w ->
  exists w', set_status status job_id force w = (Ok (), w') /\ connected w'
  /\ db_jobs (ww_db w') = db_jobs (ww_db w) /\ db_host_leases (ww_db w') = db_host_leases (ww_db w)
  /\ ws_deliveries (ww_worker w') = ws_deliveries (ww_worker w) /\ ws_cancels (ww_worker w') = ws_cancels (ww_worker w)
  /\ ws_current_jobs (ww_worker w') = ws_current_jobs (ww_worker w).
Proof.
intros Hw. unfold set_status, mbind, eff_bind, gets. destruct (_ && _); [by exists w|].
unfold update_worker, modify. rewrite connect_Ok by done. unfold on_db, set_worker_row, emit, modify. simpl.
destruct (db_workers (ww_db w) !! _); eexists; (split; [reflexivity|]); by split_and!.
Qed.

Lemma released_slots id token s : exists ks s', release_all_slots id token s = (Ok ks, s')
  /\ db_jobs s' = db_jobs s /\ forall k h, db_host_leases s' !! k = Some h -> held_under id token h = false.
Proof.
unfold release_all_slots, free_slots, mbind, eff_bind. eexists _, _. split; [reflexivity|]. split; [done|]. simpl.
intros k h. rewrite map_lookup_imap. destruct (db_host_leases s !! k) as [h0|]; [|done]. simpl. intros [= <-].
destruct (held_under id token h0) eqn:Eh; [|done]. done.
Qed.

Lemma acquired_slot host id worker token secs s : exists r s', acquire_slot host id worker token secs s = (Ok r, s') /\ db_jobs s' = db_jobs s.
Proof.
unfold acquire_slot, transaction, mbind, eff_bind, reconcile_host_slots, modify, take_slot.
destruct (first_claimable _ host) as [[slot h]|]; by eexists _, _.
Qed.

Lemma remove_job_gone {A} id (l : list (Z * A)) : id ∉ (remove_job id l).*1.
Proof.
intros H. apply list_elem_of_fmap in H as ([k j] & E & H). simpl in E. subst k.
unfold remove_job in H. apply list_elem_of_filter in H as [H _]. by apply H.
Qed.

Lemma forgotten {FS} (job : ClaimedJob) (w : World FS) :
  exists w', forget job w = (Ok (), w') /\ ww_db w' = ww_db w /\ ww_outages w' = ww_outages w
  /\ ws_deliveries (ww_worker w') !! c_id job = None /\ ws_cancels (ww_worker w') !! c_id job = None
  /\ (c_id job ∉ (ws_current_jobs (ww_worker w')).*1).
Proof.
eexists. split; [reflexivity|]. simpl. rewrite !lookup_delete_eq. split_and!; try done.
apply remove_job_gone.
Qed.

Section execution_ends.
Context {FS : Type} (id token : Z).

(** Symbolic execution of the connected worker's steps. *)
Lemma run_on_db {A B} (m : db A) (k : A -> work FS B) w a s :
  m (ww_db w) = (Ok a, s) -> (on_db m ≫= k) w = k a (w <| ww_db := s |>).
Proof. intros H. unfold mbind, eff_bind, on_db. by rewrite H. Qed.
Lemma run_gets {A B} (f : World FS -> A) (k : A -> work FS B) w : (gets f ≫= k) w = k (f w) w.
Proof. done. Qed.
Lemma run_connect {B} (k : () -> work FS B) w : connected w -> (connect ≫= k) w = k () w.
Proof. intros H. unfold mbind, eff_bind. by rewrite (connect_Ok w H). Qed.
Lemma run_settle_job {B} job x (k : () -> work FS B) w d : ws_deliveries (ww_worker w) !! job = Some d ->
  (settle_job job x ≫= k) w = k () (w <| ww_settled := ww_settled w ++ [(dl_id d, x)] |>).
Proof. intros H. unfold settle_job, delivery_of, mbind, eff_bind, gets. by rewrite H. Qed.

Lemma run_forget {B} job (b : B) (w : World FS) : (forget job ≫= fun _ => mret b) w = (Ok b, (forget job w).2).
Proof. done. Qed.

(** What [forget] leaves, the slots being free. *)
Lemma let_go_forgotten job (w : World FS) : c_id job = id -> not_running id token (ww_db w) ->
  (forall k h, db_host_leases (ww_db w) !! k = Some h -> held_under id token h = false) ->
  let_go id token (forget job w).2.
Proof. intros <- Hn Hh. unfold let_go. simpl. rewrite !lookup_delete_eq. split_and!; try done. apply remove_job_gone. Qed.

(** The keys are acquired, or the job is let go. *)
Lemma acquire_keys_ends job keys : forall (w : World FS) d, c_id job = id -> c_execution_token job = token -> connected w ->
  not_running id token (ww_db w) -> ws_deliveries (ww_worker w) !! id = Some d ->
  exists b w', acquire_keys job keys w = (Ok b, w') /\
  if (b : bool) then connected w' /\ not_running id token (ww_db w') /\ ws_deliveries (ww_worker w') !! id = Some d
  else let_go id token w'.
Proof.
induction keys as [|key r IH]; intros w d Hid Htok Hw Hn Hd; [by exists true, w|]. cbn [acquire_keys].
unfold worker_id. rewrite run_gets.
destruct (acquired_slot key (c_id job) (ws_id (ww_worker w)) (c_execution_token job) SLOT_SECONDS (ww_db w)) as (slot & s & E1 & Ej).
erewrite run_on_db by exact E1. destruct slot as [slot|]; [apply (IH _ d); try done; by eapply not_running_jobs|]. cbv beta iota.
destruct (released_slots (c_id job) (c_execution_token job) s) as (ks & s1 & E2 & Ej1 & Hh). erewrite run_on_db by exact E2.
destruct (release_not_running id token job (ws_id (ww_worker w)) HOST_BACKOFF_SECONDS s1 Hid Htok) as (b & s2 & E3 & Eh & N).
erewrite run_on_db by exact E3.
rewrite (run_settle_job _ _ _ _ d) by by rewrite Hid.
rewrite run_forget. eexists false, _. split; [reflexivity|]. apply let_go_forgotten; [done| |].
2: { rewrite <- Hid, <- Htok. simpl. by rewrite Eh. }
apply N. right. eapply not_running_jobs; [|exact Hn]. by rewrite Ej1, Ej.
Qed.

Lemma start_total job worker trace_id lease s : c_id job = id -> c_execution_token job = token ->
  exists b job' s', start job worker trace_id lease s = (Ok (b, job'), s')
  /\ c_id job' = id /\ c_execution_token job' = token /\ c_source_id job' = c_source_id job
  /\ (b = false -> s' = s).
Proof.
intros <- <-. unfold start, mbind, eff_bind. rewrite update_job_spec. destruct (db_jobs s !! c_id job) as [j|].
- match goal with |- context [if ?b then _ else _] => destruct b end.
  + eexists true, _, _. split; [reflexivity|]. by split_and!.
  + eexists false, job, s. by split_and!.
- eexists false, job, s. by split_and!.
Qed.

(** The execution begins, or the job is let go. *)
Lemma begin_execution_ends job trace_id (w : World FS) d : c_id job = id -> c_execution_token job = token -> connected w ->
  not_running id token (ww_db w) -> ws_deliveries (ww_worker w) !! id = Some d ->
  exists r w', begin_execution job trace_id w = (Ok r, w') /\
  match r with
  | Some job' => connected w' /\ c_id job' = id /\ c_execution_token job' = token
  | None => let_go id token w'
  end.
Proof.
intros Hid Htok Hw Hn Hd. unfold begin_execution, worker_id. rewrite run_connect, run_gets by done.
destruct (start_total job (ws_id (ww_worker w)) trace_id LEASE_SECONDS (ww_db w) Hid Htok) as (b & job' & s & E1 & Hid' & Htok' & _ & Hs).
erewrite run_on_db by exact E1. destruct b; cbn [negb].
- unfold on_db, start_run, update_run, emit, modify, update_worker, mbind, eff_bind. simpl.
  destruct (db_runs s !! c_run_id job') as [row|]; [destruct (bool_decide _)|]; eexists (Some job'), _; (split; [reflexivity|]); by split_and!.
- rewrite (Hs eq_refl) in *. destruct (released_slots (c_id job') (c_execution_token job') (ww_db w)) as (ks & s1 & E2 & Ej1 & Hh).
  erewrite run_on_db by exact E2. rewrite (run_settle_job _ _ _ _ d) by by rewrite Hid'.
  rewrite run_forget. eexists None, _. split; [reflexivity|]. rewrite Hid', Htok' in Hh. apply let_go_forgotten; [done| |done]. by eapply not_running_jobs.
Qed.
End execution_ends.

Section execution.
Context {FS : Type} `{!ArtifactStore FS} (E : Surroundings) (id token : Z).

Lemma require_capability_total job worker capability s : c_id job = id -> c_execution_token job = token ->
  exists b s', require_capability job worker capability s = (Ok b, s') /\ (b = true -> not_running id token s').
Proof.
intros Hid Htok. unfold require_capability, transaction, mbind, eff_bind. rewrite update_job_spec, Hid.
destruct (db_jobs s !! id) as [j|] eqn:Hj; [|by eexists false, _].
match goal with |- context [if ?b then _ else _] => destruct b end; [|by eexists false, _].
cbv beta iota. unfold enqueue_job, job_route, select_job, insert_generation, mbind, eff_bind, gets, emit, modify. simpl. rewrite lookup_insert_eq. simpl.
rewrite lookup_insert_eq. simpl. destruct (outbox_for _ _ _); simpl;
  (eexists true, _; split; [reflexivity|]; intros _ j' Hj' T; simpl in Hj'; rewrite lookup_insert_eq in Hj'; by simplify_eq).
Qed.

Lemma durable_error_Ok e n (w : World FS) : 1 <= n -> exists t, durable_error e n w = (Ok t, w).
Proof.
intros Hn. unfold durable_error, raising, lift. destruct (diagnostic_text_total (wexn_str e) n Hn) as (t & -> & _). by exists t.
Qed.

Lemma finish_Ok job st summary error artifact (w : World FS) : c_id job = id -> c_execution_token job = token ->
  terminal st = true -> connected w ->
  exists w', finish job st summary error artifact w = (Ok (), w') /\ connected w' /\ not_running id token (ww_db w').
Proof.
intros Hid Htok Ht Hw. pose proof (ends_finish id token job st summary error artifact Hid Htok Ht w Hw) as [Hw' N].
unfold finish, mbind, eff_bind in *. rewrite (connect_Ok w Hw) in *.
destruct (finish_execution_ends job st summary error artifact (ww_db w) Ht) as (s & Ef & _). unfold on_db in *. rewrite Ef in *. simpl in *.
destruct (job_alert job st s) as [[[]|e] s'] eqn:Ea; [by eexists; split; [reflexivity|]; split; [|apply N]|].
exfalso. revert Ea. unfold job_alert, mbind, eff_bind. repeat case_bool_decide; try done.
- by destruct (notify_total "job.failed" WARNING (JOB_FAILED_KEY (c_source_id job))
    {| su_run := Some (c_run_id job); su_job := Some (c_id job); su_source := Some (c_source_id job); su_worker := None |} s) as (r & s1 & -> & _).
- by destruct (resolve_total (JOB_FAILED_KEY (c_source_id job)) (Some (c_source_id job)) s) as (r & s1 & -> & _).
Qed.

(** Whatever the crawl raised is recorded, or the job is rerouted to a browser. *)
Lemma recover_Ok job e (w : World FS) : c_id job = id -> c_execution_token job = token -> connected w ->
  exists w', recover_execution job e w = (Ok (), w') /\ connected w' /\ not_running id token (ww_db w').
Proof.
intros Hid Htok Hw.
assert (F : forall w : World FS, connected w -> exists w', (error ← durable_error e 2000; finish job failed None (Some error) None) w = (Ok (), w')
  /\ connected w' /\ not_running id token (ww_db w')).
{ intros w0 Hw0. unfold mbind, eff_bind. destruct (durable_error_Ok e 2000 w0) as [t ->]; [lia|]. by apply finish_Ok. }
unfold recover_execution. destruct e as [e| |message]; try by apply F.
unfold requeue_for_browser, worker_id. unfold mbind at 1, eff_bind at 1. rewrite run_connect by done.
destruct (durable_error_Ok (W_browser message) 200 w) as [t Et]; [lia|]. unfold mbind at 1, eff_bind at 1. rewrite Et, run_gets.
destruct (require_capability_total job (ws_id (ww_worker w)) "browser" (ww_db w) Hid Htok) as (b & s & Er & N).
unfold on_db. rewrite Er. destruct b; [|by apply F]. eexists. split; [reflexivity|]. split; [done|]. by apply N.
Qed.

Lemma end_execution_Ok job (w : World FS) : c_id job = id -> c_execution_token job = token -> connected w ->
  not_running id token (ww_db w) -> exists w', end_execution job w = (Ok (), w') /\ let_go id token w'.
Proof.
intros Hid Htok Hw Hn. unfold end_execution. rewrite run_connect by done.
destruct (released_slots (c_id job) (c_execution_token job) (ww_db w)) as (ks & s1 & E1 & Ej1 & Hh).
erewrite run_on_db by exact E1. unfold delivery_of. rewrite run_gets.
set (m := match _ with Some d => _ | None => _ end).
assert (exists w1, m (w <| ww_db := s1 |>) = (Ok (), w1) /\ connected w1 /\ ww_db w1 = s1) as (w1 & Em & Hw1 & Ed).
{ subst m. destruct (_ !! c_id job); eexists; (split; [reflexivity|]); done. }
unfold mbind at 1, eff_bind at 1. rewrite Em.
assert (L : let_go id token (forget job w1).2).
{ apply let_go_forgotten; rewrite ?Ed; [done|by eapply not_running_jobs|by rewrite <- Hid, <- Htok]. }
unfold mbind at 1, eff_bind at 1. destruct (forget job w1) as [[[]|e] w2] eqn:Ef; [|done]. rewrite run_gets.
assert (Hw2 : connected w2) by (unfold forget, update_worker, modify in Ef; by simplify_eq).
destruct (set_status_Ok (match current_job (ww_worker w2) with Some _ => "busy" | None => "idle" end)
  (c_id <$> current_job (ww_worker w2)) true w2 Hw2) as (w3 & -> & _ & Ej & Eh & E1' & E2' & E3').
exists w3. split; [done|]. destruct L as (L1 & L2 & L3 & L4 & L5). simpl in *. unfold let_go.
rewrite E1', E2', E3', Eh. split_and!; try done. by eapply not_running_jobs.
Qed.

Lemma execute_Ok sources trace_id job (w : World FS) d : c_id job = id -> c_execution_token job = token -> connected w ->
  not_running id token (ww_db w) -> ws_deliveries (ww_worker w) !! id = Some d ->
  exists b w', execute sources trace_id (crawl_and_load E) job w = (Ok b, w') /\ let_go id token w'.
Proof.
intros Hid Htok Hw Hn Hd. unfold execute. unfold mbind at 1, eff_bind at 1. cbn [adopt update_worker modify].
set (w1 := w <| ww_worker := _ |>). rewrite run_connect by done.
destruct (acquire_keys_ends id token job (host_keys sources job) w1 d Hid Htok Hw Hn Hd) as (b & w2 & E2 & H2).
unfold mbind at 1, eff_bind at 1. rewrite E2. destruct b; cbn [negb]; [|by eexists _, _]. destruct H2 as (Hw2 & Hn2 & Hd2).
destruct (begin_execution_ends id token job trace_id w2 d Hid Htok Hw2 Hn2 Hd2) as (r & w3 & E3 & H3).
unfold mbind at 1, eff_bind at 1. rewrite E3. destruct r as [job'|]; [|by eexists _, _]. destruct H3 as (Hw3 & Hid' & Htok').
destruct (set_status_Ok "busy" (Some (c_id job')) false w3 Hw3) as (w4 & E4 & Hw4 & _).
unfold mbind at 1, eff_bind at 1. rewrite E4. unfold mbind, eff_bind, finally, catch.
pose proof (ends_crawl_and_load E id token job' Hid' Htok' w4 Hw4) as [Hw5 N]. unfold wp in *.
destruct (crawl_and_load E job' w4) as [[[]|e] w5]; simpl in Hw5, N.
- destruct (end_execution_Ok job' w5 Hid' Htok' Hw5 (N I)) as (w6 & -> & L). by eexists _, _.
- destruct (recover_Ok job' e w5 Hid' Htok' Hw5) as (w6 & -> & Hw6 & N6).
  destruct (end_execution_Ok job' w6 Hid' Htok' Hw6 N6) as (w7 & -> & L). by eexists _, _.
Qed.
End execution.

(** * Every delivery is answered *)

(** C13. A worker that reaches its database always ends what it starts. One pass
    that has a delivery for the worker's routes, none of whose reservations
    raises, returns whatever the source, the proxy, the loader, the runtime and
    the other processes do; it settles exactly one delivery, once; and when that
    delivery's job was reserved, the worker is left holding nothing of the
    execution: no delivery, cancel flag or current job, no host slot under its
    token, and no row of the job running under it. *)
Theorem connected_worker_ends {FS} `{!ArtifactStore FS} (E : Surroundings) trace_id (w : World FS) :
  ww_outages w = [] ->
  (exists d, d ∈ ww_inbox w /\ e_route (dl_envelope d) ∈ routes_for (ws_capabilities (ww_worker w))) ->
  (forall d, d ∈ ww_inbox w ->
     is_ok (reserve (dl_envelope d) (ws_id (ww_worker w)) (ws_capabilities (ww_worker w)) LEASE_SECONDS (ww_db w)).1 = true) ->
  exists d x b w', worker_tick E trace_id w = (Ok b, w') /\ d ∈ ww_inbox w
  /\ ww_settled w' = ww_settled w ++ [(dl_id d, x)]
  /\ forall r s job,
       reserve (dl_envelope d) (ws_id (ww_worker w)) (ws_capabilities (ww_worker w)) LEASE_SECONDS (ww_db w) = (Ok r, s) ->
       rv_disposition r = run_it -> rv_job r = Some job ->
       let_go (c_id job) (c_execution_token job) w'.
Proof.
intros Hw [d0 [Hd0 Hr0]] Hres. unfold worker_tick, tick.
destruct (next_delivery_eq w) as [[_ Hr]|(d & inbox & Hd & E1)]; [by destruct (Hr d0 Hd0)|].
unfold mbind, eff_bind. rewrite E1. specialize (Hres d Hd).
rewrite (reserve_connected d (w <| ww_inbox := inbox |>)) by done.
change (ww_db (w <| ww_inbox := inbox |>)) with (ww_db w). change (ww_worker (w <| ww_inbox := inbox |>)) with (ww_worker w).
destruct (reserve (dl_envelope d) (ws_id (ww_worker w)) (ws_capabilities (ww_worker w)) LEASE_SECONDS (ww_db w)) as [[r|e] s] eqn:Er; [|done].
destruct (rv_disposition r) eqn:Ed;
  [|by eexists d, Acknowledged, _, _; split_and!; try done; intros; simplify_eq; congruence
   |by eexists d, (Retried (rv_retry_after r)), _, _; split_and!; try done; intros; simplify_eq; congruence].
destruct (reserve_run_row _ _ _ _ _ _ _ Er Ed) as (job & row & Hjob & _ & Hrow & Hl & _).
rewrite Hjob. cbn [update_worker modify]. set (w2 := _ <| ww_worker := _ |>).
assert (Hd2 : ws_deliveries (ww_worker w2) !! c_id job = Some d) by apply lookup_insert_eq.
destruct (execute_Ok E (c_id job) (c_execution_token job) (en_sources E) trace_id job w2 d) as (b & w' & Ee & L); [done..| |done|].
{ intros j Hj _. simpl in Hj. rewrite Hrow in Hj. simplify_eq. by rewrite Hl. }
pose proof (execute_settles E (ww_settled w) d trace_id job w2 (or_introl (conj eq_refl Hd2))) as K.
unfold wp in K. rewrite Ee in K. cbn beta iota in K. destruct K as [[K1 H2]|[K1 [x H2]]]; [destruct L as [L _]; simpl in H2; congruence|].
exists d, x, b, w'. split_and!; try done. intros r' s' job' Er' _ Hj. rewrite Er in Er'. by simplify_eq.
Qed.

(** * A worker's runs *)

Module WorkerDemo.
#[local] Existing Instance PipelineDemo.store.
(** The catalogue's dataset; its projector cannot read the product [red]. *)
Definition ceramics : DatasetDefinition :=
  {| dd_name := "ceramics.catalogue_item.v2"; dd_version := "2"; dd_projector_version := "1"; dd_required_fields := [F_IDENTITY];
     dd_required_capabilities := [];
     dd_project := fun s _ => if bool_decide (sn_external_id s = "red") then Err (ValueError "unreadable") else Ok [StoreDemo.blue];
     dd_validate := Ok |}.
Definition collection_plan : CollectionPlan :=
  {| ca_registry := [("ceramics.catalogue_item.v2", ceramics)]; ca_spec := ResolveDemo.spec; ca_dynamic_partitions := false;
     ca_partitions := []; ca_capabilities := PipelineDemo.capabilities; ca_refresh := FULL; ca_requested := [F_IDENTITY];
     ca_version := "1"; ca_projection := fun _ => []; ca_source_id := "shop" |}.

(** A worker of [two_sources] whose jobs are connector canaries. *)
Definition surroundings (pipeline : string) (during : DB -> DB) (flag : bool) (answer : CrawlAnswer)
    (collected : option ConnectorCheckpoint -> Collected) : Surroundings :=
  {| en_sha256 := StoreDemo.digit_digest; en_encode := fun l => pretty (Z.of_nat (length l)); en_float_repr := fun _ => "";
     en_dump := fun _ => JDict []; en_validate := fun _ => Some ResolveDemo.request;
     en_from_job := fun _ => Ok {| cp_pipeline := pipeline; cp_browser := "never"; cp_allow_empty := false; cp_datasets := ["ceramics"] |};
     en_sources := two_sources; en_identity_only := fun _ => false; en_dumps_dir := "dumps";
     en_cdp_profile := ("", ""); en_cdp_worker_pool := ""; en_meanwhile := fun _ => during; en_flagged := fun _ => flag;
     en_proxy_lease := fun _ => Ok false; en_crawl := fun _ => answer;
     en_load_report := fun _ _ => Ok {| lr_records := 1; lr_retired := 2; lr_rejected := 0 |};
     en_plan := fun _ _ _ => Ok collection_plan; en_assemble := fun _ => Ok (); en_collect := fun _ => collected |}.

Definition delivery (handle generation : Z) : Delivery :=
  {| dl_id := handle;
     dl_envelope := {| e_job_id := 1; e_run_id := 0; e_source_id := "alpha"; e_generation := generation; e_route := "plain.normal";
                       e_priority := 100; e_enqueued_at := seconds 100 |} |}.
Definition idle_worker : WorkerState :=
  {| ws_id := 500; ws_hostname := "host"; ws_pid := 1; ws_capabilities := []; ws_status := "idle"; ws_desired_state := "running";
     ws_current_jobs := []; ws_stopping := false; ws_cancels := ∅; ws_deliveries := ∅; ws_browser_backends := [] |}.
Definition world (s : DB) (inbox : list Delivery) (outages : list bool) : World files :=
  {| ww_db := s; ww_files := ∅; ww_manifest := no_tables; ww_dumps := ∅; ww_worker := idle_worker; ww_inbox := inbox;
     ww_settled := []; ww_extended := []; ww_outages := outages; ww_loads := []; ww_revoked := [] |}.

(** The operator pauses the job after two pages, the first of which the projector
    could not read; later the job is resumed and collects the last page. *)
Definition paused_attempt : Surroundings :=
  surroundings "connector_canary" (fun s => (job_action act_pause 1 s).2) true (Interrupted [])
    (fun _ => {| co_pages := take 2 (PipelineDemo.pages 10); co_error := None |}).
Definition resumed_attempt : Surroundings :=
  surroundings "connector_canary" (fun s => s) false (Interrupted [])
    (fun k => {| co_pages := drop (PipelineDemo.position_of (k_resume_after <$> k)) (PipelineDemo.pages 20); co_error := None |}).
Definition before : World files := world planned [delivery 9 1] [].
Definition after_pause : World files := (worker_tick paused_attempt None before).2.
Definition resumed : World files :=
  after_pause <| ww_db := (job_action act_resume 1 (ww_db after_pause)).2 |> <| ww_inbox := [delivery 10 2] |>.
Definition after_resume : World files := (worker_tick resumed_attempt None resumed).2.
End WorkerDemo.

Lemma connected_worker_ends_witness :
  exists d x b w', @worker_tick files PipelineDemo.store WorkerDemo.paused_attempt None WorkerDemo.before = (Ok b, w')
  /\ ww_settled w' = [(dl_id d, x)].
Proof.
destruct (@connected_worker_ends files PipelineDemo.store WorkerDemo.paused_attempt None WorkerDemo.before) as (d & x & b & w' & E1 & _ & E2 & _).
- reflexivity.
- exists (WorkerDemo.delivery 9 1). split; [apply list_elem_of_singleton; reflexivity|]. vm_compute. apply list_elem_of_here.
- intros d Hd. apply list_elem_of_singleton in Hd. subst d. vm_compute. reflexivity.
- exists d, x, b, w'. split; [exact E1|exact E2].
Defined.
