(* ===== verification/LoadProperties.v ===== *)
(** When a worker retires products: the calls an execution makes to the loader, and
    what stands behind one that declares its collection whole. *)
From S2P Require Export WorkerProperties.
Open Scope Z_scope.

(** * Calls to the loader *)

(** At most one call was added to [old], for [job], and [P] of it. *)
Definition loaded_once {FS} (old : list LoadCall) (job : ClaimedJob) (P : LoadCall -> World FS -> Prop) (w : World FS) : Prop :=
  ww_loads w = old
  \/ exists c, ww_loads w = old ++ [c] /\ lc_job c = c_id job /\ lc_source c = c_source_id job /\ P c w.

Definition unloaded {FS} (old : list LoadCall) (w : World FS) : Prop := ww_loads w = old.
Lemma unloaded_calm {FS} old : calm (@unloaded FS old).
Proof. split; try by intros. intros w Hw. unfold wp, connect. destruct (ww_outages w) as [|[|] r]; done. Qed.
Lemma unloaded_steady {FS} old : steady (@unloaded FS old).
Proof. split; [apply unloaded_calm|by intros..]. Qed.

Lemma calm_and {FS} (I J : World FS -> Prop) : calm I -> calm J -> calm (fun w => I w /\ J w).
Proof.
intros HI HJ. split.
- intros s w [H1 H2]. split; by apply cm_db.
- intros f w F [H1 H2]. split; by apply cm_worker.
- intros w [H1 H2]. apply wp_and; by apply cm_connect.
Qed.
Lemma calm_const {FS} (P : Prop) : calm (fun _ : World FS => P).
Proof. split; try done. by intros w Hw. Qed.
Lemma calm_impl {FS} (P : Prop) (I : World FS -> Prop) : calm I -> calm (fun w => P -> I w).
Proof.
intros HI. split.
- intros s w H HP. by apply cm_db, H.
- intros f w F H HP. by apply cm_worker; [..|apply H].
- intros w H HP. by apply (cm_connect _ HI w), H.
Qed.
Lemma loaded_calm {FS} old job (P : LoadCall -> World FS -> Prop) : (forall c, calm (P c)) -> calm (loaded_once old job P).
Proof.
intros HP. split.
- intros s w [H|(c & H1 & H2 & H3 & H4)]; [by left|right; exists c; split_and!; try done; by apply (cm_db _ (HP c))].
- intros f w F [H|(c & H1 & H2 & H3 & H4)]; [by left|right; exists c; split_and!; try done; by apply (cm_worker _ (HP c))].
- intros w [H|(c & H1 & H2 & H3 & H4)].
  + unfold wp. left. by apply (cm_connect _ (unloaded_calm old) w).
  + unfold wp. right. exists c. split_and!; [by apply (cm_connect _ (unloaded_calm (old ++ [c])) w)|done..|by apply (cm_connect _ (HP c) w)].
Qed.

Lemma loaded_mono {FS} old job (P P' : LoadCall -> World FS -> Prop) w :
  (forall c, P c w -> P' c w) -> loaded_once old job P w -> loaded_once old job P' w.
Proof. intros H [Hw|(c & H1 & H2 & H3 & H4)]; [by left|right; exists c; auto]. Qed.

(** From a state that satisfies [Pre], [m] ends in one that satisfies [Post]. *)
Definition leads {FS A} (Pre Post : World FS -> Prop) (m : work FS A) : Prop := forall w, Pre w -> wp m (fun _ => Post) w.

Lemma leads_bind {FS A B} (Pre Post : World FS -> Prop) (m : work FS A) (k : A -> work FS B) :
  keeps Pre m -> (forall w, Pre w -> Post w) -> (forall a, leads Pre Post (k a)) -> leads Pre Post (m ≫= k).
Proof.
intros Hm HP Hk w Hw. apply wp_bind. eapply wp_conseq; [by apply Hm|]. intros [a|e] w' Hw'; [by apply Hk|by apply HP].
Qed.
Lemma leads_then {FS A B} (Pre Post : World FS -> Prop) (m : work FS A) (k : A -> work FS B) :
  leads Pre Post m -> (forall a, keeps Post (k a)) -> leads Pre Post (m ≫= k).
Proof.
intros Hm Hk w Hw. apply wp_bind. eapply wp_conseq; [by apply Hm|]. intros [a|e] w' Hw'; [by apply Hk|done].
Qed.
Lemma keeps_leads {FS A} (Pre Post : World FS -> Prop) (m : work FS A) : keeps Pre m -> (forall w, Pre w -> Post w) -> leads Pre Post m.
Proof. intros Hm HP w Hw. eapply wp_conseq; [by apply Hm|]. intros r w' Hw'. by apply HP. Qed.

Section vouched.
Context {FS : Type} `{!ArtifactStore FS} (E : Surroundings) (job : ClaimedJob) (old : list LoadCall).

(** What is known of a call when [Q] was known before it. *)
Definition asked (n : nat) (whole : bool) (Q : World FS -> Prop) (c : LoadCall) (w : World FS) : Prop :=
  lc_records c = n /\ lc_whole c = whole /\ (whole = true -> Q w).
Lemma asked_calm n whole Q c : calm Q -> calm (asked n whole Q c).
Proof. intros HQ. repeat apply calm_and; [apply calm_const..|by apply calm_impl]. Qed.

Lemma leads_load_fenced n whole (Q : World FS -> Prop) : calm Q -> load_proof Q ->
  leads (fun w => unloaded old w /\ (whole = true -> Q w)) (loaded_once old job (asked n whole Q)) (load_fenced E job n whole).
Proof.
intros HQ HL w [Hw Hq]. unfold load_fenced. apply wp_bind.
assert (HC : calm (fun w : World FS => unloaded old w /\ (whole = true -> Q w))).
{ apply calm_and; [apply unloaded_calm|by apply calm_impl]. }
eapply wp_conseq; [by apply (cm_connect _ HC)|]. intros [[]|e] w1 [Hw1 Hq1]; [|by left].
apply wp_bind, wp_gets. destruct (owns_execution (ww_db w1) job); simpl; [|by left].
apply wp_bind, wp_lift. destruct (en_load_report E job whole) as [report|e]; [|by left].
apply wp_bind, wp_modify, wp_ret. right. eexists. unfold unloaded in Hw1. rewrite <- Hw1. split_and!; [reflexivity|done..|].
split_and!; [done..|]. intros Hc. by apply HL, Hq1.
Qed.

(** * A legacy crawl *)

(** The crawl was not truncated and had no error as the plan counts them (barren, or
    errors and no record), and its dump was replaced by its records. *)
Definition crawled_whole (c : LoadCall) (w : World FS) : Prop :=
  exists records x path, en_crawl E job = Crawled records x /\ crawl_error x = None /\ cs_truncated x = false
  /\ lc_records c = length records /\ ww_dumps w !! path = Some (en_encode E records).

Lemma legacy_plan_whole x st whole why error : legacy_load_plan x st = (whole, why, error) -> whole = true ->
  crawl_error x = None /\ cs_truncated x = false /\ st = "replaced".
Proof.
unfold legacy_load_plan, may_retire. case_bool_decide; simpl; [|by destruct (crawl_error x); intros [= <- _ _]].
destruct (cs_truncated x), (crawl_error x); simpl; intros [= <- _ _]; done.
Qed.

Lemma loads_record_outcome params output records x : en_crawl E job = Crawled records x ->
  leads (unloaded old) (loaded_once old job (fun c w => lc_whole c = true -> crawled_whole c w)) (record_outcome E job params output records x).
Proof.
intros Ex w Hw. unfold record_outcome. apply wp_bind. unfold wp at 1, on_dumps.
destruct (write_source (en_encode E) (en_sha256 E) output (c_source_id job) records (cp_allow_empty params) (ww_dumps w))
  as [[[artifact st]|e] files] eqn:Ew; [|by left]. cbn [fst snd].
apply write_source_Ok in Ew. cbn [fst snd] in Ew.
apply wp_bind. set (w1 := w <| ww_dumps := files |>).
set (Q := fun w : World FS => st = "replaced" -> ww_dumps w !! art_path artifact = Some (en_encode E records)).
assert (HQ : calm Q).
{ split; [by intros|by intros|]. intros w0 H. unfold wp, connect. destruct (ww_outages w0) as [|[|] r]; done. }
assert (HQ1 : Q w1).
{ intros ->. destruct Ew as [(? & _)|(_ & -> & _)]; [done|]. simpl. apply lookup_insert_eq. }
assert (HC : calm (fun w : World FS => unloaded old w /\ Q w)) by (apply calm_and; [apply unloaded_calm|done]).
eapply wp_conseq; [by apply (keeps_on_db _ HC)|]. intros [[]|e] w2 [Hw2 HQ2]; [|by left].
destruct (legacy_load_plan x st) as [[whole why] error] eqn:Ep.
apply wp_bind. eapply wp_conseq; [apply (leads_load_fenced (length records) whole Q HQ); [by intros l w0 H|by split]|].
assert (HA : calm (loaded_once old job (asked (length records) whole Q))) by (apply loaded_calm; intros c; by apply asked_calm).
assert (HM : forall w, loaded_once old job (asked (length records) whole Q) w -> loaded_once old job (fun c w => lc_whole c = true -> crawled_whole c w) w).
{ intros w3. apply loaded_mono. intros c (H1 & H2 & H3) Hc. rewrite H2 in Hc. destruct (legacy_plan_whole _ _ _ _ _ Ep Hc) as (P1 & P2 & P3).
  exists records, x, (art_path artifact). split_and!; try done. by apply H3. }
intros [loaded|e] w3 H3; [|by apply HM]. eapply wp_conseq; [by apply (keeps_finish _ HA)|]. intros r w4 H4. by apply HM.
Qed.

Definition outcome_loads {A} (m : work FS A) : Prop :=
  leads (unloaded old) (loaded_once old job (fun c w => lc_whole c = true -> crawled_whole c w)) m.

Lemma loads_crawl_legacy params output : outcome_loads (crawl_legacy E job params output).
Proof.
pose proof (@unloaded_calm FS old) as HC. pose proof (@unloaded_steady FS old) as HS.
assert (HL : forall w, unloaded old w -> loaded_once old job (fun c w => lc_whole c = true -> crawled_whole c w) w) by (by left).
assert (HR : forall job x, c_id job = c_id job -> keeps (unloaded old) (d ← delivery_of (c_id job); _ ← match d with Some d => settle d x | None => mret () end; forget job : work FS ())).
{ intros j x _ w Hw. unfold wp, mbind, eff_bind, delivery_of, gets. by destruct (ws_deliveries _ !! _). }
unfold outcome_loads, crawl_legacy. apply leads_bind; [apply keeps_connect, HC|done|]. intros _.
apply leads_bind; [apply keeps_lift|done|]. intros proxied. apply leads_bind; [apply keeps_browser_for_job, HS|done|]. intros _.
apply leads_bind; [apply keeps_elapse, HS|done|]. intros _.
destruct (en_crawl E job) as [records|records x|e] eqn:Ex; [| |by apply keeps_leads; [apply keeps_throw|]].
- apply keeps_leads; [|done]. unfold finish_interrupted. apply keeps_bind; [apply keeps_on_dumps, HS|]. intros [artifact st]. by apply keeps_finish.
- apply leads_bind; [destruct (transient x); [|apply keeps_ret]|done|].
  + apply (keeps_retry_transient _ HC (c_id job)); [|done]. intros job0 y H0. by apply HR.
  + intros [|]; [by apply keeps_leads; [apply keeps_ret|]|by apply loads_record_outcome].
Qed.

(** * A connector's collection *)

Definition sealed (lineage : Z) (m : Manifest) : Prop :=
  exists l, m_lineages m !! (c_id job, lineage) = Some l /\ l_status l = completed.
(** An artifact was published from the batches recorded under a lineage for a dataset. *)
Definition published_from (lineage : Z) (key : DatasetKey) (artifact : StoredObject) (m : Manifest) : Prop :=
  exists batches fs, reconstruct_batches (c_id job) lineage key m = Ok batches
  /\ (publish_dataset (pretty (c_id job)) (dk_dataset key) (dk_contract key) batches fs).1 = Ok artifact.
(** A load of what one lineage of the job recorded for a catalogue dataset, the lineage
    being sealed as a completed enumeration. *)
Definition collected_whole (c : LoadCall) (w : World FS) : Prop :=
  exists lineage key artifact, sealed lineage (ww_manifest w) /\ is_ceramics (dk_dataset key) = true
  /\ published_from lineage key artifact (ww_manifest w) /\ lc_records c = Z.to_nat (so_records artifact).

Lemma complete_lineage_seals lineage expected checksum m b m' :
  complete_lineage (c_id job) lineage expected checksum m = (Ok b, m') -> sealed lineage m'.
Proof.
unfold complete_lineage, atomically, mbind, eff_bind, get_lineage, gets, lift, ensure, Manifest.seal.
destruct (m_lineages m !! (c_id job, lineage)) as [l|] eqn:El; [|done]. case_bool_decide as Es.
- case_bool_decide; [|done]. intros [= _ <-]. by exists l.
- repeat (case_bool_decide; [|done]). destruct (forallb _ _); [|done]. destruct (is_sha256 _); [|done].
  intros [= _ <-]. eexists. simpl. by rewrite lookup_insert_eq.
Qed.

(** A statement of the manifest that leaves the lineages and their batches alone. *)
Definition same_history (m m' : Manifest) : Prop := m_lineages m' = m_lineages m /\ m_batches m' = m_batches m.
Definition keeps_history {A} (m : eff (FS * Manifest) pyexn A) : Prop := forall s, same_history s.2 (m s).2.2.
Lemma finish_dataset_history jid key state complete rejected_ error promoted :
  keeps_history (on_tables (finish_dataset jid key state complete rejected_ error promoted)).
Proof. intros [fs t]. unfold on_tables, finish_dataset, lift, ensure, mbind, eff_bind. by destruct (bool_decide _). Qed.
Lemma publish_history lineage key kind s : let (r, s') := publish_lineage_dataset (c_id job) lineage key kind s in
  same_history s.2 s'.2 /\ forall a, r = Ok a -> published_from lineage key a s.2.
Proof.
destruct s as [fs t]. unfold publish_lineage_dataset, mbind, eff_bind, gets, lift, on_store, on_tables, ensure, modify. cbn [fst snd].
destruct (match m_lineages t !! _ with Some _ => _ | None => _ end); [|done].
destruct (reconstruct_batches _ _ _ _) as [l|e] eqn:El; [|done].
destruct (publish_dataset _ _ _ _ fs) as [[o|e] fs'] eqn:Ep; [|done].
pose proof (register_artifact_cases (c_id job) key o kind t) as C. unfold run in C.
assert (Ho : published_from lineage key o t) by (exists l, fs; by rewrite Ep).
destruct (register_artifact (c_id job) key o kind t) as [[i|e] t']; simpl in *; destruct C as [->|(n & row & _ & ->)]; (split; [done|by intros a [= <-]]).
Qed.

(** What the lineages and their batches decide. *)
Definition historical (Q : Manifest -> Prop) : Prop := forall m m', same_history m m' -> Q m -> Q m'.
Lemma sealed_historical lineage : historical (sealed lineage).
Proof. intros m m' [Em _] (l & Hl & Hs). exists l. by rewrite Em. Qed.
Lemma published_historical lineage key a : historical (published_from lineage key a).
Proof. intros m m' [E1 E2] (l & fs & H1 & H2). exists l, fs. split; [|done]. revert H1. unfold reconstruct_batches. by rewrite E1, E2. Qed.
Lemma historical_and Q Q' : historical Q -> historical Q' -> historical (fun m => Q m /\ Q' m).
Proof. intros H H' m m' Em [? ?]. eauto. Qed.
#[local] Hint Resolve sealed_historical published_historical historical_and : core.

(** A fact of the manifest, and no call made: what holds from the seal to the load. *)
Definition ready (Q : Manifest -> Prop) (whole : bool) (w : World FS) : Prop := unloaded old w /\ (whole = true -> Q (ww_manifest w)).
Lemma manifest_calm (Q : Manifest -> Prop) : calm (fun w : World FS => Q (ww_manifest w)).
Proof. split; [by intros|by intros|]. intros w H. unfold wp, connect. destruct (ww_outages w) as [|[|] r]; done. Qed.
Lemma ready_calm Q whole : calm (ready Q whole).
Proof. apply calm_and; [apply unloaded_calm|apply calm_impl, manifest_calm]. Qed.
Lemma ready_pipeline {A} Q whole (m : eff (FS * Manifest) pyexn A) : historical Q -> keeps_history m -> keeps (ready Q whole) (on_pipeline m).
Proof.
intros HQ Hm w [Hw Hs]. specialize (Hm (ww_files w, manifest_view w)). unfold wp, on_pipeline.
destruct (m (ww_files w, manifest_view w)) as [r [fs t]]. simpl in *. split; [done|]. intros Hc. simpl. apply (HQ (ww_manifest w)); [exact Hm|auto].
Qed.
Lemma ready_finish_each Q whole jid state complete error keys : historical Q ->
  keeps (ready Q whole) (finish_each jid state complete error keys).
Proof.
intros HQ. induction keys as [|[name key] r IH]; simpl; [apply keeps_ret|].
apply keeps_bind; [by apply ready_pipeline, finish_dataset_history|done].
Qed.

(** Where the artifacts that were published come from. *)
Definition sourced (lineage : Z) (keys : list (string * DatasetKey)) (published : list (string * StoredObject)) (m : Manifest) : Prop :=
  forall name a, (name, a) ∈ published -> exists key, (name, key) ∈ keys /\ published_from lineage key a m.
Lemma sourced_historical lineage keys published : historical (sourced lineage keys published).
Proof. intros m m' Em H name a Hin. destruct (H name a Hin) as (key & ? & ?). exists key. split; [done|by eapply published_historical]. Qed.

Lemma ready_weaken Q Q' whole w : (forall m, Q m -> Q' m) -> ready Q whole w -> ready Q' whole w.
Proof. intros H [H1 H2]. split; auto. Qed.
Lemma ready_publish_one Q whole lineage key kind w : historical Q -> ready Q whole w ->
  wp (on_pipeline (publish_lineage_dataset (c_id job) lineage key kind)) (fun r w' =>
    match r with Ok a => ready (fun m => Q m /\ published_from lineage key a m) whole w' | Err _ => ready Q whole w' end) w.
Proof.
intros HQ [Hw Hq]. unfold wp, on_pipeline. pose proof (publish_history lineage key kind (ww_files w, manifest_view w)) as Hp.
destruct (publish_lineage_dataset _ _ _ _ _) as [[a|e] [fs t]]; destruct Hp as [Hh Ha]; (split; [exact Hw|]); intros Hc; simpl.
- split; [apply (HQ (ww_manifest w)); [exact Hh|auto]|]. by apply (published_historical _ _ _ _ _ Hh), Ha.
- apply (HQ (ww_manifest w)); [exact Hh|auto].
Qed.
Lemma keeps_when_ready Q whole (skip : bool) key : historical Q ->
  keeps (ready Q whole) (if skip then mret () else on_manifest (finish_dataset (c_id job) key "succeeded" true 0 None false)).
Proof. intros HQ. destruct skip; [apply keeps_ret|by apply ready_pipeline, finish_dataset_history]. Qed.
Lemma ready_publish_each whole lineage failed_names keys : forall Q, historical Q -> forall w, ready Q whole w ->
  wp (publish_each (c_id job) lineage failed_names keys) (fun r w' =>
    match r with Ok published => ready (fun m => Q m /\ sourced lineage keys published m) whole w' | Err _ => ready Q whole w' end) w.
Proof.
induction keys as [|[name key] r IH]; intros Q HQ w Hw; simpl.
- apply wp_ret. eapply ready_weaken; [|exact Hw]. intros m Hm. split; [done|]. intros n a Hin. by apply elem_of_nil in Hin.
- destruct (bool_decide _).
  + eapply wp_conseq; [by apply (IH Q)|]. intros [published|e] w1 H1; [|done]. eapply ready_weaken; [|exact H1].
    intros m [Hm Hs]. split; [done|]. intros n a Hin. destruct (Hs n a Hin) as (k & ? & ?). exists k. split; [by right|done].
  + apply wp_bind. eapply wp_conseq; [by apply ready_publish_one|]. intros [a|e] w1 H1; [|done].
    set (Q' := fun m => Q m /\ published_from lineage key a m) in *. assert (HQ' : historical Q') by (unfold Q'; auto).
    assert (Hback : forall w, ready Q' whole w -> ready Q whole w) by (intros; eapply ready_weaken; [|done]; by intros m []).
    apply wp_bind. eapply wp_conseq; [apply (keeps_when_ready Q' whole (is_ceramics name)); [exact HQ'|exact H1]|]. intros [[]|e] w2 H2; [|by apply Hback].
    apply wp_bind. eapply wp_conseq; [by apply (IH Q')|]. intros [published|e] w3 H3; [|by apply Hback].
    apply wp_ret. eapply ready_weaken; [|exact H3]. intros m [[Hm Ha] Hs]. split; [done|]. intros n b [[= -> ->]|Hin]%elem_of_cons.
    * exists key. split; [left|done].
    * destruct (Hs n b Hin) as (k & ? & ?). exists k. split; [by right|done].
Qed.

(** What is known of a call made while a fact of the manifest held. *)
Definition backed (n : nat) (Q : Manifest -> Prop) (whole : bool) : World FS -> Prop :=
  loaded_once old job (asked n whole (fun w => Q (ww_manifest w))).
Lemma backed_calm n Q whole : calm (backed n Q whole).
Proof. apply loaded_calm. intros c. apply asked_calm, manifest_calm. Qed.
Lemma backed_pipeline {A} n Q whole (m : eff (FS * Manifest) pyexn A) : historical Q -> keeps_history m -> keeps (backed n Q whole) (on_pipeline m).
Proof.
intros HQ Hm w Hw. specialize (Hm (ww_files w, manifest_view w)). unfold wp, on_pipeline.
destruct (m (ww_files w, manifest_view w)) as [r [fs t]]. simpl in *.
destruct Hw as [Hw|(c & H1 & H2 & H3 & H4 & H5 & H6)]; [by left|]. right. exists c. split_and!; [done..|]. split_and!; [done..|].
intros Hc. simpl. apply (HQ (ww_manifest w)); [exact Hm|auto].
Qed.

Lemma loads_load_ceramics params key published Q whole summary : historical Q ->
  leads (ready Q whole) (backed (Z.to_nat (so_records published)) Q whole) (load_ceramics E job params key published whole summary).
Proof.
intros HQ. pose proof (ready_calm Q whole) as HC. pose proof (backed_calm (Z.to_nat (so_records published)) Q whole) as HB.
assert (HR : forall w, ready Q whole w -> backed (Z.to_nat (so_records published)) Q whole w) by (intros w [H _]; by left).
unfold load_ceramics. destruct (_ && _).
- apply keeps_leads; [|done]. apply keeps_bind; [apply keeps_connect, HC|]. intros _.
  apply keeps_bind; [by apply ready_pipeline, finish_dataset_history|]. intros _.
  apply keeps_bind; [by apply keeps_finish|]. intros _. apply keeps_ret.
- apply leads_then.
  + intros w Hw. apply wp_catch. eapply wp_conseq; [apply (leads_load_fenced _ whole _ (manifest_calm Q)); [by intros l w0|exact Hw]|].
    intros [loaded|e] w1 Hw1; [done|]. revert w1 Hw1. change (keeps (backed (Z.to_nat (so_records published)) Q whole)
      (_ ← connect; error ← durable_error e 2000;
       _ ← on_manifest (finish_dataset (c_id job) key "failed" true 0 (Some error) false); throw e : work FS LoadReport)).
    apply keeps_bind; [apply keeps_connect, HB|]. intros _. apply keeps_bind; [apply keeps_durable_error|]. intros error.
    apply keeps_bind; [by apply backed_pipeline, finish_dataset_history|]. intros _. apply keeps_throw.
  + intros loaded. apply keeps_bind; [apply keeps_connect, HB|]. intros _.
    apply keeps_bind; [by apply backed_pipeline, finish_dataset_history|]. intros _. apply keeps_ret.
Qed.

Lemma seal_ready lineage p limited (w : World FS) : unloaded old w ->
  wp (seal_lineage E (c_id job) lineage p limited) (fun r w' => unloaded old w' /\ (is_ok r = true -> limited = false -> sealed lineage (ww_manifest w'))) w.
Proof.
intros Hw. unfold seal_lineage. apply wp_bind, wp_gets, wp_bind, wp_lift.
destruct (lineage_checksum _ _ _ _ _) as [checksum|e]; [|by split].
destruct limited.
- apply wp_bind. eapply wp_conseq; [by apply (keeps_on_manifest _ (unloaded_steady old))|]. intros [b|e] w1 Hw1; by split.
- apply wp_bind. assert (K : keeps (unloaded old) (if ca_dynamic_partitions p then raising (declared_partitions (c_id job) lineage (manifest_view w))
      else mret (if bool_decide (ca_partitions p = []) then ["main"] else ca_partitions p) : work FS (list string)))
    by (destruct (ca_dynamic_partitions p); [apply keeps_lift|apply keeps_ret]).
  eapply wp_conseq; [by apply K|]. intros [expected|e] w1 Hw1; [|by split]. apply wp_bind. unfold wp at 1, on_manifest, on_pipeline, on_tables.
  destruct (complete_lineage (c_id job) lineage expected checksum (manifest_view w1)) as [[b|e] m'] eqn:Ec; [|by split].
  split; [done|]. intros _ _. by eapply complete_lineage_seals.
Qed.

Definition collected_loads {A} (m : work FS A) : Prop :=
  leads (unloaded old) (loaded_once old job (fun c w => lc_whole c = true -> collected_whole c w)) m.

(** The keys of a plan are those of their datasets. *)
Definition named_keys (keys : list (string * DatasetKey)) : Prop := forall name key, (name, key) ∈ keys -> dk_dataset key = name.
Lemma dict_set_elem {V} k (v : V) d p : p ∈ dict_set k v d -> p = (k, v) \/ p ∈ d.
Proof.
induction d as [|[k' v'] r IH]; simpl; [by intros ->%list_elem_of_singleton; left|]. case_bool_decide.
- intros [->|?]%elem_of_cons; [subst; by left|right; by right].
- intros [->|H']%elem_of_cons; [right; by left|]. destruct (IH H'); [by left|right; by right].
Qed.
Lemma dataset_keys_named registry selected : forall keys keys', named_keys keys -> dataset_keys registry selected keys = Ok keys' -> named_keys keys'.
Proof.
induction selected as [|name r IH]; intros keys keys' Hk; simpl; [by intros [= <-]|].
unfold mbind, result_bind. destruct (definition_of registry name) as [d|e]; [|done]. apply IH.
intros n k [[= -> ->]|H]%dict_set_elem; [done|by apply Hk].
Qed.

Lemma loads_publish_collection params selected p keys lineage r : named_keys keys ->
  (connector_load_is_whole r = true -> pr_limited r = false) ->
  collected_loads (publish_collection E job params selected p keys lineage r).
Proof.
intros Hk Hr w Hw. unfold publish_collection. apply wp_bind. eapply wp_conseq; [by apply seal_ready|].
intros [[]|e] w1 [Hw1 Hs1]; [|by left]. specialize (Hs1 eq_refl). set (whole := connector_load_is_whole r) in *.
assert (R : ready (sealed lineage) whole w1) by (split; [done|]; auto). clear Hw1 Hs1.
assert (HL : forall Q w, ready Q whole w -> loaded_once old job (fun c w => lc_whole c = true -> collected_whole c w) w) by (intros Q w0 [H _]; by left).
assert (Hfin : forall Q w state summary error artifact, ready Q whole w ->
  wp (finish job state summary error artifact) (fun _ => loaded_once old job (fun c w => lc_whole c = true -> collected_whole c w)) w).
{ intros Q w0 state summary error artifact H0. eapply wp_conseq; [exact (keeps_finish _ (ready_calm Q whole) _ _ _ _ _ w0 H0)|]. intros r0 w4. apply HL. }
apply wp_bind. eapply wp_conseq; [by apply (ready_finish_each (sealed lineage) whole)|]. intros [[]|e] w2 H2; [|by eapply HL].
apply wp_bind. eapply wp_conseq; [by apply (ready_publish_each whole lineage _ keys (sealed lineage))|]. intros [published|e] w3 H3; [|by eapply HL].
cbv zeta. destruct (list_find _ _) as [[i name]|] eqn:Ef; cbn [mbind option_bind snd];
  [destruct (dict_get name published) as [artifact|] eqn:Ea; cbn [mbind option_bind];
     [destruct (dict_get name keys) as [key|]; cbn [fmap option_fmap option_map]|]|];
  try exact (Hfin _ _ _ _ _ _ H3).
apply list_find_Some in Ef as (_ & Hc & _). apply dict_get_elem in Ea.
set (Q := fun m => sealed lineage m /\ exists key, is_ceramics (dk_dataset key) = true /\ published_from lineage key artifact m).
assert (HQ : historical Q).
{ intros m m' E' (Hs & k & Hn & Hp). split; [by eapply sealed_historical|]. exists k. split; [done|by eapply published_historical]. }
assert (R3 : ready Q whole w3).
{ eapply ready_weaken; [|exact H3]. intros m [Hs Hp]. split; [done|]. destruct (Hp _ _ Ea) as (k & Hin & Hp'). exists k. split; [by rewrite (Hk _ _ Hin)|done]. }
eapply wp_conseq.
- match goal with |- wp ?m _ w3 => apply (leads_then (ready Q whole) (backed (Z.to_nat (so_records artifact)) Q whole)) end;
    [by apply loads_load_ceramics| |exact R3].
  intros [[summary report]|]; [apply keeps_finish, backed_calm|apply keeps_ret].
- intros r0 w4. apply loaded_mono. intros c (H4 & H5 & H6) H7. rewrite H5 in H7. destruct (H6 H7) as (Hs & k & Hn & Hp).
  by exists lineage, k, artifact.
Qed.

(** A result-limited collection is never whole. *)
Definition limited_not_whole (r : PipelineResult) : Prop := connector_load_is_whole r = true -> pr_limited r = false.
Lemma run_limited_not_whole (C : PageCommitter Manifest) registry jid lineage source projection capabilities refresh requested datasets initial collected :
  returns limited_not_whole (@run_pipeline FS Manifest _ C registry jid lineage source projection capabilities refresh requested datasets initial collected).
Proof.
unfold run_pipeline. apply returns_then. intros _. apply returns_then. intros r. apply returns_then. intros _ s.
unfold lift, new_result, ensure, limited_not_whole, connector_load_is_whole. simpl.
destruct r as [pages terminal intact limited states]. simpl. by destruct terminal, intact, limited.
Qed.
Lemma on_pipeline_returns {A} (R : A -> Prop) (m : eff (FS * Manifest) pyexn A) : returns R m -> returns R (on_pipeline m).
Proof. intros H w. specialize (H (ww_files w, manifest_view w)). unfold on_pipeline. by destruct (m _) as [[a|e] [fs t]]. Qed.
Lemma collect_limited_not_whole selected p keys : returns (fun x => limited_not_whole x.2) (collect_lineage E job selected p keys).
Proof.
unfold collect_lineage. apply returns_then. intros resolved. apply returns_then. intros m.
set (limited := bool_decide (rl_progress resolved = TERMINAL_LIMITED)). destruct (limited || _).
- apply returns_ret. unfold limited_not_whole, connector_load_is_whole. simpl. by destruct limited.
- apply returns_then. intros _. eapply returns_bind; [apply on_pipeline_returns, run_limited_not_whole|]. intros r Hr. by apply returns_ret.
Qed.

Lemma loads_crawl_connector_canary params : collected_loads (crawl_connector_canary E job params).
Proof.
pose proof (@unloaded_calm FS old) as HC. pose proof (@unloaded_steady FS old) as HS.
assert (HL : forall w, unloaded old w -> loaded_once old job (fun c w => lc_whole c = true -> collected_whole c w) w) by (by left).
unfold collected_loads, crawl_connector_canary. apply leads_bind; [apply keeps_lift|done|]. intros p. intros w0 Hw0. apply wp_bind, wp_lift.
destruct (dataset_keys _ _ _) as [keys|e] eqn:Ek; [|by left]. pose proof (dataset_keys_named _ _ [] keys ltac:(by intros ? ? ?%elem_of_nil) Ek) as Hk.
revert w0 Hw0. match goal with |- forall w, _ -> wp ?m _ w => change (collected_loads m) end.
apply leads_bind; [apply keeps_connect, HC|done|]. intros _. intros w Hw. apply wp_bind.
eapply wp_conseq; [apply wp_and; [by apply (keeps_collect_lineage E _ HS)|
  exact (collect_limited_not_whole _ p keys w : wp _ (fun r _ => match r with Ok a => limited_not_whole a.2 | Err _ => True end) w)]|].
intros [[lineage r]|e] w1 [Hw1 Hr]; [|by left]. revert w1 Hw1. simpl in Hr.
match goal with |- forall w, _ -> wp ?m _ w => change (collected_loads m) end.
apply leads_bind; [apply keeps_elapse, HS|done|]. intros _. apply leads_bind; [apply keeps_gets|done|]. intros cancels.
apply leads_bind; [apply keeps_lift|done|]. intros flag. destruct (_ || _); [|destruct (_ && _)].
- apply leads_bind; [apply keeps_finish_each, HS|done|]. intros _. apply keeps_leads; [by apply keeps_finish|done].
- apply leads_bind; [apply keeps_finish_each, HS|done|]. intros _. apply keeps_leads; [by apply keeps_finish|done].
- by apply loads_publish_collection.
Qed.

Lemma collected_whole_calm c : calm (fun w : World FS => collected_whole c w).
Proof. split; [by intros|by intros|]. intros w H. unfold wp, connect. destruct (ww_outages w) as [|[|] r]; done. Qed.
Lemma crawled_whole_calm c : calm (fun w : World FS => crawled_whole c w).
Proof. split; [by intros|by intros|]. intros w H. unfold wp, connect. destruct (ww_outages w) as [|[|] r]; done. Qed.

(** What stands behind a call that declares its collection whole. *)
Definition vouched (c : LoadCall) (w : World FS) : Prop :=
  match en_from_job E (c_params job) with
  | Ok params => if bool_decide (cp_pipeline params = "connector_canary") then collected_whole c w else crawled_whole c w
  | Err _ => False
  end.
End vouched.


(** * Runs worth knowing *)

(** An operator pauses a job one of whose pages the projector could not read: the
    sticky failure of its dataset is overwritten by [cancelled], so the resumed
    collection publishes the dataset as complete and loads it as the whole
    catalogue, without the products of the pages that were skipped. *)
Lemma paused_failure_forgotten :
  map (fun o => ((or_page o).2, do_state (or_outcome o))) (m_outcomes (ww_manifest WorkerDemo.after_resume))
    = [("p0", "failed"); ("p1", "skipped"); ("p2", "succeeded")]
  /\ map ds_state (map_to_list (m_datasets (ww_manifest WorkerDemo.after_pause))).*2 = ["cancelled"]
  /\ map ds_state (map_to_list (m_datasets (ww_manifest WorkerDemo.after_resume))).*2 = ["succeeded"]
  /\ map (fun b => (br_page b).2) (m_batches (ww_manifest WorkerDemo.after_resume)) = ["p2"]
  /\ ww_loads WorkerDemo.after_resume = [{| lc_job := 1; lc_source := "alpha"; lc_records := 1; lc_whole := true |}]
  /\ j_state <$> db_jobs (ww_db WorkerDemo.after_resume) !! 1 = Some JobTables.succeeded.
Proof. by vm_compute. Qed.

Module OutageDemo.
#[local] Existing Instance PipelineDemo.store.
(** The database cannot be reached when the execution is about to begin; it comes
    back, and the heartbeat passes once a minute. *)
Definition stranded : World files :=
  (worker_tick WorkerDemo.resumed_attempt None (WorkerDemo.world planned [WorkerDemo.delivery 9 1] [false; false; true])).2.
Definition minute_later (w : World files) : World files := w <| ww_db := (ww_db w) <| db_now := db_now (ww_db w) + seconds 60 |> |>.
Definition leased_until (w : World files) : option Z := db_jobs (ww_db w) !! 1 ≫= j_lease_expires_at.
Definition first_beat : World files := (beat (minute_later stranded)).2.
Definition second_beat : World files := (beat (minute_later first_beat)).2.
End OutageDemo.

(** An outage before the [try] of [execute] leaves the job among the current ones:
    nothing runs it, and every heartbeat renews its lease and its delivery. *)
Lemma stranded_job_keeps_its_lease :
  (ws_current_jobs (ww_worker OutageDemo.second_beat)).*1 = [1]
  /\ ww_settled OutageDemo.second_beat = []
  /\ ww_extended OutageDemo.second_beat = [9; 9]
  /\ OutageDemo.leased_until OutageDemo.stranded = Some (seconds 400)
  /\ OutageDemo.leased_until OutageDemo.first_beat = Some (seconds 460)
  /\ OutageDemo.leased_until OutageDemo.second_beat = Some (seconds 520).
Proof. by vm_compute. Qed.
