(* ===== verification/Loading.v ===== *)
(** Loading a source's dump into the product tables
    ([catalogue-dump/.../storage/postgres.py] and the function [catalogue.load_record]
    of [storage/schema]): which file of a dump directory is loaded and whether it may
    retire products, the staging of its records, their loading one statement for all or
    one record at a time, and the retirement of what the dump did not list.

    The casts, the printing of JSON and the digests of PostgreSQL are parameters.
    Transactions and savepoints are [atomically]. *)
From S2P Require Export Effects Json DumpFiles.
From stdpp Require Export gmap strings pretty.
From Stdlib Require Import Ascii.
Open Scope Z_scope.

(** * Which file is a whole catalogue *)

(** A directory of dumps: the lines of its files, a [.gz] one decompressed. *)
Definition dump_directory : Type := gmap string (list string).

Definition blank_line (line : string) : bool := str_isempty (str_strip line).

(** Source: catalogue-dump/storage/postgres.py, records_in. *)
Definition records_in (data : dump_directory) (path : string) : Z :=
  match data !! path with Some lines => Z.of_nat (length (filter (fun l => blank_line l = false) lines)) | None => 0 end.

(** Source: catalogue-dump/storage/postgres.py, Load. *)
Record Load := { ld_source : string; ld_path : string; ld_whole : bool; ld_records : Z }.

(** Python's truth of a JSON value. *)
Definition truthy (v : json) : bool :=
  match v with
  | JNull => false | JBool b => b | JInt n => negb (n =? 0)
  | JFloat (FFinite m _) => negb (m =? 0) | JFloat _ => true
  | JStr s => negb (str_isempty s) | JList l => bool_decide (l <> []) | JDict d => bool_decide (d <> [])
  end.

(** Source: catalogue-dump/storage/postgres.py:187-187, plan_load. *)
Definition suffixes : list string := [".partial.ndjson.gz"; ".partial.ndjson"; ".ndjson.gz"; ".ndjson"].
(** The name before the first suffix that fits. *)
Definition source_of (file : string) : option string :=
  (fun s => removesuffix s file) <$> head (filter (fun s => str_endswith s file = true) suffixes).

Section planning.
(** [repr] of a status that is no text. *)
Context (py_repr : json -> string).

(** [manifest]: the sources of the dump's manifest, empty without one. Source:
    catalogue-dump/storage/postgres.py:176-183, plan_load. *)
Definition authoritative (manifest : list (string * list (string * json))) (source : string) : bool * string :=
  if bool_decide (manifest = []) then (true, "")
  else match dict_get source manifest with
       | None => (false, "no manifest entry for this run")
       | Some entry =>
           match dict_get "write_status" entry with
           | Some (JStr status) => may_retire status (match dict_get "truncated" entry with Some t => truthy t | None => false end)
           | other => (false, "write_status " +:+ py_repr (default JNull other) +:+ ", not written by this run")
           end
       end.

(** The compressed file when it is there, or when neither is. Source:
    catalogue-dump/storage/postgres.py:196-207, plan_load. *)
Definition existing (data : dump_directory) (stem : string) : string :=
  if bool_decide (is_Some (data !! (stem +:+ ".gz"))) then stem +:+ ".gz"
  else if bool_decide (is_Some (data !! stem)) then stem else stem +:+ ".gz".

(** What one source contributes, and what is left out of it. Source:
    catalogue-dump/storage/postgres.py:195-219, plan_load. *)
Definition plan_source (data : dump_directory) (manifest : list (string * list (string * json))) (source : string)
    : list Load * list (string * string) :=
  let complete := existing data (source +:+ ".ndjson") in
  let partial := existing data (source +:+ ".partial.ndjson") in
  let whole := records_in data complete in
  let half := records_in data partial in
  if negb (whole =? 0) then
    let '(trusted, why) := authoritative manifest source in
    ([{| ld_source := source; ld_path := complete; ld_whole := trusted; ld_records := whole |}],
     (if trusted then [] else [(source, "loaded as adds-only: " +:+ why)])
     ++ (if half =? 0 then [] else [(source, pretty half +:+ " partial records, superseded by a complete dump")]))
  else if negb (half =? 0)
  then ([{| ld_source := source; ld_path := partial; ld_whole := false; ld_records := half |}], [])
  else ([], [(source, "no records in this dump")]).

(** Source: catalogue-dump/storage/postgres.py, plan_load. *)
Definition plan_load (data : dump_directory) (manifest : list (string * list (string * json))) : list Load * list (string * string) :=
  let names := sort_strs (remove_dups (omap (fun p => source_of p.1) (map_to_list data))) in
  let plans := plan_source data manifest <$> names in
  (concat plans.*1, concat plans.*2).
End planning.

(** * The product tables *)

(** A product is known by its source and its external id. *)
Definition product_key : Type := string * string.

(** Source: catalogue-dump/storage/schema/catalogue-schema.sql:706-755, source_products. *)
Record ProductRow := {
  pr_parent : option string; pr_format : string; pr_name : string; pr_brand : option string; pr_sku : option string;
  pr_manufacturer_sku : option string; pr_supplier_reference : option string; pr_family : option string; pr_description : option string;
  pr_firing_range : option string; pr_product_url : string; pr_image_url : option string; pr_availability : option string;
  pr_first_seen : Z; pr_last_seen : Z; pr_active : bool; pr_attributes : list (string * json);
}.

(** Source: catalogue-dump/storage/schema/catalogue-schema.sql:1909-1920, sources. *)
Record SourceRow := { so_label : option string; so_homepage : option string; so_metadata : list (string * json) }.

Record ImportRun := { ir_status : string; ir_record_count : Z }.

(** What tells an offer from the next. *)
Record OfferContext {Num : Type} := {
  oc_price : Num; oc_currency : string; oc_price_text : option string; oc_vat_status : option string; oc_quantity : option Num;
  oc_unit : option string; oc_unit_price : option Num; oc_unit_price_per : option string; oc_availability : option string;
  oc_stock_quantity : option Z; oc_stock_kind : string;
}.
Arguments OfferContext : clear implicits.
#[export] Instance OfferContext_eq_dec {Num} `{EqDecision Num} : EqDecision (OfferContext Num).
Proof. solve_decision. Defined.

(** What the code relies on of PostgreSQL: a JSON value as text, the casts of a text
    ([None] raises), the value a [numeric(18,6)] column keeps of a number ([None]
    overflows), the digests of an offer's context and of a record. One equality of
    numbers serves both the comparison of offers and their digests; PostgreSQL takes
    1.0 and 1.00 for equal and digests them apart. *)
Class Postgres := {
  Num : Type; num_eq_dec :: EqDecision Num; Digest : Type; digest_eq_dec :: EqDecision Digest; digest_countable :: Countable Digest;
  jsonb_text : json -> string; cast_numeric : string -> option Num; cast_bigint : string -> option Z; cast_timestamp : string -> option Z;
  column : Num -> option Num; not_negative : Num -> bool; positive : Num -> bool;
  context_digest : OfferContext Num -> Digest; record_digest : json -> Digest;
}.

Section loading.
Context `{Postgres}.

(** Source: catalogue-dump/storage/schema/catalogue-schema.sql:1754-1767, raw_records. *)
Record RawRow := { rw_id : Z; rw_import_run : option Z; rw_fetched_at : Z; rw_first_seen : Z; rw_last_seen : Z; rw_record : json }.
(** Source: catalogue-dump/storage/schema/catalogue-schema.sql:665-692, offer_observations. *)
Record OfferRow := {
  of_id : Z; of_raw : Z; of_observed_at : Z; of_last_seen : Z; of_context : OfferContext Num; of_digest : Digest; of_attributes : json;
}.
Record OutOfOrderRow := { oo_raw : Z; oo_record : json }.

(** The offers of a product in the order they were inserted, so that of two observed
    at the same time the later one has the greater id. *)
Record CatalogueDb := {
  cd_sources : gmap string SourceRow; cd_products : gmap product_key ProductRow; cd_raw : gmap (product_key * Digest) RawRow;
  cd_offers : gmap product_key (list OfferRow); cd_out_of_order : gmap (product_key * Z * Digest) OutOfOrderRow;
  cd_imports : gmap Z ImportRun; cd_next_id : Z;
}.
#[export] Instance CatalogueDb_eta : Eta CatalogueDb := fun d =>
  {| cd_sources := cd_sources d; cd_products := cd_products d; cd_raw := cd_raw d; cd_offers := cd_offers d;
     cd_out_of_order := cd_out_of_order d; cd_imports := cd_imports d; cd_next_id := cd_next_id d |}.

(** What a load raises: an error of the database, or of decoding a line. *)
Inductive load_exn := DbError (message : string) | JsonDecode (message : string).
Abbreviation load := (eff CatalogueDb load_exn).
Definition raise_sql {A} (message : string) : load A := throw (DbError message).
Definition sql_check (b : bool) (message : string) : load () := if b then mret () else raise_sql message.

(** ** One record *)

(** [v->>'k'], [btrim], and [nullif(btrim(...), '')] of an optional text. *)
Definition field (k : string) (v : json) : option json := match v with JDict d => dict_get k d | _ => None end.
Definition sql_text (v : json) : option string := match v with JNull => None | JStr s => Some s | _ => Some (jsonb_text v) end.
Definition text_of (k : string) (v : json) : option string := field k v ≫= sql_text.
Definition btrim (s : string) : string := str_rstrip (fun c => bool_decide (c = " "%char)) (str_lstrip (fun c => bool_decide (c = " "%char)) s).
Definition nonempty (t : option string) : option string := t ≫= fun s => if str_isempty s then None else Some s.
Definition trimmed (k : string) (v : json) : option string := nonempty (btrim <$> text_of k v).
Definition object_of (k : string) (v : json) : option json := match field k v with Some (JDict d) => Some (JDict d) | _ => None end.

(** [nullif(t, '')::type] *)
Definition cast {A} (f : string -> option A) (name : string) (t : option string) : load (option A) :=
  match nonempty t with
  | None => mret None
  | Some s => match f s with Some x => mret (Some x) | None => raise_sql ("invalid input syntax for type " +:+ name) end
  end.
Definition opt_text (o : option json) (k : string) : option string := o ≫= text_of k.

(** What [load_record] reads of a record before it touches a table. *)
Record Loaded := {
  ll_key : product_key; ll_format : option string; ll_name : string; ll_url : string; ll_fetched_at : option Z; ll_price : option Num;
  ll_currency : option string; ll_price_text : option string; ll_vat_status : option string; ll_availability : option string;
  ll_unit_price : option Num; ll_unit_price_per : option string; ll_stock_quantity : option Z; ll_stock_kind : string;
  ll_quantity : option Num; ll_unit : option string; ll_sku : option string; ll_firing_range : option string;
}.

Definition formats : list string :=
  ["ceramics.catalogue_item.v1"; "ceramics.catalogue_identity.v1"; "ceramics.catalogue_item.v2"; "ceramics.catalogue_identity.v2"].
Definition stock_kinds : list string := ["exact"; "lower_bound"; "upper_bound"; "order_limit"; "unknown"].

(** The stock of a record, when its trends are kept. Source:
    catalogue-dump/storage/schema/catalogue-offer-stock-trends-v1.sql:127-145, load_record. *)
Definition stock_of (enabled : bool) (v : json) : load (option Z * string) :=
  if negb enabled then mret (None, "unknown")
  else
    quantity ← cast cast_bigint "bigint" (text_of "stock_quantity" v);
    let kind := str_lower (default (if is_some quantity then "exact" else "unknown") (trimmed "stock_quantity_kind" v)) in
    _ ← sql_check (bool_decide (kind ∈ stock_kinds)) ("unsupported_stock_quantity_kind: " +:+ kind);
    if bool_decide (kind = "unknown") then mret (None, kind)
    else _ ← sql_check (is_some quantity) ("stock_quantity_required_for_kind: " +:+ kind); mret (quantity, kind).

(** Source: catalogue-dump/storage/schema/catalogue-offer-stock-trends-v1.sql:63-164, load_record. *)
Definition read_record (stock_enabled : bool) (v : json) : load Loaded :=
  _ ← sql_check (match v with JDict _ => true | _ => false end) "catalogue_record_must_be_an_object";
  match trimmed "source" v, trimmed "external_id" v, trimmed "name" v, trimmed "product_url" v,
        text_of "source" v, text_of "external_id" v, text_of "name" v, text_of "product_url" v with
  | Some _, Some _, Some _, Some _, Some source, Some external_id, Some name, Some url =>
      let format := text_of "format" v in
      _ ← sql_check (match format with Some f => bool_decide (f ∈ formats) | None => true end) "unsupported_catalogue_record_format";
      fetched_at ← match text_of "fetched_at" v with
                   | None => mret None
                   | Some s => match cast_timestamp s with Some t => mret (Some t) | None => raise_sql "invalid input syntax for type timestamp" end
                   end;
      price ← cast cast_numeric "numeric" (text_of "price" v);
      let package := object_of "package_size" v in
      let unit_price := object_of "unit_price" v in
      let firing := object_of "firing" v in
      unit_price_value ← cast cast_numeric "numeric" (opt_text unit_price "value");
      let vat := str_lower <$> trimmed "vat_status" v in
      stock ← stock_of stock_enabled v;
      let is_v2 := match format with Some f => str_endswith ".v2" f | None => false end in
      quantity ← cast cast_numeric "numeric" (if is_v2 then opt_text package "value" else text_of "quantity" v);
      mret {| ll_key := (source, external_id); ll_format := format; ll_name := name; ll_url := url; ll_fetched_at := fetched_at;
              ll_price := price; ll_currency := str_upper <$> trimmed "currency" v; ll_price_text := trimmed "price_text" v;
              ll_vat_status := (fun s => if bool_decide (s ∈ ["inclusive"; "exclusive"; "unknown"]) then s else "unknown") <$> vat;
              ll_availability := trimmed "availability" v; ll_unit_price := unit_price_value;
              ll_unit_price_per := str_lower <$> nonempty (btrim <$> opt_text unit_price "per");
              ll_stock_quantity := fst stock; ll_stock_kind := snd stock; ll_quantity := quantity;
              ll_unit := str_lower <$> (if is_v2 then nonempty (btrim <$> opt_text package "unit") else trimmed "unit" v);
              ll_sku := if is_v2 then match trimmed "manufacturer_sku" v with Some s => Some s | None => trimmed "supplier_reference" v end
                        else trimmed "sku" v;
              ll_firing_range :=
                if is_v2 then nonempty (btrim <$> match opt_text firing "evidence" with
                  | Some e => Some e
                  | None => low ← opt_text firing "min_celsius"; high ← opt_text firing "max_celsius"; Some (low +:+ "-" +:+ high +:+ " C")
                  end)
                else trimmed "firing_range" v |}
  | _, _, _, _, _, _, _, _ => raise_sql "catalogue_record_missing_required_identity"
  end.

(** The attributes a column of its own does not hold. Source:
    catalogue-dump/storage/schema/catalogue-offer-stock-trends-v1.sql:183-188, load_record. *)
Definition attributes_of (v : json) : list (string * json) :=
  match v with
  | JDict d => filter (fun kv => bool_decide (kv.1 ∈
      ["format"; "source"; "external_id"; "parent_external_id"; "name"; "brand"; "sku"; "manufacturer_sku"; "supplier_reference";
       "family"; "description"; "firing_range"; "product_url"; "image_url"; "availability"; "price"; "currency"; "price_text";
       "vat_status"; "quantity"; "unit"; "fetched_at"; "raw"]) = false) d
  | _ => []
  end.

(** The row a record proposes. Source:
    catalogue-dump/storage/schema/catalogue-offer-stock-trends-v1.sql:169-189, load_record. *)
Definition proposed (v : json) (x : Loaded) (fetched_at : Z) (format : string) : ProductRow :=
  {| pr_parent := trimmed "parent_external_id" v; pr_format := format; pr_name := ll_name x; pr_brand := trimmed "brand" v; pr_sku := ll_sku x;
     pr_manufacturer_sku := trimmed "manufacturer_sku" v; pr_supplier_reference := trimmed "supplier_reference" v;
     pr_family := trimmed "family" v; pr_description := trimmed "description" v; pr_firing_range := ll_firing_range x;
     pr_product_url := ll_url x; pr_image_url := trimmed "image_url" v; pr_availability := ll_availability x;
     pr_first_seen := fetched_at; pr_last_seen := fetched_at; pr_active := true; pr_attributes := attributes_of v |}.

(** An older record changes only when the product was first seen, a price refresh
    leaves what it does not fetch. Source:
    catalogue-dump/storage/schema/catalogue-offer-stock-trends-v1.sql:190-223, load_record. *)
Definition merged (price_refresh : bool) (old new : ProductRow) : ProductRow :=
  let newer := pr_last_seen old <=? pr_last_seen new in
  let take {A} (f : ProductRow -> A) : A := if newer then f new else f old in
  let take_full {A} (f : ProductRow -> A) : A := if price_refresh || negb newer then f old else f new in
  {| pr_parent := take pr_parent; pr_format := take pr_format; pr_name := take pr_name; pr_brand := take pr_brand; pr_sku := take pr_sku;
     pr_manufacturer_sku := take pr_manufacturer_sku; pr_supplier_reference := take pr_supplier_reference;
     pr_family := take_full pr_family; pr_description := take_full pr_description; pr_firing_range := take_full pr_firing_range;
     pr_product_url := take pr_product_url; pr_image_url := take_full pr_image_url; pr_availability := take pr_availability;
     pr_first_seen := Z.min (pr_first_seen old) (pr_first_seen new); pr_last_seen := Z.max (pr_last_seen old) (pr_last_seen new);
     pr_active := if newer then true else pr_active old; pr_attributes := take_full pr_attributes |}.

(** [^[a-z0-9][a-z0-9-]*$] *)
Definition valid_source_id (s : string) : bool :=
  let ok c := is_lower c || is_digit c in
  match s with String c r => ok c && str_forall (fun c => ok c || bool_decide (c = "-"%char)) r | EmptyString => false end.

(** Source: catalogue-dump/storage/schema/catalogue-offer-stock-trends-v1.sql:166-223, load_record. *)
Definition write_product (v : json) (x : Loaded) (fetched_at : Z) (format : string) : load () :=
  let refresh := bool_decide (default "full" (text_of "collection_mode" v) = "price") in
  let row := proposed v x fetched_at format in
  _ ← sql_check (valid_source_id (ll_key x).1) "sources_id_check";
  modify (fun d => d
    <| cd_sources := match cd_sources d !! (ll_key x).1 with
         | Some _ => cd_sources d
         | None => <[(ll_key x).1 := {| so_label := None; so_homepage := None; so_metadata := [] |}]> (cd_sources d)
         end |>
    <| cd_products := <[ll_key x := match cd_products d !! ll_key x with Some old => merged refresh old row | None => row end]> (cd_products d) |>).

(** Source: catalogue-dump/storage/schema/catalogue-offer-stock-trends-v1.sql:227-240, load_record. *)
Definition write_raw (v : json) (x : Loaded) (fetched_at : Z) (run : option Z) : load Z := fun d =>
  let key := (ll_key x, record_digest (match v with JDict m => JDict (filter (fun kv => kv.1 <> "fetched_at") m) | _ => v end)) in
  match cd_raw d !! key with
  | Some old =>
      (Ok (rw_id old), d <| cd_raw := <[key :=
         {| rw_id := rw_id old; rw_import_run := match rw_import_run old with Some r => Some r | None => run end; rw_fetched_at := rw_fetched_at old;
            rw_first_seen := Z.min (rw_first_seen old) fetched_at; rw_last_seen := Z.max (rw_last_seen old) fetched_at;
            rw_record := rw_record old |}]> (cd_raw d) |>)
  | None =>
      (Ok (cd_next_id d), d <| cd_raw := <[key :=
         {| rw_id := cd_next_id d; rw_import_run := run; rw_fetched_at := fetched_at; rw_first_seen := fetched_at; rw_last_seen := fetched_at;
            rw_record := v |}]> (cd_raw d) |> <| cd_next_id := cd_next_id d + 1 |>)
  end.

(** The offer seen last: [order by observed_at desc, id desc limit 1]. Source:
    catalogue-dump/storage/schema/catalogue-offer-stock-trends-v1.sql:270-274, load_record. *)
Definition latest (l : list OfferRow) : option OfferRow :=
  foldl (fun best o => match best with Some b => if of_observed_at b <=? of_observed_at o then Some o else best | None => Some o end) None l.

(** What the table keeps of an offer, its checks passed. Source:
    catalogue-dump/storage/schema/catalogue-schema.sql:665-692, offer_observations. *)
Definition stored_context (c : OfferContext Num) : load (OfferContext Num) :=
  let numeric (n : Num) : load Num := match column n with Some m => mret m | None => raise_sql "numeric field overflow" end in
  let optional (n : option Num) : load (option Num) := match n with Some m => m ← numeric m; mret (Some m) | None => mret None end in
  price ← numeric (oc_price c); quantity ← optional (oc_quantity c); unit_price ← optional (oc_unit_price c);
  _ ← sql_check (not_negative price) "offer_observations_price_check";
  _ ← sql_check ((str_len (oc_currency c) =? 3) && str_forall is_upper (oc_currency c)) "offer_observations_currency_check";
  _ ← sql_check (match quantity with Some q => positive q | None => true end) "offer_observations_quantity_check";
  _ ← sql_check (match oc_unit_price_per c with Some p => bool_decide (p ∈ ["l"; "kg"]) | None => true end) "offer_observations_unit_price_per_check";
  _ ← sql_check (match oc_stock_quantity c with Some n => 0 <=? n | None => true end) "offer_observations_stock_quantity_check";
  mret {| oc_price := price; oc_currency := oc_currency c; oc_price_text := oc_price_text c; oc_vat_status := oc_vat_status c;
          oc_quantity := quantity; oc_unit := oc_unit c; oc_unit_price := unit_price; oc_unit_price_per := oc_unit_price_per c;
          oc_availability := oc_availability c; oc_stock_quantity := oc_stock_quantity c; oc_stock_kind := oc_stock_kind c |}.

Definition offers_of (key : product_key) (d : CatalogueDb) : list OfferRow := default [] (cd_offers d !! key).
(** Source: catalogue-dump/storage/schema/catalogue-offer-stock-trends-v1.sql:278-289, load_record. *)
Definition insert_offer (key : product_key) (raw : Z) (fetched_at : Z) (c : OfferContext Num) (v : json) : load () :=
  stored ← stored_context c;
  let attributes := default (JDict []) (field "raw" v) in
  _ ← sql_check (match attributes with JDict _ => true | _ => false end) "offer_observations_attributes_check";
  modify (fun d => d <| cd_offers := <[key := offers_of key d ++
      [{| of_id := cd_next_id d; of_raw := raw; of_observed_at := fetched_at; of_last_seen := fetched_at; of_context := stored;
          of_digest := context_digest c; of_attributes := attributes |}]]> (cd_offers d) |> <| cd_next_id := cd_next_id d + 1 |>).

(** An offer observed then in that context. Source:
    catalogue-dump/storage/schema/catalogue-offer-stock-trends-v1.sql:263-267, load_record. *)
Definition same_offer (t : Z) (c : OfferContext Num) (o : OfferRow) : bool := (of_observed_at o =? t) && bool_decide (of_digest o = context_digest c).

(** A price seen again extends the offer, another one begins the next, one older than
    the latest is set aside. Source:
    catalogue-dump/storage/schema/catalogue-offer-stock-trends-v1.sql:242-325, load_record. *)
Definition write_offer (v : json) (x : Loaded) (fetched_at raw : Z) (price : Num) : load () :=
  let key := ll_key x in
  match ll_currency x with
  | None => raise_sql "priced_catalogue_record_requires_currency"
  | Some currency =>
      _ ← sql_check (Bool.eqb (is_some (ll_quantity x)) (is_some (ll_unit x))) "catalogue_quantity_and_unit_must_be_paired";
      let c := {| oc_price := price; oc_currency := currency; oc_price_text := ll_price_text x; oc_vat_status := ll_vat_status x;
                  oc_quantity := ll_quantity x; oc_unit := ll_unit x; oc_unit_price := ll_unit_price x;
                  oc_unit_price_per := ll_unit_price_per x; oc_availability := ll_availability x;
                  oc_stock_quantity := ll_stock_quantity x; oc_stock_kind := ll_stock_kind x |} in
      offers ← gets (offers_of key);
      if existsb (same_offer fetched_at c) offers then mret ()
      else match latest offers with
           | None => insert_offer key raw fetched_at c v
           | Some last =>
               if fetched_at <? of_observed_at last then
                 modify (fun d => match cd_out_of_order d !! (key, fetched_at, context_digest c) with
                   | Some _ => d
                   | None => d <| cd_out_of_order := <[(key, fetched_at, context_digest c) := {| oo_raw := raw; oo_record := v |}]> (cd_out_of_order d) |>
                   end)
               else if bool_decide (of_context last = c) then
                 modify (fun d => d <| cd_offers := <[key := (fun o =>
                   if of_id o =? of_id last
                   then {| of_id := of_id o; of_raw := of_raw o; of_observed_at := of_observed_at o; of_last_seen := Z.max (of_last_seen o) fetched_at;
                           of_context := of_context o; of_digest := of_digest o; of_attributes := of_attributes o |}
                   else o) <$> offers]> (cd_offers d) |>)
               else insert_offer key raw fetched_at c v
           end
  end.

(** Source: catalogue-dump/storage/schema/catalogue-offer-stock-trends-v1.sql:99-328, load_record. *)
Definition load_record (stock_enabled : bool) (run : option Z) (v : json) : load product_key :=
  x ← read_record stock_enabled v;
  match ll_fetched_at x, ll_format x with
  | Some fetched_at, Some format =>
      _ ← write_product v x fetched_at format;
      raw ← write_raw v x fetched_at run;
      _ ← match ll_price x with Some price => write_offer v x fetched_at raw price | None => mret () end;
      mret (ll_key x)
  | _, _ => raise_sql "null value violates not-null constraint"
  end.

(** ** One source *)

(** Rows of [import_staging]: line number and record. *)
Definition staging : Type := list (Z * json).

(** Source: catalogue-dump/storage/postgres.py:85-85, REJECT_SAMPLE. *)
Definition REJECT_SAMPLE : nat := 5.

(** The first line of a database error. Source: catalogue-dump/storage/postgres.py, _reason. *)
Definition reason (message : string) : string :=
  let text := str_strip message in
  if str_isempty text then "Error" else (str_partition (ascii_of_nat 10) text).1.1.

(** [LOAD]: one statement for every row. Source: catalogue-dump/storage/postgres.py:62-66, LOAD. *)
Fixpoint load_all (stock_enabled : bool) (run : option Z) (staged : staging) : load () :=
  match staged with
  | [] => mret ()
  | (_, v) :: rest => _ ← load_record stock_enabled run v; load_all stock_enabled run rest
  end.

(** The rows one at a time, each under its savepoint: what was rejected, and why.
    Source: catalogue-dump/storage/postgres.py:338-346, _load_staged. *)
Fixpoint load_each (stock_enabled : bool) (run : option Z) (staged : staging) (report : Z * list string) : load (Z * list string) :=
  match staged with
  | [] => mret report
  | (line, v) :: rest =>
      outcome ← catch (_ ← atomically (load_record stock_enabled run v); mret None) (fun e => mret (Some e));
      match outcome with
      | None => load_each stock_enabled run rest report
      | Some (DbError message) =>
          load_each stock_enabled run rest
            (fst report + 1, if (length (snd report) <? REJECT_SAMPLE)%nat
                             then snd report ++ ["line " +:+ pretty line +:+ ": " +:+ reason message] else snd report)
      | Some e => throw e
      end
  end.

(** Source: catalogue-dump/storage/postgres.py, _load_staged. *)
Definition load_staged (stock_enabled : bool) (run : option Z) (staged : staging) : load (Z * list string) :=
  refused ← catch (_ ← atomically (load_all stock_enabled run staged); mret None) (fun e => mret (Some e));
  match refused with
  | None => mret (0, [])
  | Some (DbError _) => load_each stock_enabled run staged (0, [])
  | Some e => throw e
  end.

(** [not exists]: what the staged rows list. Source: catalogue-dump/storage/postgres.py:92-95, RETIRE. *)
Definition listed (staged : staging) (external_id : string) : bool :=
  existsb (fun row => bool_decide (text_of "external_id" (snd row) = Some external_id)) staged.
(** Source: catalogue-dump/storage/postgres.py:90-95, RETIRE. *)
Definition withdrawn (source : string) (staged : staging) (k : product_key) (p : ProductRow) : bool :=
  bool_decide (k.1 = source) && pr_active p && negb (listed staged k.2).
(** [set active = false] *)
Definition deactivated (p : ProductRow) : ProductRow :=
  {| pr_parent := pr_parent p; pr_format := pr_format p; pr_name := pr_name p; pr_brand := pr_brand p; pr_sku := pr_sku p;
     pr_manufacturer_sku := pr_manufacturer_sku p; pr_supplier_reference := pr_supplier_reference p; pr_family := pr_family p;
     pr_description := pr_description p; pr_firing_range := pr_firing_range p; pr_product_url := pr_product_url p; pr_image_url := pr_image_url p;
     pr_availability := pr_availability p; pr_first_seen := pr_first_seen p; pr_last_seen := pr_last_seen p; pr_active := false;
     pr_attributes := pr_attributes p |}.

(** The number of products retired. Source: catalogue-dump/storage/postgres.py:87-96, RETIRE. *)
Definition retire (source : string) (staged : staging) : load Z := fun d =>
  (Ok (Z.of_nat (length (filter (fun p => withdrawn source staged p.1 p.2 = true) (map_to_list (cd_products d))))),
   d <| cd_products := map_imap (fun k p => Some (if withdrawn source staged k p then deactivated p else p)) (cd_products d) |>).

(** Source: catalogue-dump/storage/postgres.py, SourceReport. *)
Record SourceReport := {
  sp_source : string; sp_records : Z; sp_retired : Z; sp_error : option string; sp_rejected : Z; sp_rejects : list string;
}.

(** What [jsonb] accepts: no infinite or undefined number, no zero character. *)
Fixpoint jsonb_valid (v : json) : bool :=
  let text s := negb (str_has (ascii_of_nat 0) s) in
  match v with
  | JFloat (FFinite _ _) => true | JFloat _ => false
  | JStr s => text s
  | JList l => forallb jsonb_valid l
  | JDict d => forallb (fun kv => text kv.1 && jsonb_valid kv.2) d
  | _ => true
  end.

Fixpoint numbered (line : Z) (records : list json) : staging :=
  match records with [] => [] | v :: rest => (line, v) :: numbered (line + 1) rest end.

(** [records]: what the generator yields, or raises. Lines are numbered on from
    [first_line], the identity of the staging table. Source:
    catalogue-dump/storage/postgres.py, load_source. *)
Definition load_source (stock_enabled : bool) (run : option Z) (first_line : Z) (source : string) (records : result load_exn (list json)) (whole : bool)
    : load SourceReport := atomically (
  records ← lift records;
  _ ← sql_check (forallb jsonb_valid records) "invalid input syntax for type json";
  let staged := numbered first_line records in
  rejections ← load_staged stock_enabled run staged;
  retired ← (if (whole : bool) then retire source staged else mret 0);
  mret {| sp_source := source; sp_records := Z.of_nat (length records); sp_retired := retired; sp_error := None;
          sp_rejected := fst rejections; sp_rejects := snd rejections |}).

(** ** A whole dump *)

(** What sources.json says of a source. *)
Record SourceConfig := { sc_label : option string; sc_url : option string; sc_country : option json; sc_scope : option json }.

Definition when_true (k : string) (v : option json) : list (string * json) :=
  match v with Some j => if truthy j then [(k, j)] else [] | None => [] end.

(** Source: catalogue-dump/storage/postgres.py:103-113, DESCRIBE. *)
Definition describe_source (id : string) (config : SourceConfig) : load () :=
  let not_blank (t : option string) := match t with Some s => negb (str_isempty (btrim s)) | None => true end in
  let metadata := when_true "country" (sc_country config) ++ when_true "scope" (sc_scope config) in
  _ ← sql_check (valid_source_id id) "sources_id_check";
  _ ← sql_check (not_blank (sc_label config)) "sources_label_check";
  _ ← sql_check (not_blank (sc_url config)) "sources_homepage_url_check";
  modify (fun d => d <| cd_sources := <[id := match cd_sources d !! id with
    | Some old => {| so_label := match sc_label config with Some l => Some l | None => so_label old end;
                     so_homepage := match sc_url config with Some u => Some u | None => so_homepage old end;
                     so_metadata := dict_update (so_metadata old) metadata |}
    | None => {| so_label := sc_label config; so_homepage := sc_url config; so_metadata := metadata |}
    end]> (cd_sources d) |>).

(** [sources] in the order of their names. Source: catalogue-dump/storage/postgres.py, describe_sources. *)
Fixpoint describe_sources (sources : list (string * SourceConfig)) (only : option (list string)) : load Z :=
  match sources with
  | [] => mret 0
  | (id, config) :: rest =>
      if match only with Some l => bool_decide (id ∉ l) | None => false end then describe_sources rest only
      else _ ← describe_source id config; n ← describe_sources rest only; mret (n + 1)
  end.

(** Source: catalogue-dump/storage/postgres.py, LoadReport. *)
Record LoadReport := { lr_run : Z; lr_sources : list SourceReport; lr_products : Z; lr_offers : Z; lr_identities : Z }.
Definition report_ok (r : SourceReport) : bool := is_none (sp_error r).
Definition failures (l : list SourceReport) : list SourceReport := filter (fun r => report_ok r = false) l.
Definition loaded_records (l : list SourceReport) : Z := foldr (fun r n => sp_records r + n) 0 (filter (fun r => report_ok r = true) l).

(** One planned source; a failure is recorded and stepped over. Source:
    catalogue-dump/storage/postgres.py:502-520, load_dump. *)
Definition load_plan (read : string -> result load_exn (list json)) (stock_enabled keep_stale : bool) (run first_line : Z) (plan : Load) : load SourceReport :=
  catch (load_source stock_enabled (Some run) first_line (ld_source plan) (read (ld_path plan)) (ld_whole plan && negb keep_stale))
    (fun e => let text := str_strip match e with DbError m => m | JsonDecode m => m end in
       mret {| sp_source := ld_source plan; sp_records := 0; sp_retired := 0;
               sp_error := Some (str_take 500 (if str_isempty text then "unknown error" else (str_partition (ascii_of_nat 10) text).1.1));
               sp_rejected := 0; sp_rejects := [] |}).
(** [first_line i]: where the staging table's identity stands at the [i]th source;
    truncating the table does not restart it. Source: catalogue-dump/storage/postgres.py:501-520, load_dump. *)
Fixpoint load_plans (read : string -> result load_exn (list json)) (stock_enabled keep_stale : bool) (run : Z) (first_line : nat -> Z) (plans : list Load) : load (list SourceReport) :=
  match plans with
  | [] => mret []
  | plan :: rest => r ← load_plan read stock_enabled keep_stale run (first_line 0%nat) plan;
      l ← load_plans read stock_enabled keep_stale run (fun i => first_line (S i)) rest; mret (r :: l)
  end.

(** Source: catalogue-dump/storage/postgres.py, load_dump. *)
Definition load_dump (read : string -> result load_exn (list json)) (plans : list Load) (sources : list (string * SourceConfig)) (described : list string)
    (first_line : nat -> Z) (keep_stale stock_enabled : bool) : load LoadReport :=
  run ← gets cd_next_id;
  _ ← modify (fun d => d <| cd_imports := <[run := {| ir_status := "running"; ir_record_count := 0 |}]> (cd_imports d) |> <| cd_next_id := run + 1 |>);
  _ ← describe_sources sources (Some described);
  reports ← load_plans read stock_enabled keep_stale run first_line plans;
  _ ← modify (fun d => d <| cd_imports := <[run :=
        {| ir_status := if bool_decide (failures reports = []) then "complete" else "failed"; ir_record_count := loaded_records reports |}]> (cd_imports d) |>);
  d ← gets id;
  mret {| lr_run := run; lr_sources := reports; lr_products := Z.of_nat (size (cd_products d));
          lr_offers := map_sum ((fun l => Z.of_nat (length l)) <$> cd_offers d);
          lr_identities := Z.of_nat (length (filter (fun p => str_contains "identity" (pr_format p.2) = true) (map_to_list (cd_products d)))) |}.
End loading.
