(* ===== verification/LoadingProperties.v ===== *)
(** What loading a dump guarantees: the fast statement is the same as one record at a
    time, a load retires exactly the products its dump did not list, loading a record
    again changes nothing, and only a file known to be whole may retire. *)
From S2P Require Export Loading.
Open Scope Z_scope.

Section properties.
Context `{P : Postgres}.

(** * Loading a record *)

(** A computation that only raises errors of the database. *)
Definition sql_only {A} (m : eff CatalogueDb load_exn A) : Prop := forall d e d', m d = (Err e, d') -> exists message, e = DbError message.
Lemma sql_only_bind {A B} (m : eff CatalogueDb load_exn A) (k : A -> eff CatalogueDb load_exn B) : sql_only m -> (forall a, sql_only (k a)) -> sql_only (m ≫= k).
Proof.
intros Hm Hk d e d' H. unfold mbind, eff_bind in H. destruct (m d) as [[a|e'] d1] eqn:E; [by eapply Hk|]. injection H as -> ->. by eapply Hm.
Qed.
Lemma sql_only_ret {A} (a : A) : sql_only (mret a).
Proof. by intros d e d' [=]. Qed.
Lemma sql_only_raise {A} s : sql_only (raise_sql s : eff CatalogueDb load_exn A).
Proof. intros d e d' [= <- _]. by eexists. Qed.
Lemma sql_only_check b s : sql_only (sql_check b s : eff CatalogueDb load_exn ()).
Proof. destruct b; [apply sql_only_ret|apply sql_only_raise]. Qed.
Lemma sql_only_modify (f : CatalogueDb -> CatalogueDb) : sql_only (modify f).
Proof. by intros d e d' [=]. Qed.
Lemma sql_only_gets {A} (f : CatalogueDb -> A) : sql_only (gets f).
Proof. by intros d e d' [=]. Qed.
Lemma sql_only_cast {A} (f : string -> option A) n t : sql_only (cast f n t : eff CatalogueDb load_exn (option A)).
Proof. unfold cast. destruct (nonempty t); [|apply sql_only_ret]. destruct (f _); [apply sql_only_ret|apply sql_only_raise]. Qed.
Lemma sql_only_write_raw v x t run : sql_only (write_raw v x t run).
Proof. intros d e d'. unfold write_raw. by destruct (cd_raw d !! _). Qed.
Ltac sql := repeat first
  [ lazymatch goal with |- forall _, _ => intro end | apply sql_only_write_raw | apply sql_only_bind | apply sql_only_ret | apply sql_only_raise | apply sql_only_check | apply sql_only_modify
  | apply sql_only_gets | apply sql_only_cast | case_match ].
Lemma load_record_sql enabled run v : sql_only (load_record enabled run v).
Proof.
unfold load_record, read_record, stock_of, write_product, write_offer, insert_offer, stored_context. sql.
Qed.

(** ** What it does to the products *)

(** A product stays, and stays for sale if it was. *)
Definition still_sold (d d' : CatalogueDb) : Prop :=
  (forall k p, cd_products d !! k = Some p -> exists p', cd_products d' !! k = Some p' /\ (pr_active p = true -> pr_active p' = true))
  /\ (forall k p', cd_products d' !! k = Some p' -> pr_active p' = false -> exists p, cd_products d !! k = Some p /\ pr_active p = false).
Lemma still_sold_refl d : still_sold d d.
Proof. split; [intros k p Hp; by exists p|intros k p Hp Ha; by exists p]. Qed.
Lemma still_sold_trans d1 d2 d3 : still_sold d1 d2 -> still_sold d2 d3 -> still_sold d1 d3.
Proof.
intros [A1 B1] [A2 B2]. split.
- intros k p Hp. destruct (A1 k p Hp) as (p2 & H2 & E2). destruct (A2 k p2 H2) as (p3 & H3 & E3). exists p3. auto.
- intros k p Hp Ha. destruct (B2 k p Hp Ha) as (p2 & H2 & E2). by apply (B1 k p2).
Qed.
Lemma still_sold_same d d' : cd_products d' = cd_products d -> still_sold d d'.
Proof. intros E. unfold still_sold. rewrite E. apply still_sold_refl. Qed.

Definition sells {A} (m : eff CatalogueDb load_exn A) : Prop := forall d, still_sold d (m d).2.
Lemma sells_bind {A B} (m : eff CatalogueDb load_exn A) (k : A -> eff CatalogueDb load_exn B) : sells m -> (forall a, sells (k a)) -> sells (m ≫= k).
Proof.
intros Hm Hk d. unfold mbind, eff_bind. specialize (Hm d). destruct (m d) as [[a|e] d1]; [|done]. eapply still_sold_trans; [exact Hm|apply Hk].
Qed.

(** A computation that leaves what [f] reads alone. *)
Definition spares {T A} (f : CatalogueDb -> T) (m : eff CatalogueDb load_exn A) : Prop := forall d, f (m d).2 = f d.
Lemma sells_spares {A} (m : eff CatalogueDb load_exn A) : spares cd_products m -> sells m.
Proof. intros E d. by apply still_sold_same. Qed.
Section spares.
Context {T : Type} (f : CatalogueDb -> T).
Lemma spares_bind {A B} (m : eff CatalogueDb load_exn A) (k : A -> eff CatalogueDb load_exn B) : spares f m -> (forall a, spares f (k a)) -> spares f (m ≫= k).
Proof. intros Hm Hk d. unfold mbind, eff_bind. specialize (Hm d). destruct (m d) as [[a|e] d1]; [|done]. by rewrite (Hk a d1). Qed.
Lemma spares_ret {A} (a : A) : spares f (mret a).
Proof. done. Qed.
Lemma spares_raise {A} s : spares f (raise_sql s : eff CatalogueDb load_exn A).
Proof. done. Qed.
Lemma spares_check b s : spares f (sql_check b s).
Proof. by destruct b. Qed.
Lemma spares_gets {A} (g : CatalogueDb -> A) : spares f (gets g).
Proof. done. Qed.
Lemma spares_modify (g : CatalogueDb -> CatalogueDb) : (forall d, f (g d) = f d) -> spares f (modify g).
Proof. intros E d. apply E. Qed.
Lemma spares_cast {A} (c : string -> option A) n t : spares f (cast c n t).
Proof. unfold cast. destruct (nonempty t); [|done]. by destruct (c _). Qed.
End spares.
Lemma spares_via {T U A} (f : CatalogueDb -> T) (g : T -> U) (m : eff CatalogueDb load_exn A) : spares f m -> spares (fun d => g (f d)) m.
Proof. intros E d. f_equal. apply E. Qed.
Ltac spare := repeat (lazymatch goal with
  | |- forall _, _ => intro
  | |- spares _ (_ ≫= _) => apply spares_bind
  | |- spares _ (mret _) => apply spares_ret
  | |- spares _ (raise_sql _) => apply spares_raise
  | |- spares _ (sql_check _ _) => apply spares_check
  | |- spares _ (gets _) => apply spares_gets
  | |- spares _ (cast _ _ _) => apply spares_cast
  | |- spares _ (modify _) => apply spares_modify; done
  | |- spares _ (let _ := _ in _) => cbv zeta
  | |- spares _ (match ?x with _ => _ end) => destruct x
  | |- spares _ ((fun _ => _) _) => cbv beta
  end).
Lemma read_record_spares {T} (f : CatalogueDb -> T) enabled v : spares f (read_record enabled v).
Proof. unfold read_record, stock_of. spare. Qed.
Lemma read_record_state enabled v d : (read_record enabled v d).2 = d.
Proof. apply (read_record_spares id). Qed.
Lemma stored_context_state c d : (stored_context c d).2 = d.
Proof. apply (fun H => H : spares id (stored_context c)). unfold stored_context. spare. Qed.

(** The tables a price does not touch, and those a raw record does not. *)
Definition filed (d : CatalogueDb) := (cd_sources d, cd_products d, cd_raw d).
Definition known (d : CatalogueDb) := (cd_sources d, cd_products d).
Lemma write_raw_spares v x t run : spares known (write_raw v x t run).
Proof. intros d. unfold write_raw. by destruct (cd_raw d !! _). Qed.
Lemma insert_offer_spares k raw t c v : spares filed (insert_offer k raw t c v).
Proof. unfold insert_offer, stored_context. spare. Qed.
Lemma write_offer_spares v x t raw price : spares filed (write_offer v x t raw price).
Proof.
unfold write_offer. destruct (ll_currency x); [|apply spares_raise]. apply spares_bind; [apply spares_check|intros _].
apply spares_bind; [apply spares_gets|intros offers]. destruct (existsb _ _); [apply spares_ret|].
destruct (latest offers) as [last|]; [|apply insert_offer_spares]. destruct (_ <? _); [|destruct (bool_decide _); [|apply insert_offer_spares]].
- apply spares_modify. intros d. by destruct (cd_out_of_order d !! _).
- by apply spares_modify.
Qed.
(** After its row is written, a record touches the products no more. *)
Lemma spares_offers v x t run :
  spares cd_products (raw ← write_raw v x t run; _ ← match ll_price x with Some price => write_offer v x t raw price | None => mret () end; mret (ll_key x)).
Proof.
apply spares_bind; [apply (spares_via known snd), write_raw_spares|intros raw]. apply spares_bind; [|done].
destruct (ll_price x); [apply (spares_via filed (fun f => f.1.2)), write_offer_spares|done].
Qed.

Lemma merged_active refresh old new : pr_active old = true -> pr_active (merged refresh old new) = true.
Proof. simpl. by destruct (_ <=? _). Qed.
Lemma merged_inactive refresh old new : pr_active (merged refresh old new) = false -> pr_active old = false.
Proof. simpl. by destruct (_ <=? _). Qed.
Lemma sells_write_product v x t f : sells (write_product v x t f).
Proof.
unfold write_product. apply sells_bind; [apply sells_spares, spares_check|]. intros [] d. simpl. split.
- intros k p Hp. simpl. destruct (decide (k = ll_key x)) as [->|Hn]; [rewrite lookup_insert_eq, Hp; eexists; split; [done|apply merged_active]|].
  rewrite lookup_insert_ne by done. by exists p.
- intros k p' Hp Ha. simpl in Hp. destruct (decide (k = ll_key x)) as [->|Hn]; [rewrite lookup_insert_eq in Hp|rewrite lookup_insert_ne in Hp by done; by exists p'].
  injection Hp as <-. destruct (cd_products d !! ll_key x) as [old|]; [|done]. exists old. split; [done|by apply merged_inactive in Ha].
Qed.
Lemma sells_load_record enabled run v : sells (load_record enabled run v).
Proof.
unfold load_record. apply sells_bind; [apply sells_spares, read_record_spares|intros x]. destruct (ll_fetched_at x), (ll_format x); try by apply sells_spares.
apply sells_bind; [apply sells_write_product|intros _]. apply sells_spares, spares_offers.
Qed.
Lemma sells_atomically {A} (m : eff CatalogueDb load_exn A) : sells m -> sells (atomically m).
Proof. intros Hm d. unfold atomically. specialize (Hm d). destruct (m d) as [[a|e] d1]; [done|apply still_sold_refl]. Qed.
Lemma sells_catch {A} (m : eff CatalogueDb load_exn A) h : sells m -> (forall e, sells (h e)) -> sells (catch m h).
Proof. intros Hm Hh d. unfold catch. specialize (Hm d). destruct (m d) as [[a|e] d1]; [done|]. eapply still_sold_trans; [exact Hm|apply Hh]. Qed.

(** * The fast path *)

Lemma load_all_sql enabled run staged : sql_only (load_all enabled run staged).
Proof. induction staged as [|[line v] rest IH]; simpl; [apply sql_only_ret|]. apply sql_only_bind; [apply load_record_sql|done]. Qed.
Lemma load_each_rejects_nothing enabled run staged report d d' : load_all enabled run staged d = (Ok (), d') -> load_each enabled run staged report d = (Ok report, d').
Proof.
revert d. induction staged as [|[line v] rest IH]; intros d; simpl; [by intros [= <-]|]. unfold mbind, eff_bind, catch, atomically.
destruct (load_record enabled run v d) as [[k|e] d1]; [|done]. apply IH.
Qed.

Lemma fast_path_row_by_row enabled run staged d : load_staged enabled run staged d = load_each enabled run staged (0, []) d.
Proof.
unfold load_staged, mbind, eff_bind, catch, atomically. destruct (load_all enabled run staged d) as [[[]|e] d'] eqn:E.
- symmetry. by apply load_each_rejects_nothing.
- destruct (load_all_sql _ _ _ _ _ _ E) as [message ->]. done.
Qed.
(** C19. The statement that loads every staged row at once, with the fall-back to one row
    at a time when the database refuses it, does exactly what loading one row at a time
    under a savepoint does: the same tables, the same rejections. *)
Theorem fast_path_is_row_by_row enabled run staged : forall d, load_staged enabled run staged d = load_each enabled run staged (0, []) d.
Proof. apply fast_path_row_by_row. Qed.

(** * Retirement *)

Lemma sells_load_each enabled run staged report : sells (load_each enabled run staged report).
Proof.
revert report. induction staged as [|[line v] rest IH]; intros report; simpl; [by apply sells_spares|]. apply sells_bind.
- apply sells_catch; [|intros; by apply sells_spares]. apply sells_bind; [apply sells_atomically, sells_load_record|intros; by apply sells_spares].
- intros [[message|message]|]; [apply IH|by apply sells_spares|apply IH].
Qed.
Lemma sells_load_staged enabled run staged : sells (load_staged enabled run staged).
Proof. intros d. rewrite fast_path_row_by_row. apply sells_load_each. Qed.

(** A record is filed under the external id it gives. *)
Lemma read_record_returns enabled v : returns (fun x => text_of "external_id" v = Some (ll_key x).2) (read_record enabled v).
Proof.
unfold read_record. apply returns_then. intros _. do 4 (case_match; [|apply returns_throw]).
destruct (text_of "source" v); [|apply returns_throw]. destruct (text_of "external_id" v) eqn:E; [|apply returns_throw].
do 2 (case_match; [|apply returns_throw]). repeat (apply returns_then; intro). by apply returns_ret.
Qed.
Lemma read_record_key enabled v d x d' : read_record enabled v d = (Ok x, d') -> text_of "external_id" v = Some (ll_key x).2.
Proof. intros E. pose proof (read_record_returns enabled v d) as R. by rewrite E in R. Qed.
Lemma load_record_elsewhere enabled run v d k : text_of "external_id" v <> Some k.2 -> cd_products (load_record enabled run v d).2 !! k = cd_products d !! k.
Proof.
intros Hk. unfold load_record. unfold mbind at 1, eff_bind at 1. pose proof (read_record_spares cd_products enabled v d) as E.
destruct (read_record enabled v d) as [[x|e] d1] eqn:R; simpl in E; [|by simpl; rewrite E]. apply read_record_key in R.
rewrite <- E. destruct (ll_fetched_at x), (ll_format x); try done. unfold mbind at 1, eff_bind at 1.
assert (W : forall t f, cd_products (write_product v x t f d1).2 !! k = cd_products d1 !! k).
{ intros t f. unfold write_product, mbind, eff_bind. destruct (valid_source_id _); [simpl|done]. apply lookup_insert_ne. naive_solver. }
specialize (W z s). destruct (write_product v x z s d1) as [[[]|e] d2]; [|done]. by rewrite (spares_offers v x z run d2).
Qed.
Lemma load_each_elsewhere enabled run staged report d k : listed staged k.2 = false -> cd_products (load_each enabled run staged report d).2 !! k = cd_products d !! k.
Proof.
revert report d. induction staged as [|[line v] rest IH]; intros report d Hl; simpl; [done|]. simpl in Hl. apply orb_false_iff in Hl as [Hv Hr].
apply bool_decide_eq_false in Hv. pose proof (load_record_elsewhere enabled run v d k Hv) as E. unfold mbind, eff_bind, catch, atomically.
destruct (load_record enabled run v d) as [[r|[message|message]] d1]; simpl in *; [by rewrite IH|by apply IH|done].
Qed.

Definition products_for_sale (source : string) (staged : staging) (d : CatalogueDb) : list (product_key * ProductRow) :=
  filter (fun p => withdrawn source staged p.1 p.2 = true) (map_to_list (cd_products d)).
(** Only what the dump did not list is asked for, so the load of the listed makes no
    difference to it. *)
Lemma withdrawn_elsewhere source staged d d1 :
  (forall k, listed staged k.2 = false -> cd_products d1 !! k = cd_products d !! k) ->
  filter (fun kp => withdrawn source staged kp.1 kp.2 = true) (cd_products d1)
  = filter (fun kp => withdrawn source staged kp.1 kp.2 = true) (cd_products d).
Proof.
intros E. apply map_eq. intros k. apply option_eq. intros p. rewrite !map_lookup_filter_Some. simpl.
destruct (listed staged k.2) eqn:L; [|by rewrite E]. unfold withdrawn. rewrite L. simpl. rewrite !andb_false_r. naive_solver.
Qed.
Lemma length_products_for_sale source staged d :
  length (products_for_sale source staged d) = size (filter (fun kp => withdrawn source staged kp.1 kp.2 = true) (cd_products d)).
Proof.
unfold products_for_sale. rewrite <- length_map_to_list. apply Permutation_length. apply NoDup_Permutation.
- apply NoDup_filter, NoDup_map_to_list.
- apply NoDup_map_to_list.
- intros [k p]. rewrite list_elem_of_filter, 2!elem_of_map_to_list, map_lookup_filter_Some. simpl. tauto.
Qed.
Lemma deactivated_inactive p : pr_active p = false -> deactivated p = p.
Proof. destruct p. simpl. by intros ->. Qed.

(** C11. A load either changes nothing and raises, or leaves every product its dump did not
    list as it was - retired if the dump is whole and the product is the source's - and
    keeps for sale whatever was and is listed, the rejected records included. What it
    reports retired is the number of products for sale of the source that were not
    listed, and none if the dump is not whole. *)
Theorem a_load_retires_what_it_did_not_list enabled run line source records whole d :
  match load_source enabled run line source records whole d with
  | (Err _, d') => d' = d
  | (Ok report, d') => exists l, records = Ok l /\
      let staged := numbered line l in
      (forall k, listed staged k.2 = false -> cd_products d' !! k =
         (fun p => if (whole : bool) && bool_decide (k.1 = source) then deactivated p else p) <$> cd_products d !! k)
      /\ (forall k p, listed staged k.2 = true -> cd_products d !! k = Some p ->
           exists p', cd_products d' !! k = Some p' /\ (pr_active p = true -> pr_active p' = true))
      /\ (forall k p', listed staged k.2 = true -> cd_products d' !! k = Some p' -> pr_active p' = false ->
           exists p, cd_products d !! k = Some p /\ pr_active p = false)
      /\ sp_retired report = (if whole then Z.of_nat (length (products_for_sale source staged d)) else 0)
  end.
Proof.
destruct (load_source enabled run line source records whole d) as [[report|e] d'] eqn:E; [|by apply atomically_Err in E].
apply atomically_Ok in E. destruct records as [l|]; [|done]. exists l. split; [done|]. intros staged. unfold lift in E.
apply bind_inv in E as (? & ? & [= <- <-] & E). apply bind_inv in E as ([] & d0 & E0 & E). destruct (forallb jsonb_valid l); [injection E0 as <-|done].
apply bind_inv in E as (rejections & d1 & E1 & E). fold staged in E1.
pose proof (sells_load_staged enabled run staged d) as [Hsold Hinactive]. rewrite E1 in Hsold, Hinactive. simpl in Hsold, Hinactive.
assert (Hframe : forall k, listed staged k.2 = false -> cd_products d1 !! k = cd_products d !! k).
{ intros k Hk. pose proof (load_each_elsewhere enabled run staged (0, []) d k Hk) as F. by rewrite <- fast_path_row_by_row, E1 in F. }
destruct whole.
2: { injection E as <- <-. split; [|repeat split; [intros k p _; apply Hsold|intros k p _; apply Hinactive]].
     intros k Hk. rewrite Hframe by done. by destruct (cd_products d !! k). }
apply bind_inv in E as (n & d2 & [= <- <-] & [= <- <-]). fold staged. simpl. repeat split.
- intros k Hk. rewrite map_lookup_imap, Hframe by done. destruct (cd_products d !! k) as [p|]; [simpl|done]. unfold withdrawn. rewrite Hk, andb_true_r.
  destruct (bool_decide (k.1 = source)); [|done]. simpl. destruct (pr_active p) eqn:A; [done|]. by rewrite deactivated_inactive.
- intros k p Hk Hp. destruct (Hsold k p Hp) as (p' & Q & A). exists p'. split; [|done]. simpl. rewrite map_lookup_imap. setoid_rewrite Q. simpl. unfold withdrawn. by rewrite Hk, andb_false_r.
- intros k p' Hk. rewrite map_lookup_imap. destruct (cd_products d1 !! k) as [q|] eqn:Q; [simpl|done]. unfold withdrawn. rewrite Hk, andb_false_r. intros [= ->]. by apply Hinactive.
- fold (products_for_sale source staged d1). by rewrite !length_products_for_sale, (withdrawn_elsewhere source staged d d1).
Qed.

(** * Loading again *)

(** A reading of the record alone gives the same whatever the tables hold. *)
Definition settled {A} (m : eff CatalogueDb load_exn A) : Prop := exists r, forall d, m d = (r, d).
Lemma settled_bind {A B} (m : eff CatalogueDb load_exn A) (k : A -> eff CatalogueDb load_exn B) : settled m -> (forall a, settled (k a)) -> settled (m ≫= k).
Proof.
intros [[a|e] Hm] Hk; [destruct (Hk a) as [r Hr]; exists r|exists (Err e)]; intros d; unfold mbind, eff_bind; by rewrite Hm.
Qed.
Lemma settled_ret {A} (a : A) : settled (mret a).
Proof. by eexists. Qed.
Lemma settled_raise {A} s : settled (raise_sql s : eff CatalogueDb load_exn A).
Proof. by eexists. Qed.
Lemma settled_check b s : settled (sql_check b s).
Proof. destruct b; by eexists. Qed.
Lemma settled_cast {A} (c : string -> option A) n t : settled (cast c n t).
Proof. unfold cast. destruct (nonempty t); [|by eexists]. destruct (c _); by eexists. Qed.
Ltac settle := repeat (lazymatch goal with
  | |- forall _, _ => intro
  | |- settled (_ ≫= _) => apply settled_bind
  | |- settled (mret _) => apply settled_ret
  | |- settled (raise_sql _) => apply settled_raise
  | |- settled (sql_check _ _) => apply settled_check
  | |- settled (cast _ _ _) => apply settled_cast
  | |- settled (let _ := _ in _) => cbv zeta
  | |- settled (match ?x with _ => _ end) => destruct x
  | |- settled ((fun _ => _) _) => cbv beta
  end).
Lemma settled_read_record enabled v : settled (read_record enabled v).
Proof. unfold read_record, stock_of. settle. Qed.

Lemma merged_again refresh old row : merged refresh (merged refresh old row) row = merged refresh old row.
Proof.
unfold merged. destruct old as [? ? ? ? ? ? ? ? ? ? ? ? ? f1 l1 a1 ?], row as [? ? ? ? ? ? ? ? ? ? ? ? ? f2 l2 a2 ?]. simpl.
destruct (l1 <=? l2) eqn:E; [apply Z.leb_le in E|apply Z.leb_gt in E].
- rewrite (Z.max_r l1 l2) by done. rewrite Z.leb_refl, Z.max_id. simpl. destruct refresh; simpl; f_equal; lia.
- rewrite (Z.max_l l1 l2) by lia. assert (E' : (l1 <=? l2) = false) by (apply Z.leb_gt; lia). rewrite E'. simpl. destruct refresh; simpl; f_equal; lia.
Qed.
Lemma merged_self refresh row : pr_active row = true -> merged refresh row row = row.
Proof. unfold merged. destruct row. simpl. intros ->. rewrite Z.leb_refl, Z.min_id, Z.max_id. simpl. by destruct refresh. Qed.

Lemma known_same so pr d : so = cd_sources d -> pr = cd_products d -> d <| cd_sources := so |> <| cd_products := pr |> = d.
Proof. intros -> ->. by destruct d. Qed.
Lemma raw_same r d : r = cd_raw d -> d <| cd_raw := r |> = d.
Proof. intros ->. by destruct d. Qed.
Lemma offers_same o d : o = cd_offers d -> d <| cd_offers := o |> = d.
Proof. intros ->. by destruct d. Qed.

Lemma write_product_again v x t f d d1 d' : write_product v x t f d = (Ok (), d1) -> known d' = known d1 -> write_product v x t f d' = (Ok (), d').
Proof.
unfold write_product, mbind, eff_bind, sql_check. destruct (valid_source_id _); [|done]. simpl. unfold modify. intros [= <-] E. injection E as Es Ep.
f_equal. apply known_same; [rewrite Es|rewrite Ep].
- destruct (cd_sources d !! (ll_key x).1) eqn:E; [by rewrite E|by rewrite lookup_insert_eq].
- rewrite lookup_insert_eq, insert_insert_eq. f_equal. destruct (cd_products d !! ll_key x); [apply merged_again|by apply merged_self].
Qed.
Lemma write_raw_again v x t r run d raw d2 d' : write_raw v x t (Some r) d = (Ok raw, d2) -> cd_raw d' = cd_raw d2 -> write_raw v x t run d' = (Ok raw, d').
Proof.
unfold write_raw. set (key := (ll_key x, _)).
destruct (cd_raw d !! key) as [old|]; intros [= <- <-] E; simpl in E; rewrite E, lookup_insert_eq; simpl; f_equal; apply raw_same;
  rewrite E, insert_insert_eq; f_equal; f_equal; try lia. by destruct (rw_import_run old).
Qed.

Lemma insert_offer_adds k raw t c v d d' : insert_offer k raw t c v d = (Ok (), d') -> existsb (same_offer t c) (offers_of k d') = true.
Proof.
unfold insert_offer. intros E. apply bind_inv in E as (stored & d1 & E1 & E). apply bind_inv in E as ([] & d2 & E2 & [= <-]).
unfold offers_of at 1. simpl. rewrite lookup_insert_eq. simpl. rewrite existsb_app. simpl. unfold same_offer. simpl.
by rewrite Z.eqb_refl, bool_decide_eq_true_2, orb_true_r.
Qed.
(** An update that keeps when the offers were observed. *)
Lemma latest_fmap (f : OfferRow -> OfferRow) l : (forall o, of_observed_at (f o) = of_observed_at o) -> latest (f <$> l) = f <$> latest l.
Proof.
intros Hf. unfold latest. change None with (f <$> (None : option OfferRow)) at 1. generalize (None : option OfferRow).
induction l as [|o l IH]; intros best; simpl; [done|]. rewrite <- IH. f_equal. destruct best as [b|]; simpl; [|done]. rewrite !Hf. by destruct (_ <=? _).
Qed.
Lemma existsb_fmap_same t c (f : OfferRow -> OfferRow) l : (forall o, same_offer t c (f o) = same_offer t c o) -> existsb (same_offer t c) (f <$> l) = existsb (same_offer t c) l.
Proof. intros Hf. induction l as [|o l IH]; [done|]. rewrite fmap_cons. simpl existsb. by rewrite Hf, IH. Qed.

Lemma write_offer_again v x t raw price d d' : write_offer v x t raw price d = (Ok (), d') -> write_offer v x t raw price d' = (Ok (), d').
Proof.
unfold write_offer. destruct (ll_currency x) as [currency|]; [|done]. unfold mbind, eff_bind, sql_check.
destruct (Bool.eqb _ _); [simpl|done]. set (c := Build_OfferContext _ _ _ _ _ _ _ _ _ _ _ _). unfold gets.
destruct (existsb (same_offer t c) (offers_of (ll_key x) d)) eqn:Hs; [intros [= <-]; by rewrite Hs|].
assert (Hinsert : insert_offer (ll_key x) raw t c v d = (Ok (), d') -> existsb (same_offer t c) (offers_of (ll_key x) d') = true) by apply insert_offer_adds.
destruct (latest (offers_of (ll_key x) d)) as [last|] eqn:Hl; [|intros E; by rewrite Hinsert].
destruct (t <? of_observed_at last) eqn:Ht; [|destruct (bool_decide (of_context last = c)) eqn:Hc; [|intros E; by rewrite Hinsert]].
- unfold modify at 1. intros [= <-]. destruct (cd_out_of_order d !! _) as [row|] eqn:Ho; [by rewrite Hs, Hl, Ht; unfold modify; rewrite Ho|].
  set (d' := _ <| cd_out_of_order := _ |>). replace (offers_of (ll_key x) d') with (offers_of (ll_key x) d) by done. rewrite Hs, Hl, Ht. unfold modify.
  replace (cd_out_of_order d' !! _) with (Some {| oo_raw := raw; oo_record := v |}); [done|]. unfold d'. simpl. by rewrite lookup_insert_eq.
- unfold modify at 1. intros [= <-]. set (f := fun o : OfferRow => if of_id o =? of_id last then _ else o).
  set (d' := _ <| cd_offers := _ |>). replace (offers_of (ll_key x) d') with (f <$> offers_of (ll_key x) d) by (unfold offers_of, d'; simpl; by rewrite lookup_insert_eq).
  assert (Hf : forall o, of_observed_at (f o) = of_observed_at o /\ of_digest (f o) = of_digest o /\ of_context (f o) = of_context o /\ of_id (f o) = of_id o)
    by (intros o; unfold f; by destruct (_ =? _)).
  rewrite existsb_fmap_same by (intros o; unfold same_offer; by destruct (Hf o) as (-> & -> & _)). rewrite Hs, latest_fmap by (intros o; apply Hf). rewrite Hl. simpl.
  destruct (Hf last) as (-> & _ & -> & ->). rewrite Ht, Hc. unfold modify. f_equal. apply offers_same. unfold d'. simpl. rewrite insert_insert_eq. f_equal.
  fold f. rewrite <- list_fmap_compose. apply list_fmap_ext. intros _ o _. unfold f, compose. destruct (of_id o =? of_id last) eqn:E; simpl; rewrite E; [|done].
  by rewrite <- Z.max_assoc, Z.max_id.
Qed.

(** C12. A record loaded twice, by the same import run or a later one, is as if it was
    loaded once: the second load succeeds and no table changes, whichever way the
    first went - a new offer, one extended, or one set aside as out of order. *)
Theorem loading_again_changes_nothing enabled r run v d k d' :
  load_record enabled (Some r) v d = (Ok k, d') -> load_record enabled run v d' = (Ok k, d').
Proof.
unfold load_record. destruct (settled_read_record enabled v) as [[x|e] R]; unfold mbind at 1 5, eff_bind at 1 5; rewrite !R; [|done].
destruct (ll_fetched_at x) as [t|], (ll_format x) as [f|]; try done. intros E.
apply bind_inv in E as ([] & d1 & E1 & E). apply bind_inv in E as (raw & d2 & E2 & E). apply bind_inv in E as ([] & d3 & E3 & [= <- <-]).
pose proof (write_raw_spares v x t (Some r) d1) as K2. rewrite E2 in K2.
assert (K3 : filed d3 = filed d2).
{ destruct (ll_price x) as [price|]; [|by injection E3 as <-]. pose proof (write_offer_spares v x t raw price d2) as K3. by rewrite E3 in K3. }
unfold mbind, eff_bind. rewrite (write_product_again v x t f d d1 d3 E1), (write_raw_again v x t r run d1 raw d2 d3 E2) by (unfold filed, known in *; simpl in *; congruence).
destruct (ll_price x) as [price|]; [by rewrite (write_offer_again v x t raw price d2 d3 E3)|done].
Qed.
End properties.

(** * Planning *)

Lemma plan_source_once py_repr data manifest source : map ld_source (plan_source py_repr data manifest source).1 = [] \/ map ld_source (plan_source py_repr data manifest source).1 = [source].
Proof. unfold plan_source. destruct (negb _); [destruct (authoritative _ _ _); by right|]. destruct (negb _); [by right|by left]. Qed.
Lemma plan_source_whole py_repr data manifest source :
  Forall (fun load => ld_source load = source /\ ld_records load = records_in data (ld_path load) /\ ld_records load <> 0
    /\ (ld_whole load = true -> ld_path load = existing data (source +:+ ".ndjson") /\ (authoritative py_repr manifest source).1 = true))
  (plan_source py_repr data manifest source).1.
Proof.
unfold plan_source. set (complete := existing data _). set (partial := existing data (source +:+ ".partial.ndjson")).
destruct (records_in data complete =? 0) eqn:E1; simpl.
- destruct (records_in data partial =? 0) eqn:E2; simpl; [done|]. apply Z.eqb_neq in E2. repeat constructor; done.
- apply Z.eqb_neq in E1. destruct (authoritative py_repr manifest source) as [trusted why]. repeat constructor; done.
Qed.
Lemma sources_of_plans {A} (f : string -> list Load * A) (l : list string) :
  (forall s, map ld_source (f s).1 = [] \/ map ld_source (f s).1 = [s]) -> NoDup l ->
  NoDup (map ld_source (concat (f <$> l).*1)) /\ (forall s, s ∈ map ld_source (concat (f <$> l).*1) -> s ∈ l).
Proof.
intros Hf. induction l as [|x l IH]; simpl; [split; [constructor|done]|]. intros [Hx Hl]%NoDup_cons. destruct (IH Hl) as [Hn Hin].
rewrite map_app. destruct (Hf x) as [-> | ->]; simpl; [split; [done|intros s Hs; right; by apply Hin]|]. split.
- constructor; [intros H; by apply Hx, Hin|done].
- intros s [->|Hs]%elem_of_cons; [left|right; by apply Hin].
Qed.
Lemma authoritative_trusts py_repr manifest source : (authoritative py_repr manifest source).1 = true ->
  manifest = [] \/ exists entry, dict_get source manifest = Some entry /\ dict_get "write_status" entry = Some (JStr "replaced")
    /\ from_option truthy false (dict_get "truncated" entry) = false.
Proof.
unfold authoritative. destruct (bool_decide_reflect (manifest = [])); [by left|]. destruct (dict_get source manifest) as [entry|]; [|done]. intros E. right. exists entry. split; [done|].
destruct (dict_get "write_status" entry) as [[| | | |status| |]|] eqn:Hstatus; try done. unfold may_retire in E. destruct (bool_decide_reflect (status = "replaced")) as [->|]; [simpl in E|done].
split; [done|]. destruct (dict_get "truncated" entry) as [t|]; [simpl in *|done]. by destruct (truthy t).
Qed.

(** A plan takes each source once and only from a file with records, and may retire
    products only from the source's complete file, when the directory has no manifest or
    its manifest says this run replaced the file and was not truncated. A partial file,
    or one the run preserved, only adds. *)
Theorem plans_retire_only_from_written_wholes py_repr data manifest :
  let plans := (plan_load py_repr data manifest).1 in
  NoDup (map ld_source plans)
  /\ Forall (fun load => ld_records load = records_in data (ld_path load) /\ ld_records load <> 0
       /\ (ld_whole load = true -> ld_path load = existing data (ld_source load +:+ ".ndjson")
           /\ (manifest = [] \/ exists entry, dict_get (ld_source load) manifest = Some entry
                /\ dict_get "write_status" entry = Some (JStr "replaced") /\ from_option truthy false (dict_get "truncated" entry) = false))) plans.
Proof.
simpl. split.
- apply (sources_of_plans (plan_source py_repr data manifest)); [apply plan_source_once|].
  rewrite sort_strs_perm. apply NoDup_remove_dups.
- apply Forall_concat, Forall_fmap, Forall_fmap, Forall_true. intros source. simpl. eapply Forall_impl; [apply plan_source_whole|].
  intros load (-> & Hn & Hz & Hw). repeat split; [done..| |]; destruct (Hw H) as [? Ha]; [done|by apply authoritative_trusts in Ha].
Qed.

(** * A database to run on *)

(** Whole numbers, and digests that tell prices and names apart. *)
Definition digits (s : string) : option Z :=
  if negb (str_isempty s) && str_forall is_digit s
  then Some (foldl (fun n c => n * 10 + (Z.of_N (Ascii.N_of_ascii c) - 48)) 0 (String.list_ascii_of_string s)) else None.
#[local] Instance demo_postgres : Postgres := {|
  Num := Z; Digest := Z * string;
  jsonb_text _ := "{}"; cast_numeric s := digits s; cast_bigint s := digits s; cast_timestamp s := digits s;
  column n := Some n; not_negative n := 0 <=? n; positive n := 0 <? n;
  context_digest c := (oc_price c, oc_currency c); record_digest v := (0, match field "name" v with Some (JStr s) => s | _ => "" end);
|}.
Definition empty_catalogue : CatalogueDb :=
  {| cd_sources := ∅; cd_products := ∅; cd_raw := ∅; cd_offers := ∅; cd_out_of_order := ∅; cd_imports := ∅; cd_next_id := 1 |}.
Definition demo_record (id name price at_ : string) : json :=
  JDict [("format", JStr "ceramics.catalogue_item.v2"); ("source", JStr "shop"); ("external_id", JStr id); ("name", JStr name);
         ("product_url", JStr "https://shop.test/x"); ("fetched_at", JStr at_); ("price", JStr price); ("currency", JStr "gbp")].
(** A glaze, its price again, a price change, and an older record. *)
Definition demo_loads : list json :=
  [demo_record "g1" "Glaze" "10" "100"; demo_record "g1" "Glaze" "10" "200"; demo_record "g1" "Glaze" "12" "300"; demo_record "g1" "Glaze" "9" "50"].
Definition demo_after : CatalogueDb := (load_all false (Some 1) (numbered 1 demo_loads) empty_catalogue).2.
Example loading_keeps_the_price_history :
  (map (fun o => (oc_price (of_context o), of_observed_at o, of_last_seen o)) (offers_of ("shop", "g1") demo_after) = [(10, 100, 200); (12, 300, 300)])
  /\ size (cd_out_of_order demo_after) = 1%nat
  /\ ((fun p => (pr_first_seen p, pr_last_seen p)) <$> cd_products demo_after !! ("shop", "g1")) = Some (50, 300).
Proof. vm_compute. auto. Qed.

Definition demo_next : json := demo_record "g1" "Glaze" "15" "400".
Definition demo_next_after : CatalogueDb := (load_record false (Some 1) demo_next demo_after).2.
Lemma loading_again_changes_nothing_witness : load_record false (Some 2) demo_next demo_next_after = (Ok ("shop", "g1"), demo_next_after).
Proof.
apply (loading_again_changes_nothing false 1 (Some 2) demo_next demo_after).
assert (E : (load_record false (Some 1) demo_next demo_after).1 = Ok ("shop", "g1")) by (vm_compute; reflexivity).
etransitivity; [apply surjective_pairing|]. by rewrite E.
Defined.

(** A dump that lists only a rejected record keeps that product and retires the other. *)
Definition demo_second : CatalogueDb := (load_all false (Some 1) [(1, demo_record "g2" "Slip" "7" "100")] demo_after).2.
Example a_rejected_record_is_still_listed :
  let '(report, d) := load_source false (Some 2) 1 "shop" (Ok [demo_record "g1" "Glaze" "?" "400"]) true demo_second in
  report = Ok {| sp_source := "shop"; sp_records := 1; sp_retired := 1; sp_error := None; sp_rejected := 1;
                 sp_rejects := ["line 1: invalid input syntax for type numeric"] |}
  /\ (pr_active <$> cd_products d !! ("shop", "g1")) = Some true /\ (pr_active <$> cd_products d !! ("shop", "g2")) = Some false.
Proof. vm_compute. auto. Qed.
