(* ===== verification/ProxyLedger.v ===== *)
(** The ledger of paid proxy traffic ([catalogue-dump/.../proxy.py]): reservations
    of bytes within a provider's billing cycle, the authorisation of every physical
    attempt against its reservation, and the settlement of both.

    Every operation of the program locks the billing cycle it works on and is one
    transaction. Amounts are bytes. *)
From S2P Require Export Effects PyStr.
From stdpp Require Export gmap strings pretty.
From Stdlib Require Import Ascii.
Open Scope Z_scope.

(** What the ledger raises: a refusal, an exception of Python, or a unique index of
    the database. *)
Inductive ledger_exn := ProxyDenied (message : string) | LedgerRaises (e : pyexn) | UniqueViolation.

(** * The tables *)

(** Source: catalogue-dump/storage/schema/catalogue-schema.sql:1411-1447, proxy_budget_cycles. *)
Record Cycle := {
  cy_end : Z; cy_operational : Z; cy_daily : Z; cy_pilot : Z; cy_pilot_active : bool; cy_reported : Z; cy_application : Z;
  cy_reconciled_at : option Z; cy_reconciliation_ok : bool; cy_kill_switch : bool; cy_lifecycle : string;
}.
#[export] Instance Cycle_eta : Eta Cycle := fun c =>
  {| cy_end := cy_end c; cy_operational := cy_operational c; cy_daily := cy_daily c; cy_pilot := cy_pilot c;
     cy_pilot_active := cy_pilot_active c; cy_reported := cy_reported c; cy_application := cy_application c;
     cy_reconciled_at := cy_reconciled_at c; cy_reconciliation_ok := cy_reconciliation_ok c; cy_kill_switch := cy_kill_switch c;
     cy_lifecycle := cy_lifecycle c |}.

Record ProxyProfileRow := {
  pf_provider : string; pf_logical_name : string; pf_enabled : bool; pf_lifecycle : string; pf_secret_generation : Z;
}.
Record ProxyRouteRow := { rt_provider : string; rt_profile_id : Z; rt_enabled : bool; rt_retired_at : option Z }.

Inductive ReservationState := R_active | R_closed | R_cancelled | R_revocation_requested.
#[export] Instance ReservationState_eq_dec : EqDecision ReservationState.
Proof. solve_decision. Defined.
(** [state in ('active', 'revocation_requested')] *)
Definition is_active (st : ReservationState) : bool := match st with R_active | R_revocation_requested => true | _ => false end.

(** Source: catalogue-dump/storage/schema/catalogue-schema.sql:1651-1676, proxy_reservations. *)
Record ReservationRow := {
  rs_job_id : option Z; rs_probe_id : option Z; rs_provider : string; rs_profile : string; rs_profile_id : Z; rs_route_id : Z;
  rs_cycle_start : Z; rs_reserved : Z; rs_estimated : Z; rs_requests : Z; rs_pilot : bool; rs_state : ReservationState;
  rs_created_at : Z; rs_closed_at : option Z; rs_secret_generation : Z; rs_revocation : bool;
}.
#[export] Instance ReservationRow_eta : Eta ReservationRow := fun r =>
  {| rs_job_id := rs_job_id r; rs_probe_id := rs_probe_id r; rs_provider := rs_provider r; rs_profile := rs_profile r;
     rs_profile_id := rs_profile_id r; rs_route_id := rs_route_id r; rs_cycle_start := rs_cycle_start r;
     rs_reserved := rs_reserved r; rs_estimated := rs_estimated r; rs_requests := rs_requests r; rs_pilot := rs_pilot r;
     rs_state := rs_state r; rs_created_at := rs_created_at r; rs_closed_at := rs_closed_at r;
     rs_secret_generation := rs_secret_generation r; rs_revocation := rs_revocation r |}.

Inductive AttemptState := A_authorized | A_reconciled (actual requests : Z) | A_released.
#[export] Instance AttemptState_eq_dec : EqDecision AttemptState.
Proof. solve_decision. Defined.
(** The actual counters are there exactly when the attempt is reconciled. Source:
    catalogue-dump/storage/schema/catalogue-proxy-attempt-authorization-v1.sql:1-25, proxy_attempt_authorizations. *)
Record AttemptRow := { ta_reservation : Z; ta_estimated : Z; ta_state : AttemptState }.

Record ReconcileRequest := { rq_provider : string; rq_reason : string; rq_reservation : Z; rq_dedup_key : string }.

Record Ledger := {
  lg_now : Z; lg_next_id : Z; lg_cycles : gmap (string * Z) Cycle; lg_profiles : gmap Z ProxyProfileRow;
  lg_routes : gmap Z ProxyRouteRow; lg_allocations : gmap (string * Z * Z) Z; lg_reservations : gmap Z ReservationRow;
  lg_attempts : gmap Z AttemptRow; lg_reconcile_requests : list ReconcileRequest;
}.
#[export] Instance Ledger_eta : Eta Ledger := fun l =>
  {| lg_now := lg_now l; lg_next_id := lg_next_id l; lg_cycles := lg_cycles l; lg_profiles := lg_profiles l;
     lg_routes := lg_routes l; lg_allocations := lg_allocations l; lg_reservations := lg_reservations l;
     lg_attempts := lg_attempts l; lg_reconcile_requests := lg_reconcile_requests l |}.

Abbreviation ledger := (eff Ledger ledger_exn).
Definition deny {A} (message : string) : ledger A := throw (ProxyDenied message).
Definition demand (b : bool) (message : string) : ledger () := if b then mret () else deny message.

(** [sum(f)] over the rows of a table. *)
Definition sum_over {V} (f : V -> Z) (m : gmap Z V) : Z := map_sum (f <$> m).
Definition when_row {V} (p : V -> bool) (f : V -> Z) (v : V) : Z := if p v then f v else 0.

(** * Reserving *)

(** Source: catalogue-dump/proxy.py, _validated_provider. *)
Definition validated_provider (provider : string) : ledger string :=
  let name_char c := is_lower c || is_digit c || bool_decide (c ∈ ["_"; "-"]%char) in
  match provider with
  | String c r => if is_lower c && str_forall name_char r && (str_len r <=? 63) then mret provider else deny "proxy provider is invalid"
  | EmptyString => deny "proxy provider is invalid"
  end.

(** The rows of a billing cycle. *)
Definition in_cycle (k : string * Z) (r : ReservationRow) : bool := bool_decide (rs_provider r = k.1 /\ rs_cycle_start r = k.2).
Definition active_in (k : string * Z) (l : Ledger) : Z :=
  sum_over (when_row (fun r => in_cycle k r && is_active (rs_state r)) rs_reserved) (lg_reservations l).
Definition settled_in (k : string * Z) (l : Ledger) : Z :=
  sum_over (when_row (fun r => in_cycle k r && negb (is_active (rs_state r))) rs_estimated) (lg_reservations l).

(** What a reservation asks for. *)
Record ReservationRequest := {
  rr_job : option Z; rr_probe : option Z; rr_profile : string; rr_profile_id : option Z; rr_route_id : option Z;
  rr_cycle_start : option Z; rr_cycle_end : option Z; rr_bytes : Z; rr_pilot : bool; rr_secret_generation : Z; rr_provider : string;
}.

Definition DAY : Z := 86400 * 1000000.
(** [max(1, math.ceil((cycle_end - now).total_seconds() / 86_400))], with microsecond
    times: the rounding of the division does not matter below a hundred thousand
    days. Source: catalogue-dump/proxy.py:296-296, reserve. *)
Definition remaining_days (cycle_end now : Z) : Z := Z.max 1 (- ((now - cycle_end) / DAY)).

Section reserve.
(** [date_trunc('day', ...)] in the session's time zone. *)
Context (day_start : Z -> Z).

Definition spent_today (k : string * Z) (l : Ledger) : Z :=
  sum_over (when_row (fun r => in_cycle k r && (day_start (lg_now l) <=? rs_created_at r)) rs_estimated) (lg_reservations l).
Definition pilot_used (k : string * Z) (l : Ledger) : Z :=
  sum_over (when_row (fun r => in_cycle k r && rs_pilot r) rs_estimated) (lg_reservations l).

(** The active cycles that cover the present. Source: catalogue-dump/proxy.py:204-217, reserve. *)
Definition current_cycles (provider : string) (l : Ledger) : list (Z * Cycle) :=
  omap (fun p => let '((name, start), c) := p in
    if bool_decide (name = provider /\ cy_lifecycle c = "active") && (start <=? lg_now l) && (lg_now l <? cy_end c)
    then Some (start, c) else None) (map_to_list (lg_cycles l)).

(** The profile and route of a snapshot, still in force. Source: catalogue-dump/proxy.py:231-253, reserve. *)
Definition identity_current (l : Ledger) (q : ReservationRequest) (profile_id route_id : Z) : bool :=
  match lg_profiles l !! profile_id, lg_routes l !! route_id with
  | Some p, Some r =>
      bool_decide (rt_profile_id r = profile_id /\ pf_provider p = rr_provider q /\ pf_logical_name p = rr_profile q
                   /\ pf_secret_generation p = rr_secret_generation q /\ pf_lifecycle p = "enabled")
      && pf_enabled p && rt_enabled r && is_none (rt_retired_at r)
  | _, _ => false
  end.

(** What the active reservations of a profile hold. Source: catalogue-dump/proxy.py:254-275, reserve. *)
Definition profile_active (k : string * Z) (profile_id : Z) (l : Ledger) : Z :=
  sum_over (when_row (fun r => in_cycle k r && bool_decide (rs_profile_id r = profile_id) && is_active (rs_state r)) rs_reserved)
    (lg_reservations l).

(** The allowances of a cycle. Source: catalogue-dump/proxy.py:276-310, reserve. *)
Definition check_allowances (k : string * Z) (c : Cycle) (q : ReservationRequest) (now : Z) : ledger () :=
  active ← gets (active_in k); daily ← gets (spent_today k); pilot ← gets (pilot_used k);
  let provider := rr_provider q in
  let accounted := Z.max (cy_reported c) (cy_application c) in
  _ ← demand (accounted + active + rr_bytes q <=? cy_operational c) (provider +:+ " operational billing-cycle ceiling would be exceeded");
  let dynamic_daily := Z.min (cy_daily c) (Z.max 0 ((cy_operational c - accounted - active) / remaining_days (cy_end c) now)) in
  _ ← demand (daily + active + rr_bytes q <=? dynamic_daily) (provider +:+ " daily allocation would be exceeded");
  if rr_pilot q then
    _ ← demand (cy_pilot_active c) (provider +:+ " pilot is not active on this billing cycle");
    demand (pilot + active + rr_bytes q <=? cy_pilot c) (provider +:+ " pilot allocation would be exceeded")
  else mret ().

(** One active reservation per job, one ever per probe: the unique indexes of the
    table. Source: catalogue-dump/proxy.py:311-333, reserve. *)
Definition insert_reservation (row : ReservationRow) : ledger Z := fun l =>
  let clash (r : ReservationRow) :=
    (is_some (rs_job_id row) && bool_decide (rs_job_id r = rs_job_id row) && is_active (rs_state r) && is_active (rs_state row))
    || (is_some (rs_probe_id row) && bool_decide (rs_probe_id r = rs_probe_id row)) in
  if existsb clash (map_to_list (lg_reservations l)).*2 then (Err UniqueViolation, l)
  else (Ok (lg_next_id l), l <| lg_reservations := <[lg_next_id l := row]> (lg_reservations l) |> <| lg_next_id := lg_next_id l + 1 |>).

(** [client_now] is the clock of the worker, [lg_now] that of the database. Source:
    catalogue-dump/proxy.py, reserve. *)
Definition reserve (q : ReservationRequest) (client_now : Z) : ledger Z :=
  _ ← demand (xorb (is_none (rr_job q)) (is_none (rr_probe q))) "a proxy reservation requires exactly one job or probe";
  _ ← demand (0 <? rr_bytes q) "proxy reservation bytes must be positive";
  provider ← validated_provider (rr_provider q);
  match rr_profile_id q, rr_route_id q with
  | Some profile_id, Some route_id => atomically (
      rows ← gets (current_cycles provider);
      match rows with
      | _ :: _ :: _ => deny ("multiple active " +:+ provider +:+ " billing cycles exist")
      | [] => deny (provider +:+ " billing cycle has not been reconciled and opened")
      | [(start, c)] =>
          let k := (provider, start) in
          _ ← demand (match rr_cycle_start q with Some t => t =? start | None => true end)
                "configured billing-cycle start disagrees with the active ledger";
          _ ← demand (match rr_cycle_end q with Some t => t =? cy_end c | None => true end)
                "configured billing-cycle end disagrees with the active ledger";
          _ ← demand ((start <=? client_now) && (client_now <? cy_end c)) "active proxy billing cycle does not cover the current time";
          _ ← demand (negb (cy_kill_switch c) && cy_reconciliation_ok c && is_some (cy_reconciled_at c))
                (provider +:+ " reconciliation is unsafe or the kill switch is active");
          current ← gets (fun l => identity_current l q profile_id route_id);
          _ ← demand current "proxy profile or route snapshot is no longer active";
          allocation ← gets (fun l => lg_allocations l !! (provider, start, profile_id));
          active ← gets (profile_active k profile_id);
          _ ← demand (match allocation with Some a => active + rr_bytes q <=? a | None => false end)
                "proxy profile allocation would be exceeded";
          _ ← check_allowances k c q client_now;
          now ← gets lg_now;
          insert_reservation
            {| rs_job_id := rr_job q; rs_probe_id := rr_probe q; rs_provider := provider; rs_profile := rr_profile q;
               rs_profile_id := profile_id; rs_route_id := route_id; rs_cycle_start := start; rs_reserved := rr_bytes q;
               rs_estimated := 0; rs_requests := 0; rs_pilot := rr_pilot q; rs_state := R_active; rs_created_at := now;
               rs_closed_at := None; rs_secret_generation := rr_secret_generation q; rs_revocation := false |}
      end)
  | _, _ => deny "durable proxy reservation requires profile and route identities"
  end.
End reserve.

(** * Settling a reservation *)

Definition update_reservation (id : Z) (guard : ReservationRow -> bool) (f : Z -> ReservationRow -> ReservationRow)
    : ledger (option ReservationRow) := fun l =>
  match lg_reservations l !! id with
  | Some r => if guard r then (Ok (Some (f (lg_now l) r)), l <| lg_reservations := <[id := f (lg_now l) r]> (lg_reservations l) |>)
              else (Ok None, l)
  | None => (Ok None, l)
  end.
Definition update_cycle (k : string * Z) (f : Ledger -> Cycle -> Cycle) : ledger () := modify (fun l =>
  l <| lg_cycles := alter (f l) k (lg_cycles l) |>).

Definition used_at_least (bytes requests : Z) (r : ReservationRow) : ReservationRow :=
  r <| rs_estimated := Z.max (rs_estimated r) bytes |> <| rs_requests := Z.max (rs_requests r) requests |>.

(** [on conflict (dedup_key) do nothing] *)
Definition request_reconcile (q : ReconcileRequest) : ledger () := modify (fun l =>
  if existsb (fun p => bool_decide (rq_dedup_key p = rq_dedup_key q)) (lg_reconcile_requests l) then l
  else l <| lg_reconcile_requests := lg_reconcile_requests l ++ [q] |>).

(** The application's account of a cycle after a settlement. Source:
    catalogue-dump/proxy.py:410-429, close_reservation. *)
Definition settled_cycle (k : string * Z) (l : Ledger) (c : Cycle) : Cycle :=
  c <| cy_application := Z.max (cy_application c) (settled_in k l) |>
    <| cy_kill_switch := cy_kill_switch c || (cy_operational c <=? settled_in k l) |>.

(** A first settlement closes the reservation; a late one of a cancelled
    reservation only raises its counters. Source: catalogue-dump/proxy.py, close_reservation. *)
Definition close_reservation (id used_bytes requests : Z) : ledger () := atomically (
  identity ← gets (fun l => lg_reservations l !! id);
  match identity with
  | None => mret ()
  | Some identity =>
      closed ← update_reservation id (fun r => is_active (rs_state r))
        (fun now r => (used_at_least used_bytes requests r) <| rs_state := R_closed |> <| rs_closed_at := Some now |>);
      late ← (if is_some closed then mret None
              else update_reservation id
                     (fun r => bool_decide (rs_state r = R_cancelled)
                               && ((rs_estimated r <? used_bytes) || (rs_requests r <? requests)))
                     (fun _ => used_at_least used_bytes requests));
      if is_some closed || is_some late then
        _ ← update_cycle (rs_provider identity, rs_cycle_start identity) (settled_cycle (rs_provider identity, rs_cycle_start identity));
        let key := "reservation:" +:+ pretty id in
        request_reconcile
          {| rq_provider := rs_provider identity; rq_reservation := id;
             rq_reason := if is_some late then "reservation_late_settled" else "reservation_closed";
             rq_dedup_key := if is_some late then key +:+ ":late-settlement" else key |}
      else mret ()
  end).

(** * One physical attempt *)

Definition pending_of (id : Z) (a : AttemptRow) : bool := bool_decide (ta_reservation a = id /\ ta_state a = A_authorized).
Definition pending_bytes (id : Z) (l : Ledger) : Z := sum_over (when_row (pending_of id) ta_estimated) (lg_attempts l).
Definition pending_requests (id : Z) (l : Ledger) : Z := sum_over (when_row (pending_of id) (fun _ => 1)) (lg_attempts l).

Definition revoked (r : ReservationRow) : bool := rs_revocation r || bool_decide (rs_state r = R_revocation_requested).

(** The cycle of a reservation authorises paid traffic. Source:
    catalogue-dump/proxy.py:476-499, authorize_reservation_attempt. *)
Definition check_cycle (r : option ReservationRow) : ledger () :=
  now ← gets lg_now;
  c ← gets (fun l => r ≫= fun r => (fun c => (rs_cycle_start r, c)) <$> lg_cycles l !! (rs_provider r, rs_cycle_start r));
  match c with
  | None => deny "proxy reservation has no billing cycle"
  | Some (start, c) =>
      demand (bool_decide (cy_lifecycle c = "active") && ((start <=? now) && (now <? cy_end c)) && negb (cy_kill_switch c)
              && cy_reconciliation_ok c && is_some (cy_reconciled_at c))
        "proxy billing cycle does not authorize new paid traffic"
  end.

(** Its profile, by the whole identity. Source:
    catalogue-dump/proxy.py:500-520, authorize_reservation_attempt. *)
Definition profile_authorizes (l : Ledger) (r : ReservationRow) : bool :=
  match lg_profiles l !! rs_profile_id r with
  | Some p => bool_decide (pf_provider p = rs_provider r /\ pf_logical_name p = rs_profile r /\ pf_lifecycle p = "enabled"
                           /\ pf_secret_generation p = rs_secret_generation r) && pf_enabled p
  | None => false
  end.

(** Its route. Source: catalogue-dump/proxy.py:521-535, authorize_reservation_attempt. *)
Definition route_authorizes (l : Ledger) (r : ReservationRow) : bool :=
  match lg_routes l !! rs_route_id r with
  | Some t => bool_decide (rt_provider t = rs_provider r /\ rt_profile_id t = rs_profile_id r) && rt_enabled t && is_none (rt_retired_at t)
  | None => false
  end.

(** [None]: nothing of the allowance is left. The rows read once are locked, so the
    joins of the last query repeat what was checked. Source: catalogue-dump/proxy.py, authorize_reservation_attempt. *)
Definition authorize_reservation_attempt (id estimated_bytes : Z) (maximum_requests : option Z) : ledger (option Z) :=
  if estimated_bytes <? 0 then throw (LedgerRaises (ValueError "proxy attempt estimate must be non-negative"))
  else if match maximum_requests with Some n => n <? 1 | None => false end
  then throw (LedgerRaises (ValueError "proxy request cap must be positive"))
  else atomically (
    row ← gets (fun l => lg_reservations l !! id);
    _ ← check_cycle row;
    match row with
    | None => deny "proxy reservation has no billing cycle"
    | Some r =>
        profile ← gets (fun l => profile_authorizes l r);
        _ ← demand profile "proxy profile does not authorize new paid traffic";
        route ← gets (fun l => route_authorizes l r);
        _ ← demand route "proxy route does not authorize new paid traffic";
        _ ← demand (is_active (rs_state r)) "proxy reservation is not active";
        _ ← demand (negb (revoked r)) "proxy reservation was revoked";
        bytes ← gets (pending_bytes id); requests ← gets (pending_requests id);
        if (rs_reserved r <? rs_estimated r + bytes + estimated_bytes)
           || match maximum_requests with Some n => n <=? rs_requests r + requests | None => false end
        then mret None
        else
          authorization ← gets lg_next_id;
          _ ← modify (fun l => l <| lg_attempts := <[authorization :=
                {| ta_reservation := id; ta_estimated := estimated_bytes; ta_state := A_authorized |}]> (lg_attempts l) |>
                <| lg_next_id := lg_next_id l + 1 |>);
          mret (Some authorization)
    end).

(** Source: catalogue-dump/proxy.py, ProxyReservationUsage. *)
Record ProxyReservationUsage := { us_estimated_bytes : Z; us_request_count : Z; us_revoked : bool; us_exhausted : bool }.

Definition set_attempt (id : Z) (st : AttemptState) : ledger () := modify (fun l =>
  l <| lg_attempts := alter (fun a => {| ta_reservation := ta_reservation a; ta_estimated := ta_estimated a; ta_state := st |}) id (lg_attempts l) |>).

(** Source: catalogue-dump/proxy.py, reconcile_reservation_attempt. *)
Definition reconcile_reservation_attempt (id actual_bytes physical_requests : Z) : ledger ProxyReservationUsage :=
  if (actual_bytes <? 0) || (physical_requests <? 0)
  then throw (LedgerRaises (ValueError "proxy attempt actual counters must be non-negative"))
  else atomically (
    attempt ← gets (fun l => lg_attempts l !! id);
    match attempt with
    | None => deny "proxy attempt authorization does not exist"
    | Some a =>
        _ ← match ta_state a with
            | A_released => deny "proxy attempt authorization was released"
            | A_authorized =>
                _ ← set_attempt id (A_reconciled actual_bytes physical_requests);
                _ ← update_reservation (ta_reservation a) (fun _ => true)
                      (fun _ r => r <| rs_estimated := rs_estimated r + actual_bytes |> <| rs_requests := rs_requests r + physical_requests |>);
                mret ()
            | A_reconciled actual requests =>
                demand ((actual =? actual_bytes) && (requests =? physical_requests))
                  "proxy attempt was already reconciled with different actuals"
            end;
        usage ← gets (fun l => lg_reservations l !! ta_reservation a);
        match usage with
        | None => deny "proxy reservation does not exist"
        | Some r => mret {| us_estimated_bytes := rs_estimated r; us_request_count := rs_requests r; us_revoked := revoked r;
                            us_exhausted := rs_reserved r <? rs_estimated r |}
        end
    end).

(** Source: catalogue-dump/proxy.py, release_reservation_attempt. *)
Definition release_reservation_attempt (id : Z) : ledger () :=
  attempt ← gets (fun l => lg_attempts l !! id);
  match attempt with
  | None => deny "proxy attempt authorization does not exist"
  | Some a =>
      match ta_state a with
      | A_authorized => set_attempt id A_released
      | A_released => mret ()
      | A_reconciled _ _ => deny "a dispatched proxy attempt cannot be released"
      end
  end.

(** Source: catalogue-dump/proxy.py, reservation_revoked. *)
Definition reservation_revoked (id : Z) (l : Ledger) : bool := match lg_reservations l !! id with Some r => revoked r | None => false end.

(** * The provider's account *)

(** Source: catalogue-dump/proxy.py, reconcile. *)
Definition reconcile (provider : string) (cycle_start reported : Z) (successful : bool) : ledger () :=
  provider ← validated_provider provider;
  update_cycle (provider, cycle_start) (fun l c =>
    let reported := Z.max (cy_reported c) (Z.max 0 reported) in
    c <| cy_reported := reported |> <| cy_reconciled_at := if successful then Some (lg_now l) else cy_reconciled_at c |>
      <| cy_reconciliation_ok := successful |> <| cy_kill_switch := cy_kill_switch c || (cy_operational c <=? reported) |>).

(** Two billing cycles of the provider whose intervals meet. Source:
    catalogue-dump/proxy.py:739-745, open_cycle. *)
Definition overlaps (l : Ledger) (start stop : Z) : bool :=
  existsb (fun p => let '((name, s), c) := p in
    bool_decide (name = "decodo" /\ s <> start) && (s <? stop) && (start <? cy_end c)) (map_to_list (lg_cycles l)).

(** The limits are the defaults of the table. The unique index of active cycles
    refuses a second one. Source: catalogue-dump/proxy.py, open_cycle. *)
Definition open_cycle (start stop reported : Z) : ledger () :=
  _ ← demand (start <? stop) "billing-cycle boundaries must be ordered offset-aware timestamps";
  overlap ← gets (fun l => overlaps l start stop);
  _ ← demand (negb overlap) "Decodo billing cycle overlaps an existing ledger cycle";
  let reported := Z.max 0 reported in
  atomically (
    _ ← modify (fun l => l <| lg_cycles := map_imap (fun k c => Some (
          if bool_decide (k.1 = "decodo" /\ cy_lifecycle c = "active") && (cy_end c <=? lg_now l)
          then c <| cy_lifecycle := "closed" |> else c)) (lg_cycles l) |>);
    existing ← gets (fun l => lg_cycles l !! ("decodo", start));
    match existing with
    | Some _ => update_cycle ("decodo", start) (fun l c =>
        c <| cy_reported := Z.max (cy_reported c) reported |> <| cy_reconciled_at := Some (lg_now l) |>
          <| cy_reconciliation_ok := true |> <| cy_kill_switch := cy_kill_switch c || (cy_operational c <=? reported) |>)
    | None =>
        clash ← gets (fun l => existsb (fun p => bool_decide (p.1.1 = "decodo" /\ cy_lifecycle p.2 = "active")) (map_to_list (lg_cycles l)));
        if (clash : bool) then throw UniqueViolation
        else modify (fun l => l <| lg_cycles := <[("decodo", start) :=
          {| cy_end := stop; cy_operational := 2400000000; cy_daily := 80000000; cy_pilot := 300000000; cy_pilot_active := false;
             cy_reported := reported; cy_application := 0; cy_reconciled_at := Some (lg_now l); cy_reconciliation_ok := true;
             cy_kill_switch := 2400000000 <=? reported; cy_lifecycle := "active" |}]> (lg_cycles l) |>)
    end).

(** * The leader's and the operator's interventions *)

(** Source: src/catalogue-control/src/catalogue_control/proxy_control.py:31-31, STALE_PROBE_TIMEOUT_SECONDS. *)
Definition STALE_PROBE_TIMEOUT : Z := 5 * 60 * 1000000.

(** What the clean-up reads of the jobs (state and [lease_expires_at]) and of the
    probes (state and [requested_at]). *)
Record Owners := { ow_jobs : gmap Z (string * option Z); ow_probes : gmap Z (string * Z) }.

(** Source: src/catalogue-control/src/catalogue_control/proxy_control.py:468-487, close_stale_reservations. *)
Definition abandoned (o : Owners) (now : Z) (r : ReservationRow) : bool :=
  match rs_job_id r ≫= fun j => ow_jobs o !! j with
  | Some (st, expires) =>
      bool_decide (st ∈ ["succeeded"; "degraded"; "failed"; "cancelled"; "skipped"])
      || (bool_decide (st ∈ ["leased"; "running"]) && match expires with Some t => t <? now | None => false end)
  | None => false
  end
  || match rs_probe_id r ≫= fun p => ow_probes o !! p with
     | Some (st, requested) => bool_decide (st ∈ ["pending"; "running"]) && (Z.max requested (rs_created_at r) <? now - STALE_PROBE_TIMEOUT)
     | None => false
     end.

(** The probes it cancels and the event it emits are left out. Source:
    src/catalogue-control/src/catalogue_control/proxy_control.py, close_stale_reservations. *)
Definition close_stale_reservations (o : Owners) : ledger Z := atomically (
  now ← gets lg_now;
  let chosen (r : ReservationRow) := is_active (rs_state r) && abandoned o now r in
  rows ← gets (fun l => filter (fun p => chosen (snd p) = true) (map_to_list (lg_reservations l)));
  _ ← modify (fun l => l <| lg_reservations := map_imap (fun _ r => Some (
        if chosen r then r <| rs_state := R_cancelled |> <| rs_closed_at := Some now |> else r)) (lg_reservations l) |>);
  let cycles := remove_dups ((fun p => (rs_provider (snd p), rs_cycle_start (snd p))) <$> rows) in
  _ ← modify (fun l => l <| lg_cycles := map_imap (fun k c => Some (if bool_decide (k ∈ cycles) then settled_cycle k l c else c)) (lg_cycles l) |>);
  _ ← modify (fun l => foldl (fun l p =>
        (request_reconcile {| rq_provider := rs_provider (snd p); rq_reason := "stale_reservation"; rq_reservation := fst p;
                              rq_dedup_key := "reservation:" +:+ pretty (fst p) |} l).2) l rows);
  mret (Z.of_nat (length rows))).

(** The switch of every active cycle of the provider that passes the gates; [false]:
    there is none. *)
Definition set_kill_switch (provider : string) (on : bool) (gates : Ledger -> Cycle -> bool) : ledger bool := fun l =>
  let chosen (k : string * Z) c := bool_decide (k.1 = provider /\ cy_lifecycle c = "active") && gates l c in
  (Ok (existsb (fun p => chosen p.1 p.2) (map_to_list (lg_cycles l))),
   l <| lg_cycles := map_imap (fun k c => Some (if chosen k c then c <| cy_kill_switch := on |> else c)) (lg_cycles l) |>).

(** The cycle may carry paid traffic again: freshly reconciled, below its ceiling, and
    some profile of the provider enabled. Source: src/catalogue-control/src/catalogue_control/proxy_api.py:536-548, kill_switch. *)
Definition may_clear (provider : string) (l : Ledger) (c : Cycle) : bool :=
  cy_reconciliation_ok c && match cy_reconciled_at c with Some t => lg_now l - 20 * 60 * 1000000 <? t | None => false end
  && (Z.max (cy_reported c) (cy_application c) <? cy_operational c)
  && existsb (fun p => bool_decide (pf_provider (snd p) = provider) && pf_enabled (snd p)) (map_to_list (lg_profiles l)).

Inductive KillSwitchAction := KS_activate | KS_clear | KS_revoke.

(** Behind the authentication, the confirmation and the idempotency of the request;
    [false]: the answer is 409. Revoking also asks every active reservation of the
    provider back. Source: src/catalogue-control/src/catalogue_control/proxy_api.py:509-555, kill_switch. *)
Definition kill_switch (proxy_enabled : bool) (provider : string) (action : KillSwitchAction) : ledger bool :=
  match action with
  | KS_activate => set_kill_switch provider true (fun _ _ => true)
  | KS_revoke => atomically (
      row ← set_kill_switch provider true (fun _ _ => true);
      _ ← modify (fun l => l <| lg_reservations := map_imap (fun _ r => Some (
            if bool_decide (rs_provider r = provider /\ rs_state r = R_active)
            then r <| rs_revocation := true |> <| rs_state := R_revocation_requested |> else r)) (lg_reservations l) |>);
      mret row)
  | KS_clear => if proxy_enabled then set_kill_switch provider false (may_clear provider) else mret false
  end.
