(* ===== verification/LedgerProperties.v ===== *)
(** What the ledger of paid traffic guarantees: reservations and settlements stay
    within the operational ceiling of their billing cycle, an attempt is settled
    once, and no account is ever lowered. *)
From S2P Require Export ProxyLedger.
Open Scope Z_scope.

(** * Sums over tables *)

Section sum_over.
Context {V : Type}.
Implicit Types (f g : V -> Z) (m : gmap Z V).

Lemma sum_over_fresh f m k v : m !! k = None -> sum_over f (<[k:=v]> m) = f v + sum_over f m.
Proof. intros Hk. unfold sum_over. rewrite fmap_insert, map_sum_insert; [done|]. by rewrite lookup_fmap, Hk. Qed.
Lemma sum_over_set f m k v v' : m !! k = Some v -> sum_over f (<[k:=v']> m) = sum_over f m - f v + f v'.
Proof.
intros Hk. rewrite <- (insert_delete_id m k v Hk) at 2. rewrite <- (insert_delete_eq m k v').
rewrite !sum_over_fresh by apply lookup_delete_eq. lia.
Qed.
Lemma sum_over_mono f g m : (forall k v, m !! k = Some v -> f v <= g v) -> sum_over f m <= sum_over g m.
Proof.
induction m as [|k v m Hk IH] using map_ind; intros H; [unfold sum_over; rewrite !fmap_empty; done|].
rewrite !sum_over_fresh by done. specialize (H k v (lookup_insert_eq _ _ _)) as H1. assert (sum_over f m <= sum_over g m); [|lia].
apply IH. intros i x Hi. apply (H i). rewrite lookup_insert_ne; [done|]. by intros ->; congruence.
Qed.
Lemma sum_over_ext f g m : (forall k v, m !! k = Some v -> f v = g v) -> sum_over f m = sum_over g m.
Proof. intros H. apply Z.le_antisymm; apply sum_over_mono; intros k v Hk; rewrite (H k v Hk); lia. Qed.
Lemma sum_over_zero f m : (forall k v, m !! k = Some v -> f v = 0) -> sum_over f m = 0.
Proof.
intros H. rewrite (sum_over_ext f (fun _ => 0)) by done. clear H.
induction m as [|k v m Hk IH] using map_ind; [done|]. rewrite sum_over_fresh by done. lia.
Qed.
Lemma sum_over_nonneg f m : (forall k v, m !! k = Some v -> 0 <= f v) -> 0 <= sum_over f m.
Proof. intros H. rewrite <- (sum_over_zero (fun _ : V => 0) m) by done. by apply sum_over_mono. Qed.
Lemma sum_over_plus f g m : sum_over (fun v => f v + g v) m = sum_over f m + sum_over g m.
Proof.
induction m as [|k v m Hk IH] using map_ind; [done|]. rewrite !sum_over_fresh by done. lia.
Qed.
Lemma sum_over_imap f g (h : Z -> V -> V) m : (forall k v, m !! k = Some v -> f (h k v) <= g v) ->
  sum_over f (map_imap (fun k v => Some (h k v)) m) <= sum_over g m.
Proof.
induction m as [|k v m Hk IH] using map_ind; intros H; [by rewrite map_imap_empty|].
rewrite (map_imap_insert_Some _ _ _ _ (h k v)) by done. rewrite !sum_over_fresh; [|done|by rewrite map_lookup_imap, Hk].
specialize (H k v (lookup_insert_eq _ _ _)) as H1.
assert (sum_over f (map_imap (fun k v => Some (h k v)) m) <= sum_over g m); [|lia].
apply IH. intros i x Hi. apply (H i). rewrite lookup_insert_ne; [done|]. by intros ->; congruence.
Qed.
End sum_over.

(** * Running the operations *)

Lemma wp_demand b m (Q : result ledger_exn () -> Ledger -> Prop) l :
  (b = true -> Q (Ok ()) l) -> Q (Err (ProxyDenied m)) l -> wp (demand b m) Q l.
Proof. destruct b; intros H1 H2; [by apply H1|done]. Qed.
(** Symbolic execution up to the next choice; the refusals leave the ledger alone. *)
Ltac ledger_steps :=
  repeat (lazymatch goal with
    | |- wp (demand _ _) _ _ => apply wp_demand; [intros ?|done]
    | |- wp (deny _) _ _ => done
    | |- wp (atomically _) _ _ => apply wp_atomically
    | |- wp (gets _ ) _ _ => apply wp_gets
    | _ => wp_step
    end; cbv beta iota).

(** * What a billing cycle holds *)

(** What a reservation holds of its cycle: all its bytes while it is active, then
    what was used of them. *)
Definition held (k : string * Z) : ReservationRow -> Z :=
  when_row (in_cycle k) (fun r => if is_active (rs_state r) then rs_reserved r else Z.min (rs_estimated r) (rs_reserved r)).
Definition held_in (k : string * Z) (l : Ledger) : Z := sum_over (held k) (lg_reservations l).

(** By how much the attempts of a reservation exceeded their estimates. *)
Definition overrun (a : AttemptRow) : Z :=
  match ta_state a with A_reconciled actual _ => Z.max 0 (actual - ta_estimated a) | _ => 0 end.
Definition overrun_of (id : Z) (l : Ledger) : Z :=
  sum_over (when_row (fun a => bool_decide (ta_reservation a = id)) overrun) (lg_attempts l).

(** * Histories *)

Inductive ledger_op :=
| Reserve (q : ReservationRequest) (client_now : Z)
| Authorize (reservation estimated : Z) (maximum_requests : option Z)
| ReconcileAttempt (attempt actual requests : Z)
| ReleaseAttempt (attempt : Z)
| Close (reservation used requests : Z)
| CloseStale (owners : Owners)
| ReconcileCycle (provider : string) (start reported : Z) (successful : bool)
| OpenCycle (start stop reported : Z)
| KillSwitch (enabled : bool) (provider : string) (action : KillSwitchAction)
| Administer (profiles : gmap Z ProxyProfileRow) (routes : gmap Z ProxyRouteRow) (allocations : gmap (string * Z * Z) Z)
| Wait (now : Z).

Section histories.
Context (day_start : Z -> Z).

Definition perform (op : ledger_op) (l : Ledger) : Ledger :=
  match op with
  | Reserve q now => (reserve day_start q now l).2
  | Authorize id bytes n => (authorize_reservation_attempt id bytes n l).2
  | ReconcileAttempt id actual n => (reconcile_reservation_attempt id actual n l).2
  | ReleaseAttempt id => (release_reservation_attempt id l).2
  | Close id used n => (close_reservation id used n l).2
  | CloseStale owners => (close_stale_reservations owners l).2
  | ReconcileCycle provider start reported ok => (reconcile provider start reported ok l).2
  | OpenCycle start stop reported => (open_cycle start stop reported l).2
  | KillSwitch enabled provider action => (kill_switch enabled provider action l).2
  | Administer profiles routes allocations =>
      l <| lg_profiles := profiles |> <| lg_routes := routes |> <| lg_allocations := allocations |>
  | Wait now => l <| lg_now := now |>
  end.

(** The discipline of the ledger's clients ([ops/commerce_scraper_proxy.py]): an
    attempt is reconciled before its reservation is settled, and a settlement after
    the first brings no new bytes. *)
Definition disciplined (l : Ledger) (op : ledger_op) : Prop :=
  match op with
  | ReconcileAttempt a _ _ => forall x r, lg_attempts l !! a = Some x -> ta_state x = A_authorized ->
      lg_reservations l !! ta_reservation x = Some r -> is_active (rs_state r) = true
  | Close id used _ => forall r, lg_reservations l !! id = Some r -> is_active (rs_state r) = false -> used <= rs_estimated r
  | _ => True
  end.
Definition ledger_step (l l' : Ledger) : Prop := exists op, disciplined l op /\ l' = perform op l.

Record ledger_ok (l : Ledger) : Prop := {
  lo_fresh : forall id, lg_next_id l <= id -> lg_reservations l !! id = None /\ lg_attempts l !! id = None;
  lo_row : forall id r, lg_reservations l !! id = Some r ->
    0 < rs_reserved r /\ 0 <= rs_estimated r /\ is_Some (lg_cycles l !! (rs_provider r, rs_cycle_start r));
  lo_attempt : forall a x, lg_attempts l !! a = Some x -> 0 <= ta_estimated x /\ is_Some (lg_reservations l !! ta_reservation x);
  lo_within : forall id r, lg_reservations l !! id = Some r -> is_active (rs_state r) = true ->
    rs_estimated r + pending_bytes id l <= rs_reserved r + overrun_of id l;
  lo_application : forall k c, lg_cycles l !! k = Some c -> settled_in k l <= cy_application c;
  lo_ceiling : forall k c, lg_cycles l !! k = Some c -> held_in k l <= cy_operational c;
}.

(** Nothing but the clock, the administered tables and the requests changed. *)
Lemma same_rows_ok l l' : ledger_ok l -> lg_next_id l' = lg_next_id l -> lg_reservations l' = lg_reservations l ->
  lg_attempts l' = lg_attempts l -> lg_cycles l' = lg_cycles l -> ledger_ok l'.
Proof.
intros [F R A W S C] E1 E2 E3 E4.
split; unfold pending_bytes, overrun_of, settled_in, held_in; rewrite ?E1, ?E2, ?E3, ?E4; done.
Qed.

(** Cycles may change, and new ones appear, as long as no limit is lowered and no
    account is. *)
Lemma cycles_ok l cycles : ledger_ok l ->
  (forall k c, lg_cycles l !! k = Some c -> exists c', cycles !! k = Some c' /\ cy_operational c' = cy_operational c /\ cy_application c <= cy_application c') ->
  (forall k c', cycles !! k = Some c' -> lg_cycles l !! k = None -> 0 <= cy_application c' /\ 0 <= cy_operational c') ->
  ledger_ok (l <| lg_cycles := cycles |>).
Proof.
intros [F R A W S C] H1 H2.
assert (N : forall k, lg_cycles l !! k = None -> forall id r, lg_reservations l !! id = Some r -> in_cycle k r = false).
{ intros k Hk id r Hr. destruct (R id r Hr) as (_ & _ & [c Hc]). unfold in_cycle. apply bool_decide_false. intros [E1 E2].
  destruct k as [p t]. simpl in *. subst. congruence. }
split; simpl; try done.
- intros id r Hr. destruct (R id r Hr) as (? & ? & [c Hc]). split_and!; try done. destruct (H1 _ c Hc) as (c' & -> & _). by eexists.
- intros k c' Hc'. destruct (lg_cycles l !! k) as [c|] eqn:Hc.
  + destruct (H1 k c Hc) as (c2 & E & _ & E2). rewrite Hc' in E. simplify_eq. specialize (S k c Hc). unfold settled_in in *. simpl. lia.
  + destruct (H2 k c' Hc' Hc) as [H3 _]. unfold settled_in. simpl. rewrite sum_over_zero; [done|].
    intros id r Hr. unfold when_row. by rewrite (N k Hc id r Hr).
- intros k c' Hc'. destruct (lg_cycles l !! k) as [c|] eqn:Hc.
  + destruct (H1 k c Hc) as (c2 & E & E2 & _). rewrite Hc' in E. simplify_eq. specialize (C k c Hc). unfold held_in in *. simpl. lia.
  + destruct (H2 k c' Hc' Hc) as [_ H3]. unfold held_in. simpl. rewrite sum_over_zero; [done|].
    intros id r Hr. unfold held, when_row. by rewrite (N k Hc id r Hr).
Qed.

(** ** Settling *)

(** What happens to a row: nothing that counts, or a reservation is settled. *)
Definition settles (r r' : ReservationRow) : Prop :=
  rs_provider r' = rs_provider r /\ rs_cycle_start r' = rs_cycle_start r /\ rs_reserved r' = rs_reserved r
  /\ ((is_active (rs_state r') = is_active (rs_state r) /\ rs_estimated r' = rs_estimated r)
      \/ (is_active (rs_state r) = true /\ is_active (rs_state r') = false /\ rs_estimated r <= rs_estimated r')).

Lemma settle_ok l (h : Z -> ReservationRow -> ReservationRow) (touched : string * Z -> bool) :
  ledger_ok l ->
  (forall id r, lg_reservations l !! id = Some r -> settles r (h id r)) ->
  (forall id r, lg_reservations l !! id = Some r -> is_active (rs_state r) = true -> is_active (rs_state (h id r)) = false ->
     touched (rs_provider r, rs_cycle_start r) = true) ->
  let l1 := l <| lg_reservations := map_imap (fun id r => Some (h id r)) (lg_reservations l) |> in
  ledger_ok (l1 <| lg_cycles := map_imap (fun k c => Some (if touched k then settled_cycle k l1 c else c)) (lg_cycles l) |>).
Proof.
intros [F R A W S C] H T l1.
assert (L : forall id r', lg_reservations l1 !! id = Some r' -> exists r, lg_reservations l !! id = Some r /\ r' = h id r).
{ intros id r'. simpl. rewrite map_lookup_imap. destruct (lg_reservations l !! id) as [r|]; [|done]. intros [= <-]. by exists r. }
assert (K : forall k id r, lg_reservations l !! id = Some r -> in_cycle k (h id r) = in_cycle k r).
{ intros k id r Hr. destruct (H id r Hr) as (E1 & E2 & _). unfold in_cycle. by rewrite E1, E2. }
assert (U : forall k c, map_imap (fun k c => Some (if touched k then settled_cycle k l1 c else c)) (lg_cycles l) !! k = Some c ->
  exists c0, lg_cycles l !! k = Some c0 /\ c = if touched k then settled_cycle k l1 c0 else c0).
{ intros k c. rewrite map_lookup_imap. destruct (lg_cycles l !! k) as [c0|]; [|done]. intros [= <-]. by exists c0. }
split; simpl.
- intros id Hid. destruct (F id Hid) as [F1 F2]. by rewrite map_lookup_imap, F1.
- intros id r' Hr'. destruct (L id r' Hr') as (r & Hr & ->). destruct (R id r Hr) as (R1 & R2 & [c Hc]). destruct (H id r Hr) as (E1 & E2 & E3 & E4).
  rewrite E1, E2, E3, map_lookup_imap, Hc. split_and!; [done| |by eexists]. destruct E4 as [[_ ->]|(_ & _ & ?)]; lia.
- intros a x Hx. destruct (A a x Hx) as [A1 [r Hr]]. split; [done|]. rewrite map_lookup_imap, Hr. by eexists.
- intros id r' Hr' Hi. destruct (L id r' Hr') as (r & Hr & ->). destruct (H id r Hr) as (_ & _ & E3 & [[E E4]|(_ & E & _)]); [|congruence].
  rewrite E3, E4. apply (W id r Hr). by rewrite <- E.
- intros k c Hc. destruct (U k c Hc) as (c0 & Hc0 & ->). specialize (S k c0 Hc0).
  destruct (touched k) eqn:Et; [unfold settled_cycle; simpl; change (settled_in k (_ <| lg_cycles := _ |>)) with (settled_in k l1); lia|].
  etrans; [|exact S]. unfold settled_in. simpl. apply sum_over_imap. intros id r Hr. unfold when_row. rewrite (K k id r Hr).
  destruct (in_cycle k r) eqn:Ek; [|done]. simpl. destruct (H id r Hr) as (_ & _ & _ & [[E E4]|(E & E' & _)]); [by rewrite E, E4|].
  specialize (T id r Hr E E'). unfold in_cycle in Ek. apply bool_decide_eq_true in Ek as [E1 E2]. destruct k as [p t]. simpl in *. subst. congruence.
- intros k c Hc. destruct (U k c Hc) as (c0 & Hc0 & ->). specialize (C k c0 Hc0).
  assert (B : held_in k (l1 <| lg_cycles := map_imap (fun k c => Some (if touched k then settled_cycle k l1 c else c)) (lg_cycles l) |>) <= held_in k l).
  { unfold held_in. simpl. apply sum_over_imap. intros id r Hr. unfold held, when_row. rewrite (K k id r Hr).
    destruct (in_cycle k r); [|done]. destruct (H id r Hr) as (_ & _ & E3 & [[E E4]|(E & E' & _)]); [by rewrite E, E3, E4|]. rewrite E, E', E3. lia. }
  destruct (touched k); simpl in *; lia.
Qed.

(** ** Granting *)

Lemma held_bound k l : held_in k l <= settled_in k l + active_in k l.
Proof.
unfold held_in, settled_in, active_in. rewrite <- sum_over_plus. apply sum_over_mono. intros id r _. unfold held, when_row.
destruct (in_cycle k r), (is_active (rs_state r)); simpl; lia.
Qed.

Lemma grant_ok l row c : ledger_ok l ->
  lg_cycles l !! (rs_provider row, rs_cycle_start row) = Some c -> rs_state row = R_active -> rs_estimated row = 0 -> 0 < rs_reserved row ->
  cy_application c + active_in (rs_provider row, rs_cycle_start row) l + rs_reserved row <= cy_operational c ->
  ledger_ok (l <| lg_reservations := <[lg_next_id l := row]> (lg_reservations l) |> <| lg_next_id := lg_next_id l + 1 |>).
Proof.
intros [F R A W S C] Hc Ha He Hr Hb. destruct (F (lg_next_id l) ltac:(lia)) as [Fr Fa].
assert (L : forall id r, <[lg_next_id l := row]> (lg_reservations l) !! id = Some r -> (id = lg_next_id l /\ r = row) \/ (id <> lg_next_id l /\ lg_reservations l !! id = Some r)).
{ intros id r. destruct (decide (id = lg_next_id l)) as [->|Hn]; [rewrite lookup_insert_eq; intros [= <-]; by left|rewrite lookup_insert_ne by done; by right]. }
assert (NP : forall x a, lg_attempts l !! a = Some x -> ta_reservation x <> lg_next_id l).
{ intros x a Hx E. destruct (A a x Hx) as [_ [r Hr2]]. rewrite E, Fr in Hr2. done. }
split; simpl.
- intros id Hid. destruct (F id ltac:(lia)) as [? ?]. split; [|done]. rewrite lookup_insert_ne; [done|lia].
- intros id r Hir. destruct (L id r Hir) as [[-> ->]|[_ H]]; [|by apply (R id)]. split_and!; [done|lia|by eexists].
- intros a x Hx. destruct (A a x Hx) as [A1 [r Hr2]]. split; [done|]. rewrite lookup_insert_ne; [by eexists|]. intros E. by apply (NP x a Hx).
- intros id r Hir Hi. destruct (L id r Hir) as [[-> ->]|[_ H]]; [|by apply (W id r)].
  unfold pending_bytes, overrun_of. simpl. rewrite !sum_over_zero; [lia| |]; intros a x Hx; unfold when_row, pending_of; rewrite bool_decide_false; [done| |done|].
  + intros E. by apply (NP x a Hx).
  + intros [E _]. by apply (NP x a Hx).
- intros k c' Hc'. unfold settled_in. simpl. rewrite sum_over_fresh by done. unfold when_row at 1. rewrite Ha. simpl. rewrite andb_false_r. by apply S.
- intros k c' Hc'. unfold held_in. simpl. rewrite sum_over_fresh by done. unfold held at 1, when_row, in_cycle. rewrite Ha. simpl. case_bool_decide as Ek.
  + destruct Ek as [E1 E2]. destruct k as [p t]. simpl in *. subst. rewrite Hc in Hc'. simplify_eq.
    pose proof (held_bound (rs_provider row, rs_cycle_start row) l) as B. specialize (S _ _ Hc). unfold held_in in B. lia.
  + by apply C.
Qed.
(** ** Attempts *)

Lemma authorize_ok l id r bytes : ledger_ok l -> lg_reservations l !! id = Some r -> is_active (rs_state r) = true -> 0 <= bytes ->
  rs_estimated r + pending_bytes id l + bytes <= rs_reserved r ->
  ledger_ok (l <| lg_attempts := <[lg_next_id l := {| ta_reservation := id; ta_estimated := bytes; ta_state := A_authorized |}]> (lg_attempts l) |>
               <| lg_next_id := lg_next_id l + 1 |>).
Proof.
intros [F R A W S C] Hr Hi Hb Hg. destruct (F (lg_next_id l) ltac:(lia)) as [Fr Fa].
split; simpl; try done.
- intros i Hid. destruct (F i ltac:(lia)) as [? ?]. split; [done|]. rewrite lookup_insert_ne; [done|lia].
- intros a x Hx. destruct (decide (a = lg_next_id l)) as [->|Hn]; [rewrite lookup_insert_eq in Hx|rewrite lookup_insert_ne in Hx by done; by apply (A a)].
  simplify_eq. simpl. split; [done|by eexists].
- intros i r' Hr' Hi'. unfold pending_bytes, overrun_of. simpl. rewrite !sum_over_fresh by done. unfold when_row at 1 3, pending_of at 1, overrun at 1. simpl.
  specialize (W i r' Hr' Hi'). assert (0 <= overrun_of i l).
  { apply sum_over_nonneg. intros a x _. unfold when_row, overrun. destruct (bool_decide _), (ta_state x); lia. }
  unfold pending_bytes, overrun_of in *. case_bool_decide as E1; case_bool_decide as E2; try (by destruct E2; [destruct E1]); try (subst; simplify_eq); lia.
Qed.

(** A resolved attempt is no longer pending. *)
Definition resolved (st : AttemptState) (x : AttemptRow) : AttemptRow :=
  {| ta_reservation := ta_reservation x; ta_estimated := ta_estimated x; ta_state := st |}.
Definition actual_of (st : AttemptState) : Z := match st with A_reconciled actual _ => actual | _ => 0 end.

Lemma pending_resolved id l a x st : lg_attempts l !! a = Some x -> ta_state x = A_authorized -> st <> A_authorized ->
  sum_over (when_row (pending_of id) ta_estimated) (<[a := resolved st x]> (lg_attempts l))
  = pending_bytes id l - (if bool_decide (ta_reservation x = id) then ta_estimated x else 0).
Proof.
intros Hx Ha Hst. rewrite (sum_over_set _ _ _ x) by done. unfold pending_bytes, when_row, pending_of. simpl.
rewrite (bool_decide_false (ta_reservation x = id /\ st = A_authorized)) by (by intros [_ ?]).
destruct (decide (ta_reservation x = id)) as [E|E]; [rewrite !bool_decide_true by done; lia|rewrite !bool_decide_false; [lia|done|by intros [? _]]].
Qed.
Lemma overrun_resolved id l a x st : lg_attempts l !! a = Some x -> ta_state x = A_authorized ->
  sum_over (when_row (fun y => bool_decide (ta_reservation y = id)) overrun) (<[a := resolved st x]> (lg_attempts l))
  = overrun_of id l + (if bool_decide (ta_reservation x = id) then overrun (resolved st x) else 0).
Proof.
intros Hx Ha. rewrite (sum_over_set _ _ _ x) by done. unfold overrun_of, when_row. simpl.
assert (overrun x = 0) as E by (unfold overrun; by rewrite Ha). rewrite E. case_bool_decide; lia.
Qed.

(** An authorised attempt is reconciled into its active reservation, or released. *)
Lemma resolve_ok l a x st r n : ledger_ok l -> lg_attempts l !! a = Some x -> ta_state x = A_authorized -> st <> A_authorized ->
  0 <= actual_of st -> lg_reservations l !! ta_reservation x = Some r -> (is_active (rs_state r) = true \/ actual_of st = 0) ->
  ledger_ok (l <| lg_attempts := <[a := resolved st x]> (lg_attempts l) |>
               <| lg_reservations := <[ta_reservation x := r <| rs_estimated := rs_estimated r + actual_of st |> <| rs_requests := n |>]> (lg_reservations l) |>).
Proof.
intros [F R A W S C] Hx Ha Hst Hact Hr Hi.
destruct (R _ r Hr) as (R1 & R2 & R3). destruct (A a x Hx) as [A1 _].
set (r' := r <| rs_estimated := _ |> <| rs_requests := _ |>).
assert (L : forall id q, <[ta_reservation x := r']> (lg_reservations l) !! id = Some q ->
  (id = ta_reservation x /\ q = r') \/ (id <> ta_reservation x /\ lg_reservations l !! id = Some q)).
{ intros id q. destruct (decide (id = ta_reservation x)) as [->|Hn]; [rewrite lookup_insert_eq; intros [= <-]; by left|rewrite lookup_insert_ne by done; by right]. }
assert (O : 0 <= ta_estimated x + overrun (resolved st x) - actual_of st) by (unfold overrun, actual_of; simpl; destruct st; lia).
split; simpl.
- intros id Hid. destruct (F id Hid) as [F1 F2]. split; rewrite lookup_insert_ne; try done; intros E; congruence.
- intros id q Hq. destruct (L id q Hq) as [[-> ->]|[_ H]]; [|by apply (R id)]. simpl. split_and!; [done|lia|done].
- intros b y Hy. destruct (decide (b = a)) as [->|Hn]; [rewrite lookup_insert_eq in Hy; simplify_eq; simpl; split; [done|]; rewrite lookup_insert_eq; by eexists|].
  rewrite lookup_insert_ne in Hy by done. destruct (A b y Hy) as [? Hy2]. split; [done|]. by apply lookup_insert_is_Some'; right.
- intros id q Hq Hin. unfold pending_bytes, overrun_of. simpl. rewrite (pending_resolved id l a x) by done. rewrite (overrun_resolved id l a x) by done.
  destruct (L id q Hq) as [[-> ->]|[Hne H]].
  + rewrite !bool_decide_true by done. specialize (W _ r Hr Hin). simpl. lia.
  + rewrite !bool_decide_false by done. specialize (W id q H Hin). lia.
- intros k c Hc. specialize (S k c Hc). unfold settled_in in *. simpl. rewrite (sum_over_set _ _ _ r) by done. set (f := when_row _ _) in *.
  assert (f r' = f r) as ->; [|lia]. unfold f, when_row. change (rs_state r') with (rs_state r). change (in_cycle k r') with (in_cycle k r).
  destruct Hi as [Hi|E]; [by rewrite Hi, !andb_false_r|]. unfold r'. simpl. by rewrite E, Z.add_0_r.
- intros k c Hc. specialize (C k c Hc). unfold held_in in *. simpl. rewrite (sum_over_set _ _ _ r) by done.
  assert (held k r' = held k r) as ->; [|lia]. unfold held, when_row. change (rs_state r') with (rs_state r). change (in_cycle k r') with (in_cycle k r).
  destruct Hi as [Hi|E]; [by rewrite Hi|]. unfold r'. simpl. by rewrite E, Z.add_0_r.
Qed.
(** ** Every operation *)

(** A grant that passed every check fits the ceiling. *)
Lemma check_allowances_wp k c q now l :
  wp (check_allowances day_start k c q now)
    (fun r l' => l' = l /\ (r = Ok () -> Z.max (cy_reported c) (cy_application c) + active_in k l + rr_bytes q <= cy_operational c)) l.
Proof.
unfold check_allowances. ledger_steps. destruct (rr_pilot q); ledger_steps; split; try done; intros _; lia.
Qed.

Lemma current_cycles_In provider l start c : (start, c) ∈ current_cycles provider l -> lg_cycles l !! (provider, start) = Some c.
Proof.
unfold current_cycles. intros H. apply list_elem_of_omap in H as ([[name s] c'] & H & E).
destruct (_ && _) eqn:Eb; [|done]. simplify_eq. apply elem_of_map_to_list in H. apply andb_true_iff in Eb as [Eb _]. apply andb_true_iff in Eb as [Eb _].
by apply bool_decide_eq_true in Eb as [-> _].
Qed.
Lemma validated_provider_wp p l : wp (validated_provider p) (fun _ l' => l' = l) l.
Proof. unfold validated_provider. destruct p; [done|]. by destruct (_ && _). Qed.

Lemma reserve_ok q now l : ledger_ok l -> wp (reserve day_start q now) (fun _ l' => ledger_ok l') l.
Proof.
intros HI. unfold reserve. ledger_steps.
eapply wp_conseq; [apply validated_provider_wp|]. intros [provider|e] ? ->; [|done].
destruct (rr_profile_id q) as [profile_id|]; [|done]. destruct (rr_route_id q) as [route_id|]; [|done]. ledger_steps.
destruct (current_cycles provider l) as [|[start c] [|? ?]] eqn:Ec; [done| |done]. ledger_steps.
eapply wp_conseq; [apply check_allowances_wp|]. intros [[]|e] ? [-> Hb]; [|done]. ledger_steps.
unfold wp, insert_reservation. destruct (existsb _ _); [done|].
apply (grant_ok l _ c); simpl; try done; [apply current_cycles_In; rewrite Ec; by left|lia|specialize (Hb eq_refl); lia].
Qed.

Lemma authorize_attempt_ok id bytes n l : ledger_ok l -> wp (authorize_reservation_attempt id bytes n) (fun _ l' => ledger_ok l') l.
Proof.
intros HI. unfold authorize_reservation_attempt. destruct (bytes <? 0) eqn:Eb; [done|]. destruct (match n with Some _ => _ | None => _ end); [done|].
ledger_steps. unfold check_cycle. ledger_steps. destruct (lg_reservations l !! id) as [r|] eqn:Hr; simpl; [|done].
destruct (lg_cycles l !! _) as [c|]; simpl; [|done]. ledger_steps. destruct (_ || _) eqn:E; [done|]. ledger_steps.
apply orb_false_iff in E as [E _]. apply (authorize_ok l id r); try done; lia.
Qed.

(** A row updated in place, as an update of the whole table. *)
Lemma insert_as_imap {V} (m : gmap Z V) id v v' : m !! id = Some v ->
  <[id := v']> m = map_imap (fun i x => Some (if decide (i = id) then v' else x)) m.
Proof.
intros Hv. apply map_eq. intros i. rewrite map_lookup_imap. destruct (decide (i = id)) as [->|Hn].
- by rewrite lookup_insert_eq, Hv.
- rewrite lookup_insert_ne by done. by destruct (m !! i).
Qed.
Lemma alter_as_imap {K V} `{Countable K} (m : gmap K V) k f : alter f k m = map_imap (fun i x => Some (if bool_decide (i = k) then f x else x)) m.
Proof.
apply map_eq. intros i. rewrite map_lookup_imap. case_bool_decide as E; [subst; rewrite lookup_alter_eq; by destruct (m !! k)|].
rewrite lookup_alter_ne by done. by destruct (m !! i).
Qed.
Lemma wp_set_attempt l a x st (Q : result ledger_exn () -> Ledger -> Prop) : lg_attempts l !! a = Some x ->
  Q (Ok ()) (l <| lg_attempts := <[a := resolved st x]> (lg_attempts l) |>) -> wp (set_attempt a st) Q l.
Proof. intros Hx H. unfold wp, set_attempt, modify. by rewrite (alter_alt_Some _ _ _ x). Qed.
Lemma wp_update_reservation l id r guard f (Q : result ledger_exn (option ReservationRow) -> Ledger -> Prop) : lg_reservations l !! id = Some r ->
  (guard r = true -> Q (Ok (Some (f (lg_now l) r))) (l <| lg_reservations := <[id := f (lg_now l) r]> (lg_reservations l) |>)) ->
  (guard r = false -> Q (Ok None) l) -> wp (update_reservation id guard f) Q l.
Proof. intros Hr H1 H2. unfold wp, update_reservation. rewrite Hr. destruct (guard r); [by apply H1|by apply H2]. Qed.

Lemma wp_update_missing l id guard f (Q : result ledger_exn (option ReservationRow) -> Ledger -> Prop) : lg_reservations l !! id = None ->
  Q (Ok None) l -> wp (update_reservation id guard f) Q l.
Proof. intros Hr H. unfold wp, update_reservation. by rewrite Hr. Qed.

Lemma reconcile_attempt_ok a actual n l : ledger_ok l -> disciplined l (ReconcileAttempt a actual n) -> wp (reconcile_reservation_attempt a actual n) (fun _ l' => ledger_ok l') l.
Proof.
intros HI Hd. unfold reconcile_reservation_attempt. destruct (_ || _) eqn:E; [done|]. apply orb_false_iff in E as [E1 E2].
ledger_steps. destruct (lg_attempts l !! a) as [x|] eqn:Hx; [|done]. ledger_steps.
destruct (lo_attempt l HI a x Hx) as [_ [r Hr]].
destruct (ta_state x) as [|b m|] eqn:Ea; ledger_steps; [|by rewrite Hr; ledger_steps].
apply (wp_set_attempt _ _ x); [done|]. ledger_steps. apply (wp_update_reservation _ _ r); [done| |done]. intros _. ledger_steps.
simpl. rewrite lookup_insert_eq. ledger_steps.
apply (resolve_ok l a x (A_reconciled actual n) r (rs_requests r + n)); simpl; try done; [lia|]. left. by apply (Hd x).
Qed.

Lemma release_attempt_ok a l : ledger_ok l -> wp (release_reservation_attempt a) (fun _ l' => ledger_ok l') l.
Proof.
intros HI. unfold release_reservation_attempt. ledger_steps. destruct (lg_attempts l !! a) as [x|] eqn:Hx; [|done].
destruct (lo_attempt l HI a x Hx) as [_ [r Hr]]. destruct (ta_state x) eqn:Ea; [|done|done].
apply (wp_set_attempt _ _ x); [done|]. simpl.
pose proof (resolve_ok l a x A_released r (rs_requests r) HI Hx Ea ltac:(done) ltac:(done) Hr ltac:(by right)) as H. simpl in H.
assert (Er : r <| rs_estimated := rs_estimated r + 0 |> <| rs_requests := rs_requests r |> = r) by (rewrite Z.add_0_r; by destruct r).
rewrite Er in H. by rewrite (insert_id (lg_reservations l)) in H.
Qed.

(** Requests to reconcile do not matter. *)
Lemma request_reconcile_ok q l : ledger_ok l -> wp (request_reconcile q) (fun _ l' => ledger_ok l') l.
Proof. intros H. unfold wp, request_reconcile. simpl. destruct (existsb _ _); [done|]. by apply (same_rows_ok l). Qed.

Lemma settle_row_ok l id r r' : ledger_ok l -> lg_reservations l !! id = Some r -> settles r r' ->
  let k := (rs_provider r, rs_cycle_start r) in
  let l1 := l <| lg_reservations := <[id := r']> (lg_reservations l) |> in
  ledger_ok (l1 <| lg_cycles := alter (settled_cycle k l1) k (lg_cycles l) |>).
Proof.
intros HI Hr Hs k l1. set (h := fun i x => if decide (i = id) then r' else x : ReservationRow).
assert (Hh : forall i x, lg_reservations l !! i = Some x -> settles x (h i x)).
{ intros i x Hx. unfold h. destruct (decide (i = id)) as [->|]; [by simplify_eq|]. unfold settles. tauto. }
pose proof (settle_ok l h (fun k' => bool_decide (k' = k)) HI Hh) as K. simpl in K. unfold l1 at 2. rewrite alter_as_imap. unfold l1.
rewrite (insert_as_imap _ _ r) by done. replace (map_imap _ (lg_cycles l)) with (map_imap (fun k' c => Some (if bool_decide (k' = k)
  then settled_cycle k' (l <| lg_reservations := map_imap (fun i x => Some (h i x)) (lg_reservations l) |>) c else c)) (lg_cycles l)).
- apply K. intros i x Hx E1 E2. apply bool_decide_eq_true. unfold h in E2. destruct (decide (i = id)) as [->|]; [|congruence]. by simplify_eq.
- apply map_eq. intros k'. rewrite !map_lookup_imap. destruct (lg_cycles l !! k') as [c|]; [|done]. simpl. f_equal. by case_bool_decide; subst.
Qed.

Lemma close_ok id used n l : ledger_ok l -> disciplined l (Close id used n) -> wp (close_reservation id used n) (fun _ l' => ledger_ok l') l.
Proof.
intros HI Hd. unfold close_reservation, update_cycle. ledger_steps. destruct (lg_reservations l !! id) as [r|] eqn:Hr; [|done].
specialize (Hd r Hr). ledger_steps. apply (wp_update_reservation _ _ r); [done| |]; intros Ha; ledger_steps; cbn [is_some]; ledger_steps; cbn [is_some orb].
- ledger_steps. eapply wp_conseq; [apply request_reconcile_ok|intros [[]|e] l'; done].
  apply (settle_row_ok l id r); [done|done|]. unfold settles. simpl. split_and!; try done. right. split_and!; try done. lia.
- apply (wp_update_reservation _ _ r); [done| |]; intros Hg; [|done]. specialize (Hd Ha). cbn [is_some orb]. ledger_steps.
  eapply wp_conseq; [apply request_reconcile_ok|intros [[]|e] l'; done].
  apply (settle_row_ok l id r); [done|done|]. unfold settles. simpl. split_and!; try done. left. split; [done|lia].
Qed.

Lemma close_stale_ok owners l : ledger_ok l ->
  wp (close_stale_reservations owners) (fun _ l' => ledger_ok l') l.
Proof.
intros HI. unfold close_stale_reservations. ledger_steps. set (rows := filter _ _).
set (l2 := _ <| lg_cycles := _ |>). assert (H2 : ledger_ok l2).
{ set (h := fun (_ : Z) r => if is_active (rs_state r) && abandoned owners (lg_now l) r
              then r <| rs_state := R_cancelled |> <| rs_closed_at := Some (lg_now l) |> else r).
  apply (settle_ok l h (fun k => bool_decide (k ∈ remove_dups ((fun p => (rs_provider p.2, rs_cycle_start p.2)) <$> rows))) HI).
  - intros id r Hr. unfold settles, h. destruct (is_active (rs_state r)) eqn:Ea; simpl; [|tauto].
    destruct (abandoned owners _ r) eqn:Eb; [|tauto]. simpl. split_and!; try done. by right.
  - intros id r Hr Ha Hn. unfold h in Hn. rewrite Ha in Hn. simpl in Hn. destruct (abandoned owners _ r) eqn:Eb; [|congruence].
    apply bool_decide_eq_true, elem_of_remove_dups. apply list_elem_of_fmap. exists (id, r). split; [done|].
    apply list_elem_of_filter. simpl. rewrite Ha, Eb. split; [done|]. by apply elem_of_map_to_list. }
clearbody l2. clearbody rows. induction rows as [|p rows IH] in l2, H2 |- *; [done|].
apply IH. by apply (request_reconcile_ok _ l2).
Qed.

(** Raising an account of a cycle. *)
Lemma raise_cycle_ok l k f : ledger_ok l -> (forall c, cy_operational (f l c) = cy_operational c /\ cy_application c <= cy_application (f l c)) ->
  wp (update_cycle k f) (fun _ l' => ledger_ok l') l.
Proof.
intros HI Hf. unfold wp, update_cycle, modify. apply cycles_ok; [done| |]; rewrite alter_as_imap; intros k' c.
- intros Hc. rewrite map_lookup_imap, Hc. simpl. eexists. split; [done|]. case_bool_decide; [apply Hf|done].
- rewrite map_lookup_imap. by intros Hs Hn; rewrite Hn in Hs.
Qed.
Lemma reconcile_cycle_ok p start reported b l : ledger_ok l -> wp (reconcile p start reported b) (fun _ l' => ledger_ok l') l.
Proof.
intros HI. unfold reconcile. apply wp_bind. eapply wp_conseq; [apply validated_provider_wp|]. intros [provider|e] ? ->; [|done].
by apply raise_cycle_ok.
Qed.
Lemma set_kill_switch_ok p on gates l : ledger_ok l -> wp (set_kill_switch p on gates) (fun _ l' => ledger_ok l') l.
Proof.
intros HI. unfold wp, set_kill_switch. apply cycles_ok; [done| |]; intros k c; rewrite map_lookup_imap; [intros Hc; rewrite Hc|by intros Hs Hn; rewrite Hn in Hs].
simpl. eexists. split; [done|]. by destruct (_ && _).
Qed.
Lemma kill_switch_ok enabled p action l : ledger_ok l -> wp (kill_switch enabled p action) (fun _ l' => ledger_ok l') l.
Proof.
intros HI. destruct action; cbn [kill_switch]; [by apply set_kill_switch_ok|destruct enabled; [by apply set_kill_switch_ok|done]|].
ledger_steps. eapply wp_conseq; [by apply set_kill_switch_ok|]. intros [b|e] l1 H1; [|done]. ledger_steps.
set (h := fun (_ : Z) r => if bool_decide (rs_provider r = p /\ rs_state r = R_active) then r <| rs_revocation := true |> <| rs_state := R_revocation_requested |> else r).
assert (Hh : forall id r, is_active (rs_state (h id r)) = is_active (rs_state r) /\ rs_provider (h id r) = rs_provider r
  /\ rs_cycle_start (h id r) = rs_cycle_start r /\ rs_reserved (h id r) = rs_reserved r /\ rs_estimated (h id r) = rs_estimated r).
{ intros id r. unfold h. case_bool_decide as E; [|done]. destruct E as [_ E]. by rewrite E. }
pose proof (settle_ok l1 h (fun _ => false) H1) as K. cbv zeta beta iota in K.
assert (E : map_imap (fun (k : string * Z) c => Some c) (lg_cycles l1) = lg_cycles l1).
{ apply map_eq. intros k. rewrite map_lookup_imap. by destruct (lg_cycles l1 !! k). }
change (ledger_ok (l1 <| lg_reservations := map_imap (fun id r => Some (h id r)) (lg_reservations l1) |> <| lg_cycles := lg_cycles l1 |>)).
rewrite E in K. apply K; [|intros id r _ E1 E2; destruct (Hh id r) as [E3 _]; congruence].
intros id r _. destruct (Hh id r) as (E1 & E2 & E3 & E4 & E5). unfold settles. rewrite E1, E2, E3, E4, E5. tauto.
Qed.

Lemma open_cycle_ok start stop reported l : ledger_ok l -> wp (open_cycle start stop reported) (fun _ l' => ledger_ok l') l.
Proof.
intros HI. unfold open_cycle. ledger_steps.
set (l1 := l <| lg_cycles := _ |>). assert (H1 : ledger_ok l1).
{ apply cycles_ok; [done| |]; intros k c; rewrite map_lookup_imap; [intros Hc; rewrite Hc|by intros Hs Hn; rewrite Hn in Hs].
  simpl. eexists. split; [done|]. by destruct (_ && _). }
clearbody l1. destruct (lg_cycles l1 !! ("decodo", start)) as [c0|] eqn:E0.
- eapply wp_conseq; [by apply raise_cycle_ok|]. by intros [[]|e] l'.
- ledger_steps. destruct (existsb _ _); [done|]. ledger_steps. apply cycles_ok; [done| |]; intros k c Hk.
  + exists c. rewrite lookup_insert_ne; [done|congruence].
  + intros Hn. destruct (decide (k = ("decodo", start))) as [->|]; [rewrite lookup_insert_eq in Hk; by simplify_eq|].
    rewrite lookup_insert_ne in Hk; congruence.
Qed.

Lemma ledger_perform_ok op l : ledger_ok l -> disciplined l op -> ledger_ok (perform op l).
Proof.
intros HI Hd. destruct op; cbn [perform];
  [by apply reserve_ok|by apply authorize_attempt_ok|by apply reconcile_attempt_ok|by apply release_attempt_ok|by apply close_ok
  |by apply close_stale_ok|by apply reconcile_cycle_ok|by apply open_cycle_ok|by apply kill_switch_ok| |]; by apply (same_rows_ok l).
Qed.

(** A ledger before its first reservation. *)
Definition unspent (l : Ledger) : Prop :=
  lg_reservations l = ∅ /\ lg_attempts l = ∅ /\ forall k c, lg_cycles l !! k = Some c -> 0 <= cy_application c /\ 0 <= cy_operational c.

Lemma unspent_ok l : unspent l -> ledger_ok l.
Proof.
intros (Er & Ea & Hc). split; unfold pending_bytes, settled_in, held_in; rewrite ?Er, ?Ea; try done; intros k c Hk; apply (Hc k c Hk).
Qed.
Lemma ledger_history_ok l0 l : unspent l0 -> rtc ledger_step l0 l -> ledger_ok l.
Proof.
intros H0 Hs. apply unspent_ok in H0. induction Hs as [|l0 l1 l [op [Hd ->]] _ IH]; [done|]. apply IH. by apply ledger_perform_ok.
Qed.

(** C8. Over any history of reservations, attempts, settlements, reconciliations and
    interventions of the operator, in any order, that is disciplined - no attempt is
    reconciled after its reservation was settled, and settling a reservation that is
    settled already (closed as stale, say) reports no more bytes than its row holds -
    the bytes a billing cycle holds (what its active reservations reserved and what its
    settled ones used of theirs) never exceed its operational ceiling, and an active
    reservation is charged at most what it reserved, its attempts under way included,
    unless an attempt used more than its estimate, and then by no more than that excess.
    Both conditions are needed: see [LedgerDemo.late_attempt_overspends] and
    [LedgerDemo.late_settlement_overspends]. *)
Theorem spending_stays_within_the_ceiling l0 l : unspent l0 -> rtc ledger_step l0 l ->
  (forall k c, lg_cycles l !! k = Some c -> held_in k l <= cy_operational c)
  /\ (forall id r, lg_reservations l !! id = Some r -> is_active (rs_state r) = true ->
      rs_estimated r + pending_bytes id l <= rs_reserved r + overrun_of id l).
Proof. intros H0 Hs. pose proof (ledger_history_ok l0 l H0 Hs) as [? ? ? W ? C]. split; [exact C|exact W]. Qed.
End histories.

(** * The kill switch *)

Section kill_switch.
Context (day_start : Z -> Z) (k : string * Z).

Definition killed (l : Ledger) : Prop := exists c, lg_cycles l !! k = Some c /\ cy_kill_switch c = true.

(** Any operation at all, but for the operator's clearing of the switch. *)
Definition uncleared_step (l l' : Ledger) : Prop :=
  exists op, (forall enabled p, op <> KillSwitch enabled p KS_clear) /\ l' = perform day_start op l.

Lemma killed_imap l cycles (h : string * Z -> Cycle -> Cycle) : lg_cycles cycles = map_imap (fun k c => Some (h k c)) (lg_cycles l) ->
  (forall k c, cy_kill_switch c = true -> cy_kill_switch (h k c) = true) -> killed l -> killed cycles.
Proof. intros E Hh (c & Hc & Hk). exists (h k c). rewrite E, map_lookup_imap, Hc. split; [done|by apply Hh]. Qed.
Lemma killed_same l l' : lg_cycles l' = lg_cycles l -> killed l -> killed l'.
Proof. unfold killed. by intros ->. Qed.
Lemma keeps_killed_modify f : (forall l, killed l -> killed (f l)) -> keeps killed (modify f : ledger ()).
Proof. intros H l Hl. by apply H. Qed.
Lemma keeps_killed_atomically {A} (m : ledger A) : keeps killed m -> keeps killed (atomically m).
Proof. intros H l Hl. specialize (H l Hl). unfold wp, atomically in *. by destruct (m l) as [[a|e] l']. Qed.
Lemma keeps_killed_demand b m : keeps killed (demand b m).
Proof. destruct b; [apply keeps_ret|apply keeps_throw]. Qed.
Lemma keeps_killed_update_cycle k' f : (forall l c, cy_kill_switch c = true -> cy_kill_switch (f l c) = true) -> keeps killed (update_cycle k' f).
Proof.
intros Hf. apply keeps_killed_modify. intros l. apply (killed_imap _ _ (fun i c => if bool_decide (i = k') then f l c else c)); [by rewrite <- alter_as_imap|].
intros i c Hk. case_bool_decide; [by apply Hf|done].
Qed.
Lemma keeps_killed_update_reservation id g f : keeps killed (update_reservation id g f).
Proof. intros l Hl. unfold wp, update_reservation. destruct (lg_reservations l !! id); [|done]. by destruct (g _). Qed.
Lemma keeps_killed_request q : keeps killed (request_reconcile q).
Proof. apply keeps_killed_modify. intros l Hl. by destruct (existsb _ _). Qed.
Lemma keeps_killed_insert row : keeps killed (insert_reservation row).
Proof. intros l Hl. unfold wp, insert_reservation. by destruct (existsb _ _). Qed.
Lemma keeps_killed_attempt id st : keeps killed (set_attempt id st).
Proof. by apply keeps_killed_modify. Qed.
#[local] Hint Resolve keeps_killed_atomically keeps_killed_demand keeps_killed_update_reservation keeps_killed_request
  keeps_killed_insert keeps_killed_attempt : keeps.
Ltac keep := repeat first
  [ progress intros | apply keeps_bind | apply keeps_gets | apply keeps_ret | apply keeps_throw | apply keeps_killed_atomically
  | apply keeps_killed_demand | apply keeps_killed_update_reservation | apply keeps_killed_request | apply keeps_killed_insert
  | apply keeps_killed_attempt | case_match | done ].

Lemma reserve_killed q now : keeps killed (reserve day_start q now).
Proof. unfold reserve, validated_provider, check_allowances, deny. keep. Qed.
Lemma authorize_killed id bytes n : keeps killed (authorize_reservation_attempt id bytes n).
Proof. unfold authorize_reservation_attempt, check_cycle, deny. keep; by apply keeps_killed_modify. Qed.
Lemma reconcile_attempt_killed id bytes n : keeps killed (reconcile_reservation_attempt id bytes n).
Proof. unfold reconcile_reservation_attempt, deny. keep. Qed.
Lemma release_attempt_killed id : keeps killed (release_reservation_attempt id).
Proof. unfold release_reservation_attempt, deny. keep. Qed.
Lemma close_killed id used n : keeps killed (close_reservation id used n).
Proof. unfold close_reservation. keep; apply keeps_killed_update_cycle; intros l' c' Hk; unfold settled_cycle; simpl; by rewrite Hk. Qed.
Lemma settled_cycle_killed k' l c : cy_kill_switch c = true -> cy_kill_switch (settled_cycle k' l c) = true.
Proof. unfold settled_cycle. simpl. by intros ->. Qed.
Lemma close_stale_killed owners : keeps killed (close_stale_reservations owners).
Proof.
unfold close_stale_reservations. keep; apply keeps_killed_modify; intros l Hl; [done| |].
- destruct Hl as (c & Hc & Hk). unfold killed. simpl. rewrite map_lookup_imap, Hc. eexists. split; [done|].
  by destruct (bool_decide _); [apply settled_cycle_killed|].
- induction a0 as [|p rows IH] in l, Hl |- *; [done|]. simpl. apply IH. by case_match.
Qed.
Lemma reconcile_killed p start reported b : keeps killed (reconcile p start reported b).
Proof. unfold reconcile, validated_provider, deny. keep. all: apply keeps_killed_update_cycle; simpl; by intros l c ->. Qed.
Lemma open_cycle_killed start stop reported : keeps killed (open_cycle start stop reported).
Proof.
intros l Hl. unfold open_cycle. ledger_steps. set (l1 := l <| lg_cycles := _ |>).
assert (H1 : killed l1).
{ apply (killed_imap l _ (fun i c => if bool_decide (i.1 = "decodo" /\ cy_lifecycle c = "active") && (cy_end c <=? lg_now l)
    then c <| cy_lifecycle := "closed" |> else c)); [done| |done]. intros i c Hc. by destruct (_ && _). }
clearbody l1. destruct (lg_cycles l1 !! ("decodo", start)) as [c0|] eqn:E0.
- eapply wp_conseq; [apply keeps_killed_update_cycle; [|done]|by intros [[]|e] l']. simpl. by intros ? c ->.
- ledger_steps. destruct (existsb _ _); [done|]. ledger_steps. destruct H1 as (c & Hc & Hk). exists c. simpl.
  rewrite lookup_insert_ne; [done|congruence].
Qed.
Lemma kill_switch_killed enabled p action : action <> KS_clear -> keeps killed (kill_switch enabled p action).
Proof.
assert (S : forall gates, keeps killed (set_kill_switch p true gates)).
{ intros gates l Hl. unfold wp, set_kill_switch. eapply (killed_imap l _ (fun i c => if bool_decide (i.1 = p /\ cy_lifecycle c = "active") && gates l c
    then c <| cy_kill_switch := true |> else c)); [done| |done]. intros i c Hc. by destruct (_ && _). }
intros Hc. destruct action; [apply S|done|]. cbn [kill_switch]. keep; apply S || by apply keeps_killed_modify.
Qed.

Lemma uncleared_killed l l' : killed l -> rtc uncleared_step l l' -> killed l'.
Proof.
intros Hl Hs. induction Hs as [|l l1 l' [op [Ho ->]] _ IH]; [done|]. apply IH.
destruct op; cbn [perform];
  [by apply reserve_killed|by apply authorize_killed|by apply reconcile_attempt_killed|by apply release_attempt_killed|by apply close_killed
  |by apply close_stale_killed|by apply reconcile_killed|by apply open_cycle_killed| |by apply (killed_same l)|by apply (killed_same l)].
apply kill_switch_killed; [|done]. intros ->. by eapply Ho.
Qed.

(** Nothing is authorised or reserved in a killed cycle. *)
Lemma killed_authorizes_nothing l id bytes n r : killed l -> lg_reservations l !! id = Some r -> (rs_provider r, rs_cycle_start r) = k ->
  exists e, authorize_reservation_attempt id bytes n l = (Err e, l).
Proof.
intros (c & Hc & Hk) Hr E. unfold authorize_reservation_attempt, check_cycle. destruct (bytes <? 0); [by eexists|]. destruct (match n with Some _ => _ | None => _ end); [by eexists|].
exists (ProxyDenied "proxy billing cycle does not authorize new paid traffic").
unfold atomically, mbind, eff_bind, gets. rewrite Hr. simpl. rewrite E, Hc. simpl. by rewrite Hk, andb_false_r.
Qed.
Lemma killed_reserves_nothing l q now : killed l ->
  wp (reserve day_start q now) (fun _ l' => forall id r, lg_reservations l' !! id = Some r -> lg_reservations l !! id = None ->
    (rs_provider r, rs_cycle_start r) <> k) l.
Proof.
intros (c & Hc & Hk). assert (U : forall id (r : ReservationRow), lg_reservations l !! id = Some r -> lg_reservations l !! id = None ->
    (rs_provider r, rs_cycle_start r) <> k) by congruence.
unfold reserve. ledger_steps. eapply wp_conseq; [apply validated_provider_wp|]. intros [provider|e] ? ->; [|done].
destruct (rr_profile_id q) as [profile_id|]; [|done]. destruct (rr_route_id q) as [route_id|]; [|done]. ledger_steps.
destruct (current_cycles provider l) as [|[start c'] [|? ?]] eqn:Ec; [done| |done]. ledger_steps.
eapply wp_conseq; [apply check_allowances_wp|]. intros [[]|e] ? [-> _]; [|done]. ledger_steps.
unfold wp, insert_reservation. destruct (existsb _ _); [done|]. simpl. intros id r. destruct (decide (id = lg_next_id l)) as [->|Hn]; [|rewrite lookup_insert_ne by done; apply U].
rewrite lookup_insert_eq. intros [= <-] _. simpl. intros <-.
assert (Hc' : lg_cycles l !! (provider, start) = Some c') by (apply current_cycles_In; rewrite Ec; by left).
simplify_eq. by rewrite Hk in *.
Qed.

(** C10. Once the kill switch of a billing cycle is set, whether by the operator, by a
    settlement or by the provider's figures, then after any operations but the
    operator's clearing it, no attempt of a reservation of the cycle is authorised and
    no reservation is made in it. *)
Theorem killed_cycle_carries_no_new_traffic l l' : killed l -> rtc uncleared_step l l' ->
  (forall id bytes n r, lg_reservations l' !! id = Some r -> (rs_provider r, rs_cycle_start r) = k ->
     exists e, authorize_reservation_attempt id bytes n l' = (Err e, l'))
  /\ (forall q now id r, lg_reservations (reserve day_start q now l').2 !! id = Some r -> lg_reservations l' !! id = None ->
     (rs_provider r, rs_cycle_start r) <> k).
Proof.
intros Hl Hs. pose proof (uncleared_killed l l' Hl Hs) as H. split; [intros id bytes n r Hr E; by apply (killed_authorizes_nothing l' id bytes n r)|].
intros q now. apply (killed_reserves_nothing l' q now H).
Qed.
End kill_switch.

(** * On concrete ledgers *)

Module LedgerDemo.
Definition cycle_of (operational : Z) (kill : bool) : Cycle :=
  {| cy_end := 30 * DAY; cy_operational := operational; cy_daily := 1000000; cy_pilot := 0; cy_pilot_active := false; cy_reported := 0;
     cy_application := 0; cy_reconciled_at := Some 0; cy_reconciliation_ok := true; cy_kill_switch := kill; cy_lifecycle := "active" |}.
Definition ledger_of (operational : Z) (kill : bool) : Ledger :=
  {| lg_now := 29 * DAY + 1; lg_next_id := 10; lg_cycles := {[ ("decodo", 0) := cycle_of operational kill ]};
     lg_profiles := {[ 1 := {| pf_provider := "decodo"; pf_logical_name := "eu"; pf_enabled := true; pf_lifecycle := "enabled"; pf_secret_generation := 3 |} ]};
     lg_routes := {[ 2 := {| rt_provider := "decodo"; rt_profile_id := 1; rt_enabled := true; rt_retired_at := None |} ]};
     lg_allocations := {[ ("decodo", 0, 1) := 5000 ]}; lg_reservations := ∅; lg_attempts := ∅; lg_reconcile_requests := [] |}.
Definition request (job bytes : Z) : ReservationRequest :=
  {| rr_job := Some job; rr_probe := None; rr_profile := "eu"; rr_profile_id := Some 1; rr_route_id := Some 2; rr_cycle_start := None;
     rr_cycle_end := None; rr_bytes := bytes; rr_pilot := false; rr_secret_generation := 3; rr_provider := "decodo" |}.
Definition midnight (t : Z) : Z := t / DAY * DAY.
Definition play (l : Ledger) (ops : list ledger_op) : Ledger := foldl (fun l op => perform midnight op l) l ops.

(** Two jobs share a cycle of 1500 bytes; the third reservation does not fit. *)
Definition now : Z := 29 * DAY + 1.
Definition two_jobs : list ledger_op :=
  [ Reserve (request 7 700) now; Authorize 10 300 None; ReconcileAttempt 11 400 1; Close 10 400 1;
    Reserve (request 8 700) now; Reserve (request 9 700) now ].
Example two_jobs_share_a_cycle :
  (fun l => (held_in ("decodo", 0) l, length (map_to_list (lg_reservations l)), map_to_list (lg_attempts l))) (play (ledger_of 1500 false) two_jobs)
  = (1100, 2%nat, [(11, {| ta_reservation := 10; ta_estimated := 300; ta_state := A_reconciled 400 1 |})]).
Proof. vm_compute. reflexivity. Qed.

Lemma two_jobs_history : rtc (ledger_step midnight) (ledger_of 1500 false) (play (ledger_of 1500 false) two_jobs).
Proof.
assert (D : forall op ops l, disciplined l op -> rtc (ledger_step midnight) (perform midnight op l) (play (perform midnight op l) ops) ->
  rtc (ledger_step midnight) l (play l (op :: ops))).
{ intros op ops l Hd Hs. eapply rtc_l; [by exists op|done]. }
do 2 (apply D; [exact I|]). apply D.
{ intros x r Hx _ Hr. vm_compute in Hx. injection Hx as <-. vm_compute in Hr. by injection Hr as <-. }
apply D; [intros r Hr Ha; vm_compute in Hr; by injection Hr as <-|]. do 2 (apply D; [exact I|]). apply rtc_refl.
Qed.
Lemma ledger_of_unspent operational kill : 0 <= operational -> unspent (ledger_of operational kill).
Proof.
intros Ho. split_and!; [done|done|]. intros k c Hk. simpl in Hk. apply lookup_singleton_Some in Hk as [_ <-]. simpl. lia.
Qed.
Lemma spending_stays_within_the_ceiling_witness : held_in ("decodo", 0) (play (ledger_of 1500 false) two_jobs) <= 1500.
Proof.
destruct (spending_stays_within_the_ceiling midnight (ledger_of 1500 false) (play (ledger_of 1500 false) two_jobs)) as [H _].
- apply ledger_of_unspent. lia.
- apply two_jobs_history.
- assert (Hc : lg_cycles (play (ledger_of 1500 false) two_jobs) !! ("decodo", 0) = Some ((cycle_of 1500 false) <| cy_application := 400 |>))
    by (vm_compute; reflexivity).
  exact (H ("decodo", 0) _ Hc).
Defined.

(** The operator activates the switch; the reservation of the first job still stands. *)
Definition switched_off : Ledger :=
  play (ledger_of 1500 false) [Reserve (request 7 700) now; KillSwitch true "decodo" KS_activate].
Lemma killed_cycle_carries_no_new_traffic_witness :
  exists e, authorize_reservation_attempt 10 300 None (play switched_off [Reserve (request 8 700) now; ReconcileCycle "decodo" 0 5 true])
    = (Err e, play switched_off [Reserve (request 8 700) now; ReconcileCycle "decodo" 0 5 true]).
Proof.
destruct (killed_cycle_carries_no_new_traffic midnight ("decodo", 0) switched_off
  (play switched_off [Reserve (request 8 700) now; ReconcileCycle "decodo" 0 5 true])) as [H _].
- eexists. split; [vm_compute; reflexivity|reflexivity].
- eapply rtc_l; [exists (Reserve (request 8 700) now); split; [done|reflexivity]|].
  eapply rtc_l; [exists (ReconcileCycle "decodo" 0 5 true); split; [done|reflexivity]|]. apply rtc_refl.
- eapply (H 10 300 None); [vm_compute; reflexivity|reflexivity].
Defined.

(** The job's lease expires while its attempt is under way: the bytes it reserved are
    free again, another job spends them, and the first attempt is reconciled late. *)
Definition expired : Owners := {| ow_jobs := {[ 7 := ("running", Some 5) ]}; ow_probes := ∅ |}.
Definition late_attempt : list ledger_op :=
  [ Reserve (request 7 1000) now; Authorize 10 1000 None; CloseStale expired;
    Reserve (request 8 1000) now; Authorize 12 1000 None; ReconcileAttempt 13 1000 1;
    ReconcileAttempt 11 1000 1; Close 10 1000 1 ].
Definition spent (l : Ledger) : Z := sum_over rs_estimated (lg_reservations l).

(** The cycle of 1000 bytes has carried 2000, no attempt exceeded its estimate, yet
    the application's account is empty and the kill switch is off: the settlement of
    the cancelled reservation finds its counters already raised and charges nothing
    to the cycle. *)
Example late_attempt_overspends :
  (fun l => (spent l, overrun_of 10 l, overrun_of 12 l, (fun c => (cy_application c, cy_kill_switch c)) <$> lg_cycles l !! ("decodo", 0)))
    (play (ledger_of 1000 false) late_attempt)
  = (2000, 0, 0, Some (0, false)).
Proof. vm_compute. reflexivity. Qed.

(** No attempt is needed for it: the reservation of the first job is closed as stale, a
    second one takes its place, and the settlement of the first arrives late with the
    bytes it used. The cycle then holds twice its ceiling of 1000 bytes. *)
Definition late_settlement : list ledger_op :=
  [ Reserve (request 7 1000) now; CloseStale expired; Reserve (request 8 1000) now; Close 10 1000 1 ].
Example late_settlement_overspends :
  (fun l => (held_in ("decodo", 0) l, cy_operational <$> lg_cycles l !! ("decodo", 0)))
    (play (ledger_of 1000 false) late_settlement)
  = (2000, Some 1000).
Proof. vm_compute. reflexivity. Qed.
End LedgerDemo.
