(* ===== verification/ReservedPool.v ===== *)
(** The worker's adapter of the ledger to the scraper's proxy protocol
    ([catalogue-dump/.../ops/commerce_scraper_proxy.py]): leases of a provider's pool
    whose reservation and attempts are accounted in the ledger.

    A coroutine runs from one suspension to the next; the database round trips are
    outside the pool's lock, but for the one of [release]. Each stretch is one
    definition over the pool and the ledger, and a suspended coroutine is a row of
    [pl_tasks]. What the provider's own pool answers is an argument of the stretch
    that awaits it. *)
From S2P Require Export ProxyLedger.
Open Scope Z_scope.

(** What the adapter raises: a denial or a failure of the ledger, the exhaustion of a
    budget, misuse of a token, or what the inner pool raised. *)
Inductive pool_exn := Denied (message : string) | LedgerFailed (e : ledger_exn)
| BudgetExhausted (used_requests used_bytes : Z) | AlreadyResolved | InnerRaised | InvalidEstimate.

(** Source: catalogue-dump/ops/commerce_scraper_proxy.py, _DurableReservationState. *)
Record DurableState := {
  ds_max_bytes : Z; ds_used_bytes : Z; ds_requests : Z; ds_pending : gset Z; ds_in_flight : Z; ds_reporting_failed : bool;
  ds_durable_closed : bool; ds_inner_released : bool; ds_released : bool;
}.
#[export] Instance DurableState_eta : Eta DurableState := fun s =>
  {| ds_max_bytes := ds_max_bytes s; ds_used_bytes := ds_used_bytes s; ds_requests := ds_requests s; ds_pending := ds_pending s;
     ds_in_flight := ds_in_flight s; ds_reporting_failed := ds_reporting_failed s; ds_durable_closed := ds_durable_closed s;
     ds_inner_released := ds_inner_released s; ds_released := ds_released s |}.

(** A lease is known by its id, the reservation and the generation. An invalidated
    one is in no table. Source: catalogue-dump/ops/commerce_scraper_proxy.py, ReservedProxyLease. *)
Record ReservedLease := { rl_target : string; rl_maximum_requests : option Z }.
Definition lease_id : Type := Z * Z.

(** A suspended coroutine, or a token in its caller's hands until it is resolved; the
    coroutines that resolve one know its row. *)
Inductive Task :=
| T_acquired (reservation : Z) (lease : ReservedLease)
| T_authorizing (lease : lease_id) (estimated : Z) (maximum_requests : option Z)
| T_authorized (lease : lease_id) (answer : result ledger_exn (option Z))
| T_discarding (lease : lease_id) (previous_failure : bool) (outcome : option ledger_exn)
| T_token (lease : lease_id) (authorization : Z)
| T_resolved
| T_reconciling (token : Z) (lease : lease_id) (authorization actual requests : Z)
| T_reconciled (token : Z) (lease : lease_id) (authorization : Z) (usage : ProxyReservationUsage)
| T_accounted (token : Z) (lease : lease_id) (usage : ProxyReservationUsage)
| T_freeing (token : Z) (lease : lease_id) (authorization : Z)
| T_freed (token : Z) (lease : lease_id) (authorization : Z).

(** [pl_closing]: the lease whose [release] holds the lock. *)
Record Pool := {
  pl_leases : gmap lease_id ReservedLease; pl_states : gmap Z DurableState; pl_tasks : gmap Z Task; pl_closing : option lease_id;
}.
#[export] Instance Pool_eta : Eta Pool := fun p =>
  {| pl_leases := pl_leases p; pl_states := pl_states p; pl_tasks := pl_tasks p; pl_closing := pl_closing p |}.
Record World := { w_pool : Pool; w_ledger : Ledger }.
#[export] Instance World_eta : Eta World := fun w => {| w_pool := w_pool w; w_ledger := w_ledger w |}.

Abbreviation pool := (eff World pool_exn).
Definition on_pool (f : Pool -> Pool) : pool () := modify (fun w => w <| w_pool := f (w_pool w) |>).
Definition set_state (r : Z) (f : DurableState -> DurableState) : pool () := on_pool (fun p => p <| pl_states := alter f r (pl_states p) |>).
Definition suspend (t : Z) (task : Task) : pool () := on_pool (fun p => p <| pl_tasks := <[t := task]> (pl_tasks p) |>).
Definition finish (t : Z) : pool () := on_pool (fun p => p <| pl_tasks := delete t (pl_tasks p) |>).
(** The token's [resolved] flag. *)
Definition resolve_token (k : Task) : Task := match k with T_token _ _ => T_resolved | _ => k end.
Definition resolve (t : Z) : pool () := on_pool (fun p => p <| pl_tasks := alter resolve_token t (pl_tasks p) |>).
Definition fail_reporting (s : DurableState) : DurableState := s <| ds_reporting_failed := true |>.

(** A round trip to the database; what it raises is the answer. A [fault] is what the
    connection raised before anything was done. *)
Definition round_trip {A} (fault : option ledger_exn) (m : ledger A) : pool (result ledger_exn A) := fun w =>
  match fault with
  | Some e => (Ok (Err e), w)
  | None => (Ok (m (w_ledger w)).1, w <| w_ledger := (m (w_ledger w)).2 |>)
  end.

(** [_owned]: the lease and its state. Source: catalogue-dump/ops/commerce_scraper_proxy.py, PostgresReservedProxyPool._owned. *)
Definition owned (lease : lease_id) : pool (ReservedLease * DurableState) := fun w =>
  match pl_leases (w_pool w) !! lease, pl_states (w_pool w) !! lease.1 with
  | Some current, Some state => if ds_released state then (Err (Denied "proxy lease is not active"), w) else (Ok (current, state), w)
  | _, _ => (Err (Denied "proxy lease is not active"), w)
  end.

Section pool.
Context (day_start : Z -> Z).

(** * Acquiring and rotating *)

(** The inner lease is acquired and matches the identity. Source:
    catalogue-dump/ops/commerce_scraper_proxy.py:191-212, PostgresReservedProxyPool.acquire. *)
Definition acquire (fault : option ledger_exn) (t : Z) (q : ReservationRequest) (client_now : Z) (maximum_bytes : Z) (requested : option Z) (lease : ReservedLease) : pool () :=
  let maximum_bytes := Z.min maximum_bytes (match requested with Some n => if n =? 0 then maximum_bytes else n | None => maximum_bytes end) in
  answer ← round_trip fault (reserve day_start
    {| rr_job := rr_job q; rr_probe := None; rr_profile := rr_profile q; rr_profile_id := rr_profile_id q; rr_route_id := rr_route_id q;
       rr_cycle_start := None; rr_cycle_end := None; rr_bytes := maximum_bytes; rr_pilot := rr_pilot q;
       rr_secret_generation := rr_secret_generation q; rr_provider := rr_provider q |} client_now);
  match answer with
  | Err e => throw (LedgerFailed e)
  | Ok reservation =>
      _ ← on_pool (fun p => p <| pl_states := <[reservation := {| ds_max_bytes := maximum_bytes; ds_used_bytes := 0; ds_requests := 0;
            ds_pending := ∅; ds_in_flight := 0; ds_reporting_failed := false; ds_durable_closed := false; ds_inner_released := false;
            ds_released := false |}]> (pl_states p) |>);
      suspend t (T_acquired reservation lease)
  end.
(** Source: catalogue-dump/ops/commerce_scraper_proxy.py:213-216, PostgresReservedProxyPool.acquire. *)
Definition acquired (t reservation : Z) (lease : ReservedLease) : pool lease_id :=
  _ ← on_pool (fun p => p <| pl_leases := <[(reservation, 0) := lease]> (pl_leases p) |>);
  _ ← finish t;
  mret (reservation, 0).

(** [inner]: the inner pool rotated, and the new inner lease matches the identity.
    Source: catalogue-dump/ops/commerce_scraper_proxy.py, PostgresReservedProxyPool.rotate. *)
Definition rotate (lease : lease_id) (inner : bool) : pool lease_id :=
  current ← owned lease;
  if negb (bool_decide (ds_pending (snd current) = ∅)) || negb (ds_in_flight (snd current) =? 0)
  then throw (Denied "proxy identity cannot rotate with authorized requests")
  else if negb inner then throw InnerRaised
  else
    let replacement := (fst lease, snd lease + 1) in
    _ ← on_pool (fun p => p <| pl_leases := <[replacement := fst current]> (delete lease (pl_leases p)) |>);
    mret replacement.

(** * Authorising an attempt *)

(** Under the lock; [inner]: what the inner pool answers. [false]: [None] is returned.
    Source: catalogue-dump/ops/commerce_scraper_proxy.py:263-273, PostgresReservedProxyPool.authorize. *)
Definition authorize (t : Z) (lease : lease_id) (estimated_bytes : Z) (inner : result () bool) : pool bool :=
  if estimated_bytes <? 0 then throw InvalidEstimate
  else
    current ← owned lease;
    if ds_reporting_failed (snd current) then mret false
    else match inner with
         | Err _ => throw InnerRaised
         | Ok false => mret false
         | Ok true =>
             _ ← set_state (fst lease) (fun s => s <| ds_in_flight := ds_in_flight s + 1 |>);
             _ ← suspend t (T_authorizing lease estimated_bytes (rl_maximum_requests (fst current)));
             mret true
         end.
(** Source: catalogue-dump/ops/commerce_scraper_proxy.py:275-282, PostgresReservedProxyPool.authorize. *)
Definition authorize_trip (fault : option ledger_exn) (t : Z) (lease : lease_id) (estimated : Z) (maximum_requests : option Z) : pool () :=
  answer ← round_trip fault (authorize_reservation_attempt (fst lease) estimated maximum_requests);
  suspend t (T_authorized lease answer).
(** The lock is taken again. Source: catalogue-dump/ops/commerce_scraper_proxy.py:283-305, PostgresReservedProxyPool.authorize. *)
Definition authorize_answered (t : Z) (lease : lease_id) (answer : result ledger_exn (option Z)) : pool () :=
  _ ← set_state (fst lease) (fun s => s <| ds_in_flight := ds_in_flight s - 1 |>);
  let discard outcome :=
    previous ← gets (fun w => default false (ds_reporting_failed <$> pl_states (w_pool w) !! fst lease));
    _ ← set_state (fst lease) fail_reporting;
    suspend t (T_discarding lease previous outcome) in
  match answer with
  | Err e => _ ← set_state (fst lease) fail_reporting; discard (Some e)
  | Ok None => discard None
  | Ok (Some authorization) =>
      _ ← set_state (fst lease) (fun s => s <| ds_pending := {[authorization]} ∪ ds_pending s |>);
      suspend t (T_token lease authorization)
  end.
(** The inner authorisation is released, outside the lock. Source:
    catalogue-dump/ops/commerce_scraper_proxy.py, PostgresReservedProxyPool._discard_inner_authorization. *)
Definition discarded (t : Z) (lease : lease_id) (previous_failure : bool) (outcome : option ledger_exn) (inner : bool) : pool () :=
  _ ← finish t;
  if negb inner then throw InnerRaised
  else
    _ ← set_state (fst lease) (fun s => s <| ds_reporting_failed := previous_failure |>);
    match outcome with Some e => throw (LedgerFailed e) | None => mret () end.

(** * Resolving an attempt *)

(** Source: catalogue-dump/ops/commerce_scraper_proxy.py, PostgresReservedProxyPool._pending. *)
Definition check_pending (s : DurableState) (authorization : Z) : pool () :=
  if bool_decide (authorization ∈ ds_pending s) then mret () else throw (Denied "proxy attempt authorization is not active").

(** Source: catalogue-dump/ops/commerce_scraper_proxy.py:340-349, PostgresReservedProxyPool._reconcile. *)
Definition reconcile_attempt (t token : Z) (lease : lease_id) (authorization : Z) (target : string) (actual requests : Z) : pool () :=
  current ← owned lease;
  _ ← check_pending (snd current) authorization;
  if bool_decide (target = rl_target (fst current)) then suspend t (T_reconciling token lease authorization actual requests)
  else throw (Denied "proxy outcome target does not match the lease").
(** A failed round trip leaves the token to its caller. Source:
    catalogue-dump/ops/commerce_scraper_proxy.py:350-362, PostgresReservedProxyPool._reconcile. *)
Definition reconcile_trip (fault : option ledger_exn) (t token : Z) (lease : lease_id) (authorization actual requests : Z) : pool () :=
  answer ← round_trip fault (reconcile_reservation_attempt authorization actual requests);
  match answer with
  | Ok usage => suspend t (T_reconciled token lease authorization usage)
  | Err e => _ ← set_state (fst lease) fail_reporting; _ ← finish t; throw (LedgerFailed e)
  end.
(** Source: catalogue-dump/ops/commerce_scraper_proxy.py:363-367, PostgresReservedProxyPool._reconcile. *)
Definition reconcile_answered (t token : Z) (lease : lease_id) (authorization : Z) (usage : ProxyReservationUsage) : pool () :=
  _ ← set_state (fst lease) (fun s => s <| ds_pending := ds_pending s ∖ {[authorization]} |> <| ds_used_bytes := us_estimated_bytes usage |>
                                        <| ds_requests := us_request_count usage |>);
  suspend t (T_accounted token lease usage).
(** The inner token is reconciled, then the budget is looked at. Source:
    catalogue-dump/ops/commerce_scraper_proxy.py:129-138, _ReservedAttemptAuthorization.reconcile. *)
Definition accounted (t token : Z) (lease : lease_id) (usage : ProxyReservationUsage) (maximum_requests : option Z) (inner : bool) : pool () :=
  _ ← finish t; _ ← resolve token;
  if negb inner then _ ← set_state (fst lease) fail_reporting; throw InnerRaised
  else if us_revoked usage then _ ← set_state (fst lease) fail_reporting; throw (Denied "proxy reservation was revoked")
  else if us_exhausted usage || match maximum_requests with Some n => n <? us_request_count usage | None => false end
  then _ ← set_state (fst lease) fail_reporting; throw (BudgetExhausted (us_request_count usage) (us_estimated_bytes usage))
  else mret ().

(** Source: catalogue-dump/ops/commerce_scraper_proxy.py:369-376, PostgresReservedProxyPool._release_authorization. *)
Definition release_attempt (t token : Z) (lease : lease_id) (authorization : Z) : pool () :=
  current ← owned lease;
  _ ← check_pending (snd current) authorization;
  suspend t (T_freeing token lease authorization).
(** Source: catalogue-dump/ops/commerce_scraper_proxy.py:377-385, PostgresReservedProxyPool._release_authorization. *)
Definition release_attempt_trip (fault : option ledger_exn) (t token : Z) (lease : lease_id) (authorization : Z) : pool () :=
  answer ← round_trip fault (release_reservation_attempt authorization);
  match answer with
  | Ok _ => suspend t (T_freed token lease authorization)
  | Err e => _ ← set_state (fst lease) fail_reporting; _ ← finish t; throw (LedgerFailed e)
  end.
(** With the inner token's release. Source:
    catalogue-dump/ops/commerce_scraper_proxy.py:386-387, PostgresReservedProxyPool._release_authorization. *)
Definition release_attempt_answered (t token : Z) (lease : lease_id) (authorization : Z) (inner : bool) : pool () :=
  _ ← set_state (fst lease) (fun s => s <| ds_pending := ds_pending s ∖ {[authorization]} |>);
  _ ← finish t; _ ← resolve token;
  if inner then mret () else _ ← set_state (fst lease) fail_reporting; throw InnerRaised.

(** * Releasing the lease *)

(** The lock is kept until [release_answered] or an exception. [false]: released
    already. Source: catalogue-dump/ops/commerce_scraper_proxy.py:313-320, PostgresReservedProxyPool.release. *)
Definition release (lease : lease_id) : pool bool :=
  released ← gets (fun w => default false (ds_released <$> pl_states (w_pool w) !! fst lease));
  if (released : bool) then mret false
  else
    current ← owned lease;
    if negb (bool_decide (ds_pending (snd current) = ∅)) || negb (ds_in_flight (snd current) =? 0)
    then throw (Denied "proxy lease has unreconciled authorized requests")
    else _ ← on_pool (fun p => p <| pl_closing := Some lease |>); mret true.
(** Source: catalogue-dump/ops/commerce_scraper_proxy.py:321-328, PostgresReservedProxyPool.release. *)
Definition release_trip (fault : option ledger_exn) (lease : lease_id) : pool () :=
  state ← gets (fun w => pl_states (w_pool w) !! fst lease);
  match state with
  | Some s =>
      if ds_durable_closed s then mret ()
      else
        answer ← round_trip fault (close_reservation (fst lease) (ds_used_bytes s) (ds_requests s));
        match answer with
        | Ok _ => set_state (fst lease) (fun s => s <| ds_durable_closed := true |>)
        | Err e => _ ← set_state (fst lease) fail_reporting; _ ← on_pool (fun p => p <| pl_closing := None |>); throw (LedgerFailed e)
        end
  | None => mret ()
  end.
(** [inner]: the inner pool released its lease. Source:
    catalogue-dump/ops/commerce_scraper_proxy.py:329-338, PostgresReservedProxyPool.release. *)
Definition release_answered (lease : lease_id) (inner : bool) : pool () :=
  _ ← on_pool (fun p => p <| pl_closing := None |>);
  state ← gets (fun w => pl_states (w_pool w) !! fst lease);
  if negb (default false (ds_inner_released <$> state)) && negb inner
  then _ ← set_state (fst lease) fail_reporting; throw InnerRaised
  else
    _ ← set_state (fst lease) (fun s => s <| ds_inner_released := true |> <| ds_released := true |>);
    on_pool (fun p => p <| pl_leases := delete lease (pl_leases p) |>).
End pool.
