(* ===== verification/PoolRefinement.v ===== *)
(** The adapter of [ReservedPool] keeps the ledger's discipline: whatever its
    coroutines' interleaving, what it does to the ledger is a history of
    [LedgerProperties], so its leases share the ceiling. *)
From S2P Require Export ReservedPool LedgerProperties.
Open Scope Z_scope.

(** * What an operation leaves of the rows *)

Section grows.
Context (keep : Z -> Prop).

(** Rows stay; those kept stay active, settled ones settled; a resolved attempt stays
    resolved. *)
Definition grows (l l' : Ledger) : Prop :=
  (forall id r, lg_reservations l !! id = Some r ->
     exists r', lg_reservations l' !! id = Some r' /\ (keep id -> is_active (rs_state r) = true -> is_active (rs_state r') = true)
       /\ (is_active (rs_state r) = false -> is_active (rs_state r') = false))
  /\ (forall a x, lg_attempts l !! a = Some x ->
     exists x', lg_attempts l' !! a = Some x' /\ ta_reservation x' = ta_reservation x /\ (ta_state x <> A_authorized -> ta_state x' = ta_state x)).

Lemma grows_refl l : grows l l.
Proof. split; [intros id r H; by exists r|intros a x H; by exists x]. Qed.
Lemma grows_trans l1 l2 l3 : grows l1 l2 -> grows l2 l3 -> grows l1 l3.
Proof.
intros [R1 A1] [R2 A2]. split.
- intros id r H. destruct (R1 id r H) as (r' & H' & K1 & J1). destruct (R2 id r' H') as (r'' & H'' & K2 & J2). exists r''. auto.
- intros a x H. destruct (A1 a x H) as (x' & H' & E1 & K1). destruct (A2 a x' H') as (x'' & H'' & E2 & K2). exists x''.
  split_and!; [done|congruence|]. intros Hs. rewrite K2; rewrite K1; done.
Qed.

Lemma grows_same l l' : lg_reservations l' = lg_reservations l -> lg_attempts l' = lg_attempts l -> grows l l'.
Proof. intros E1 E2. unfold grows. rewrite E1, E2. apply grows_refl. Qed.
Lemma grows_row l l' id r' : lg_attempts l' = lg_attempts l -> lg_reservations l' = <[id := r']> (lg_reservations l) ->
  (forall r, lg_reservations l !! id = Some r -> (keep id -> is_active (rs_state r) = true -> is_active (rs_state r') = true)
     /\ (is_active (rs_state r) = false -> is_active (rs_state r') = false)) -> grows l l'.
Proof.
intros E1 E2 H. split; rewrite ?E1, ?E2; [|intros a x Hx; by exists x]. intros i r Hr.
destruct (decide (i = id)) as [->|Hn]; [rewrite lookup_insert_eq; exists r'; split; [done|by apply H]|].
rewrite lookup_insert_ne by done. by exists r.
Qed.
Lemma grows_attempt l l' a x' : lg_reservations l' = lg_reservations l -> lg_attempts l' = <[a := x']> (lg_attempts l) ->
  (forall x, lg_attempts l !! a = Some x -> ta_reservation x' = ta_reservation x /\ ta_state x = A_authorized) -> grows l l'.
Proof.
intros E1 E2 H. split; rewrite ?E1, ?E2; [intros id r Hr; by exists r|]. intros i x Hx.
destruct (decide (i = a)) as [->|Hn]; [rewrite lookup_insert_eq; exists x'; destruct (H x Hx); by split_and!|].
rewrite lookup_insert_ne by done. by exists x.
Qed.
Lemma grows_map l l' (h : Z -> ReservationRow -> ReservationRow) : lg_attempts l' = lg_attempts l ->
  lg_reservations l' = map_imap (fun id r => Some (h id r)) (lg_reservations l) ->
  (forall id r, lg_reservations l !! id = Some r -> (keep id -> is_active (rs_state r) = true -> is_active (rs_state (h id r)) = true)
     /\ (is_active (rs_state r) = false -> is_active (rs_state (h id r)) = false)) -> grows l l'.
Proof.
intros E1 E2 H. split; rewrite ?E1, ?E2; [|intros a x Hx; by exists x]. intros id r Hr. exists (h id r). rewrite map_lookup_imap, Hr. split; [done|by apply H].
Qed.

Lemma request_grows q l : grows l (request_reconcile q l).2.
Proof. unfold request_reconcile, modify. simpl. destruct (existsb _ _); [apply grows_refl|by apply grows_same]. Qed.

(** ** Every operation *)

Context (day_start : Z -> Z).

Lemma reserve_grows q now l : ledger_ok l -> wp (reserve day_start q now) (fun a l' => grows l l' /\
  match a with
  | Ok id => lg_reservations l !! id = None /\ exists r, lg_reservations l' !! id = Some r /\ is_active (rs_state r) = true
  | Err _ => l' = l
  end) l.
Proof.
intros HI. pose proof (grows_refl l) as G. unfold reserve. ledger_steps.
eapply wp_conseq; [apply validated_provider_wp|]. intros [provider|e] ? ->; [|done].
destruct (rr_profile_id q) as [profile_id|]; [|done]. destruct (rr_route_id q) as [route_id|]; [|done]. ledger_steps.
destruct (current_cycles provider l) as [|[start c] [|? ?]] eqn:Ec; [done| |done]. ledger_steps.
eapply wp_conseq; [apply check_allowances_wp|]. intros [[]|e] ? [-> _]; [|done]. ledger_steps.
unfold wp, insert_reservation. destruct (existsb _ _); [done|]. simpl. destruct (lo_fresh l HI (lg_next_id l) ltac:(lia)) as [Fr _].
split; [eapply (grows_row l _ (lg_next_id l)); [done|done|]; congruence|]. split; [done|]. rewrite lookup_insert_eq. by eexists.
Qed.

Lemma authorize_grows id bytes n l : ledger_ok l -> wp (authorize_reservation_attempt id bytes n) (fun a l' => grows l l' /\
  match a with
  | Ok (Some a) => (exists r, lg_reservations l !! id = Some r /\ is_active (rs_state r) = true)
      /\ exists x, lg_attempts l' !! a = Some x /\ ta_reservation x = id
  | _ => True
  end) l.
Proof.
intros HI. pose proof (grows_refl l) as G. unfold authorize_reservation_attempt. destruct (bytes <? 0) eqn:Eb; [done|]. destruct (match n with Some _ => _ | None => _ end); [done|].
ledger_steps. unfold check_cycle. ledger_steps. destruct (lg_reservations l !! id) as [r|] eqn:Hr; simpl; [|done].
destruct (lg_cycles l !! _) as [c|]; simpl; [|done]. ledger_steps. destruct (_ || _) eqn:E; [done|]. ledger_steps. simpl.
destruct (lo_fresh l HI (lg_next_id l) ltac:(lia)) as [_ Fa]. rewrite lookup_insert_eq.
split; [eapply (grows_attempt l _ (lg_next_id l)); [done|done|]; congruence|]. split; by eexists.
Qed.

Definition resolved_in (l : Ledger) (a : Z) : Prop := exists x, lg_attempts l !! a = Some x /\ ta_state x <> A_authorized.

Lemma reconcile_grows a actual n l : wp (reconcile_reservation_attempt a actual n) (fun u l' => grows l l' /\
  match u with Ok _ => resolved_in l' a | Err _ => True end) l.
Proof.
pose proof (grows_refl l) as G. unfold reconcile_reservation_attempt. destruct (_ || _) eqn:E; [done|].
ledger_steps. destruct (lg_attempts l !! a) as [x|] eqn:Hx; [|done]. ledger_steps.
destruct (ta_state x) as [|b m|] eqn:Ea; ledger_steps.
2: { destruct (lg_reservations l !! _); ledger_steps. split; [done|]. exists x. by rewrite Ea. }
apply (wp_set_attempt _ _ x); [done|]. ledger_steps.
set (l1 := l <| lg_attempts := _ |>). assert (G1 : grows l l1) by (eapply (grows_attempt l _ a); [done|done|]; intros ? ?; by simplify_eq).
assert (R1 : resolved_in l1 a) by (exists (resolved (A_reconciled actual n) x); simpl; by rewrite lookup_insert_eq).
destruct (lg_reservations l !! ta_reservation x) as [r|] eqn:Hr.
- apply (wp_update_reservation _ _ r); [done| |done]. intros _. ledger_steps. simpl. rewrite lookup_insert_eq. ledger_steps.
  split; [|done]. eapply grows_trans; [exact G1|]. eapply (grows_row l1 _ (ta_reservation x)); [done|done|]. simpl. intros. by simplify_eq.
- assert (E1 : lg_reservations l1 !! ta_reservation x = None) by exact Hr.
  apply wp_update_missing; [done|]. ledger_steps. rewrite E1. by split; [apply grows_refl|].
Qed.

Lemma release_grows a l : wp (release_reservation_attempt a) (fun u l' => grows l l' /\
  match u with Ok _ => resolved_in l' a | Err _ => True end) l.
Proof.
pose proof (grows_refl l) as G. unfold release_reservation_attempt. ledger_steps. destruct (lg_attempts l !! a) as [x|] eqn:Hx; [|done].
destruct (ta_state x) as [|b m|] eqn:Ea; [|done|split; [done|]; exists x; by rewrite Ea].
apply (wp_set_attempt _ _ x); [done|]. split; [eapply (grows_attempt l _ a); [done|done|]; intros ? ?; by simplify_eq|].
exists (resolved A_released x). simpl. by rewrite lookup_insert_eq.
Qed.

Lemma close_grows id used n l : ~ keep id -> wp (close_reservation id used n) (fun _ l' => grows l l') l.
Proof.
intros Hid. unfold close_reservation, update_cycle. ledger_steps. destruct (lg_reservations l !! id) as [r|] eqn:Hr; [|apply grows_refl].
assert (H : forall l1 q k f r', lg_attempts l1 = lg_attempts l -> lg_reservations l1 = <[id := r']> (lg_reservations l) ->
  is_active (rs_state r') = false -> wp (request_reconcile q) (fun _ l' => grows l l') (l1 <| lg_cycles := alter f k (lg_cycles l1) |>)).
{ intros l1 q k f r' E1 E2 Hr'. eapply grows_trans; [|apply request_grows]. eapply (grows_row l _ id r'); [done|done|]. intros ? _. split; [intros Hk; by destruct (Hid Hk)|done]. }
ledger_steps. apply (wp_update_reservation _ _ r); [done| |]; intros Ha; ledger_steps; cbn [is_some]; ledger_steps; cbn [is_some orb].
- ledger_steps. eapply wp_conseq; [eapply (H (l <| lg_reservations := <[id := _]> (lg_reservations l) |>)); done || reflexivity|]. by intros [[]|e] l'; [|intros _; apply grows_refl].
- apply (wp_update_reservation _ _ r); [done| |]; intros Hg; [|apply grows_refl]. cbn [is_some orb]. ledger_steps.
  eapply wp_conseq; [eapply (H (l <| lg_reservations := <[id := _]> (lg_reservations l) |>)); done || reflexivity|]. by intros [[]|e] l'; [|intros _; apply grows_refl].
Qed.

Lemma close_stale_grows owners l : (forall id r, keep id -> lg_reservations l !! id = Some r -> abandoned owners (lg_now l) r = false) ->
  wp (close_stale_reservations owners) (fun _ l' => grows l l') l.
Proof.
intros Hk. unfold close_stale_reservations. ledger_steps. set (rows := filter _ _). set (l2 := _ <| lg_cycles := _ |>).
assert (G : grows l l2).
{ eapply (grows_map l); [done|done|]. intros id r Hr. cbv beta. split; [intros Hid Ha; by rewrite (Hk id r), andb_false_r|]. intros Ha. by rewrite Ha. }
clearbody l2 rows. induction rows as [|p rows IH] in l2, G |- *; [done|]. apply IH. eapply grows_trans; [exact G|apply request_grows].
Qed.
Lemma open_cycle_grows start stop reported l : wp (open_cycle start stop reported) (fun _ l' => grows l l') l.
Proof.
pose proof (grows_refl l) as G. unfold open_cycle. ledger_steps. set (l1 := l <| lg_cycles := _ |>).
destruct (lg_cycles l1 !! ("decodo", start)); [unfold update_cycle; ledger_steps; by apply grows_same|]. ledger_steps.
destruct (existsb _ _); ledger_steps; [done|]. by apply grows_same.
Qed.
Lemma reconcile_cycle_grows p start reported b l : wp (reconcile p start reported b) (fun _ l' => grows l l') l.
Proof.
unfold reconcile. apply wp_bind. eapply wp_conseq; [apply validated_provider_wp|]. intros [p'|e] ? ->; [by apply grows_same|apply grows_refl].
Qed.
Lemma kill_switch_grows enabled p action l : wp (kill_switch enabled p action) (fun _ l' => grows l l') l.
Proof.
destruct action; cbn [kill_switch]; [by apply grows_same|destruct enabled; by apply grows_same|].
ledger_steps. unfold wp, set_kill_switch. simpl. eapply (grows_map l); [done|done|]. intros id r Hr. cbv beta. case_bool_decide as E; [|done].
destruct E as [_ E]. by rewrite E.
Qed.

(** What other clients of the ledger do: they settle none of the kept reservations. *)
Definition spares (l : Ledger) (op : ledger_op) : Prop :=
  match op with
  | Close id _ _ => ~ keep id
  | CloseStale owners => forall id r, keep id -> lg_reservations l !! id = Some r -> abandoned owners (lg_now l) r = false
  | _ => True
  end.
Lemma ledger_perform_grows op l : ledger_ok l -> spares l op -> grows l (perform day_start op l).
Proof.
intros HI Hs. destruct op; cbn [perform]; try (by apply grows_same).
- by apply reserve_grows.
- by apply authorize_grows.
- by apply reconcile_grows.
- by apply release_grows.
- by apply close_grows.
- by apply close_stale_grows.
- by apply reconcile_cycle_grows.
- by apply open_cycle_grows.
- by apply kill_switch_grows.
Qed.
End grows.

(** * The steps *)

Section steps.
Context (day_start : Z -> Z).

Definition unlocked (w : World) : Prop := pl_closing (w_pool w) = None.
Definition task (w : World) (t : Z) : option Task := pl_tasks (w_pool w) !! t.
(** The reservations the adapter has not settled. *)
Definition unsettled (w : World) (r : Z) : Prop := exists s, pl_states (w_pool w) !! r = Some s /\ ds_durable_closed s = false.

(** A coroutine runs to its next suspension, or another client of the ledger does
    something that settles none of the adapter's reservations. *)
Inductive world_step (w : World) : World -> Prop :=
| W_acquire fault t q now most requested lease : task w t = None -> world_step w (acquire day_start fault t q now most requested lease w).2
| W_acquired t r lease : unlocked w -> task w t = Some (T_acquired r lease) -> world_step w (acquired t r lease w).2
| W_rotate lease inner : unlocked w -> world_step w (ReservedPool.rotate lease inner w).2
| W_authorize t lease bytes inner : unlocked w -> task w t = None -> world_step w (authorize t lease bytes inner w).2
| W_authorize_trip fault t lease bytes n : task w t = Some (T_authorizing lease bytes n) -> world_step w (authorize_trip fault t lease bytes n w).2
| W_authorize_answered t lease answer : unlocked w -> task w t = Some (T_authorized lease answer) ->
    world_step w (authorize_answered t lease answer w).2
| W_discarded t lease previous outcome inner : task w t = Some (T_discarding lease previous outcome) ->
    world_step w (discarded t lease previous outcome inner w).2
| W_reconcile t token lease a target actual n : unlocked w -> task w t = None -> task w token = Some (T_token lease a) ->
    world_step w (reconcile_attempt t token lease a target actual n w).2
| W_reconcile_trip fault t token lease a actual n : task w t = Some (T_reconciling token lease a actual n) ->
    world_step w (reconcile_trip fault t token lease a actual n w).2
| W_reconcile_answered t token lease a usage : unlocked w -> task w t = Some (T_reconciled token lease a usage) ->
    world_step w (reconcile_answered t token lease a usage w).2
| W_accounted t token lease usage n inner : task w t = Some (T_accounted token lease usage) ->
    world_step w (accounted t token lease usage n inner w).2
| W_free t token lease a : unlocked w -> task w t = None -> task w token = Some (T_token lease a) ->
    world_step w (release_attempt t token lease a w).2
| W_free_trip fault t token lease a : task w t = Some (T_freeing token lease a) -> world_step w (release_attempt_trip fault t token lease a w).2
| W_free_answered t token lease a inner : unlocked w -> task w t = Some (T_freed token lease a) ->
    world_step w (release_attempt_answered t token lease a inner w).2
| W_release lease : unlocked w -> world_step w (release lease w).2
| W_release_trip fault lease : pl_closing (w_pool w) = Some lease -> world_step w (release_trip fault lease w).2
| W_release_answered lease inner s : pl_closing (w_pool w) = Some lease -> pl_states (w_pool w) !! lease.1 = Some s ->
    ds_durable_closed s = true -> world_step w (release_answered lease inner w).2
| W_others op : disciplined (w_ledger w) op -> spares (unsettled w) (w_ledger w) op ->
    world_step w (w <| w_ledger := perform day_start op (w_ledger w) |>).

(** An attempt of the reservation. *)
Definition attempt_of (l : Ledger) (r a : Z) : Prop := exists x, lg_attempts l !! a = Some x /\ ta_reservation x = r.

(** The coroutine is between the check and the decision of an authorisation. *)
Definition flying (r : Z) (k : Task) : bool :=
  match k with T_authorizing lease _ _ | T_authorized lease _ => bool_decide (lease.1 = r) | _ => false end.
Definition flights (r : Z) (tasks : gmap Z Task) : Z := sum_over (when_row (flying r) (fun _ => 1)) tasks.
Definition in_flight (r : Z) (p : Pool) : Z := flights r (pl_tasks p).

(** What holds of a suspended coroutine. *)
Definition task_ok (w : World) (k : Task) : Prop :=
  match k with
  | T_authorizing lease _ _ => is_Some (pl_states (w_pool w) !! lease.1)
  | T_authorized lease answer => is_Some (pl_states (w_pool w) !! lease.1)
      /\ match answer with Ok (Some a) => unsettled w lease.1 /\ attempt_of (w_ledger w) lease.1 a | _ => True end
  | T_reconciling _ lease a _ _ =>
      resolved_in (w_ledger w) a \/ exists s, pl_states (w_pool w) !! lease.1 = Some s /\ a ∈ ds_pending s
  | T_reconciled _ _ a _ | T_freed _ _ a => resolved_in (w_ledger w) a
  | _ => True
  end.

Record pool_ok (w : World) : Prop := {
  po_ledger : ledger_ok (w_ledger w);
  po_state : forall r s, pl_states (w_pool w) !! r = Some s -> exists row, lg_reservations (w_ledger w) !! r = Some row
    /\ is_active (rs_state row) = negb (ds_durable_closed s);
  po_closed : forall r s, pl_states (w_pool w) !! r = Some s -> ds_durable_closed s = true -> ds_pending s = ∅;
  po_pending : forall r s a, pl_states (w_pool w) !! r = Some s -> a ∈ ds_pending s -> attempt_of (w_ledger w) r a;
  po_flight : forall r s, pl_states (w_pool w) !! r = Some s -> ds_in_flight s = in_flight r (w_pool w);
  po_task : forall t k, pl_tasks (w_pool w) !! t = Some k -> task_ok w k;
  po_closing : forall lease, pl_closing (w_pool w) = Some lease -> exists s, pl_states (w_pool w) !! lease.1 = Some s
    /\ ds_pending s = ∅ /\ ds_in_flight s = 0;
}.

(** * Each stretch keeps the invariant *)

Lemma attempt_of_grows keep l l' r a : grows keep l l' -> attempt_of l r a -> attempt_of l' r a.
Proof. intros [_ A] (x & Hx & E). destruct (A a x Hx) as (x' & Hx' & E' & _). exists x'. split; [done|congruence]. Qed.
Lemma resolved_grows keep l l' a : grows keep l l' -> resolved_in l a -> resolved_in l' a.
Proof. intros [_ A] (x & Hx & E). destruct (A a x Hx) as (x' & Hx' & _ & E'). exists x'. split; [done|]. by rewrite E'. Qed.

(** The state of a reservation changes without being settled: an attempt is added, or
    resolved ones are taken away. *)
Definition state_moves (l' : Ledger) (r : Z) (s s' : DurableState) : Prop :=
  ds_durable_closed s' = ds_durable_closed s
  /\ (forall a, a ∈ ds_pending s' -> a ∈ ds_pending s \/ (attempt_of l' r a /\ ds_durable_closed s = false))
  /\ (forall a, a ∈ ds_pending s -> a ∈ ds_pending s' \/ resolved_in l' a).
Lemma state_moves_same l' r s s' : ds_durable_closed s' = ds_durable_closed s -> ds_pending s' = ds_pending s -> state_moves l' r s s'.
Proof. intros E1 E2. unfold state_moves. rewrite E1, E2. auto. Qed.

Lemma step_ok w w' r f : pool_ok w -> ledger_ok (w_ledger w') -> grows (unsettled w) (w_ledger w) (w_ledger w') ->
  pl_states (w_pool w') = alter f r (pl_states (w_pool w)) ->
  (forall s, pl_states (w_pool w) !! r = Some s -> state_moves (w_ledger w') r s (f s)) ->
  (forall t k, task w' t = Some k -> task w t = Some k \/ task_ok w' k) ->
  (forall i s, pl_states (w_pool w) !! i = Some s -> in_flight i (w_pool w') - in_flight i (w_pool w)
     = (if bool_decide (i = r) then ds_in_flight (f s) - ds_in_flight s else 0)) ->
  (forall lease, pl_closing (w_pool w') = Some lease -> exists s, pl_states (w_pool w') !! lease.1 = Some s /\ ds_pending s = ∅ /\ ds_in_flight s = 0) ->
  pool_ok w'.
Proof.
intros [L S C P F T K] HL HG Es Hf Ht Hi Hc.
assert (M : forall i s', pl_states (w_pool w') !! i = Some s' -> exists s, pl_states (w_pool w) !! i = Some s
  /\ state_moves (w_ledger w') i s s' /\ ds_in_flight s' - ds_in_flight s = (if bool_decide (i = r) then ds_in_flight (f s) - ds_in_flight s else 0)).
{ intros i s'. rewrite Es. destruct (decide (i = r)) as [->|Hn].
  - rewrite lookup_alter_eq. destruct (pl_states (w_pool w) !! r) as [s|] eqn:E; [|done]. intros [= <-]. exists s. split_and!; [done|by apply Hf|]. by rewrite bool_decide_true.
  - rewrite lookup_alter_ne by done. intros E. exists s'. split_and!; [done|by apply state_moves_same|]. rewrite bool_decide_false by done. lia. }
assert (N : forall i s, pl_states (w_pool w) !! i = Some s -> exists s', pl_states (w_pool w') !! i = Some s' /\ state_moves (w_ledger w') i s s').
{ intros i s E. destruct (pl_states (w_pool w') !! i) as [s'|] eqn:E'; [destruct (M i s' E') as (s0 & E0 & ? & _); simplify_eq; by exists s'|].
  rewrite Es in E'. by apply lookup_alter_None in E'; rewrite E in E'. }
assert (U : forall i, unsettled w i -> unsettled w' i).
{ intros i (s & E & Hs). destruct (N i s E) as (s' & E' & (Hd & _)). exists s'. split; [done|congruence]. }
split; [exact HL| | | | | |exact Hc].
- intros i s' E'. destruct (M i s' E') as (s & E & (Hd & _) & _). destruct (S i s E) as (row & Hrow & Ha).
  destruct HG as [GR _]. destruct (GR i row Hrow) as (row' & Hrow' & Hk & Hj). exists row'. split; [done|]. rewrite Hd.
  destruct (ds_durable_closed s) eqn:Ed; [by apply Hj|]. apply Hk; [by exists s|done].
- intros i s' E' Hs'. destruct (M i s' E') as (s & E & (Hd & Hadd & _) & _). rewrite Hd in Hs'. apply set_eq. intros a. split; [|set_solver].
  intros Ha. destruct (Hadd a Ha) as [Ha'|[_ Ho]]; [|congruence]. by rewrite (C i s E Hs') in Ha'.
- intros i s' a E' Ha. destruct (M i s' E') as (s & E & (_ & Hadd & _) & _). destruct (Hadd a Ha) as [Ha'|[? _]]; [|done].
  eapply attempt_of_grows; [exact HG|by apply (P i s)].
- intros i s' E'. destruct (M i s' E') as (s & E & _ & Hd). specialize (F i s E). specialize (Hi i s E). lia.
- intros t k Hk. destruct (Ht t k Hk) as [Hold|]; [|done]. specialize (T t k Hold).
  assert (N' : forall i, is_Some (pl_states (w_pool w) !! i) -> is_Some (pl_states (w_pool w') !! i)).
  { intros i [s E]. destruct (N i s E) as (s' & E' & _). by exists s'. }
  destruct k as [|lease|lease answer| | | |tok lease a ? ?|tok lease a ?| | |tok lease a]; simpl in *; try done.
  + by apply N'.
  + destruct T as [T0 T1]. split; [by apply N'|]. destruct answer as [[a|]|e]; [|done|done]. destruct T1 as [T1 T2].
    split; [by apply U|by eapply attempt_of_grows].
  + destruct T as [T|(s & E & Ha)]; [left; by eapply resolved_grows|]. destruct (N _ s E) as (s' & E' & (_ & _ & Hrem)).
    destruct (Hrem a Ha); [right; by exists s'|by left].
  + by eapply resolved_grows.
  + by eapply resolved_grows.
Qed.

(** What a step must show: the invariant, and a disciplined step of the ledger if any. *)
Definition kept (w w' : World) : Prop :=
  pool_ok w' /\ (w_ledger w' = w_ledger w \/ ledger_step day_start (w_ledger w) (w_ledger w')).

Definition one (b : bool) : Z := if b then 1 else 0.
Definition flies (i : Z) (k : option Task) : Z := one (match k with Some k0 => flying i k0 | None => false end).
Lemma flight_suspend i (m : gmap Z Task) t k : flights i (<[t := k]> m) = flights i m + one (flying i k) - flies i (m !! t).
Proof.
unfold flights, flies. destruct (m !! t) as [k0|] eqn:E.
- rewrite (sum_over_set _ _ _ k0) by done. unfold when_row at 2 3. unfold one. destruct (flying i k0), (flying i k); lia.
- rewrite sum_over_fresh by done. unfold when_row at 1. unfold one. destruct (flying i k); lia.
Qed.
Lemma flight_finish i (m : gmap Z Task) t : flights i (delete t m) = flights i m - flies i (m !! t).
Proof.
unfold flights, flies. destruct (m !! t) as [k0|] eqn:E.
- rewrite <- (insert_delete_id m t k0) at 2 by done. rewrite sum_over_fresh by apply lookup_delete_eq.
  unfold when_row at 2. unfold one. destruct (flying i k0); lia.
- rewrite delete_id by done. simpl. lia.
Qed.
Lemma flight_some r (m : gmap Z Task) t k : m !! t = Some k -> flying r k = true -> 0 < flights r m.
Proof.
intros Hk Hf. pose proof (flight_finish r m t) as E. unfold flies in E. rewrite Hk, Hf in E. simpl in E.
assert (0 <= flights r (delete t m)); [|lia].
apply sum_over_nonneg. intros j k' _. unfold when_row. by destruct (flying r k').
Qed.

Lemma wp_owned lease w (Q : result pool_exn (ReservedLease * DurableState) -> World -> Prop) :
  (forall current s, pl_states (w_pool w) !! lease.1 = Some s -> ds_released s = false -> Q (Ok (current, s)) w) ->
  (forall e, Q (Err e) w) -> wp (owned lease) Q w.
Proof.
intros H1 H2. unfold wp, owned. repeat case_match; simpl; try apply H2. by apply H1.
Qed.

Lemma flight_resolve i (m : gmap Z Task) t : flights i (alter resolve_token t m) = flights i m.
Proof.
destruct (m !! t) as [k|] eqn:E; [|by rewrite alter_id'].
rewrite (alter_alt_Some _ _ _ k) by done. rewrite flight_suspend. unfold flies. rewrite E. by destruct k; simpl; lia.
Qed.

(** Only the leases changed, or nothing. *)
Lemma leases_kept w leases : pool_ok w -> kept w (w <| w_pool := (w_pool w) <| pl_leases := leases |> |>).
Proof. intros [L S C P F T K]. split; [|by left]. by split. Qed.
Lemma nothing_kept w : pool_ok w -> kept w w.
Proof. intros H. split; [done|by left]. Qed.

(** The pool moved and the ledger did not. *)
Lemma pool_kept w p r f : pool_ok w ->
  pl_states p = alter f r (pl_states (w_pool w)) ->
  (forall s, pl_states (w_pool w) !! r = Some s -> state_moves (w_ledger w) r s (f s)) ->
  (forall t k, pl_tasks p !! t = Some k -> task w t = Some k \/ task_ok (w <| w_pool := p |>) k) ->
  (forall i s, pl_states (w_pool w) !! i = Some s -> in_flight i p - in_flight i (w_pool w)
     = (if bool_decide (i = r) then ds_in_flight (f s) - ds_in_flight s else 0)) ->
  (forall lease, pl_closing p = Some lease -> exists s, pl_states p !! lease.1 = Some s /\ ds_pending s = ∅ /\ ds_in_flight s = 0) ->
  kept w (w <| w_pool := p |>).
Proof.
intros HI Es Hf Ht Hi Hc. split; [|by left]. apply (step_ok w _ r f); try done; [apply HI|apply grows_refl].
Qed.
(** Closing is as it was when the state kept its attempts. *)
Lemma closing_kept w p r f : pool_ok w -> pl_states p = alter f r (pl_states (w_pool w)) -> pl_closing p = pl_closing (w_pool w) ->
  (forall s, pl_states (w_pool w) !! r = Some s -> ds_pending (f s) = ds_pending s /\ ds_in_flight (f s) = ds_in_flight s) ->
  forall lease, pl_closing p = Some lease -> exists s, pl_states p !! lease.1 = Some s /\ ds_pending s = ∅ /\ ds_in_flight s = 0.
Proof.
intros HI Es Ec Hf lease. rewrite Ec, Es. intros Hl. destruct (po_closing w HI lease Hl) as (s & Hs & Hp & Hi).
destruct (decide (lease.1 = r)) as [E|Hn].
- rewrite E, lookup_alter_eq, <- E, Hs. exists (f s). rewrite E in Hs. destruct (Hf s Hs) as [E1 E2]. split_and!; [done|congruence|congruence].
- rewrite lookup_alter_ne by done. by exists s.
Qed.

(** A change that keeps the attempts of the state. *)
Lemma quiet_kept w p r f : pool_ok w -> pl_states p = alter f r (pl_states (w_pool w)) -> pl_closing p = pl_closing (w_pool w) ->
  (forall s, ds_pending (f s) = ds_pending s /\ ds_in_flight (f s) = ds_in_flight s /\ ds_durable_closed (f s) = ds_durable_closed s) ->
  (forall t k, pl_tasks p !! t = Some k -> task w t = Some k \/ task_ok (w <| w_pool := p |>) k) ->
  (forall i, in_flight i p = in_flight i (w_pool w)) -> kept w (w <| w_pool := p |>).
Proof.
intros HI Es Ec Hf Ht Hi. apply (pool_kept w p r f); [done|done| |done| |].
- intros s _. destruct (Hf s) as (? & ? & ?). by apply state_moves_same.
- intros i s _. destruct (Hf s) as (_ & E & _). rewrite E, (Hi i). case_bool_decide; lia.
- eapply closing_kept; [done|done|done|]. intros s _. by destruct (Hf s) as (? & ? & _).
Qed.
Lemma alter_twice {V} (f g : V -> V) r (m : gmap Z V) : alter f r (alter g r m) = alter (fun v => f (g v)) r m.
Proof.
apply map_eq. intros i. destruct (decide (i = r)) as [->|Hn]; [rewrite !lookup_alter_eq; by destruct (m !! r)|by rewrite !lookup_alter_ne].
Qed.

(** A new coroutine is either one already suspended or the one just suspended. *)
Lemma suspended (p : Pool) t k t' k' : <[t := k]> (pl_tasks p) !! t' = Some k' -> pl_tasks p !! t' = Some k' \/ k' = k.
Proof. destruct (decide (t' = t)) as [->|]; [rewrite lookup_insert_eq; intros [= <-]; by right|rewrite lookup_insert_ne by done; by left]. Qed.
Lemma finished (p : Pool) t t' k' : delete t (pl_tasks p) !! t' = Some k' -> pl_tasks p !! t' = Some k'.
Proof. intros H. by apply lookup_delete_Some in H as [_ ?]. Qed.

(** The count of the coroutines under way. *)
Ltac flights_tac :=
  unfold in_flight, task, id in *; simpl; rewrite ?flight_suspend, ?flight_resolve, ?flight_finish; unfold flies;
  repeat match goal with H : pl_tasks _ !! _ = _ |- _ => rewrite H; clear H end;
  simpl; unfold one; repeat case_bool_decide; subst; try done; lia.
Ltac pool_steps :=
  unfold set_state, suspend, finish, on_pool;
  repeat (lazymatch goal with
    | |- wp (owned _) _ _ => apply wp_owned; [intros ?current ?s ?Hs ?Hr|intros ?e; by apply nothing_kept]
    | |- wp (throw _) _ _ => apply wp_throw
    | _ => wp_step
    end; cbv beta iota).

Lemma rotate_kept lease inner w : pool_ok w -> wp (ReservedPool.rotate lease inner) (fun _ w' => kept w w') w.
Proof.
intros HI. unfold ReservedPool.rotate. pool_steps. destruct (_ || _); [by apply nothing_kept|]. destruct (negb inner); [by apply nothing_kept|].
pool_steps. by apply leases_kept.
Qed.

Lemma acquired_kept t r lease w : pool_ok w -> unlocked w -> task w t = Some (T_acquired r lease) ->
  wp (acquired t r lease) (fun _ w' => kept w w') w.
Proof.
intros HI Hu Ht. unfold acquired. pool_steps. apply (pool_kept w _ 0 id); [done|by rewrite alter_id| | | |].
- intros s _. by apply state_moves_same.
- intros t' k Hk. left. by apply (finished (w_pool w) t).
- intros i s _. flights_tac.
- simpl. intros l. by rewrite Hu.
Qed.

Lemma authorize_kept t lease bytes inner w : pool_ok w -> unlocked w -> task w t = None ->
  wp (authorize t lease bytes inner) (fun _ w' => kept w w') w.
Proof.
intros HI Hu Ht. unfold authorize. destruct (bytes <? 0); [by apply nothing_kept|]. pool_steps.
destruct (ds_reporting_failed _); [by apply nothing_kept|]. destruct inner as [[]|]; [|by apply nothing_kept|by apply nothing_kept]. pool_steps.
eapply (pool_kept w _ lease.1); [done|reflexivity| | | |].
- intros s' _. by apply state_moves_same.
- intros t' k Hk. apply suspended in Hk as [Hk| ->]; [by left|right]. simpl. apply lookup_alter_is_Some. by exists s.
- intros i s' _. flights_tac.
- simpl. intros l. by rewrite Hu.
Qed.

(** A round trip that is a step of the ledger. *)
Lemma trip_kept w p op r f : pool_ok w -> disciplined (w_ledger w) op ->
  grows (unsettled w) (w_ledger w) (perform day_start op (w_ledger w)) ->
  let w' := {| w_pool := p; w_ledger := perform day_start op (w_ledger w) |} in
  pl_states p = alter f r (pl_states (w_pool w)) ->
  (forall s, pl_states (w_pool w) !! r = Some s -> state_moves (w_ledger w') r s (f s)) ->
  (forall t k, pl_tasks p !! t = Some k -> task w t = Some k \/ task_ok w' k) ->
  (forall i s, pl_states (w_pool w) !! i = Some s -> in_flight i p - in_flight i (w_pool w)
     = (if bool_decide (i = r) then ds_in_flight (f s) - ds_in_flight s else 0)) ->
  (forall lease, pl_closing p = Some lease -> exists s, pl_states p !! lease.1 = Some s /\ ds_pending s = ∅ /\ ds_in_flight s = 0) ->
  kept w w'.
Proof.
intros HI Hd HG w' Es Hf Ht Hi Hc. split; [|right; by exists op].
apply (step_ok w w' r f); try done. apply ledger_perform_ok; [apply HI|done].
Qed.

Lemma authorize_trip_kept fault t lease bytes n w : pool_ok w -> task w t = Some (T_authorizing lease bytes n) ->
  wp (authorize_trip fault t lease bytes n) (fun _ w' => kept w w') w.
Proof.
intros HI Ht. pose proof (po_task w HI t _ Ht) as [s0 Hs0].
unfold authorize_trip, round_trip. destruct fault as [e|]; pool_steps; unfold wp at 1; cbn [fst snd]; pool_steps.
{ apply (quiet_kept w _ 0 id); [done|by rewrite alter_id|done|done| |intros i; flights_tac].
  intros t' k Hk. apply suspended in Hk as [Hk| ->]; [by left|right]. by split; [exists s0|]. }
pose proof (authorize_grows (unsettled w) lease.1 bytes n (w_ledger w) (po_ledger w HI)) as [HG Ha].
apply (trip_kept w _ (Authorize lease.1 bytes n) 0 id); [done|done|done|by rewrite alter_id| | | |].
- intros s _. by apply state_moves_same.
- intros t' k Hk. apply suspended in Hk as [Hk| ->]; [by left|right]. simpl. split; [by exists s0|].
  destruct (authorize_reservation_attempt lease.1 bytes n (w_ledger w)) as [[[a|]|e] l']; [|done|done]. simpl in *.
  destruct Ha as [(row & Hrow & Hact) Hx]. split; [|done]. exists s0. split; [done|].
  destruct (po_state w HI lease.1 s0 Hs0) as (row' & Hrow' & E). rewrite Hrow in Hrow'. simplify_eq. rewrite Hact in E. by destruct (ds_durable_closed s0).
- intros i s _. flights_tac.
- apply (closing_kept w _ 0 id); [done|by rewrite alter_id|done|done].
Qed.

Lemma authorize_answered_kept t lease answer w : pool_ok w -> unlocked w -> task w t = Some (T_authorized lease answer) ->
  wp (authorize_answered t lease answer) (fun _ w' => kept w w') w.
Proof.
intros HI Hu Ht. pose proof (po_task w HI t _ Ht) as [[s0 Hs0] Hk]. unfold authorize_answered. pool_steps.
assert (Hu' : forall lease, pl_closing (w_pool w) = Some lease -> False) by (intros l; by rewrite Hu).
destruct answer as [[a|]|e]; pool_steps.
- eapply (pool_kept w _ lease.1); [done|simpl; apply alter_twice| | | |].
  + intros s' Hs'. destruct Hk as [(s1 & Hs1 & Hd) Ha]. rewrite Hs' in Hs1. simplify_eq. unfold state_moves. simpl. split_and!; [done| |set_solver].
    intros b Hb. apply elem_of_union in Hb as [->%elem_of_singleton|Hb]; [by right|by left].
  + intros t' k Hk'. apply suspended in Hk' as [Hk'| ->]; [by left|by right].
  + intros i s' _. flights_tac.
  + simpl. intros l Hl. by destruct (Hu' l).
- eapply (pool_kept w _ lease.1); [done|simpl; apply alter_twice| | | |].
  + intros s' _. by apply state_moves_same.
  + intros t' k Hk'. apply suspended in Hk' as [Hk'| ->]; [by left|by right].
  + intros i s' _. flights_tac.
  + simpl. intros l Hl. by destruct (Hu' l).
- eapply (pool_kept w _ lease.1); [done|simpl; rewrite !alter_twice; reflexivity| | | |].
  + intros s' _. by apply state_moves_same.
  + intros t' k Hk'. apply suspended in Hk' as [Hk'| ->]; [by left|by right].
  + intros i s' _. flights_tac.
  + simpl. intros l Hl. by destruct (Hu' l).
Qed.

Lemma discarded_kept t lease previous outcome inner w : pool_ok w -> task w t = Some (T_discarding lease previous outcome) ->
  wp (discarded t lease previous outcome inner) (fun _ w' => kept w w') w.
Proof.
intros HI Ht. unfold discarded. pool_steps. destruct (negb inner); pool_steps; [|destruct outcome; pool_steps].
- apply (quiet_kept w _ 0 id); [done|by rewrite alter_id|done|done| |]; [intros t' k Hk; left; by apply (finished (w_pool w) t)|intros i; flights_tac].
- eapply (quiet_kept w _ lease.1); [done|reflexivity|done|done| |]; [intros t' k Hk; left; by apply (finished (w_pool w) t)|intros i; flights_tac].
- eapply (quiet_kept w _ lease.1); [done|reflexivity|done|done| |]; [intros t' k Hk; left; by apply (finished (w_pool w) t)|intros i; flights_tac].
Qed.

(** A coroutine that ended, and the token it resolved, if any. *)
Ltac old_tasks := intros ?t' ?k ?Hk; left; by apply (finished _ _ _ _ Hk).
Lemma resolved_task (m : gmap Z Task) token t' k w : alter resolve_token token m !! t' = Some k -> m !! t' = Some k \/ task_ok w k.
Proof.
destruct (decide (t' = token)) as [->|Hn]; [rewrite lookup_alter_eq|rewrite lookup_alter_ne by done; by left].
destruct (m !! token) as [k0|]; [|done]. intros [= <-]. destruct k0; simpl; try (by left); by right.
Qed.

Lemma reconcile_attempt_kept t token lease a target actual n w : pool_ok w -> unlocked w -> task w t = None ->
  wp (reconcile_attempt t token lease a target actual n) (fun _ w' => kept w w') w.
Proof.
intros HI Hu Ht. unfold reconcile_attempt, check_pending. pool_steps. simpl. case_bool_decide as Ha; pool_steps; [|by apply nothing_kept].
destruct (bool_decide _); pool_steps; [|by apply nothing_kept].
apply (quiet_kept w _ 0 id); [done|by rewrite alter_id|done|done| |].
- intros t' k Hk. apply suspended in Hk as [Hk| ->]; [by left|right]. simpl. right. by exists s.
- intros i. flights_tac.
Qed.
Lemma release_attempt_kept t token lease a w : pool_ok w -> unlocked w -> task w t = None ->
  wp (release_attempt t token lease a) (fun _ w' => kept w w') w.
Proof.
intros HI Hu Ht. unfold release_attempt, check_pending. pool_steps. simpl. case_bool_decide as Ha; pool_steps; [|by apply nothing_kept].
apply (quiet_kept w _ 0 id); [done|by rewrite alter_id|done|done| |].
- intros t' k Hk. apply suspended in Hk as [Hk| ->]; [by left|by right].
- intros i. flights_tac.
Qed.

Lemma reconcile_trip_kept fault t token lease a actual n w : pool_ok w -> task w t = Some (T_reconciling token lease a actual n) ->
  wp (reconcile_trip fault t token lease a actual n) (fun _ w' => kept w w') w.
Proof.
intros HI Ht. pose proof (po_task w HI t _ Ht) as Ha. simpl in Ha.
assert (Hd : disciplined (w_ledger w) (ReconcileAttempt a actual n)).
{ intros x r Hx Hs Hr. destruct Ha as [(x' & Hx' & Hs')|(s & Hs' & Hp)]; [by simplify_eq|].
  destruct (po_pending w HI _ s a Hs' Hp) as (x' & Hx' & E). simplify_eq. destruct (po_state w HI _ s Hs') as (row & Hrow & Er). rewrite E in Hr. simplify_eq.
  rewrite Er. destruct (ds_durable_closed s) eqn:Ed; [|done]. by rewrite (po_closed w HI _ s Hs' Ed) in Hp. }
pose proof (reconcile_grows (unsettled w) a actual n (w_ledger w)) as [HG Hu].
unfold reconcile_trip, round_trip. pool_steps. destruct fault as [e|]; unfold wp at 1; cbn [fst snd]; pool_steps.
{ eapply (quiet_kept w _ lease.1); [done|reflexivity|done|done|old_tasks|intros i; flights_tac]. }
destruct (reconcile_reservation_attempt a actual n (w_ledger w)) as [[usage|e] l'] eqn:E; cbn [fst snd]; pool_steps.
- replace l' with (perform day_start (ReconcileAttempt a actual n) (w_ledger w)) by (simpl; by rewrite E).
  apply (trip_kept w _ (ReconcileAttempt a actual n) 0 id); [done|done|simpl; by rewrite E|by rewrite alter_id| | | |].
  + intros s _. by apply state_moves_same.
  + intros t' k Hk. apply suspended in Hk as [Hk| ->]; [by left|right]. simpl. by rewrite E.
  + intros i s _. flights_tac.
  + apply (closing_kept w _ 0 id); [done|by rewrite alter_id|done|done].
- replace l' with (perform day_start (ReconcileAttempt a actual n) (w_ledger w)) by (simpl; by rewrite E).
  eapply (trip_kept w _ (ReconcileAttempt a actual n) lease.1); [done|done|simpl; by rewrite E|reflexivity| | | |].
  + intros s _. by apply state_moves_same.
  + old_tasks.
  + intros i s _. flights_tac.
  + eapply closing_kept; [done|reflexivity|done|done].
Qed.
Lemma release_attempt_trip_kept fault t token lease a w : pool_ok w -> task w t = Some (T_freeing token lease a) ->
  wp (release_attempt_trip fault t token lease a) (fun _ w' => kept w w') w.
Proof.
intros HI Ht. pose proof (release_grows (unsettled w) a (w_ledger w)) as [HG Hu].
unfold release_attempt_trip, round_trip. pool_steps. destruct fault as [e|]; unfold wp at 1; cbn [fst snd]; pool_steps.
{ eapply (quiet_kept w _ lease.1); [done|reflexivity|done|done|old_tasks|intros i; flights_tac]. }
destruct (release_reservation_attempt a (w_ledger w)) as [[u|e] l'] eqn:E; cbn [fst snd]; pool_steps.
- replace l' with (perform day_start (ReleaseAttempt a) (w_ledger w)) by (simpl; by rewrite E).
  apply (trip_kept w _ (ReleaseAttempt a) 0 id); [done|done|simpl; by rewrite E|by rewrite alter_id| | | |].
  + intros s _. by apply state_moves_same.
  + intros t' k Hk. apply suspended in Hk as [Hk| ->]; [by left|right]. simpl. by rewrite E.
  + intros i s _. flights_tac.
  + apply (closing_kept w _ 0 id); [done|by rewrite alter_id|done|done].
- replace l' with (perform day_start (ReleaseAttempt a) (w_ledger w)) by (simpl; by rewrite E).
  eapply (trip_kept w _ (ReleaseAttempt a) lease.1); [done|done|simpl; by rewrite E|reflexivity| | | |].
  + intros s _. by apply state_moves_same.
  + old_tasks.
  + intros i s _. flights_tac.
  + eapply closing_kept; [done|reflexivity|done|done].
Qed.

Lemma reconcile_answered_kept t token lease a usage w : pool_ok w -> unlocked w -> task w t = Some (T_reconciled token lease a usage) ->
  wp (reconcile_answered t token lease a usage) (fun _ w' => kept w w') w.
Proof.
intros HI Hu Ht. pose proof (po_task w HI t _ Ht) as Ha. simpl in Ha. unfold reconcile_answered. pool_steps.
eapply (pool_kept w _ lease.1); [done|reflexivity| | | |].
- intros s _. unfold state_moves. simpl. split_and!; [done|set_solver|]. intros b Hb. destruct (decide (b = a)) as [->|]; [by right|left; set_solver].
- intros t' k Hk. apply suspended in Hk as [Hk| ->]; [by left|by right].
- intros i s _. flights_tac.
- simpl. intros l. by rewrite Hu.
Qed.
Lemma release_attempt_answered_kept t token lease a inner w : pool_ok w -> unlocked w -> task w t = Some (T_freed token lease a) ->
  wp (release_attempt_answered t token lease a inner) (fun _ w' => kept w w') w.
Proof.
intros HI Hu Ht. pose proof (po_task w HI t _ Ht) as Ha. simpl in Ha. unfold release_attempt_answered, resolve. pool_steps.
assert (Hf : forall g p, (forall s, ds_pending (g s) = ds_pending s /\ ds_durable_closed (g s) = ds_durable_closed s /\ ds_in_flight (g s) = ds_in_flight s) ->
  pl_states p = alter (fun s => g (s <| ds_pending := ds_pending s ∖ {[a]} |>)) lease.1 (pl_states (w_pool w)) ->
  pl_tasks p = alter resolve_token token (delete t (pl_tasks (w_pool w))) -> pl_closing p = None -> kept w (w <| w_pool := p |>)).
{ intros g p Hg Es Et Ec. eapply (pool_kept w _ lease.1); [done|exact Es| | | |].
  - intros s _. destruct (Hg (s <| ds_pending := ds_pending s ∖ {[a]} |>)) as (E1 & E2 & _). unfold state_moves. rewrite E1, E2. simpl.
    split_and!; [done|set_solver|]. intros b Hb. destruct (decide (b = a)) as [->|]; [by right|left; set_solver].
  - intros t' k Hk. rewrite Et in Hk. apply (resolved_task _ _ _ _ (w <| w_pool := p |>)) in Hk as [Hk|]; [left; by apply (finished _ _ _ _ Hk)|by right].
  - intros i s _. destruct (Hg (s <| ds_pending := ds_pending s ∖ {[a]} |>)) as (_ & _ & ->). unfold in_flight. rewrite Et. flights_tac.
  - intros l. by rewrite Ec. }
destruct inner; pool_steps; [by apply (Hf id)|apply (Hf fail_reporting); [done|simpl; by rewrite alter_twice|done|done]].
Qed.

Lemma accounted_kept t token lease usage n inner w : pool_ok w -> task w t = Some (T_accounted token lease usage) ->
  wp (accounted t token lease usage n inner) (fun _ w' => kept w w') w.
Proof.
intros HI Ht. unfold accounted, resolve.
assert (Hf : forall p f, (forall s, ds_pending (f s) = ds_pending s /\ ds_in_flight (f s) = ds_in_flight s /\ ds_durable_closed (f s) = ds_durable_closed s) ->
  pl_states p = alter f lease.1 (pl_states (w_pool w)) -> pl_tasks p = alter resolve_token token (delete t (pl_tasks (w_pool w))) ->
  pl_closing p = pl_closing (w_pool w) -> kept w (w <| w_pool := p |>)).
{ intros p f Hf Es Et Ec. apply (quiet_kept w p lease.1 f); [done|done|done|done| |].
  - intros t' k Hk. rewrite Et in Hk. apply (resolved_task _ _ _ _ (w <| w_pool := p |>)) in Hk as [Hk|]; [left; by apply (finished _ _ _ _ Hk)|by right].
  - intros i. unfold in_flight. rewrite Et. flights_tac. }
pool_steps. destruct (negb inner); pool_steps; [by apply (Hf _ fail_reporting)|]. destruct (us_revoked usage); pool_steps; [by apply (Hf _ fail_reporting)|].
destruct (_ || _); pool_steps; [by apply (Hf _ fail_reporting)|]. apply (Hf _ id); [done|simpl; by rewrite alter_id|done|done].
Qed.

Lemma release_kept lease w : pool_ok w -> unlocked w -> wp (release lease) (fun _ w' => kept w w') w.
Proof.
intros HI Hu. unfold release. pool_steps. destruct (default false _); pool_steps; [by apply nothing_kept|]. pool_steps.
simpl. destruct (_ || _) eqn:E; pool_steps; [by apply nothing_kept|]. apply orb_false_iff in E as [E1 E2].
apply (pool_kept w _ 0 id); [done|by rewrite alter_id| | | |].
- intros s' _. by apply state_moves_same.
- intros t k Hk. by left.
- intros i s' _. flights_tac.
- intros l [= <-]. exists s. apply negb_false_iff, bool_decide_eq_true in E1. apply negb_false_iff, Z.eqb_eq in E2. done.
Qed.

Lemma release_answered_kept lease inner w : pool_ok w -> pl_closing (w_pool w) = Some lease ->
  wp (release_answered lease inner) (fun _ w' => kept w w') w.
Proof.
intros HI Hc. unfold release_answered. pool_steps. destruct (_ && _); pool_steps.
all: eapply (pool_kept w _ lease.1); [done|reflexivity| | | |];
  [intros s _; by apply state_moves_same|intros t k Hk; by left|intros i s _; flights_tac|intros l; done].
Qed.

(** A first settlement closes the row. *)
Lemma close_settles id used n l r : lg_reservations l !! id = Some r -> is_active (rs_state r) = true ->
  wp (close_reservation id used n) (fun u l' => match u with
    | Ok _ => exists r', lg_reservations l' !! id = Some r' /\ is_active (rs_state r') = false
    | Err _ => l' = l
    end) l.
Proof.
intros Hr Ha. unfold close_reservation, update_cycle. ledger_steps. rewrite Hr. ledger_steps.
apply (wp_update_reservation _ _ r); [done| |]; [intros _|by rewrite Ha]. ledger_steps; cbn [is_some]; ledger_steps; cbn [is_some orb]; ledger_steps.
unfold wp, request_reconcile, modify. simpl. destruct (existsb _ _); simpl; rewrite lookup_insert_eq; by eexists.
Qed.

(** The settlement of the lease that holds the lock. *)
Lemma settle_kept w r used n s : pool_ok w -> pl_closing (w_pool w) = None \/ (exists i, pl_closing (w_pool w) = Some (r, i)) ->
  pl_states (w_pool w) !! r = Some s -> ds_durable_closed s = false -> ds_pending s = ∅ -> ds_in_flight s = 0 ->
  (close_reservation r used n (w_ledger w)).1 = Ok () ->
  kept w {| w_pool := (w_pool w) <| pl_states := alter (fun s => s <| ds_durable_closed := true |>) r (pl_states (w_pool w)) |>;
            w_ledger := perform day_start (Close r used n) (w_ledger w) |}.
Proof.
intros HI Hc Hs Hd Hp Hi Hok. destruct HI as [L S C P F T K]. destruct (S r s Hs) as (row & Hrow & Ha). rewrite Hd in Ha. simpl in Ha.
assert (Hdis : disciplined (w_ledger w) (Close r used n)) by (intros row' Hrow' Ha'; congruence).
set (l' := perform day_start (Close r used n) (w_ledger w)).
pose proof (close_grows (fun i => i <> r) r used n (w_ledger w) (fun H => H eq_refl)) as HG. change (grows (fun i => i <> r) (w_ledger w) l') in HG.
pose proof (close_settles r used n (w_ledger w) row Hrow Ha) as Hsettled. unfold wp in Hsettled. rewrite Hok in Hsettled. cbv beta iota in Hsettled.
set (g := fun s => s <| ds_durable_closed := true |>).
assert (M : forall i s', alter g r (pl_states (w_pool w)) !! i = Some s' -> (i = r /\ s' = g s) \/ (i <> r /\ pl_states (w_pool w) !! i = Some s')).
{ intros i s'. destruct (decide (i = r)) as [->|Hn]; [rewrite lookup_alter_eq, Hs; intros [= <-]; by left|rewrite lookup_alter_ne by done; by right]. }
assert (Hn : forall t k, task w t = Some k -> flying r k = false).
{ intros t k Hk. destruct (flying r k) eqn:Ef; [|done]. pose proof (flight_some r _ t k Hk Ef) as H. specialize (F r s Hs). unfold in_flight in F. lia. }
split; [|right; by exists (Close r used n)]. split; simpl.
- by apply ledger_perform_ok.
- intros i s' Hs'. destruct (M i s' Hs') as [[-> ->]|[Hne Hs0]]; [by destruct Hsettled as (r' & Hr' & E); exists r'|].
  destruct (S i s' Hs0) as (row' & Hrow' & E). destruct HG as [GR _]. destruct (GR i row' Hrow') as (row2 & Hrow2 & Hk & Hj). exists row2. split; [done|].
  destruct (ds_durable_closed s'); [by apply Hj|by apply Hk].
- intros i s' Hs'. destruct (M i s' Hs') as [[-> ->]|[Hne Hs0]]; [by intros _|by apply (C i)].
- intros i s' a Hs' Ha'. destruct (M i s' Hs') as [[-> ->]|[Hne Hs0]]; [simpl in Ha'; by rewrite Hp in Ha'|].
  eapply attempt_of_grows; [exact HG|by apply (P i s')].
- intros i s' Hs'. destruct (M i s' Hs') as [[-> ->]|[Hne Hs0]]; [by apply (F r s)|by apply (F i s')].
- intros t k Hk. specialize (T t k Hk). specialize (Hn t k Hk).
  assert (N : forall i, is_Some (pl_states (w_pool w) !! i) -> is_Some (alter g r (pl_states (w_pool w)) !! i)) by (intros i; by rewrite lookup_alter_is_Some).
  destruct k as [|lease|lease answer| | | |tok lease a ? ?|tok lease a ?| | |tok lease a]; simpl in *; try done.
  + by apply N.
  + destruct T as [T0 T1]. split; [by apply N|]. destruct answer as [[a|]|e]; [|done|done]. destruct T1 as [(s1 & E1 & E2) T2].
    apply bool_decide_eq_false in Hn. split; [exists s1; simpl; by rewrite lookup_alter_ne|by eapply attempt_of_grows].
  + destruct T as [T|(s1 & E & Ha')]; [left; by eapply resolved_grows|]. destruct (decide (lease.1 = r)) as [Er|Hne].
    * rewrite Er in E. simplify_eq. by rewrite Hp in Ha'.
    * right. exists s1. by rewrite lookup_alter_ne.
  + by eapply resolved_grows.
  + by eapply resolved_grows.
- intros lease Hl. destruct Hc as [Hc|[i Hc]]; [congruence|]. rewrite Hc in Hl. simplify_eq. exists (g s). simpl. by rewrite lookup_alter_eq, Hs.
Qed.

Lemma release_trip_kept fault lease w : pool_ok w -> pl_closing (w_pool w) = Some lease -> wp (release_trip fault lease) (fun _ w' => kept w w') w.
Proof.
intros HI Hc. destruct (po_closing w HI lease Hc) as (s & Hs & Hp & Hi). unfold release_trip, round_trip. pool_steps. rewrite Hs.
destruct (ds_durable_closed s) eqn:Hd; [by apply nothing_kept|]. pool_steps. destruct fault as [e|]; unfold wp at 1; cbn [fst snd]; pool_steps.
{ eapply (pool_kept w _ lease.1); [done|reflexivity| | | |];
    [intros s' _; by apply state_moves_same|intros t k Hk; by left|intros i s' _; flights_tac|done]. }
destruct (po_state w HI lease.1 s Hs) as (row & Hrow & Ha). rewrite Hd in Ha.
pose proof (close_settles lease.1 (ds_used_bytes s) (ds_requests s) (w_ledger w) row Hrow Ha) as H. unfold wp in H.
destruct (close_reservation lease.1 (ds_used_bytes s) (ds_requests s) (w_ledger w)) as [[[]|e] l'] eqn:E; cbn [fst snd] in *; pool_steps.
- replace l' with (perform day_start (Close lease.1 (ds_used_bytes s) (ds_requests s)) (w_ledger w)) by (simpl; by rewrite E).
  apply (settle_kept w lease.1 (ds_used_bytes s) (ds_requests s) s); try done; [right; exists lease.2; by destruct lease|by rewrite E].
- subst l'. eapply (pool_kept w _ lease.1); [done|reflexivity| | | |];
    [intros s' _; by apply state_moves_same|intros t k Hk; by left|intros i s' _; flights_tac|done].
Qed.

(** A reservation just made gets its state. *)
Lemma new_state_ok w r s t lease row : pool_ok w -> pl_states (w_pool w) !! r = None -> task w t = None ->
  lg_reservations (w_ledger w) !! r = Some row -> is_active (rs_state row) = true ->
  ds_pending s = ∅ -> ds_in_flight s = 0 -> ds_durable_closed s = false ->
  pool_ok (w <| w_pool := (w_pool w) <| pl_states := <[r := s]> (pl_states (w_pool w)) |> <| pl_tasks := <[t := T_acquired r lease]> (pl_tasks (w_pool w)) |> |>).
Proof.
intros [L S C P F T K] Hn Ht Hrow Ha Hp Hi Hd.
assert (M : forall i s', <[r := s]> (pl_states (w_pool w)) !! i = Some s' -> (i = r /\ s' = s) \/ pl_states (w_pool w) !! i = Some s').
{ intros i s'. destruct (decide (i = r)) as [->|Hne]; [rewrite lookup_insert_eq; intros [= <-]; by left|rewrite lookup_insert_ne by done; by right]. }
assert (N : forall i s', pl_states (w_pool w) !! i = Some s' -> <[r := s]> (pl_states (w_pool w)) !! i = Some s').
{ intros i s' Hs'. rewrite lookup_insert_ne; [done|]. intros ->. congruence. }
assert (Ef : forall i, flights i (<[t := T_acquired r lease]> (pl_tasks (w_pool w))) = flights i (pl_tasks (w_pool w))).
{ intros i. rewrite flight_suspend. unfold flies. unfold task in Ht. rewrite Ht. simpl. lia. }
assert (Hz : flights r (pl_tasks (w_pool w)) = 0).
{ apply sum_over_zero. intros j k Hk. unfold when_row. destruct (flying r k) eqn:E; [|done]. specialize (T j k Hk).
  destruct k; simpl in E; try done; apply bool_decide_eq_true in E; simpl in T; rewrite E, Hn in T; [by destruct T|by destruct T as [[? ?] _]]. }
split; simpl; [done| | | | | |].
- intros i s' Hs'. destruct (M i s' Hs') as [[-> ->]|H]; [exists row; by rewrite Hd|by apply (S i)].
- intros i s' Hs'. destruct (M i s' Hs') as [[-> ->]|H]; [by intros _|by apply (C i)].
- intros i s' a Hs' Ha'. destruct (M i s' Hs') as [[-> ->]|H]; [by rewrite Hp in Ha'|by apply (P i s')].
- intros i s' Hs'. unfold in_flight. simpl. rewrite Ef. destruct (M i s' Hs') as [[-> ->]|H]; [by rewrite Hi, Hz|by apply (F i)].
- intros j k Hk. destruct (suspended (w_pool w) t _ j k Hk) as [Hold| ->]; [|done]. specialize (T j k Hold).
  assert (N' : forall i, is_Some (pl_states (w_pool w) !! i) -> is_Some (<[r := s]> (pl_states (w_pool w)) !! i)) by (intros i [s1 E]; exists s1; by apply N).
  destruct k as [|l|l answer| | | |tok l a ? ?|tok l a ?| | |tok l a]; simpl in *; try done.
  + by apply N'.
  + destruct T as [T0 T1]. split; [by apply N'|]. destruct answer as [[a|]|e]; [|done|done]. destruct T1 as [(s1 & E1 & E2) T2].
    split; [exists s1; split; [by apply N|done]|done].
  + destruct T as [T|(s1 & E & Ha')]; [by left|right]. exists s1. split; [by apply N|done].
- intros l Hl. destruct (K l Hl) as (s1 & E & ? & ?). exists s1. split; [by apply N|done].
Qed.

Lemma acquire_kept fault t q now most requested lease w : pool_ok w -> task w t = None ->
  wp (acquire day_start fault t q now most requested lease) (fun _ w' => kept w w') w.
Proof.
intros HI Ht. unfold acquire, round_trip. set (q' := {| rr_job := _ |}). pool_steps. destruct fault as [e|]; unfold wp at 1; cbn [fst snd]; pool_steps; [by apply nothing_kept|].
pose proof (reserve_grows (unsettled w) day_start q' now (w_ledger w) (po_ledger w HI)) as H. unfold wp in H.
destruct (reserve day_start q' now (w_ledger w)) as [[r|e] l'] eqn:E; cbn [fst snd] in *; destruct H as [HG H]; pool_steps.
- destruct H as [Hf (row & Hrow & Ha)].
  assert (K : kept w {| w_pool := w_pool w; w_ledger := l' |}).
  { replace l' with (perform day_start (Reserve q' now) (w_ledger w)) by (simpl; by rewrite E).
    apply (trip_kept w _ (Reserve q' now) 0 id); [done|done|simpl; by rewrite E|by rewrite alter_id| | | |].
    - intros s _. by apply state_moves_same.
    - intros t' k Hk. by left.
    - intros i s _. flights_tac.
    - by apply (closing_kept w _ 0 id); [|rewrite alter_id| |]. }
  destruct K as [K1 K2]. split; [|exact K2].
  apply (new_state_ok {| w_pool := w_pool w; w_ledger := l' |} r _ t lease row); try done.
  simpl. destruct (pl_states (w_pool w) !! r) as [s|] eqn:Es; [|done]. destruct (po_state w HI r s Es) as (row' & Hrow' & _). congruence.
- subst l'. replace (w <| w_ledger := w_ledger w |>) with w by (by destruct w). by apply nothing_kept.
Qed.

Lemma others_kept op w : pool_ok w -> disciplined (w_ledger w) op -> spares (unsettled w) (w_ledger w) op ->
  kept w (w <| w_ledger := perform day_start op (w_ledger w) |>).
Proof.
intros HI Hd Hs. pose proof (ledger_perform_grows (unsettled w) day_start op (w_ledger w) (po_ledger w HI) Hs) as HG.
apply (trip_kept w (w_pool w) op 0 id); [done|done|done|by rewrite alter_id| | | |].
- intros s _. by apply state_moves_same.
- intros t k Hk. by left.
- intros i s _. flights_tac.
- by apply (closing_kept w _ 0 id); [|rewrite alter_id| |].
Qed.

Lemma world_step_kept w w' : pool_ok w -> world_step w w' -> kept w w'.
Proof.
intros HI Hs. destruct Hs;
  [by apply acquire_kept|by apply acquired_kept|by apply rotate_kept|by apply authorize_kept|by apply authorize_trip_kept
  |by apply authorize_answered_kept|by apply discarded_kept|by apply reconcile_attempt_kept|by apply reconcile_trip_kept
  |by apply reconcile_answered_kept|by apply accounted_kept|by apply release_attempt_kept|by apply release_attempt_trip_kept
  |by apply release_attempt_answered_kept|by apply release_kept|by apply release_trip_kept|by apply release_answered_kept|by apply others_kept].
Qed.

(** An adapter that has done nothing yet. *)
Definition idle_pool : Pool := {| pl_leases := ∅; pl_states := ∅; pl_tasks := ∅; pl_closing := None |}.

Lemma idle_ok l : ledger_ok l -> pool_ok {| w_pool := idle_pool; w_ledger := l |}.
Proof. intros H. by split. Qed.
Lemma run_kept w w' : pool_ok w -> rtc world_step w w' -> pool_ok w' /\ rtc (ledger_step day_start) (w_ledger w) (w_ledger w').
Proof.
intros HI Hs. induction Hs as [w|w w1 w' H1 _ IH]; [by split; [|apply rtc_refl]|].
destruct (world_step_kept w w1 HI H1) as [HI1 HL]. destruct (IH HI1) as [HI' HL']. split; [done|].
destruct HL as [E|HL]; [by rewrite <- E|by eapply rtc_l].
Qed.

(** C9. Whatever the interleaving of the coroutines that acquire, rotate, authorize,
    reconcile and release through the adapter, with connections that fail and an inner
    pool that may answer anything, and whatever the ledger's other clients do meanwhile
    as long as their own operations are disciplined and settle none of the adapter's
    live reservations (neither closing one nor, its job's lease being lost, clearing it
    away as stale): what happens to the ledger is a disciplined history, in which every
    attempt is reconciled before its reservation is settled; a settled reservation has
    no attempt left to resolve, and an attempt still to be resolved belongs to a
    reservation that is not settled. *)
Theorem adapter_keeps_the_discipline l w : unspent l -> rtc world_step {| w_pool := idle_pool; w_ledger := l |} w ->
  rtc (ledger_step day_start) l (w_ledger w)
  /\ (forall r s a, pl_states (w_pool w) !! r = Some s -> a ∈ ds_pending s ->
      exists x row, lg_attempts (w_ledger w) !! a = Some x /\ ta_reservation x = r
        /\ lg_reservations (w_ledger w) !! r = Some row /\ is_active (rs_state row) = true /\ ds_durable_closed s = false).
Proof.
intros Hl Hs. destruct (run_kept _ _ (idle_ok l (unspent_ok l Hl)) Hs) as [HI HL]. split; [exact HL|].
intros r s a Hs' Ha. destruct (po_pending w HI r s a Hs' Ha) as (x & Hx & E). destruct (po_state w HI r s Hs') as (row & Hrow & Er).
exists x, row. destruct (ds_durable_closed s) eqn:Ed; [by rewrite (po_closed w HI r s Hs' Ed) in Ha|]. done.
Qed.
End steps.

(** * On a concrete adapter *)

Module PoolDemo.
Import LedgerDemo.
Definition lease : ReservedLease := {| rl_target := "shop.example"; rl_maximum_requests := Some 5 |}.
Definition after {A} (m : pool A) (w : World) : World := (m w).2.
Definition w0 : World := {| w_pool := idle_pool; w_ledger := ledger_of 1500 false |}.
Definition acquired_one : World := after (acquired 0 10 lease) (after (acquire midnight None 0 (request 7 700) now 700 None lease) w0).
Definition authorized_one (t : Z) (bytes : Z) (w : World) : World :=
  let w := after (authorize_trip None t (10, 0) bytes (Some 5)) (after (authorize t (10, 0) bytes (Ok true)) w) in
  match task w t with Some (T_authorized l answer) => after (authorize_answered t l answer) w | _ => w end.

(** A page of 300 bytes through the lease, and its release. *)
Definition settled_one : World :=
  let w := authorized_one 1 300 acquired_one in
  let w := after (reconcile_trip None 2 1 (10, 0) 11 280 1) (after (reconcile_attempt 2 1 (10, 0) 11 "shop.example" 280 1) w) in
  let w := match task w 2 with Some (T_reconciled k l a u) => after (accounted 2 k l u (Some 5) true) (after (reconcile_answered 2 k l a u) w) | _ => w end in
  after (release_answered (10, 0) true) (after (release_trip None (10, 0)) (after (release (10, 0)) w)).
Example settled_one_is_closed :
  (rs_state <$> lg_reservations (w_ledger settled_one) !! 10, rs_estimated <$> lg_reservations (w_ledger settled_one) !! 10,
   map_to_list (pl_leases (w_pool settled_one))) = (Some R_closed, Some 280, []).
Proof. vm_compute. reflexivity. Qed.

(** One authorisation finds the reservation exhausted and gives its inner token back;
    meanwhile the accounting of an earlier attempt fails; then the first restores the
    flag it had read. *)
Definition forgetful : World :=
  let w := authorized_one 1 700 acquired_one in
  let w := authorized_one 2 100 w in
  let w := after (reconcile_trip (Some (LedgerRaises (RuntimeError "connection lost"))) 3 1 (10, 0) 11 700 1)
             (after (reconcile_attempt 3 1 (10, 0) 11 "shop.example" 700 1) w) in
  match task w 2 with Some (T_discarding l previous outcome) => after (discarded 2 l previous outcome true) w | _ => w end.
Example discard_forgets_a_failure :
  ((fun s => (ds_reporting_failed s, elements (ds_pending s))) <$> pl_states (w_pool forgetful) !! 10,
   (authorize 4 (10, 0) 0 (Ok true) forgetful).1) = (Some (false, [11]), Ok true).
Proof. vm_compute. reflexivity. Qed.

Lemma settled_one_runs : rtc (world_step midnight) w0 settled_one.
Proof.
eapply rtc_l; [apply (W_acquire midnight _ None 0 (request 7 700) now 700 None lease); vm_compute; reflexivity|].
eapply rtc_l; [eapply (W_acquired midnight _ 0 10 lease); vm_compute; reflexivity|].
eapply rtc_l; [apply (W_authorize midnight _ 1 (10, 0) 300 (Ok true)); vm_compute; reflexivity|].
eapply rtc_l; [apply (W_authorize_trip midnight _ None 1 (10, 0) 300 (Some 5)); vm_compute; reflexivity|].
eapply rtc_l; [apply (W_authorize_answered midnight _ 1 (10, 0) (Ok (Some 11))); vm_compute; reflexivity|].
eapply rtc_l; [apply (W_reconcile midnight _ 2 1 (10, 0) 11 "shop.example" 280 1); vm_compute; reflexivity|].
eapply rtc_l; [apply (W_reconcile_trip midnight _ None 2 1 (10, 0) 11 280 1); vm_compute; reflexivity|].
eapply rtc_l; [apply (W_reconcile_answered midnight _ 2 1 (10, 0) 11
  {| us_estimated_bytes := 280; us_request_count := 1; us_revoked := false; us_exhausted := false |}); vm_compute; reflexivity|].
eapply rtc_l; [apply (W_accounted midnight _ 2 1 (10, 0)
  {| us_estimated_bytes := 280; us_request_count := 1; us_revoked := false; us_exhausted := false |} (Some 5) true); vm_compute; reflexivity|].
eapply rtc_l; [apply (W_release midnight _ (10, 0)); vm_compute; reflexivity|].
eapply rtc_l; [apply (W_release_trip midnight _ None (10, 0)); vm_compute; reflexivity|].
eapply rtc_l; [eapply (W_release_answered midnight _ (10, 0) true); vm_compute; reflexivity|].
match goal with |- rtc _ ?w settled_one => assert (E : w = settled_one) by (vm_compute; reflexivity); rewrite E end.
apply rtc_refl.
Qed.
Lemma adapter_keeps_the_discipline_witness : rtc (ledger_step midnight) (ledger_of 1500 false) (w_ledger settled_one).
Proof.
apply (adapter_keeps_the_discipline midnight (ledger_of 1500 false) settled_one); [apply ledger_of_unspent; lia|apply settled_one_runs].
Defined.
End PoolDemo.
