(* ===== verification/HostPacing.v ===== *)
(** How fast the collector asks one host ([catalogue-dump/.../scrapers/base.py]): the
    slots of a host, which climb while it answers and halve when it fails, the gap
    between its requests, what a rate-limit header says, the hosts that share an edge,
    and the resizable gate in front of each.

    A host is the [netloc] of a URL. Gaps and times are rationals; the code computes
    them as floats. Jitter takes the number [random.random()] gave. *)
From S2P Require Export Effects PyNumber.
From Stdlib Require Export QArith Qminmax Lqa.
From Stdlib Require Import Ascii.
Open Scope Z_scope.

(** [urlparse(url).netloc] *)
Definition host_of (url : string) : result pyexn string := parts ← urlsplit url; Ok (sr_netloc parts).

(** * The gate *)

(** A semaphore that can be resized. [g_waiting]: tasks in [condition.wait()], first the
    one that waits longest. [g_woken]: tasks that were notified and did not look at the
    gate again yet. Source: catalogue-dump/scrapers/base.py:397-403, _Gate. *)
Record Gate := { g_limit : Z; g_active : Z; g_waiting : list Z; g_woken : list Z }.
#[export] Instance Gate_eta : Eta Gate := fun g =>
  {| g_limit := g_limit g; g_active := g_active g; g_waiting := g_waiting g; g_woken := g_woken g |}.

(** Source: catalogue-dump/scrapers/base.py, _Gate.__init__. *)
Definition new_gate (limit : Z) : Gate := {| g_limit := Z.max 1 limit; g_active := 0; g_waiting := []; g_woken := [] |}.
(** Source: catalogue-dump/scrapers/base.py, _Gate.resize. *)
Definition resize (limit : Z) (g : Gate) : Gate := g <| g_limit := Z.max 1 limit |>.
(** A task arrives, or looks again: it is let in, or waits. Source:
    catalogue-dump/scrapers/base.py, _Gate.__aenter__. *)
Definition gate_enter (task : Z) (g : Gate) : Gate :=
  if g_limit g <=? g_active g then g <| g_waiting := g_waiting g ++ [task] |> else g <| g_active := g_active g + 1 |>.
(** [condition.notify()] *)
Definition notify (g : Gate) : Gate :=
  match g_waiting g with [] => g | t :: rest => g <| g_waiting := rest |> <| g_woken := g_woken g ++ [t] |> end.
(** Source: catalogue-dump/scrapers/base.py, _Gate.__aexit__. *)
Definition gate_exit (g : Gate) : Gate := notify (g <| g_active := g_active g - 1 |>).

(** * The limiter *)

Definition RECOVERY : Z := 3.
Definition BACKOFF_START : Q := 1 # 2.
Definition BACKOFF_MAX : Q := 8.
Definition HEADROOM : Q := 35 # 100.

(** Source: catalogue-dump/scrapers/base.py:179-195, HostLimiter.__init__. *)
Record HostLimiter := {
  hl_delay : Q; hl_maximum : Z; hl_initial : Z;
  hl_floors : gmap string Q; hl_backoff : gmap string Q; hl_published : gmap string Q; hl_metered : gmap string Q;
  hl_slots : gmap string Z; hl_streaks : gmap string Z; hl_gates : gmap string Gate; hl_last : gmap string Q; hl_groups : gmap string string;
}.
#[export] Instance HostLimiter_eta : Eta HostLimiter := fun l =>
  {| hl_delay := hl_delay l; hl_maximum := hl_maximum l; hl_initial := hl_initial l; hl_floors := hl_floors l; hl_backoff := hl_backoff l;
     hl_published := hl_published l; hl_metered := hl_metered l; hl_slots := hl_slots l; hl_streaks := hl_streaks l; hl_gates := hl_gates l;
     hl_last := hl_last l; hl_groups := hl_groups l |}.

(** Source: catalogue-dump/scrapers/base.py, HostLimiter.__init__. *)
Definition new_limiter (delay : Q) (concurrency : Z) (start : option Z) : HostLimiter :=
  let maximum := Z.max 1 concurrency in
  {| hl_delay := delay; hl_maximum := maximum; hl_initial := Z.max 1 (Z.min (default 2 start) maximum);
     hl_floors := ∅; hl_backoff := ∅; hl_published := ∅; hl_metered := ∅; hl_slots := ∅; hl_streaks := ∅; hl_gates := ∅; hl_last := ∅; hl_groups := ∅ |}.

(** [d.get(key, 0.0)] *)
Definition gap_of (d : gmap string Q) (key : string) : Q := default 0%Q (d !! key).
(** [self.slots.get(host, self.initial)] *)
Definition slots_of (l : HostLimiter) (host : string) : Z := default (hl_initial l) (hl_slots l !! host).

(** Source: catalogue-dump/scrapers/base.py, HostLimiter.join_group. *)
Definition join_group (host group : string) (l : HostLimiter) : HostLimiter := l <| hl_groups := <[host := group]> (hl_groups l) |>.
(** Source: catalogue-dump/scrapers/base.py, HostLimiter._key. *)
Definition key_of (l : HostLimiter) (host : string) : string := default host (hl_groups l !! host).
(** Source: catalogue-dump/scrapers/base.py, HostLimiter.set_delay. *)
Definition set_delay (host : string) (delay : Q) (l : HostLimiter) : HostLimiter :=
  let key := key_of l host in l <| hl_floors := <[key := Qmax (gap_of (hl_floors l) key) delay]> (hl_floors l) |>.
(** Source: catalogue-dump/scrapers/base.py, HostLimiter.remember_crawl_delay. *)
Definition remember_crawl_delay (host : string) (delay : option Q) (l : HostLimiter) : HostLimiter :=
  match delay with
  | Some d => if Qle_bool d 0 then l else let key := key_of l host in
      match hl_published l !! key with Some _ => l | None => l <| hl_published := <[key := d]> (hl_published l) |> end
  | None => l
  end.
(** Source: catalogue-dump/scrapers/base.py, HostLimiter.spacing. *)
Definition spacing (l : HostLimiter) (host : string) : Q :=
  let key := key_of l host in
  Qmax (Qmax (Qmax (gap_of (hl_floors l) key) (gap_of (hl_backoff l) key)) (gap_of (hl_metered l) key)) (hl_delay l / inject_Z (slots_of l host))%Q.
(** [random.uniform(low, high)] when [random.random()] gave [r]. *)
Definition uniform (low high r : Q) : Q := (low + (high - low) * r)%Q.
(** Source: catalogue-dump/scrapers/base.py, HostLimiter._jittered. *)
Definition jittered (l : HostLimiter) (host : string) (r : Q) : Q :=
  let gap := spacing l host in
  if Qle_bool gap 0 then 0%Q
  else
    let key := key_of l host in
    let floored := is_some (hl_floors l !! key) || is_some (hl_backoff l !! key) || is_some (hl_metered l !! key) in
    (gap * (if floored then uniform 1 (135 # 100) r else uniform (7 # 10) (13 # 10) r))%Q.
(** The gate of a host, created when it is first asked for. Source:
    catalogue-dump/scrapers/base.py, HostLimiter.gate. *)
Definition with_gate (host : string) (l : HostLimiter) : HostLimiter :=
  match hl_gates l !! host with
  | Some _ => l
  | None => l <| hl_slots := <[host := slots_of l host]> (hl_slots l) |> <| hl_gates := <[host := new_gate (slots_of l host)]> (hl_gates l) |>
  end.
(** The pause [wait] sleeps when it takes the lock of the key at [now]; the gap was drawn
    and the key looked up before. Source: catalogue-dump/scrapers/base.py:271-273, HostLimiter.wait. *)
Definition pause_before (l : HostLimiter) (key : string) (gap now : Q) : Q :=
  let elapsed := (now - gap_of (hl_last l) key)%Q in if Qle_bool gap elapsed then 0%Q else (gap - elapsed)%Q.
(** [awake]: the time when the pause is over. Source: catalogue-dump/scrapers/base.py:274-274, HostLimiter.wait. *)
Definition waited (key : string) (awake : Q) (l : HostLimiter) : HostLimiter := l <| hl_last := <[key := awake]> (hl_last l) |>.

Definition resize_gate (host : string) (limit : Z) (l : HostLimiter) : HostLimiter :=
  match hl_gates l !! host with Some g => l <| hl_gates := <[host := resize limit g]> (hl_gates l) |> | None => l end.

(** Source: catalogue-dump/scrapers/base.py, HostLimiter.record_success. *)
Definition record_success (host : string) (l : HostLimiter) : HostLimiter :=
  let key := key_of l host in
  if (hl_maximum l <=? slots_of l host) && is_none (hl_backoff l !! key) then l
  else
    let streak := default 0 (hl_streaks l !! host) + 1 in
    if streak <? RECOVERY then l <| hl_streaks := <[host := streak]> (hl_streaks l) |>
    else
      let slots := Z.min (hl_maximum l) (slots_of l host + 1) in
      let l := l <| hl_streaks := <[host := 0]> (hl_streaks l) |> in
      let l := resize_gate host slots (l <| hl_slots := <[host := slots]> (hl_slots l) |>) in
      if hl_maximum l <=? slots then l <| hl_backoff := delete key (hl_backoff l) |> else l.

(** Source: catalogue-dump/scrapers/base.py, HostLimiter.record_failure. *)
Definition record_failure (host : string) (l : HostLimiter) : HostLimiter :=
  let key := key_of l host in
  let slots := Z.max 1 (slots_of l host / 2) in
  let l := l <| hl_streaks := <[host := 0]> (hl_streaks l) |> in
  let l := resize_gate host slots (l <| hl_slots := <[host := slots]> (hl_slots l) |>) in
  match hl_published l !! key with
  | Some published => set_delay host published (l <| hl_published := delete key (hl_published l) |>)
  | None => l <| hl_backoff := <[key := Qmin BACKOFF_MAX (Qmax BACKOFF_START (gap_of (hl_backoff l) key * 2))]> (hl_backoff l) |>
  end.

(** ** Rate-limit headers *)

(** [int(text.strip())]: digits with single underscores between them. *)
Definition int_of_text (text : string) : option Z :=
  if is_some (fullmatch (rx re_I "[-+]?[0-9](_?[0-9])*") (str_strip text))
  then Some (signed_value (str_filter (fun c => negb (c =? "_")%char) (str_strip text))) else None.

(** The names of the headers are in lower case. *)
Definition headers : Type := list (string * string).
(** Source: catalogue-dump/scrapers/base.py, _header_int. *)
Definition header_int (h : headers) (names : list string) : option Z := head (omap (fun name => dict_get name h ≫= int_of_text) names).

(** What is left, the limit and the window the headers name. Source:
    catalogue-dump/scrapers/base.py:348-358, HostLimiter.observe_headers. *)
Definition read_meter (h : headers) : option (Z * Z) * option Z :=
  let remaining := header_int h ["x-ratelimit-remaining"; "ratelimit-remaining"] in
  let limit := header_int h ["x-ratelimit-limit"; "ratelimit-limit"] in
  let window := header_int h ["x-ratelimit-reset"; "ratelimit-reset"] in
  let plain := match remaining, limit with Some r, Some n => Some (r, n) | _, _ => None end in
  (match dict_get "x-shopify-shop-api-call-limit" h with
   | Some shopify =>
       let '(used, found, total) := str_partition "/" shopify in
       if found then match int_of_text total, int_of_text used with Some t, Some u => Some (t - u, t) | _, _ => plain end else plain
   | None => plain
   end, window).

(** Source: catalogue-dump/scrapers/base.py, HostLimiter.observe_headers. *)
Definition observe_headers (host : string) (h : headers) (l : HostLimiter) : HostLimiter :=
  match read_meter h with
  | (Some (remaining, limit), window) =>
      if limit <=? 0 then l
      else
        let key := key_of l host in
        if negb (Qle_bool (inject_Z remaining / inject_Z limit) HEADROOM) then l <| hl_metered := delete key (hl_metered l) |>
        else
          let seconds := match window with Some w => if 0 <? w then w else 60 | None => 60 end in
          let gap := (inject_Z seconds / inject_Z (Z.max 1 remaining))%Q in
          l <| hl_metered := <[key := Qmin BACKOFF_MAX (Qmax (gap_of (hl_metered l) key) gap)]> (hl_metered l) |>
  | (None, _) => l
  end.

Example ints : map int_of_text [" 12 "; "1_0"; "-3"; "1__0"; "x"] = [Some 12; Some 10; Some (-3); None; None].
Proof. vm_compute. reflexivity. Qed.

(** * Histories *)

(** What tasks do with the limiter, one step between two points where they yield. A
    task enters by [Enter] or [Wake] and leaves by [Exit]. *)
Definition at_gate (host : string) (f : Gate -> Gate) (l : HostLimiter) : HostLimiter :=
  match hl_gates l !! host with Some g => l <| hl_gates := <[host := f g]> (hl_gates l) |> | None => l end.
Inductive limiter_step : HostLimiter -> HostLimiter -> Prop :=
| Join l host group : limiter_step l (join_group host group l)
| Delay l host delay : limiter_step l (set_delay host delay l)
| Remember l host delay : limiter_step l (remember_crawl_delay host delay l)
| Enter l host task : limiter_step l (at_gate host (gate_enter task) (with_gate host l))
| Wake l host g task rest : hl_gates l !! host = Some g -> g_woken g = task :: rest ->
    limiter_step l (at_gate host (fun g => gate_enter task (g <| g_woken := rest |>)) l)
| Exit l host g : hl_gates l !! host = Some g -> 0 < g_active g -> limiter_step l (at_gate host gate_exit l)
| Wait l key awake : limiter_step l (waited key awake l)
| Success l host : limiter_step l (record_success host l)
| Failure l host : limiter_step l (record_failure host l)
| Meter l host h : limiter_step l (observe_headers host h l).

(** No task waits at a gate for nothing: one is inside that will notify it, or one is
    about to look. *)
Definition gate_ok (maximum : Z) (g : Gate) : Prop :=
  1 <= g_limit g /\ 0 <= g_active g <= maximum /\ (g_waiting g <> [] -> 0 < g_active g \/ g_woken g <> []).
Record consistent (l : HostLimiter) : Prop := {
  ok_initial : 1 <= hl_initial l <= hl_maximum l;
  ok_slots : map_Forall (fun _ s => 1 <= s <= hl_maximum l) (hl_slots l);
  ok_gates : map_Forall (fun host g => gate_ok (hl_maximum l) g /\ hl_slots l !! host = Some (g_limit g)) (hl_gates l);
  ok_backoff : map_Forall (fun _ b => BACKOFF_START <= b <= BACKOFF_MAX)%Q (hl_backoff l);
  ok_metered : map_Forall (fun _ m => 0 < m <= BACKOFF_MAX)%Q (hl_metered l);
  ok_streaks : map_Forall (fun _ s => 0 <= s < RECOVERY) (hl_streaks l);
}.

Lemma slots_of_bounds l host : consistent l -> 1 <= slots_of l host <= hl_maximum l.
Proof.
intros C. unfold slots_of. destruct (hl_slots l !! host) as [s|] eqn:E; [by apply (ok_slots l C host)|]. apply (ok_initial l C).
Qed.
Lemma gate_enter_ok m t g : 1 <= g_limit g <= m -> 0 <= g_active g <= m -> gate_ok m (gate_enter t g).
Proof.
intros H1 H2. unfold gate_enter. destruct (Z.leb_spec (g_limit g) (g_active g)); unfold gate_ok; simpl; (repeat split; [lia..|intros _; left; lia]).
Qed.
Lemma gate_exit_ok m g : 0 < g_active g -> gate_ok m g -> gate_ok m (gate_exit g).
Proof.
intros Ha (H1 & H2 & H3). unfold gate_exit, notify. destruct g as [n a w k]. simpl in *. destruct w as [|t w]; unfold gate_ok; simpl; repeat split; try lia; try done.
intros _. right. by destruct k.
Qed.
Lemma gate_limit_enter t g : g_limit (gate_enter t g) = g_limit g.
Proof. unfold gate_enter. by destruct (_ <=? _). Qed.
Lemma gate_limit_exit g : g_limit (gate_exit g) = g_limit g.
Proof. unfold gate_exit, notify. destruct g as [n a w k]. by destruct w. Qed.

(** A step at one gate that keeps its limit. *)
Lemma consistent_at_gate host f l :
  (forall g, hl_gates l !! host = Some g -> g_limit g <= hl_maximum l -> gate_ok (hl_maximum l) g -> gate_ok (hl_maximum l) (f g)) -> (forall g, g_limit (f g) = g_limit g) ->
  consistent l -> consistent (at_gate host f l).
Proof.
intros Hf Hl C. unfold at_gate. destruct (hl_gates l !! host) as [g|] eqn:E; [|done]. destruct C as [C1 C2 C3 C4 C5 C6]. split; try done. simpl.
intros h g'. destruct (decide (h = host)) as [->|Hn]; [rewrite lookup_insert_eq|rewrite lookup_insert_ne by done; apply C3].
intros [= <-]. destruct (C3 host g E) as [Hok Hs]. rewrite Hl. split; [|done]. apply Hf; [done| |done]. by apply (C2 host).
Qed.
Lemma consistent_streak host v l : 0 <= v < RECOVERY -> consistent l -> consistent (l <| hl_streaks := <[host := v]> (hl_streaks l) |>).
Proof. intros Hv [C1 C2 C3 C4 C5 C6]. split; try done. simpl. by apply map_Forall_insert_2. Qed.
Lemma consistent_slots host s l : 1 <= s <= hl_maximum l -> consistent l -> consistent (resize_gate host s (l <| hl_slots := <[host := s]> (hl_slots l) |>)).
Proof.
intros Hs [C1 C2 C3 C4 C5 C6]. unfold resize_gate. simpl. destruct (hl_gates l !! host) as [g|] eqn:E; split; try done; simpl.
1,3: by apply map_Forall_insert_2.
- intros h g'. destruct (decide (h = host)) as [->|Hn]; [|rewrite !lookup_insert_ne by done; apply C3]. rewrite !lookup_insert_eq. intros [= <-].
  destruct (C3 host g E) as [(H1 & H2 & H3) _]. simpl. rewrite Z.max_r by lia. split; [|done]. unfold gate_ok. simpl. repeat split; try lia; done.
- intros h g' Hg. destruct (decide (h = host)) as [->|Hn]; [by rewrite E in Hg|]. rewrite lookup_insert_ne by done. by apply C3.
Qed.
Lemma consistent_backoff m l : map_Forall (fun _ b => BACKOFF_START <= b <= BACKOFF_MAX)%Q m -> consistent l -> consistent (l <| hl_backoff := m |>).
Proof. intros Hm [C1 C2 C3 C4 C5 C6]. by split. Qed.
Lemma consistent_metered m l : map_Forall (fun _ b => 0 < b <= BACKOFF_MAX)%Q m -> consistent l -> consistent (l <| hl_metered := m |>).
Proof. intros Hm [C1 C2 C3 C4 C5 C6]. by split. Qed.
Lemma hl_backoff_resize host s l : hl_backoff (resize_gate host s l) = hl_backoff l.
Proof. unfold resize_gate. by destruct (_ !! _). Qed.
Lemma hl_groups_resize host s l : hl_groups (resize_gate host s l) = hl_groups l.
Proof. unfold resize_gate. by destruct (_ !! _). Qed.
Lemma hl_slots_resize host s l : hl_slots (resize_gate host s l) = hl_slots l.
Proof. unfold resize_gate. by destruct (_ !! _). Qed.
Lemma hl_maximum_resize host s l : hl_maximum (resize_gate host s l) = hl_maximum l.
Proof. unfold resize_gate. by destruct (_ !! _). Qed.
Lemma hl_floors_resize host s l : hl_floors (resize_gate host s l) = hl_floors l.
Proof. unfold resize_gate. by destruct (_ !! _). Qed.
Lemma hl_published_resize host s l : hl_published (resize_gate host s l) = hl_published l.
Proof. unfold resize_gate. by destruct (_ !! _). Qed.

Lemma consistent_set_delay host d l : consistent l -> consistent (set_delay host d l).
Proof. by intros [C1 C2 C3 C4 C5 C6]. Qed.
Lemma consistent_remember host d l : consistent l -> consistent (remember_crawl_delay host d l).
Proof. intros [C1 C2 C3 C4 C5 C6]. unfold remember_crawl_delay. by repeat case_match. Qed.
Lemma consistent_with_gate host l : consistent l -> consistent (with_gate host l).
Proof.
intros C. pose proof (slots_of_bounds l host C) as Hs. unfold with_gate. destruct (hl_gates l !! host) eqn:E; [done|]. destruct C as [C1 C2 C3 C4 C5 C6]. split; try done; simpl.
- by apply map_Forall_insert_2.
- intros h g. destruct (decide (h = host)) as [->|Hn]; [|rewrite !lookup_insert_ne by done; apply C3]. rewrite !lookup_insert_eq. intros [= <-].
  simpl. rewrite Z.max_r by lia. split; [|done]. unfold gate_ok. simpl. rewrite Z.max_r by lia. repeat split; try lia. done.
Qed.
Lemma consistent_success host l : consistent l -> consistent (record_success host l).
Proof.
intros C. unfold record_success. destruct (_ && _); [done|]. pose proof (slots_of_bounds l host C) as Hs.
assert (H0 : 0 <= default 0 (hl_streaks l !! host) < RECOVERY).
{ destruct (hl_streaks l !! host) as [s|] eqn:E; [by apply (ok_streaks l C host)|done]. }
destruct (Z.ltb_spec (default 0 (hl_streaks l !! host) + 1) RECOVERY); [apply consistent_streak; [lia|done]|].
set (slots := Z.min _ _). set (l0 := l <| hl_streaks := _ |>).
assert (C0 : consistent l0) by by apply consistent_streak.
assert (C' : consistent (resize_gate host slots (l0 <| hl_slots := <[host := slots]> (hl_slots l0) |>))) by (apply consistent_slots; [simpl; lia|done]).
destruct (_ <=? slots); [|done]. apply consistent_backoff; [|done]. rewrite hl_backoff_resize. apply map_Forall_delete, (ok_backoff l C).
Qed.
Lemma consistent_failure host l : consistent l -> consistent (record_failure host l).
Proof.
intros C. unfold record_failure. pose proof (slots_of_bounds l host C) as Hs. set (slots := Z.max 1 _). set (l0 := l <| hl_streaks := _ |>).
assert (C0 : consistent l0) by by apply consistent_streak.
assert (C' : consistent (resize_gate host slots (l0 <| hl_slots := <[host := slots]> (hl_slots l0) |>))).
{ apply consistent_slots; [simpl|done]. pose proof (Z.div_le_upper_bound (slots_of l host) 2 (slots_of l host)). lia. }
destruct (hl_published _ !! _) as [p|]; [by apply consistent_set_delay; destruct C'|].
apply consistent_backoff; [|done]. rewrite hl_backoff_resize. apply map_Forall_insert_2; [|apply (ok_backoff l C)].
split; [apply Q.min_glb; [done|apply Q.le_max_l]|apply Q.le_min_l].
Qed.
Lemma consistent_headers host h l : consistent l -> consistent (observe_headers host h l).
Proof.
intros C. unfold observe_headers. destruct (read_meter h) as [[[remaining limit]|] window]; [|done]. destruct (limit <=? 0); [done|].
destruct (negb _); apply consistent_metered; try done; [apply map_Forall_delete, (ok_metered l C)|]. apply map_Forall_insert_2; [|apply (ok_metered l C)].
split; [|apply Q.le_min_l]. apply Q.min_glb_lt; [done|]. eapply Qlt_le_trans; [|apply Q.le_max_r]. set (s := match window with Some w => _ | None => 60 end).
assert (0 < s) by (unfold s; destruct window as [w|]; [destruct (Z.ltb_spec 0 w)|]; lia).
apply Qlt_shift_div_l; [|rewrite Qmult_0_l]; change 0%Q with (inject_Z 0); rewrite <- Zlt_Qlt; lia.
Qed.
Lemma consistent_step l l' : consistent l -> limiter_step l l' -> consistent l'.
Proof.
intros C. destruct 1 as [| |l host delay|l host task|l host g task rest E W|l host g E A|l host awake|l host|l host|l host h].
- by destruct C.
- by apply consistent_set_delay.
- by apply consistent_remember.
- apply consistent_at_gate; [intros g _ Hm (? & ? & _); by apply gate_enter_ok|apply gate_limit_enter|by apply consistent_with_gate].
- apply consistent_at_gate; [intros g' _ Hm (? & ? & _); by apply gate_enter_ok|intros g'; by rewrite gate_limit_enter|done].
- apply consistent_at_gate; [|apply gate_limit_exit|done]. intros g' E' _ Hg. apply gate_exit_ok; [by simplify_eq|done].
- by destruct C.
- by apply consistent_success.
- by apply consistent_failure.
- by apply consistent_headers.
Qed.

Lemma reachable_consistent delay concurrency start l : reachable limiter_step (new_limiter delay concurrency start) l -> consistent l.
Proof.
apply (reachable_invariant limiter_step consistent); [|by intros s s'; apply consistent_step]. split; simpl; try apply map_Forall_empty. lia.
Qed.
(** In every history of the limiter the slots of a host stay between one and its
    concurrency, its gate is as wide as its slots, at most its concurrency are in flight
    at a time, whatever its width did in between, and no task is stranded at it: when one
    waits, one is inside that will notify it or one was notified. A backoff is between half
    a second and eight, a gap taken from rate-limit headers at most eight. *)
Theorem pacing_consistent delay concurrency start l : reachable limiter_step (new_limiter delay concurrency start) l -> consistent l.
Proof. apply reachable_consistent. Qed.

Lemma consistent_reachable l l' : reachable limiter_step l l' -> consistent l -> consistent l'.
Proof. intros R C. induction R as [|a b _ IH S]; [done|]. eapply consistent_step; [exact IH|exact S]. Qed.

(** * Recovery *)

Definition recovered (l : HostLimiter) (host : string) : bool := (hl_maximum l <=? slots_of l host) && is_none (hl_backoff l !! key_of l host).
(** The good answers in a row that a host still owes. *)
Definition owed (l : HostLimiter) (host : string) : Z :=
  if recovered l host then 0
  else RECOVERY * Z.max 1 (hl_maximum l - slots_of l host) - default 0 (hl_streaks l !! host).

Lemma streak_bounds l host : consistent l -> 0 <= default 0 (hl_streaks l !! host) < RECOVERY.
Proof. intros C. destruct (hl_streaks l !! host) as [s|] eqn:E; [by apply (ok_streaks l C host)|done]. Qed.
Lemma owed_success l host : consistent l -> recovered l host = false -> owed (record_success host l) host = owed l host - 1.
Proof.
intros C R. unfold owed at 2. rewrite R. unfold recovered in R. unfold record_success. rewrite R.
pose proof (slots_of_bounds l host C) as Hs. pose proof (streak_bounds l host C) as Hk. set (k := default 0 (hl_streaks l !! host)) in *.
assert (HR : RECOVERY = 3) by done. destruct (Z.ltb_spec (k + 1) RECOVERY).
- unfold owed, recovered, slots_of, key_of in *. simpl. rewrite R, lookup_insert_eq. simpl. lia.
- set (slots := Z.min _ _). set (l0 := l <| hl_streaks := _ |>). set (l1 := resize_gate _ _ _).
  assert (E1 : slots_of l1 host = slots /\ hl_maximum l1 = hl_maximum l /\ hl_backoff l1 = hl_backoff l /\ key_of l1 host = key_of l host /\ default 0 (hl_streaks l1 !! host) = 0).
  { unfold slots_of, l1, key_of. rewrite hl_slots_resize, hl_maximum_resize, hl_backoff_resize, hl_groups_resize. simpl. rewrite lookup_insert_eq. repeat split.
    unfold resize_gate. simpl. destruct (hl_gates l !! host); simpl; by rewrite lookup_insert_eq. }
  destruct E1 as (E1 & E2 & E3 & E4 & E5). rewrite E2. destruct (Z.leb_spec (hl_maximum l) slots).
  + unfold owed, recovered, slots_of, key_of in *. simpl. rewrite E1, E2, E3, E4. rewrite lookup_delete_eq. rewrite (proj2 (Z.leb_le _ _)) by done. simpl. lia.
  + unfold owed, recovered. rewrite E1, E2, E5. rewrite (proj2 (Z.leb_gt _ _)) by done. simpl. lia.
Qed.
Lemma recovered_success l host : recovered l host = true -> record_success host l = l.
Proof. unfold record_success, recovered. by intros ->. Qed.
Lemma owed_bounds l host : consistent l -> owed l host <= RECOVERY * hl_maximum l /\ (owed l host <= 0 -> recovered l host = true).
Proof.
intros C. pose proof (slots_of_bounds l host C). pose proof (streak_bounds l host C). assert (HR : RECOVERY = 3) by done. pose proof (ok_initial l C).
unfold owed. destruct (recovered l host); [split; [lia|done]|]. split; lia.
Qed.
Lemma success_maximum host l : hl_maximum (record_success host l) = hl_maximum l.
Proof. unfold record_success. destruct (_ && _); [done|]. destruct (_ <? _); [done|]. rewrite !hl_maximum_resize. simpl. destruct (_ <=? _); simpl; by rewrite hl_maximum_resize. Qed.
Lemma recovers n host : forall l, consistent l -> owed l host <= Z.of_nat n -> recovered (Nat.iter n (record_success host) l) host = true.
Proof.
induction n as [|n IH]; intros l C H; [by apply owed_bounds|]. rewrite Nat.iter_succ_r. destruct (recovered l host) eqn:R.
- rewrite recovered_success by done. apply IH; [done|]. unfold owed. rewrite R. lia.
- apply IH; [by apply consistent_success|]. rewrite owed_success by done. lia.
Qed.
(** Whatever a host went through, once it has answered three times its concurrency in
    a row it is asked at full width again, and the gap its failures earned is gone. *)
Theorem a_host_recovers delay concurrency start l host n :
  reachable limiter_step (new_limiter delay concurrency start) l -> RECOVERY * hl_maximum l <= Z.of_nat n ->
  let l' := Nat.iter n (record_success host) l in slots_of l' host = hl_maximum l' /\ hl_backoff l' !! key_of l' host = None.
Proof.
intros H Hn l'. apply reachable_consistent in H as C. assert (R : recovered l' host = true) by (apply recovers; [done|]; pose proof (owed_bounds l host C); lia).
assert (C' : consistent l') by (unfold l'; clear -C; induction n as [|n IH]; [done|by apply consistent_success]).
apply andb_true_iff in R as [R1 R2]. apply Z.leb_le in R1. pose proof (slots_of_bounds l' host C'). split; [lia|]. by destruct (hl_backoff l' !! _).
Qed.

(** ** A pace the host published is kept *)

Lemma gap_of_insert m key d k : (gap_of m key <= d)%Q -> (gap_of m k <= gap_of (<[key := d]> m) k)%Q.
Proof. intros H. unfold gap_of in *. destruct (decide (k = key)) as [->|Hn]; [by rewrite lookup_insert_eq|rewrite lookup_insert_ne by done; apply Qle_refl]. Qed.
Lemma floors_step l l' key : limiter_step l l' -> (gap_of (hl_floors l) key <= gap_of (hl_floors l') key)%Q.
Proof.
assert (Hset : forall host d l, (gap_of (hl_floors l) key <= gap_of (hl_floors (set_delay host d l)) key)%Q).
{ intros host d l0. unfold set_delay. simpl. apply gap_of_insert, Q.le_max_l. }
destruct 1; try apply Qle_refl; try apply Hset.
- unfold remember_crawl_delay. repeat case_match; apply Qle_refl.
- unfold at_gate, with_gate. repeat case_match; apply Qle_refl.
- unfold at_gate. case_match; apply Qle_refl.
- unfold at_gate. case_match; apply Qle_refl.
- unfold record_success, resize_gate. repeat case_match; apply Qle_refl.
- unfold record_failure. set (l0 := resize_gate _ _ _). assert (E : hl_floors l0 = hl_floors l) by (unfold l0; by rewrite hl_floors_resize).
  rewrite <- E. destruct (hl_published l0 !! _) as [p|]; [|apply Qle_refl]. eapply Qle_trans; [|apply Hset]. apply Qle_refl.
- unfold observe_headers. repeat case_match; apply Qle_refl.
Qed.
(** The least gap of a host is never lowered, so no request comes before it. *)
Lemma floors_never_lower l l' key : reachable limiter_step l l' -> (gap_of (hl_floors l) key <= gap_of (hl_floors l') key)%Q.
Proof. induction 1 as [|l1 l2 _ IH Hs]; [apply Qle_refl|]. eapply Qle_trans; [exact IH|by apply floors_step]. Qed.
Lemma spacing_floor l host : (gap_of (hl_floors l) (key_of l host) <= spacing l host)%Q.
Proof. unfold spacing. eapply Qle_trans; [|apply Q.le_max_l]. eapply Qle_trans; [|apply Q.le_max_l]. apply Q.le_max_l. Qed.

(** The limiter says that what a host earned by failing, the [Crawl-delay] it published
    included, is released once it has recovered. A backoff is; the published pace becomes
    a floor, which nothing lowers: one failure slows the rest of the run. *)
Lemma an_adopted_pace_is_kept l host p n :
  hl_published l !! key_of l host = Some p -> let l' := Nat.iter n (record_success host) (record_failure host l) in (p <= spacing l' host)%Q.
Proof.
intros Hp l'. assert (K : key_of l' host = key_of l host /\ reachable limiter_step (record_failure host l) l').
{ unfold l'. clear Hp. induction n as [|n [IH1 IH2]]; simpl.
  - split; [|apply reach_refl]. unfold record_failure, resize_gate, key_of. repeat case_match; done.
  - split; [|eapply reach_step; [exact IH2|constructor]]. rewrite <- IH1. unfold record_success, resize_gate, key_of. repeat case_match; done. }
destruct K as [K R]. eapply Qle_trans; [|apply spacing_floor]. rewrite K. eapply Qle_trans; [|apply floors_never_lower, R].
unfold record_failure. rewrite hl_published_resize. simpl. rewrite Hp. unfold set_delay, key_of, gap_of. simpl. rewrite hl_groups_resize. simpl.
rewrite lookup_insert_eq. apply Q.le_max_r.
Qed.

(** * The gap is kept *)

(** The tasks that wait for their turn under the keys of one limiter. A task draws its gap
    when it asks; one without a gap leaves at once and writes nothing down. With a gap it
    queues for the lock of its key, reads the last request under the lock, sleeps, and
    writes its own down before it lets go of the lock. [tu_floor] and [tu_draw] are no
    variables of the code: the floor of the key when the gap was drawn, and the number of
    the draw. *)
Record Turn := { tu_key : string; tu_gap : Q; tu_floor : Q; tu_draw : nat }.
Inductive Place := Queued (u : Turn) | Asleep (u : Turn) (until : Q).
(** A request that left, and when. *)
Abbreviation Start := (Turn * Q)%type.
Record Pacing := { pc_limiter : HostLimiter; pc_clock : Q; pc_draws : nat; pc_tasks : gmap Z Place; pc_starts : list Start }.
#[export] Instance Pacing_eta : Eta Pacing := fun p =>
  {| pc_limiter := pc_limiter p; pc_clock := pc_clock p; pc_draws := pc_draws p; pc_tasks := pc_tasks p; pc_starts := pc_starts p |}.
Definition fresh_pacing (l : HostLimiter) : Pacing := {| pc_limiter := l; pc_clock := 0; pc_draws := 0; pc_tasks := ∅; pc_starts := [] |}.

(** Source: catalogue-dump/scrapers/base.py:260-268, HostLimiter.wait. *)
Definition turn_of (p : Pacing) (host : string) (r : Q) : Turn :=
  let l := pc_limiter p in
  {| tu_key := key_of l host; tu_gap := jittered l host r; tu_floor := gap_of (hl_floors l) (key_of l host); tu_draw := pc_draws p |}.
Definition drew (p : Pacing) : Pacing := p <| pc_draws := S (pc_draws p) |>.
Definition leaves (u : Turn) (p : Pacing) : Pacing := p <| pc_starts := pc_starts p ++ [(u, pc_clock p)] |>.
Definition queues (t : Z) (u : Turn) (p : Pacing) : Pacing := p <| pc_tasks := <[t := Queued u]> (pc_tasks p) |>.
(** Source: catalogue-dump/scrapers/base.py:269-273, HostLimiter.wait. *)
Definition locks (t : Z) (u : Turn) (p : Pacing) : Pacing :=
  p <| pc_tasks := <[t := Asleep u (pc_clock p + pause_before (pc_limiter p) (tu_key u) (tu_gap u) (pc_clock p))%Q]> (pc_tasks p) |>.
(** Source: catalogue-dump/scrapers/base.py:274-274, HostLimiter.wait. *)
Definition wakes (t : Z) (u : Turn) (p : Pacing) : Pacing :=
  leaves u (p <| pc_tasks := delete t (pc_tasks p) |> <| pc_limiter := waited (tu_key u) (pc_clock p) (pc_limiter p) |>).
Definition locked (key : string) (p : Pacing) : Prop := exists t u until, pc_tasks p !! t = Some (Asleep u until) /\ tu_key u = key.
Inductive pacing_step : Pacing -> Pacing -> Prop :=
| Passes p q : (0 <= q)%Q -> pacing_step p (p <| pc_clock := (pc_clock p + q)%Q |>)
| Adapts p l : limiter_step (pc_limiter p) l -> hl_last l = hl_last (pc_limiter p) -> pacing_step p (p <| pc_limiter := l |>)
| Leaves p host r : (0 <= r)%Q -> (tu_gap (turn_of p host r) <= 0)%Q -> pacing_step p (leaves (turn_of p host r) (drew p))
| Queues p t host r : pc_tasks p !! t = None -> (0 <= r)%Q -> (0 < tu_gap (turn_of p host r))%Q -> pacing_step p (queues t (turn_of p host r) (drew p))
| Locks p t u : pc_tasks p !! t = Some (Queued u) -> ~ locked (tu_key u) p -> pacing_step p (locks t u p)
| Wakes p t u until : pc_tasks p !! t = Some (Asleep u until) -> (until <= pc_clock p)%Q -> pacing_step p (wakes t u p).

(** A task sleeps until its gap since the last request is over, and a gap drawn above a
    floor is at least the floor. *)
Lemma pause_keeps_the_gap l key gap now awake : (now + pause_before l key gap now <= awake -> gap <= awake - gap_of (hl_last l) key)%Q.
Proof.
unfold pause_before. destruct (Qle_bool gap _) eqn:E.
- apply Qle_bool_iff in E. intros H. lra.
- intros H. lra.
Qed.
Lemma jitter_above_floor l host r : (0 <= r)%Q -> (0 < gap_of (hl_floors l) (key_of l host))%Q -> (gap_of (hl_floors l) (key_of l host) <= jittered l host r)%Q.
Proof.
intros Hr Hpos. unfold jittered. pose proof (spacing_floor l host) as Hs. unfold gap_of in *. destruct (hl_floors l !! key_of l host) as [f|]; simpl in *; [|lra].
destruct (Qle_bool (spacing l host) 0) eqn:E; [apply Qle_bool_iff in E; lra|]. unfold uniform. nra.
Qed.

Definition turn_at (x : Place) : Turn := match x with Queued u | Asleep u _ => u end.
Definition above_floor (u : Turn) : Prop := (0 < tu_floor u -> tu_floor u <= tu_gap u)%Q.
(** Every two paced requests under a key keep the gap of the later one. *)
Definition spaced_starts (starts : list Start) : Prop := forall i j x y, (i < j)%nat -> starts !! i = Some x -> starts !! j = Some y ->
  tu_key x.1 = tu_key y.1 -> (0 < tu_gap x.1)%Q -> (0 < tu_gap y.1)%Q -> (tu_gap y.1 <= y.2 - x.2)%Q.
Record turns_kept (p : Pacing) : Prop := {
  tk_floor : map_Forall (fun _ x => above_floor (turn_at x) /\ (0 < tu_gap (turn_at x))%Q) (pc_tasks p);
  tk_started : Forall (fun x : Start => above_floor x.1 /\ (0 < tu_gap x.1 -> x.2 <= gap_of (hl_last (pc_limiter p)) (tu_key x.1))%Q) (pc_starts p);
  tk_asleep : forall t u until, pc_tasks p !! t = Some (Asleep u until) -> (tu_gap u <= until - gap_of (hl_last (pc_limiter p)) (tu_key u))%Q;
  tk_lock : forall t t' u u' until until', pc_tasks p !! t = Some (Asleep u until) -> pc_tasks p !! t' = Some (Asleep u' until') -> tu_key u = tu_key u' -> t = t';
  tk_spaced : spaced_starts (pc_starts p);
}.

Lemma spaced_snoc starts z : spaced_starts starts ->
  Forall (fun x : Start => tu_key x.1 = tu_key z.1 -> (0 < tu_gap x.1 -> 0 < tu_gap z.1 -> tu_gap z.1 <= z.2 - x.2)%Q) starts -> spaced_starts (starts ++ [z]).
Proof.
intros Hs Hz i j x y Hij Hx Hy. apply lookup_snoc_Some in Hy as [[_ Hy]|[-> <-]].
- rewrite lookup_app_l in Hx by (apply lookup_lt_Some in Hy; lia). by apply (Hs i j).
- rewrite lookup_app_l in Hx by done. rewrite Forall_lookup in Hz. intros. by eapply Hz.
Qed.
Lemma turn_above_floor p host r : (0 <= r)%Q -> above_floor (turn_of p host r).
Proof. intros Hr Hf. by apply jitter_above_floor. Qed.

Lemma turns_adapt p l : turns_kept p -> hl_last l = hl_last (pc_limiter p) -> turns_kept (p <| pc_limiter := l |>).
Proof. intros [H1 H2 H3 H4 H5] E. split; simpl; rewrite ?E; done. Qed.
Lemma turns_leave p u : turns_kept p -> above_floor u -> (tu_gap u <= 0)%Q -> turns_kept (leaves u (drew p)).
Proof.
intros [H1 H2 H3 H4 H5] Ha Hu. split; simpl; try done.
- apply Forall_app. split; [done|]. apply Forall_singleton. simpl. split; [done|]. lra.
- apply spaced_snoc; [done|]. apply Forall_forall. intros x _ _ _. simpl. lra.
Qed.
Lemma turns_queue p t u : turns_kept p -> above_floor u -> (0 < tu_gap u)%Q -> turns_kept (queues t u (drew p)).
Proof.
intros [H1 H2 H3 H4 H5] Ha Hu. split; simpl; try done.
- by apply map_Forall_insert_2.
- intros t' u' un'. destruct (decide (t' = t)) as [->|Hne]; [by rewrite lookup_insert_eq|rewrite lookup_insert_ne by done; apply H3].
- intros t1 t2 u1 u2 un1 un2. destruct (decide (t1 = t)) as [->|Hne1]; [by rewrite lookup_insert_eq|]. destruct (decide (t2 = t)) as [->|Hne2]; [by rewrite lookup_insert_eq|].
  rewrite !lookup_insert_ne by done. apply H4.
Qed.
Lemma turns_lock p t u : turns_kept p -> pc_tasks p !! t = Some (Queued u) -> ~ locked (tu_key u) p -> turns_kept (locks t u p).
Proof.
intros [H1 H2 H3 H4 H5] Ht Hn. split; simpl; try done.
- apply map_Forall_insert_2; [by apply (H1 t _ Ht)|done].
- intros t' u' un'. destruct (decide (t' = t)) as [->|Hne]; [|rewrite lookup_insert_ne by done; apply H3].
  rewrite lookup_insert_eq. intros [= <- <-]. apply pause_keeps_the_gap with (now := pc_clock p). lra.
- intros t1 t2 u1 u2 un1 un2 E1 E2 Hk. destruct (decide (t1 = t)) as [->|Hne1], (decide (t2 = t)) as [->|Hne2]; [done| | |].
  + rewrite lookup_insert_eq in E1. rewrite lookup_insert_ne in E2 by done. simplify_eq. destruct Hn. by exists t2, u2, un2.
  + rewrite lookup_insert_eq in E2. rewrite lookup_insert_ne in E1 by done. simplify_eq. destruct Hn. by exists t1, u1, un1.
  + rewrite lookup_insert_ne in E1, E2 by done. by eapply H4.
Qed.
Lemma turns_wake p t u until : turns_kept p -> pc_tasks p !! t = Some (Asleep u until) -> (until <= pc_clock p)%Q -> turns_kept (wakes t u p).
Proof.
intros [H1 H2 H3 H4 H5] Ht Hun. pose proof (H3 t u until Ht) as Hg. destruct (H1 t _ Ht) as [Ha Hpos]. simpl in Ha, Hpos. split; simpl.
- by apply map_Forall_delete.
- apply Forall_app. split.
  + eapply Forall_impl; [exact H2|]. intros x [Hx1 Hx2]. split; [done|]. intros Hp. specialize (Hx2 Hp). unfold gap_of in *.
    destruct (decide (tu_key x.1 = tu_key u)) as [Ek|Hne]; [rewrite Ek in *; rewrite lookup_insert_eq; simpl; lra|by rewrite lookup_insert_ne].
  + apply Forall_singleton. split; [done|]. intros _. unfold gap_of. simpl. rewrite lookup_insert_eq. simpl. lra.
- intros t' u' un' [Hne E']%lookup_delete_Some. unfold gap_of. rewrite lookup_insert_ne; [by apply (H3 t')|].
  intros Hk. by destruct (Hne (H4 _ _ _ _ _ _ Ht E' Hk)).
- intros t1 t2 u1 u2 un1 un2 [_ E1]%lookup_delete_Some [_ E2]%lookup_delete_Some. by eapply H4.
- apply spaced_snoc; [done|]. eapply Forall_impl; [exact H2|]. intros x [_ Hx] Hk Hx0 Hu0. simpl in *. specialize (Hx Hx0). rewrite Hk in Hx. lra.
Qed.
Lemma turns_step p p' : turns_kept p -> pacing_step p p' -> turns_kept p'.
Proof.
intros H. destruct 1; [by destruct H|by apply turns_adapt|by apply turns_leave; [|apply turn_above_floor|]|by apply turns_queue; [|apply turn_above_floor|]
  |by apply turns_lock|by eapply turns_wake].
Qed.
Lemma turns_reachable l p : reachable pacing_step (fresh_pacing l) p -> turns_kept p.
Proof.
apply (reachable_invariant pacing_step turns_kept); [|by intros q q'; apply turns_step]. split; simpl; try apply map_Forall_empty; try done.
Qed.

(** The gaps drawn since a floor was set are drawn above it. *)
Definition drawn_above (n : nat) (key : string) (f : Q) (u : Turn) : Prop := (n <= tu_draw u)%nat -> tu_key u = key -> (f <= tu_floor u)%Q.
Record floor_holds (n : nat) (key : string) (f : Q) (p : Pacing) : Prop := {
  fh_now : (f <= gap_of (hl_floors (pc_limiter p)) key)%Q;
  fh_tasks : map_Forall (fun _ x => drawn_above n key f (turn_at x)) (pc_tasks p);
  fh_starts : Forall (fun x : Start => drawn_above n key f x.1) (pc_starts p);
}.
Lemma floor_step n key f p p' : floor_holds n key f p -> pacing_step p p' -> floor_holds n key f p'.
Proof.
intros [F1 F2 F3] Hs. assert (Hu : forall p host r, (f <= gap_of (hl_floors (pc_limiter p)) key)%Q -> drawn_above n key f (turn_of p host r)) by (intros p0 host r Hf _ <-; exact Hf).
destruct Hs as [p q Hq|p l Hl E|p host r Hr Hp|p t host r Ht Hr Hp|p t u Ht Hn|p t u until Ht Hun]; split; simpl; try done.
- eapply Qle_trans; [exact F1|by apply floors_step].
- apply Forall_app. split; [done|]. by apply Forall_singleton, Hu.
- apply map_Forall_insert_2; [by apply Hu|done].
- apply map_Forall_insert_2; [by apply (F2 t _ Ht)|done].
- by apply map_Forall_delete.
- apply Forall_app. split; [done|]. apply Forall_singleton, (F2 t _ Ht).
Qed.
(** The numbers of the draws. *)
Definition drawn_before (p : Pacing) : Prop :=
  map_Forall (fun _ x => (tu_draw (turn_at x) < pc_draws p)%nat) (pc_tasks p) /\ Forall (fun x : Start => (tu_draw x.1 < pc_draws p)%nat) (pc_starts p).
Lemma drawn_step p p' : drawn_before p -> pacing_step p p' -> drawn_before p'.
Proof.
intros [D1 D2]. destruct 1 as [p q Hq|p l Hl E|p host r Hr Hp|p t host r Ht Hr Hp|p t u Ht Hn|p t u until Ht Hun]; split; simpl; try done.
- eapply map_Forall_impl; [exact D1|]. simpl. lia.
- apply Forall_app. split; [eapply Forall_impl; [exact D2|simpl; lia]|]. apply Forall_singleton. simpl. lia.
- apply map_Forall_insert_2; [simpl; lia|]. eapply map_Forall_impl; [exact D1|]. simpl. lia.
- eapply Forall_impl; [exact D2|simpl; lia].
- apply map_Forall_insert_2; [by apply (D1 t _ Ht)|done].
- by apply map_Forall_delete.
- apply Forall_app. split; [done|]. apply Forall_singleton, (D1 t _ Ht).
Qed.
Lemma drawn_reachable l p : reachable pacing_step (fresh_pacing l) p -> drawn_before p.
Proof. apply (reachable_invariant pacing_step drawn_before); [split; [apply map_Forall_empty|done]|by intros q q'; apply drawn_step]. Qed.
Lemma floor_reachable key f p1 p2 : drawn_before p1 -> (f <= gap_of (hl_floors (pc_limiter p1)) key)%Q -> reachable pacing_step p1 p2 -> floor_holds (pc_draws p1) key f p2.
Proof.
intros [D1 D2] Hf. apply (reachable_invariant pacing_step (floor_holds (pc_draws p1) key f)); [|by intros q q'; apply floor_step]. split; [done| |].
- eapply map_Forall_impl; [exact D1|]. intros i x Hx Hd. simpl in Hx. lia.
- eapply Forall_impl; [exact D2|]. intros x Hx Hd. simpl in Hx. lia.
Qed.

(** C35. Once a key has a floor, its own, one the host published or one of a [Retry-After],
    any two requests that asked for their turn under that key since then leave at least the
    floor apart, in whatever order the tasks of the edge ask, queue, sleep and wake, and
    whatever they do to the limiter meanwhile. A request that asked before the floor was
    set is not held to it ([an_unpaced_request_is_forgotten]). *)
Theorem floors_are_kept l p1 p2 key f i j x y :
  reachable pacing_step (fresh_pacing l) p1 -> (0 < f)%Q -> (f <= gap_of (hl_floors (pc_limiter p1)) key)%Q -> reachable pacing_step p1 p2 ->
  (i < j)%nat -> pc_starts p2 !! i = Some x -> pc_starts p2 !! j = Some y -> tu_key x.1 = key -> tu_key y.1 = key ->
  (pc_draws p1 <= tu_draw x.1)%nat -> (pc_draws p1 <= tu_draw y.1)%nat -> (f <= y.2 - x.2)%Q.
Proof.
intros H1 Hf Hl H2 Hij Hx Hy Kx Ky Dx Dy. pose proof (floor_reachable key f p1 p2 (drawn_reachable l p1 H1) Hl H2) as [_ _ F]. rewrite Forall_lookup in F.
assert (T : turns_kept p2) by (apply (turns_reachable l); by eapply reachable_trans). destruct T as [_ T _ _ S]. rewrite Forall_lookup in T.
destruct (T i x Hx) as [Ax _], (T j y Hy) as [Ay _]. pose proof (F i x Hx Dx Kx) as Fx. pose proof (F j y Hy Dy Ky) as Fy. unfold above_floor in *.
assert (Gx : (0 < tu_gap x.1)%Q) by (apply Qlt_le_trans with (tu_floor x.1); [lra|apply Ax; lra]).
assert (Gy : (f <= tu_gap y.1)%Q) by (apply Qle_trans with (tu_floor y.1); [lra|apply Ay; lra]).
apply Qle_trans with (tu_gap y.1); [done|]. apply (S i j x y Hij Hx Hy); [congruence|done|lra].
Qed.

(** * A run *)

Definition demo_limiter : HostLimiter := new_limiter 0 4 None.
Definition shop : string := "shop.test".
(** Two tasks inside, a failure halves the slots, a third task waits and is woken. *)
Definition demo_run : HostLimiter :=
  at_gate shop gate_exit (at_gate shop gate_exit (at_gate shop (gate_enter 3) (with_gate shop (record_failure shop
    (at_gate shop (gate_enter 2) (with_gate shop (at_gate shop (gate_enter 1) (with_gate shop demo_limiter)))))))).
Lemma demo_run_reachable : reachable limiter_step demo_limiter demo_run.
Proof.
unfold demo_run. do 2 (eapply reach_step; [|by eapply Exit; vm_compute; reflexivity]). eapply reach_step; [|apply Enter]. eapply reach_step; [|apply Failure].
do 2 (eapply reach_step; [|apply Enter]). apply reach_refl.
Qed.
Example demo_run_state :
  (slots_of demo_run shop, hl_gates demo_run !! shop, hl_backoff demo_run !! shop)
  = (1, Some {| g_limit := 1; g_active := 0; g_waiting := []; g_woken := [3] |}, Some (1 # 2)%Q).
Proof. vm_compute. reflexivity. Qed.

Lemma pacing_consistent_witness : consistent demo_run.
Proof. apply (pacing_consistent 0 4 None). exact demo_run_reachable. Defined.
Lemma a_host_recovers_witness : let l' := Nat.iter 12 (record_success shop) demo_run in slots_of l' shop = hl_maximum l' /\ hl_backoff l' !! key_of l' shop = None.
Proof.
assert (H : RECOVERY * hl_maximum demo_run <= Z.of_nat 12) by (vm_compute; discriminate).
exact (a_host_recovers 0 4 None demo_run shop 12 demo_run_reachable H).
Defined.
(** Two tasks ask for the host once it has a floor of two seconds. *)
Definition floored_shop : Pacing := (fresh_pacing demo_limiter) <| pc_limiter := set_delay shop 2 demo_limiter |>.
Definition first_asks : Pacing := queues 1 (turn_of floored_shop shop 0) (drew floored_shop).
Definition both_ask : Pacing := queues 2 (turn_of first_asks shop 0) (drew first_asks).
Definition first_leaves : Pacing :=
  let u := turn_of floored_shop shop 0 in let p := locks 1 u both_ask in wakes 1 u (p <| pc_clock := (pc_clock p + 2)%Q |>).
Definition both_leave : Pacing :=
  let u := turn_of first_asks shop 0 in let p := locks 2 u first_leaves in wakes 2 u (p <| pc_clock := (pc_clock p + 2)%Q |>).
Definition free (key : string) (p : Pacing) : Prop := map_Forall (fun _ x => match x with Asleep u _ => tu_key u <> key | Queued _ => True end) (pc_tasks p).
#[local] Instance free_dec key p : Decision (free key p).
Proof. apply map_Forall_dec. intros i x. destruct x; apply _. Defined.
Lemma free_unlocked key p : bool_decide (free key p) = true -> ~ locked key p.
Proof. intros H%bool_decide_eq_true (t & u & until & E & K). by apply (H t _ E). Qed.
Lemma floored_reachable : reachable pacing_step (fresh_pacing demo_limiter) floored_shop.
Proof. eapply reach_step; [apply reach_refl|]. apply Adapts; [constructor|done]. Qed.
Lemma floors_are_kept_witness : exists x y, pc_starts both_leave = [x; y] /\ (2 <= y.2 - x.2)%Q.
Proof.
assert (R : reachable pacing_step floored_shop both_leave).
{ unfold both_leave. eapply reach_step; [|eapply Wakes; [vm_compute; reflexivity|vm_compute; discriminate]]. eapply reach_step; [|apply Passes; vm_compute; discriminate].
  eapply reach_step; [|apply Locks; [vm_compute; reflexivity|apply free_unlocked; vm_compute; reflexivity]].
  unfold first_leaves. eapply reach_step; [|eapply Wakes; [vm_compute; reflexivity|vm_compute; discriminate]]. eapply reach_step; [|apply Passes; vm_compute; discriminate].
  eapply reach_step; [|apply Locks; [vm_compute; reflexivity|apply free_unlocked; vm_compute; reflexivity]].
  unfold both_ask. eapply reach_step; [|apply Queues; [vm_compute; reflexivity|vm_compute; discriminate|vm_compute; reflexivity]].
  eapply reach_step; [apply reach_refl|apply Queues; [vm_compute; reflexivity|vm_compute; discriminate|vm_compute; reflexivity]]. }
eexists _, _. split; [reflexivity|]. apply (floors_are_kept demo_limiter floored_shop both_leave shop 2 0 1 _ _ floored_reachable);
  [reflexivity|vm_compute; discriminate|exact R|apply Nat.lt_0_1|reflexivity|reflexivity|reflexivity|reflexivity|apply Nat.le_0_l|apply Nat.le_0_l].
Defined.

(** A floor is a minimum gap between requests, but a request that had no gap is not
    remembered: when a shop sets a floor of five seconds with its first answer, the next
    request, which asks after that, leaves at the same time as the one before. *)
Definition asked_once : Pacing := let p := (fresh_pacing demo_limiter) <| pc_clock := 100%Q |> in leaves (turn_of p shop 0) (drew p).
Definition told_to_wait : Pacing := asked_once <| pc_limiter := set_delay shop 5 (pc_limiter asked_once) |>.
Definition asked_again : Pacing :=
  let u := turn_of told_to_wait shop 0 in wakes 1 u (locks 1 u (queues 1 u (drew told_to_wait))).
Lemma an_unpaced_request_is_forgotten : reachable pacing_step (fresh_pacing demo_limiter) asked_again
  /\ exists x y, pc_starts asked_again = [x; y] /\ tu_key x.1 = tu_key y.1 /\ (tu_floor y.1 == 5)%Q /\ (y.2 - x.2 == 0)%Q.
Proof.
split; [|do 2 eexists; split; [reflexivity|]; repeat split; vm_compute; reflexivity].
unfold asked_again. eapply reach_step; [|eapply Wakes; [vm_compute; reflexivity|vm_compute; discriminate]]. eapply reach_step; [|apply Locks; [vm_compute; reflexivity|apply free_unlocked; vm_compute; reflexivity]].
eapply reach_step; [|apply Queues; [vm_compute; reflexivity|vm_compute; discriminate|vm_compute; reflexivity]].
unfold told_to_wait. eapply reach_step; [|apply Adapts; [constructor|done]]. unfold asked_once.
eapply reach_step; [|apply Leaves; [vm_compute; discriminate|vm_compute; discriminate]].
eapply reach_step; [apply reach_refl|]. apply (Passes (fresh_pacing demo_limiter) 100). vm_compute. discriminate.
Qed.
