(* ===== verification/LegacyFetch.v ===== *)
(** The polite fetcher of the legacy scrapers ([catalogue-dump/.../scrapers/base.py],
    [scrapers/cache.py]): one request through the cache, the limiter of its host, its
    retries, the browser's user agent, an impersonated handshake and the paid fallback
    proxy; robots.txt; and rendered pages.

    Sending, rendering, the digest of a cache key, the size of a stored entry and the
    robots parser are parameters, and so is what the other tasks of the fetcher do to its
    limiter while one waits. Times are rationals of one clock. *)
From S2P Require Export HostPacing Json.
From Stdlib Require Import Ascii.
Open Scope Z_scope.

(** * Responses *)

(** Header names in lower case, as [httpx.Headers] compares them. *)
Record Response := { rs_status : Z; rs_url : string; rs_headers : headers; rs_text : string; rs_downloaded : Z; rs_provenance : option string }.

(** [text.split()] *)
Definition str_words (s : string) : list string := filter (fun w => str_isempty w = false) (re_split (rx no_flags "\s+") s).
(** Source: catalogue-dump/scrapers/base.py:66-78, BLOCK_TITLES. *)
Definition BLOCK_TITLES : list string :=
  ["403 forbidden"; "401 unauthorized"; "access denied"; "attention required"; "just a moment"; "checking your browser";
   "you have been blocked"; "access to this site has been limited"; "request unsuccessful"; "are you a robot"; "pardon our interruption"].
Definition BLOCK_MAX_BYTES : Z := 32768.
(** Source: catalogue-dump/scrapers/base.py, looks_like_a_block. *)
Definition looks_like_a_block (body content_type : string) : option string :=
  if negb (str_isempty content_type) && negb (str_contains "html" (str_lower content_type)) then None
  else if BLOCK_MAX_BYTES <? str_len body then None
  else
    x ← search (rx re_IS "<title[^>]*>(.*?)</title>") body;
    let title := str_casefold (str_join " " (str_words (group_text 1 x))) in
    if existsb (fun phrase => str_contains phrase title) BLOCK_TITLES then Some (str_take 120 title) else None.

(** Source: catalogue-dump/scrapers/base.py, _headers_size. *)
Definition headers_size (h : headers) : Z := foldr (fun nv n => str_len nv.1 + str_len nv.2 + 4 + n) 0 h.
(** Source: catalogue-dump/scrapers/base.py, _response_size. *)
Definition response_size (r : Response) : Z := (if 0 <? rs_downloaded r then rs_downloaded r else str_len (rs_text r)) + headers_size (rs_headers r).
(** Source: catalogue-dump/scrapers/base.py, _outcome. *)
Definition outcome_of (status : Z) : string := if status =? 403 then "403" else if status =? 429 then "429" else pretty (status / 100) +:+ "xx".

(** * The cache *)

(** Source: catalogue-dump/scrapers/cache.py, CachedResponse. *)
Record CachedResponse := { ce_status : Z; ce_url : string; ce_body : string; ce_headers : headers; ce_fetched_at : Q; ce_kind : string }.
Inductive CacheMode := off | auto_ | replay | refresh.
#[export] Instance CacheMode_eq_dec : EqDecision CacheMode.
Proof. solve_decision. Defined.

(** The files by host and key; [None] is a file that cannot be read. Source:
    catalogue-dump/scrapers/cache.py, ResponseCache.__init__. *)
Record ResponseCache := {
  rc_mode : CacheMode; rc_max_age : option Q; rc_hits : Z; rc_misses : Z; rc_writes : Z; rc_bytes_read : Z;
  rc_files : gmap (string * string) (option CachedResponse);
}.
#[export] Instance ResponseCache_eta : Eta ResponseCache := fun c =>
  {| rc_mode := rc_mode c; rc_max_age := rc_max_age c; rc_hits := rc_hits c; rc_misses := rc_misses c; rc_writes := rc_writes c;
     rc_bytes_read := rc_bytes_read c; rc_files := rc_files c |}.

(** The directory of a URL's host and the name of the key. Source:
    catalogue-dump/scrapers/cache.py, ResponseCache.path. *)
Definition cache_path (key url : string) : result pyexn (string * string) :=
  host ← host_of url; Ok (if str_isempty host then "other" else host, key).
Definition missed (c : ResponseCache) : ResponseCache := c <| rc_misses := rc_misses c + 1 |>.
Definition expired (c : ResponseCache) (now : Q) (entry : CachedResponse) : bool :=
  match rc_max_age c with Some age => negb (Qle_bool (now - ce_fetched_at entry) age) | None => false end.
(** [size]: the bytes of a stored file. Source: catalogue-dump/scrapers/cache.py, ResponseCache.read. *)
Definition cache_read (size : CachedResponse -> Z) (key url : string) (now : Q) (c : ResponseCache) : result pyexn (option CachedResponse * ResponseCache) :=
  if ⌊ rc_mode c = off ⌋ || ⌊ rc_mode c = refresh ⌋ then Ok (None, c)
  else
    path ← cache_path key url;
    match rc_files c !! path with
    | Some (Some entry) =>
        if expired c now entry then Ok (None, missed c)
        else Ok (Some entry, c <| rc_hits := rc_hits c + 1 |> <| rc_bytes_read := rc_bytes_read c + size entry |>)
    | Some None | None => Ok (None, missed c)
    end.
(** Source: catalogue-dump/scrapers/cache.py, ResponseCache.stale_read. *)
Definition stale_read (key url : string) (c : ResponseCache) : result pyexn (option CachedResponse) :=
  if ⌊ rc_mode c = off ⌋ then Ok None else path ← cache_path key url; Ok (mjoin (rc_files c !! path)).
(** Source: catalogue-dump/scrapers/cache.py, ResponseCache.write. *)
Definition cache_write (key : string) (entry : CachedResponse) (c : ResponseCache) : result pyexn ResponseCache :=
  if ⌊ rc_mode c = off ⌋ then Ok c
  else path ← cache_path key (ce_url entry); Ok (c <| rc_files := <[path := Some entry]> (rc_files c) |> <| rc_writes := rc_writes c + 1 |>).

(** * The fetcher *)

Record TransportStats := {
  ts_tx : Z; ts_rx : Z; ts_browser_rx : Z; ts_direct : Z; ts_impersonated : Z; ts_browser : Z; ts_proxy : Z; ts_not_modified : Z; ts_saved_304 : Z;
  ts_outcomes : list (string * Z);
}.
#[export] Instance TransportStats_eta : Eta TransportStats := fun t =>
  {| ts_tx := ts_tx t; ts_rx := ts_rx t; ts_browser_rx := ts_browser_rx t; ts_direct := ts_direct t; ts_impersonated := ts_impersonated t;
     ts_browser := ts_browser t; ts_proxy := ts_proxy t; ts_not_modified := ts_not_modified t; ts_saved_304 := ts_saved_304 t; ts_outcomes := ts_outcomes t |}.

(** What the fetcher uses of a paid lease. Source: catalogue-dump/proxy.py:131-134, ProxyLease. *)
Record ProxyLease := { pl_max_bytes : Z; pl_used_bytes : Z; pl_requests : Z }.
(** Source: catalogue-dump/proxy.py, ProxyLease.ensure_request_allowed. *)
Definition request_allowed (l : ProxyLease) : bool := pl_used_bytes l <? pl_max_bytes l.
(** Source: catalogue-dump/proxy.py, ProxyLease.account. *)
Definition account (tx rx : Z) (l : ProxyLease) : ProxyLease :=
  {| pl_max_bytes := pl_max_bytes l; pl_used_bytes := pl_used_bytes l + Z.max 0 tx + Z.max 0 rx; pl_requests := pl_requests l + 1 |}.

(** Seconds of a header: a host may name infinity. *)
Inductive duration := Seconds (q : Q) | Forever.
Inductive RobotsPolicy := robots_ignore | robots_obey.
(** A [RobotFileParser]: [allow_all], [disallow_all], or the lines it parsed. *)
Inductive Robots := AllowAll | DisallowAll | Rules (lines : list string).

(** [fe_held] is no field of the code: the host at whose gate the modelled task is
    inside. Source: catalogue-dump/scrapers/base.py, Fetcher.__init__. *)
Record Fetcher := {
  fe_limiter : HostLimiter; fe_browser : bool; fe_impersonator : bool; fe_robots_policy : RobotsPolicy; fe_stale_on_error : bool;
  fe_lease : option ProxyLease; fe_proxy_until : duration; fe_stats : TransportStats;
  fe_robots : list (string * (Robots * list string)); fe_held : option string;
}.
#[export] Instance Fetcher_eta : Eta Fetcher := fun f =>
  {| fe_limiter := fe_limiter f; fe_browser := fe_browser f; fe_impersonator := fe_impersonator f; fe_robots_policy := fe_robots_policy f;
     fe_stale_on_error := fe_stale_on_error f; fe_lease := fe_lease f; fe_proxy_until := fe_proxy_until f; fe_stats := fe_stats f;
     fe_robots := fe_robots f; fe_held := fe_held f |}.

(** Source: catalogue-dump/scrapers/base.py:1443-1454, Fetcher.response. *)
Record Ask := {
  ak_url : string; ak_params : option json; ak_accept : option string; ak_method : string; ak_body : option json; ak_headers : headers;
}.

(** How a request leaves: plainly, with a browser's handshake, or rendered by a browser. *)
Inductive Manner := Plain | Impersonated | Rendered.
(** Every await the fetcher makes: it was let in at a gate, it got the lock of its key, a
    request leaves, it left the gate, it slept, it asks for robots.txt. *)
Inductive Doing :=
| Entered
| Locked
| Dispatched (manner : Manner) (agent : bool)
| Left
| Slept (seconds : Q)
| RobotsRead (agent : bool).
(** An await, with the clock and the limiter as they are then. [ev_who] is the place in the
    chain of fetchers: the fetcher, then its proxy fallback. [ev_host] is the host, or the
    origin whose robots.txt is asked for. *)
Record Event := { ev_who : nat; ev_host : string; ev_doing : Doing; ev_clock : Q; ev_limiter : option HostLimiter }.

(** What a request may raise: an [httpx.HTTPError] or [UnicodeError] of the transport, a
    status [raise_for_status] refuses, and the fetcher's own. *)
Inductive fetch_exn :=
| TransportError (name : string) (timeout : bool)
| StatusError (status : Z)
| Blocked (message : string)
| NotCached (message : string)
| ProxyDenied (message : string)
| OtherError (name : string)
| FetchPy (e : pyexn)
| NeverWakes.

Record FetchWorld := { fw_clock : Q; fw_events : list Event; fw_cache : ResponseCache; fw_fetchers : list Fetcher }.
#[export] Instance FetchWorld_eta : Eta FetchWorld := fun w =>
  {| fw_clock := fw_clock w; fw_events := fw_events w; fw_cache := fw_cache w; fw_fetchers := fw_fetchers w |}.
Abbreviation fetch := (eff FetchWorld fetch_exn).

(** The world outside. The first [nat] of each is the number of awaits so far. [w_admit]:
    the limiter when the gate lets the task in, after whatever the other tasks did;
    [w_others]: what they do to it during another await, the task being inside the gate
    of the given host. [w_metered]: bytes and requests a browser charged to the lease. *)
Class Outside := {
  w_send : nat -> nat -> Manner -> Ask -> headers -> result fetch_exn Response;
  w_render : nat -> nat -> string -> result fetch_exn string; w_metered : nat -> Z * Z;
  w_took : nat -> Q; w_late : nat -> Q; w_random : nat -> Q;
  w_admit : nat -> string -> HostLimiter -> HostLimiter; w_others : nat -> option string -> HostLimiter -> HostLimiter;
  w_digest : json -> string; w_stored_size : CachedResponse -> Z; w_target : string -> json -> string; w_dumped : json -> string;
  w_loads : string -> option json; w_can_fetch : list string -> string -> string -> bool; w_crawl_delay : list string -> string -> option Q;
}.
Definition inside (l : HostLimiter) (host : string) : bool := match hl_gates l !! host with Some g => 0 <? g_active g | None => false end.
(** Other tasks change a limiter by its operations only and leave the slot of this one
    alone, and a gate lets a task in only while it has room. *)
Class OutsideLaws `(Outside) := {
  admit_law n host l : consistent l -> reachable limiter_step (with_gate host l) (w_admit n host l)
    /\ exists g, hl_gates (w_admit n host l) !! host = Some g /\ g_active g < g_limit g;
  others_law n held l : reachable limiter_step l (w_others n held l)
    /\ match held with Some host => inside l host = true -> inside (w_others n held l) host = true | None => True end;
  late_law n : (0 <= w_late n)%Q; random_law n : (0 <= w_random n <= 1)%Q; took_law n : (0 <= w_took n)%Q;
}.

Section fetching.
Context `{Outside}.

Definition raise_py {A} (r : result pyexn A) : fetch A := match r with Ok a => mret a | Err e => throw (FetchPy e) end.
Definition self (who : nat) : fetch Fetcher := fun w =>
  match fw_fetchers w !! who with Some f => (Ok f, w) | None => (Err (FetchPy (AssertionError "no such fetcher")), w) end.
Definition update (who : nat) (g : Fetcher -> Fetcher) : fetch () := modify (fun w => w <| fw_fetchers := alter g who (fw_fetchers w) |>).
Definition with_limiter (who : nat) (g : HostLimiter -> HostLimiter) : fetch () := update who (fun f => f <| fe_limiter := g (fe_limiter f) |>).
Definition count (who : nat) (g : TransportStats -> TransportStats) : fetch () := update who (fun f => f <| fe_stats := g (fe_stats f) |>).
(** [stats.outcomes[name] += 1] *)
Definition outcome (name : string) (t : TransportStats) : TransportStats :=
  t <| ts_outcomes := dict_set name (default 0 (dict_get name (ts_outcomes t)) + 1) (ts_outcomes t) |>.
Definition now : fetch Q := gets fw_clock.
Definition awaits : fetch nat := gets (fun w => length (fw_events w)).
Definition event_at (who : nat) (host : string) (doing : Doing) (w : FetchWorld) : Event :=
  {| ev_who := who; ev_host := host; ev_doing := doing; ev_clock := fw_clock w; ev_limiter := fe_limiter <$> fw_fetchers w !! who |}.
Definition event (who : nat) (host : string) (doing : Doing) : fetch () := modify (fun w => w <| fw_events := fw_events w ++ [event_at who host doing w] |>).
(** Time passes, and the other tasks run. *)
Definition meanwhile (took : Q) : fetch () :=
  n ← awaits;
  modify (fun w => w <| fw_clock := (fw_clock w + took)%Q |>
    <| fw_fetchers := (fun f => f <| fe_limiter := w_others n (fe_held f) (fe_limiter f) |>) <$> fw_fetchers w |>).
(** [asyncio.sleep] *)
Definition sleep (who : nat) (host : string) (d : duration) : fetch () :=
  match d with
  | Forever => throw NeverWakes
  | Seconds q => n ← awaits; _ ← meanwhile (Qmax 0 q + w_late n)%Q; event who host (Slept q)
  end.

(** Source: catalogue-dump/scrapers/base.py:252-257, HostLimiter.gate. *)
Definition in_gate {A} (who : nat) (host : string) (m : fetch A) : fetch A :=
  n ← awaits;
  _ ← update who (fun f => f <| fe_limiter := at_gate host (gate_enter 0) (w_admit n host (fe_limiter f)) |> <| fe_held := Some host |>);
  _ ← event who host Entered;
  finally m (_ ← update who (fun f => f <| fe_limiter := at_gate host gate_exit (fe_limiter f) |> <| fe_held := None |>); event who host Left).

(** Without a gap the request leaves at once. With one, the task queues for the lock of its
    key and sleeps until the gap since the last request is over. Source:
    catalogue-dump/scrapers/base.py, HostLimiter.wait. *)
Definition wait (who : nat) (host : string) : fetch () :=
  n ← awaits;
  f ← self who;
  let gap := jittered (fe_limiter f) host (w_random n) in
  if Qle_bool gap 0 then mret ()
  else
    let key := key_of (fe_limiter f) host in
    _ ← meanwhile (w_took n);
    _ ← event who host Locked;
    f ← self who; t ← now;
    let pause := pause_before (fe_limiter f) key gap t in
    _ ← meanwhile (if Qle_bool pause 0 then 0%Q else (pause + w_late n)%Q);
    t ← now;
    with_limiter who (waited key t).

Definition USER_AGENT : string := "AtelieraCatalogueResearch/1.0 (+catalogue import; contact operator before production use)".
Definition BROWSER_USER_AGENT : string :=
  "Mozilla/5.0 (X11; Linux x86_64) AppleWebKit/537.36 (KHTML, like Gecko) Chrome/136.0.0.0 Safari/537.36".
Definition send (who : nat) (host : string) (manner : Manner) (agent : bool) (ask : Ask) (h : headers) : fetch Response :=
  n ← awaits;
  _ ← event who host (Dispatched manner agent);
  _ ← meanwhile (w_took n);
  lift (w_send n who manner ask h).

(** The URL with its parameters. Source: catalogue-dump/scrapers/base.py:1463-1463, Fetcher.response. *)
Definition target_of (ask : Ask) : string := match ak_params ask with Some p => w_target (ak_url ask) p | None => ak_url ask end.
(** Source: catalogue-dump/scrapers/base.py, _request_size. *)
Definition request_size (ask : Ask) (h : headers) : Z :=
  str_len (ak_method ask) + str_len (target_of ask) + headers_size h + match ak_body ask with Some b => str_len (w_dumped b) | None => 0 end + 16.
Definition charge (who : nat) (tx rx : Z) : fetch () :=
  f ← self who;
  match fe_lease f with
  | Some l => _ ← update who (fun f => f <| fe_lease := account tx rx <$> fe_lease f |>); count who (fun t => t <| ts_proxy := ts_proxy t + 1 |>)
  | None => mret ()
  end.
(** Source: catalogue-dump/scrapers/base.py:1519-1530, Fetcher.response. *)
Definition record_answer (who : nat) (ask : Ask) (h : headers) (r : Response) : fetch () :=
  f ← self who;
  let tx := request_size ask h in let rx := response_size r in
  _ ← count who (fun t => outcome (outcome_of (rs_status r))
        (t <| ts_direct := ts_direct t + (if is_none (fe_lease f) then 1 else 0) |> <| ts_tx := ts_tx t + tx |> <| ts_rx := ts_rx t + rx |>));
  charge who tx rx.

(** The seconds of a [Retry-After], [None] when [float] refuses it. What is no number or
    below zero makes the code do what zero does. *)
Definition seconds_of (text : string) : option duration :=
  match float_of_text text with
  | Some (FFinite m e) => Some (Seconds (inject_Z m * Qpower 2 e)%Q)
  | Some (FInf false) => Some Forever
  | Some _ => Some (Seconds 0)
  | None => None
  end.
Definition dmax (a b : duration) : duration := match a, b with Seconds p, Seconds q => Seconds (Qmax p q) | _, _ => Forever end.
Definition dplus (t : Q) (d : duration) : duration := match d with Seconds q => Seconds (t + q)%Q | Forever => Forever end.
Definition before (t : Q) (d : duration) : bool := match d with Seconds q => negb (Qle_bool q t) | Forever => true end.

(** Source: catalogue-dump/scrapers/base.py, Fetcher._stale_response. *)
Definition stale_response (stale : CachedResponse) (url : string) : Response :=
  {| rs_status := ce_status stale; rs_url := if str_isempty (ce_url stale) then url else ce_url stale; rs_headers := ce_headers stale;
     rs_text := ce_body stale; rs_downloaded := 0; rs_provenance := Some "stale" |}.
Definition prefers_stale (f : Fetcher) (stale : option CachedResponse) (ask : Ask) : option CachedResponse :=
  if fe_stale_on_error f && ⌊ ak_method ask = "GET" ⌋ then stale else None.
Definition serve_stale (who : nat) (stale : CachedResponse) (ask : Ask) : fetch Response :=
  _ ← count who (outcome "stale_on_error"); mret (stale_response stale (ak_url ask)).

(** What an attempt comes to: an answer to look at, the end of the request, or another
    attempt. *)
Inductive Outcome := Answered (r : Response) | Returned (r : Response) | Again.

Definition ensure_lease (who : nat) : fetch () :=
  f ← self who;
  match fe_lease f with
  | Some l => if request_allowed l then mret () else throw (ProxyDenied "job proxy reservation is exhausted")
  | None => mret ()
  end.

(** One attempt at the gate of the host. [fallback]: the proxy fallback, given the
    user agent to use. Source: catalogue-dump/scrapers/base.py:1507-1561, Fetcher.response. *)
Definition ask_host (who : nat) (host : string) (ask : Ask) (h : headers) (agent : bool) (stale : option CachedResponse)
    (fallback : option (bool -> fetch Response)) (last : bool) : fetch Outcome := in_gate who host (
  _ ← wait who host;
  answer ← catch (r ← send who host Plain agent ask h; mret (inl r)) (fun e => mret (inr e));
  match answer with
  | inl r => _ ← record_answer who ask h r; mret (Answered r)
  | inr (TransportError name timeout) =>
      _ ← with_limiter who (record_failure host);
      _ ← count who (outcome (if (timeout : bool) then "timeout" else "transport_error"));
      f ← self who;
      if last then
        match prefers_stale f stale ask, fallback with
        | Some entry, _ => r ← serve_stale who entry ask; mret (Returned r)
        | None, Some fallback => r ← fallback agent; mret (Returned r)
        | None, None => throw (TransportError name timeout)
        end
      else
        let gap := spacing (fe_limiter f) host in
        _ ← sleep who host (Seconds (if Qeq_bool gap 0 then 1 else gap)%Q); mret Again
  | inr e => throw e
  end).

(** What an answer means for the pace and for the next attempt. Source:
    catalogue-dump/scrapers/base.py:1565-1612, Fetcher.response. *)
Definition weigh (who : nat) (host : string) (ask : Ask) (agent : bool) (stale : option CachedResponse) (fallback : option (bool -> fetch Response))
    (attempt : Z) (r : Response) : fetch Outcome :=
  _ ← with_limiter who (observe_headers host (rs_headers r));
  if negb (rs_status r =? 429) && (rs_status r <? 500) then _ ← with_limiter who (record_success host); mret (Answered r)
  else
    _ ← with_limiter who (record_failure host);
    let retry_after := dict_get "retry-after" (rs_headers r) ≫= (fun t => if str_isempty t then None else Some t) in
    let seconds := retry_after ≫= seconds_of in
    _ ← match seconds with
        | Some (Seconds q) => when ((rs_status r =? 429) && negb (Qle_bool q 0)) (with_limiter who (set_delay host (Qmin q BACKOFF_MAX)))
        | Some Forever => when (rs_status r =? 429) (with_limiter who (set_delay host BACKOFF_MAX))
        | None => mret ()
        end;
    f ← self who;
    match (if (rs_status r =? 429) || is_some retry_after then fallback else None), prefers_stale f stale ask with
    | Some fallback, None =>
        t ← now;
        _ ← update who (fun f => f <| fe_proxy_until := dmax (fe_proxy_until f) (dplus t (dmax (Seconds 60) (default (Seconds 0) seconds))) |>);
        r ← fallback agent; mret (Returned r)
    | _, _ =>
        if attempt =? 3 then mret (Answered r)
        else _ ← sleep who host (default (Seconds (inject_Z (Z.min (2 ^ attempt) 8))) seconds); mret Again
    end.

(** [for attempt in range(4)], from [3 - more] on. Source:
    catalogue-dump/scrapers/base.py:1504-1613, Fetcher.response. *)
Fixpoint attempts (more : nat) (who : nat) (ask : Ask) (h : headers) (agent : bool) (stale : option CachedResponse)
    (fallback : option (bool -> fetch Response)) : fetch Outcome :=
  _ ← ensure_lease who;
  host ← raise_py (host_of (ak_url ask));
  asked ← ask_host who host ask h agent stale fallback (bool_decide (more = 0%nat));
  next ← match asked with Answered r => weigh who host ask agent stale fallback (3 - Z.of_nat more) r | _ => mret asked end;
  match next, more with
  | Again, S more => attempts more who ask h agent stale fallback
  | _, _ => mret next
  end.

(** Source: catalogue-dump/scrapers/base.py, Fetcher._impersonate. *)
Definition impersonate (who : nat) (ask : Ask) (h : headers) : fetch (option Response) :=
  f ← self who;
  if negb (fe_impersonator f) then mret None
  else
    host ← raise_py (host_of (ak_url ask));
    answer ← in_gate who host (
      _ ← wait who host;
      catch (r ← send who host Impersonated true ask (dict_set "user-agent" BROWSER_USER_AGENT h); mret (Some r))
        (fun e => _ ← match e with Blocked _ => update who (fun f => f <| fe_impersonator := false |>) | _ => mret () end; mret None));
    match answer with
    | None => mret None
    | Some r =>
        let tx := request_size ask h in let rx := response_size r in
        _ ← count who (fun t => outcome (outcome_of (rs_status r))
              (t <| ts_impersonated := ts_impersonated t + 1 |> <| ts_rx := ts_rx t + rx |> <| ts_tx := ts_tx t + tx |>));
        _ ← charge who tx rx;
        mret (if 400 <=? rs_status r then None else Some r)
    end.

Definition kept_header (nv : string * string) : bool := ⌊ nv.1 ∈ ["content-type"; "content-language"; "last-modified"; "etag"] ⌋.
Definition kept_headers (h : headers) : headers := filter (fun nv => kept_header nv = true) h.
Definition store (key : string) (entry : CachedResponse) : fetch () :=
  w ← gets id; c ← raise_py (cache_write key entry (fw_cache w)); modify (fun w => w <| fw_cache := c |>).
(** Source: catalogue-dump/scrapers/base.py:1464-1466, Fetcher.response. *)
Definition key_of_ask (ask : Ask) (agent : bool) : string :=
  let opt (o : option json) := default JNull o in
  w_digest (JList [JStr "http"; JStr (ak_url ask);
    JDict [("agent", JBool agent); ("body", opt (ak_body ask)); ("method", JStr (ak_method ask)); ("params", opt (ak_params ask))]]).
(** [cache.read], its counters kept. *)
Definition read_cache (key url : string) : fetch (option CachedResponse) :=
  w ← gets id; got ← raise_py (cache_read w_stored_size key url (fw_clock w) (fw_cache w));
  _ ← modify (fun w => w <| fw_cache := snd got |>); mret (fst got).

(** An answer is returned and stored, unless its status is an error or it is a refusal
    wearing a 200. Source: catalogue-dump/scrapers/base.py:1681-1707, Fetcher.response. *)
Definition settle (who : nat) (ask : Ask) (key : string) (fallback : option (bool -> fetch Response)) (r : Response) : fetch Response :=
  if negb ((200 <=? rs_status r) && (rs_status r <? 300)) then throw (StatusError (rs_status r))
  else match looks_like_a_block (rs_text r) (default "" (dict_get "content-type" (rs_headers r))) with
       | Some refusal =>
           _ ← count who (outcome "block_page");
           match fallback with
           | Some fallback => fallback true
           | None => throw (Blocked (ak_url ask +:+ " returned a block page with status 200: '" +:+ refusal +:+ "'"))
           end
       | None =>
           t ← now;
           _ ← store key {| ce_status := rs_status r; ce_url := rs_url r; ce_body := rs_text r; ce_headers := kept_headers (rs_headers r);
                            ce_fetched_at := t; ce_kind := "http" |};
           mret r
       end.

(** What the last answer becomes: [again] asks as a browser, [None] when this already is
    one. Source: catalogue-dump/scrapers/base.py:1614-1681, Fetcher.response. *)
Definition conclude (who : nat) (ask : Ask) (h : headers) (key : string) (stale : option CachedResponse)
    (fallback : option (bool -> fetch Response)) (again : option (fetch Response)) (r : Response) : fetch Response :=
  let status := rs_status r in
  f ← self who;
  t ← now;
  match (if status =? 304 then stale else None) with
  | Some entry =>
      let entry := {| ce_status := ce_status entry; ce_url := ce_url entry; ce_body := ce_body entry;
                      ce_headers := dict_update (ce_headers entry) (kept_headers (rs_headers r)); ce_fetched_at := t; ce_kind := ce_kind entry |} in
      _ ← store key entry;
      _ ← count who (fun t => t <| ts_not_modified := ts_not_modified t + 1 |> <| ts_saved_304 := ts_saved_304 t + str_len (ce_body entry) |>);
      mret {| rs_status := ce_status entry; rs_url := if str_isempty (ce_url entry) then ak_url ask else ce_url entry; rs_headers := ce_headers entry;
              rs_text := ce_body entry; rs_downloaded := 0; rs_provenance := Some "fresh" |}
  | None =>
  match (if ⌊ status ∈ [408; 425; 429] ⌋ || (500 <=? status) then prefers_stale f stale ask else None) with
  | Some entry => serve_stale who entry ask
  | None =>
  let hinted := match dict_get "retry-after" (rs_headers r) with Some t => negb (str_isempty t) | None => false end in
  match (if (status =? 429) || ((500 <=? status) && hinted) then fallback else None) with
  | Some fallback => fallback (is_none again)
  | None =>
  if ⌊ status ∈ [401; 403; 406] ⌋ then
    match again with
    | Some again => again
    | None =>
        impersonated ← impersonate who ask h;
        match impersonated, fallback with
        | Some r, _ => settle who ask key fallback r
        | None, Some other => if ⌊ status ∈ [403; 406] ⌋ then other true else settle who ask key fallback r
        | None, None => settle who ask key fallback r
        end
    end
  else settle who ask key fallback r
  end end end.

Definition set_default (k v : string) (h : headers) : headers := match dict_get k h with Some _ => h | None => dict_set k v h end.
(** Source: catalogue-dump/scrapers/base.py:1455-1459, Fetcher.response. *)
Definition request_headers (ask : Ask) (agent : bool) : headers :=
  let h := if agent then dict_set "user-agent" BROWSER_USER_AGENT (ak_headers ask) else ak_headers ask in
  match ak_accept ask with Some a => if str_isempty a then h else dict_set "accept" a h | None => h end.
(** Source: catalogue-dump/scrapers/base.py:1483-1488, Fetcher.response. *)
Definition conditional (stale : option CachedResponse) (h : headers) : headers :=
  let tag k name h := match stale ≫= (fun s => dict_get name (ce_headers s)) with Some v => if str_isempty v then h else set_default k v h | None => h end in
  tag "if-modified-since" "last-modified" (tag "if-none-match" "etag" h).

(** What no stored answer served. Source: catalogue-dump/scrapers/base.py:1490-1504, Fetcher.response. *)
Definition ask_network (who : nat) (ask : Ask) (key : string) (stale : option CachedResponse) (fallback : option (bool -> fetch Response))
    (again : option (fetch Response)) : fetch Response :=
  let agent := is_none again in
  let h := conditional stale (request_headers ask agent) in
  f ← self who; t ← now;
  match (if before t (fe_proxy_until f) then fallback else None), prefers_stale f stale ask with
  | Some _, Some entry => serve_stale who entry ask
  | Some fallback, None => fallback agent
  | None, _ =>
      outcome ← attempts 3 who ask h agent stale fallback;
      match outcome with
      | Answered r => conclude who ask h key stale fallback again r
      | Returned r => mret r
      | Again => throw (FetchPy (AssertionError "response is not None"))
      end
  end.

(** A request as one user agent. Source: catalogue-dump/scrapers/base.py, Fetcher.response. *)
Definition response_as (who : nat) (ask : Ask) (fallback : option (bool -> fetch Response)) (again : option (fetch Response)) : fetch Response :=
  let agent := is_none again in
  let key := key_of_ask ask agent in
  stored ← read_cache key (ak_url ask);
  w ← gets id;
  let mode := rc_mode (fw_cache w) in
  match stored with
  | Some entry =>
      mret {| rs_status := ce_status entry; rs_url := if str_isempty (ce_url entry) then ak_url ask else ce_url entry; rs_headers := ce_headers entry;
              rs_text := ce_body entry; rs_downloaded := 0; rs_provenance := Some (if ⌊ mode = replay ⌋ then "replayed" else "fresh") |}
  | None =>
      if ⌊ mode = replay ⌋ then throw (NotCached (ak_method ask +:+ " " +:+ ak_url ask +:+ " is not in the cache"))
      else
        stale ← raise_py (stale_read key (ak_url ask) (fw_cache w));
        ask_network who ask key stale fallback again
  end.

(** The fetcher [who], with [after] fetchers behind it in the chain of fallbacks. Source:
    catalogue-dump/scrapers/base.py, Fetcher.response. *)
Fixpoint response (after who : nat) (ask : Ask) (agent allow_proxy_fallback : bool) : fetch Response :=
  let fallback := match after with S after => if allow_proxy_fallback then Some (fun agent => response after (S who) ask agent true) else None | O => None end in
  let as_browser := response_as who ask fallback None in
  if agent then as_browser else response_as who ask fallback (Some as_browser).

(** Source: catalogue-dump/scrapers/base.py, Fetcher.text. *)
Definition text (after who : nat) (ask : Ask) (agent allow_proxy_fallback : bool) : fetch string :=
  r ← response after who ask agent allow_proxy_fallback; mret (rs_text r).
(** Source: catalogue-dump/scrapers/base.py, Fetcher.json. *)
Definition json_of (after who : nat) (ask : Ask) (agent : bool) : fetch json :=
  r ← response after who ask agent true;
  match w_loads (rs_text r) with
  | Some v => mret v
  | None => throw (Blocked (ak_url ask +:+ " did not return JSON (" +:+ default "None" (dict_get "content-type" (rs_headers r)) +:+ ")"))
  end.

(** ** robots.txt *)

Definition robots_ask (origin : string) (agent : bool) : Ask :=
  {| ak_url := origin +:+ "/robots.txt"; ak_params := None; ak_accept := None; ak_method := "GET"; ak_body := None;
     ak_headers := if agent then [("user-agent", BROWSER_USER_AGENT)] else [] |}.
(** [text.splitlines()] of ASCII text. *)
Definition line_break (c : ascii) : bool := ⌊ ord c ∈ [10; 11; 12; 13; 28; 29; 30] ⌋.
Fixpoint lines_from (after_cr : bool) (line s : string) : list string :=
  match s with
  | EmptyString => if str_isempty line then [] else [line]
  | String c r =>
      if after_cr && (ord c =? 10) then lines_from false line r
      else if line_break c then line :: lines_from (ord c =? 13) "" r
      else lines_from false (line +:+ String c EmptyString) r
  end.
Definition str_lines (s : string) : list string := lines_from false "" s.
(** [line.split(":", 1)[1].strip()] of the lines that name a sitemap. Source:
    catalogue-dump/scrapers/base.py:1360-1364, Fetcher._read_robots. *)
Definition sitemaps_of (body : string) : list string :=
  omap (fun line => let '(_, found, value) := str_partition ":" line in
    if str_startswith "sitemap:" (str_lower line) && found && negb (str_isempty (str_strip value)) then Some (str_strip value) else None) (str_lines body).
(** Source: catalogue-dump/scrapers/base.py:1353-1371, Fetcher._read_robots. *)
Definition interpret_robots (r : Response) : Robots * list string :=
  if (200 <=? rs_status r) && (rs_status r <? 300) then
    if str_contains "html" (str_lower (default "" (dict_get "content-type" (rs_headers r))))
       && str_contains "<html" (str_lower (str_take 400 (rs_text r)))
    then (AllowAll, [])
    else (Rules (str_lines (rs_text r)), sitemaps_of (rs_text r))
  else if (400 <=? rs_status r) && (rs_status r <? 500) then (AllowAll, [])
  else (DisallowAll, []).

(** [False], then [True] when the declared agent is refused. Source:
    catalogue-dump/scrapers/base.py, Fetcher._read_robots. *)
Fixpoint read_robots_as (agents : list bool) (who : nat) (origin : string) : fetch (Robots * list string) :=
  match agents with
  | [] => throw (FetchPy (AssertionError "response is not None"))
  | agent :: others =>
      let ask := robots_ask origin agent in
      answer ← catch (
        _ ← ensure_lease who;
        n ← awaits;
        _ ← event who origin (RobotsRead agent);
        _ ← meanwhile (w_took n);
        r ← lift (w_send n who Plain ask (ak_headers ask));
        _ ← record_answer who ask (ak_headers ask) r;
        mret (inl r)) (fun e => mret (inr e));
      match answer with
      | inr (TransportError _ _) => mret (AllowAll, [])
      | inr e => throw e
      | inl r => if ⌊ rs_status r ∈ [401; 403] ⌋ && negb agent then read_robots_as others who origin else mret (interpret_robots r)
      end
  end.
Definition origin_of_url (url : string) : result pyexn string := parts ← urlsplit url; Ok (sr_scheme parts +:+ "://" +:+ sr_netloc parts).
(** Source: catalogue-dump/scrapers/base.py, Fetcher.robots. *)
Definition robots (who : nat) (url : string) : fetch (Robots * list string) :=
  origin ← raise_py (origin_of_url url);
  f ← self who;
  match dict_get origin (fe_robots f) with
  | Some known => mret known
  | None =>
      read ← read_robots_as [false; true] who origin;
      _ ← update who (fun f => f <| fe_robots := dict_set origin read (fe_robots f) |>);
      mret read
  end.
Definition can_fetch (parser : Robots) (url : string) : bool :=
  match parser with AllowAll => true | DisallowAll => false | Rules lines => w_can_fetch lines USER_AGENT url end.
Definition crawl_delay (parser : Robots) : option Q := match parser with Rules lines => w_crawl_delay lines USER_AGENT | _ => None end.
(** Source: catalogue-dump/scrapers/base.py, Fetcher.may_fetch. *)
Definition may_fetch (who : nat) (url : string) (ignore_robots obey_robots : bool) : fetch bool :=
  read ← robots who url;
  let parser := fst read in
  let published := crawl_delay parser in
  host ← raise_py (host_of url);
  _ ← with_limiter who (remember_crawl_delay host published);
  f ← self who;
  if obey_robots then mret (can_fetch parser url)
  else if ignore_robots || match fe_robots_policy f with robots_ignore => true | robots_obey => false end then
    _ ← match published with Some p => when (negb (Qeq_bool p 0)) (with_limiter who (set_delay host p)) | None => mret () end;
    mret true
  else mret (can_fetch parser url).

(** ** Rendered pages *)

(** Source: catalogue-dump/scrapers/base.py, Fetcher.render. *)
Definition render (who : nat) (url : string) (wait_ms : Z) (wait_for : option string) : fetch string :=
  f ← self who;
  if negb (fe_browser f) then throw (Blocked "browser rendering disabled")
  else
    let key := w_digest (JList [JStr "render"; JStr url; JDict [("wait_for", match wait_for with Some s => JStr s | None => JNull end); ("wait_ms", JInt wait_ms)]]) in
    stored ← read_cache key url;
    w ← gets id;
    match stored with
    | Some entry => mret (ce_body entry)
    | None =>
        if ⌊ rc_mode (fw_cache w) = replay ⌋ then throw (NotCached ("render " +:+ url +:+ " is not in the cache"))
        else
          host ← raise_py (host_of url);
          document ← in_gate who host (
            _ ← wait who host;
            n ← awaits;
            _ ← event who host (Dispatched Rendered false);
            _ ← meanwhile (w_took n);
            _ ← update who (fun f => f <| fe_lease := (fun l => {| pl_max_bytes := pl_max_bytes l; pl_used_bytes := pl_used_bytes l + fst (w_metered n);
                                                                  pl_requests := pl_requests l + snd (w_metered n) |}) <$> fe_lease f |>);
            document ← catch (lift (w_render n who url)) (fun e => _ ← with_limiter who (record_failure host); throw e);
            _ ← with_limiter who (record_success host);
            _ ← (if is_some (fe_lease f) then count who (fun t => t <| ts_proxy := ts_proxy t + snd (w_metered n) |>) else mret ());
            mret document);
          _ ← count who (fun t => t <| ts_browser := ts_browser t + 1 |> <| ts_browser_rx := ts_browser_rx t + str_len document |>);
          t ← now;
          _ ← store key {| ce_status := 200; ce_url := url; ce_body := document; ce_headers := []; ce_fetched_at := t; ce_kind := "render" |};
          mret document
    end.
(** Source: catalogue-dump/scrapers/base.py, Fetcher.render_through_proxy. *)
Definition render_through_proxy (after who : nat) (url : string) (wait_ms : Z) (wait_for : option string) : fetch string :=
  match after with S _ => render (S who) url wait_ms wait_for | O => throw (Blocked "no proxy fallback is configured") end.
End fetching.
