(* ===== verification/LegacyFetchProperties.v ===== *)
(** What the legacy fetcher guarantees: every request leaves from inside the gate of its host
    and after its gap, a fetch makes a bounded number of them, the limiters stay
    consistent, and what is cached can be replayed. *)
From S2P Require Export LegacyFetch.
From Stdlib Require Import Ascii.
Open Scope Z_scope.

(** * Polite events *)

Definition dispatches (e : Event) : bool := match ev_doing e with Dispatched _ _ => true | _ => false end.
Definition dispatches_of (who : nat) (es : list Event) : nat := length (filter (fun e => (ev_who e =? who)%nat && dispatches e = true) es).
(** What happened between the admission of a task at the gate of its host and the request it
    sends: it drew a gap of the limiter as it was then, and either had none and went on at
    once, or got the lock and leaves at least the gap after the last request the limiter
    knew then, and the limiter knows when. When the request leaves, a task is inside. *)
Definition turn_taken (host : string) (entered : Event) (lock : option Event) (sent : Event) : Prop :=
  exists l0 l2 r, ev_limiter entered = Some l0 /\ ev_limiter sent = Some l2 /\ inside l2 host = true /\ (0 <= r <= 1)%Q /\
  match lock with
  | None => (jittered l0 host r <= 0)%Q /\ ev_clock sent = ev_clock entered
  | Some k => exists l1, ev_limiter k = Some l1 /\ (0 < jittered l0 host r)%Q
      /\ (jittered l0 host r <= ev_clock sent - gap_of (hl_last l1) (key_of l0 host))%Q /\ hl_last l2 !! key_of l0 host = Some (ev_clock sent)
  end.
Definition is_event (who : nat) (host : string) (doing : Doing) (e : Event) : Prop := ev_who e = who /\ ev_host e = host /\ ev_doing e = doing.
(** A request leaves only directly after its task was let in at the gate of the host and
    took its turn. *)
Definition polite (es : list Event) : Prop := forall early e late, es = early ++ e :: late -> dispatches e = true ->
  exists earlier entered lock, early = earlier ++ entered :: option_list lock /\ is_event (ev_who e) (ev_host e) Entered entered
    /\ (forall k, lock = Some k -> is_event (ev_who e) (ev_host e) Locked k) /\ turn_taken (ev_host e) entered lock e.

Lemma polite_nil : polite [].
Proof. intros [|? ?] ? ? [=]. Qed.
Lemma polite_app es1 es2 : polite es1 -> polite es2 -> polite (es1 ++ es2).
Proof.
intros H1 H2 early e late E D. apply app_eq_inv in E as [(k & E1 & E2)|(k & E1 & E2)].
- destruct k as [|e' k]; [|injection E2 as <- E2; by apply (H1 early e k)]. rewrite app_nil_r in E1. simpl in E2.
  destruct (H2 [] e late) as (x & en & lock & E & _); [by rewrite E2|done|]. by destruct x.
- destruct (H2 k e late E2 D) as (x & en & lock & -> & H). exists (es1 ++ x), en, lock. by rewrite E1, app_assoc.
Qed.
Lemma polite_cons e es : dispatches e = false -> polite es -> polite (e :: es).
Proof. intros He Hes. apply (polite_app [e]); [|done]. intros [|? [|? ?]] e' late [=] D; subst; congruence. Qed.
Lemma polite_request who host entered lock sent es : is_event who host Entered entered -> (forall k, lock = Some k -> is_event who host Locked k) ->
  ev_who sent = who -> ev_host sent = host -> turn_taken host entered lock sent -> polite es -> polite (entered :: option_list lock ++ sent :: es).
Proof.
intros He Hk <- <- Ht Hes. assert (P : polite (entered :: option_list lock ++ [sent])).
{ assert (D1 : dispatches entered = false) by (destruct He as (_ & _ & E); unfold dispatches; by rewrite E).
  intros early e late E D. destruct lock as [k|]; simpl in E.
  - assert (D2 : dispatches k = false) by (destruct (Hk k eq_refl) as (_ & _ & E'); unfold dispatches; by rewrite E').
    destruct early as [|? [|? [|? [|? ?]]]]; simplify_eq/=; try congruence. eexists [], _, (Some _). split; [reflexivity|]. split; [done|]. split; [by intros ? [= <-]; apply Hk|done].
  - destruct early as [|? [|? [|? ?]]]; simplify_eq/=; try congruence. eexists [], _, None. split; [reflexivity|]. split; [done|]. by split. }
change (entered :: option_list lock ++ sent :: es) with ((entered :: option_list lock) ++ [sent] ++ es). rewrite app_assoc. by apply polite_app.
Qed.
Lemma dispatches_app who es1 es2 : dispatches_of who (es1 ++ es2) = (dispatches_of who es1 + dispatches_of who es2)%nat.
Proof. unfold dispatches_of. by rewrite filter_app, length_app. Qed.
Lemma dispatches_other who e : dispatches e = false -> dispatches_of who [e] = 0%nat.
Proof. intros E. unfold dispatches_of. by rewrite filter_cons_False by (rewrite E, andb_false_r; done). Qed.

(** * Slots *)

(** The tasks inside the gate of a host. *)
Definition occupied (l : HostLimiter) (host : string) : Z := default 0 (g_active <$> hl_gates l !! host).
Definition occupancy (w : FetchWorld) (who : nat) (host : string) : Z := default 0 ((fun f => occupied (fe_limiter f) host) <$> fw_fetchers w !! who).
(** The other tasks enter no gate. *)
Definition others_only_leave `{Outside} : Prop :=
  (forall n host l h, consistent l -> occupied (w_admit n host l) h <= occupied l h) /\ forall n held l h, occupied (w_others n held l) h <= occupied l h.
Definition given_back `{Outside} (w w' : FetchWorld) : Prop := others_only_leave -> forall who host, occupancy w' who host <= occupancy w who host.
Lemma inside_occupied l host : inside l host = (0 <? occupied l host).
Proof. unfold inside, occupied. by destruct (hl_gates l !! host). Qed.
Lemma given_back_same `{Outside} w w' : (forall who host, occupancy w' who host = occupancy w who host) -> given_back w w'.
Proof. intros E _ who host. by rewrite E. Qed.
Lemma given_back_trans `{Outside} w w1 w2 : given_back w w1 -> given_back w1 w2 -> given_back w w2.
Proof. intros H1 H2 Ho who host. specialize (H1 Ho who host). specialize (H2 Ho who host). lia. Qed.

(** * Sound computations *)

Definition fetcher_ok (f : Fetcher) : Prop :=
  consistent (fe_limiter f) /\ match fe_held f with Some host => inside (fe_limiter f) host = true | None => True end.
(** Every limiter is consistent, and a fetcher that holds a slot is counted at its gate. *)
Definition good (w : FetchWorld) : Prop := Forall fetcher_ok (fw_fetchers w).
Definition held_at (w : FetchWorld) (who : nat) : option string := fw_fetchers w !! who ≫= fe_held.

(** The slots held below [k] are the same, and no slot is left held that was not. *)
Definition kept (k : nat) (w w' : FetchWorld) : Prop :=
  (forall j, (j < k)%nat -> held_at w' j = held_at w j) /\ (forall j, held_at w j = None -> held_at w' j = None).
Lemma kept_same k w w' : (forall j, held_at w' j = held_at w j) -> kept k w w'.
Proof. intros E. split; intros j; by rewrite E. Qed.
Lemma kept_trans k w w1 w2 : kept k w w1 -> kept k w1 w2 -> kept k w w2.
Proof. intros [A1 B1] [A2 B2]. split; [intros j Hj; by rewrite A2, A1|auto]. Qed.
Lemma kept_weaken k k' w w' : (k' <= k)%nat -> kept k w w' -> kept k' w w'.
Proof. intros Hk [A B]. split; [intros j Hj; apply A; lia|done]. Qed.

Section sound.
Context `{L : OutsideLaws}.

(** [m] keeps the limiters good and the slots held below [k], and what it does is polite,
    with at most [b] requests of each fetcher. *)
Record sound_run (k : nat) (b : nat -> nat) (w w' : FetchWorld) : Prop := {
  sr_good : good w';
  sr_held : kept k w w';
  sr_length : length (fw_fetchers w') = length (fw_fetchers w);
  sr_room : given_back w w';
  sr_events : exists es, fw_events w' = fw_events w ++ es /\ polite es /\ forall i, (dispatches_of i es <= b i)%nat;
}.
(** The bound may depend on how [m] ends. *)
Definition sound_by {A} (k : nat) (B : result fetch_exn A -> nat -> nat) (m : fetch A) : Prop := forall w, good w -> sound_run k (B (m w).1) w (m w).2.
Definition sound {A} (k : nat) (b : nat -> nat) (m : fetch A) : Prop := sound_by k (fun _ => b) m.
Definition none : nat -> nat := fun _ => 0%nat.
Definition quiet {A} (k : nat) (m : fetch A) : Prop := sound k none m.

Lemma sound_run_refl k b w : good w -> sound_run k b w w.
Proof. intros Hw. split; [done|by apply kept_same|done|by apply given_back_same|]. exists []. rewrite app_nil_r. repeat split; [apply polite_nil|]. intros i. unfold dispatches_of. simpl. lia. Qed.
Lemma sound_run_trans k b1 b2 w w1 w2 : sound_run k b1 w w1 -> sound_run k b2 w1 w2 -> sound_run k (fun i => b1 i + b2 i)%nat w w2.
Proof.
intros [G1 H1 L1 R1 (es1 & E1 & P1 & C1)] [G2 H2 L2 R2 (es2 & E2 & P2 & C2)]. split; [done|by eapply kept_trans|congruence|by eapply given_back_trans|].
exists (es1 ++ es2). rewrite E2, E1, app_assoc. repeat split; [by apply polite_app|]. intros i. rewrite dispatches_app. specialize (C1 i). specialize (C2 i). lia.
Qed.
Lemma sound_run_weaken k k' b b' w w' : (k' <= k)%nat -> (forall i, (b i <= b' i)%nat) -> sound_run k b w w' -> sound_run k' b' w w'.
Proof.
intros Hk Hb [G1 H1 L1 R1 (es & E & P & C)]. split; [done|by eapply kept_weaken|done|done|exists es; repeat split; [done..|]; intros i; specialize (C i); specialize (Hb i); lia].
Qed.
Lemma sound_weaken {A} k k' b b' (m : fetch A) : (k' <= k)%nat -> (forall i, (b i <= b' i)%nat) -> sound k b m -> sound k' b' m.
Proof. intros Hk Hb Hm w Hw. by eapply sound_run_weaken, Hm. Qed.
Lemma sound_bind {A B} k b1 b2 (m : fetch A) (f : A -> fetch B) : sound k b1 m -> (forall a, sound k b2 (f a)) -> sound k (fun i => b1 i + b2 i)%nat (m ≫= f).
Proof.
intros Hm Hf w Hw. unfold mbind, eff_bind. specialize (Hm w Hw). destruct (m w) as [[a|e] w1]; simpl in *.
- eapply sound_run_trans; [exact Hm|]. apply Hf, Hm.
- eapply sound_run_weaken; [reflexivity| |exact Hm]. simpl. lia.
Qed.
Lemma sound_by_weaken {A} k k' (B C : result fetch_exn A -> nat -> nat) m : (k' <= k)%nat -> (forall r i, (B r i <= C r i)%nat) -> sound_by k B m -> sound_by k' C m.
Proof. intros Hk HB Hm w Hw. eapply sound_run_weaken; [exact Hk|apply HB|by apply Hm]. Qed.
Lemma sound_by_bind {A B} k BM BF (C : result fetch_exn B -> nat -> nat) (m : fetch A) (f : A -> fetch B) :
  sound_by k BM m -> (forall a, sound_by k (BF a) (f a)) -> (forall e i, (BM (Err e) i <= C (Err e) i)%nat) ->
  (forall a w i, (BM (Ok a) i + BF a (f a w).1 i <= C (f a w).1 i)%nat) -> sound_by k C (m ≫= f).
Proof.
intros Hm Hf He Ha w Hw. unfold mbind, eff_bind. specialize (Hm w Hw). destruct (m w) as [[a|e] w1]; simpl in *.
- eapply sound_run_weaken; [reflexivity|apply Ha|]. eapply sound_run_trans; [exact Hm|]. apply Hf, Hm.
- eapply sound_run_weaken; [reflexivity|apply He|exact Hm].
Qed.
Lemma sound_by_then {A B} k (C : result fetch_exn B -> nat -> nat) (m : fetch A) (f : A -> fetch B) :
  quiet k m -> (forall a, sound_by k C (f a)) -> sound_by k C (m ≫= f).
Proof. intros Hm Hf. apply (sound_by_bind k (fun _ => none) (fun _ => C)); [done|done|unfold none; lia|unfold none; lia]. Qed.
Lemma sound_then {A B} k b (m : fetch A) (f : A -> fetch B) : quiet k m -> (forall a, sound k b (f a)) -> sound k b (m ≫= f).
Proof. intros Hm Hf. by apply (sound_bind k none b). Qed.
Lemma quiet_last {A B} k b (m : fetch A) (f : A -> fetch B) : sound k b m -> (forall a, quiet k (f a)) -> sound k b (m ≫= f).
Proof. intros Hm Hf. eapply sound_weaken; [reflexivity| |apply (sound_bind k b none); done]. unfold none. lia. Qed.
Lemma sound_catch {A} k b1 b2 (m : fetch A) h : sound k b1 m -> (forall e, sound k b2 (h e)) -> sound k (fun i => b1 i + b2 i)%nat (catch m h).
Proof.
intros Hm Hh w Hw. unfold catch. specialize (Hm w Hw). destruct (m w) as [[a|e] w1]; simpl in *.
- eapply sound_run_weaken; [reflexivity| |exact Hm]. simpl. lia.
- eapply sound_run_trans; [exact Hm|]. apply Hh, Hm.
Qed.
Lemma quiet_catch {A} k (m : fetch A) h : quiet k m -> (forall e, quiet k (h e)) -> quiet k (catch m h).
Proof. intros Hm Hh. by apply (sound_catch k none none). Qed.
(** A computation that leaves the world alone. *)
Lemma quiet_same {A} k (m : fetch A) : (forall w, (m w).2 = w) -> quiet k m.
Proof. intros E w Hw. rewrite E. by apply sound_run_refl. Qed.
Lemma quiet_ret {A} k (a : A) : quiet k (mret a).
Proof. by apply quiet_same. Qed.
Lemma quiet_throw {A} k e : quiet k (throw e : fetch A).
Proof. by apply quiet_same. Qed.
Lemma quiet_lift {A} k (r : result fetch_exn A) : quiet k (lift r).
Proof. by apply quiet_same. Qed.
Lemma quiet_gets {A} k (g : FetchWorld -> A) : quiet k (gets g).
Proof. by apply quiet_same. Qed.
Lemma quiet_raise_py {A} k (r : result pyexn A) : quiet k (raise_py r).
Proof. destruct r; by apply quiet_same. Qed.
Lemma quiet_self k who : quiet k (self who).
Proof. apply quiet_same. intros w. unfold self. by destruct (_ !! _). Qed.
Lemma quiet_when k b m : quiet k m -> quiet k (when b m).
Proof. destruct b; [done|intros _; apply quiet_ret]. Qed.
(** One that changes only the clock and the cache. *)
Lemma quiet_frame {A} k (m : fetch A) : (forall w, fw_fetchers (m w).2 = fw_fetchers w /\ fw_events (m w).2 = fw_events w) -> quiet k m.
Proof.
intros E w Hw. destruct (E w) as [E1 E2]. split; [unfold good; by rewrite E1|apply kept_same; intros j; unfold held_at; by rewrite E1|by rewrite E1|apply given_back_same; intros; unfold occupancy; by rewrite E1|].
exists []. rewrite E2, app_nil_r. repeat split; [apply polite_nil|]. done.
Qed.
Lemma quiet_event k who host doing : dispatches (event_at who host doing (Build_FetchWorld 0 [] (Build_ResponseCache off None 0 0 0 0 ∅) [])) = false -> quiet k (event who host doing).
Proof.
intros He w Hw. assert (D : dispatches (event_at who host doing w) = false) by exact He. split; [done|by apply kept_same|done|by apply given_back_same|].
exists [event_at who host doing w]. repeat split; [by apply polite_cons, polite_nil|]. intros i. by rewrite dispatches_other.
Qed.
Lemma held_alter g who w j : (forall f, fe_held (g f) = fe_held f) -> alter g who (fw_fetchers w) !! j ≫= fe_held = held_at w j.
Proof.
intros Hg. unfold held_at. destruct (decide (j = who)) as [->|Hn]; [rewrite list_lookup_alter_eq|by rewrite list_lookup_alter_ne].
destruct (fw_fetchers w !! who); simpl; [apply Hg|done].
Qed.
Lemma occupancy_alter g who w j host : (forall f, occupied (fe_limiter (g f)) host = occupied (fe_limiter f) host) ->
  default 0 ((fun f => occupied (fe_limiter f) host) <$> alter g who (fw_fetchers w) !! j) = occupancy w j host.
Proof.
intros Hg. unfold occupancy. destruct (decide (j = who)) as [->|Hn]; [rewrite list_lookup_alter_eq|by rewrite list_lookup_alter_ne].
destruct (fw_fetchers w !! who); simpl; [apply Hg|done].
Qed.
Lemma quiet_update k who g : (forall f, fe_held (g f) = fe_held f /\ (forall host, occupied (fe_limiter (g f)) host = occupied (fe_limiter f) host)
  /\ (fetcher_ok f -> fetcher_ok (g f))) -> quiet k (update who g).
Proof.
intros Hg w Hw. split; simpl.
- unfold good. simpl. apply Forall_alter; [done|]. intros f Hf. by apply Hg.
- apply kept_same. intros j. apply held_alter. intros f. apply Hg.
- apply length_alter.
- apply given_back_same. intros j host. apply (occupancy_alter g who w). intros f. apply Hg.
- exists []. rewrite app_nil_r. repeat split; [apply polite_nil|done].
Qed.

(** ** The limiter *)

(** An operation that keeps a limiter consistent and who is inside its gates. *)
Definition pace_op (g : HostLimiter -> HostLimiter) : Prop :=
  forall l, (consistent l -> consistent (g l)) /\ forall host, occupied (g l) host = occupied l host.
Lemma quiet_with_limiter k who g : pace_op g -> quiet k (with_limiter who g).
Proof.
intros Hg. apply quiet_update. intros f. destruct (Hg (fe_limiter f)) as [HC HI]. split; [done|]. split; [exact HI|]. intros [C I]. split; [by apply HC|]. simpl.
destruct (fe_held f); [by rewrite inside_occupied, HI, <- inside_occupied|done].
Qed.
Lemma quiet_count k who g : quiet k (count who g).
Proof. apply quiet_update. done. Qed.
Lemma occupied_resize host n l h : occupied (resize_gate host n l) h = occupied l h.
Proof.
unfold resize_gate, occupied. destruct (hl_gates l !! host) as [g|] eqn:E; [simpl|done].
destruct (decide (h = host)) as [->|Hn]; [by rewrite lookup_insert_eq, E|by rewrite lookup_insert_ne].
Qed.
Lemma pace_success host : pace_op (record_success host).
Proof.
intros l. split; [apply consistent_success|]. intros h. unfold record_success. destruct (_ && _); [done|]. destruct (_ <? _); [done|].
case_match; [change (occupied (resize_gate host (Z.min (hl_maximum l) (slots_of l host + 1)) (l <| hl_streaks := <[host := 0]> (hl_streaks l) |> <| hl_slots := <[host := Z.min (hl_maximum l) (slots_of l host + 1)]> (hl_slots l) |>)) h = occupied l h)|];
  rewrite occupied_resize; done.
Qed.
Lemma pace_failure host : pace_op (record_failure host).
Proof.
intros l. split; [apply consistent_failure|]. intros h. unfold record_failure. set (l1 := resize_gate _ _ _).
assert (E : occupied l1 h = occupied l h) by (unfold l1; by rewrite occupied_resize). rewrite <- E. by destruct (hl_published l1 !! _).
Qed.
Lemma pace_headers host hs : pace_op (observe_headers host hs).
Proof. intros l. split; [apply consistent_headers|]. intros h. unfold observe_headers. by repeat case_match. Qed.
Lemma pace_delay host d : pace_op (set_delay host d).
Proof. intros l. by split; [apply consistent_set_delay|]. Qed.
Lemma pace_waited host t : pace_op (waited host t).
Proof. intros l. split; [|done]. by intros [C1 C2 C3 C4 C5 C6]. Qed.
Lemma pace_remember host d : pace_op (remember_crawl_delay host d).
Proof. intros l. split; [apply consistent_remember|]. intros h. unfold remember_crawl_delay. by repeat case_match. Qed.

Lemma others_ok n f : fetcher_ok f -> fetcher_ok (f <| fe_limiter := w_others n (fe_held f) (fe_limiter f) |>).
Proof.
intros [C I]. destruct (others_law n (fe_held f) (fe_limiter f)) as [R HI]. split; simpl; [by eapply consistent_reachable|]. destruct (fe_held f); [by apply HI|done].
Qed.
Lemma quiet_meanwhile k q : quiet k (meanwhile q).
Proof.
intros w Hw. unfold meanwhile, awaits, mbind, eff_bind. simpl. split; simpl.
- apply Forall_fmap. eapply Forall_impl; [exact Hw|]. intros f. apply others_ok.
- apply kept_same. intros j. unfold held_at. simpl. rewrite list_lookup_fmap. by destruct (fw_fetchers w !! j).
- apply length_fmap.
- intros [_ Ho] j host. unfold occupancy. simpl. rewrite list_lookup_fmap. destruct (fw_fetchers w !! j); simpl; [apply Ho|done].
- exists []. rewrite app_nil_r. repeat split; [apply polite_nil|done].
Qed.
Lemma quiet_sleep k who host d : quiet k (sleep who host d).
Proof.
destruct d; [|apply quiet_throw]. apply sound_then; [apply quiet_gets|intros n]. apply sound_then; [apply quiet_meanwhile|intros []]. by apply quiet_event.
Qed.

(** ** The gate *)

(** What a task may do inside the gate of a host: everything is polite after the event of
    its admission, and it does not give its slot away. *)
Definition holds (w : FetchWorld) (who : nat) (host : string) : Prop := forall f, fw_fetchers w !! who = Some f -> fe_held f = Some host.
Definition sound_inside {A} (who : nat) (host : string) (B : result fetch_exn A -> nat -> nat) (m : fetch A) : Prop := forall w, good w -> holds w who host ->
  let w' := (m w).2 in good w' /\ kept (S who) w w' /\ length (fw_fetchers w') = length (fw_fetchers w) /\ given_back w w'
  /\ exists es, fw_events w' = fw_events w ++ es /\ polite (event_at who host Entered w :: es) /\ forall i, (dispatches_of i es <= B (m w).1 i)%nat.

Lemma good_at w who f : good w -> fw_fetchers w !! who = Some f -> fetcher_ok f.
Proof. intros Hw Hf. by eapply Forall_lookup in Hw. Qed.
Lemma inside_enter l host g : hl_gates l !! host = Some g -> 0 <= g_active g < g_limit g -> inside (at_gate host (gate_enter 0) l) host = true.
Proof.
intros E Hg. unfold at_gate, inside. rewrite E. simpl. rewrite lookup_insert_eq. unfold gate_enter. rewrite (proj2 (Z.leb_gt _ _)) by lia. simpl. apply Z.ltb_lt. lia.
Qed.
Lemma admitted_ok n host l : consistent l ->
  let l' := at_gate host (gate_enter 0) (w_admit n host l) in consistent l' /\ inside l' host = true.
Proof.
intros C. destruct (admit_law n host l C) as (R & g & Eg & Hg). assert (C' : consistent (w_admit n host l)) by (eapply consistent_reachable; [exact R|by apply consistent_with_gate]).
split.
- apply consistent_at_gate; [intros g' _ Hm (? & ? & _); by apply gate_enter_ok|apply gate_limit_enter|done].
- eapply inside_enter; [exact Eg|]. destruct (ok_gates _ C' host g Eg) as [(? & ? & _) _]. lia.
Qed.
Lemma exit_ok host l : consistent l -> inside l host = true -> consistent (at_gate host gate_exit l).
Proof.
intros C I. unfold inside in I. destruct (hl_gates l !! host) as [g|] eqn:E; [|done]. apply Z.ltb_lt in I. eapply consistent_step; [exact C|]. by eapply Exit.
Qed.
Lemma occupied_at_gate host f l h : occupied (at_gate host f l) h =
  if bool_decide (h = host) then match hl_gates l !! host with Some g => g_active (f g) | None => 0 end else occupied l h.
Proof.
unfold at_gate, occupied. case_bool_decide as E.
- subst h. destruct (hl_gates l !! host) eqn:Eg; simpl; [by rewrite lookup_insert_eq|by rewrite Eg].
- destruct (hl_gates l !! host) eqn:Eg; simpl; [by rewrite lookup_insert_ne|done].
Qed.
(** A task that comes takes at most one place, and one that goes leaves one. *)
Lemma occupied_enter host l h : occupied (at_gate host (gate_enter 0) l) h <= occupied l h + (if bool_decide (h = host) then 1 else 0).
Proof.
rewrite occupied_at_gate. case_bool_decide as E; [|lia]. subst h. unfold occupied. destruct (hl_gates l !! host) as [g|]; simpl; [|lia].
unfold gate_enter. destruct (_ <=? _); simpl; lia.
Qed.
Lemma occupied_exit host l h : inside l host = true -> occupied (at_gate host gate_exit l) h = occupied l h - (if bool_decide (h = host) then 1 else 0).
Proof.
intros I. rewrite occupied_at_gate. case_bool_decide as E; [|lia]. subst h. unfold occupied, inside in *. destruct (hl_gates l !! host) as [g|]; simpl; [|done].
unfold gate_exit, notify. destruct g as [n a wt wk]. by destruct wt.
Qed.
(** The states in which a task has entered, and has left. *)
Definition here (w : FetchWorld) (who : nat) (host : string) (j : nat) (h : string) : Z :=
  if bool_decide (j = who /\ h = host /\ (who < length (fw_fetchers w))%nat) then 1 else 0.
Definition entering (who : nat) (host : string) (n : nat) (w : FetchWorld) : FetchWorld :=
  w <| fw_fetchers := alter (fun f => f <| fe_limiter := at_gate host (gate_enter 0) (w_admit n host (fe_limiter f)) |> <| fe_held := Some host |>) who (fw_fetchers w) |>.
Definition leaving (who : nat) (host : string) (w : FetchWorld) : FetchWorld :=
  w <| fw_fetchers := alter (fun f => f <| fe_limiter := at_gate host gate_exit (fe_limiter f) |> <| fe_held := None |>) who (fw_fetchers w) |>.
Lemma enter_room who host n w j h : good w -> others_only_leave -> occupancy (entering who host n w) j h <= occupancy w j h + here w who host j h.
Proof.
intros Hw [Ho _]. unfold occupancy, entering, here. simpl. destruct (decide (j = who)) as [->|Hn].
- rewrite list_lookup_alter_eq. destruct (fw_fetchers w !! who) as [f|] eqn:Ef; simpl; [|case_bool_decide; lia]. destruct (Forall_lookup_1 _ _ _ _ Hw Ef) as [C _].
  pose proof (occupied_enter host (w_admit n host (fe_limiter f)) h) as H1. pose proof (Ho n host (fe_limiter f) h C) as H2. apply lookup_lt_Some in Ef.
  case_bool_decide; case_bool_decide; try lia. naive_solver.
- rewrite list_lookup_alter_ne by done. case_bool_decide; lia.
Qed.
Lemma leave_room who host w j h : (forall f, fw_fetchers w !! who = Some f -> inside (fe_limiter f) host = true) ->
  occupancy (leaving who host w) j h = occupancy w j h - here w who host j h.
Proof.
intros Hi. unfold occupancy, leaving, here. simpl. destruct (decide (j = who)) as [->|Hn].
- rewrite list_lookup_alter_eq. destruct (fw_fetchers w !! who) as [f|] eqn:Ef; simpl.
  + rewrite occupied_exit by by apply Hi. apply lookup_lt_Some in Ef. case_bool_decide; case_bool_decide; try lia; naive_solver.
  + apply lookup_ge_None in Ef. case_bool_decide; [lia|done].
- rewrite list_lookup_alter_ne by done. case_bool_decide; [naive_solver|lia].
Qed.
Lemma entering_good who host n w : good w -> good (entering who host n w) /\ holds (entering who host n w) who host
  /\ forall j, j <> who -> held_at (entering who host n w) j = held_at w j.
Proof.
intros Hw. unfold good, held_at, holds, entering. simpl. split_and!.
- apply Forall_alter; [done|]. intros f Hf [C _]. by apply admitted_ok.
- intros f Hf. rewrite list_lookup_alter_eq in Hf. destruct (fw_fetchers w !! who) as [f0|]; [|done]. by injection Hf as <-.
- intros j Hj. by rewrite list_lookup_alter_ne by done.
Qed.
Lemma leaving_good who host w : good w -> holds w who host -> good (leaving who host w) /\ held_at (leaving who host w) who = None
  /\ forall j, j <> who -> held_at (leaving who host w) j = held_at w j.
Proof.
intros Hw Hh. unfold good, held_at, leaving. simpl. split_and!.
- apply Forall_alter; [done|]. intros f Hf [C I]. rewrite (Hh f Hf) in I. split; [simpl; by apply exit_ok|done].
- rewrite list_lookup_alter_eq. by destruct (fw_fetchers w !! who).
- intros j Hj. by rewrite list_lookup_alter_ne by done.
Qed.
Lemma holds_kept w w' who host : holds w who host -> kept (S who) w w' -> length (fw_fetchers w') = length (fw_fetchers w) -> holds w' who host.
Proof.
intros Hh [K _] Hl f Hf. specialize (K who (Nat.lt_succ_diag_r _)). unfold held_at in K. rewrite Hf in K. simpl in K. rewrite K.
destruct (fw_fetchers w !! who) as [f1|] eqn:E; simpl; [by apply Hh|]. apply lookup_ge_None in E. apply lookup_lt_Some in Hf. lia.
Qed.
Lemma holds_inside w who host f : good w -> holds w who host -> fw_fetchers w !! who = Some f -> inside (fe_limiter f) host = true.
Proof. intros Hw Hh Hf. destruct (Forall_lookup_1 _ _ _ _ Hw Hf) as [_ I]. by rewrite (Hh f Hf) in I. Qed.

Lemma sound_in_gate {A} who host B (m : fetch A) : sound_inside who host B m -> sound_by who B (in_gate who host m).
Proof.
intros Hm w Hw. set (w1 := entering who host (length (fw_events w)) w). set (w1' := w1 <| fw_events := fw_events w ++ [event_at who host Entered w1] |>).
destruct (entering_good who host (length (fw_events w)) w Hw) as (G1 & F1 & H1). specialize (Hm w1' G1 F1).
set (w2 := (m w1').2) in Hm. set (w3 := leaving who host w2). set (w4 := w3 <| fw_events := fw_events w3 ++ [event_at who host Left w3] |>).
assert (E : in_gate who host m w = ((m w1').1, w4)) by (unfold w4, w3, w2, in_gate, mbind, eff_bind, finally; simpl; change (_ <| fw_events := _ |>) with w1' at 1; by destruct (m w1') as [[]]).
rewrite E. simpl. destruct Hm as (G2 & H2 & L2 & R2 & es & E2 & P2 & C2).
assert (F2 : holds w2 who host) by (apply (holds_kept w1'); done). destruct (leaving_good who host w2 G2 F2) as (G3 & N3 & H3).
assert (L1 : length (fw_fetchers w1) = length (fw_fetchers w)) by apply length_alter. assert (L3 : length (fw_fetchers w3) = length (fw_fetchers w2)) by apply length_alter.
split; [exact G3| |change (length (fw_fetchers w3) = length (fw_fetchers w)); rewrite L3; etransitivity; [exact L2|exact L1]| |].
- split; intros j Hj; change (held_at w4 j) with (held_at w3 j).
  + unfold w3. rewrite H3, <- H1 by lia. apply H2. lia.
  + destruct (decide (j = who)) as [->|Hn]; [exact N3|]. unfold w3. rewrite H3 by done. apply H2. change (held_at w1 j = None). unfold w1. by rewrite H1.
- intros Ho j h. change (occupancy w4 j h) with (occupancy w3 j h). unfold w3. rewrite leave_room by (intros f; by apply holds_inside).
  pose proof (enter_room who host (length (fw_events w)) w j h Hw Ho) as R1. pose proof (R2 Ho j h) as R2'. change (occupancy w1' j h) with (occupancy w1 j h) in R2'. unfold w1 in R2'.
  unfold here in *. rewrite L2. change (length (fw_fetchers w1')) with (length (fw_fetchers w1)). rewrite L1. lia.
- exists (event_at who host Entered w1 :: es ++ [event_at who host Left w3]). change (fw_events w4) with (fw_events w2 ++ [event_at who host Left w3]). rewrite E2. simpl. rewrite <- !app_assoc. repeat split.
  + apply (polite_app (event_at who host Entered w1 :: es)); [exact P2|]. by apply polite_cons, polite_nil.
  + intros i. change (event_at who host Entered w1 :: es ++ [event_at who host Left w3]) with ([event_at who host Entered w1] ++ es ++ [event_at who host Left w3]).
    rewrite !dispatches_app, !dispatches_other by done. specialize (C2 i). lia.
Qed.

(** A computation that begins with a request. *)
Definition sound_request {A} (who : nat) (host : string) (B : result fetch_exn A -> nat -> nat) (m : fetch A) : Prop := forall w, good w ->
  let w' := (m w).2 in good w' /\ kept (S who) w w' /\ length (fw_fetchers w') = length (fw_fetchers w) /\ given_back w w'
  /\ exists manner agent es, fw_events w' = fw_events w ++ event_at who host (Dispatched manner agent) w :: es /\ polite es
       /\ forall i, (dispatches_of i (event_at who host (Dispatched manner agent) w :: es) <= B (m w).1 i)%nat.
Definition one (who : nat) : nat -> nat := fun i => if (i =? who)%nat then 1%nat else 0%nat.
Lemma dispatches_one who host manner agent w i : dispatches_of i [event_at who host (Dispatched manner agent) w] = one who i.
Proof.
unfold dispatches_of, one. rewrite (Nat.eqb_sym i who). destruct (who =? i)%nat eqn:E; [rewrite filter_cons_True; [done|]|rewrite filter_cons_False; [done|]]; simpl; by rewrite E.
Qed.
Lemma dispatches_after who host manner agent w es i : dispatches_of i (event_at who host (Dispatched manner agent) w :: es) = (one who i + dispatches_of i es)%nat.
Proof. change (?x :: es) with ([x] ++ es). by rewrite dispatches_app, dispatches_one. Qed.
Lemma request_dispatch {A} who host manner agent B (m : nat -> fetch A) : (forall n, sound_by (S who) B (m n)) ->
  sound_request who host (fun r i => one who i + B r i)%nat (n ← awaits; _ ← event who host (Dispatched manner agent); m n).
Proof.
intros Hm w Hw. unfold awaits, event, mbind, eff_bind, gets, modify. cbn [fst snd]. set (n := length _). set (w1 := w <| fw_events := _ |>).
assert (G1 : good w1) by done. assert (E1 : fw_events w1 = fw_events w ++ [event_at who host (Dispatched manner agent) w]) by done.
assert (H1 : fw_fetchers w1 = fw_fetchers w) by done. clearbody w1.
destruct (Hm n w1 G1) as [G Hh L0 R0 (es & E & P & C)]. split_and!; [done| |congruence| |].
- eapply kept_trans; [apply kept_same|exact Hh]. intros j. unfold held_at. by rewrite H1.
- eapply given_back_trans; [apply given_back_same|exact R0]. intros j h. unfold occupancy. by rewrite H1.
- exists manner, agent, es. rewrite E, E1, <- app_assoc. repeat split; [done|]. intros i. specialize (C i). rewrite dispatches_after. lia.
Qed.
Lemma request_bind {A B} who host BM BF (C : result fetch_exn B -> nat -> nat) (m : fetch A) (f : A -> fetch B) :
  sound_request who host BM m -> (forall a, sound_by (S who) (BF a) (f a)) -> (forall e i, (BM (Err e) i <= C (Err e) i)%nat) ->
  (forall a r i, (BM (Ok a) i + BF a r i <= C r i)%nat) -> sound_request who host C (m ≫= f).
Proof.
intros Hm Hf He Ha w Hw. unfold mbind, eff_bind. specialize (Hm w Hw). destruct (m w) as [[a|e] w1]; simpl in *; destruct Hm as (G1 & H1 & L1 & R1 & manner & agent & es1 & E1 & P1 & C1).
- destruct (Hf a w1 G1) as [G Hh L0 R0 (es & E & P & D)]. split_and!; [done|by eapply kept_trans|congruence|by eapply given_back_trans|].
  exists manner, agent, (es1 ++ es). rewrite E, E1, <- app_assoc. repeat split; [by apply polite_app|]. intros i. specialize (C1 i). specialize (D i). specialize (Ha a (f a w1).1 i).
    rewrite dispatches_after in *. rewrite dispatches_app. lia.
- split_and!; try done. exists manner, agent, es1. split_and!; try done. intros i. specialize (C1 i). specialize (He e i). lia.
Qed.
Lemma request_catch {A} who host BM BH (C : result fetch_exn A -> nat -> nat) (m : fetch A) h :
  sound_request who host BM m -> (forall e, sound_by (S who) (BH e) (h e)) -> (forall a i, (BM (Ok a) i <= C (Ok a) i)%nat) ->
  (forall e r i, (BM (Err e) i + BH e r i <= C r i)%nat) -> sound_request who host C (catch m h).
Proof.
intros Hm Hh Ha He w Hw. unfold catch. specialize (Hm w Hw). destruct (m w) as [[a|e] w1]; simpl in *; destruct Hm as (G1 & H1 & L1 & R1 & manner & agent & es1 & E1 & P1 & C1).
- split_and!; try done. exists manner, agent, es1. split_and!; try done. intros i. specialize (C1 i). specialize (Ha a i). lia.
- destruct (Hh e w1 G1) as [G Hheld L0 R0 (es & E & P & D)]. split_and!; [done|by eapply kept_trans|congruence|by eapply given_back_trans|].
  exists manner, agent, (es1 ++ es). rewrite E, E1, <- app_assoc. repeat split; [by apply polite_app|]. intros i. specialize (C1 i). specialize (D i). specialize (He e (h e w1).1 i).
    rewrite dispatches_after in *. rewrite dispatches_app. lia.
Qed.

(** ** The turn *)

(** What taking a turn comes to: the task goes on at once, or gets the lock and sleeps. *)
Inductive took_turn (who : nat) (host : string) (w w' : FetchWorld) : Prop :=
| At_once f r : fw_fetchers w !! who = Some f -> (0 <= r <= 1)%Q -> (jittered (fe_limiter f) host r <= 0)%Q -> w' = w -> took_turn who host w w'
| In_turn f f1 f2 r wl : fw_fetchers w !! who = Some f -> (0 <= r <= 1)%Q -> (0 < jittered (fe_limiter f) host r)%Q ->
    fw_fetchers wl !! who = Some f1 -> fw_fetchers w' !! who = Some f2 ->
    (jittered (fe_limiter f) host r <= fw_clock w' - gap_of (hl_last (fe_limiter f1)) (key_of (fe_limiter f) host))%Q ->
    hl_last (fe_limiter f2) !! key_of (fe_limiter f) host = Some (fw_clock w') -> fw_events w' = fw_events w ++ [event_at who host Locked wl] -> took_turn who host w w'.
Lemma quiet_wait k who host : quiet k (wait who host).
Proof.
unfold wait. apply sound_then; [apply quiet_gets|intros n]. apply sound_then; [apply quiet_self|intros f]. cbv zeta. destruct (Qle_bool _ 0); [apply quiet_ret|].
apply sound_then; [apply quiet_meanwhile|intros _]. apply sound_then; [by apply quiet_event|intros _]. apply sound_then; [apply quiet_self|intros f']. apply sound_then; [apply quiet_gets|intros t].
apply sound_then; [apply quiet_meanwhile|intros _]. apply sound_then; [apply quiet_gets|intros t']. apply quiet_with_limiter, pace_waited.
Qed.
(** When it does not raise, a turn was taken. *)
Lemma wait_turn who host w : match wait who host w with
  | (Ok _, w') => took_turn who host w w'
  | (Err _, w') => w' = w
  end.
Proof.
unfold wait, awaits, mbind, eff_bind, gets. unfold self at 1. destruct (fw_fetchers w !! who) as [f|] eqn:Ef; [|done]. cbv zeta.
pose proof (random_law (length (fw_events w))) as Hr. set (r := w_random _) in *. set (gap := jittered (fe_limiter f) host r). destruct (Qle_bool gap 0) eqn:Eg.
{ apply Qle_bool_iff in Eg. by eapply At_once. }
assert (Hgap : (0 < gap)%Q) by (destruct (Qlt_le_dec 0 gap) as [|Hle]; [done|]; apply Qle_bool_iff in Hle; congruence).
set (key := key_of (fe_limiter f) host). unfold meanwhile at 1, awaits, mbind, eff_bind, gets, modify. simpl.
set (wl := w <| fw_clock := _ |> <| fw_fetchers := _ |>). unfold event, modify. set (w1 := wl <| fw_events := _ |>).
assert (El : exists f1, fw_fetchers wl !! who = Some f1) by (unfold wl; simpl; rewrite list_lookup_fmap, Ef; by eexists). destruct El as [f1 Ef1].
unfold self. change (fw_fetchers w1) with (fw_fetchers wl). rewrite Ef1. unfold now, gets.
set (pause := pause_before (fe_limiter f1) key gap (fw_clock w1)). set (slept := if Qle_bool pause 0 then 0%Q else _).
unfold meanwhile, awaits, mbind, eff_bind, gets, modify. simpl. set (w2 := w1 <| fw_clock := _ |> <| fw_fetchers := _ |>).
assert (E2 : exists f2, fw_fetchers w2 !! who = Some f2) by (eexists; exact (eq_trans (list_lookup_fmap _ (fw_fetchers w1) who) (f_equal (fmap _) Ef1))). destruct E2 as [f2 Ef2].
unfold with_limiter, update, modify. eapply (In_turn who host w _ f f1 _ r wl); [done|done|done|exact Ef1|exact (eq_trans (list_lookup_alter_eq _ (fw_fetchers w2) who) (f_equal (fmap _) Ef2))| | |reflexivity].
- apply (pause_keeps_the_gap _ key gap (fw_clock w1)). change (fw_clock w1 + pause <= fw_clock w1 + slept)%Q. unfold slept.
  destruct (Qle_bool pause 0) eqn:Ep; [apply Qle_bool_iff in Ep; lra|]. pose proof (late_law (length (fw_events w))) as Hl. lra.
- simpl. by rewrite lookup_insert_eq.
Qed.
(** So what leaves then leaves in its turn. *)
Lemma turn_polite who host manner agent w w' es : took_turn who host w w' -> good w' -> holds w' who host -> polite es ->
  exists lock, fw_events w' = fw_events w ++ option_list lock /\ (forall k, lock = Some k -> dispatches k = false)
    /\ polite (event_at who host Entered w :: option_list lock ++ event_at who host (Dispatched manner agent) w' :: es).
Proof.
intros Ht Hw Hh Hes. destruct Ht as [f r Hf Hr Hg ->|f f1 f2 r wl Hf Hr Hg Hf1 Hf2 Hgap Hlast He].
- exists None. rewrite app_nil_r. split; [done|]. split; [done|]. apply (polite_request who host _ None); [done|done|done|done| |done].
  exists (fe_limiter f), (fe_limiter f), r. simpl. rewrite Hf. split_and!; try done; try apply Hr. by eapply holds_inside.
- exists (Some (event_at who host Locked wl)). split; [done|]. split; [by intros k [= <-]|].
  apply (polite_request who host _ (Some _)); [done|by intros k [= <-]|done|done| |done].
  exists (fe_limiter f), (fe_limiter f2), r. simpl. rewrite Hf, Hf2. split_and!; try done; try apply Hr; [by eapply holds_inside|].
  exists (fe_limiter f1). by rewrite Hf1.
Qed.
Lemma request_in_turn {A} who host B (m : fetch A) : sound_request who host B m -> sound_inside who host B (_ ← wait who host; m).
Proof.
intros Hm w Hw Hh. pose proof (quiet_wait (S who) who host w Hw) as [G1 H1 L1 R1 (es0 & E0 & P0 & C0)]. pose proof (wait_turn who host w) as T.
unfold mbind, eff_bind. destruct (wait who host w) as [[[]|e] w1]; simpl in *.
- destruct (Hm w1 G1) as (G3 & H3 & L3 & R3 & manner & agent & es & E3 & P3 & C3).
  destruct (turn_polite who host manner agent w w1 es T G1 (holds_kept w w1 who host Hh H1 L1) P3) as (lock & El & Dl & P).
  split_and!; [done|by eapply kept_trans|congruence|by eapply given_back_trans|].
  exists (option_list lock ++ event_at who host (Dispatched manner agent) w1 :: es). rewrite E3, El, <- app_assoc. repeat split; [exact P|].
  intros i. rewrite dispatches_app. destruct lock as [k|]; simpl; [rewrite dispatches_other by by apply Dl|]; specialize (C3 i); simpl; lia.
- subst w1. split_and!; [done|done|done|done|]. exists []. rewrite app_nil_r. repeat split; [by apply polite_cons, polite_nil|]. intros i. unfold dispatches_of. simpl. lia.
Qed.

(** ** Fetching *)

Lemma request_send who host manner agent ask h : sound_request who host (fun _ => one who) (send who host manner agent ask h).
Proof.
intros w Hw. pose proof (request_dispatch who host manner agent (fun _ => none) (fun n => _ ← meanwhile (w_took n); lift (w_send n who manner ask h))) as R.
unfold none in R. specialize (R ltac:(intros n; apply (sound_then (S who) none); [apply quiet_meanwhile|intros; apply quiet_lift]) w Hw).
destruct R as (? & ? & ? & ? & m & a & es & ? & ? & C). split_and!; try done. exists m, a, es. split_and!; try done. intros i. specialize (C i). unfold send. lia.
Qed.
Lemma quiet_charge k who tx rx : quiet k (charge who tx rx).
Proof.
unfold charge. apply sound_then; [apply quiet_self|intros f]. destruct (fe_lease f); [|apply quiet_ret]. apply sound_then; [by apply quiet_update|intros; apply quiet_count].
Qed.
Lemma quiet_record_answer k who ask h r : quiet k (record_answer who ask h r).
Proof. unfold record_answer. apply sound_then; [apply quiet_self|intros f]. apply sound_then; [apply quiet_count|intros; apply quiet_charge]. Qed.
Lemma quiet_ensure_lease k who : quiet k (ensure_lease who).
Proof. unfold ensure_lease. apply sound_then; [apply quiet_self|intros f]. destruct (fe_lease f) as [l|]; [destruct (request_allowed l)|]; try apply quiet_ret. apply quiet_throw. Qed.
Lemma quiet_serve_stale k who entry ask : quiet k (serve_stale who entry ask).
Proof. unfold serve_stale. apply sound_then; [apply quiet_count|intros; apply quiet_ret]. Qed.
Lemma quiet_store k key entry : quiet k (store key entry).
Proof. unfold store. apply sound_then; [apply quiet_gets|intros w]. apply sound_then; [apply quiet_raise_py|intros c]. by apply quiet_frame. Qed.
Lemma quiet_read_cache k key url : quiet k (read_cache key url).
Proof. unfold read_cache. apply sound_then; [apply quiet_gets|intros w]. apply sound_then; [apply quiet_raise_py|intros c]. apply sound_then; [by apply quiet_frame|intros; apply quiet_ret]. Qed.

(** The fallback costs at most [bf], the fetchers before it aside. *)
Definition fallback_ok (who : nat) (bf : nat -> nat) (fallback : option (bool -> fetch Response)) : Prop :=
  match fallback with Some f => forall agent, sound (S who) bf (f agent) | None => True end.
(** An attempt that goes on has not used the fallback. *)
Definition attempt_cost (base bf : nat -> nat) (r : result fetch_exn Outcome) (i : nat) : nat :=
  match r with Ok (Answered _) | Ok Again => base i | _ => base i + bf i end%nat.
Lemma sound_by_quiet {A} k (C : result fetch_exn A -> nat -> nat) (m : fetch A) : quiet k m -> sound_by k C m.
Proof. apply sound_by_weaken; [done|unfold none; lia]. Qed.
Lemma returned_cost k bf (m : fetch Response) : sound k bf m -> sound_by k (attempt_cost none bf) (r ← m; mret (Returned r)).
Proof.
intros Hm w Hw. specialize (Hm w Hw). unfold mbind, eff_bind. destruct (m w) as [[a|e] w1]; (eapply sound_run_weaken; [done| |exact Hm]); simpl; unfold none; lia.
Qed.
Lemma sound_ask_host who host ask h agent stale fallback last bf : fallback_ok who bf fallback ->
  sound_by who (attempt_cost (one who) bf) (ask_host who host ask h agent stale fallback last).
Proof.
intros Hf. apply sound_in_gate, request_in_turn.
apply (request_bind who host (fun _ => one who) (fun _ => attempt_cost none bf)).
- apply (request_catch who host (fun _ => one who) (fun _ _ => none)); [|intros e; apply quiet_ret|done|unfold none; lia].
  apply (request_bind who host (fun _ => one who) (fun _ _ => none)); [apply request_send|intros; apply quiet_ret|done|unfold none; lia].
- intros [r|e]; [apply sound_by_quiet, sound_then; [apply quiet_record_answer|intros; apply quiet_ret]|].
  destruct e as [name timeout| | | | | | |]; try apply sound_by_quiet, quiet_throw.
  apply sound_by_then; [apply quiet_with_limiter, pace_failure|intros _]. apply sound_by_then; [apply quiet_count|intros _]. apply sound_by_then; [apply quiet_self|intros f].
  destruct last.
  + destruct (prefers_stale f stale ask) as [entry|]; [apply sound_by_quiet, sound_then; [apply quiet_serve_stale|intros; apply quiet_ret]|].
    destruct fallback as [fallback|]; [apply returned_cost, Hf|apply sound_by_quiet, quiet_throw].
  + cbv zeta. apply sound_by_quiet, sound_then; [apply quiet_sleep|intros; apply quiet_ret].
- simpl. unfold none. lia.
- intros a [[r|r|]|e] i; simpl; unfold none; lia.
Qed.
Lemma sound_weigh who host ask agent stale fallback n r bf : fallback_ok who bf fallback ->
  sound_by (S who) (attempt_cost none bf) (weigh who host ask agent stale fallback n r).
Proof.
intros Hf. unfold weigh. apply sound_by_then; [apply quiet_with_limiter, pace_headers|intros _]. destruct (_ && _).
{ apply sound_by_quiet, sound_then; [apply quiet_with_limiter, pace_success|intros; apply quiet_ret]. }
apply sound_by_then; [apply quiet_with_limiter, pace_failure|intros _]. cbv zeta. set (hinted := dict_get _ _ ≫= _). apply sound_by_then.
{ destruct (hinted ≫= seconds_of) as [[q|]|]; [apply quiet_when, quiet_with_limiter, pace_delay..|apply quiet_ret]. }
intros _. apply sound_by_then; [apply quiet_self|intros f].
destruct (if (rs_status r =? 429) || is_some hinted then fallback else None) as [fb|] eqn:E, (prefers_stale f stale ask).
2: { apply sound_by_then; [apply quiet_gets|intros t]. apply sound_by_then; [by apply quiet_update|intros _]. apply returned_cost.
     destruct (_ || _); [|done]. subst fallback. apply Hf. }
all: destruct (n =? 3); [apply sound_by_quiet, quiet_ret|apply sound_by_quiet, sound_then; [apply quiet_sleep|intros; apply quiet_ret]].
Qed.
(** What follows an attempt, [more] being left. *)
Lemma sound_next k more (m : fetch Outcome) bo bf retry : sound_by k (attempt_cost none bf) m ->
  (forall n, more = S n -> sound_by k (attempt_cost bo bf) retry) ->
  sound_by k (attempt_cost bo bf) (next ← m; match next, more with Again, S _ => retry | _, _ => mret next end).
Proof.
intros Hm Hr. apply (sound_by_bind k (attempt_cost none bf) (fun next => match next, more with Again, S _ => attempt_cost bo bf | _, _ => fun _ => none end)); [done| | |].
- intros [r|r|]; try (destruct more; apply quiet_ret). destruct more; [apply quiet_ret|by eapply Hr].
- intros e i. simpl. unfold none. lia.
- intros [r|r|] w i; unfold none; simpl; try lia. destruct more; simpl; [lia|destruct (retry w) as [[[]|] ?]; simpl; lia].
Qed.
Lemma attempt_cost_add who bf n r i :
  (one who i + attempt_cost (fun i => n * one who i)%nat bf r i <= attempt_cost (fun i => S n * one who i)%nat bf r i)%nat.
Proof. destruct r as [[r|r|]|e]; simpl; lia. Qed.
Lemma sound_attempts who ask h agent stale fallback bf more : fallback_ok who bf fallback ->
  sound_by who (attempt_cost (fun i => S more * one who i)%nat bf) (attempts more who ask h agent stale fallback).
Proof.
intros Hf.
assert (Hone : forall n (retry : fetch Outcome), (forall m, n = S m -> sound_by who (attempt_cost (fun i => n * one who i)%nat bf) retry) ->
  sound_by who (attempt_cost (fun i => S n * one who i)%nat bf) (
    _ ← ensure_lease who; host ← raise_py (host_of (ak_url ask));
    asked ← ask_host who host ask h agent stale fallback (bool_decide (n = 0%nat));
    next ← match asked with Answered r => weigh who host ask agent stale fallback (3 - Z.of_nat n) r | _ => mret asked end;
    match next, n with Again, S _ => retry | _, _ => mret next end)).
{ intros n retry Hr. apply sound_by_then; [apply quiet_ensure_lease|intros _]. apply sound_by_then; [apply quiet_raise_py|intros host].
  apply (sound_by_bind who (attempt_cost (one who) bf) (fun asked => match asked with Returned _ => fun _ => none | _ => attempt_cost (fun i => n * one who i)%nat bf end)); [by apply sound_ask_host| | |].
  - intros [r|r|]; [apply sound_next; [|done]|destruct n; apply quiet_ret|apply sound_next; [apply sound_by_quiet, quiet_ret|done]].
    eapply sound_by_weaken; [apply Nat.le_succ_diag_r| |by apply sound_weigh]. done.
  - intros e i. simpl. lia.
  - intros [r|r|] w i; [apply attempt_cost_add|destruct n; simpl; unfold none; lia|apply attempt_cost_add]. }
induction more as [|more IH]; [exact (Hone 0%nat (mret Again) ltac:(done))|]. apply (Hone (S more) (attempts more who ask h agent stale fallback)). intros m [= <-]. exact IH.
Qed.

Lemma sound_impersonate who ask h : sound who (one who) (impersonate who ask h).
Proof.
unfold impersonate. apply sound_then; [apply quiet_self|intros f]. destruct (fe_impersonator f); [|apply sound_by_quiet, quiet_ret]. simpl.
apply sound_then; [apply quiet_raise_py|intros host]. apply quiet_last.
- apply sound_in_gate, request_in_turn. apply (request_catch who host (fun _ => one who) (fun _ _ => none)).
  + apply (request_bind who host (fun _ => one who) (fun _ _ => none)); [apply request_send|intros; apply quiet_ret|done|unfold none; lia].
  + intros e. apply sound_then; [|intros; apply quiet_ret]. destruct e; try apply quiet_ret. by apply quiet_update.
  + done.
  + unfold none. lia.
- intros [r|]; [cbv zeta|apply quiet_ret]. apply sound_then; [apply quiet_count|intros _]. apply sound_then; [apply quiet_charge|intros; apply quiet_ret].
Qed.
Definition plus (b1 b2 : nat -> nat) : nat -> nat := fun i => (b1 i + b2 i)%nat.
Lemma sound_fallback who bf fallback f agent b : fallback_ok who bf fallback -> fallback = Some f -> (forall i, (bf i <= b i)%nat) -> sound who b (f agent).
Proof. intros Hf -> Hb. eapply sound_weaken; [apply Nat.le_succ_diag_r|exact Hb|apply Hf]. Qed.
Lemma sound_settle who ask key fallback bf r : fallback_ok who bf fallback -> sound who bf (settle who ask key fallback r).
Proof.
intros Hf. unfold settle. destruct (negb _); [apply sound_by_quiet, quiet_throw|]. destruct (looks_like_a_block _ _).
- apply sound_then; [apply quiet_count|intros _]. destruct fallback as [fb|] eqn:Ef; [by eapply sound_fallback|apply sound_by_quiet, quiet_throw].
- apply sound_by_quiet, sound_then; [apply quiet_gets|intros t']. apply sound_then; [apply quiet_store|intros; apply quiet_ret].
Qed.
Lemma sound_conclude who ask h key stale fallback again r bf ba : fallback_ok who bf fallback ->
  match again with Some m => sound who ba m | None => True end -> (forall i, (plus (one who) bf i <= ba i)%nat) ->
  sound who ba (conclude who ask h key stale fallback again r).
Proof.
intros Hf Ha Hb. unfold plus in Hb. assert (Hbf : forall i, (bf i <= ba i)%nat) by (intros i; specialize (Hb i); lia).
unfold conclude. apply sound_then; [apply quiet_self|intros f]. apply sound_then; [apply quiet_gets|intros t].
destruct (if rs_status r =? 304 then stale else None) as [entry|].
{ apply sound_by_quiet. cbv zeta. apply sound_then; [apply quiet_store|intros _]. apply sound_then; [apply quiet_count|intros; apply quiet_ret]. }
destruct (if _ || _ then prefers_stale f stale ask else None) as [entry|]; [apply sound_by_quiet, quiet_serve_stale|]. cbv zeta.
destruct (if (rs_status r =? 429) || _ then fallback else None) as [fb|] eqn:E.
{ destruct (_ || _) in E; [|done]. by eapply sound_fallback. }
assert (Hsettle : forall r', sound who bf (settle who ask key fallback r')) by (intros; by apply sound_settle).
destruct (bool_decide (rs_status r ∈ [401; 403; 406])); [|eapply sound_weaken; [done|exact Hbf|apply Hsettle]].
destruct again as [again|]; [exact Ha|]. eapply sound_weaken; [done|exact Hb|]. apply (sound_bind who (one who) bf); [apply sound_impersonate|].
intros [r'|]; [apply Hsettle|]. destruct fallback as [fb|] eqn:Ef; [|apply Hsettle]. destruct (bool_decide _); [by eapply sound_fallback|apply Hsettle].
Qed.
Lemma sound_response_as who ask fallback again bf ba : fallback_ok who bf fallback ->
  match again with Some m => sound who ba m | None => True end -> (forall i, (plus (one who) bf i <= ba i)%nat) ->
  sound who (plus (fun i => 4 * one who i)%nat ba) (response_as who ask fallback again).
Proof.
intros Hf Ha Hb. assert (Hbf : forall i, (bf i <= plus (fun i => 4 * one who i)%nat ba i)%nat) by (intros i; specialize (Hb i); unfold plus in *; lia).
unfold response_as. cbv zeta. apply sound_then; [apply quiet_read_cache|intros stored]. apply sound_then; [apply quiet_gets|intros w].
destruct stored; [apply sound_by_quiet, quiet_ret|]. destruct (bool_decide _); [apply sound_by_quiet, quiet_throw|].
apply sound_then; [apply quiet_raise_py|intros stale]. unfold ask_network. cbv zeta. apply sound_then; [apply quiet_self|intros f]. apply sound_then; [apply quiet_gets|intros t].
destruct (if before t (fe_proxy_until f) then fallback else None) as [fb|] eqn:E.
{ destruct (before _ _); [|done]. destruct (prefers_stale f stale ask); [apply sound_by_quiet, quiet_serve_stale|by eapply sound_fallback]. }
apply (sound_by_bind who (attempt_cost (fun i => 4 * one who i)%nat bf) (fun o _ => match o with Answered _ => ba | _ => none end)); [by apply (sound_attempts who ask _ _ stale fallback bf 3)| | |].
- intros [r|r|]; [by apply (sound_conclude _ _ _ _ _ _ _ _ bf)|apply quiet_ret|apply quiet_throw].
- intros e i. simpl. specialize (Hb i). unfold plus in *. lia.
- intros [r|r|] w' i; simpl; specialize (Hb i); unfold plus, none in *; lia.
Qed.

(** Nine requests of each fetcher of the chain: four as itself, four as a browser and one
    with an impersonated handshake. *)
Fixpoint chain_cost (after who : nat) : nat -> nat :=
  match after with O => fun i => 9 * one who i | S after => plus (fun i => 9 * one who i) (chain_cost after (S who)) end%nat.
Lemma sound_agents who ask fallback bf agent : fallback_ok who bf fallback -> sound who (plus (fun i => 9 * one who i)%nat bf)
  (let as_browser := response_as who ask fallback None in if (agent : bool) then as_browser else response_as who ask fallback (Some as_browser)).
Proof.
intros Hf. set (b := response_as who ask fallback None).
assert (Hb : sound who (plus (fun i => 4 * one who i)%nat (plus (one who) bf)) b) by (by apply (sound_response_as who ask fallback None bf)).
cbv zeta. destruct agent; [eapply sound_weaken; [done| |exact Hb]; unfold plus; intros i; lia|].
eapply sound_weaken; [done| |apply (sound_response_as who ask fallback (Some b) bf _ Hf Hb)]; unfold plus; intros i; lia.
Qed.
Lemma sound_response after : forall who ask agent allow, sound who (chain_cost after who) (response after who ask agent allow).
Proof.
induction after as [|after IH]; intros who ask agent allow; cbn [response chain_cost].
- eapply sound_weaken; [done| |apply (sound_agents who ask None none agent); done]. unfold plus, none. intros i. lia.
- apply (sound_agents who ask). destruct allow; [|done]. intros a. apply IH.
Qed.
Lemma chain_cost_bound after who i : (chain_cost after who i <= if (who <=? i)%nat && (i <=? who + after)%nat then 9 else 0)%nat.
Proof.
revert who. induction after as [|after IH]; intros who; simpl; unfold plus, one.
- destruct (Nat.eqb_spec i who); [subst; rewrite Nat.leb_refl, (proj2 (Nat.leb_le _ _)) by lia; simpl; lia|lia].
- specialize (IH (S who)). destruct (Nat.eqb_spec i who); [subst|].
  + rewrite (proj2 (Nat.leb_gt (S who) who)) in IH by lia. simpl in IH. rewrite Nat.leb_refl, (proj2 (Nat.leb_le who (who + S after))) by lia. simpl. lia.
  + destruct (Nat.leb_spec (S who) i), (Nat.leb_spec i (S who + after)); simpl in IH;
      destruct (Nat.leb_spec who i), (Nat.leb_spec i (who + S after)); simpl; lia.
Qed.
End sound.

(** * What a fetch does *)

(** C32. However the shop, the proxy and the other tasks behave, one fetch sends at most
    nine requests on each route - four as itself, four as a browser, one with an
    impersonated handshake - and none on the routes before its own. Each leaves while a task
    is inside the gate of its host, directly after its own was let in and took its turn: it
    drew its gap of the limiter as it then was, and had none, or got the lock of its key and
    left at least the gap after the last request the limiter knew then, and is now the last
    it knows. The limiters stay consistent, and the fetch gives its places back: when no
    other task enters a gate meanwhile, no gate is fuller than before. *)
Theorem a_fetch_is_polite `{OutsideLaws} after who ask agent allow w : good w ->
  let w' := (response after who ask agent allow w).2 in
  good w' /\ (others_only_leave -> forall i host, occupancy w' i host <= occupancy w i host)
  /\ exists es, fw_events w' = fw_events w ++ es /\ polite es
     /\ forall i, (dispatches_of i es <= if (who <=? i)%nat && (i <=? who + after)%nat then 9 else 0)%nat.
Proof.
intros Hw w'. destruct (sound_response after who ask agent allow w Hw) as [G _ _ R (es & E & P & C)]. split_and!; [done|exact R|].
exists es. split_and!; [done..|]. intros i. etransitivity; [apply C|apply chain_cost_bound].
Qed.

(** * What is paid for *)

Section unhealthy.
Context `{Outside}.

(** A server fault without a [Retry-After]. *)
Definition unhealthy (r : Response) : Prop :=
  500 <= rs_status r /\ match dict_get "retry-after" (rs_headers r) with Some t => str_isempty t = true | None => True end.
Context (who : nat) (sick : forall n manner ask h, exists r, w_send n who manner ask h = Ok r /\ unhealthy r).

Lemma send_sick host manner agent ask h w : exists r w', send who host manner agent ask h w = (Ok r, w') /\ unhealthy r.
Proof.
destruct (sick (length (fw_events w)) manner ask h) as (r & E & U). unfold send, awaits, event, meanwhile, mbind, eff_bind, gets, modify, lift. simpl. rewrite E. eauto.
Qed.
(** Two computations that do the same, with a value that satisfies [P] if they return. *)
Definition same_by {A} (P : A -> Prop) (m m' : fetch A) : Prop := forall w, m w = m' w /\ match (m' w).1 with Ok a => P a | Err _ => True end.
Lemma same_bind {A B} P Q (m m' : fetch A) (f f' : A -> fetch B) : same_by P m m' -> (forall a, P a -> same_by Q (f a) (f' a)) -> same_by Q (m ≫= f) (m' ≫= f').
Proof.
intros Hm Hf w. unfold mbind, eff_bind. destruct (Hm w) as [-> P0]. destruct (m' w) as [[a|e] w1]; [by apply Hf|done].
Qed.
Lemma same_refl {A} (m : fetch A) : same_by (fun _ => True) m m.
Proof. intros w. split; [done|]. by destruct (m w).1. Qed.
Lemma same_ret {A} (P : A -> Prop) a : P a -> same_by P (mret a) (mret a).
Proof. done. Qed.
Lemma same_throw {A} (P : A -> Prop) e : same_by P (throw e) (throw e).
Proof. done. Qed.
Lemma same_then {A B} (Q : B -> Prop) (m : fetch A) (f f' : A -> fetch B) : (forall a, same_by Q (f a) (f' a)) -> same_by Q (m ≫= f) (m ≫= f').
Proof. intros Hf. apply (same_bind (fun _ => True)); [apply same_refl|auto]. Qed.
Lemma same_in_gate {A} (P : A -> Prop) host (m m' : fetch A) : same_by P m m' -> same_by P (in_gate who host m) (in_gate who host m').
Proof.
intros Hm. unfold in_gate. do 3 (apply same_then; intro). intros w. unfold finally. destruct (Hm w) as [-> P0]. by destruct (m' w) as [[r|e] w1].
Qed.
Lemma same_send host manner agent ask h : same_by unhealthy (send who host manner agent ask h) (send who host manner agent ask h).
Proof. intros w. split; [done|]. by destruct (send_sick host manner agent ask h w) as (r & w' & -> & U). Qed.
Definition sick_outcome (o : Outcome) : Prop := match o with Answered r => unhealthy r | Returned _ => False | Again => True end.
Lemma ask_host_sick host ask h agent stale fallback last :
  same_by sick_outcome (ask_host who host ask h agent stale fallback last) (ask_host who host ask h agent stale None last).
Proof.
apply same_in_gate, same_then. intros _. apply (same_bind (fun answer => exists r, answer = inl r /\ unhealthy r)).
- intros w. split; [done|]. unfold catch, mbind, eff_bind. destruct (send_sick host Plain agent ask h w) as (r & w' & -> & U). simpl. eauto.
- intros ? (r & -> & U). apply same_then. intros _. by apply same_ret.
Qed.
Lemma unhealthy_status r : unhealthy r -> rs_status r <> 429 /\ (rs_status r <? 500) = false /\ (rs_status r =? 429) = false /\ (500 <=? rs_status r) = true.
Proof. intros [U _]. repeat split; [lia|apply Z.ltb_ge; lia|apply Z.eqb_neq; lia|apply Z.leb_le; lia]. Qed.
Lemma weigh_sick host ask agent stale fallback n r : unhealthy r ->
  same_by sick_outcome (weigh who host ask agent stale fallback n r) (weigh who host ask agent stale None n r).
Proof.
intros U. destruct (unhealthy_status r U) as (_ & U1 & U2 & U3). destruct U as [U0 Uh]. unfold weigh. apply same_then; intros _. rewrite U1, U2. simpl.
apply same_then; intros _. cbv zeta.
replace (dict_get "retry-after" (rs_headers r) ≫= (fun t => if str_isempty t then None else Some t)) with (@None string) by (destruct (dict_get _ _); simpl; [by rewrite Uh|done]).
apply same_then; intros _. apply same_then; intros f. simpl. destruct (n =? 3); [by apply same_ret|]. apply same_then; intros _. by apply same_ret.
Qed.
Lemma attempts_sick ask h agent stale fallback more :
  same_by sick_outcome (attempts more who ask h agent stale fallback) (attempts more who ask h agent stale None).
Proof.
induction more as [|more IH]; cbn [attempts]; apply same_then; intros _; apply same_then; intros host.
all: eapply same_bind; [apply ask_host_sick|]; intros [r|r|] U; try done.
all: eapply same_bind; [first [by apply weigh_sick|by apply (same_ret sick_outcome)]|]; intros [r'|r'|] U'; try done.
Qed.
Lemma conclude_sick ask h key stale fallback again again' r : unhealthy r -> is_none again = is_none again' ->
  same_by (fun _ => True) (conclude who ask h key stale fallback again r) (conclude who ask h key stale None again' r).
Proof.
intros U Ea. destruct (unhealthy_status r U) as (U0 & U1 & U2 & U3). destruct U as [U4 Uh]. unfold conclude. apply same_then; intros f. apply same_then; intros t.
replace (rs_status r =? 304) with false by (symmetry; apply Z.eqb_neq; lia).
destruct (if _ || _ then prefers_stale f stale ask else None); [apply same_refl|]. cbv zeta. rewrite U2, U3.
replace (match dict_get "retry-after" (rs_headers r) with Some t => negb (str_isempty t) | None => false end) with false by (destruct (dict_get _ _); [by rewrite Uh|done]).
rewrite bool_decide_eq_false_2 by (rewrite !not_elem_of_cons; split_and!; try lia; apply not_elem_of_nil). cbn [orb andb].
unfold settle. rewrite (proj2 (Z.ltb_ge (rs_status r) 300)) by lia. rewrite andb_false_r. by apply same_throw.
Qed.
(** The pause of the direct route is over. *)
Definition cooled (w : FetchWorld) : Prop := forall f, fw_fetchers w !! who = Some f -> before (fw_clock w) (fe_proxy_until f) = false.
Lemma bind_at {A B} (m : fetch A) (f : A -> fetch B) w : (m ≫= f) w = match m w with (Ok a, w') => f a w' | (Err e, w') => (Err e, w') end.
Proof. done. Qed.
Lemma read_cache_frame key url w r w' : read_cache key url w = (r, w') -> fw_fetchers w' = fw_fetchers w /\ fw_clock w' = fw_clock w.
Proof.
unfold read_cache. rewrite bind_at. unfold gets, id. rewrite bind_at. unfold raise_py. destruct (cache_read _ _ _ _ _) as [[got c]|e]; by intros [= <- <-].
Qed.
Lemma ask_network_sick ask key stale fallback again again' w : cooled w -> is_none again = is_none again' ->
  ask_network who ask key stale fallback again w = ask_network who ask key stale None again' w.
Proof.
intros Hc Ea. unfold ask_network. rewrite <- Ea. cbv zeta. rewrite 2!bind_at. unfold self at 1 2. destruct (fw_fetchers w !! who) as [f|] eqn:Ef; [|done].
rewrite 2!bind_at. unfold now; cbn [gets]. rewrite (Hc f Ef). set (h := conditional _ _).
eapply (same_bind sick_outcome (fun _ => True)); [apply attempts_sick|]. intros [r|r|] U; [by apply conclude_sick|done|by apply same_throw].
Qed.
Lemma response_as_sick ask fallback again again' w : cooled w -> is_none again = is_none again' ->
  response_as who ask fallback again w = response_as who ask None again' w.
Proof.
intros Hc Ea. unfold response_as. rewrite <- Ea. cbv zeta. rewrite 2!bind_at. destruct (read_cache _ _ w) as [[stored|e] w1] eqn:E1; [|done].
assert (Hc1 : cooled w1) by (destruct (read_cache_frame _ _ _ _ _ E1) as [F C]; unfold cooled; by rewrite F, C).
rewrite 2!bind_at. destruct (gets id w1) as [[w2|e] w3] eqn:E3; [injection E3 as <- <-|done]. destruct stored as [entry|]; [done|]. destruct (bool_decide _); [done|].
rewrite 2!bind_at. set (stale := raise_py _ w1). assert (E : stale.2 = w1) by (unfold stale; by destruct (stale_read _ _ _)).
destruct stale as [[stale|e] w4]; [|done]. simpl in E. subst w4. by apply ask_network_sick.
Qed.
End unhealthy.


(** * Replaying *)

(** Only the answer matters: errors satisfy every claim here. *)
Definition ends {A} (P : A -> FetchWorld -> Prop) (m : fetch A) : Prop := forall w, match (m w).1 with Ok a => P a (m w).2 | Err _ => True end.
Lemma run_ends_bind {A B} (P : B -> FetchWorld -> Prop) (m : fetch A) (f : A -> fetch B) : (forall a, ends P (f a)) -> ends P (m ≫= f).
Proof. intros Hf w. unfold mbind, eff_bind. destruct (m w) as [[a|e] w1]; [apply Hf|done]. Qed.
Lemma ends_seq {A B} (R : A -> FetchWorld -> Prop) (P : B -> FetchWorld -> Prop) (m : fetch A) (f : A -> fetch B) : ends R m ->
  (forall a w, R a w -> match (f a w).1 with Ok b => P b (f a w).2 | Err _ => True end) -> ends P (m ≫= f).
Proof. intros Hm Hf w. specialize (Hm w). unfold mbind, eff_bind. destruct (m w) as [[a|e] w1]; [by apply Hf|done]. Qed.
Lemma run_ends_throw {A} (P : A -> FetchWorld -> Prop) e : ends P (throw e).
Proof. done. Qed.
Lemma ends_ret {A} (P : A -> FetchWorld -> Prop) a : (forall w, P a w) -> ends P (mret a).
Proof. intros H w. apply H. Qed.

Section replaying.
Context `{Outside}.

(** The cache holds the status and text of an answer, under the user agent the fetch asked
    as or a browser's. *)
Definition is_stored (ask : Ask) (agent : bool) (r : Response) (w : FetchWorld) : Prop :=
  exists path entry, cache_path (key_of_ask ask agent) (rs_url r) = Ok path /\ rc_files (fw_cache w) !! path = Some (Some entry)
    /\ ce_status entry = rs_status r /\ ce_body entry = rs_text r.
Definition recorded (ask : Ask) (agent : bool) (r : Response) (w : FetchWorld) : Prop :=
  rs_provenance r = None -> rc_mode (fw_cache w) <> off -> is_stored ask agent r w \/ is_stored ask true r w.
Lemma recorded_cache ask agent r w w' : fw_cache w' = fw_cache w -> recorded ask agent r w -> recorded ask agent r w'.
Proof. unfold recorded, is_stored. by intros ->. Qed.
Lemma recorded_browser ask agent r w : recorded ask true r w -> recorded ask agent r w.
Proof. intros H0 Hp Hm. right. destruct (H0 Hp Hm); done. Qed.
Definition outcome_recorded (ask : Ask) (agent : bool) (o : Outcome) (w : FetchWorld) : Prop := match o with Returned r => recorded ask agent r w | _ => True end.
Lemma ends_in_gate {A} (P : A -> FetchWorld -> Prop) who host (m : fetch A) :
  (forall a w w', fw_cache w' = fw_cache w -> P a w -> P a w') -> ends P m -> ends P (in_gate who host m).
Proof.
intros HP Hm. unfold in_gate. do 3 (apply run_ends_bind; intro). intros w. unfold finally. specialize (Hm w). destruct (m w) as [[r|e] w1]; [|done]. simpl in *.
eapply HP; [|exact Hm]. done.
Qed.
Lemma serve_stale_recorded who entry ask agent : ends (recorded ask agent) (serve_stale who entry ask).
Proof. apply run_ends_bind. intros _. by apply ends_ret. Qed.
Lemma returned_recorded ask agent (m : fetch Response) : ends (recorded ask agent) m -> ends (outcome_recorded ask agent) (r ← m; mret (Returned r)).
Proof. intros Hm w. specialize (Hm w). unfold mbind, eff_bind. by destruct (m w) as [[r|e] w1]. Qed.
Definition fallback_records (ask : Ask) (agent : bool) (fallback : option (bool -> fetch Response)) : Prop :=
  match fallback with Some f => ends (recorded ask agent) (f agent) /\ ends (recorded ask agent) (f true) | None => True end.
Lemma ask_host_recorded who host ask h agent stale fallback last : fallback_records ask agent fallback ->
  ends (outcome_recorded ask agent) (ask_host who host ask h agent stale fallback last).
Proof.
intros Hf. apply ends_in_gate; [intros [] w w' E; [done|by apply recorded_cache|done]|]. do 2 (apply run_ends_bind; intro). case_match; [apply run_ends_bind; intro; by apply ends_ret|].
case_match; try apply run_ends_throw. do 3 (apply run_ends_bind; intro). destruct last; [|cbv zeta; apply run_ends_bind; intro; by apply ends_ret].
destruct (prefers_stale _ _ _); [apply returned_recorded, serve_stale_recorded|]. destruct fallback as [fb|]; [apply returned_recorded, Hf|apply run_ends_throw].
Qed.
Lemma weigh_recorded who host ask agent stale fallback n r : fallback_records ask agent fallback ->
  ends (outcome_recorded ask agent) (weigh who host ask agent stale fallback n r).
Proof.
intros Hf. unfold weigh. apply run_ends_bind. intros _. destruct (_ && _); [apply run_ends_bind; intro; by apply ends_ret|]. apply run_ends_bind. intros _. cbv zeta.
apply run_ends_bind; intros _. apply run_ends_bind; intros f. destruct (if _ || _ then fallback else None) as [fb|] eqn:E, (prefers_stale f stale ask).
2: { do 2 (apply run_ends_bind; intro). apply returned_recorded. destruct (_ || _); [|done]. subst fallback. apply Hf. }
all: destruct (n =? 3); [by apply ends_ret|apply run_ends_bind; intro; by apply ends_ret].
Qed.
Lemma next_recorded ask agent n (m : fetch Outcome) retry w : (forall k, n = S k -> ends (outcome_recorded ask agent) retry) ->
  match (m w).1 with Ok o => outcome_recorded ask agent o (m w).2 | Err _ => True end ->
  let m' := (next ← m; match next, n with Again, S _ => retry | _, _ => mret next end) in
  match (m' w).1 with Ok o => outcome_recorded ask agent o (m' w).2 | Err _ => True end.
Proof.
intros Hr Hm. cbv zeta. unfold mbind, eff_bind. destruct (m w) as [[[r|r|]|e] w1]; simpl in Hm; try (by destruct n); try done. destruct n; [done|]. by eapply Hr.
Qed.
Lemma attempts_recorded who ask h agent stale fallback more : fallback_records ask agent fallback ->
  ends (outcome_recorded ask agent) (attempts more who ask h agent stale fallback).
Proof.
intros Hf. induction more as [|more IH]; cbn [attempts]; apply run_ends_bind; intros _; apply run_ends_bind; intros host.
all: apply (ends_seq (outcome_recorded ask agent)); [by apply ask_host_recorded|]; intros asked w Ho.
- apply (next_recorded ask agent 0 _ (mret Again)); [done|]. destruct asked; [by apply weigh_recorded|done..].
- apply (next_recorded ask agent (S more) _ (attempts more who ask h agent stale fallback)); [done|]. destruct asked; [by apply weigh_recorded|done..].
Qed.

Lemma store_stores ask agent r w t :
  match (store (key_of_ask ask agent) {| ce_status := rs_status r; ce_url := rs_url r; ce_body := rs_text r; ce_headers := kept_headers (rs_headers r);
                              ce_fetched_at := t; ce_kind := "http" |} w) with (Ok _, w') => recorded ask agent r w' | _ => True end.
Proof.
unfold store, mbind, eff_bind, gets, raise_py, cache_write, id. simpl. destruct (bool_decide_reflect (rc_mode (fw_cache w) = off)) as [E|E]; [by intros _ Hm|].
unfold mbind, result_bind. destruct (cache_path _ _) as [path|e] eqn:Ep; simpl; [|done]. intros _ _. left. exists path. eexists. split; [done|]. simpl. rewrite lookup_insert_eq. done.
Qed.
Lemma settle_recorded who ask agent fallback r : fallback_records ask agent fallback ->
  ends (recorded ask agent) (settle who ask (key_of_ask ask agent) fallback r).
Proof.
intros Hf. unfold settle. destruct (negb _); [apply run_ends_throw|]. destruct (looks_like_a_block _ _).
- apply run_ends_bind; intros _. destruct fallback as [fb|]; [apply Hf|apply run_ends_throw].
- apply run_ends_bind; intros t'. intros w. pose proof (store_stores ask agent r w t') as S. unfold mbind, eff_bind. by destruct (store _ _ w) as [[[]|e] w1].
Qed.
Lemma conclude_recorded who ask h stale fallback again r : fallback_records ask (is_none again) fallback ->
  match again with Some m => ends (recorded ask true) m | None => True end ->
  ends (recorded ask (is_none again)) (conclude who ask h (key_of_ask ask (is_none again)) stale fallback again r).
Proof.
intros Hf Ha. unfold conclude. apply run_ends_bind; intros f. apply run_ends_bind; intros t.
destruct (if rs_status r =? 304 then stale else None); [cbv zeta; do 2 (apply run_ends_bind; intros _); by apply ends_ret|].
destruct (if _ || _ then prefers_stale f stale ask else None); [apply serve_stale_recorded|]. cbv zeta.
destruct (if (rs_status r =? 429) || _ then fallback else None) as [fb|] eqn:E; [destruct (_ || _) in E; [|done]; subst fallback; apply Hf|].
destruct (bool_decide _); [|by apply settle_recorded]. destruct again as [m|]; [intros w; specialize (Ha w); destruct (m w) as [[r'|e] w1]; [by apply recorded_browser|done]|].
apply run_ends_bind. intros [r'|]; [by apply settle_recorded|]. destruct fallback as [fb|]; [|by apply settle_recorded]. destruct (bool_decide _); [apply Hf|by apply (settle_recorded who ask true)].
Qed.
Lemma response_as_recorded who ask fallback again : fallback_records ask (is_none again) fallback ->
  match again with Some m => ends (recorded ask true) m | None => True end -> ends (recorded ask (is_none again)) (response_as who ask fallback again).
Proof.
intros Hf Ha. unfold response_as. cbv zeta. apply run_ends_bind; intros stored. apply run_ends_bind; intros w. destruct stored; [by apply ends_ret|].
destruct (bool_decide _); [apply run_ends_throw|]. apply run_ends_bind; intros stale. unfold ask_network. cbv zeta. apply run_ends_bind; intros f. apply run_ends_bind; intros t.
destruct (if before t (fe_proxy_until f) then fallback else None) as [fb|] eqn:E.
{ destruct (before _ _); [|done]. subst fallback. destruct (prefers_stale f stale ask); [apply serve_stale_recorded|apply Hf]. }
apply (ends_seq (outcome_recorded ask (is_none again))); [by apply attempts_recorded|]. intros [r|r|] w' Ho; [by apply conclude_recorded|done..].
Qed.
Lemma response_recorded after : forall who ask agent allow, ends (recorded ask agent) (response after who ask agent allow).
Proof.
induction after as [|after IH]; intros who ask agent allow; cbn [response].
- assert (Hb : ends (recorded ask true) (response_as who ask None None)) by by apply (response_as_recorded who ask None None).
  destruct agent; [exact Hb|]. by apply (response_as_recorded who ask None (Some _)).
- set (fallback := if allow then Some _ else None). assert (Hf : forall a, fallback_records ask a fallback).
  { intros a. unfold fallback. destruct allow; [|done]. split; [apply IH|]. intros w. pose proof (IH (S who) ask true true w) as R.
    destruct (response after (S who) ask true true w) as [[r|e] w1]; [by apply recorded_browser|done]. }
  assert (Hb : ends (recorded ask true) (response_as who ask fallback None)) by by apply (response_as_recorded who ask fallback None).
  destruct agent; [exact Hb|]. by apply (response_as_recorded who ask fallback (Some _)).
Qed.
End replaying.

Lemma replay_hit `{Outside} who ask fallback again w path entry :
  cache_path (key_of_ask ask (is_none again)) (ak_url ask) = Ok path -> rc_files (fw_cache w) !! path = Some (Some entry) ->
  rc_mode (fw_cache w) = replay -> rc_max_age (fw_cache w) = None ->
  exists r w', response_as who ask fallback again w = (Ok r, w') /\ rs_status r = ce_status entry /\ rs_text r = ce_body entry /\ fw_events w' = fw_events w.
Proof.
intros Hp Hf Hm Ha. unfold response_as, read_cache, mbind, eff_bind, gets, raise_py, id, modify. cbv zeta. cbn [fst snd].
unfold cache_read. rewrite Hm, !bool_decide_eq_false_2 by done. cbn [orb]. unfold mbind, result_bind. rewrite Hp, Hf. unfold expired. rewrite Ha. simpl.
do 2 eexists. split; [done|]. done.
Qed.


(** * Runs *)

Section demo.
Definition page (status : Z) (url body : string) : Response :=
  {| rs_status := status; rs_url := url; rs_headers := []; rs_text := body; rs_downloaded := 0; rs_provenance := None |}.
(** One task alone, and a shop given by what it answers. *)
Definition alone (shop : Manner -> headers -> result fetch_exn Response) : Outside := {|
  w_send _ _ manner _ h := shop manner h; w_render _ _ _ := Ok "<html></html>"; w_metered _ := (0, 0);
  w_took _ := 0%Q; w_late _ := 0%Q; w_random _ := 0%Q;
  w_admit _ host l := let l := with_gate host l in
    match hl_gates l !! host with Some g => Nat.iter (Z.to_nat (g_active g - g_limit g + 1)) (at_gate host gate_exit) l | None => l end;
  w_others _ _ l := l;
  w_digest v := match v with JList [_; JStr url; JDict (("agent", JBool agent) :: _)] => (if agent then "browser " else "plain ") +:+ url | _ => "" end;
  w_stored_size _ := 1; w_target url _ := url; w_dumped _ := ""; w_loads _ := None; w_can_fetch _ _ _ := true; w_crawl_delay _ _ := None;
|}.
Lemma at_gate_lookup host f l g : hl_gates l !! host = Some g -> hl_gates (at_gate host f l) !! host = Some (f g).
Proof. intros E. unfold at_gate. rewrite E. simpl. by rewrite lookup_insert_eq. Qed.
Lemma exits_make_room host k l g : consistent l -> hl_gates l !! host = Some g -> (Z.of_nat k <= Z.max 0 (g_active g - g_limit g + 1)) ->
  let l' := Nat.iter k (at_gate host gate_exit) l in
  reachable limiter_step l l' /\ exists g', hl_gates l' !! host = Some g' /\ g_limit g' = g_limit g /\ g_active g' = g_active g - Z.of_nat k.
Proof.
intros C E. pose proof (ok_gates l C host g E) as [(Hlim & _ & _) _]. induction k as [|k IH]; intros Hk l'.
- split; [apply reach_refl|]. exists g. repeat split; [done|lia].
- destruct IH as (R & g' & E' & L' & A'); [lia|]. unfold l'. rewrite Nat.iter_succ. split.
  + eapply reach_step; [exact R|]. apply (Exit _ host g' E'). lia.
  + exists (gate_exit g'). split; [by apply at_gate_lookup|]. split; [by rewrite gate_limit_exit|].
    unfold gate_exit, notify. destruct g' as [n a wt wk]. destruct wt; simpl in *; lia.
Qed.
#[global] Instance alone_laws shop : @OutsideLaws (alone shop).
Proof.
split; simpl; intros; try done; try (split; [apply reach_refl|by destruct held]).
- assert (C : consistent (with_gate host l)) by by apply consistent_with_gate.
  assert (Hg : exists g, hl_gates (with_gate host l) !! host = Some g).
  { unfold with_gate. destruct (hl_gates l !! host) as [g|] eqn:E; [by exists g|]. simpl. rewrite lookup_insert_eq. by eexists. }
  destruct Hg as [g Hg]. rewrite Hg. destruct (exits_make_room host (Z.to_nat (g_active g - g_limit g + 1)) _ g C Hg) as (R & g' & E' & L' & A'); [lia|].
  split; [exact R|]. exists g'. split; [exact E'|]. lia.
Qed.
Definition no_stats : TransportStats :=
  {| ts_tx := 0; ts_rx := 0; ts_browser_rx := 0; ts_direct := 0; ts_impersonated := 0; ts_browser := 0; ts_proxy := 0; ts_not_modified := 0;
     ts_saved_304 := 0; ts_outcomes := [] |}.
Definition demo_fetcher (lease : option ProxyLease) : Fetcher :=
  {| fe_limiter := new_limiter 0 4 None; fe_browser := true; fe_impersonator := true; fe_robots_policy := robots_ignore; fe_stale_on_error := false;
     fe_lease := lease; fe_proxy_until := Seconds 0; fe_stats := no_stats; fe_robots := []; fe_held := None |}.
Definition empty_cache : ResponseCache :=
  {| rc_mode := auto_; rc_max_age := None; rc_hits := 0; rc_misses := 0; rc_writes := 0; rc_bytes_read := 0; rc_files := ∅ |}.
Definition demo_world (fetchers : list Fetcher) : FetchWorld := {| fw_clock := 0; fw_events := []; fw_cache := empty_cache; fw_fetchers := fetchers |}.
Definition ask_for (url : string) : Ask := {| ak_url := url; ak_params := None; ak_accept := None; ak_method := "GET"; ak_body := None; ak_headers := [] |}.
Definition replaying (w : FetchWorld) : FetchWorld := w <| fw_cache := (fw_cache w) <| rc_mode := replay |> |>.

(** A page of the shop, and its replay. *)
Definition plain_shop : Manner -> headers -> result fetch_exn Response := fun _ _ => Ok (page 200 "https://shop.test/p" "<p>glaze</p>").
Definition plain_run := response (H := alone plain_shop) 0 0 (ask_for "https://shop.test/p") false true (demo_world [demo_fetcher None]).
Example plain_fetch : plain_run.1 = Ok (page 200 "https://shop.test/p" "<p>glaze</p>")
  /\ map (fun e => (ev_who e, ev_host e, ev_doing e)) (fw_events plain_run.2)
     = [(0%nat, "shop.test", Entered); (0%nat, "shop.test", Dispatched Plain false); (0%nat, "shop.test", Left)].
Proof. vm_compute. auto. Qed.
(** The same when the shop is to be asked every two seconds, and was asked just now. *)
Definition slow_fetcher : Fetcher :=
  (demo_fetcher None) <| fe_limiter := waited "shop.test" 1 (set_delay "shop.test" 2 (new_limiter 0 4 None)) |>.
Definition slow_world : FetchWorld := (demo_world [slow_fetcher]) <| fw_clock := 1%Q |>.
Definition slow_run := response (H := alone plain_shop) 0 0 (ask_for "https://shop.test/p") false true slow_world.
Example slow_fetch : map (fun e => (ev_doing e, Qred (ev_clock e))) (fw_events slow_run.2) = [(Entered, 1%Q); (Locked, 1%Q); (Dispatched Plain false, 3%Q); (Left, 3%Q)].
Proof. vm_compute. reflexivity. Qed.

(** A shop that refuses the declared agent and serves a browser. *)
Definition browser_shop : Manner -> headers -> result fetch_exn Response := fun _ h =>
  Ok (page (if is_some (dict_get "user-agent" h) then 200 else 403) "https://shop.test/p" "<p>glaze</p>").
Definition browser_run := response (H := alone browser_shop) 0 0 (ask_for "https://shop.test/p") false true (demo_world [demo_fetcher None]).
(** [replay] promises the stored bytes, but an answer that only a browser's user agent was
    given is stored under the key of that agent, and a replay gives up at the key of the
    declared one: the page that was recorded is reported as not in the cache. *)
Lemma a_browser_page_is_not_replayed :
  browser_run.1 = Ok (page 200 "https://shop.test/p" "<p>glaze</p>")
  /\ (response (H := alone browser_shop) 0 0 (ask_for "https://shop.test/p") false true (replaying browser_run.2)).1
     = Err (NotCached "GET https://shop.test/p is not in the cache").
Proof. vm_compute. auto. Qed.

(** A shop that redirects to its own www host. *)
Definition www_shop : Manner -> headers -> result fetch_exn Response := fun _ _ => Ok (page 200 "https://www.shop.test/p" "<p>glaze</p>").
Definition www_run := response (H := alone www_shop) 0 0 (ask_for "https://shop.test/p") false true (demo_world [demo_fetcher None]).
(** An answer is filed under the host of its final URL but looked up under the host that was
    asked, so one that was redirected to another host is never found again, neither while
    fresh nor in replay. *)
Lemma a_redirected_page_is_not_replayed :
  www_run.1 = Ok (page 200 "https://www.shop.test/p" "<p>glaze</p>")
  /\ (response (H := alone www_shop) 0 0 (ask_for "https://shop.test/p") false true (replaying www_run.2)).1
     = Err (NotCached "GET https://shop.test/p is not in the cache").
Proof. vm_compute. auto. Qed.

(** A shop that refuses everything but an impersonated handshake, asked through a paid
    lease that the last plain request exhausts. *)
Definition guarded_shop : Manner -> headers -> result fetch_exn Response := fun manner _ =>
  Ok (page (match manner with Impersonated => 200 | _ => 403 end) "https://shop.test/p" "<p>glaze</p>").
Definition paid_run := response (H := alone guarded_shop) 0 0 (ask_for "https://shop.test/p") false true
  (demo_world [demo_fetcher (Some {| pl_max_bytes := 100; pl_used_bytes := 0; pl_requests := 0 |})]).
(** The lease is looked at before each plain attempt, but not before the impersonated one:
    a request leaves over the proxy although its reservation is exhausted. *)
Lemma an_exhausted_lease_is_impersonated :
  exists r w l, paid_run = (Ok r, w) /\ fe_lease <$> (fw_fetchers w !! 0%nat) = Some (Some l) /\ pl_requests l = 3 /\
  (exists e, e ∈ fw_events w /\ is_event 0 "shop.test" (Dispatched Impersonated true) e) /\
  200 < pl_used_bytes l /\ pl_max_bytes l = 100.
Proof.
assert (E : exists l, fe_lease <$> (fw_fetchers paid_run.2 !! 0%nat) = Some (Some l) /\ pl_requests l = 3 /\ 200 < pl_used_bytes l /\ pl_max_bytes l = 100).
{ eexists. split; [vm_compute; reflexivity|]. by vm_compute. }
destruct E as (l & E1 & E2 & E3 & E4). exists (page 200 "https://shop.test/p" "<p>glaze</p>"), paid_run.2, l.
split; [vm_compute; reflexivity|]. split; [exact E1|]. split; [exact E2|]. split; [|by split].
assert (E : existsb (fun e => (ev_who e =? 0)%nat && bool_decide (ev_host e = "shop.test") && match ev_doing e with Dispatched Impersonated true => true | _ => false end) (fw_events paid_run.2) = true) by (vm_compute; reflexivity).
apply existsb_exists in E as (e & He & D). exists e. split; [by apply list_elem_of_In|]. apply andb_true_iff in D as [[D1 D2]%andb_true_iff D3].
split; [by apply Nat.eqb_eq|]. split; [by apply bool_decide_eq_true in D2|]. by destruct (ev_doing e) as [| |[] []| | |].
Qed.

Lemma demo_good lease : good (demo_world [demo_fetcher lease]).
Proof. apply Forall_singleton. split; [|done]. apply (reachable_consistent 0 4 None), reach_refl. Qed.
Lemma iter_exit_room host k l h : occupied (Nat.iter k (at_gate host gate_exit) l) h <= occupied l h.
Proof.
induction k as [|k IH]; [done|]. rewrite Nat.iter_succ. etransitivity; [|exact IH]. rewrite occupied_at_gate. case_bool_decide as E; [|done]. subst h. unfold occupied.
destruct (hl_gates _ !! host) as [g|]; simpl; [|done]. unfold gate_exit, notify. destruct g as [n a wt wk]. destruct wt; simpl; lia.
Qed.
Lemma with_gate_room host l h : occupied (with_gate host l) h = occupied l h.
Proof.
unfold with_gate, occupied. destruct (hl_gates l !! host) eqn:E; [done|]. simpl. destruct (decide (h = host)) as [->|Hn]; [by rewrite lookup_insert_eq, E|by rewrite lookup_insert_ne].
Qed.
Lemma alone_only_leaves shop : @others_only_leave (alone shop).
Proof.
split; simpl; [|done]. intros _ host l h _. destruct (hl_gates (with_gate host l) !! host); [|by rewrite with_gate_room].
etransitivity; [apply iter_exit_room|]. by rewrite with_gate_room.
Qed.
Lemma slow_good : good slow_world.
Proof. apply Forall_singleton. split; [|done]. apply (reachable_consistent 0 4 None). eapply reach_step; [|constructor]. eapply reach_step; [apply reach_refl|constructor]. Qed.
Lemma a_fetch_is_polite_witness : good slow_run.2 /\ occupancy slow_run.2 0 "shop.test" <= 0 /\ exists es, fw_events slow_run.2 = es /\ polite es /\ (dispatches_of 0 es <= 9)%nat.
Proof.
destruct (a_fetch_is_polite (H := alone plain_shop) 0 0 (ask_for "https://shop.test/p") false true slow_world slow_good) as (G & R & es & E & P & C).
split; [exact G|]. split; [exact (R (alone_only_leaves plain_shop) 0%nat "shop.test")|]. exists es. split; [exact E|]. split; [exact P|exact (C 0%nat)].
Defined.
Definition sick_shop : Manner -> headers -> result fetch_exn Response := fun _ _ => Ok (page 503 "https://shop.test/p" "").
Definition sick_world : FetchWorld := demo_world [demo_fetcher None; demo_fetcher (Some {| pl_max_bytes := 1000; pl_used_bytes := 0; pl_requests := 0 |})].
Lemma replaying_files w : rc_files (fw_cache (replaying w)) = rc_files (fw_cache w).
Proof. done. Qed.
Lemma replaying_mode w : rc_mode (fw_cache (replaying w)) = replay.
Proof. done. Qed.
End demo.
