(* ===== verification/Domain.v ===== *)
(** Reading product text ([catalogue-dump/.../scrapers/domain.py]) and judging a record
    ([scrapers/record.py]): folded text, keyword tables, the families, the ceramic-materials
    scope, validity, the key of duplicates and the coverage of fields.

    [html.unescape] and the [repr] of containers are parameters. Keywords are the source's, in
    UTF-8; texts are ASCII, as [PyStr] says. *)
From S2P Require Export HtmlPage RegexFacts PyNumber.
From Stdlib Require Import Ascii.
Open Scope Z_scope.

(** * Keywords *)

(** Source: catalogue-dump/scrapers/domain.py:58-92, FAMILY_KEYWORDS. *)
Definition FAMILY_KEYWORDS : list (string * list string) :=
  [("underglaze",
    ["underglaze"; "under glaze"; "sous-email"; "sous email"; "sous-emaux"; "unterglasur"; "onderglazuur"; "sottosmalto"; "bajo cubierta";
     "podglazur"; "underglasyr"; "underglasur"; "engobe de decor"]);
   ("engobe",
    ["engobe"; "angobe"; "angoba"; "slip trailing"; "barbotine"; "casting slip"]);
   ("glaze",
    ["glaze"; "email"; "emaux"; "glasur"; "glazuur"; "glazura"; "glazūra"; "smalto"; "esmalte"; "glasyr"; "couverte"; "cristalline";
     "raku glaze"; "szkliw"; "vidrado"; "poleva"]);
   ("stain",
    ["stain"; "colorant"; "pigment"; "farbkorper"; "kleurstof"; "teinte"; "body stain"; "mason stain"; "dekorfarbe"]);
   ("oxide",
    ["oxide"; "oxyde"; "oxid"; "ossido"; "oxido"; "carbonate"; "carbonat"]);
   ("clay_body",
    ["clay"; "argile"; "terre "; "terre-"; "ton "; "klei"; "molis"; "argilla"; "arcilla"; "lera"; "glinka"; "masa ceramiczna"; "stoneware";
     "earthenware"; "gres"; "grès"; "faience"; "faïence"; "steingut"; "steinzeug"; "porcelain"; "porcelaine"; "porzellan"; "porselein";
     "porcellana"; "paperclay"; "modelling clay"; "pate "; "pâte "; "impasto"; "massa"; "masse"; "stengods"; "cloisonne"]);
   ("raw_material",
    ["feldspar"; "feldspath"; "feldspat"; "kaolin"; "silica"; "silice"; "quartz"; "quarz"; "frit"; "fritte"; "bentonite"; "talc";
     "whiting"; "dolomite"; "wollastonite"; "nepheline"; "grog"; "chamotte"; "ball clay"; "petalite"; "spodumene"; "zirconium"; "zircon";
     "borax"; "gerstley"])].
(** Source: catalogue-dump/scrapers/domain.py:101-127, NON_MATERIAL_KEYWORDS. *)
Definition NON_MATERIAL_KEYWORDS : list string :=
  ["kiln"; "four "; "ofen"; "brennofen"; "oven"; "wheel"; "tour de potier"; "drehscheibe"; "draaischijf"; "extruder"; "pugmill";
   "slab roller"; "brush"; "pinceau"; "pinsel"; "penseel"; "tool"; "outil"; "werkzeug"; "book"; "livre"; "buch"; "dvd"; "apron"; "tablier";
   "banding wheel"; "bisque"; "biscuit"; "shelf"; "plaque d'enfournement"; "regal"; "prop"; "heating element"; "kiln element";
   "heizelement"; "elemento calefactor"; "element de chauffe"; "element chauffant"; "elemento riscaldante"; "resistance"; "thermocouple";
   "controller"; "regulateur"; "sieve"; "tamis"; "sieb"; "scale"; "balance"; "waage"; "respirator"; "masque de protection";
   "masque respiratoire"; "masque anti-poussiere"; "gloves"; "gants"; "sponge"; "eponge"; "schwamm"; "turntable"; "gift card";
   "carte cadeau"; "voucher"; "sample pack"; "spare part"; "topferscheibe"; "segerkegel"; "toplader"; "frontlader"; "kammerofen";
   "muffelofen"; "tonplattenwalze"; "3d drucker"; "tondrucker"].
(** Source: catalogue-dump/scrapers/domain.py:140-164, NON_MATERIAL_WORDS. *)
Definition NON_MATERIAL_WORDS : list string :=
  ["forno"; "fornetto"; "horno"; "cuptor"; "tornio"; "tornietto"; "torno de oleiro"; "termocoppia"; "pennello"; "pennelli"; "spugna";
   "spugne"; "matita"; "matite"; "bilancia"; "setaccio"; "stampo"; "stampi"; "colonnine"; "piastra refrattaria"; "piastre refrattarie";
   "cortador"; "cortante"; "vaciador"; "herramienta"; "piec "; "piece do"; "peci "; "peci za"; "peći "; "peći za"; "drejskiva";
   "drejskivor"; "keramikugn"; "brannugn"; "pugmill"; "pug mill"; "pugger"; "laminadora"; "galletera"; "extrusora"; "ball mill";
   "3d printer"; "printer"; "pyrometric cone"; "cono pirometrico"; "coni pirometrici"; "coni orton"; "cono orton"; "montre fusible"].
(** Source: catalogue-dump/scrapers/domain.py:166-173, SURFACE_KEYWORDS. *)
Definition SURFACE_KEYWORDS : list (string * list string) :=
  [("gloss",
    ["gloss"; "brillant"; "glanz"; "glänzend"; "glanzend"; "lucido"; "blank"; "brillante"; "blizgus"]);
   ("satin",
    ["satin"; "satine"; "satiné"; "seiden"; "zijde"; "satinato"; "satinado"; "halbmatt"]);
   ("matte",
    ["matte"; "matt"; "mat "; "mate"; "opaco"; "mattes"; "matinis"]);
   ("crystalline",
    ["crystal"; "cristal"; "kristall"; "cristallin"; "kristal"]);
   ("metallic",
    ["metallic"; "metallique"; "métallique"; "metallisch"; "metallico"; "lustre"; "luster"]);
   ("textured",
    ["texture"; "textur"; "structuur"; "struttura"; "rough"; "stone effect"])].
(** Source: catalogue-dump/scrapers/domain.py:175-184, EFFECT_KEYWORDS. *)
Definition EFFECT_KEYWORDS : list (string * list string) :=
  [("transparent",
    ["transparent"; "transparente"; "trasparente"; "doorzichtig"; "klar"; "clear"]);
   ("opaque",
    ["opaque"; "opak"; "dekkend"; "coprente"; "opaco"]);
   ("speckled",
    ["speckle"; "mouchete"; "moucheté"; "gesprenkelt"; "gespikkeld"; "screziato"; "flecked"]);
   ("flowing",
    ["flowing"; "coulant"; "laufend"; "fliess"; "vloeiend"; "runny"; "colante"]);
   ("crackle",
    ["crackle"; "craquele"; "craquelé"; "krakelee"; "craquelure"; "crackled"]);
   ("iridescent",
    ["iridescent"; "irise"; "irisé"; "schillernd"; "iridescente"]);
   ("breaking",
    ["breaks"; "break over"; "bricht"; "breking"]);
   ("mottled",
    ["mottled"; "marbre"; "marbré"; "gewolkt"; "marmorizzato"])].
(** Source: catalogue-dump/scrapers/domain.py:186-191, APPLICATION_KEYWORDS. *)
Definition APPLICATION_KEYWORDS : list (string * list string) :=
  [("brushing",
    ["brush"; "pinceau"; "pinsel"; "penseel"; "pennello"; "brossage"; "brushing"]);
   ("dipping",
    ["dip"; "trempage"; "tauch"; "dompel"; "immersione"; "dipping"]);
   ("pouring",
    ["pour"; "coulage"; "giess"; "gieß"; "gieten"; "colatura"; "pouring"]);
   ("spraying",
    ["spray"; "pistolet"; "spritz"; "sproei"; "spruzzo"; "airbrush"; "spraying"])].
(** Source: catalogue-dump/scrapers/domain.py:634-638, EQUIPMENT_ONLY_MAKERS. *)
Definition EQUIPMENT_ONLY_MAKERS : list string :=
  ["nabertherm"; "kittec"; "shimpo"; "peter pugger"; "skutt"; "gladstone"; "brent "].
(** Source: catalogue-dump/scrapers/domain.py:643-648, MACHINE_NAMES. *)
Definition MACHINE_NAMES : list string :=
  ["boudineuse"; "impastatrice"; "vakuummischer"; "vakuumpresse"; "vacuum power wedger"; "spray booth"; "ecotop"; "cabină de glazurat";
   "cabine de vidragem"; "cabina de esmaltar"].
(** Source: catalogue-dump/scrapers/domain.py:664-674, NON_MATERIAL_DEPARTMENTS. *)
Definition NON_MATERIAL_DEPARTMENTS : list string :=
  ["equipment"; "equipamento"; "equipamentos"; "equipamiento"; "equipos"; "machinery"; "maquinaria"; "macchinari"; "ferramenta";
   "ferramentas"; "herramienta"; "herramientas"; "outillage"; "outils"; "attrezzatur"; "utensili"; "narzedzia"; "narzędzia"; "werkzeug";
   "gereedschap"; "verktyg"; "tools"; "fours"; "hornos"; "pirometria"; "materiel d'enfournement"; "randerscheiben"].

(** [len(s)] of UTF-8 text. *)
Fixpoint char_count (s : string) : Z :=
  match s with EmptyString => 0 | String c r => (if char_in 128 191 c then 0 else 1) + char_count r end.
(** Source: catalogue-dump/scrapers/domain.py, _COLLIDABLE. *)
Definition COLLIDABLE : Z := 4.
Definition collidable (k : string) : bool := char_count (str_strip k) <=? COLLIDABLE.
(** [re.compile] of a text that was built. *)
Definition compiled (pattern : string) : regex := default RFail (parse_regex no_flags pattern).
(** Source: catalogue-dump/scrapers/domain.py, _keyword_pattern. *)
Definition keyword_pattern (keywords : list string) : regex :=
  let guarded := filter (fun k => collidable k = true) keywords in
  let loose := filter (fun k => collidable k = false) keywords in
  let alts := str_join "|" (map re_escape guarded) in
  let branches := (if bool_decide (guarded = []) then [] else ["\b(?:" +:+ alts +:+ ")"; "(?:" +:+ alts +:+ ")\b"])
                  ++ (if bool_decide (loose = []) then [] else [str_join "|" (map re_escape loose)]) in
  compiled (str_join "|" branches).
(** Source: catalogue-dump/scrapers/domain.py, _matches. *)
Definition has_keyword (text : string) (keywords : list string) : bool := found (keyword_pattern keywords) text.
(** Source: catalogue-dump/scrapers/domain.py, _first_keyword. *)
Definition first_keyword (text : string) (table : list (string * list string)) : option string :=
  head (omap (fun '(label, keywords) => if has_keyword text keywords then Some label else None) table).
(** Source: catalogue-dump/scrapers/domain.py, _all_keywords. *)
Definition all_keywords (text : string) (table : list (string * list string)) : list string :=
  omap (fun '(label, keywords) => if has_keyword text keywords then Some label else None) table.
(** Source: catalogue-dump/scrapers/domain.py, _word_start. *)
Definition word_start (keywords : list string) : regex := compiled ("\b(?:" +:+ str_join "|" (map re_escape keywords) +:+ ")").

(** ** What the patterns find *)

(** [k] stands in [text], and, when [guarded], begins or ends a word there. *)
Definition stands (guarded : bool) (k text : string) : Prop :=
  exists pre post, text = pre +:+ k +:+ post /\ (guarded = true -> edge pre (k +:+ post) = true \/ edge (pre +:+ k) post = true).

Lemma bars_join k ks : bars k ks = str_join "|" (map re_escape (k :: ks)).
Proof. done. Qed.
Lemma quantifies_bars_end tl : closes tl = true -> quantifies tl = false.
Proof. intros H. by apply stops_not_quantified, closes_stops. Qed.
Lemma found_seq r1 r2 text : found (RSeq r1 r2) text = true <-> exists pre post m q, text = pre +:+ post /\ matches r1 (place pre post) m /\ matches r2 m q.
Proof. rewrite found_iff. cbn [matches]. split; [intros (pre & post & q & E & m & H1 & H2)|intros (pre & post & m & q & E & H1 & H2)]; eauto 10. Qed.
Lemma found_alt r1 r2 text : found (RAlt r1 r2) text = found r1 text || found r2 text.
Proof.
apply eq_iff_eq_true. rewrite orb_true_iff, !found_iff. cbn [matches]. split.
- intros (pre & post & q & E & [H|H]); [left|right]; eauto.
- intros [(pre & post & q & E & H)|(pre & post & q & E & H)]; exists pre, post, q; auto.
Qed.
Lemma matches_words k ks pre post q : matches (alts (lit k) (map lit ks)) (place pre post) q
  <-> exists w rest, w ∈ k :: ks /\ post = w +:+ rest /\ q = place (pre +:+ w) rest.
Proof.
change (lit k) with (id (lit k)). rewrite matches_alts. unfold id. split.
- intros (r & Hr & H). change (lit k :: map lit ks) with (map lit (k :: ks)) in Hr. apply list_elem_of_fmap in Hr as (w & -> & Hw).
  apply matches_lit in H as (rest & -> & ->). eauto.
- intros (w & rest & Hw & -> & ->). exists (lit w). split; [change (lit k :: map lit ks) with (lit <$> (k :: ks)); by apply list_elem_of_fmap_2|].
  apply matches_lit. eauto.
Qed.

Lemma compiled_is pattern r : (forall f, (3 + 4 * String.length pattern <= f)%nat -> parse_alternatives (S f) no_flags 1 pattern = Some (r, 1%nat, "")) -> compiled pattern = r.
Proof. intros H. unfold compiled, parse_regex. change (4 + 4 * String.length pattern)%nat with (S (3 + 4 * String.length pattern)). by rewrite H. Qed.
Lemma compiled_words k ks : compiled (bars k ks) = alts (lit k) (map lit ks).
Proof.
apply compiled_is. intros f Hf. rewrite <- (str_app_nil (bars k ks)). apply parse_bars; [done|lia].
Qed.
Lemma compiled_word_start k ks : compiled ("\b" +:+ bar_group k ks) = RSeq RWord (RSeq (alts (lit k) (map lit ks)) REmpty).
Proof.
apply compiled_is. intros f Hf. change (String.length ("\b" +:+ ?s)) with (S (S (String.length s))) in Hf. rewrite length_bar_group in Hf. apply parse_alternatives_last.
rewrite <- (str_app_nil (bar_group k ks)). apply parse_word_group; [lia|done].
Qed.
(** The pattern of short keywords, with what follows it. *)
Definition guarded_pattern (k : string) (ks : list string) (others : string) : string :=
  "\b" +:+ bar_group k ks +:+ String "|" (bar_group k ks +:+ "\b" +:+ others).
Lemma compiled_guarded k ks : compiled (guarded_pattern k ks "")
  = RAlt (RSeq RWord (RSeq (alts (lit k) (map lit ks)) REmpty)) (RSeq (alts (lit k) (map lit ks)) (RSeq RWord REmpty)).
Proof.
unfold guarded_pattern. apply compiled_is. set (n := String.length _). intros f Hf.
assert (Hn : (12 + 2 * String.length (bars k ks) < n)%nat) by (unfold n; rewrite !length_str_app; cbn [String.length]; rewrite !length_str_app, !length_bar_group; cbn [String.length]; lia).
erewrite parse_alternatives_bar; [|apply parse_word_group; [lia|done]]. destruct f as [|f]; [lia|]. erewrite parse_alternatives_last; [done|]. apply parse_group_word; [lia|done].
Qed.
Lemma compiled_both k ks l ls : compiled (guarded_pattern k ks (String "|" (bars l ls)))
  = RAlt (RSeq RWord (RSeq (alts (lit k) (map lit ks)) REmpty))
      (RAlt (RSeq (alts (lit k) (map lit ks)) (RSeq RWord REmpty)) (alts (lit l) (map lit ls))).
Proof.
unfold guarded_pattern. apply compiled_is. set (n := String.length _). intros f Hf.
assert (Hn : (12 + 2 * String.length (bars k ks) + String.length (bars l ls) < n)%nat).
{ unfold n. rewrite !length_str_app. cbn [String.length]. rewrite !length_str_app, !length_bar_group. cbn [String.length]. lia. }
erewrite parse_alternatives_bar; [|apply parse_word_group; [lia|done]]. destruct f as [|f]; [lia|]. erewrite parse_alternatives_bar; [|apply parse_group_word; [lia|done]].
rewrite <- (str_app_nil (bars l ls)). rewrite parse_bars; [done|done|]. lia.
Qed.

Lemma found_words k ks text : found (alts (lit k) (map lit ks)) text = true <-> exists w, w ∈ k :: ks /\ stands false w text.
Proof.
rewrite found_iff. split.
- intros (pre & post & q & -> & (w & rest & Hw & -> & ->)%matches_words). exists w. split; [done|]. by exists pre, rest.
- intros (w & Hw & pre & rest & -> & _). exists pre, (w +:+ rest), (place (pre +:+ w) rest). split; [done|]. apply matches_words. eauto.
Qed.
Lemma found_word_group k ks text : found (RSeq RWord (RSeq (alts (lit k) (map lit ks)) REmpty)) text = true
  <-> exists w pre rest, w ∈ k :: ks /\ text = pre +:+ w +:+ rest /\ edge pre (w +:+ rest) = true.
Proof.
rewrite found_iff. cbn [matches]. split.
- intros (pre & post & q & -> & m & [-> Hb] & m' & (w & rest & Hw & -> & ->)%matches_words & ->). by exists w, pre, rest.
- intros (w & pre & rest & Hw & -> & He). exists pre, (w +:+ rest), (place (pre +:+ w) rest). split; [done|].
  exists (place pre (w +:+ rest)). split; [done|]. exists (place (pre +:+ w) rest). split; [|done]. apply matches_words. eauto.
Qed.
Lemma found_group_word k ks text : found (RSeq (alts (lit k) (map lit ks)) (RSeq RWord REmpty)) text = true
  <-> exists w pre rest, w ∈ k :: ks /\ text = pre +:+ w +:+ rest /\ edge (pre +:+ w) rest = true.
Proof.
rewrite found_iff. split.
- intros (pre & post & q & -> & [(w & rest & Hw & -> & ->)%matches_words Hb]%matches_then_edge). by exists w, pre, rest.
- intros (w & pre & rest & Hw & -> & He). exists pre, (w +:+ rest), (place (pre +:+ w) rest). split; [done|].
  apply matches_then_edge. split; [|done]. apply matches_words. eauto.
Qed.
Lemma found_guarded k ks text :
  found (RAlt (RSeq RWord (RSeq (alts (lit k) (map lit ks)) REmpty)) (RSeq (alts (lit k) (map lit ks)) (RSeq RWord REmpty))) text = true
  <-> exists w, w ∈ k :: ks /\ stands true w text.
Proof.
rewrite found_alt, orb_true_iff, found_word_group, found_group_word. split.
- intros [(w & pre & rest & Hw & -> & He)|(w & pre & rest & Hw & -> & He)]; exists w; (split; [done|]); exists pre, rest; auto.
- intros (w & Hw & pre & rest & -> & He). destruct (He eq_refl) as [H|H]; [left|right]; exists w, pre, rest; auto.
Qed.

Lemma guarded_join k ks : str_join "|" ["\b(?:" +:+ bars k ks +:+ ")"; "(?:" +:+ bars k ks +:+ ")\b"] = guarded_pattern k ks "".
Proof. unfold guarded_pattern, bar_group. generalize (bars k ks) as a. intros a. cbn [str_join]. rewrite !str_app_assoc. reflexivity. Qed.
Lemma both_join k ks others :
  str_join "|" ["\b(?:" +:+ bars k ks +:+ ")"; "(?:" +:+ bars k ks +:+ ")\b"; others] = guarded_pattern k ks (String "|" others).
Proof. unfold guarded_pattern, bar_group. generalize (bars k ks) as a. intros a. cbn [str_join]. rewrite !str_app_assoc. reflexivity. Qed.

(** Keywords as the tables mean them. *)
Definition stands_in (keywords : list string) (text : string) : Prop := exists k, k ∈ keywords /\ stands (collidable k) k text.

Lemma filter_bool {A} (f : A -> bool) b (l : list A) x : x ∈ filter (fun y => f y = b) l <-> x ∈ l /\ f x = b.
Proof. rewrite list_elem_of_filter. tauto. Qed.
Lemma pattern_found keywords text : keywords <> [] -> has_keyword text keywords = true <-> stands_in keywords text.
Proof.
intros Hne. unfold has_keyword, keyword_pattern. pose proof (filter_bool collidable true keywords) as HG. pose proof (filter_bool collidable false keywords) as HL.
set (G := filter (fun k => collidable k = true) keywords) in *. set (L := filter (fun k => collidable k = false) keywords) in *. clearbody G L.
assert (Hs : stands_in keywords text <-> (exists w, w ∈ G /\ stands true w text) \/ (exists w, w ∈ L /\ stands false w text)).
{ unfold stands_in. split.
  - intros (w & Hw & H). destruct (collidable w) eqn:E; [left|right]; exists w; (split; [by (apply HG || apply HL)|done]).
  - intros [(w & Hw & H)|(w & Hw & H)]; exists w; [apply HG in Hw as [Hw E]|apply HL in Hw as [Hw E]]; rewrite E; auto. }
rewrite Hs. destruct G as [|g G], L as [|l L]; cbn [bool_decide app].
- destruct keywords as [|k ks]; [done|]. destruct (collidable k) eqn:E; exfalso.
  + assert (k ∈ []) by (apply HG; split; [constructor|done]). by eapply not_elem_of_nil.
  + assert (k ∈ []) by (apply HL; split; [constructor|done]). by eapply not_elem_of_nil.
- rewrite bool_decide_eq_true_2, bool_decide_eq_false_2 by done. cbn [app str_join]. rewrite <- bars_join, compiled_words, found_words.
  split; [by right|intros [(w & Hw & _)|H]; [by apply not_elem_of_nil in Hw|done]].
- rewrite bool_decide_eq_false_2, bool_decide_eq_true_2 by done. cbn [app]. rewrite <- bars_join.
  rewrite guarded_join, compiled_guarded, found_guarded. split; [by left|intros [H|(w & Hw & _)]; [done|by apply not_elem_of_nil in Hw]].
- rewrite !bool_decide_eq_false_2 by done. cbn [app]. rewrite <- !bars_join.
  rewrite both_join, compiled_both, !found_alt, orb_assoc, orb_true_iff, <- found_alt, found_guarded, found_words. done.
Qed.

(** * Text *)

(** [s.replace(old, new)] of an [old] that is not empty. *)
Fixpoint replace_from (skip : nat) (old new s : string) : string :=
  match s with
  | EmptyString => EmptyString
  | String c r =>
      match skip with
      | S skip => replace_from skip old new r
      | O => if str_startswith old s then new +:+ replace_from (String.length old - 1) old new r else String c (replace_from 0 old new r)
      end
  end.
Definition str_replace (old new s : string) : string := replace_from 0 old new s.
Example replaced : str_replace "kiln" " " "kiln ice kilnkiln" = "  ice   " /\ str_replace "é" "e" "émail séché" = "email seche".
Proof. by vm_compute. Qed.

(** Source: catalogue-dump/scrapers/domain.py:262-265, fold. *)
Definition ACCENTS : list (list string * string) :=
  [(["à"; "â"; "ä"; "á"], "a"); (["è"; "é"; "ê"; "ë"], "e"); (["î"; "ï"; "í"], "i"); (["ô"; "ö"; "ó"], "o");
   (["û"; "ü"; "ù"; "ú"], "u"); (["ç"], "c"); (["ñ"], "n"); (["ø"], "o"); (["å"], "a"); (["æ"], "ae")].
(** Source: catalogue-dump/scrapers/domain.py:266-268, fold. *)
Definition unaccent (text : string) : string :=
  foldl (fun text '(accented, plain) => foldl (fun text a => str_replace a plain text) text accented) text ACCENTS.

(** Source: catalogue-dump/scrapers/domain.py, _SAYS_FAMILY. *)
Definition SAYS_FAMILY : regex :=
  rx no_flags ("\b(glaze|glazes|email|emaux|glasur|glazuur|esmalte|smalto|engobe" +:+ "|underglaze|szkliw|angobe)").
(** Source: catalogue-dump/scrapers/domain.py, _MACHINE_SPECIFICATION. *)
Definition MACHINE_SPECIFICATION : regex :=
  rx re_I ("\b\d+(?:[.,]\d+)?\s?kw\b" +:+ "|\b\d+(?:[.,]\d+)?\s?kwh\b" +:+ "|\b\d{3}\s?volt"
    +:+ "|\btrifase|\btrifasico|\bdreiphasen|\btrojfazowy" +:+ "|\bsingle phase\b|\b3 phase\b|\bthree phase\b").
Example patterns_compile :
  compiles no_flags "\b(glaze|glazes|email|emaux|glasur|glazuur|esmalte|smalto|engobe|underglaze|szkliw|angobe)" = true
  /\ found MACHINE_SPECIFICATION "Leistung 3,6 kW" = true /\ found MACHINE_SPECIFICATION "EK320V" = false.
Proof. by vm_compute. Qed.

Section domain.
Context (unescape : string -> string) (repr : json -> string).

(** Source: catalogue-dump/scrapers/domain.py, clean. *)
Definition clean (value : json) : string := compatibility_clean unescape repr value.
(** Source: catalogue-dump/scrapers/domain.py, fold. *)
Definition fold (value : json) : string := unaccent (str_casefold (clean value)).
(** [" ".join(clean(value) for value in texts if value)] *)
Definition joined (texts : list json) : json := JStr (str_join " " (map clean (filter (fun v => truthy v = true) texts))).

(** Source: catalogue-dump/scrapers/domain.py, family. *)
Definition family (texts : list json) : option string :=
  let text := fold (joined texts) in if str_isempty text then None else first_keyword text FAMILY_KEYWORDS.
(** Source: catalogue-dump/scrapers/domain.py, surface. *)
Definition surface (texts : list json) : option string := first_keyword (fold (joined texts)) SURFACE_KEYWORDS.
(** Source: catalogue-dump/scrapers/domain.py, effects. *)
Definition effects (texts : list json) : list string := all_keywords (fold (joined texts)) EFFECT_KEYWORDS.
(** Source: catalogue-dump/scrapers/domain.py, application_methods. *)
Definition application_methods (texts : list json) : list string := all_keywords (fold (joined texts)) APPLICATION_KEYWORDS.
(** Source: catalogue-dump/scrapers/domain.py, form. *)
Definition form (texts : list json) : option string :=
  let text := fold (joined texts) in
  if str_isempty text then None
  else if found (rx no_flags "\bpowder|poudre|pulver|poeder|polvere|polvo|milteliai|pulverform") text then Some "powder"
  else if found (rx no_flags ("\bliquid|liquide|fl(?:u|ü)ssig|vloeibaar|liquido|ready[\s-]?to[\s-]?use" +:+ "|pret a l'emploi|brush[\s-]?on")) text
  then Some "liquid"
  else if found (rx no_flags "\bgranul|pellet") text then Some "granulate" else None.

(** What is left of a name for the words of equipment. Source:
    catalogue-dump/scrapers/domain.py:586-598, looks_non_material. *)
Definition equipment_text (text : string) : string :=
  let text := if found SAYS_FAMILY text then re_sub (rx no_flags "\bbrush[\s-]+on\b") " " text else text in
  if str_contains "kiln" text && found SAYS_FAMILY text then str_replace "kiln" " " text else text.
(** Source: catalogue-dump/scrapers/domain.py, looks_non_material. *)
Definition looks_non_material (texts : list json) : bool :=
  let text := equipment_text (fold (joined texts)) in
  existsb (fun keyword => str_contains keyword text) NON_MATERIAL_KEYWORDS
  || found (word_start (NON_MATERIAL_WORDS ++ EQUIPMENT_ONLY_MAKERS ++ MACHINE_NAMES)) text.
(** Source: catalogue-dump/scrapers/domain.py, names_non_material_department. *)
Definition names_non_material_department (categories : list json) : bool :=
  let text := fold (joined categories) in existsb (fun department => str_contains department text) NON_MATERIAL_DEPARTMENTS.
(** Source: catalogue-dump/scrapers/domain.py, publishes_machine_specification. *)
Definition publishes_machine_specification (description : json) : bool := found MACHINE_SPECIFICATION (fold description).
(** Source: catalogue-dump/scrapers/domain.py, is_material. *)
Definition is_material (family_label : json) (texts categories : list json) (description : json) : bool :=
  if looks_non_material texts then false
  else if names_non_material_department categories then false
  else if publishes_machine_specification description then false
  else negb (bool_decide (family_label = JNull)).

(** * Records *)

Definition IDENTITY_FORMAT : string := "ceramics.catalogue_identity.v2".
Definition float_ge_zero (a : pyfloat) : bool := match a with FFinite m _ => 0 <=? m | FInf negative => negb negative | FNan => false end.
(** Source: catalogue-dump/scrapers/record.py, is_valid. *)
Definition is_valid (r : list (string * json)) : bool :=
  if negb (truthy (get r "name")) then false
  else if bool_decide (get r "format" = JStr IDENTITY_FORMAT) then true
  else match get r "price" with JInt n => 0 <=? n | JBool _ => true | JFloat f => float_ge_zero f | _ => false end.

(** [" ".join(values)]: a member that is no text raises. *)
Definition join_texts (values : list json) : result pyexn string :=
  texts ← map_result (fun v => match v with JStr s => Ok s | _ => Err (TypeError "sequence item: expected str instance") end) values;
  Ok (str_join " " texts).
(** Source: catalogue-dump/scrapers/record.py, in_scope. *)
Definition in_scope (r : list (string * json)) (strict : bool) : result pyexn bool :=
  if negb strict then Ok true
  else
    categories ← items_of (get r "category_path");
    path ← join_texts categories;
    Ok (is_material (get r "family") [get r "name"; JStr path] categories (or_else (get r "description") (JStr ""))).

(** Numbers are equal by their value, whatever their type. *)
Definition comparable (v : json) : result pyexn json :=
  match v with
  | JBool b => Ok (JFloat (normal (if b then 1 else 0) 0))
  | JInt n => Ok (JFloat (normal n 0))
  | JFloat (FFinite m e) => Ok (JFloat (normal m e))
  | JList _ | JDict _ => Err (TypeError "unhashable type")
  | v => Ok v
  end.
(** Source: catalogue-dump/scrapers/record.py, dedupe_key. *)
Definition dedupe_key (r : list (string * json)) : result pyexn (string * list json * string) :=
  let casefolded key := str_casefold (clean (get r key)) in
  let or_text a b := if str_isempty a then b else a in
  let identity := or_text (casefolded "manufacturer_sku") (or_text (casefolded "supplier_reference") (casefolded "name")) in
  package ← match or_else (get r "package_size") (JDict []) with JDict d => Ok d | _ => Err (TypeError "object has no attribute 'get'") end;
  values ← map_result comparable [get r "price"; get r "currency"; get package "value"; get package "unit"];
  Ok (identity, values, casefolded "variant_title").

(** Source: catalogue-dump/scrapers/record.py:402-407, coverage. *)
Definition tracked : list string :=
  ["manufacturer_sku"; "supplier_reference"; "gtin"; "brand"; "description"; "package_size"; "unit_price"; "family"; "form"; "firing"; "surface";
   "effects"; "colour"; "claims"; "documents"; "vat_status"; "stock_quantity"; "category_path"; "all_image_urls"].
(** Source: catalogue-dump/scrapers/record.py, coverage. *)
Definition coverage (records : list (list (string * json))) : list (string * Z) :=
  map (fun field => (field, Z.of_nat (length (filter (fun r => truthy (get r field) = true) records)))) tracked.
End domain.

(** ** What a row needs *)

(** A price is a number that is not negative. *)
Definition priced (price : json) : Prop :=
  match price with
  | JInt n => 0 <= n
  | JBool _ | JFloat (FInf false) => True
  | JFloat (FFinite m _) => 0 <= m
  | _ => False
  end.
(** A row has a name, and a price unless it is an identity. *)
Definition usable (row : list (string * json)) : Prop :=
  truthy (get row "name") = true /\ (get row "format" = JStr IDENTITY_FORMAT \/ priced (get row "price")).
Lemma is_valid_iff row : is_valid row = true <-> usable row.
Proof.
unfold is_valid, usable. destruct (truthy (get row "name")); simpl; [|by split; [|intros []]]. case_bool_decide as E; [by split; auto|].
unfold priced. destruct (get row "price") as [|b|n|f|t|l|d]; try (split; [done|intros [_ [?|?]]; done]); try (split; [by auto|done]).
- rewrite Z.leb_le. naive_solver.
- destruct f as [m e|[]|]; simpl; try (split; [done|intros [_ [?|?]]; done]); [rewrite Z.leb_le; naive_solver|by split; auto].
Qed.

(** * The keyword rule *)

(** C40. A text has a keyword of a table exactly when the keyword stands in it, and, when it
    has at most four letters, begins or ends a word there: the pattern that is built,
    compiled and searched decides that rule, for every table and every text. *)
Theorem keywords_touch_words keywords text : keywords <> [] -> has_keyword text keywords = true <-> stands_in keywords text.
Proof. apply pattern_found. Qed.
Lemma keywords_touch_words_witness : has_keyword "valvola ingresso aria" ["gres"; "stoneware"] = true <-> stands_in ["gres"; "stoneware"] "valvola ingresso aria".
Proof. exact (keywords_touch_words ["gres"; "stoneware"] "valvola ingresso aria" ltac:(discriminate)). Defined.
Example short_keywords :
  has_keyword "valvola ingresso aria" ["gres"; "stoneware"] = false /\ has_keyword "gres porcellanato" ["gres"; "stoneware"] = true
  /\ has_keyword "redstoneware body" ["gres"; "stoneware"] = true.
Proof. by vm_compute. Qed.

(** ** The scope *)

Lemma prefix_app k : forall s, String.prefix k s = true <-> exists post, s = k +:+ post.
Proof.
induction k as [|c k IH]; intros s; [split; intros _; [by exists s|by destruct s]|]. destruct s as [|d s]; simpl.
- split; [done|intros (post & E); by rewrite str_app_cons in E].
- destruct (Ascii.ascii_dec c d) as [->|Hn]; [rewrite IH|]; split; try done.
  + intros (post & ->). by exists post.
  + intros (post & E). rewrite str_app_cons in E. injection E as ->. by exists post.
  + intros (post & E). rewrite str_app_cons in E. by injection E as -> ?.
Qed.
Lemma str_contains_cons k c s : str_contains k (String c s) = String.prefix k (String c s) || str_contains k s.
Proof. unfold str_contains. cbn [String.index]. destruct (String.prefix k (String c s)); [done|]. by destruct (String.index 0 k s). Qed.
Lemma str_contains_app k s : str_contains k s = true <-> exists pre post, s = pre +:+ k +:+ post.
Proof.
induction s as [|c s IH].
- destruct k as [|d k]; (split; [|done || (intros (pre & post & E); by destruct pre)]); [intros _; by exists "", ""|done].
- rewrite str_contains_cons, orb_true_iff, prefix_app, IH. split.
  + intros [(post & ->)|(pre & post & ->)]; [by exists "", post|by exists (String c pre), post].
  + intros (pre & post & E). destruct pre as [|d pre]; [left; by exists post|right].
    rewrite str_app_cons in E. injection E as <- ->. by exists pre, post.
Qed.
(** [k] stands in a text; it begins a word there. *)
Definition within_text (k text : string) : Prop := exists pre post, text = pre +:+ k +:+ post.
Definition begins_word (k text : string) : Prop := exists pre post, text = pre +:+ k +:+ post /\ edge pre (k +:+ post) = true.

Lemma existsb_within keywords text : existsb (fun k => str_contains k text) keywords = true <-> exists k, k ∈ keywords /\ within_text k text.
Proof.
rewrite existsb_exists. split; intros (k & Hk & H); exists k; (split; [by apply list_elem_of_In|by apply str_contains_app]).
Qed.
Lemma word_start_found k ks text : found (word_start (k :: ks)) text = true <-> exists w, w ∈ k :: ks /\ begins_word w text.
Proof.
unfold word_start. rewrite <- bars_join. change ("\b(?:" +:+ bars k ks +:+ ")") with ("\b" +:+ bar_group k ks). rewrite compiled_word_start, found_word_group.
split; [intros (w & pre & rest & Hw & -> & He); exists w; split; [done|by exists pre, rest]|intros (w & Hw & pre & rest & -> & He); by exists w, pre, rest].
Qed.

(** A text says what it is a glaze, an engobe or the like. *)
Definition says_family (text : string) : Prop := exists pre post q, text = pre +:+ post /\ matches SAYS_FAMILY (place pre post) q.
(** What is left of a text to look for equipment in: where it says its family, "brush-on" is
    a form and no brush; and where what is left still does, "kiln" is no kiln. *)
Definition read_for_equipment (text left : string) : Prop := exists unbrushed,
  (says_family text /\ unbrushed = re_sub (rx no_flags "\bbrush[\s-]+on\b") " " text \/ ~ says_family text /\ unbrushed = text)
  /\ (says_family unbrushed /\ left = str_replace "kiln" " " unbrushed \/ ~ says_family unbrushed /\ left = unbrushed).
Lemma replace_absent old new s : old <> "" -> str_contains old s = false -> str_replace old new s = s.
Proof.
intros Ho. unfold str_replace. induction s as [|c s IH]; [done|]. rewrite str_contains_cons. intros [Hp Hs]%orb_false_iff. cbn [replace_from].
unfold str_startswith. rewrite Hp. by rewrite IH.
Qed.
Lemma read_for_equipment_iff text left : read_for_equipment text left <-> left = equipment_text text.
Proof.
unfold read_for_equipment, equipment_text, says_family. setoid_rewrite <- found_iff. set (brush := re_sub _ " " text).
assert (K : forall t, (if str_contains "kiln" t && found SAYS_FAMILY t then str_replace "kiln" " " t else t) = if found SAYS_FAMILY t then str_replace "kiln" " " t else t).
{ intros t. destruct (found SAYS_FAMILY t); [|by rewrite andb_false_r]. destruct (str_contains "kiln" t) eqn:E; [done|]. by rewrite replace_absent. }
rewrite K. split.
- intros (u & [[-> ->]|[->%not_true_is_false ->]] & [[-> ->]|[->%not_true_is_false ->]]); done.
- intros ->. exists (if found SAYS_FAMILY text then brush else text). split.
  + destruct (found SAYS_FAMILY text); [left|right]; by split.
  + set (u := if found SAYS_FAMILY text then brush else text). destruct (found SAYS_FAMILY u); [left|right]; by split.
Qed.

Definition EQUIPMENT_WORDS : list string := NON_MATERIAL_WORDS ++ EQUIPMENT_ONLY_MAKERS ++ MACHINE_NAMES.
(** Texts that name equipment. *)
Definition names_equipment (unescape : string -> string) (repr : json -> string) (texts : list json) : Prop :=
  exists left, read_for_equipment (fold unescape repr (joined unescape repr texts)) left
    /\ ((exists k, k ∈ NON_MATERIAL_KEYWORDS /\ within_text k left) \/ (exists k, k ∈ EQUIPMENT_WORDS /\ begins_word k left)).
Lemma looks_non_material_iff unescape repr texts : looks_non_material unescape repr texts = true <-> names_equipment unescape repr texts.
Proof.
unfold looks_non_material, names_equipment. cbv zeta. setoid_rewrite read_for_equipment_iff. set (text := equipment_text _). clearbody text. rewrite orb_true_iff, existsb_within.
change (NON_MATERIAL_WORDS ++ EQUIPMENT_ONLY_MAKERS ++ MACHINE_NAMES) with ("forno" :: tail EQUIPMENT_WORDS).
rewrite word_start_found. split; [intros H; exists text; by split|by intros (? & -> & ?)].
Qed.

(** What speaks against a record: its name or the path of its categories names equipment, a
    category names a department that sells none, or its description rates a machine. *)
Section scope.
Context (unescape : string -> string) (repr : json -> string).
Definition filed_elsewhere (categories : list json) : Prop :=
  exists k, k ∈ NON_MATERIAL_DEPARTMENTS /\ within_text k (fold unescape repr (joined unescape repr categories)).
Definition rates_a_machine (description : json) : Prop :=
  exists pre post q, fold unescape repr description = pre +:+ post /\ matches MACHINE_SPECIFICATION (place pre post) q.

Lemma is_material_iff label name path categories description :
  is_material unescape repr label [name; JStr path] categories description = true
  <-> label <> JNull /\ ~ names_equipment unescape repr [name; JStr path] /\ ~ filed_elsewhere categories /\ ~ rates_a_machine description.
Proof.
unfold is_material. pose proof (looks_non_material_iff unescape repr [name; JStr path]) as H1.
assert (H2 : names_non_material_department unescape repr categories = true <-> filed_elsewhere categories) by apply existsb_within.
assert (H3 : publishes_machine_specification unescape repr description = true <-> rates_a_machine description) by apply found_iff.
destruct (looks_non_material _ _ _), (names_non_material_department _ _ _), (publishes_machine_specification _ _ _); try (split; [done|tauto]).
rewrite negb_true_iff, bool_decide_eq_false. assert (false <> true) by done. tauto.
Qed.
End scope.
