(* ===== verification/LegacyCrawl.v ===== *)
(** What every legacy scraper shares ([catalogue-dump/.../scrapers/base.py], class
    [Scraper]) and one source's run ([crawl/runner.py]): failures while listing and while
    reading, what is kept of the extracted rows, the walk of the sitemaps, the deadline and
    the other ends of a run, its summary and its dump.

    A scraper's own [scrape] is the argument of the functions that call it: any program
    over the crawl. The text of an exception, the inflating of a compressed sitemap, the
    compressed dump and its digest are parameters too. *)
From S2P Require Export LegacyFetch Domain Worker.
From Stdlib Require Import Ascii.
Open Scope Z_scope.

(** * The state of a crawl *)

(** Source: catalogue-dump/scrapers/base.py, ScrapeResult. *)
Record ScrapeResult := {
  sx_records : list record; sx_errors : list (string * string); sx_requests : Z; sx_rendered_pages : Z; sx_discovered : Z; sx_truncated : bool;
  sx_notes : list string; sx_filtered : Z; sx_invalid : Z; sx_stats : option TransportStats; sx_outcome_counts : list (string * Z);
  sx_cache_bytes_read : Z; sx_proxy_bytes_reserved : Z; sx_proxy_bytes_estimated : Z; sx_browser_gain : Z; sx_browser_zero_gain : Z;
}.
#[export] Instance ScrapeResult_eta : Eta ScrapeResult := fun x =>
  {| sx_records := sx_records x; sx_errors := sx_errors x; sx_requests := sx_requests x; sx_rendered_pages := sx_rendered_pages x;
     sx_discovered := sx_discovered x; sx_truncated := sx_truncated x; sx_notes := sx_notes x; sx_filtered := sx_filtered x; sx_invalid := sx_invalid x;
     sx_stats := sx_stats x; sx_outcome_counts := sx_outcome_counts x; sx_cache_bytes_read := sx_cache_bytes_read x;
     sx_proxy_bytes_reserved := sx_proxy_bytes_reserved x; sx_proxy_bytes_estimated := sx_proxy_bytes_estimated x;
     sx_browser_gain := sx_browser_gain x; sx_browser_zero_gain := sx_browser_zero_gain x |}.
Definition new_result : ScrapeResult :=
  {| sx_records := []; sx_errors := []; sx_requests := 0; sx_rendered_pages := 0; sx_discovered := 0; sx_truncated := false; sx_notes := [];
     sx_filtered := 0; sx_invalid := 0; sx_stats := None; sx_outcome_counts := []; sx_cache_bytes_read := 0; sx_proxy_bytes_reserved := 0;
     sx_proxy_bytes_estimated := 0; sx_browser_gain := 0; sx_browser_zero_gain := 0 |}.

(** What a scraper reads and changes: the network behind its fetcher, its result, and
    whether it is listing. Source: catalogue-dump/scrapers/base.py, Scraper.__init__. *)
Record Crawl := { cr_web : FetchWorld; cr_result : ScrapeResult; cr_enumerating : bool }.
#[export] Instance Crawl_eta : Eta Crawl := fun c => {| cr_web := cr_web c; cr_result := cr_result c; cr_enumerating := cr_enumerating c |}.

(** How a crawl is broken off. [WalksOn]: the model of a loop ran out of fuel. *)
Inductive crawl_exn := Raised (e : fetch_exn) | DeadlinePassed | Cancelled | NoBrowser (message : string) | WalksOn.
Abbreviation crawl := (eff Crawl crawl_exn).

(** The configuration of a source. Source: catalogue-dump/config/sources.py, SourceConfig. *)
Record Config := {
  cg_label : string; cg_url : string; cg_scraper : string; cg_scope : string; cg_delay : option Q; cg_ignore_robots : bool; cg_obey_robots : bool;
  cg_timeout_seconds : option Q; cg_material_categories : option (list json); cg_excluded_categories : option (list json);
}.
(** [isinstance(error, (httpx.HTTPError, Blocked, UnicodeError))] *)
Definition unread (e : fetch_exn) : bool := match e with TransportError _ _ | StatusError _ | Blocked _ | NotCached _ => true | _ => false end.
(** The exceptions a run records as its own failure. [OSError] stands for its subclasses. *)
Definition recorded (e : fetch_exn) : bool :=
  unread e || match e with ProxyDenied _ => true | OtherError name => bool_decide (name = "OSError") | _ => false end.

Section crawling.
Context `{Outside} (unescape : string -> string) (repr : json -> string) (message : fetch_exn -> string) (inflate : string -> result fetch_exn string).
#[local] Abbreviation clean := (Domain.clean unescape repr).
#[local] Abbreviation fold := (Domain.fold unescape repr).

Definition web {A} (m : fetch A) : crawl A := fun c =>
  match m (cr_web c) with
  | (Ok a, w) => (Ok a, c <| cr_web := w |>)
  | (Err NeverWakes, w) => (Err DeadlinePassed, c <| cr_web := w |>)
  | (Err e, w) => (Err (Raised e), c <| cr_web := w |>)
  end.
Definition pure {A} (r : result pyexn A) : crawl A := match r with Ok a => mret a | Err e => throw (Raised (FetchPy e)) end.
Definition on_result (f : ScrapeResult -> ScrapeResult) : crawl () := modify (fun c => c <| cr_result := f (cr_result c) |>).

(** ** Failures *)

(** Source: catalogue-dump/scrapers/base.py, Scraper.note. *)
Definition note (text : string) : crawl () := on_result (fun x => x <| sx_notes := sx_notes x ++ [text] |>).
(** Source: catalogue-dump/scrapers/base.py, Scraper.extracting. *)
Definition extracting {A} (m : crawl A) : crawl A :=
  previous ← gets cr_enumerating;
  _ ← modify (fun c => c <| cr_enumerating := false |>);
  finally m (modify (fun c => c <| cr_enumerating := previous |>)).
(** Source: catalogue-dump/scrapers/base.py, Scraper.fail. *)
Definition fail_ (url error : string) : crawl () :=
  enumerating ← gets cr_enumerating;
  on_result (fun x => x <| sx_errors := sx_errors x ++ [(url, error)] |> <| sx_truncated := sx_truncated x || enumerating |>).
(** Source: catalogue-dump/scrapers/base.py, Scraper.enumeration_failed. *)
Definition enumeration_failed (url error : string) : crawl () :=
  _ ← fail_ url error; on_result (fun x => x <| sx_truncated := true |>).

(** ** Rows *)

Definition strict_scope (cfg : Config) : bool := bool_decide (cg_scope cfg = "materials").
(** Source: catalogue-dump/scrapers/base.py, Scraper.category_allows. *)
Definition category_allows (cfg : Config) (values : list json) : option bool :=
  match cg_material_categories cfg with
  | Some ((_ :: _) as allowed) =>
      let haystack := fold (joined unescape repr values) in Some (existsb (fun entry => str_contains (fold entry) haystack) allowed)
  | _ => None
  end.
(** Source: catalogue-dump/scrapers/base.py, Scraper.excluded. *)
Definition excluded (cfg : Config) (values : list json) : bool :=
  let haystack := fold (joined unescape repr values) in
  existsb (fun entry => str_contains (fold entry) haystack) (default [] (cg_excluded_categories cfg)).
(** Source: catalogue-dump/scrapers/base.py, Scraper.keep. *)
Definition keep (cfg : Config) (row : record) (category_match : option bool) : result pyexn bool :=
  if negb (is_valid row) then Ok false
  else if negb (strict_scope cfg) then Ok true
  else
    path ← items_of (get row "category_path");
    categories ← join_texts path;
    if excluded cfg [JStr categories; get row "name"] then Ok false
    else match category_match with
         | Some true => Ok (negb (looks_non_material unescape repr [get row "name"]))
         | Some false => Ok false
         | None => in_scope unescape repr row true
         end.
(** Source: catalogue-dump/scrapers/base.py, Scraper.add. *)
Definition add (cfg : Config) (row : option record) (category_match : option bool) : crawl () :=
  match row with
  | None | Some [] => mret ()
  | Some row =>
      if negb (is_valid row) then on_result (fun x => x <| sx_invalid := sx_invalid x + 1 |>)
      else
        kept ← pure (keep cfg row category_match);
        if (kept : bool) then on_result (fun x => x <| sx_records := sx_records x ++ [row] |>)
        else on_result (fun x => x <| sx_filtered := sx_filtered x + 1 |>)
  end.
(** Source: catalogue-dump/scrapers/base.py, Scraper.deduplicate. *)
Fixpoint deduplicate_from (seen : list (string * list json * string)) (records : list record) : result pyexn (list record) :=
  match records with
  | [] => Ok []
  | row :: records =>
      key ← dedupe_key unescape repr row;
      if bool_decide (key ∈ seen) then deduplicate_from seen records
      else rest ← deduplicate_from (key :: seen) records; Ok (row :: rest)
  end.
Definition deduplicate (records : list record) : result pyexn (list record) := deduplicate_from [] records.

(** ** Sitemaps *)

(** A compressed sitemap begins with [1f 8b]. Source: catalogue-dump/scrapers/base.py, Scraper._sitemap_text. *)
Definition sitemap_text (body : string) : result fetch_exn string :=
  if str_startswith (String (chr 31) (String (chr 139) EmptyString)) body then inflate body else Ok body.
(** The locations of a sitemap, and whether it is an index. Source:
    catalogue-dump/scrapers/base.py:2114-2118, Scraper.sitemap_urls. *)
Definition sitemap_entries (document : string) : bool * list string :=
  (found (rx re_I "<sitemapindex\b") document,
   map (fun value => clean (JStr value)) (findall (rx re_I "<loc>\s*(?:<!\[CDATA\[)?(.*?)(?:\]\]>)?\s*</loc>") document)).

Definition sitemap_ask (url : string) : Ask :=
  {| ak_url := url; ak_params := None; ak_accept := Some "application/xml,text/xml"; ak_method := "GET"; ak_body := None; ak_headers := [] |}.
(** One sitemap: [None] when it could not be read. Source: catalogue-dump/scrapers/base.py:2107-2118, Scraper.sitemap_urls. *)
Definition read_sitemap (after : nat) (url : string) : crawl (option (bool * list string)) :=
  catch (
    r ← web (response after 0 (sitemap_ask url) false true);
    _ ← on_result (fun x => x <| sx_requests := sx_requests x + 1 |>);
    document ← web (lift (sitemap_text (rs_text r)));
    mret (Some (sitemap_entries document)))
  (fun e => match e with
            | Raised x => if unread x then _ ← fail_ url (message x); mret None else throw e
            | _ => throw e
            end).
(** The pages found, in order. [get]: what a sitemap says. Source:
    catalogue-dump/scrapers/base.py, Scraper.sitemap_urls. *)
Fixpoint walk (get : string -> crawl (option (bool * list string))) (wanted : string -> bool) (fuel : nat) (queue seen found : list string) : crawl (list string) :=
  match fuel with
  | O => throw WalksOn
  | S fuel =>
      match queue with
      | [] => mret found
      | url :: queue =>
          if bool_decide (url ∈ seen) then walk get wanted fuel queue seen found
          else
            said ← get url;
            match said with
            | None => walk get wanted fuel queue (url :: seen) found
            | Some (true, locations) => walk get wanted fuel (queue ++ locations) (url :: seen) found
            | Some (false, locations) => walk get wanted fuel queue (url :: seen) (found ++ filter (fun value => wanted value = true) locations)
            end
      end
  end.
(** Source: catalogue-dump/scrapers/base.py, Scraper.sitemap_urls. *)
Definition sitemap_urls (fuel after : nat) (sitemaps : list string) (pattern : option regex) : crawl (list string) :=
  let wanted value := match pattern with Some r => Regex.found r value | None => true end in
  found ← walk (read_sitemap after) wanted fuel (fromkeys sitemaps) [] []; mret (fromkeys found).

(** ** A run of one scraper *)

(** Source: catalogue-dump/scrapers/base.py, TransportStats.merge. *)
Definition merge_stats (a b : TransportStats) : TransportStats :=
  {| ts_tx := ts_tx a + ts_tx b; ts_rx := ts_rx a + ts_rx b; ts_browser_rx := ts_browser_rx a + ts_browser_rx b; ts_direct := ts_direct a + ts_direct b;
     ts_impersonated := ts_impersonated a + ts_impersonated b; ts_browser := ts_browser a + ts_browser b; ts_proxy := ts_proxy a + ts_proxy b;
     ts_not_modified := ts_not_modified a + ts_not_modified b; ts_saved_304 := ts_saved_304 a + ts_saved_304 b;
     ts_outcomes := foldl (fun o '(name, n) => dict_set name (default 0 (dict_get name o) + n) o) (ts_outcomes a) (ts_outcomes b) |}.
(** Source: catalogue-dump/scrapers/base.py, TransportStats.copy_to. *)
Definition copy_to (t : TransportStats) (x : ScrapeResult) : ScrapeResult :=
  x <| sx_stats := Some t |>
    <| sx_outcome_counts := dict_set "bytes_saved_304" (ts_saved_304 t) (dict_set "304_reused" (ts_not_modified t) (ts_outcomes t)) |>.
(** The counters of a run that [scrape] left. Source: catalogue-dump/scrapers/base.py:2152-2166, Scraper.run. *)
Definition close_run : crawl () :=
  c ← gets id;
  records ← pure (deduplicate (sx_records (cr_result c)));
  own ← web (self 0);
  let fallback := fw_fetchers (cr_web c) !! 1%nat in
  let stats := match fallback with Some f => merge_stats (fe_stats own) (fe_stats f) | None => fe_stats own end in
  _ ← web (update 0 (fun f => f <| fe_stats := stats |>));
  let lease := match fe_lease own with Some l => Some l | None => fallback ≫= fe_lease end in
  on_result (fun x =>
    let x := copy_to stats (x <| sx_records := records |>) in
    let x := x <| sx_outcome_counts := dict_set "browser_zero_gain" (sx_browser_zero_gain x) (dict_set "browser_gain" (sx_browser_gain x) (sx_outcome_counts x)) |>
               <| sx_cache_bytes_read := rc_bytes_read (fw_cache (cr_web c)) |> in
    match lease with
    | Some l => x <| sx_proxy_bytes_reserved := pl_max_bytes l |> <| sx_proxy_bytes_estimated := pl_used_bytes l |>
    | None => x
    end).

Definition refused : string := "robots.txt disallows this crawler".
(** Whether a run may start. Source: catalogue-dump/scrapers/base.py:2141-2147, Scraper.run. *)
Definition open_run (cfg : Config) : crawl bool :=
  let start := cg_url cfg in
  allowed ← (if str_isempty start then mret true else web (may_fetch 0 start (cg_ignore_robots cfg) (cg_obey_robots cfg)));
  if negb (allowed : bool) then
    _ ← on_result (fun x => x <| sx_errors := sx_errors x ++ [(start, refused)] |>);
    _ ← note ("skipped: " +:+ refused); mret false
  else
    _ ← (if cg_ignore_robots cfg then note "robots.txt intentionally not applied for this source (operator decision)" else mret ()); mret true.
(** Source: catalogue-dump/scrapers/base.py, Scraper.run. *)
Definition run_scraper (cfg : Config) (scrape : option Z -> crawl ()) (limit : option Z) : crawl () :=
  opened ← open_run cfg;
  if (opened : bool) then
    _ ← catch (scrape limit) (fun e => match e with Raised x => if recorded x then fail_ (cg_url cfg) (message x) else throw e | _ => throw e end);
    close_run
  else mret ().

(** ** One source *)

(** What the loader, the manifest and the worker read of a source's summary. [ss_method]
    and [ss_scope] are missing from a partial one. *)
Record SourceSummary := {
  ss_core : CrawlSummary; ss_label : string; ss_robots_ignored : bool; ss_notes : list string; ss_field_coverage : list (string * Z);
  ss_method : option string; ss_scope : option string; ss_write_status : option string; ss_artifact : option Artifact;
}.
#[export] Instance SourceSummary_eta : Eta SourceSummary := fun s =>
  {| ss_core := ss_core s; ss_label := ss_label s; ss_robots_ignored := ss_robots_ignored s; ss_notes := ss_notes s; ss_field_coverage := ss_field_coverage s;
     ss_method := ss_method s; ss_scope := ss_scope s; ss_write_status := ss_write_status s; ss_artifact := ss_artifact s |}.
(** Source: catalogue-dump/crawl/runner.py, SourceOutcome. *)
Record SourceOutcome := { oc_source : string; oc_records : list record; oc_summary : SourceSummary }.

(** Source: catalogue-dump/crawl/runner.py, summarise. *)
Definition summarise (cfg : Config) (x : ScrapeResult) (method : string) (interrupted deadline_exceeded : bool) : SourceSummary :=
  {| ss_core := {| cs_scraper := cg_scraper cfg; cs_records := Z.of_nat (length (sx_records x)); cs_discovered := sx_discovered x;
                   cs_filtered := sx_filtered x; cs_invalid := sx_invalid x; cs_requests := sx_requests x; cs_rendered_pages := sx_rendered_pages x;
                   cs_interrupted := interrupted; cs_truncated := sx_truncated x; cs_deadline_exceeded := deadline_exceeded;
                   cs_error_count := Z.of_nat (length (sx_errors x)); cs_errors := take 25 (sx_errors x).*2;
                   cs_outcome_counts := sx_outcome_counts x |};
     ss_label := cg_label cfg; ss_robots_ignored := cg_ignore_robots cfg; ss_notes := sx_notes x; ss_field_coverage := coverage (sx_records x);
     ss_method := if interrupted then None else Some method; ss_scope := if interrupted then None else Some (cg_scope cfg);
     ss_write_status := None; ss_artifact := None |}.
(** Source: catalogue-dump/crawl/runner.py, partial_outcome. *)
Definition partial_outcome (name : string) (cfg : Config) (seen : option ScrapeResult) : SourceOutcome :=
  let x := default new_result seen in {| oc_source := name; oc_records := sx_records x; oc_summary := summarise cfg x "" true false |}.

(** The fields a price refresh drops. Source: catalogue-dump/crawl/runner.py:304-308, run_source. *)
Definition FULL_ONLY : list string :=
  ["description"; "firing"; "firing_range"; "surface"; "effects"; "colour"; "claims"; "documents"; "technical_attributes"; "coats";
   "application_methods"; "category_path"; "all_image_urls"].
(** Source: catalogue-dump/crawl/runner.py:303-310, run_source. *)
Definition price_only (r : record) : record :=
  dict_set "collection_mode" (JStr "price") (filter (fun kv => bool_decide (kv.1 ∈ FULL_ONLY) = false) r).

(** The stricter of a source's deadline and the run's. Source: catalogue-dump/config/settings.py, CrawlParams.timeout_for. *)
Definition timeout_for (run_timeout : Q) (cfg : Config) : Q :=
  match cg_timeout_seconds cfg with Some own => if Qle_bool own run_timeout then own else run_timeout | None => run_timeout end.
Definition late_message (deadline : Q) : string := "source exceeded its " +:+ pretty (round_div (Qnum deadline) (Zpos (Qden deadline))) +:+ "s deadline".
(** How a run ended, as its source sees it: what is raised again is [Err]; the flag says
    that the deadline passed. Source: catalogue-dump/crawl/runner.py:258-298, run_source. *)
Definition end_of_run (run_timeout : Q) (cfg : Config) (r : result crawl_exn ()) (x : ScrapeResult) : result crawl_exn (bool * ScrapeResult) :=
  match r with
  | Ok _ => Ok (false, x)
  | Err DeadlinePassed => Ok (true, x <| sx_errors := sx_errors x ++ [(cg_url cfg, late_message (timeout_for run_timeout cfg))] |> <| sx_truncated := true |>)
  | Err (Raised e) => Ok (false, x <| sx_errors := sx_errors x ++ [(cg_url cfg, message e)] |>)
  | Err e => Err e
  end.
(** [price_refresh]: the run asks for prices only and the scraper can give them. [output]:
    the directory of the dump, [None] when nothing is written. Source:
    catalogue-dump/crawl/runner.py, run_source. *)
Definition run_source (encode : list record -> string) (sha256 : string -> string) (name : string) (cfg : Config) (scrape : option Z -> crawl ())
    (limit : option Z) (run_timeout : Q) (method : string) (price_refresh : bool) (output : option string) (allow_empty : bool) : eff (Crawl * dump_files) crawl_exn SourceOutcome :=
  fun '(c, files) =>
    let '(r, c) := run_scraper cfg scrape limit c in
    match end_of_run run_timeout cfg r (cr_result c) with
    | Err e => (Err e, (c, files))
    | Ok (deadline_exceeded, x) =>
        let x := if price_refresh then x <| sx_records := map price_only (sx_records x) |> else x in
        let c := c <| cr_result := x |> in
        let summary := summarise cfg x method false deadline_exceeded in
        match output with
        | None => (Ok {| oc_source := name; oc_records := sx_records x; oc_summary := summary |}, (c, files))
        | Some output =>
            match write_source encode sha256 output name (sx_records x) allow_empty files with
            | (Ok (artifact, status), files) =>
                (Ok {| oc_source := name; oc_records := sx_records x;
                       oc_summary := summary <| ss_write_status := Some status |> <| ss_artifact := Some artifact |> |}, (c, files))
            | (Err e, files) => (Err (Raised (FetchPy e)), (c, files))
            end
        end
    end.
End crawling.
