(* ===== verification/LegacyCrawlProperties.v ===== *)
(** What a legacy crawl guarantees: its sitemaps are listed to the end or the result says
    they were not, every extracted row is accounted for, and a listing that broke off is
    never taken for the whole catalogue, apart from one way. *)
From S2P Require Import LegacyFetchProperties.
From S2P Require Export LegacyCrawl.
From Stdlib Require Import Ascii.
Open Scope Z_scope.

(** * Walking sitemaps *)

(** What a sitemap said: [None] when it could not be read. *)
Abbreviation said := (option (bool * list string)).
(** The sitemaps of [log] were asked one after another, and said what it holds. *)
Inductive asks (get : string -> eff Crawl crawl_exn said) : Crawl -> list (string * said) -> Crawl -> Prop :=
| Asks_none c : asks get c [] c
| Asks_one c url answer c1 log c' : get url c = (Ok answer, c1) -> asks get c1 log c' -> asks get c ((url, answer) :: log) c'.
(** The pages one sitemap lists. *)
Definition pages_of (wanted : string -> bool) (entry : string * said) : list string :=
  match entry with (_, Some (false, locations)) => filter (fun value => wanted value = true) locations | _ => [] end.
(** The sitemaps it names. *)
Definition named_by (entry : string * said) : list string := match entry with (_, Some (true, locations)) => locations | _ => [] end.

Section walking.
Context (get : string -> eff Crawl crawl_exn said) (wanted : string -> bool).

Lemma walk_log fuel : forall queue seen found c pages c', walk get wanted fuel queue seen found c = (Ok pages, c') ->
  exists log, asks get c log c' /\ NoDup log.*1 /\ (forall url, url ∈ log.*1 -> url ∉ seen) /\ (forall url, url ∈ queue -> url ∈ seen \/ url ∈ log.*1)
    /\ (forall entry url, entry ∈ log -> url ∈ named_by entry -> url ∈ seen \/ url ∈ log.*1) /\ pages = found ++ concat (map (pages_of wanted) log).
Proof.
induction fuel as [|fuel IH]; intros queue seen found c pages c' H; [done|]. destruct queue as [|url queue]; cbn [walk] in H.
- injection H as <- <-. exists []. split; [constructor|]. rewrite app_nil_r. repeat split; try constructor; set_solver.
- case_bool_decide as Hseen.
  + apply IH in H as (log & H1 & H2 & H3 & H4 & H5 & H6). exists log. repeat split; try done. intros u [->|Hu]%elem_of_cons; [by left|by apply H4].
  + apply bind_inv in H as (answer & c1 & Eg & H).
    assert (K : exists q f, walk get wanted fuel q (url :: seen) (found ++ f) c1 = (Ok pages, c') /\ queue ⊆ q /\ named_by (url, answer) ⊆ q /\ f = pages_of wanted (url, answer)).
    { destruct answer as [[[] locations]|]; simpl.
      - exists (queue ++ locations), []. rewrite app_nil_r. split; [done|]. set_solver.
      - exists queue, (filter (fun value => wanted value = true) locations). split; [done|]. set_solver.
      - exists queue, []. rewrite app_nil_r. split; [done|]. set_solver. }
    destruct K as (q & f & Hw & Hq & Hn & ->). apply IH in Hw as (log & H1 & H2 & H3 & H4 & H5 & ->). exists ((url, answer) :: log).
    split; [by econstructor|]. split_and!.
    * constructor; [|done]. intros Hin. apply (H3 url Hin). constructor.
    * intros u [->|Hu]%elem_of_cons; [done|]. specialize (H3 u Hu). set_solver.
    * intros u [->|Hu]%elem_of_cons; [right; constructor|]. destruct (H4 u (Hq u Hu)) as [[->|?]%elem_of_cons|?]; [right; constructor|by left|right; by constructor].
    * assert (Hmove : forall u, u ∈ url :: seen \/ u ∈ log.*1 -> u ∈ seen \/ u ∈ ((url, answer) :: log).*1).
      { intros u [[->|?]%elem_of_cons|?]; [right; constructor|by left|right; by constructor]. }
      intros entry u [->|He]%elem_of_cons Hu; apply Hmove; [apply H4, Hn, Hu|by eapply H5].
    * cbn [map concat]. by rewrite app_assoc.
Qed.

(** ** The walk ends *)

(** When the sitemaps that are named are among [U], and one names at most [b], the walk
    makes at most as many turns. *)
Lemma walk_ends (I : Crawl -> Prop) (U : gset string) (b : nat) :
  (forall url c answer c', I c -> url ∈ U -> get url c = (Ok answer, c') ->
     I c' /\ list_to_set (named_by (url, answer)) ⊆ U /\ (length (named_by (url, answer)) <= b)%nat) ->
  (forall url c c', get url c <> (Err WalksOn, c')) -> forall fuel queue seen found c,
  I c -> list_to_set queue ⊆ U -> (length queue + b * size (U ∖ list_to_set seen) < fuel)%nat -> (walk get wanted fuel queue seen found c).1 <> Err WalksOn.
Proof.
intros Hn Hg. induction fuel as [|fuel IH]; intros queue seen found c HI Hq Hf; [lia|]. destruct queue as [|url queue]; cbn [walk]; [done|].
cbn [length list_to_set] in *. case_bool_decide as Hseen; [apply IH; [done|set_solver|lia]|].
unfold mbind at 1, eff_bind at 1. destruct (get url c) as [[answer|e] c1] eqn:Eg; [|simpl; intros [= ->]; by eapply Hg].
assert (HU : url ∈ U) by set_solver. destruct (Hn url c answer c1 HI HU Eg) as (HI' & Hin & Hlen).
assert (Hsize : (size (U ∖ list_to_set (url :: seen)) + 1 = size (U ∖ list_to_set seen))%nat).
{ cbn [list_to_set]. replace (U ∖ ({[url]} ∪ list_to_set seen)) with ((U ∖ list_to_set seen) ∖ {[url]}) by set_solver.
  rewrite size_difference by set_solver. rewrite size_singleton.
  assert (size ({[url]} : gset string) <= size (U ∖ list_to_set seen))%nat by (apply subseteq_size; set_solver). rewrite size_singleton in *. lia. }
rewrite <- Hsize, Nat.mul_add_distr_l, Nat.mul_1_r in Hf. assert (Hq' : list_to_set queue ⊆ U) by set_solver.
destruct answer as [[[] locations]|]; cbn [named_by] in Hin, Hlen; (apply IH; [done| |try rewrite length_app; lia]); [|done|done].
rewrite list_to_set_app_L. by apply union_subseteq.
Qed.
End walking.

(** * What the operations leave alone *)

(** The listing goes on as before, and a result once marked incomplete stays so. *)
Definition steady (c c' : Crawl) : Prop :=
  cr_enumerating c' = cr_enumerating c /\ (sx_truncated (cr_result c) = true -> sx_truncated (cr_result c') = true).
#[export] Instance steady_preorder : PreOrder steady.
Proof. split; [by intros c|]. intros a b c [E1 T1] [E2 T2]. split; [congruence|auto]. Qed.
Definition keeps_steady {A} (m : eff Crawl crawl_exn A) : Prop := forall c, steady c (m c).2.

Lemma steady_bind {A B} (m : eff Crawl crawl_exn A) (f : A -> eff Crawl crawl_exn B) : keeps_steady m -> (forall a, keeps_steady (f a)) -> keeps_steady (m ≫= f).
Proof. intros Hm Hf c. unfold mbind, eff_bind. specialize (Hm c). destruct (m c) as [[a|e] c1]; [|done]. etrans; [exact Hm|apply Hf]. Qed.
Lemma steady_catch {A} (m : eff Crawl crawl_exn A) h : keeps_steady m -> (forall e, keeps_steady (h e)) -> keeps_steady (catch m h).
Proof. intros Hm Hh c. unfold catch. specialize (Hm c). destruct (m c) as [[a|e] c1]; [done|]. etrans; [exact Hm|apply Hh]. Qed.
Lemma steady_ret {A} (a : A) : keeps_steady (mret a).
Proof. done. Qed.
Lemma steady_throw {A} e : keeps_steady (throw e : eff Crawl crawl_exn A).
Proof. done. Qed.
Lemma steady_gets {A} (f : Crawl -> A) : keeps_steady (gets f).
Proof. done. Qed.
Lemma steady_pure {A} (r : result pyexn A) : keeps_steady (pure r).
Proof. by destruct r. Qed.
Lemma steady_result f : (forall x, sx_truncated x = true -> sx_truncated (f x) = true) -> keeps_steady (on_result f).
Proof. intros Hf c. split; [done|]. apply Hf. Qed.
Lemma steady_web {A} (m : fetch A) : keeps_steady (web m).
Proof. intros c. unfold web. destruct (m (cr_web c)) as [[a|[]] w]; done. Qed.
Create HintDb steady.
#[export] Hint Resolve steady_bind steady_catch steady_ret steady_throw steady_gets steady_pure steady_web : steady.
#[export] Hint Extern 1 (keeps_steady (on_result _)) => apply steady_result; simpl; intros ? ->; done : steady.
#[export] Hint Extern 2 (keeps_steady (match ?x with _ => _ end)) => destruct x : steady.
Lemma steady_fail url error : keeps_steady (fail_ url error).
Proof. unfold fail_. apply steady_bind; [apply steady_gets|]. intros b. apply steady_result. by intros x ->. Qed.
Lemma steady_note text : keeps_steady (note text).
Proof. by apply steady_result. Qed.
#[export] Hint Resolve steady_fail steady_note : steady.

(** A failure while listing marks the result. *)
Lemma fail_truncates url error c r c' : fail_ url error c = (r, c') -> cr_enumerating c = true -> sx_truncated (cr_result c') = true.
Proof. unfold fail_, mbind, eff_bind, gets, on_result, modify. intros [= <- <-] ->. simpl. apply orb_true_r. Qed.

Section crawling.
Context `{Outside} (unescape : string -> string) (repr : json -> string) (message : fetch_exn -> string) (inflate : string -> result fetch_exn string).
#[local] Abbreviation read_sitemap := (read_sitemap unescape repr message inflate).
#[local] Abbreviation sitemap_urls := (sitemap_urls unescape repr message inflate).

Lemma steady_read_sitemap after url : keeps_steady (read_sitemap after url).
Proof. unfold LegacyCrawl.read_sitemap. eauto 10 with steady. Qed.
Lemma unread_truncates after url c c' : read_sitemap after url c = (Ok None, c') -> cr_enumerating c = true -> sx_truncated (cr_result c') = true.
Proof.
unfold LegacyCrawl.read_sitemap, catch. set (m := web _ ≫= _). assert (Hm : keeps_steady m) by (unfold m; eauto 10 with steady).
specialize (Hm c). destruct (m c) as [[a|e] c1] eqn:E.
- intros [= ->]. exfalso. unfold m in E. apply bind_inv in E as (r & c2 & _ & E). apply bind_inv in E as (? & c3 & _ & E). by apply bind_inv in E as (? & c4 & _ & [= ?]).
- destruct e as [e| | | |]; try done. destruct (unread e); [|done]. intros H1 He. apply bind_inv in H1 as (u & c2 & E2 & [= <-]).
  eapply fail_truncates; [exact E2|]. destruct Hm as [Hm _]. simpl in Hm. by rewrite Hm.
Qed.
Lemma read_sitemap_ends after url c c' : read_sitemap after url c <> (Err WalksOn, c').
Proof.
assert (Hweb : forall A (m : fetch A) c c', web m c <> (Err WalksOn, c')) by (intros A m c0 c0'; unfold web; destruct (m (cr_web c0)) as [[?|[]] ?]; done).
unfold LegacyCrawl.read_sitemap, catch, mbind, eff_bind. destruct (web (response _ _ _ _ _) c) as [[r|e] c1] eqn:E1; simpl.
- destruct (web (lift _) _) as [[d|e] c2] eqn:E2; [done|]. destruct e as [e| | | |]; try done; [|by apply Hweb in E2]. by destruct (unread e).
- destruct e as [e| | | |]; try done; [|by apply Hweb in E1]. by destruct (unread e).
Qed.

Lemma asks_steady after c log c' : asks (read_sitemap after) c log c' -> steady c c'.
Proof. induction 1 as [|c url answer c1 log c' E _ IH]; [done|]. etrans; [|exact IH]. pose proof (steady_read_sitemap after url c) as Hs. by rewrite E in Hs. Qed.
Lemma asks_unread after c log c' : asks (read_sitemap after) c log c' -> cr_enumerating c = true -> (exists url, (url, None) ∈ log) -> sx_truncated (cr_result c') = true.
Proof.
induction 1 as [c|c url answer c1 log c' E Ha IH]; intros He [u Hu]; [by apply not_elem_of_nil in Hu|].
pose proof (steady_read_sitemap after url c) as Hs. rewrite E in Hs. destruct Hs as [Hs _]. simpl in Hs.
apply elem_of_cons in Hu as [[= <- <-]|Hu]; [|apply IH; [by rewrite Hs|by exists u]].
apply (asks_steady _ _ _ _ Ha). by eapply unread_truncates.
Qed.

Lemma fromkeys_NoDup {A} `{EqDecision A} (l : list A) : NoDup (fromkeys l).
Proof. unfold fromkeys. rewrite reverse_Permutation. apply NoDup_remove_dups. Qed.

(** C36. The walk asks every sitemap it was given and every one an index names, each once,
    and returns each page that they list and the pattern wants, once. When one of them could
    not be read, the result says that the catalogue was not listed to its end. *)
Theorem sitemaps_are_listed fuel after sitemaps pattern c pages c' :
  sitemap_urls fuel after sitemaps pattern c = (Ok pages, c') -> cr_enumerating c = true ->
  exists log, asks (read_sitemap after) c log c' /\ NoDup log.*1 /\ (forall url, url ∈ sitemaps -> url ∈ log.*1)
    /\ (forall entry url, entry ∈ log -> url ∈ named_by entry -> url ∈ log.*1)
    /\ NoDup pages
    /\ (forall page, page ∈ pages <-> exists url locations, (url, Some (false, locations)) ∈ log /\ page ∈ locations
                                        /\ match pattern with Some r => Regex.found r page = true | None => True end)
    /\ ((exists url, (url, None) ∈ log) -> sx_truncated (cr_result c') = true).
Proof.
intros Hrun He. unfold LegacyCrawl.sitemap_urls in Hrun. apply bind_inv in Hrun as (found & c1 & Hw & [= <- <-]).
apply walk_log in Hw as (log & H1 & H2 & _ & H4 & H5 & ->). exists log.
assert (Hnil : forall url, url ∈ [] \/ url ∈ log.*1 -> url ∈ log.*1) by (intros url [Hu|Hu]; [by apply not_elem_of_nil in Hu|done]).
split_and!; [done|done| | |apply fromkeys_NoDup| |by eapply asks_unread].
- intros url Hu. by apply Hnil, H4, elem_of_fromkeys.
- intros entry url Hin Hu. by eapply Hnil, H5.
- intros page. rewrite elem_of_fromkeys. cbn [app]. rewrite list_elem_of_In, in_concat. split.
  + intros (l & Hl & Hp). apply in_map_iff in Hl as ((url & answer) & <- & Hin). apply list_elem_of_In in Hin, Hp.
    destruct answer as [[[] locations]|]; cbn [pages_of] in Hp; try (by apply not_elem_of_nil in Hp). apply list_elem_of_filter in Hp as [Hp1 Hp2].
    exists url, locations. split; [done|]. split; [done|]. by destruct pattern.
  + intros (url & locations & Hin & Hp & Hm). exists (pages_of (fun value => match pattern with Some r => Regex.found r value | None => true end) (url, Some (false, locations))).
    split; [apply in_map, list_elem_of_In; exact Hin|]. apply list_elem_of_In. cbn [pages_of]. apply list_elem_of_filter. split; [by destruct pattern|done].
Qed.

(** When the sitemaps of a shop are finitely many and each names at most [b] others, the
    walk ends, however they name each other: it takes one turn for each sitemap given and
    at most [b] for each one there is. [I]: what is known of the crawl meanwhile. *)
Theorem sitemap_walk_ends (I : Crawl -> Prop) (U : gset string) (b fuel after : nat) sitemaps pattern c :
  (forall url c answer c', I c -> url ∈ U -> read_sitemap after url c = (Ok answer, c') ->
     I c' /\ list_to_set (named_by (url, answer)) ⊆ U /\ (length (named_by (url, answer)) <= b)%nat) ->
  I c -> list_to_set sitemaps ⊆ U -> (length sitemaps + b * size U < fuel)%nat -> (sitemap_urls fuel after sitemaps pattern c).1 <> Err WalksOn.
Proof.
intros Hn HI Hs Hf. unfold LegacyCrawl.sitemap_urls, mbind, eff_bind. set (m := walk _ _ _ _ _ _ c).
assert (Hm : m.1 <> Err WalksOn).
{ apply (walk_ends _ _ I U b Hn); [intros url c0 c0'; apply read_sitemap_ends|done|..].
  - intros u Hu. apply Hs. apply elem_of_list_to_set. apply elem_of_list_to_set in Hu. by rewrite elem_of_fromkeys in Hu.
  - assert (length (fromkeys sitemaps) <= length sitemaps)%nat.
    { apply submseteq_length, NoDup_submseteq; [apply fromkeys_NoDup|]. intros x. by rewrite elem_of_fromkeys. }
    cbn [list_to_set]. rewrite difference_empty_L. lia. }
by destruct m as [[?|?] ?].
Qed.
End crawling.

(** * Rows *)

Section rows.
Context `{Outside} (unescape : string -> string) (repr : json -> string) (message : fetch_exn -> string).
#[local] Abbreviation excluded := (excluded unescape repr).
#[local] Abbreviation names_equipment := (names_equipment unescape repr).

(** Names with an entry among the excluded categories of the source. *)
Definition filed_out (cfg : Config) (path : string) (name : json) : Prop :=
  exists entry, entry ∈ default [] (cg_excluded_categories cfg)
    /\ within_text (fold unescape repr entry) (fold unescape repr (joined unescape repr [JStr path; name])).
(** A row of a source that is crawled for materials: not filed under what it excludes, and
    vouched for by an allowlisted category, or by its family and the absence of equipment. *)
Definition belongs (cfg : Config) (row : record) (category_match : option bool) (categories : list json) (path : string) : Prop :=
  ~ filed_out cfg path (get row "name")
  /\ match category_match with
     | Some true => ~ names_equipment [get row "name"]
     | Some false => False
     | None => get row "family" <> JNull /\ ~ names_equipment [get row "name"; JStr path] /\ ~ filed_elsewhere unescape repr categories
               /\ ~ rates_a_machine unescape repr (or_else (get row "description") (JStr ""))
     end.

Lemma excluded_iff cfg path name : excluded cfg [JStr path; name] = true <-> filed_out cfg path name.
Proof.
unfold LegacyCrawl.excluded, filed_out. rewrite existsb_exists. split; intros (e & He & Hc); exists e; (split; [by apply list_elem_of_In|by apply str_contains_app]).
Qed.
#[local] Opaque LegacyCrawl.excluded looks_non_material is_material Domain.fold joined Domain.names_equipment filed_elsewhere rates_a_machine.
Lemma keep_iff cfg row m b : keep unescape repr cfg row m = Ok b ->
  b = true <-> usable row /\ (strict_scope cfg = true -> exists categories path,
    items_of (get row "category_path") = Ok categories /\ join_texts categories = Ok path /\ belongs cfg row m categories path).
Proof.
rewrite <- is_valid_iff. unfold keep. destruct (is_valid row); cbn [negb]; [|intros [= <-]; split; [intros [=]|by intros [? _]]].
destruct (strict_scope cfg); cbn [negb]; [|intros [= <-]; split; [intros _; split; [reflexivity|intros [=]]|reflexivity]]. unfold in_scope. cbn [negb].
destruct (items_of (get row "category_path")) as [categories|e] eqn:E1; cbn [mbind result_bind]; [|intros [=]].
destruct (join_texts categories) as [path|e] eqn:E2; cbn [mbind result_bind]; [|intros [=]].
pose proof (excluded_iff cfg path (get row "name")) as Hx.
assert (K : (exists cs p, Ok (E := pyexn) categories = Ok cs /\ join_texts cs = Ok p /\ belongs cfg row m cs p) <-> belongs cfg row m categories path).
{ split; [intros (cs & p & [= <-] & E & Hb); rewrite E2 in E; by injection E as <-|intros Hb; by exists categories, path]. }
assert (K' : forall b', (b' = true <-> belongs cfg row m categories path) ->
  (b' = true <-> true = true /\ (true = true -> exists cs p, Ok (E := pyexn) categories = Ok cs /\ join_texts cs = Ok p /\ belongs cfg row m cs p))) by (intros b'; tauto).
destruct (excluded cfg _); cbn [negb].
- intros [= <-]. apply K'. unfold belongs. assert (filed_out cfg path (get row "name")) by by apply Hx. split; [intros [=]|tauto].
- assert (Hn : ~ filed_out cfg path (get row "name")) by (intros Hf; by apply Hx in Hf).
  unfold belongs in *. destruct m as [[]|]; intros [= <-]; apply K'; [rewrite negb_true_iff, <- not_true_iff_false, looks_non_material_iff; tauto|split; [intros [=]|tauto]|rewrite is_material_iff; tauto].
Qed.

(** C37. Every extracted row whose judgement does not raise is kept, or counted as invalid, or
    as filtered, and nothing else of the crawl changes. It is invalid exactly when it has no
    name, or no price that is a number from zero on and is no identity. A valid row is kept
    unless the source is crawled for materials and the row does not belong there: it is
    filed under what the source excludes, or its category is listed as foreign, or, in an
    allowlisted category, its name names equipment, or, with no such list, it has no family,
    names equipment in its name or categories, is filed in a department without materials, or
    is described with a machine's rating. *)
Theorem every_row_is_accounted_for cfg row m c c' : row <> [] -> add unescape repr cfg (Some row) m c = (Ok (), c') ->
  let x := cr_result c in
  (c' = c <| cr_result := x <| sx_records := sx_records x ++ [row] |> |>
   /\ usable row /\ (strict_scope cfg = true -> exists categories path,
        items_of (get row "category_path") = Ok categories /\ join_texts categories = Ok path /\ belongs cfg row m categories path))
  \/ (c' = c <| cr_result := x <| sx_invalid := sx_invalid x + 1 |> |> /\ ~ usable row)
  \/ (c' = c <| cr_result := x <| sx_filtered := sx_filtered x + 1 |> |> /\ usable row /\ strict_scope cfg = true /\
      forall categories path, items_of (get row "category_path") = Ok categories -> join_texts categories = Ok path -> ~ belongs cfg row m categories path).
Proof.
intros Hrow. unfold add. destruct row as [|kv row]; [done|]. set (r := kv :: row) in *. clearbody r. destruct (is_valid r) eqn:Ev; simpl.
- intros Hrun. apply bind_inv in Hrun as (b & c1 & Ek & Hrun). unfold pure in Ek. destruct (keep unescape repr cfg r m) as [b'|e] eqn:E; [|done].
  injection Ek as -> <-. pose proof (keep_iff cfg r m b E) as Hk. apply is_valid_iff in Ev. destruct b; injection Hrun as <-.
  + left. split; [done|]. by apply Hk.
  + right; right. split; [done|]. split; [done|]. assert (Hs : strict_scope cfg = true).
    { destruct (strict_scope cfg) eqn:Es; [done|]. exfalso. assert (false = true) by (apply Hk; split; [done|intros [=]]). done. }
    split; [done|]. intros categories path E1 E2 Hb. assert (false = true); [|done]. apply Hk. split; [done|]. intros _. eauto.
- intros [= <-]. right; left. split; [done|]. rewrite <- is_valid_iff. congruence.
Qed.
End rows.

(** * Listings that broke off *)

Section gaps.
Context `{Outside} (unescape : string -> string) (repr : json -> string) (message : fetch_exn -> string).
Context (encode : list record -> string) (sha256 : string -> string).
#[local] Abbreviation run_scraper := (run_scraper unescape repr message).
#[local] Abbreviation run_source := (run_source unescape repr message encode sha256).

(** The listing was not completed, as the way [scrape] ended shows: the result was marked,
    the deadline passed, or an exception that a run records was raised while listing. *)
Definition listing_gap (r : result crawl_exn ()) (c : Crawl) : Prop :=
  sx_truncated (cr_result c) = true
  \/ match r with Err DeadlinePassed => True | Err (Raised e) => recorded e = true /\ cr_enumerating c = true | _ => False end.

Lemma steady_close_run : keeps_steady (close_run unescape repr).
Proof.
unfold close_run. apply steady_bind; [apply steady_gets|]. intros c0. apply steady_bind; [apply steady_pure|]. intros records.
apply steady_bind; [apply steady_web|]. intros own. apply steady_bind; [apply steady_web|]. intros _. apply steady_result. intros x Hx.
by destruct (match fe_lease own with Some l => Some l | None => _ end).
Qed.
Lemma run_scraper_gap cfg scrape limit c c1 r c2 :
  open_run cfg c = (Ok true, c1) -> scrape limit c1 = (r, c2) -> listing_gap r c2 ->
  (run_scraper cfg scrape limit c).1 = Err DeadlinePassed \/ sx_truncated (cr_result (run_scraper cfg scrape limit c).2) = true.
Proof.
intros Ho Hs Hg. unfold LegacyCrawl.run_scraper, mbind, eff_bind. rewrite Ho. unfold catch. rewrite Hs.
assert (Hclose : forall c3, sx_truncated (cr_result c3) = true -> sx_truncated (cr_result (close_run unescape repr c3).2) = true) by (intros c3; apply steady_close_run).
destruct r as [[]|e]; [right; apply Hclose; by destruct Hg|]. destruct e as [e| | | |]; simpl; try (right; by destruct Hg); [|by left].
destruct (recorded e) eqn:Er; simpl; [|right; destruct Hg as [?|[? _]]; [done|congruence]].
right. apply Hclose. simpl. destruct Hg as [->|[_ ->]]; [done|apply orb_true_r].
Qed.

Lemma not_whole (x : CrawlSummary) status : cs_truncated x = true -> (legacy_load_plan x status).1.1 = false.
Proof. intros Ht. unfold legacy_load_plan, may_retire. rewrite Ht. destruct (negb _), (crawl_error x); done. Qed.
Lemma run_source_summary name cfg scrape limit timeout method price output empty c files o s' :
  run_source name cfg scrape limit timeout method price output empty (c, files) = (Ok o, s') ->
  exists late x, end_of_run message timeout cfg (run_scraper cfg scrape limit c).1 (cr_result (run_scraper cfg scrape limit c).2) = Ok (late, x)
    /\ cs_truncated (ss_core (oc_summary o)) = sx_truncated x /\ cs_records (ss_core (oc_summary o)) = Z.of_nat (length (sx_records x))
    /\ length (oc_records o) = length (sx_records x).
Proof.
unfold LegacyCrawl.run_source. destruct (run_scraper cfg scrape limit c) as [r c'] eqn:E. simpl. destruct (end_of_run _ _ _ _ _) as [[late x]|e]; [|done].
intros Hrun. exists late, x. split; [done|]. destruct price; simpl in Hrun.
all: destruct output as [dir|]; [destruct (write_source _ _ _ _ _ _ files) as [[[a status]|e] files']; [|done]|].
all: injection Hrun as <- _; simpl; by rewrite ?length_map.
Qed.

(** C38. A catalogue that was not listed to its end is never taken for a whole one, whatever
    was collected of it: when a scraper marked its result, met the deadline, or was stopped
    while listing by an exception that a run records, its load may not retire what it did
    not see. *)
Theorem a_gap_retires_nothing name cfg scrape limit timeout method price output empty c files c1 r c2 o s' status :
  open_run cfg c = (Ok true, c1) -> scrape limit c1 = (r, c2) -> listing_gap r c2 ->
  run_source name cfg scrape limit timeout method price output empty (c, files) = (Ok o, s') ->
  (legacy_load_plan (ss_core (oc_summary o)) status).1.1 = false.
Proof.
intros Ho Hs Hg Hrun. apply not_whole. apply run_source_summary in Hrun as (late & x & Hend & -> & _).
destruct (run_scraper_gap cfg scrape limit c c1 r c2 Ho Hs Hg) as [E|E].
- rewrite E in Hend. by injection Hend as <- <-.
- destruct (run_scraper cfg scrape limit c) as [r' c']. simpl in *. destruct r' as [[]|[]]; try done; by injection Hend as <- <-.
Qed.

(** [run_source] records any other exception without marking the result: a parser that
    raises on the third product of a thousand leaves a dump of two, which the loader takes
    for the whole catalogue and retires the rest against. *)
Lemma a_crash_is_taken_for_the_end name cfg scrape limit timeout method price c files c1 e c2 o s' :
  open_run cfg c = (Ok true, c1) -> scrape limit c1 = (Err (Raised e), c2) -> recorded e = false ->
  sx_truncated (cr_result c2) = false -> sx_records (cr_result c2) <> [] ->
  run_source name cfg scrape limit timeout method price None false (c, files) = (Ok o, s') ->
  legacy_load_plan (ss_core (oc_summary o)) "replaced" = (true, Some "", None).
Proof.
intros Ho Hs He Ht Hne Hrun. apply run_source_summary in Hrun as (late & x & Hend & Ex & Er & _).
assert (E : run_scraper cfg scrape limit c = (Err (Raised e), c2)).
{ unfold LegacyCrawl.run_scraper, mbind, eff_bind. rewrite Ho. unfold catch. rewrite Hs, He. done. }
rewrite E in Hend. injection Hend as <- <-. simpl in Ex, Er. unfold legacy_load_plan, crawl_error, barren, may_retire. rewrite Ex, Ht, Er.
destruct (sx_records (cr_result c2)) as [|row rows]; [done|]. rewrite (bool_decide_eq_true_2 (Z.of_nat (length (row :: rows)) ≠ 0)) by (simpl; lia).
rewrite (bool_decide_eq_false_2 (Z.of_nat (length (row :: rows)) = 0)) by (simpl; lia). rewrite andb_false_r. done.
Qed.
End gaps.

(** * A shop *)

Section demo.
Definition shop : Outside := alone plain_shop.
#[local] Instance shop_outside : Outside := shop.
Definition as_is (s : string) : string := s.
Definition no_repr (_ : json) : string := "".
Definition in_short (e : fetch_exn) : string := match e with NotCached m => m | _ => "error" end.
Definition not_gzip (_ : string) : result fetch_exn string := Err (OtherError "OSError").

(** Recorded sitemaps: two indexes that name each other, and a list of pages. *)
Definition stored (url body : string) : (string * string) * option CachedResponse :=
  (("shop.test", "plain " +:+ url),
   Some {| ce_status := 200; ce_url := url; ce_body := body; ce_headers := []; ce_fetched_at := 0; ce_kind := "http" |}).
Definition demo_files : gmap (string * string) (option CachedResponse) := list_to_map [
  stored "https://shop.test/a.xml" "<sitemapindex><loc>https://shop.test/b.xml</loc><loc>https://shop.test/p.xml</loc></sitemapindex>";
  stored "https://shop.test/b.xml" "<sitemapindex><loc>https://shop.test/a.xml</loc><loc>https://shop.test/lost.xml</loc></sitemapindex>";
  stored "https://shop.test/p.xml" "<urlset><loc> https://shop.test/p/1 </loc><loc>https://shop.test/about</loc><loc>https://shop.test/p/1</loc></urlset>"].
Definition recorded_cache (hits misses writes bytes : Z) : ResponseCache :=
  {| rc_mode := replay; rc_max_age := None; rc_hits := hits; rc_misses := misses; rc_writes := writes; rc_bytes_read := bytes; rc_files := demo_files |}.
Definition demo_crawl : Crawl :=
  {| cr_web := (demo_world [demo_fetcher None]) <| fw_cache := recorded_cache 0 0 0 0 |>; cr_result := new_result; cr_enumerating := true |}.
Definition demo_walk := sitemap_urls as_is no_repr in_short not_gzip 6 0 ["https://shop.test/a.xml"] (Some (rx no_flags "/p/")) demo_crawl.
Example demo_walk_result : demo_walk.1 = Ok ["https://shop.test/p/1"]
  /\ sx_errors (cr_result demo_walk.2) = [("https://shop.test/lost.xml", "GET https://shop.test/lost.xml is not in the cache")]
  /\ sx_truncated (cr_result demo_walk.2) = true.
Proof. vm_compute. auto. Qed.
Lemma sitemaps_are_listed_witness : exists log, asks (read_sitemap as_is no_repr in_short not_gzip 0) demo_crawl log demo_walk.2
  /\ "https://shop.test/a.xml" ∈ log.*1.
Proof.
assert (E : demo_walk = (Ok ["https://shop.test/p/1"], demo_walk.2)) by (vm_compute; reflexivity).
destruct (sitemaps_are_listed as_is no_repr in_short not_gzip 6 0 ["https://shop.test/a.xml"] (Some (rx no_flags "/p/")) demo_crawl _ _ E eq_refl)
  as (log & Ha & _ & Hin & _).
exists log. split; [exact Ha|]. apply Hin. constructor.
Defined.

Definition demo_sitemaps : gset string := {["https://shop.test/a.xml"; "https://shop.test/b.xml"; "https://shop.test/p.xml"; "https://shop.test/lost.xml"]}.
Definition replays (c : Crawl) : Prop := exists h m w b, fw_cache (cr_web c) = recorded_cache h m w b.
(** A recorded sitemap is read from the cache; one that was not recorded is a failure. *)
Lemma cache_read_recorded key url path t h m w b : cache_path key url = Ok path ->
  cache_read (fun _ => 1) key url t (recorded_cache h m w b) =
  match demo_files !! path with
  | Some (Some entry) => Ok (Some entry, recorded_cache (h + 1) m w (b + 1))
  | _ => Ok (None, recorded_cache h (m + 1) w b)
  end.
Proof. intros Hp. unfold cache_read. cbn [rc_mode recorded_cache]. rewrite !bool_decide_eq_false_2 by done. cbn [orb]. rewrite Hp. cbn [mbind result_bind rc_files recorded_cache]. by destruct (demo_files !! path) as [[entry|]|]. Qed.
Lemma replayed_response url path w h m w' b : fw_cache w = recorded_cache h m w' b -> cache_path ("plain " +:+ url) url = Ok path ->
  response 0 0 (sitemap_ask url) false true w =
  match demo_files !! path with
  | Some (Some entry) => (Ok {| rs_status := ce_status entry; rs_url := if str_isempty (ce_url entry) then url else ce_url entry; rs_headers := ce_headers entry;
                                rs_text := ce_body entry; rs_downloaded := 0; rs_provenance := Some "replayed" |}, w <| fw_cache := recorded_cache (h + 1) m w' (b + 1) |>)
  | _ => (Err (NotCached ("GET " +:+ url +:+ " is not in the cache")), w <| fw_cache := recorded_cache h (m + 1) w' b |>)
  end.
Proof.
intros Hw Hp. destruct w as [clock events cache fetchers]. simpl in Hw. subst cache. cbn [response]. generalize (response_as 0 (sitemap_ask url) None None). intros again.
unfold response_as. cbv zeta. change (key_of_ask (sitemap_ask url) (is_none (Some again))) with ("plain " +:+ url). change (ak_url (sitemap_ask url)) with url.
unfold read_cache, mbind, eff_bind, gets, id. cbn [fw_clock fw_cache]. change w_stored_size with (fun _ : CachedResponse => 1).
rewrite (cache_read_recorded _ _ path) by done. by destruct (demo_files !! path) as [[entry|]|].
Qed.
(** What the sitemap [url] says, and that the recording stays. *)
Lemma read_recorded url path c : replays c -> cache_path ("plain " +:+ url) url = Ok path -> exists c',
  replays c' /\
  match demo_files !! path with
  | Some (Some entry) => sitemap_text not_gzip (ce_body entry) = Ok (ce_body entry) ->
      read_sitemap as_is no_repr in_short not_gzip 0 url c = (Ok (Some (sitemap_entries as_is no_repr (ce_body entry))), c')
  | _ => read_sitemap as_is no_repr in_short not_gzip 0 url c = (Ok None, c')
  end.
Proof.
intros (h & m & w & b & E) Hp. pose proof (replayed_response url path (cr_web c) h m w b E Hp) as Hr.
unfold read_sitemap, catch. destruct (demo_files !! path) as [[entry|]|].
- eexists. split; [|intros Ht; unfold mbind, eff_bind, web at 1; rewrite Hr; cbn [rs_text]; unfold web at 1, lift; rewrite Ht; reflexivity]. by exists (h + 1), m, w, (b + 1).
- eexists. split; [|unfold mbind at 1, eff_bind at 1, web at 1; rewrite Hr; reflexivity]. by exists h, (m + 1), w, b.
- eexists. split; [|unfold mbind at 1, eff_bind at 1, web at 1; rewrite Hr; reflexivity]. by exists h, (m + 1), w, b.
Qed.
(** The demonstration's sitemaps and what each says. *)
Definition demo_says : list (string * option (bool * list string)) :=
  [("https://shop.test/a.xml", Some (true, ["https://shop.test/b.xml"; "https://shop.test/p.xml"]));
   ("https://shop.test/b.xml", Some (true, ["https://shop.test/a.xml"; "https://shop.test/lost.xml"]));
   ("https://shop.test/p.xml", Some (false, ["https://shop.test/p/1"; "https://shop.test/about"; "https://shop.test/p/1"]));
   ("https://shop.test/lost.xml", None)].
Definition says (url : string) (answer : option (bool * list string)) : bool :=
  bool_decide (cache_path ("plain " +:+ url) url = Ok ("shop.test", "plain " +:+ url))
  && match demo_files !! ("shop.test", "plain " +:+ url) with
     | Some (Some entry) =>
         negb (str_startswith (String (chr 31) (String (chr 139) EmptyString)) (ce_body entry))
         && bool_decide (Some (sitemap_entries as_is no_repr (ce_body entry)) = answer)
     | _ => bool_decide (None = answer)
     end.
Lemma demo_says_so : forallb (fun ua => says ua.1 ua.2) demo_says = true.
Proof. vm_compute. reflexivity. Qed.
Lemma read_says url answer c said c' : says url answer = true -> replays c -> read_sitemap as_is no_repr in_short not_gzip 0 url c = (Ok said, c') ->
  replays c' /\ said = answer.
Proof.
unfold says. intros [H1%bool_decide_eq_true H2]%andb_true_iff Hc Hr. destruct (read_recorded url _ c Hc H1) as (c1 & Hc1 & E).
destruct (demo_files !! _) as [[entry|]|].
- apply andb_true_iff in H2 as [Hp%negb_true_iff H2%bool_decide_eq_true]. rewrite E in Hr by (unfold sitemap_text; by rewrite Hp). injection Hr as <- <-. by rewrite H2.
- apply bool_decide_eq_true in H2. rewrite E in Hr. injection Hr as <- <-. by rewrite H2.
- apply bool_decide_eq_true in H2. rewrite E in Hr. injection Hr as <- <-. by rewrite H2.
Qed.
Lemma demo_names url c answer c' : replays c -> url ∈ demo_sitemaps -> read_sitemap as_is no_repr in_short not_gzip 0 url c = (Ok answer, c') ->
  replays c' /\ list_to_set (named_by (url, answer)) ⊆ demo_sitemaps /\ (length (named_by (url, answer)) <= 2)%nat.
Proof.
intros Hc Hu Hr. assert (Hin : exists said, (url, said) ∈ demo_says).
{ unfold demo_sitemaps in Hu. rewrite !elem_of_union, !elem_of_singleton in Hu. unfold demo_says.
  destruct Hu as [[[->| ->]| ->]| ->]; eexists; rewrite !elem_of_cons; auto. }
destruct Hin as [said Hin]. pose proof demo_says_so as Hs. rewrite forallb_forall in Hs.
destruct (read_says url said c answer c') as [Hc' ->]; [apply (Hs (url, said)); by apply list_elem_of_In|done|done|]. split; [done|].
unfold demo_says in Hin. rewrite !elem_of_cons in Hin. unfold demo_sitemaps.
destruct Hin as [[= -> ->]|[[= -> ->]|[[= -> ->]|[[= -> ->]|H0]]]]; try (by apply not_elem_of_nil in H0); (split; [cbn [named_by list_to_set]; set_solver|simpl; lia]).
Qed.
Lemma demo_replays : replays demo_crawl.
Proof. by exists 0, 0, 0, 0. Qed.
Lemma demo_first : list_to_set ["https://shop.test/a.xml"] ⊆ demo_sitemaps.
Proof. unfold demo_sitemaps. cbn [list_to_set]. set_solver. Qed.
Lemma demo_fuel : (length ["https://shop.test/a.xml"] + 2 * size demo_sitemaps < 10)%nat.
Proof. apply Nat.ltb_lt. vm_compute. reflexivity. Qed.
Lemma sitemap_walk_ends_witness : (sitemap_urls as_is no_repr in_short not_gzip 10 0 ["https://shop.test/a.xml"] None demo_crawl).1 <> Err WalksOn.
Proof.
exact (sitemap_walk_ends as_is no_repr in_short not_gzip replays demo_sitemaps 2 10 0 ["https://shop.test/a.xml"] None demo_crawl
  demo_names demo_replays demo_first demo_fuel).
Defined.

Definition demo_config : Config :=
  {| cg_label := "Shop"; cg_url := ""; cg_scraper := "pagecrawl"; cg_scope := "materials"; cg_delay := None; cg_ignore_robots := false;
     cg_obey_robots := false; cg_timeout_seconds := None; cg_material_categories := None; cg_excluded_categories := None |}.
Definition demo_row (name : string) (family : json) : record := [("name", JStr name); ("price", JInt 12); ("family", family)].
Example demo_rows :
  keep as_is no_repr demo_config (demo_row "Celadon Glaze" (JStr "glaze")) None = Ok true
  /\ keep as_is no_repr demo_config (demo_row "Glaze Tongs Tool" (JStr "glaze")) None = Ok false
  /\ keep as_is no_repr demo_config (demo_row "Kiln Ice Glaze" (JStr "glaze")) None = Ok true
  /\ keep as_is no_repr demo_config (demo_row "Forno elettrico" (JStr "clay_body")) None = Ok false
  /\ keep as_is no_repr demo_config (demo_row "Mug" JNull) None = Ok false.
Proof. vm_compute. auto. Qed.
Definition kept_rows (c : Crawl) : nat := length (sx_records (cr_result c)).
Lemma every_row_is_accounted_for_witness :
  let c' := demo_crawl <| cr_result := new_result <| sx_records := [demo_row "Celadon Glaze" (JStr "glaze")] |> |> in
  usable (demo_row "Celadon Glaze" (JStr "glaze"))
  /\ (strict_scope demo_config = true -> exists categories path,
        items_of (get (demo_row "Celadon Glaze" (JStr "glaze")) "category_path") = Ok categories /\ join_texts categories = Ok path
        /\ belongs as_is no_repr demo_config (demo_row "Celadon Glaze" (JStr "glaze")) None categories path).
Proof.
intros c'. assert (E : add as_is no_repr demo_config (Some (demo_row "Celadon Glaze" (JStr "glaze"))) None demo_crawl = (Ok (), c')) by (vm_compute; reflexivity).
destruct (every_row_is_accounted_for as_is no_repr demo_config (demo_row "Celadon Glaze" (JStr "glaze")) None demo_crawl c' ltac:(discriminate) E)
  as [(_ & K)|[(K & _)|(K & _)]]; [exact K|apply (f_equal kept_rows) in K; vm_compute in K; discriminate K..].
Defined.

(** A scraper that keeps one row and then meets [broken] on its next page. *)
Definition demo_scrape (broken : crawl_exn) (_ : option Z) : eff Crawl crawl_exn () :=
  _ ← add as_is no_repr demo_config (Some (demo_row "Celadon Glaze" (JStr "glaze"))) None; throw broken.
Definition demo_run (broken : crawl_exn) :=
  run_source as_is no_repr in_short (fun _ => "rows") (fun _ => "digest") "shop" demo_config (demo_scrape broken) None 3600 "dom" false None false (demo_crawl, ∅).
Definition demo_outcome (broken : crawl_exn) : option (list record * CrawlSummary) :=
  match (demo_run broken).1 with Ok o => Some (oc_records o, ss_core (oc_summary o)) | Err _ => None end.
Example demo_outcomes :
  (fun o => (cs_truncated o.2, cs_errors o.2)) <$> demo_outcome DeadlinePassed = Some (true, ["source exceeded its 3600s deadline"])
  /\ (fun o => (cs_truncated o.2, length o.1)) <$> demo_outcome (Raised (StatusError 429)) = Some (true, 1%nat)
  /\ (fun o => (cs_truncated o.2, length o.1)) <$> demo_outcome (Raised (FetchPy (KeyError "price"))) = Some (false, 1%nat)
  /\ demo_outcome (NoBrowser "no camoufox") = None.
Proof. vm_compute. auto. Qed.
Lemma demo_deadline : match (demo_scrape DeadlinePassed None demo_crawl).1 with
  | Err DeadlinePassed => True | Err (Raised e) => recorded e = true /\ cr_enumerating (demo_scrape DeadlinePassed None demo_crawl).2 = true | _ => False end.
Proof. vm_compute. exact I. Qed.
Lemma a_gap_retires_nothing_witness : exists o s',
  demo_run DeadlinePassed = (Ok o, s') /\ (legacy_load_plan (ss_core (oc_summary o)) "replaced").1.1 = false.
Proof.
assert (Hok : is_ok (demo_run DeadlinePassed).1 = true) by (vm_compute; reflexivity).
destruct (demo_run DeadlinePassed) as [[o|e] s'] eqn:E; [|discriminate Hok].
exists o, s'. split; [reflexivity|].
apply (a_gap_retires_nothing as_is no_repr in_short (fun _ => "rows") (fun _ => "digest") "shop" demo_config (demo_scrape DeadlinePassed) None 3600 "dom"
         false None false demo_crawl ∅ demo_crawl _ _ o s' "replaced" eq_refl (surjective_pairing _)); [|exact E].
right. exact demo_deadline.
Defined.
End demo.
