(* ===== verification/CrawlRunner.v ===== *)
(** Running a set of sources ([catalogue-dump/.../crawl/runner.py], class [CrawlRunner]): at
    most so many at a time, one of them or all of them cancelled, and one outcome for each.

    A task is one source; its steps are what the event loop lets happen between two
    awaits. A source that runs ends by itself: [LegacyCrawl.run_source] has a deadline. *)
From S2P Require Export LegacyCrawl.
Open Scope Z_scope.

(** [Stopped] is a cancelled task, [Broke] one that raised. *)
Inductive Task := Queued | Running | Ended (o : SourceOutcome) | Stopped | Broke (e : crawl_exn).
Definition done_task (t : Task) : bool := match t with Queued | Running => false | _ => true end.
Definition is_running (t : Task) : bool := match t with Running => true | _ => false end.

(** [rn_cancelled]: tasks to which a cancellation was sent. [rn_asked]: the sources that were
    cancelled one by one. [rn_seen]: the live results. [rn_broke]: the group was aborted by
    a task that raised. Source: catalogue-dump/crawl/runner.py, CrawlRunner.__init__. *)
Record Runner := {
  rn_selected : list string; rn_limit : Z; rn_tasks : gmap string Task; rn_cancelled : gset string; rn_asked : gset string;
  rn_stopping : bool; rn_broke : bool; rn_seen : gmap string ScrapeResult;
}.
#[export] Instance Runner_eta : Eta Runner := fun r =>
  {| rn_selected := rn_selected r; rn_limit := rn_limit r; rn_tasks := rn_tasks r; rn_cancelled := rn_cancelled r; rn_asked := rn_asked r;
     rn_stopping := rn_stopping r; rn_broke := rn_broke r; rn_seen := rn_seen r |}.

(** The tasks of a run, as they are created. The selected names are distinct, as they are the
    keys of a configuration; of a name given twice the code would make two tasks. Source: catalogue-dump/crawl/runner.py:460-463, CrawlRunner.run. *)
Definition new_runner (sources : Z) (selected : list string) : Runner :=
  {| rn_selected := selected; rn_limit := Z.max 1 sources; rn_tasks := list_to_map (map (fun name => (name, Queued)) selected); rn_cancelled := ∅;
     rn_asked := ∅; rn_stopping := false; rn_broke := false; rn_seen := ∅ |}.

(** [task.cancel()] of every task: it does nothing to one that is done. *)
Definition cancel_tasks (r : Runner) : Runner :=
  r <| rn_cancelled := rn_cancelled r ∪ dom (filter (fun nt => done_task nt.2 = false) (rn_tasks r)) |>.
(** Source: catalogue-dump/crawl/runner.py, CrawlRunner.stop. *)
Definition stop (r : Runner) : Runner := cancel_tasks (r <| rn_stopping := true |>).
(** Source: catalogue-dump/crawl/runner.py, CrawlRunner.cancel. *)
Definition cancel (source : string) (r : Runner) : bool * Runner :=
  match rn_tasks r !! source with
  | Some t => if done_task t then (false, r)
              else (true, r <| rn_cancelled := rn_cancelled r ∪ {[source]} |> <| rn_asked := rn_asked r ∪ {[source]} |>)
  | None => (false, r)
  end.
(** Source: catalogue-dump/crawl/runner.py, CrawlRunner._on_signal. *)
Definition on_signal (r : Runner) : Runner := if rn_stopping r then r else stop r.

Definition running (r : Runner) : Z := Z.of_nat (size (filter (fun nt => is_running nt.2 = true) (rn_tasks r))).
Definition set_task (name : string) (t : Task) (r : Runner) : Runner := r <| rn_tasks := <[name := t]> (rn_tasks r) |>.

(** What may happen next. Source: catalogue-dump/crawl/runner.py:442-478, CrawlRunner.run. *)
Inductive run_step (r : Runner) : Runner -> Prop :=
| Starts name : rn_tasks r !! name = Some Queued -> name ∉ rn_cancelled r -> running r < rn_limit r -> rn_stopping r = false ->
    run_step r (set_task name Running (r <| rn_seen := <[name := new_result]> (rn_seen r) |>))
| Refuses name : rn_tasks r !! name = Some Queued -> rn_stopping r = true -> run_step r (set_task name Stopped r)
| Progresses name x : rn_tasks r !! name = Some Running -> run_step r (r <| rn_seen := <[name := x]> (rn_seen r) |>)
| Ends name o : rn_tasks r !! name = Some Running -> oc_source o = name -> run_step r (set_task name (Ended o) r)
| Breaks name e : rn_tasks r !! name = Some Running -> run_step r (cancel_tasks (set_task name (Broke e) (r <| rn_broke := true |>)))
| Unwinds name t : rn_tasks r !! name = Some t -> done_task t = false -> name ∈ rn_cancelled r -> run_step r (set_task name Stopped r)
| Cancels name : run_step r (cancel name r).2
| Stops : run_step r (stop r)
| Signals : run_step r (on_signal r).

(** Source: catalogue-dump/crawl/runner.py, CrawlRunner._outcome. *)
Definition outcome_of_source (config : string -> Config) (r : Runner) (name : string) : SourceOutcome :=
  match rn_tasks r !! name with Some (Ended o) => o | _ => partial_outcome name (config name) (rn_seen r !! name) end.
(** What the run returns when its tasks are done: the outcomes, and whether it was cut
    short. Source: catalogue-dump/crawl/runner.py:479-480, CrawlRunner.run. *)
Definition finish_run (config : string -> Config) (r : Runner) : list SourceOutcome * bool :=
  (map (outcome_of_source config r) (rn_selected r), rn_broke r || rn_stopping r).
Definition all_done (r : Runner) : Prop := map_Forall (fun _ t => done_task t = true) (rn_tasks r).

(** * The invariant *)

Record runner_ok (sources : Z) (selected : list string) (r : Runner) : Prop := {
  ro_selected : rn_selected r = selected;
  ro_limit : rn_limit r = Z.max 1 sources;
  ro_tasks : dom (rn_tasks r) = list_to_set selected;
  ro_running : running r <= rn_limit r;
  (* nobody is cancelled without a reason *)
  ro_reason : forall name, name ∈ rn_cancelled r -> rn_stopping r = true \/ rn_broke r = true \/ name ∈ rn_asked r;
  ro_stopped : forall name, rn_tasks r !! name = Some Stopped -> rn_stopping r = true \/ rn_broke r = true \/ name ∈ rn_asked r;
  ro_broke : forall name e, rn_tasks r !! name = Some (Broke e) -> rn_broke r = true;
  (* a stop reaches every task *)
  ro_reached : rn_stopping r = true \/ rn_broke r = true -> forall name t, rn_tasks r !! name = Some t -> done_task t = true \/ name ∈ rn_cancelled r;
  ro_source : forall name o, rn_tasks r !! name = Some (Ended o) -> oc_source o = name;
}.

Lemma running_insert name t r : is_running t = false -> running (set_task name t r) <= running r.
Proof.
intros Ht. unfold running, set_task. simpl. rewrite map_filter_insert_False by (simpl; by rewrite Ht). apply Nat2Z.inj_le, map_subseteq_size.
apply map_filter_subseteq_mono, delete_subseteq.
Qed.
Lemma running_start name r : running (set_task name Running r) <= running r + 1.
Proof.
unfold running, set_task. simpl. rewrite map_filter_insert_True by done. pose proof (map_size_insert name Running (filter (fun nt => is_running nt.2 = true) (rn_tasks r))) as Hs.
rewrite Hs. destruct (_ !! name); unfold id; lia.
Qed.

Lemma done_not_running t : done_task t = true -> is_running t = false.
Proof. by destruct t. Qed.
Lemma lookup_set_task name t r other : rn_tasks (set_task name t r) !! other = if decide (name = other) then Some t else rn_tasks r !! other.
Proof. unfold set_task. simpl. destruct (decide (name = other)) as [->|]; [apply lookup_insert_eq|by apply lookup_insert_ne]. Qed.
Lemma dom_set_task name t r : is_Some (rn_tasks r !! name) -> dom (rn_tasks (set_task name t r)) = dom (rn_tasks r).
Proof. intros H. unfold set_task. simpl. rewrite dom_insert_L. apply elem_of_dom in H. set_solver. Qed.
Lemma cancelled_all r name t : rn_tasks r !! name = Some t -> done_task t = true \/ name ∈ rn_cancelled (cancel_tasks r).
Proof.
intros E. destruct (done_task t) eqn:Et; [by left|right]. unfold cancel_tasks. simpl. apply elem_of_union_r, elem_of_dom. exists t.
by apply map_lookup_filter_Some.
Qed.

(** A task that is over, for a reason. *)
Lemma ok_over sources selected r name t t' : runner_ok sources selected r -> rn_tasks r !! name = Some t -> is_running t' = false -> done_task t' = true ->
  (t' = Stopped -> rn_stopping r = true \/ rn_broke r = true \/ name ∈ rn_asked r) -> (forall e, t' <> Broke e) -> (forall o, t' = Ended o -> oc_source o = name) ->
  runner_ok sources selected (set_task name t' r).
Proof.
intros [O1 O2 O3 O4 O5 O6 O7 O8 O9] Et Hr Hd Hs Hb He. split; try done.
- by rewrite dom_set_task.
- etrans; [by apply running_insert|done].
- intros n. rewrite lookup_set_task. case_decide as En; [subst; intros [= ->]; by apply Hs|apply O6].
- intros n e. rewrite lookup_set_task. case_decide; [intros [= ->]; by destruct (Hb e)|apply O7].
- intros Hsb n u. rewrite lookup_set_task. case_decide; [intros [= <-]; by left|by apply O8].
- intros n o. rewrite lookup_set_task. case_decide as En; [subst; intros [= ->]; by apply He|apply O9].
Qed.
Lemma ok_broken sources selected r name e : runner_ok sources selected r -> rn_tasks r !! name = Some Running ->
  runner_ok sources selected (cancel_tasks (set_task name (Broke e) (r <| rn_broke := true |>))).
Proof.
intros [O1 O2 O3 O4 O5 O6 O7 O8 O9] E. split; try done.
- change (dom (rn_tasks (set_task name (Broke e) r)) = list_to_set selected). rewrite dom_set_task; [done|]. by exists Running.
- change (running (set_task name (Broke e) r) <= rn_limit r). etrans; [by apply running_insert|done].
- intros n _. right. by left.
- intros n _. right. by left.
- intros _ n t Et. by apply cancelled_all.
- intros n o. change (rn_tasks (set_task name (Broke e) r) !! n = Some (Ended o) -> oc_source o = n). rewrite lookup_set_task. case_decide; [done|apply O9].
Qed.
Lemma ok_stop sources selected r : runner_ok sources selected r -> runner_ok sources selected (stop r).
Proof.
intros [O1 O2 O3 O4 O5 O6 O7 O8 O9]. unfold stop. split; try done.
- intros n _. by left.
- intros n _. by left.
- intros _ n t E. by apply cancelled_all.
Qed.
Lemma ok_step sources selected r r' : runner_ok sources selected r -> run_step r r' -> runner_ok sources selected r'.
Proof.
intros O. pose proof O as [O1 O2 O3 O4 O5 O6 O7 O8 O9]. destruct 1 as [name E Hc Hl Hs|name E Hs|name x E|name o E Eo|name e E|name t E Hd Hc|name| |].
- split; try done.
  + rewrite dom_set_task; [done|]. by exists Queued.
  + pose proof (running_start name (r <| rn_seen := <[name := new_result]> (rn_seen r) |>)) as Hr. change (running (r <| rn_seen := _ |>)) with (running r) in Hr.
    change (running (set_task name Running (r <| rn_seen := <[name := new_result]> (rn_seen r) |>)) <= rn_limit r). lia.
  + intros n. rewrite lookup_set_task. case_decide; [done|apply O6].
  + intros n e. rewrite lookup_set_task. case_decide; [done|apply O7].
  + intros Hsb n t. rewrite lookup_set_task. case_decide as En; [|by apply O8]. subst. destruct (O8 Hsb n Queued E) as [[=]|?]. by right.
  + intros n o. rewrite lookup_set_task. case_decide; [done|apply O9].
- apply (ok_over _ _ _ _ Queued); auto; done.
- by split.
- apply (ok_over _ _ _ _ Running); try done. by intros o' [= <-].
- by apply ok_broken.
- apply (ok_over _ _ _ _ t); auto; done.
- unfold cancel. destruct (rn_tasks r !! name) as [t|] eqn:E; [|done]. destruct (done_task t); [done|]. split; try done; simpl.
  + intros n [Hn|Hn]%elem_of_union; [destruct (O5 n Hn) as [?|[?|?]]; auto; right; right; set_solver|]. right; right. set_solver.
  + intros n Hn. destruct (O6 n Hn) as [?|[?|?]]; auto. right; right. set_solver.
  + intros Hsb n u Eu. destruct (O8 Hsb n u Eu); [by left|right; set_solver].
- by apply ok_stop.
- unfold on_signal. destruct (rn_stopping r); [done|by apply ok_stop].
Qed.
Lemma new_runner_ok sources selected : runner_ok sources selected (new_runner sources selected).
Proof.
assert (Hq : forall name t, rn_tasks (new_runner sources selected) !! name = Some t -> t = Queued).
{ intros name t E. apply elem_of_list_to_map_2 in E. apply list_elem_of_In, in_map_iff in E as (n & [= _ <-] & _). done. }
split; try done.
- simpl. rewrite dom_list_to_map_L. f_equal. rewrite <- list_fmap_compose. apply list_fmap_id.
- unfold running. assert (E : filter (fun nt => is_running nt.2 = true) (rn_tasks (new_runner sources selected)) = ∅).
  { apply map_empty. intros n. apply map_lookup_filter_None. right. intros t E. by apply Hq in E as ->. }
  rewrite E, map_size_empty. simpl. lia.
- intros n E. by apply Hq in E.
- intros n e E. by apply Hq in E.
- intros [|]; done.
- intros n o E. by apply Hq in E.
Qed.
Lemma reachable_ok sources selected r : reachable run_step (new_runner sources selected) r -> runner_ok sources selected r.
Proof. apply (reachable_invariant run_step (runner_ok sources selected)); [apply new_runner_ok|intros s s'; apply ok_step]. Qed.

(** Some task can go on. *)
Definition any_config (_ : string) : Config :=
  {| cg_label := ""; cg_url := ""; cg_scraper := ""; cg_scope := ""; cg_delay := None; cg_ignore_robots := false; cg_obey_robots := false;
     cg_timeout_seconds := None; cg_material_categories := None; cg_excluded_categories := None |}.
Lemma ends_step r name : rn_tasks r !! name = Some Running ->
  exists r', run_step r r' /\ rn_tasks r' !! name <> rn_tasks r !! name.
Proof.
intros E. eexists. split; [apply (Ends r name {| oc_source := name; oc_records := []; oc_summary := oc_summary (partial_outcome name (any_config name) None) |}); done|].
rewrite lookup_set_task, decide_True, E by done. done.
Qed.
Lemma can_go_on sources selected r : runner_ok sources selected r -> ~ all_done r ->
  exists name r', run_step r r' /\ (done_task <$> rn_tasks r !! name) = Some false /\ rn_tasks r' !! name <> rn_tasks r !! name.
Proof.
intros [_ O2 _ O4 _ _ _ O8 _] Hn. unfold all_done in Hn. apply map_not_Forall in Hn as (name & t & E & Ht); [|intros i x; apply _].
apply not_true_is_false in Ht. destruct t; try done; [|destruct (ends_step r name E) as (r' & Hs & Hr); exists name, r'; by rewrite E in *].
destruct (decide (name ∈ rn_cancelled r)) as [Hc|Hc].
{ exists name. eexists. split; [by apply (Unwinds r name Queued)|]. by rewrite lookup_set_task, decide_True, E. }
destruct (rn_stopping r) eqn:Es. { destruct (O8 (or_introl eq_refl) name Queued E); done. }
destruct (decide (running r < rn_limit r)) as [Hl|Hl].
{ exists name. eexists. split; [by apply Starts|]. by rewrite lookup_set_task, decide_True, E. }
assert (Hex : exists other, rn_tasks r !! other = Some Running).
{ unfold running in *. assert (Hs : size (filter (fun nt => is_running nt.2 = true) (rn_tasks r)) <> 0%nat) by lia.
  destruct (map_choose (filter (fun nt => is_running nt.2 = true) (rn_tasks r))) as (other & u & Eu); [intros K; by rewrite K in Hs|].
  apply map_lookup_filter_Some in Eu as [Eu Hu]. exists other. by destruct u. }
destruct Hex as [other Eo]. destruct (ends_step r other Eo) as (r' & Hs & Hr). exists other, r'. rewrite Eo in *. done.
Qed.

(** C39. A run returns one outcome for each source it was given, in order and under its name,
    never has more than the configured number of sources running, and a source that was not
    cancelled itself, in a run that was not cut short, is answered by its own outcome, not by
    what it had collected so far. Until all tasks are done one of them can go on. *)
Theorem a_run_answers_for_every_source sources selected config r : reachable run_step (new_runner sources selected) r ->
  running r <= Z.max 1 sources
  /\ map oc_source (finish_run config r).1 = selected
  /\ (all_done r -> (finish_run config r).2 = false -> forall name, name ∈ selected -> name ∉ rn_asked r ->
        exists o, rn_tasks r !! name = Some (Ended o) /\ outcome_of_source config r name = o)
  /\ (~ all_done r -> exists name r', run_step r r' /\ done_task <$> rn_tasks r !! name = Some false /\ rn_tasks r' !! name <> rn_tasks r !! name).
Proof.
intros R. apply reachable_ok in R as O. pose proof O as [O1 O2 O3 O4 O5 O6 O7 O8 O9]. split_and!.
- by rewrite <- O2.
- unfold finish_run. simpl. rewrite O1. clear -O9. induction selected as [|name selected IH]; [done|]. cbn [map]. f_equal; [|exact IH].
  unfold outcome_of_source. destruct (rn_tasks r !! name) as [[]|] eqn:E; try done. by apply O9.
- intros Hd Hf name Hin Hask. apply orb_false_iff in Hf as [Hb Hs].
  assert (Hdom : name ∈ dom (rn_tasks r)) by (rewrite O3; by apply elem_of_list_to_set). apply elem_of_dom in Hdom as [t E].
  pose proof (Hd name t E) as Ht. unfold outcome_of_source. rewrite E. destruct t; try done.
  + by eexists.
  + destruct (O6 name E) as [?|[?|?]]; congruence || done.
  + pose proof (O7 name e E). congruence.
- by eapply can_go_on.
Qed.

(** Once a run stops, nothing more is started. *)
Lemma a_stopped_run_starts_nothing r r' name : rn_stopping r = true -> run_step r r' -> rn_tasks r' !! name = Some Running -> rn_tasks r !! name = Some Running.
Proof.
intros Hs. destruct 1 as [n E Hc Hl Hst|n E Hst|n x E|n o E Eo|n e E|n t E Hd Hc|n| |]; try done.
- by rewrite Hst in Hs.
- rewrite lookup_set_task. by case_decide.
- rewrite lookup_set_task. by case_decide.
- change (rn_tasks (set_task n (Broke e) r) !! name = Some Running -> rn_tasks r !! name = Some Running). rewrite lookup_set_task. by case_decide.
- rewrite lookup_set_task. by case_decide.
- unfold cancel. destruct (rn_tasks r !! n) as [t|]; [|done]. by destruct (done_task t).
- unfold on_signal. by rewrite Hs.
Qed.

(** One source is to end without ending the others. But a source that needs a browser where
    none can start raises out of its task, which aborts the group: every source that is not
    done is cancelled, whether it needs a browser or not. *)
Lemma a_missing_browser_stops_the_others r name (message : string) other t :
  rn_tasks r !! name = Some Running -> other <> name -> rn_tasks r !! other = Some t -> done_task t = false ->
  exists r' r'', run_step r r' /\ run_step r' r'' /\ rn_stopping r'' = rn_stopping r /\ rn_tasks r'' !! other = Some Stopped.
Proof.
intros E Hn Eo Ht. set (r' := cancel_tasks (set_task name (Broke (NoBrowser message)) (r <| rn_broke := true |>))).
assert (Eo' : rn_tasks r' !! other = Some t) by (change (rn_tasks r' !! other) with (rn_tasks (set_task name (Broke (NoBrowser message)) r) !! other); by rewrite lookup_set_task, decide_False by done).
exists r', (set_task other Stopped r'). split; [by apply Breaks|]. split; [|split; [done|by rewrite lookup_set_task, decide_True]].
apply (Unwinds r' other t); [done|done|]. destruct (cancelled_all (set_task name (Broke (NoBrowser message)) (r <| rn_broke := true |>)) other t Eo'); [congruence|done].
Qed.

(** * A run of two sources, one at a time *)

Definition demo_outcome_of (name : string) : SourceOutcome :=
  partial_outcome name (any_config name) None.
Definition demo_runner : Runner := new_runner 0 ["a"; "b"].
Definition demo_both : Runner :=
  set_task "b" (Ended (demo_outcome_of "b")) (set_task "b" Running ((set_task "a" (Ended (demo_outcome_of "a"))
    (set_task "a" Running (demo_runner <| rn_seen := <["a" := new_result]> ∅ |>))) <| rn_seen := <["b" := new_result]> (<["a" := new_result]> ∅) |>)).
Lemma demo_both_reachable : reachable run_step demo_runner demo_both.
Proof.
unfold demo_both. do 2 (eapply reach_step; [|apply (Ends _ _ (demo_outcome_of _)); vm_compute; reflexivity]; eapply reach_step; [|apply Starts; [vm_compute; reflexivity|by apply not_elem_of_empty|vm_compute; reflexivity|reflexivity]]).
apply reach_refl.
Qed.
Lemma demo_both_done : all_done demo_both.
Proof. refine (bool_decide_eq_true_1 (map_Forall _ _) _). vm_compute. reflexivity. Qed.
Lemma a_run_answers_for_every_source_witness : running demo_both <= 1 /\ exists o, rn_tasks demo_both !! "b" = Some (Ended o).
Proof.
destruct (a_run_answers_for_every_source 0 ["a"; "b"] any_config demo_both demo_both_reachable) as (Hr & _ & Ho & _).
split; [exact Hr|]. destruct (Ho demo_both_done eq_refl "b") as (o & E & _); [set_solver|apply not_elem_of_empty|]. exists o. exact E.
Defined.
