(* ===== verification/Discovery.v ===== *)
(** Discovery of product pages through sitemaps ([commerce-scraper/.../discovery/sitemap.py]):
    the sitemaps an origin's robots file advertises, and the bounded walk from them.

    The transport, the decoding of a body and the consumer of the pages are arguments:
    [async for location in discovery.discover(...)] runs its body at every [yield], so the
    walk is given that body, over the same world. *)
From S2P Require Import HtmlPage.
From S2P Require Export Middleware Regex.
From Stdlib Require Import Ascii.
Open Scope Z_scope.

(** Source: discovery/sitemap.py:16-16, LOC. *)
Definition LOC : regex := rx re_IS "<loc\b[^>]*>\s*(.*?)\s*</loc>".
(** Source: discovery/sitemap.py:17-19, SITEMAP_DIRECTIVE. *)
Definition SITEMAP_DIRECTIVE : regex := rx re_IM "^\s*Sitemap\s*:\s*(\S+)\s*$".

(** [DiscoveryFailure], an exception of the transport that is not turned into one, and one
    of the standard library or of the consumer. *)
Inductive discovery_exn :=
| DiscoveryFailure (message : string) (retryable : bool)
| D_Raised (e : mw_exn)
| D_Py (e : pyexn).

(** A sitemap that was read, and a page that was yielded. *)
Inductive discovery_event :=
| Asked (url : string) (index : bool) (locations : list string)
| Yielded (url : string).

(** Source: discovery/sitemap.py, SitemapDiscovery.__init__. *)
Record SitemapDiscovery := { sd_roots : list string; sd_product_pattern : option regex; sd_limit : Z }.

(** Source: discovery/sitemap.py:80-83, SitemapDiscovery.discover. *)
Definition sitemap_request (url : string) : TransportRequest :=
  {| r_method := "GET"; r_url := url; r_query := []; r_headers := []; r_json_body := None; r_body := None;
     r_purpose := P_DISCOVERY; r_priority := R_DISCOVERY; r_required := true; r_estimated_bytes := 500000;
     r_cache := CACHE_DEFAULT; r_browser := HINT_NEVER; r_evaluation := None; r_trace_request_id := None; r_trace_attempt := None |}.
(** Source: discovery/sitemap.py:39-47, advertised_sitemaps. *)
Definition robots_request (url : string) : TransportRequest :=
  {| r_method := "GET"; r_url := url; r_query := []; r_headers := []; r_json_body := None; r_body := None;
     r_purpose := P_ROBOTS; r_priority := R_DISCOVERY; r_required := false; r_estimated_bytes := 100000;
     r_cache := CACHE_DEFAULT; r_browser := HINT_NEVER; r_evaluation := None; r_trace_request_id := None; r_trace_attempt := None |}.

Section discovery.
Context {W : Type} (send : TransportRequest -> eff W mw_exn TransportResponse) (decode : string -> string)
  (consume : string -> eff W discovery_exn ()).
Abbreviation M := (eff (W * list discovery_event) discovery_exn).

Definition record_event (e : discovery_event) : M () := modify (fun s => (s.1, s.2 ++ [e])).
Definition on_world {A} (m : eff W discovery_exn A) : M A := fun s => let (r, w) := m s.1 in (r, (w, s.2)).
Definition pure_result {A} (r : result pyexn A) : M A := lift (match r with Ok a => Ok a | Err e => Err (D_Py e) end).

(** [except (ResponseBodyTooLarge, TransportFailure) as error: raise DiscoveryFailure(...)]
    Source: discovery/sitemap.py:48-52, advertised_sitemaps. *)
Definition discovery_failure (what : string) (e : mw_exn) : discovery_exn :=
  match e with
  | X_BodyTooLarge _ => DiscoveryFailure (what +:+ " request failed: " +:+ exn_name e) false
  | X_TransportFailure _ => DiscoveryFailure (what +:+ " request failed: " +:+ exn_name e) true
  | _ => D_Raised e
  end.
(** Source: discovery/sitemap.py:79-88, SitemapDiscovery.discover. *)
Definition ask (what : string) (r : TransportRequest) : M TransportResponse := on_world (fun w =>
  match send r w with
  | (Ok t, w) => (Ok t, w)
  | (Err e, w) => (Err (discovery_failure what e), w)
  end).

(** Source: discovery/sitemap.py, advertised_sitemaps. *)
Definition advertised_sitemaps (base_url : string) : M (list string) :=
  parsed ← pure_result (urlsplit base_url);
  let robots_url := sr_scheme parsed +:+ "://" +:+ sr_netloc parsed +:+ "/robots.txt" in
  response ← ask "robots sitemap" (robots_request robots_url);
  if 400 <=? t_status response then mret [] else
  found ← pure_result (map_result (fun value => urljoin robots_url (str_strip value)) (findall SITEMAP_DIRECTIVE (decode (t_content response))));
  mret (fromkeys found).

(** What a sitemap says: whether it is an index, and its locations.
    Source: discovery/sitemap.py:79-98, SitemapDiscovery.discover. *)
Definition read_sitemap (url : string) : M (bool * list string) :=
  response ← ask "sitemap" (sitemap_request url);
  _ ← lift (ensure (t_status response <? 400) (DiscoveryFailure ("sitemap request failed with status " +:+ pretty (t_status response)) true));
  let document := decode (t_content response) in
  locations ← pure_result (map_result (fun value => urljoin url (str_strip value)) (findall LOC document));
  let index := str_contains "<sitemapindex" (str_lower document) in
  _ ← record_event (Asked url index locations);
  mret (index, locations).

Context (d : SitemapDiscovery).

Definition wanted (location : string) : bool := match sd_product_pattern d with None => true | Some pattern => found pattern location end.

(** Source: discovery/sitemap.py:103-106, SitemapDiscovery.discover. *)
Fixpoint emit_locations (emitted : gset string) (locations : list string) : M (gset string) :=
  match locations with
  | [] => mret emitted
  | location :: rest =>
      if negb (bool_decide (location ∈ emitted)) && wanted location
      then _ ← record_event (Yielded location); _ ← on_world (consume location); emit_locations ({[location]} ∪ emitted) rest
      else emit_locations emitted rest
  end.

(** [while queue: url = queue.pop(0); if url in seen: continue]
    Source: discovery/sitemap.py:75-78, SitemapDiscovery.discover. *)
Fixpoint next_unseen (seen : gset string) (queue : list string) : option (string * list string) :=
  match queue with
  | [] => None
  | url :: rest => if bool_decide (url ∈ seen) then next_unseen seen rest else Some (url, rest)
  end.

(** The loop over the queue; [room] sitemaps may still be read.
    Source: discovery/sitemap.py:75-106, SitemapDiscovery.discover. *)
Fixpoint walk (room : nat) (queue : list string) (seen emitted : gset string) : M () :=
  match next_unseen seen queue with
  | None => mret ()
  | Some (url, queue) =>
      match room with
      | O => throw (DiscoveryFailure ("sitemap traversal limit " +:+ pretty (sd_limit d) +:+ " reached") true)
      | S room =>
          let seen := {[url]} ∪ seen in
          '(index, locations) ← read_sitemap url;
          if index : bool then walk room (queue ++ locations) seen emitted
          else emitted ← emit_locations emitted locations; walk room queue seen emitted
      end
  end.

(** Source: discovery/sitemap.py, SitemapDiscovery.discover. *)
Definition discover (base_url : string) : M () :=
  queue ← pure_result (map_result (urljoin base_url) (sd_roots d));
  walk (Z.to_nat (sd_limit d)) queue ∅ ∅.

(** * What the walk did *)

Definition asked_url (e : discovery_event) : option string := match e with Asked url _ _ => Some url | Yielded _ => None end.
Definition yielded_url (e : discovery_event) : option string := match e with Yielded url => Some url | Asked _ _ _ => None end.
Definition asked (es : list discovery_event) : list string := omap asked_url es.
Definition yielded (es : list discovery_event) : list string := omap yielded_url es.

(** A page was named by a sitemap that is no index, and is one the source wants. *)
Definition listed (es : list discovery_event) (page : string) : Prop :=
  exists url locations, Asked url false locations ∈ es /\ page ∈ locations /\ wanted page = true.
(** The sitemaps that have to be read: those the walk began with and those an index named. *)
Definition named (es : list discovery_event) (url : string) : Prop :=
  exists index locations, Asked index true locations ∈ es /\ url ∈ locations.
End discovery.

Section facts.
Context {W : Type} (send : TransportRequest -> eff W mw_exn TransportResponse) (decode : string -> string)
  (consume : string -> eff W discovery_exn ()) (d : SitemapDiscovery).
#[local] Abbreviation read_sitemap := (read_sitemap send decode).
#[local] Abbreviation emit_locations := (emit_locations consume d).
#[local] Abbreviation walk := (walk send decode consume d).

Lemma asked_app es es' : asked (es ++ es') = asked es ++ asked es'.
Proof. apply omap_app. Qed.
Lemma yielded_app es es' : yielded (es ++ es') = yielded es ++ yielded es'.
Proof. apply omap_app. Qed.
Lemma elem_of_asked es url : url ∈ asked es <-> exists index locations, Asked url index locations ∈ es.
Proof.
unfold asked. rewrite list_elem_of_omap. split.
- intros ([] & He & H); simplify_eq/=. eauto.
- intros (index & locations & H). by exists (Asked url index locations).
Qed.
Lemma asked_nil es url index locations : asked es = [] -> Asked url index locations ∉ es.
Proof. intros E H. assert (url ∈ asked es) as Hu by (apply elem_of_asked; eauto). rewrite E in Hu. by apply elem_of_nil in Hu. Qed.

Lemma read_sitemap_spec url s r s' : read_sitemap url s = (r, s') ->
  match r with Ok (index, locations) => s'.2 = s.2 ++ [Asked url index locations] | Err _ => s'.2 = s.2 end.
Proof.
unfold Discovery.read_sitemap, ask, on_world, mbind, eff_bind. destruct (send _ s.1) as [[t|e] w]; [|by intros [= <- <-]].
unfold lift, ensure. destruct (t_status t <? 400); [|by intros [= <- <-]].
unfold pure_result. destruct (map_result _ _) as [locations|e]; [|by intros [= <- <-]]. by intros [= <- <-].
Qed.

Lemma emit_locations_spec locations : forall emitted s r s', emit_locations emitted locations s = (r, s') -> exists es, s'.2 = s.2 ++ es /\ asked es = []
  /\ NoDup (yielded es) /\ (forall p, p ∈ yielded es -> p ∉ emitted /\ p ∈ locations /\ wanted d p = true)
  /\ forall emitted', r = Ok emitted' -> emitted' = emitted ∪ list_to_set (yielded es) /\ forall p, p ∈ locations -> wanted d p = true -> p ∈ emitted'.
Proof.
induction locations as [|location rest IH]; intros emitted s r s' H; cbn [Discovery.emit_locations] in H.
{ injection H as <- <-. exists []. rewrite app_nil_r. split_and!; [done|done|constructor|set_solver|]. intros ? [= <-]. set_solver. }
destruct (negb _ && _) eqn:E.
- apply andb_prop in E as [Hnew Hw]. apply negb_true_iff, bool_decide_eq_false in Hnew.
  cbn [mbind eff_bind record_event modify on_world] in H. unfold mbind, eff_bind, record_event, modify, on_world in H. simpl in H.
  destruct (consume location s.1) as [[[]|e] w]; simpl in H.
  + apply IH in H as (es & E & Ha & Hn & Hy & Hr). simpl in E. exists (Yielded location :: es). rewrite E, <- app_assoc.
    cbn [asked yielded omap list_omap asked_url yielded_url]. fold (asked es) (yielded es). split_and!; [done|done| | |].
    * constructor; [|done]. intros Hp. destruct (Hy _ Hp). set_solver.
    * intros p [->|Hp]%elem_of_cons; [split_and!; [done|constructor|done]|]. destruct (Hy _ Hp) as (? & ? & ?). set_solver.
    * intros emitted' ->. destruct (Hr _ eq_refl) as [-> Hall]. split; [set_solver|]. intros p [->|Hp]%elem_of_cons ?; [set_solver|by apply Hall].
  + injection H as <- <-. exists [Yielded location]. split_and!; [done|done|apply NoDup_singleton| |done].
    intros p ->%list_elem_of_singleton. split_and!; [done|constructor|done].
- apply IH in H as (es & E1 & Ha & Hn & Hy & Hr). exists es. split_and!; [done|done|done| |].
  + intros p Hp. destruct (Hy _ Hp) as (? & ? & ?). split_and!; [done|by constructor|done].
  + intros emitted' ->. destruct (Hr _ eq_refl) as [-> Hall]. split; [done|]. intros p [->|Hp]%elem_of_cons Hw; [|by apply Hall].
    rewrite Hw, andb_true_r in E. apply negb_false_iff, bool_decide_eq_true in E. set_solver.
Qed.

Lemma next_unseen_spec seen queue :
  match next_unseen seen queue with
  | None => forall u, u ∈ queue -> u ∈ seen
  | Some (url, rest) => url ∉ seen /\ rest ⊆ queue /\ forall u, u ∈ queue -> u ∈ seen \/ u = url \/ u ∈ rest
  end.
Proof.
induction queue as [|url rest IH]; simpl; [by intros u H%elem_of_nil|]. case_bool_decide as Hs.
- destruct (next_unseen seen rest) as [[u r]|].
  + destruct IH as (? & ? & H). split_and!; [done|set_solver|]. intros v [->|Hv]%elem_of_cons; [by left|by apply H].
  + intros v [->|Hv]%elem_of_cons; [done|by apply IH].
- split_and!; [done|set_solver|]. intros v [->|Hv]%elem_of_cons; auto.
Qed.

(** What a walk that may still read [room] sitemaps leaves in the log, on any outcome,
    and what it leaves when it ends. *)
Record walked (room : nat) (queue : list string) (seen emitted : gset string) (es : list discovery_event) (r : result discovery_exn ()) : Prop := {
  w_once : NoDup (asked es);
  w_new : forall u, u ∈ asked es -> u ∉ seen;
  w_room : (length (asked es) <= room)%nat;
  w_distinct : NoDup (yielded es);
  w_fresh : forall p, p ∈ yielded es -> p ∉ emitted /\ listed d es p;
  w_queue : r = Ok () -> forall u, u ∈ queue -> u ∈ seen \/ u ∈ asked es;
  w_named : r = Ok () -> forall u, named es u -> u ∈ seen \/ u ∈ asked es;
  w_listed : r = Ok () -> forall p, listed d es p -> p ∈ emitted \/ p ∈ yielded es;
}.

Lemma walked_nothing room queue seen emitted r : (r = Ok () -> forall u, u ∈ queue -> u ∈ seen) -> walked room queue seen emitted [] r.
Proof.
intros H. split; cbn; try (by constructor); try set_solver; try lia.
- intros -> u (? & ? & ?%elem_of_nil & _). done.
- intros -> p (? & ? & ?%elem_of_nil & _). done.
Qed.

Lemma listed_app es es' p : listed d (es ++ es') p <-> listed d es p \/ listed d es' p.
Proof.
unfold listed. split.
- intros (u & l & [H|H]%elem_of_app & Hp); [left|right]; eauto.
- intros [(u & l & H & Hp)|(u & l & H & Hp)]; exists u, l; (split; [apply elem_of_app; auto|done]).
Qed.
Lemma named_app es es' u : named (es ++ es') u <-> named es u \/ named es' u.
Proof.
unfold named. split.
- intros (i & l & [H|H]%elem_of_app & Hp); [left|right]; eauto.
- intros [(i & l & H & Hp)|(i & l & H & Hp)]; exists i, l; (split; [apply elem_of_app; auto|done]).
Qed.

Lemma walked_index room queue rest seen emitted url locations es r : url ∉ seen ->
  (forall u, u ∈ queue -> u ∈ seen \/ u = url \/ u ∈ rest) ->
  walked room (rest ++ locations) ({[url]} ∪ seen) emitted es r -> walked (S room) queue seen emitted (Asked url true locations :: es) r.
Proof.
intros Hs Hq [H1 H2 H3 H4 H5 H6 H7 H8]. change (Asked url true locations :: es) with ([Asked url true locations] ++ es).
assert (Hl : forall p, listed d [Asked url true locations] p -> False) by (intros p (? & ? & ?%list_elem_of_singleton & _); simplify_eq).
split; rewrite ?asked_app, ?yielded_app; cbn [asked yielded omap list_omap asked_url yielded_url app].
- constructor; [|done]. intros H. specialize (H2 _ H). set_solver.
- intros u [->|H]%elem_of_cons; [done|]. specialize (H2 _ H). set_solver.
- simpl. lia.
- done.
- intros p Hp. destruct (H5 p Hp). split; [done|]. apply (listed_app [Asked url true locations]). by right.
- intros -> u Hu. destruct (Hq u Hu) as [?|[->|?]]; [by left|set_solver|]. destruct (H6 eq_refl u); set_solver.
- intros -> u [(i & l & H%list_elem_of_singleton & Hu)|H]%(named_app [Asked url true locations]); [simplify_eq; destruct (H6 eq_refl u)|destruct (H7 eq_refl u H)]; set_solver.
- intros -> p [H|H]%(listed_app [Asked url true locations]); [by apply Hl in H|by apply H8].
Qed.

Lemma walked_pages room queue rest seen emitted url locations ys es r : url ∉ seen ->
  (forall u, u ∈ queue -> u ∈ seen \/ u = url \/ u ∈ rest) -> asked ys = [] -> NoDup (yielded ys) ->
  (forall p, p ∈ yielded ys -> p ∉ emitted /\ p ∈ locations /\ wanted d p = true) ->
  (r = Ok () -> forall p, p ∈ locations -> wanted d p = true -> p ∈ emitted ∪ list_to_set (yielded ys)) ->
  walked room rest ({[url]} ∪ seen) (emitted ∪ list_to_set (yielded ys)) es r ->
  walked (S room) queue seen emitted (Asked url false locations :: ys ++ es) r.
Proof.
intros Hs Hq Ha Hn Hy Hall [H1 H2 H3 H4 H5 H6 H7 H8]. change (Asked url false locations :: ys ++ es) with ([Asked url false locations] ++ ys ++ es).
assert (Hno : forall u i l, Asked u i l ∉ ys) by (intros; by apply asked_nil).
split; rewrite ?asked_app, ?yielded_app, ?Ha; cbn [asked yielded omap list_omap asked_url yielded_url app]; fold (asked es) (yielded es) (yielded ys).
- constructor; [|done]. intros H. specialize (H2 _ H). set_solver.
- intros u [->|H]%elem_of_cons; [done|]. specialize (H2 _ H). set_solver.
- simpl. lia.
- apply NoDup_app. split_and!; [done| |done]. intros p Hp Hp'. destruct (H5 p Hp'). set_solver.
- intros p [Hp|Hp]%elem_of_app.
  + destruct (Hy p Hp) as (? & ? & ?). split; [done|]. exists url, locations. split; [constructor|done].
  + destruct (H5 p Hp). split; [set_solver|]. apply (listed_app [Asked url false locations]). right. apply listed_app. by right.
- intros -> u Hu. destruct (Hq u Hu) as [?|[->|?]]; [by left|set_solver|]. destruct (H6 eq_refl u); set_solver.
- intros -> u [(i & l & H%list_elem_of_singleton & _)|[(i & l & H & _)|H]%named_app]%(named_app [Asked url false locations]); [simplify_eq|by apply Hno in H|].
  destruct (H7 eq_refl u H); set_solver.
- intros -> p [(u & l & H%list_elem_of_singleton & Hp & Hw)|[(u & l & H & _)|H]%listed_app]%(listed_app [Asked url false locations]); [simplify_eq|by apply Hno in H|].
  + specialize (Hall eq_refl p Hp Hw). set_solver.
  + destruct (H8 eq_refl p H); set_solver.
Qed.

Lemma walk_spec room : forall queue seen emitted s r s', walk room queue seen emitted s = (r, s') -> exists es, s'.2 = s.2 ++ es /\ walked room queue seen emitted es r.
Proof.
induction room as [|room IH]; intros queue seen emitted s r s' H; cbn [Discovery.walk] in H; pose proof (next_unseen_spec seen queue) as Hq;
  destruct (next_unseen seen queue) as [[url rest]|]; try (injection H as <- <-; exists []; rewrite app_nil_r; split; [done|by apply walked_nothing]).
destruct Hq as (Hs & _ & Hq). unfold mbind, eff_bind in H. destruct (read_sitemap url s) as [[[index locations]|e] s1] eqn:E1; apply read_sitemap_spec in E1.
2:{ injection H as <- <-. exists []. rewrite app_nil_r. split; [done|by apply walked_nothing]. }
destruct index.
- apply IH in H as (es & E2 & Hw). exists (Asked url true locations :: es). rewrite E2, E1, <- app_assoc. split; [done|]. by eapply walked_index.
- destruct (emit_locations emitted locations s1) as [[emitted'|e] s2] eqn:E2; apply emit_locations_spec in E2 as (ys & E2 & Ha & Hn & Hy & Hr).
  + destruct (Hr _ eq_refl) as [-> Hall]. apply IH in H as (es & E3 & Hw). exists (Asked url false locations :: ys ++ es).
    rewrite E3, E2, E1, <- !app_assoc. split; [done|]. by eapply walked_pages.
  + injection H as <- <-. exists (Asked url false locations :: ys ++ []). rewrite E2, E1, <- app_assoc, app_nil_r. split; [done|].
    rewrite <- (app_nil_r ys). by eapply walked_pages; [..|apply walked_nothing].
Qed.

(** Whatever happens, no sitemap is read twice, no more than the limit are read, and the
    pages are distinct, wanted, and named by a sitemap. *)
Theorem discovery_is_bounded base s r s' : discover send decode consume d base s = (r, s') -> exists es, s'.2 = s.2 ++ es
  /\ NoDup (asked es) /\ Z.of_nat (length (asked es)) <= Z.max 0 (sd_limit d) /\ NoDup (yielded es) /\ forall p, p ∈ yielded es -> listed d es p.
Proof.
unfold discover, mbind, eff_bind, pure_result, lift. destruct (map_result _ _) as [queue|e].
- intros (es & E & [H1 _ H3 H4 H5 _ _ _])%walk_spec. exists es. split_and!; [done|done|lia|done|]. intros p Hp. by apply H5.
- intros [= <- <-]. exists []. rewrite app_nil_r. cbn. split_and!; [done|constructor|lia|constructor|by intros p ?%elem_of_nil].
Qed.

(** A discovery that ends has read every sitemap it was given and every one an index
    named, and has yielded every page of the source they list, once each. *)
Theorem discovery_lists_everything base s s' : discover send decode consume d base s = (Ok (), s') -> exists es roots, s'.2 = s.2 ++ es
  /\ map_result (urljoin base) (sd_roots d) = Ok roots /\ (forall url, url ∈ roots \/ named es url -> url ∈ asked es)
  /\ NoDup (yielded es) /\ forall p, p ∈ yielded es <-> listed d es p.
Proof.
unfold discover, mbind, eff_bind, pure_result, lift. destruct (map_result _ _) as [queue|e]; [|done].
intros (es & E & [_ _ _ H4 H5 H6 H7 H8])%walk_spec. exists es, queue. split_and!; [done|done| |done|].
- intros url [Hu|Hu]; [destruct (H6 eq_refl url Hu)|destruct (H7 eq_refl url Hu)]; set_solver.
- intros p. split; [by apply H5|]. intros Hp. destruct (H8 eq_refl p Hp); set_solver.
Qed.
End facts.

(** * A shop with an index *)

Section demo.
Let nl : string := String (chr 10) EmptyString.
Let robots : string := "User-agent: *" +:+ nl +:+ "Sitemap: https://shop.example/index.xml" +:+ nl +:+ "  sitemap :/other.xml " +:+ nl.
Let body (url : string) : string :=
  if bool_decide (url = "https://shop.example/index.xml") then "<sitemapindex><loc> /a.xml </loc><loc>/index.xml</loc></sitemapindex>"
  else if bool_decide (url = "https://shop.example/a.xml") then "<loc>/p/1</loc><LOC lang='x'>/p/2</LOC><loc>/p/1</loc><loc>/about</loc>"
  else robots.
Let answer (r : TransportRequest) : eff () mw_exn TransportResponse := mret
  {| t_status := 200; t_headers := []; t_content := body (r_url r); t_final_url := r_url r; t_route := route_of ROUTE_DIRECT;
     t_from_cache := false; t_elapsed := 0; t_accounting := None |}.
Let products (limit : Z) : SitemapDiscovery := {| sd_roots := ["/index.xml"]; sd_product_pattern := Some (rx re_I "/p/"); sd_limit := limit |}.

Example advertised : (advertised_sitemaps answer id "https://shop.example/shop" ((), [])).1
  = Ok ["https://shop.example/index.xml"; "https://shop.example/other.xml"].
Proof. vm_compute. reflexivity. Qed.
Example discovered : let r := discover answer id (fun _ => mret ()) (products 2) "https://shop.example" ((), []) in
  r.1 = Ok () /\ asked r.2.2 = ["https://shop.example/index.xml"; "https://shop.example/a.xml"]
  /\ yielded r.2.2 = ["https://shop.example/p/1"; "https://shop.example/p/2"].
Proof. vm_compute. done. Qed.
(** One sitemap too many is reported, after the pages of the others. *)
Example one_too_many : (discover answer id (fun _ => mret ()) (products 1) "https://shop.example" ((), [])).1
  = Err (DiscoveryFailure "sitemap traversal limit 1 reached" true).
Proof. vm_compute. reflexivity. Qed.
End demo.
